(* ===== verification/_CoqProject ===== *)
-Q . S2P
Prelude.v
PyDict.v
PyValues.v
PyText.v
PyTime.v
PyFloat.v
Wire.v
Messages.v
MessageTypes.v
Stamping.v
Dedup.v
RingCompletion.v
Checkpoint.v
RingNode.v
PyRepr.v
Filters.v
GroupBy.v
Spill.v
SpillLog.v
Aggregates.v
NodeFits.v
NodeSystem.v
UC4.v
UC4Paths.v
FloatBounds.v
MergeFns.v
UC4Prune.v
ShardLog.v
UC4Graphs.v
UC4Degrees.v
UC4Build.v
Fleet.v
UC4Stages.v
MergeProps.v
RingMerge.v
Joins.v
JoinProps.v
UC4System.v
JoinRoute.v
Ring.v
RingBarrier.v
Connection.v
Registry.v
Election.v
Dashboard.v
Heartbeat.v
Gateway.v
Client.v
ClientProps.v
ClientSession.v
Oracle.v
OracleProps.v
OracleTables.v
Sampled.v
OracleLines.v
OracleMatch.v
UC1Match.v
UC2Match.v
UC3Sums.v
UC3Match.v
SampledMatch.v
UC5Match.v
Amqp.v
Nodes.v
AmqpProps.v
Compose.v
Deployment.v
Network.v
Chaos.v
Revival.v
Processes.v
