(* ===== verification/Prelude.v ===== *)
(** * Verification of the distributed money-laundering analysis pipeline

    The program under [src/src] answers five use cases over a file of bank transfers.
    A client uploads its transactions and accounts to a gateway; default filters pick
    the transactions of each use case; fleets of group-by, aggregate, merge and filter
    nodes, joined by queues of a broker, compute the answers; join nodes send them back
    through the gateway. Every fleet is a ring of peers that agree on the end of a
    client's input; every node keeps a checkpoint, drops what it has processed before,
    and is watched and started again by supervisors that elect a leader. The network is
    generated by [src/scripts/gen_compose], and tested against the answers
    [src/scripts/gen_input_output.py] computes. Paths below are relative to [src/src]
    unless they start with [scripts].

    ** The files, by part

    The language and its library.
    - [Prelude]: exceptions and the error monad, lists, options, tactics and hints.
    - [PyDict], [PyValues], [PyText], [PyTime], [PyFloat], [PyRepr]: dicts and sets in
      insertion order with [__eq__] of the keys, bytes, UUIDs, [str] and [int], dates,
      binary64 floats (the executable IEEE 754 of the Standard Library), [repr] and
      JSON, which are concrete definitions with their round trips.
    - [Wire]: dynamic values, and msgpack as a class ([MsgPack]) with its documented
      round trip and an instance for the witnesses.

    Messages and their transport.
    - [Messages] ([common/comms/messages], [common/data]): every message class, the
      layout of the header, [serialize], [deserialize], [deserialize_message] and their
      errors; round trip and error theorems. [MessageTypes]: what a received message is.
    - [Stamping] ([stamping_mom.py], [make_rx_tx.py]): producer ids, sequence numbers,
      the routes of a node.
    - [Connection] ([common/comms/transport/connection.py]): length-prefixed framing over
      chunks of a stream; round trip.
    - [Amqp] ([common/comms/middleware/*_rabbitmq.py], [multi_consumer.py], [_ack.py]):
      every call on the broker's library, in order, and what becomes of its exceptions,
      in a monad of traces and results. [AmqpProps]: what a send has published when it
      returns or raises; what a node of a ring listens to.

    One node: effects once, whatever crashes.
    - [Dedup] ([deduplicator.py]): the high-water marks refine the set of the (producer,
      number) pairs seen, in bounded space for ordered input.
    - [RingCompletion] ([ring_completion.py], [sent_counts.py]): the per-client end of
      file of a peer, as a refinement of an abstract machine; one emission per client.
    - [Checkpoint] ([common/checkpoint]): the checkpointer over any business state
      ([Snapshotable]): deduplication, batched checkpoints, held acknowledgements,
      [dispatch]; what a checkpoint restores, and that a redelivery changes nothing.
    - [RingNode] ([common/comms/eof_handler/ring_node.py], [filter/ring_*.py],
      [group_by/ring_group_by.py], [aggregate/ring_aggregate.py]): the controllers, a
      record of the methods the subclasses override; a checkpoint precedes the results,
      and the counts announced downstream are those sent.
    - [NodeFits], [NodeSystem]: a node of a ring with the broker's queue, its checkpoint
      file and its crashes, as a step relation over the handlers of [RingNode]: data,
      ends of file, aborts and tokens delivered again and again, kills between any two
      effects, restarts. Of the nodes whose checkpoint holds their whole state (filters,
      group-bys, aggregates in memory: [NodeFits]), what is acknowledged survives, and
      data counts once. Functions that spill to files and the join nodes are not among
      them: [Spill] and [JoinRoute] say what a crash leaves of those.
    - [RingMerge] ([merge/ring_merge.py]): the node with two inputs.
    - [JoinRoute] ([join/join_route_handler.py]): one answer per client, and the lock a
      handler asks for twice.
    - [Ring], [RingBarrier] ([ring_rabbitmq.py] with [ring_completion.py]): the ring of
      all the peers; one end of file downstream with everybody's totals, and termination.
    - [Spill], [SpillLog] ([persistent_spill.py], [multi_shard_spill.py],
      [line_spill.py]): files with buffered writes, what a checkpoint and a crash leave
      of them, and the log of lines they stand for.

    What the nodes compute.
    - [Filters] ([filter/filter_fns]), [GroupBy] ([group_by/group_by_fns],
      [common/conversion]), [Aggregates] and [UC4] ([aggregate/aggregate_fns]),
      [MergeFns] ([merge/merge_fns]), [Joins] ([join/join_fns]): every function of every
      strategy. Properties: [Filters], [Aggregates], [MergeProps], [JoinProps], and for
      UC4 [UC4Paths], [UC4Prune] with [FloatBounds], [ShardLog], [UC4Graphs],
      [UC4Degrees], [UC4Build]: no spill, checkpoint, cap, tile or interleaving changes
      a result.
    - [Fleet], [UC4Stages], [UC4System]: the stages of UC4 as fleets of nodes, and the
      whole network from the transactions to the accounts of the answer.
    - [Oracle], [OracleTables], [Sampled] ([scripts/gen_input_output.py]): the script that
      computes the expected answers, chunk by chunk or from a sample in memory;
      [OracleProps], [UC3Sums] (sums of floats added in any order), [OracleLines] (what a
      line of a file is for it and for the client). [UC1Match], [UC2Match], [UC3Match],
      [OracleMatch] (UC4), [UC5Match]: the network gives the answer of the script, in
      UC2 up to payments that tie and in UC3 when rounding decides no payment;
      [SampledMatch]: so does the script's other mode.

    The ends of the system and its supervision.
    - [Gateway] ([gateway/client_stream_handler.py], [client_stream_monitor.py]),
      [Client], [ClientProps], [ClientSession] ([client]): a whole upload between the two
      programs, its abort, and the file of responses.
    - [Registry] ([supervisor/registry.py], [reviver.py], [common/comms/supervisor]),
      [Dashboard] ([supervisor/tui.py]), [Election] ([supervisor/server.py],
      [supervisor/runtime]), [Heartbeat] ([common/heartbeat/client.py]): who is alive,
      what the operator sees, who leads, what is started again.
    - [Processes] ([common/heartbeat/run.py], [client/main.py], [gateway/gateway.py],
      [join/join.py]): how programs start and stop.

    The deployment.
    - [Nodes]: the [main.py] of every kind of node, [checkpoint/factory.py],
      [heartbeat/factory.py]: what a process builds from its environment.
    - [Compose] ([scripts/gen_compose]): the text of the Compose file and the
      environment of every service in it.
    - [Deployment], [Network]: the generated environments given to the entry points; for
      every topology, the network they form is wired, and every node of it is watched.
    - [Chaos] ([chaos/main.py], [common/fault_injection.py]), [Revival]: which
      containers are killed, and that a leader starts them again when its
      [REVIVE_INTERVAL] is positive, and only then.

    ** How state and operations correspond

    An object is a record of its attributes; a method takes the record and returns the
    new one, with its effects (publications, writes of the checkpoint, acks, responses)
    as a list in program order, so that a crash is a prefix of the list. A method that
    can raise returns [res]. Callbacks and the state a class shares with others are
    passed as arguments ([JoinFn], [App], [World]). A definition has the name of the
    source, or of the class and the method when the name alone would be ambiguous;
    definitions of proofs (abstract specifications, systems of several components,
    concrete inputs called [demo_...]) are named in the text around them.

    Arguments that stand for what is not in the repository: msgpack, [uuid5], [hash], the
    broker (a function from the calls so far to the exception of the last one), pandas'
    [drop_duplicates], [random.sample], the answers of the conversion service, the clocks,
    and what a socket delivers. Their laws are hypotheses of the theorems that need them
    (two names told apart by [uuid5], [drop_duplicates] keeping what occurs in a list, a
    sample being a part of its population).

    ** Bounds and fuel

    Integers of the wire keep their width: a number that does not fit its bytes is the
    error the source raises. The loops that are not structural run on fuel that is
    enough, which is proved where they are used: the deduplicator's [advance] gets one
    turn per number it holds, and one more; [chunks] of the merge one per element;
    the gateway's [forward_loop] one per byte of the stream, and one more; [json_value]
    one per character. The retries of the source (connections, conversions) are the
    numbers of the source. Thresholds of spilling, chunk, batch and tile sizes are
    arguments wherever a result must not depend on them; the constants of the source are
    defined beside them.

    ** What is idealised

    A set is enumerated in the order of its insertions; theorems about results speak of
    membership, or hold for any order of arrival. Text is ASCII, one byte a character.
    A decoded field of another type than its annotation, which the source stores as it
    is, is [Untyped]: the model stops there, and a theorem about a message that
    deserializes speaks of messages whose fields have the annotated types. In the models
    of single nodes and of fleets a publication to the broker succeeds: [Amqp] says what
    happens when it does not. Threads, processes and sockets appear as sequences of
    events, each handled whole, except where a crash is part of the model. Docker Compose
    leaves a variable whose value holds no dollar sign as it is; of the others nothing is
    assumed.

    ** Not modelled

    Logging, signal installation ([graceful_shutdown.py]), the loop that prints the
    frames of [supervisor/tui.py], the docker command line and the creation of sockets:
    no state of the program depends on them. Of [scripts/gen_input_output.py] the loop
    over the clients and the links it makes to files; what it asks of pandas and numpy
    are parameters with their documented behaviour. The benchmark, plotting and
    end-to-end test scripts, and the tests, which drive Docker and files. *)

From stdpp Require Export base tactics list gmap sets strings countable sorting.
From stdpp Require Export relations.
From Stdlib Require Export ZArith Lia.

#[global] Open Scope Z_scope.

(** ** Results: the exceptions the source raises, and an error monad

    [Untyped] is no exception of the source: it is the result of a model that is given
    a field of another type than the source annotates. The source stores such a field
    as it is; the records here have no place for it, and nothing is said of what the
    program does from there on. *)

Inductive pyexc :=
  | ValueError
  | TypeError
  | KeyError
  | IndexError
  | OverflowError
  | ZeroDivisionError
  | AttributeError
  | OSError
  | RuntimeError
  | NotImplementedError
  | UnexpectedMessageError
  | UnknownMessageError
  | MOMRingError
  | ConversionAPIError
  | LeaderDownError
  | ReplicaDownError
  | StopIteration
  | ConnectionError
  | MOMDisconnectedError
  | MOMMessageError
  | MOMCloseError
  | AMQPConnectionError
  | ConnectionWrongStateError
  | AMQPError
  | Untyped.

Inductive res (A : Type) :=
  | Ok (a : A)
  | Exc (e : pyexc).
Arguments Ok {A} a.
Arguments Exc {A} e.

#[export] Instance pyexc_eq_dec : EqDecision pyexc.
Proof. solve_decision. Defined.
#[export] Instance res_eq_dec `{EqDecision A} : EqDecision (res A).
Proof. solve_decision. Defined.

#[export] Instance res_ret : MRet res := λ A a, Ok a.
#[export] Instance res_bind : MBind res := λ A B f r,
  match r with Ok a => f a | Exc e => Exc e end.
#[export] Instance res_fmap : FMap res := λ A B f r,
  match r with Ok a => Ok (f a) | Exc e => Exc e end.

Definition is_ok {A} (r : res A) : bool :=
  match r with Ok _ => true | Exc _ => false end.

(** [of_opt e o]: the value of [o], or the exception [e]. *)
Definition of_opt {A} (e : pyexc) (o : option A) : res A :=
  match o with Some a => Ok a | None => Exc e end.

(** [guard_exc e b]: raise [e] unless [b]. *)
Definition guard_exc (e : pyexc) (b : bool) : res unit :=
  if b then Ok tt else Exc e.

(** Map a fallible function over a list, left to right, stopping at the first
    exception. *)
Fixpoint mapR {A B} (f : A → res B) (l : list A) : res (list B) :=
  match l with
  | [] => Ok []
  | x :: l => y ← f x; ys ← mapR f l; Ok (y :: ys)
  end.

Lemma bind_Ok {A B} (f : A → res B) r b :
  (r ≫= f) = Ok b ↔ ∃ a, r = Ok a ∧ f a = Ok b.
Proof.
  destruct r as [a|e]; cbn; (split; [intros H|intros (a' & H & H')]); eauto; congruence.
Qed.

Lemma of_opt_Ok {A} e (o : option A) a : of_opt e o = Ok a ↔ o = Some a.
Proof. destruct o; simpl; naive_solver. Qed.

Lemma mapR_map {A B C} (f : B → res C) (g : A → B) (h : A → C) (l : list A) :
  (∀ x, x ∈ l → f (g x) = Ok (h x)) → mapR f (g <$> l) = Ok (h <$> l).
Proof.
  induction l as [|x l IH]; intros Hf; [done|]. rewrite !fmap_cons. cbn [mapR].
  rewrite Hf by left. rewrite IH; [done|]. intros y Hy. apply Hf. by right.
Qed.

Lemma mapR_length {A B} (f : A → res B) l l' :
  mapR f l = Ok l' → length l' = length l.
Proof.
  revert l'; induction l as [|x l IH]; intros l' H; simpl in *; [by simplify_eq|].
  apply bind_Ok in H as (y & _ & H). apply bind_Ok in H as (ys & H & Heq).
  simplify_eq; simpl. by rewrite (IH ys).
Qed.

Lemma mapR_app {A B} (f : A → res B) l1 l2 r1 r2 :
  mapR f l1 = Ok r1 → mapR f l2 = Ok r2 → mapR f (l1 ++ l2) = Ok (r1 ++ r2).
Proof.
  revert r1. induction l1 as [|x l1 IH]; intros r1 H1 H2; cbn in H1 |- *; [by injection H1 as <-|].
  apply bind_Ok in H1 as (y & -> & H1). apply bind_Ok in H1 as (ys & H1 & [= <-]). cbn.
  by rewrite (IH _ H1 H2).
Qed.

(** Destructs every bind of the hypotheses that returned normally. *)
Ltac res_inv :=
  repeat match goal with
  | H : (_ ≫= _) = Ok _ |- _ => apply bind_Ok in H as (? & ? & ?)
  | H : of_opt _ _ = Ok _ |- _ => apply of_opt_Ok in H
  | H : Ok _ = Ok _ |- _ => injection H as ?
  | H : Exc _ = Ok _ |- _ => discriminate H
  | H : Ok _ = Exc _ |- _ => discriminate H
  end; subst.

(** Runs a fallible step over a list. *)
Fixpoint foldR {A B} (f : A → B → res A) (a : A) (l : list B) : res A :=
  match l with
  | [] => Ok a
  | b :: l => a ← f a b; foldR f a l
  end.

Lemma foldR_app {A B} (f : A → B → res A) a l1 l2 : foldR f a (l1 ++ l2) = (a ← foldR f a l1; foldR f a l2).
Proof.
  revert a. induction l1 as [|b l1 IH]; intros a; [done|]. cbn [foldR app].
  destruct (f a b); cbn [mbind res_bind]; [apply IH|done].
Qed.

(** ** Sequences of steps *)

(** Runs a list of inputs through a step function, collecting the outputs. *)
Fixpoint run_steps {S I O} (step : S → I → S * list O) (s : S) (is_ : list I)
    : S * list O :=
  match is_ with
  | [] => (s, [])
  | i :: is_ =>
      let '(s1, o1) := step s i in
      let '(s2, o2) := run_steps step s1 is_ in (s2, o1 ++ o2)
  end.

Lemma run_steps_app {S I O} (step : S → I → S * list O) s l1 l2 :
  run_steps step s (l1 ++ l2) =
    let '(s1, o1) := run_steps step s l1 in
    let '(s2, o2) := run_steps step s1 l2 in (s2, o1 ++ o2).
Proof.
  revert s; induction l1 as [|i l1 IH]; intros s; simpl.
  - by destruct (run_steps step s l2).
  - destruct (step s i) as [s1 o1]. rewrite IH.
    destruct (run_steps step s1 l1) as [s2 o2].
    destruct (run_steps step s2 l2) as [s3 o3]. by rewrite app_assoc.
Qed.

(** A predicate preserved by every step holds at every reachable state. *)
Lemma rtc_invariant {A} (R : relation A) (P : A → Prop) x y :
  (∀ a b, P a → R a b → P b) → rtc R x y → P x → P y.
Proof. intros Hstep Hr. induction Hr; eauto. Qed.

Lemma foldl_invariant {A B} (f : A → B → A) (P : A → Prop) l a :
  P a → (∀ a b, P a → b ∈ l → P (f a b)) → P (foldl f a l).
Proof.
  revert a; induction l as [|b l IH]; intros a Ha Hf; simpl; [done|].
  apply IH; [apply Hf; [done|left]|]. intros; apply Hf; [done|by right].
Qed.

Lemma filter_Forall_all {A} (P : A → Prop) `{!∀ x, Decision (P x)} (l : list A) :
  Forall P l → filter P l = l.
Proof.
  induction 1 as [|x l Hx _ IH]; [done|]. by rewrite filter_cons_True, IH.
Qed.

Lemma Forall_filter_keep {A} (P Q : A → Prop) `{!∀ x, Decision (P x)} (l : list A) :
  Forall Q l → Forall Q (filter P l).
Proof. rewrite !Forall_forall. intros HQ x [_ Hx]%list_elem_of_filter. by apply HQ. Qed.

Lemma filter_Forall_none {A} (P : A → Prop) `{!∀ x, Decision (P x)} (l : list A) :
  Forall (λ x, ¬ P x) l → filter P l = [].
Proof.
  induction 1 as [|x l Hx _ IH]; [done|]. by rewrite filter_cons_False.
Qed.

Lemma filter_ext_elem {A} (P Q : A → Prop) `{!∀ x, Decision (P x), !∀ x, Decision (Q x)} (l : list A) :
  (∀ x, x ∈ l → P x ↔ Q x) → filter P l = filter Q l.
Proof.
  induction l as [|x l IH]; intros Hl; [done|]. rewrite !filter_cons.
  rewrite IH; [|intros y Hy; apply Hl; by apply elem_of_cons; right].
  assert (Hx : P x ↔ Q x) by (apply Hl; by apply elem_of_cons; left).
  destruct (decide (P x)), (decide (Q x)); tauto.
Qed.

(** Counting with a boolean test. *)
Lemma filter_bool_cons {A} (f : A → bool) x l :
  length (filter (λ e, f e = true) (x :: l)) = ((if f x then 1 else 0) + length (filter (λ e, f e = true) l))%nat.
Proof. destruct (f x) eqn:E; [by rewrite filter_cons_True|rewrite filter_cons_False by congruence; done]. Qed.

Lemma filter_bool_split {A} (f : A → bool) l :
  length l = (length (filter (λ e, f e = true) l) + length (filter (λ e, f e = false) l))%nat.
Proof.
  induction l as [|x l IH]; [done|]. rewrite filter_bool_cons. cbn [length]. destruct (f x) eqn:E.
  - rewrite filter_cons_False by congruence. lia.
  - rewrite filter_cons_True by done. cbn [length]. lia.
Qed.

Lemma existsb_count {A} (f : A → bool) l :
  existsb f l = bool_decide (0 < length (filter (λ e, f e = true) l))%nat.
Proof.
  induction l as [|x l IH]; [done|]. rewrite filter_bool_cons. cbn [existsb]. rewrite IH.
  destruct (f x); [|done]. cbn [orb]. by rewrite bool_decide_eq_true_2 by lia.
Qed.

Lemma NoDup_fst_inj {A B} (l : list (A * B)) a b b' :
  NoDup l.*1 → (a, b) ∈ l → (a, b') ∈ l → b = b'.
Proof.
  induction l as [|[a0 b0] l IH]; csimpl; [set_solver|].
  intros [Hn Hd]%NoDup_cons [H1|H1]%elem_of_cons [H2|H2]%elem_of_cons; simplify_eq; [done|..].
  - destruct Hn. apply list_elem_of_fmap. by exists (a0, b').
  - destruct Hn. apply list_elem_of_fmap. by exists (a0, b).
  - auto.
Qed.

Lemma elem_concat {A} (x : A) (ls : list (list A)) : x ∈ List.concat ls ↔ ∃ l, l ∈ ls ∧ x ∈ l.
Proof.
  rewrite list_elem_of_In, in_concat. by setoid_rewrite <- list_elem_of_In.
Qed.

(** ** Sums *)

Definition zsum (l : list Z) : Z := foldr Z.add 0 l.

Lemma zsum_app l1 l2 : zsum (l1 ++ l2) = zsum l1 + zsum l2.
Proof. unfold zsum. induction l1; simpl; lia. Qed.

Lemma zsum_perm l1 l2 : l1 ≡ₚ l2 → zsum l1 = zsum l2.
Proof. unfold zsum. induction 1; simpl; lia. Qed.

Lemma zsum_fmap_ext {A} (f g : A → Z) l :
  (∀ x, x ∈ l → f x = g x) → zsum (f <$> l) = zsum (g <$> l).
Proof.
  induction l as [|x l IH]; intros H; csimpl; [done|].
  unfold zsum in *; csimpl. rewrite (H x) by left. rewrite IH; [done|].
  intros; apply H; by right.
Qed.

Lemma zsum_fmap_zero {A} (f : A → Z) l :
  (∀ x, x ∈ l → f x = 0) → zsum (f <$> l) = 0.
Proof.
  intros H. rewrite (zsum_fmap_ext f (λ _, 0) l H).
  clear H. unfold zsum. induction l; csimpl; lia.
Qed.

Lemma zsum_fmap_add {A} (f g : A → Z) l :
  zsum ((λ x, f x + g x) <$> l) = zsum (f <$> l) + zsum (g <$> l).
Proof. unfold zsum. induction l; csimpl; lia. Qed.

Lemma zsum_nonneg l : Forall (λ x, 0 ≤ x) l → 0 ≤ zsum l.
Proof. unfold zsum. induction 1; simpl; lia. Qed.

Lemma fmap_concat {B C} (f : B → C) (ls : list (list B)) : (f <$> List.concat ls : list C) = List.concat ((λ l : list B, f <$> l) <$> ls).
Proof. apply List.concat_map. Qed.

(** ** Hints and automation *)

Create HintDb py.
Create Rewrite HintDb pyrw.
#[export] Hint Rewrite @zsum_app : pyrw.
