(* ===== verification/PyDict.v ===== *)
(** * Python dicts and sets

    A [dict] keeps its items in insertion order: assigning to a present key
    replaces the value in place (the first key object stays), assigning to a new
    key appends, deleting removes.  Keys are compared by [__eq__], which is not
    always structural ([Node] and [Path] compare a derived string), so the key
    type comes with a [PyKey] instance that says what [__eq__] compares.

    A [set] is the list of its members without repetition.  The language leaves
    the enumeration order of a set unspecified: theorems about sets speak of
    membership, or hold for every list that enumerates the set. *)

From S2P Require Import Prelude.

(** ** Keys *)

Class PyKey (K : Type) := {
  key_repr : Type;
  key_of : K → key_repr;
  #[global] key_dec :: EqDecision key_repr
}.

(** [a == b] in the source. *)
Definition pyeq `{PyKey K} (a b : K) : Prop := key_of a = key_of b.

#[export] Instance pyeq_dec `{PyKey K} (a b : K) : Decision (pyeq a b) :=
  key_dec (key_of a) (key_of b).

#[export] Instance pyeq_equiv `{PyKey K} : Equivalence (@pyeq K _).
Proof. split; unfold pyeq; repeat intro; congruence. Qed.

(** Keys compared structurally. *)
Definition structural_key (K : Type) `{EqDecision K} : PyKey K :=
  {| key_repr := K; key_of := id |}.

#[export] Instance Z_key : PyKey Z := structural_key Z.
#[export] Instance string_key : PyKey string := structural_key string.
#[export] Instance prod_key `{PyKey A, PyKey B} : PyKey (A * B) :=
  {| key_repr := key_repr (K:=A) * key_repr (K:=B);
     key_of := λ p, (key_of p.1, key_of p.2) |}.

(** ** Dicts *)

Abbreviation pydict K V := (list (K * V)).

Section dict.
Context {K V : Type} `{!PyKey K}.
Implicit Types (d : pydict K V) (k : K) (v : V).

(** [d.get(k)] *)
Fixpoint dget d k : option V :=
  match d with
  | [] => None
  | (k', v) :: d => if decide (pyeq k' k) then Some v else dget d k
  end.

(** [k in d] *)
Definition dmem d k : bool := match dget d k with Some _ => true | None => false end.

(** [d[k] = v] *)
Fixpoint dset d k v : pydict K V :=
  match d with
  | [] => [(k, v)]
  | (k', v') :: d => if decide (pyeq k' k) then (k', v) :: d else (k', v') :: dset d k v
  end.

(** [d.pop(k, None)], the dict part *)
Fixpoint ddel d k : pydict K V :=
  match d with
  | [] => []
  | (k', v') :: d => if decide (pyeq k' k) then d else (k', v') :: ddel d k
  end.

(** [d.get(k, dflt)] *)
Definition dget_or (dflt : V) d k : V := default dflt (dget d k).

(** [d[k]] *)
Definition dindex d k : res V := of_opt KeyError (dget d k).

(** [d.setdefault(k, v)], the dict part: [dget_or v d k] is the value. *)
Definition dsetdefault d k v : pydict K V := if dmem d k then d else dset d k v.

(** [d.keys()] and [d.values()] *)
Definition dkeys d : list K := d.*1.
Definition dvalues d : list V := d.*2.

(** [d.update(e)]; also the value of a dict display or comprehension. *)
Definition dupdate d (e : list (K * V)) : pydict K V :=
  foldl (λ d kv, dset d kv.1 kv.2) d e.
Definition dict_of (e : list (K * V)) : pydict K V := dupdate [] e.

(** A well-formed dict: no two keys are equal. *)
Definition dict_wf d : Prop := NoDup (key_of <$> dkeys d).

(** Two dicts with the same lookups ([==] on dicts, up to values). *)
Definition dict_equiv (d1 d2 : pydict K V) : Prop := ∀ k, dget d1 k = dget d2 k.

#[export] Instance dict_equiv_equivalence : Equivalence dict_equiv.
Proof. split; unfold dict_equiv; repeat intro; congruence. Qed.

Lemma dget_nil k : dget [] k = None.
Proof. done. Qed.

Lemma dget_dset d k v k' :
  dget (dset d k v) k' = if decide (pyeq k k') then Some v else dget d k'.
Proof.
  induction d as [|[k0 v0] d IH]; simpl; [done|].
  unfold pyeq in *. repeat (simpl; case_decide); try done; congruence.
Qed.

Lemma dget_dset_eq d k v : dget (dset d k v) k = Some v.
Proof. rewrite dget_dset. by rewrite decide_True. Qed.

Lemma dget_dset_ne d k v k' : ¬ pyeq k k' → dget (dset d k v) k' = dget d k'.
Proof. intros. rewrite dget_dset. by rewrite decide_False. Qed.

Lemma dget_or_dset z d k v k' :
  dget_or z (dset d k v) k' = if decide (pyeq k k') then v else dget_or z d k'.
Proof. unfold dget_or. rewrite dget_dset. by case_decide. Qed.

Lemma dget_pyeq d k k' : pyeq k k' → dget d k = dget d k'.
Proof.
  intros He. induction d as [|[k0 v0] d IH]; simpl; [done|].
  unfold pyeq in *. repeat case_decide; congruence.
Qed.

Lemma dget_None d k : dget d k = None ↔ key_of k ∉ key_of <$> dkeys d.
Proof.
  induction d as [|[k0 v0] d IH]; csimpl; [set_solver|].
  rewrite not_elem_of_cons, <- IH. unfold pyeq. case_decide as Hk.
  - split; [done|]. intros [Hn _]. congruence.
  - split; [|by intros [_ ?]]. split; [congruence|done].
Qed.

Lemma dget_Some_elem d k v : dget d k = Some v → ∃ k', pyeq k' k ∧ (k', v) ∈ d.
Proof.
  induction d as [|[k0 v0] d IH]; simpl; [done|].
  case_decide as Hk; intros.
  - simplify_eq. exists k0. split; [done|left].
  - destruct IH as (k' & ? & ?); [done|]. exists k'. split; [done|by right].
Qed.

Lemma elem_dget d k v : dict_wf d → (k, v) ∈ d → dget d k = Some v.
Proof.
  unfold dict_wf. induction d as [|[k0 v0] d IH]; csimpl; [set_solver|].
  intros [Hn Hd]%NoDup_cons [Heq|Hin]%elem_of_cons.
  - simplify_eq. by rewrite decide_True.
  - rewrite decide_False; [by apply IH|]. unfold pyeq. intros He. apply Hn.
    rewrite He. apply list_elem_of_fmap. exists k. split; [done|].
    apply list_elem_of_fmap. by exists (k, v).
Qed.

Lemma dget_ddel d k k' : dict_wf d →
  dget (ddel d k) k' = if decide (pyeq k k') then None else dget d k'.
Proof.
  unfold dict_wf. induction d as [|[k0 v0] d IH]; csimpl.
  - by case_decide.
  - intros [Hn Hd]%NoDup_cons. specialize (IH Hd).
    destruct (decide (pyeq k0 k)) as [He|He]; simpl.
    + case_decide as Hk; [|by rewrite decide_False by (unfold pyeq in *; congruence)].
      apply dget_None. unfold pyeq in *. by rewrite <- Hk, <- He.
    + rewrite IH. unfold pyeq in *. repeat case_decide; congruence.
Qed.

Lemma dget_dsetdefault d k v k' :
  dget (dsetdefault d k v) k' =
    if decide (pyeq k k') then Some (dget_or v d k) else dget d k'.
Proof.
  unfold dsetdefault, dmem, dget_or. destruct (dget d k) as [v0|] eqn:E; simpl.
  - case_decide; [|done]. by rewrite <- (dget_pyeq d k k').
  - apply dget_dset.
Qed.

Lemma dkeys_dset d k v :
  key_of <$> dkeys (dset d k v) =
    if dmem d k then key_of <$> dkeys d else (key_of <$> dkeys d) ++ [key_of k].
Proof.
  unfold dmem. induction d as [|[k0 v0] d IH]; [done|]. csimpl.
  case_decide as Hk; csimpl; [done|]. rewrite IH. by destruct (dget d k).
Qed.

Lemma dset_wf d k v : dict_wf d → dict_wf (dset d k v).
Proof.
  unfold dict_wf. rewrite dkeys_dset. unfold dmem.
  destruct (dget d k) eqn:E; [done|]. intros Hd. apply NoDup_app.
  apply dget_None in E. split_and!; [done|set_solver|apply NoDup_singleton].
Qed.

Lemma dkeys_ddel_sub d k : dkeys (ddel d k) `sublist_of` dkeys d.
Proof.
  induction d as [|[k0 v0] d IH]; csimpl; [done|].
  case_decide; csimpl; by constructor.
Qed.

Lemma ddel_wf d k : dict_wf d → dict_wf (ddel d k).
Proof.
  unfold dict_wf. intros Hd. eapply sublist_NoDup; [exact Hd|].
  apply fmap_sublist, dkeys_ddel_sub.
Qed.

Lemma dsetdefault_wf d k v : dict_wf d → dict_wf (dsetdefault d k v).
Proof. unfold dsetdefault. destruct (dmem d k); [done|]. apply dset_wf. Qed.

Lemma nil_wf : dict_wf [].
Proof. apply NoDup_nil_2. Qed.

Lemma dupdate_wf d e : dict_wf d → dict_wf (dupdate d e).
Proof. intros. unfold dupdate. apply foldl_invariant; [done|]. intros. by apply dset_wf. Qed.

Lemma dict_of_wf e : dict_wf (dict_of e).
Proof. apply dupdate_wf, nil_wf. Qed.

Lemma dset_fresh d k v : dget d k = None → dset d k v = d ++ [(k, v)].
Proof.
  induction d as [|[k0 v0] d IH]; simpl; [done|]. case_decide; [done|].
  intros. by rewrite IH.
Qed.

Lemma dget_app d1 d2 k :
  dget (d1 ++ d2) k = match dget d1 k with Some v => Some v | None => dget d2 k end.
Proof. induction d1 as [|[k0 v0] d1 IH]; simpl; [done|]. by case_decide. Qed.

Lemma dupdate_fresh d e :
  dict_wf (d ++ e) → dupdate d e = d ++ e.
Proof.
  unfold dupdate. revert d; induction e as [|[k v] e IH]; intros d Hwf.
  { by rewrite app_nil_r. }
  cbn [foldl fst snd]. rewrite dset_fresh.
  - rewrite IH by (by rewrite <- app_assoc). by rewrite <- app_assoc.
  - apply dget_None. unfold dict_wf, dkeys in *. rewrite !fmap_app in Hwf.
    apply NoDup_app in Hwf as (_ & Hd & _). intros Hin. apply (Hd _ Hin). csimpl. left.
Qed.

(** A dict rebuilt from its own items is the dict. *)
Lemma dict_of_items d : dict_wf d → dict_of d = d.
Proof. intros. by apply (dupdate_fresh []). Qed.

Lemma dget_dupdate d e k :
  dget (dupdate d e) k = match dget (reverse e) k with Some v => Some v | None => dget d k end.
Proof.
  unfold dupdate. revert d; induction e as [|[k0 v0] e IH]; intros d; [done|].
  cbn [foldl fst snd]. rewrite IH, reverse_cons, dget_app, dget_dset. simpl.
  destruct (dget (reverse e) k); [done|]. by case_decide.
Qed.

#[export] Instance dget_proper : Proper (dict_equiv ==> pyeq ==> eq) dget.
Proof. intros d1 d2 Hd k1 k2 Hk. rewrite Hd. by apply dget_pyeq. Qed.

#[export] Instance dset_proper : Proper (dict_equiv ==> pyeq ==> eq ==> dict_equiv) dset.
Proof.
  intros d1 d2 Hd k1 k2 Hk v ? <- k. rewrite !dget_dset, Hd.
  unfold pyeq in *. repeat case_decide; congruence.
Qed.
End dict.

#[export] Hint Resolve dset_wf ddel_wf dsetdefault_wf nil_wf dupdate_wf dict_of_wf : py.
#[export] Hint Rewrite @dget_dset_eq @dget_nil : pyrw.

(** Case analysis on the lookups of the goal after assignments and deletions. *)
Ltac dict_simp :=
  repeat (first
    [ progress rewrite ?dget_dset_eq in *
    | rewrite dget_dset in * || rewrite dget_dsetdefault in *
    | rewrite dget_ddel in * by eauto with py
    | case_decide ]; simplify_eq/=).

(** ** Mapping over the values and keys of a dict *)

Definition dmap_values {K V W} (f : V → W) (d : pydict K V) : pydict K W :=
  (λ kv, (kv.1, f kv.2)) <$> d.

Lemma dget_dmap_values {K V W} `{!PyKey K} (f : V → W) (d : pydict K V) k :
  dget (dmap_values f d) k = f <$> dget d k.
Proof.
  unfold dmap_values. induction d as [|[k0 v0] d IH]; csimpl; [done|]. by case_decide.
Qed.

Lemma dkeys_dmap_values {K V W} (f : V → W) (d : pydict K V) :
  dkeys (dmap_values f d) = dkeys d.
Proof. unfold dkeys, dmap_values. rewrite <- list_fmap_compose. done. Qed.

Lemma dmap_values_wf {K V W} `{!PyKey K} (f : V → W) (d : pydict K V) :
  dict_wf d → dict_wf (dmap_values f d).
Proof. unfold dict_wf. by rewrite dkeys_dmap_values. Qed.

#[export] Hint Resolve dmap_values_wf : py.

(** Sum of the values of a dict of integers. *)
Definition dsum {K} (d : pydict K Z) : Z := zsum (dvalues d).

(** [d[k] = d.get(k, 0) + n] *)
Definition dadd {K} `{!PyKey K} (d : pydict K Z) (k : K) (n : Z) : pydict K Z :=
  dset d k (dget_or 0 d k + n).

Section dadd.
Context {K : Type} `{!PyKey K}.
Implicit Types (d : pydict K Z) (k : K) (n : Z).

Lemma dget_or_dadd d k n k' :
  dget_or 0 (dadd d k n) k' = dget_or 0 d k' + (if decide (pyeq k k') then n else 0).
Proof.
  unfold dadd, dget_or. rewrite dget_dset. case_decide as Hk; simpl; [|lia].
  by rewrite (dget_pyeq d k k').
Qed.

Lemma dadd_wf d k n : dict_wf d → dict_wf (dadd d k n).
Proof. apply dset_wf. Qed.

(** Adding a list of (key, amount) pairs one by one. *)
Definition dadd_all d (l : list (K * Z)) : pydict K Z :=
  foldl (λ d kn, dadd d kn.1 kn.2) d l.

(** The total a list of pairs gives to key [k]. *)
Definition total_at (l : list (K * Z)) (k : K) : Z :=
  zsum ((λ kn, if decide (pyeq kn.1 k) then kn.2 else 0) <$> l).

Lemma total_at_app l1 l2 k : total_at (l1 ++ l2) k = total_at l1 k + total_at l2 k.
Proof. unfold total_at. by rewrite fmap_app, zsum_app. Qed.

Lemma total_at_nil k : total_at [] k = 0.
Proof. done. Qed.

Lemma total_at_cons kn l k :
  total_at (kn :: l) k = (if decide (pyeq kn.1 k) then kn.2 else 0) + total_at l k.
Proof. done. Qed.

Lemma dadd_all_wf d l : dict_wf d → dict_wf (dadd_all d l).
Proof. intros. unfold dadd_all. apply foldl_invariant; [done|]. intros. by apply dadd_wf. Qed.

Lemma dget_or_dadd_all d l k :
  dget_or 0 (dadd_all d l) k = dget_or 0 d k + total_at l k.
Proof.
  unfold dadd_all. revert d; induction l as [|kn l IH]; intros d; simpl.
  - rewrite total_at_nil. lia.
  - rewrite IH, dget_or_dadd, total_at_cons. lia.
Qed.

(** In a well-formed dict the total of a key is its value. *)
Lemma total_at_dict d k : dict_wf d → total_at d k = dget_or 0 d k.
Proof.
  unfold dict_wf. induction d as [|[k0 n0] d IH]; [done|]. csimpl.
  intros [Hn Hd]%NoDup_cons. rewrite total_at_cons. unfold dget_or in *. simpl.
  rewrite IH by done. case_decide as Hk; [|lia]. simpl.
  destruct (dget d k) eqn:E; simpl; [|lia].
  exfalso. apply Hn. unfold pyeq in Hk. rewrite Hk.
  destruct (decide (key_of k ∈ key_of <$> dkeys d)) as [|Hni]; [done|].
  apply dget_None in Hni. congruence.
Qed.

Lemma total_at_perm l1 l2 k : l1 ≡ₚ l2 → total_at l1 k = total_at l2 k.
Proof. intros. unfold total_at. apply zsum_perm. by f_equiv. Qed.
End dadd.

#[export] Hint Resolve dadd_wf dadd_all_wf : py.

(** ** Sets *)

Abbreviation pyset A := (list A).

Section pyset.
Context {A : Type} `{!PyKey A}.
Implicit Types (s : pyset A) (x : A).

(** [x in s] *)
Definition smem x s : bool := bool_decide (key_of x ∈ key_of <$> s).

(** [s.add(x)] *)
Definition sadd s x : pyset A := if smem x s then s else s ++ [x].

(** [s.update(l)], and the set display of [l] *)
Definition supdate s (l : list A) : pyset A := foldl sadd s l.
Definition set_of (l : list A) : pyset A := supdate [] l.

(** [s.discard(x)] *)
Definition sdiscard s x : pyset A := filter (λ y, ¬ pyeq y x) s.

(** [s & t] *)
Definition sinter s t : pyset A := filter (λ y, smem y t = true) s.

Definition set_wf s : Prop := NoDup (key_of <$> s).

Lemma smem_spec x s : smem x s = true ↔ key_of x ∈ key_of <$> s.
Proof. unfold smem. apply bool_decide_eq_true. Qed.

Lemma smem_false x s : smem x s = false ↔ key_of x ∉ key_of <$> s.
Proof. unfold smem. apply bool_decide_eq_false. Qed.

Lemma elem_smem x s : x ∈ s → smem x s = true.
Proof. intros. apply smem_spec, list_elem_of_fmap. eauto. Qed.

Lemma smem_sadd x s y : smem x (sadd s y) = true ↔ smem x s = true ∨ pyeq x y.
Proof.
  unfold sadd, pyeq. destruct (smem y s) eqn:E; rewrite !smem_spec.
  - apply smem_spec in E. split; [by left|]. intros [?| ->]; done.
  - rewrite fmap_app, elem_of_app. csimpl. rewrite list_elem_of_singleton. done.
Qed.

Lemma smem_supdate x s l :
  smem x (supdate s l) = true ↔ smem x s = true ∨ smem x l = true.
Proof.
  unfold supdate. revert s; induction l as [|y l IH]; intros s; simpl.
  - split; [by left|]. intros [?|H]; [done|]. apply smem_spec in H. set_solver.
  - rewrite IH, smem_sadd, !smem_spec, fmap_cons, elem_of_cons. unfold pyeq. tauto.
Qed.

Lemma smem_set_of x l : smem x (set_of l) = true ↔ smem x l = true.
Proof.
  unfold set_of. rewrite smem_supdate, !smem_spec. csimpl. set_solver.
Qed.

Lemma sadd_wf s x : set_wf s → set_wf (sadd s x).
Proof.
  unfold set_wf, sadd. destruct (smem x s) eqn:E; [done|]. intros Hs.
  apply smem_false in E. rewrite fmap_app. apply NoDup_app.
  split_and!; [done|set_solver|apply NoDup_singleton].
Qed.

Lemma supdate_wf s l : set_wf s → set_wf (supdate s l).
Proof. intros. unfold supdate. apply foldl_invariant; [done|]. intros. by apply sadd_wf. Qed.

Lemma set_of_wf l : set_wf (set_of l).
Proof. apply supdate_wf, NoDup_nil_2. Qed.

Lemma sadd_length s x : length (sadd s x) = (length s + if smem x s then 0 else 1)%nat.
Proof. unfold sadd. destruct (smem x s); [lia|]. rewrite length_app. simpl. lia. Qed.

Lemma set_of_id l : set_wf l → set_of l = l.
Proof.
  unfold set_of, supdate. change l with ([] ++ l) at 1 3. generalize (@nil A).
  induction l as [|x l IH]; intros s Hs; simpl; [by rewrite app_nil_r|].
  unfold sadd at 2. destruct (smem x s) eqn:E.
  - exfalso. apply smem_spec in E. unfold set_wf in Hs. rewrite fmap_app in Hs.
    apply NoDup_app in Hs as (_ & Hd & _). apply (Hd _ E). csimpl. left.
  - rewrite IH by (by rewrite <- app_assoc). by rewrite <- app_assoc.
Qed.
End pyset.

#[export] Hint Resolve sadd_wf supdate_wf set_of_wf : py.
Arguments smem : simpl never.
Arguments sadd : simpl never.
Arguments set_of : simpl never.
Arguments sdiscard : simpl never.

(** A dict comprehension [{a: F(a) for a in l}]. *)
Lemma dget_comprehension {K V} `{!PyKey K} (F : K → V) (l : list K) (k : K) :
  (∀ a, pyeq a k → F a = F k) →
  dget (dict_of ((λ a, (a, F a)) <$> l)) k = if smem k l then Some (F k) else None.
Proof.
  intros HF. unfold dict_of. rewrite dget_dupdate. simpl.
  induction l as [|a l IH] using rev_ind; [done|].
  rewrite fmap_app, reverse_app. csimpl.
  assert (Hsm : smem k (l ++ [a]) = bool_decide (pyeq a k) || smem k l).
  { apply eq_bool_prop_intro. unfold Is_true.
    destruct (smem k (l ++ [a])) eqn:E; destruct (decide (pyeq a k)) as [Ha|Ha];
      rewrite ?(bool_decide_eq_true_2 _ Ha), ?(bool_decide_eq_false_2 _ Ha); simpl.
    - done.
    - apply smem_spec in E. rewrite fmap_app, elem_of_app in E. csimpl.
      destruct E as [E|E]; [by rewrite (proj2 (smem_spec k l))|].
      apply list_elem_of_singleton in E. by destruct Ha.
    - apply smem_false in E. rewrite fmap_app, elem_of_app in E. csimpl.
      destruct E. right. apply list_elem_of_singleton. done.
    - destruct (smem k l) eqn:E2; [|done]. apply smem_spec in E2. apply smem_false in E.
      destruct E. rewrite fmap_app, elem_of_app. by left. }
  rewrite Hsm. simpl. case_decide as Ha.
  - rewrite bool_decide_eq_true_2 by done. simpl. by rewrite HF.
  - rewrite bool_decide_eq_false_2 by done. exact IH.
Qed.

(** The items of a dict whose keys are printed injectively, rebuilt. *)
Lemma dict_of_fmap_keys {K K' V W} `{!PyKey K, !PyKey K'} (f : K → K') (g : V → W)
    (d : pydict K V) :
  (∀ a b, pyeq (f a) (f b) → pyeq a b) → dict_wf d →
  dict_of ((λ kv, (f kv.1, g kv.2)) <$> d) = (λ kv, (f kv.1, g kv.2)) <$> d.
Proof.
  intros Hf Hd. apply dict_of_items. unfold dict_wf, dkeys in *.
  rewrite <- !list_fmap_compose. rewrite <- list_fmap_compose in Hd.
  induction d as [|[k v] d IH]; csimpl; [apply NoDup_nil_2|].
  csimpl in Hd. apply NoDup_cons in Hd as [Hn Hd]. apply NoDup_cons. split; [|by apply IH].
  intros (kv & He & Hin)%list_elem_of_fmap. apply Hn.
  apply list_elem_of_fmap. exists kv. split; [|done]. simpl in *. apply Hf. unfold pyeq. done.
Qed.
