(* ===== verification/PyValues.v ===== *)
(** * Values of the language and of its standard library

    Bytes and big-endian integers ([int.to_bytes], [int.from_bytes]), [UUID],
    [datetime], binary64 floats, and the string operations the source uses.
    A [str] is a [String.string]; nothing the source does depends on the width
    of a character. *)

From Stdlib Require Import Floats.SpecFloat Strings.Byte Strings.Ascii.
From S2P Require Import Prelude.
From S2P Require Import PyDict.

(** ** Bytes *)

Abbreviation byte := Byte.byte.
Abbreviation bytes := (list Byte.byte).

#[export] Instance byte_eq_decision : EqDecision byte := Byte.byte_eq_dec.
#[export] Instance bytes_key : PyKey bytes := structural_key bytes.

Definition byte_to_Z (b : byte) : Z := Z.of_N (Byte.to_N b).
Definition byte_of_Z (z : Z) : byte := default x00 (Byte.of_N (Z.to_N (z mod 256))).

Lemma byte_to_Z_bound b : 0 ≤ byte_to_Z b < 256.
Proof. unfold byte_to_Z. pose proof (Byte.to_N_bounded b). lia. Qed.

Lemma byte_of_to b : byte_of_Z (byte_to_Z b) = b.
Proof.
  unfold byte_of_Z. rewrite Z.mod_small by apply byte_to_Z_bound.
  unfold byte_to_Z. by rewrite N2Z.id, Byte.of_to_N.
Qed.

Lemma byte_to_of z : byte_to_Z (byte_of_Z z) = z mod 256.
Proof.
  unfold byte_of_Z. pose proof (Z.mod_pos_bound z 256 ltac:(lia)) as Hb.
  destruct (Byte.of_N (Z.to_N (z mod 256))) as [b|] eqn:E; simpl.
  - apply Byte.to_of_N in E. unfold byte_to_Z. rewrite E. lia.
  - apply Byte.of_N_None_iff in E. lia.
Qed.

Lemma byte_to_Z_inj b1 b2 : byte_to_Z b1 = byte_to_Z b2 → b1 = b2.
Proof. intros H. by rewrite <- (byte_of_to b1), H, byte_of_to. Qed.

(** The [n] low-order bytes of [z], most significant first. *)
Fixpoint be_split (n : nat) (z : Z) : bytes :=
  match n with
  | O => []
  | S n => be_split n (z / 256) ++ [byte_of_Z z]
  end.

(** [int.from_bytes(bs, "big")] *)
Definition be_combine (bs : bytes) : Z :=
  foldl (λ acc b, acc * 256 + byte_to_Z b) 0 bs.

(** [z.to_bytes(n, "big")] *)
Definition to_bytes_be (n : nat) (z : Z) : res bytes :=
  if bool_decide (0 ≤ z < 256 ^ Z.of_nat n) then Ok (be_split n z) else Exc OverflowError.

Lemma be_combine_snoc bs b : be_combine (bs ++ [b]) = be_combine bs * 256 + byte_to_Z b.
Proof. unfold be_combine. by rewrite foldl_app. Qed.

Lemma length_be_split n z : length (be_split n z) = n.
Proof. revert z; induction n; intros z; simpl; [done|]. rewrite length_app, IHn. simpl. lia. Qed.

Lemma be_combine_split n z : be_combine (be_split n z) = z mod 256 ^ Z.of_nat n.
Proof.
  revert z; induction n as [|n IH]; intros z; cbn [be_split].
  - by rewrite Z.mod_1_r.
  - rewrite be_combine_snoc, IH, byte_to_of, Nat2Z.inj_succ, Z.pow_succ_r by lia.
    rewrite Z.rem_mul_r by lia. lia.
Qed.

Lemma be_split_combine bs : be_split (length bs) (be_combine bs) = bs.
Proof.
  induction bs as [|b bs IH] using rev_ind; [done|].
  rewrite length_app, be_combine_snoc, Nat.add_comm. cbn [length Nat.add be_split].
  pose proof (byte_to_Z_bound b).
  rewrite Z.div_add_l, Z.div_small, Z.add_0_r, IH by lia. f_equal. f_equal.
  apply byte_to_Z_inj. rewrite byte_to_of.
  rewrite Z.add_comm, Z.mod_add, Z.mod_small by lia. done.
Qed.

Lemma be_combine_bound bs : 0 ≤ be_combine bs < 256 ^ Z.of_nat (length bs).
Proof.
  rewrite <- (be_split_combine bs) at 1 2. rewrite be_combine_split.
  apply Z.mod_pos_bound. lia.
Qed.

Lemma to_bytes_be_ok n z bs :
  to_bytes_be n z = Ok bs → length bs = n ∧ be_combine bs = z.
Proof.
  unfold to_bytes_be. case_bool_decide; [|done]. intros [= <-].
  by rewrite length_be_split, be_combine_split, Z.mod_small.
Qed.

Lemma to_bytes_be_range n z :
  0 ≤ z < 256 ^ Z.of_nat n → to_bytes_be n z = Ok (be_split n z).
Proof. intros. unfold to_bytes_be. by rewrite bool_decide_eq_true_2. Qed.

(** ** UUID: a 128-bit integer *)

Definition uuid_in_range (z : Z) : bool := (0 <=? z) && (z <? 256 ^ 16).

Record uuid := mk_uuid { uuid_int : Z; uuid_ok : uuid_in_range uuid_int = true }.

Lemma uuid_eq u1 u2 : uuid_int u1 = uuid_int u2 → u1 = u2.
Proof.
  destruct u1 as [z1 H1], u2 as [z2 H2]; simpl; intros ->.
  f_equal. apply (Eqdep_dec.UIP_dec Bool.bool_dec).
Qed.

#[export] Instance uuid_eq_dec : EqDecision uuid.
Proof.
  intros u1 u2. destruct (decide (uuid_int u1 = uuid_int u2)).
  - left. by apply uuid_eq.
  - right. congruence.
Defined.

#[export] Instance uuid_key : PyKey uuid := structural_key uuid.

(** [UUID(int=z)] *)
Definition uuid_of_int (z : Z) : res uuid :=
  match Sumbool.sumbool_of_bool (uuid_in_range z) with
  | left H => Ok (mk_uuid z H)
  | right _ => Exc ValueError
  end.

(** [UUID(int=z)] for a literal in range. *)
Definition uuid_lit (z : Z) : uuid :=
  match uuid_of_int z with Ok u => u | Exc _ => mk_uuid 0 eq_refl end.

Lemma uuid_range u : 0 ≤ uuid_int u < 256 ^ 16.
Proof.
  destruct u as [z H]; simpl. unfold uuid_in_range in H.
  apply andb_prop in H as [H1%Z.leb_le H2%Z.ltb_lt]. lia.
Qed.

Lemma uuid_of_int_spec u : uuid_of_int (uuid_int u) = Ok u.
Proof.
  unfold uuid_of_int. destruct (Sumbool.sumbool_of_bool _) as [H|H].
  - f_equal. by apply uuid_eq.
  - destruct u as [z Hz]; simpl in *. congruence.
Qed.

#[export] Instance uuid_countable : Countable uuid.
Proof.
  refine (inj_countable uuid_int
    (λ z, match uuid_of_int z with Ok u => Some u | Exc _ => None end) _).
  intros u. by rewrite uuid_of_int_spec.
Defined.

(** [u.bytes] and [UUID(bytes=bs)] *)
Definition uuid_bytes (u : uuid) : bytes := be_split 16 (uuid_int u).
Definition uuid_of_bytes (bs : bytes) : res uuid :=
  if bool_decide (length bs = 16%nat) then uuid_of_int (be_combine bs) else Exc ValueError.

Lemma length_uuid_bytes u : length (uuid_bytes u) = 16%nat.
Proof. apply length_be_split. Qed.

Lemma uuid_of_bytes_bytes u : uuid_of_bytes (uuid_bytes u) = Ok u.
Proof.
  unfold uuid_of_bytes. rewrite bool_decide_eq_true_2 by apply length_uuid_bytes.
  unfold uuid_bytes. rewrite be_combine_split, Z.mod_small by apply uuid_range.
  apply uuid_of_int_spec.
Qed.

Lemma uuid_of_bytes_short bs : length bs ≠ 16%nat → uuid_of_bytes bs = Exc ValueError.
Proof. intros H. unfold uuid_of_bytes. by rewrite bool_decide_eq_false_2. Qed.

(** *** Text form: 32 hexadecimal digits in groups of 8-4-4-4-12 *)

Definition hex_digit (z : Z) : ascii :=
  Ascii.ascii_of_N (Z.to_N (if z <? 10 then 48 + z else 87 + z)).

Definition hex_value (c : ascii) : option Z :=
  let n := Z.of_N (Ascii.N_of_ascii c) in
  if (48 <=? n) && (n <=? 57) then Some (n - 48)
  else if (97 <=? n) && (n <=? 102) then Some (n - 87)
  else if (65 <=? n) && (n <=? 70) then Some (n - 55)
  else None.

Fixpoint hex_split (n : nat) (z : Z) : list ascii :=
  match n with
  | O => []
  | S n => hex_split n (z / 16) ++ [hex_digit (z mod 16)]
  end.

(** Value of a list of hexadecimal digits. *)
Definition hex_combine (l : list ascii) : option Z :=
  foldl (λ acc c, a ← acc; d ← hex_value c; Some (a * 16 + d)) (Some 0) l.

Definition uuid_dashes (h : list ascii) : list ascii :=
  let dash := Ascii.ascii_of_nat 45 in
  take 8 h ++ dash :: take 4 (drop 8 h) ++ dash :: take 4 (drop 12 h)
    ++ dash :: take 4 (drop 16 h) ++ dash :: drop 20 h.

(** [str(u)] *)
Definition uuid_str (u : uuid) : string :=
  String.string_of_list_ascii (uuid_dashes (hex_split 32 (uuid_int u))).

(** [UUID(s)]: dashes are dropped and 32 hexadecimal digits must remain. *)
Definition uuid_of_str (s : string) : res uuid :=
  let h := filter (λ c, c ≠ Ascii.ascii_of_nat 45) (String.list_ascii_of_string s) in
  if bool_decide (length h = 32%nat)
  then z ← of_opt ValueError (hex_combine h); uuid_of_int z
  else Exc ValueError.

Lemma hex_digit_values :
  forallb (λ z, bool_decide (hex_value (hex_digit z) = Some z)
                && bool_decide (hex_digit z ≠ Ascii.ascii_of_nat 45))
    (seqZ 0 16) = true.
Proof. by vm_compute. Qed.

Lemma hex_digit_spec z :
  0 ≤ z < 16 → hex_value (hex_digit z) = Some z ∧ hex_digit z ≠ Ascii.ascii_of_nat 45.
Proof.
  intros Hz. pose proof hex_digit_values as H. rewrite forallb_forall in H.
  specialize (H z). rewrite <- list_elem_of_In, elem_of_seqZ in H.
  specialize (H ltac:(lia)). apply andb_prop in H as [H1 H2].
  by apply bool_decide_eq_true in H1, H2.
Qed.

Lemma length_hex_split n z : length (hex_split n z) = n.
Proof. revert z; induction n; intros z; simpl; [done|]. rewrite length_app, IHn. simpl. lia. Qed.

Lemma hex_combine_split n z : hex_combine (hex_split n z) = Some (z mod 16 ^ Z.of_nat n).
Proof.
  unfold hex_combine. revert z; induction n as [|n IH]; intros z; cbn [hex_split].
  - by rewrite Z.mod_1_r.
  - rewrite foldl_app, IH. cbn [foldl mbind option_bind].
    pose proof (Z.mod_pos_bound z 16 ltac:(lia)) as Hb.
    rewrite (proj1 (hex_digit_spec _ Hb)). simpl. f_equal.
    rewrite Nat2Z.inj_succ, Z.pow_succ_r, Z.rem_mul_r by lia. lia.
Qed.

Lemma hex_split_no_dash n z : Forall (λ c, c ≠ Ascii.ascii_of_nat 45) (hex_split n z).
Proof.
  revert z; induction n as [|n IH]; intros z; cbn [hex_split]; [done|].
  apply Forall_app. split; [apply IH|]. constructor; [|done].
  apply hex_digit_spec, Z.mod_pos_bound. lia.
Qed.

Lemma uuid_dashes_filter h :
  Forall (λ c, c ≠ Ascii.ascii_of_nat 45) h →
  filter (λ c, c ≠ Ascii.ascii_of_nat 45) (uuid_dashes h) = h.
Proof.
  intros Hh. unfold uuid_dashes.
  assert (Hp : ∀ l, Forall (λ c, c ≠ Ascii.ascii_of_nat 45) l →
    filter (λ c, c ≠ Ascii.ascii_of_nat 45) l = l).
  { intros l Hl. induction Hl as [|c l Hc Hl IH]; [done|].
    rewrite filter_cons_True by done. by rewrite IH. }
  repeat first [rewrite filter_app | rewrite filter_cons_False by (intros Hc; by apply Hc)].
  rewrite !Hp by eauto using Forall_take, Forall_drop.
  rewrite <- (take_drop 8 h) at 6. f_equal.
  rewrite <- (take_drop 4 (drop 8 h)) at 2. f_equal.
  rewrite drop_drop. simpl. rewrite <- (take_drop 4 (drop 12 h)) at 2. f_equal.
  rewrite drop_drop. simpl. rewrite <- (take_drop 4 (drop 16 h)) at 2. f_equal.
  by rewrite drop_drop.
Qed.

Lemma uuid_of_str_str u : uuid_of_str (uuid_str u) = Ok u.
Proof.
  unfold uuid_of_str, uuid_str. rewrite String.list_ascii_of_string_of_list_ascii.
  rewrite uuid_dashes_filter by apply hex_split_no_dash.
  rewrite bool_decide_eq_true_2 by apply length_hex_split.
  rewrite hex_combine_split. cbn. rewrite Z.mod_small by apply uuid_range.
  apply uuid_of_int_spec.
Qed.

(** What the text of a UUID is made of, and its length. *)
Lemma uuid_dashes_Forall (P : ascii → Prop) h :
  Forall P h → P (Ascii.ascii_of_nat 45) → Forall P (uuid_dashes h).
Proof.
  intros Hh Hd. unfold uuid_dashes.
  repeat first [apply Forall_app; split | apply Forall_cons; split]; auto using Forall_take, Forall_drop.
Qed.

Lemma uuid_str_Forall (P : ascii → Prop) u :
  (∀ c, hex_value c ≠ None → P c) → P (Ascii.ascii_of_nat 45) →
  Forall P (String.list_ascii_of_string (uuid_str u)).
Proof.
  intros HP Hd. unfold uuid_str. rewrite String.list_ascii_of_string_of_list_ascii.
  apply uuid_dashes_Forall; [|done]. generalize (uuid_int u) 32%nat. intros z n. revert z.
  induction n as [|n IH]; intros z; cbn [hex_split]; [done|].
  apply Forall_app. split; [apply IH|]. constructor; [|done]. apply HP.
  rewrite (proj1 (hex_digit_spec (z mod 16) (Z.mod_pos_bound z 16 eq_refl))). done.
Qed.

Lemma length_uuid_str u : length (String.list_ascii_of_string (uuid_str u)) = 36%nat.
Proof.
  unfold uuid_str. rewrite String.list_ascii_of_string_of_list_ascii. unfold uuid_dashes.
  pose proof (length_hex_split 32 (uuid_int u)) as Hl.
  repeat (rewrite length_app || cbn [length] || rewrite length_take || rewrite length_drop).
  rewrite Hl. reflexivity.
Qed.

#[global] Opaque uuid_str uuid_of_str uuid_bytes uuid_of_bytes.

Lemma uuid_str_pyeq a b : pyeq (uuid_str a) (uuid_str b) → pyeq a b.
Proof.
  unfold pyeq. cbn. unfold id. intros H. pose proof (uuid_of_str_str a) as Ha.
  rewrite H, uuid_of_str_str in Ha. by injection Ha.
Qed.
