(* ===== verification/PyText.v ===== *)
(** * Text: integers, splitting, padding, dates

    [str(int)] and [int(str)], [str.split], [str.rstrip], the [:<n] format, and
    [datetime] with the two formats the source parses. *)

From Stdlib Require Import Numbers.DecimalString Numbers.DecimalZ Numbers.DecimalPos Numbers.DecimalFacts Strings.Ascii.
From S2P Require Import Prelude.
From S2P Require Import PyDict.
From S2P Require Import PyValues.

Abbreviation char := Ascii.ascii.
Abbreviation chars := (list Ascii.ascii).

Definition chars_of (s : string) : chars := String.list_ascii_of_string s.
Definition str_of (l : chars) : string := String.string_of_list_ascii l.

Lemma str_of_chars s : str_of (chars_of s) = s.
Proof. apply String.string_of_list_ascii_of_string. Qed.
Lemma chars_of_str l : chars_of (str_of l) = l.
Proof. apply String.list_ascii_of_string_of_list_ascii. Qed.
Lemma chars_of_inj s t : chars_of s = chars_of t → s = t.
Proof. intros H. by rewrite <- (str_of_chars s), H, str_of_chars. Qed.
Lemma chars_of_app s t : chars_of (s +:+ t) = chars_of s ++ chars_of t.
Proof. unfold chars_of. induction s as [|c s IH]; [done|]. simpl. by rewrite IH. Qed.

Definition chr (n : nat) : char := Ascii.ascii_of_nat n.
Definition c_comma : char := chr 44.
Definition c_newline : char := chr 10.
Definition c_underscore : char := chr 95.
Definition c_minus : char := chr 45.
Definition c_plus : char := chr 43.
Definition c_space : char := chr 32.

Definition is_space (c : char) : bool :=
  let n := Ascii.nat_of_ascii c in
  ((9 <=? n) && (n <=? 13) || (28 <=? n) && (n <=? 32))%nat.

(** What [int] and [float] strip: the white space of C, not that of [str.strip]. *)
Definition is_c_space (c : char) : bool :=
  let n := Ascii.nat_of_ascii c in ((9 <=? n) && (n <=? 13) || (n =? 32))%nat.

Definition is_digit (c : char) : bool :=
  let n := Ascii.nat_of_ascii c in ((48 <=? n) && (n <=? 57))%nat.

(** ** [str(int)] and [int(str)] *)

Definition str_int (z : Z) : string := NilZero.string_of_int (Z.to_int z).

Fixpoint lstrip_ws (l : chars) : chars :=
  match l with
  | c :: l' => if is_space c then lstrip_ws l' else l
  | [] => []
  end.
Fixpoint lstrip_c (l : chars) : chars :=
  match l with
  | c :: l' => if is_c_space c then lstrip_c l' else l
  | [] => []
  end.
Definition strip_c (l : chars) : chars := reverse (lstrip_c (reverse (lstrip_c l))).

(** Drops the underscores that stand between two digits; any other underscore
    is an error. [prev]: the previous character was a digit. *)
Fixpoint drop_underscores (prev : bool) (l : chars) : option chars :=
  match l with
  | [] => Some []
  | c :: l' =>
      if bool_decide (c = c_underscore) then
        match prev, l' with
        | true, d :: _ => if is_digit d then drop_underscores false l' else None
        | _, _ => None
        end
      else r ← drop_underscores (is_digit c) l'; Some (c :: r)
  end.

(** [int(s)] in base 10. *)
Definition int_str (s : string) : res Z :=
  of_opt ValueError (
    l ← drop_underscores false (strip_c (chars_of s));
    match l with
    | c :: l' =>
        if bool_decide (c = c_plus)
        then d ← NilZero.uint_of_string (str_of l'); Some (Z.of_uint d)
        else d ← NilZero.int_of_string (str_of l); Some (Z.of_int d)
    | [] => None
    end).

Definition plain_char (c : char) : Prop :=
  is_c_space c = false ∧ c ≠ c_underscore ∧ c ≠ c_plus.

Lemma uint_chars_plain d : Forall plain_char (chars_of (NilEmpty.string_of_uint d)).
Proof.
  induction d; simpl; constructor; try done; by split_and!.
Qed.

Lemma str_int_chars z : Forall plain_char (chars_of (str_int z)) ∧ chars_of (str_int z) ≠ [].
Proof.
  unfold str_int, NilZero.string_of_int. destruct (Z.to_int z) as [d|d]; simpl.
  - split.
    + destruct d; try apply uint_chars_plain. constructor; [by split_and!|done].
    + by destruct d.
  - split; [|done]. constructor; [by split_and!|].
    destruct d; try apply uint_chars_plain. constructor; [by split_and!|done].
Qed.

Lemma lstrip_plain l : Forall plain_char l → lstrip_c l = l.
Proof. destruct 1 as [|c l [Hc _] _]; simpl; [done|]. by rewrite Hc. Qed.

Lemma strip_plain l : Forall plain_char l → strip_c l = l.
Proof.
  intros Hl. unfold strip_c. rewrite (lstrip_plain l) by done.
  rewrite lstrip_plain by (by apply Forall_reverse). by rewrite reverse_involutive.
Qed.

Lemma drop_underscores_plain b l : Forall plain_char l → drop_underscores b l = Some l.
Proof.
  intros Hl. revert b; induction Hl as [|c l (_ & Hc & _) _ IH]; intros b; simpl; [done|].
  rewrite bool_decide_eq_false_2 by done. by rewrite IH.
Qed.

Lemma int_str_str_int z : int_str (str_int z) = Ok z.
Proof.
  destruct (str_int_chars z) as [Hp Hne]. unfold int_str.
  rewrite strip_plain, drop_underscores_plain by done. cbn [mbind option_bind].
  destruct (chars_of (str_int z)) as [|c l] eqn:E; [done|].
  inversion Hp as [|? ? (_ & _ & Hc) _]; subst.
  rewrite bool_decide_eq_false_2 by done. rewrite <- E, str_of_chars.
  unfold str_int. rewrite NilZero.isi; [cbn; by rewrite of_to| |];
    (destruct z; [done| |]); simpl; intros [= Hn];
    by apply (DecimalPos.Unsigned.to_uint_nonnil _ Hn).
Qed.

Lemma str_int_inj a b : pyeq (str_int a) (str_int b) → pyeq a b.
Proof.
  unfold pyeq. cbn. unfold id. intros H. pose proof (int_str_str_int a) as Ha.
  rewrite H, int_str_str_int in Ha. by injection Ha.
Qed.

(** ** Order *)

(** [a < b] on strings: by the first character that differs. *)
Fixpoint chars_lt (a b : chars) : bool :=
  match a, b with
  | x :: a, y :: b =>
      let i := Ascii.nat_of_ascii x in let j := Ascii.nat_of_ascii y in
      (i <? j)%nat || ((i =? j)%nat && chars_lt a b)
  | [], _ :: _ => true
  | _, [] => false
  end.
Definition str_ltb (s t : string) : bool := chars_lt (chars_of s) (chars_of t).
Definition str_leb (s t : string) : bool := negb (str_ltb t s).

(** ** Splitting and joining *)

(** [s.split(c)]: the maximal pieces between the occurrences of [c]. *)
Fixpoint split_on (c : char) (l : chars) : list chars :=
  match l with
  | [] => [[]]
  | x :: l =>
      if bool_decide (x = c) then [] :: split_on c l
      else match split_on c l with
           | [] => [[x]]
           | w :: ws => (x :: w) :: ws
           end
  end.
Definition str_split (c : char) (s : string) : list string := str_of <$> split_on c (chars_of s).

Lemma split_on_free c l : c ∉ l → split_on c l = [l].
Proof.
  induction l as [|x l IH]; [done|]. rewrite not_elem_of_cons. intros [Hx Hl]. simpl.
  rewrite bool_decide_eq_false_2 by congruence. by rewrite IH.
Qed.

Lemma split_on_app c l1 l2 : c ∉ l1 → split_on c (l1 ++ c :: l2) = l1 :: split_on c l2.
Proof.
  induction l1 as [|x l1 IH]; simpl.
  - intros _. by rewrite bool_decide_eq_true_2.
  - rewrite not_elem_of_cons. intros [Hx Hl]. rewrite bool_decide_eq_false_2 by congruence.
    by rewrite IH.
Qed.
