(* ===== verification/PyTime.v ===== *)
(** * Dates and times, zero padding, slices

    [datetime] without microseconds (nothing in the source creates any), its
    constructor's range checks, [str(datetime)], and [fast_datetime]
    (src/src/common/data/timestamp.py). *)

From S2P Require Import Prelude.
From S2P Require Import PyDict.
From S2P Require Import PyValues.
From S2P Require Import PyText.

(** ** Slices and padding *)

(** [s[a:b]] for [0 <= a <= b] *)
Definition slice {A} (a b : nat) (l : list A) : list A := take (b - a) (drop a l).
Definition str_slice (a b : nat) (s : string) : string := str_of (slice a b (chars_of s)).

(** ["%0nd" % z] for [z >= 0] *)
Definition pad0 (n : nat) (z : Z) : chars :=
  let d := chars_of (str_int z) in replicate (n - length d) (chr 48) ++ d.

(** ** datetime *)

Record datetime := mkDT {
  year : Z; month : Z; day : Z; hour : Z; minute : Z; second : Z
}.

#[export] Instance datetime_eq_dec : EqDecision datetime.
Proof. solve_decision. Defined.

Definition is_leap (y : Z) : bool :=
  (y mod 4 =? 0) && (negb (y mod 100 =? 0) || (y mod 400 =? 0)).

Definition days_in_month (y m : Z) : Z :=
  if m =? 2 then if is_leap y then 29 else 28
  else if bool_decide (m ∈ [4; 6; 9; 11]) then 30 else 31.

Definition in_range (lo hi z : Z) : bool := (lo <=? z) && (z <=? hi).

Definition valid_datetime (d : datetime) : bool :=
  in_range 1 9999 (year d) && in_range 1 12 (month d)
  && in_range 1 (days_in_month (year d) (month d)) (day d)
  && in_range 0 23 (hour d) && in_range 0 59 (minute d) && in_range 0 59 (second d).

(** [datetime(y, m, d, h, mi, s)] *)
Definition datetime_new (y m d h mi s : Z) : res datetime :=
  let dt := mkDT y m d h mi s in
  if valid_datetime dt then Ok dt else Exc ValueError.

(** [str(d)]: YYYY-MM-DD HH:MM:SS *)
Definition str_datetime (d : datetime) : string :=
  str_of (pad0 4 (year d) ++ chr 45 :: pad0 2 (month d) ++ chr 45 :: pad0 2 (day d)
    ++ chr 32 :: pad0 2 (hour d) ++ chr 58 :: pad0 2 (minute d) ++ chr 58 :: pad0 2 (second d)).

(** Comparison of the fields from the most significant one. *)
Fixpoint lex_lt (a b : list Z) : bool :=
  match a, b with
  | x :: a, y :: b => (x <? y) || (x =? y) && lex_lt a b
  | [], _ :: _ => true
  | _, [] => false
  end.

Definition dt_fields (d : datetime) : list Z :=
  [year d; month d; day d; hour d; minute d; second d].
Definition date_fields (d : datetime) : list Z := [year d; month d; day d].

(** [a < b] and [a <= b] on datetimes *)
Definition dt_lt (a b : datetime) : bool := lex_lt (dt_fields a) (dt_fields b).
Definition dt_le (a b : datetime) : bool := negb (dt_lt b a).

(** A [date]: year, month, day; [d.date()]. *)
Definition date : Type := Z * Z * Z.
Definition date_of (d : datetime) : date := (year d, month d, day d).
Definition date_le (a b : date) : bool :=
  negb (lex_lt [b.1.1; b.1.2; b.2] [a.1.1; a.1.2; a.2]).

(** ** fast_datetime *)

Definition fast_datetime (s : string) : res datetime :=
  y ← int_str (str_slice 0 4 s);
  mo ← int_str (str_slice 5 7 s);
  d ← int_str (str_slice 8 10 s);
  h ← int_str (str_slice 11 13 s);
  mi ← int_str (str_slice 14 16 s);
  sec ← (if (19 <=? length (chars_of s))%nat then int_str (str_slice 17 19 s) else Ok 0);
  datetime_new y mo d h mi sec.

(** ** Round trip *)

(** Does [int] read back what the padding of [z] to [n] digits printed? *)
Definition pad_ok (n : nat) (z : Z) : bool :=
  match int_str (str_of (pad0 n z)) with Ok z' => z' =? z | Exc _ => false end
  && (length (pad0 n z) =? n)%nat.

Lemma pad_ok_2 : forallb (pad_ok 2) (seqZ 0 100) = true.
Proof. by vm_compute. Qed.

Lemma pad_ok_4 : forallb (pad_ok 4) (seqZ 0 10000) = true.
Proof. by vm_compute. Qed.

Lemma pad0_spec n lim z :
  forallb (pad_ok n) (seqZ 0 lim) = true → 0 ≤ z < lim →
  int_str (str_of (pad0 n z)) = Ok z ∧ length (pad0 n z) = n.
Proof.
  intros H Hz. rewrite forallb_forall in H. specialize (H z).
  rewrite <- list_elem_of_In, elem_of_seqZ in H. specialize (H ltac:(lia)).
  unfold pad_ok in H. apply andb_prop in H as [H1 H2%Nat.eqb_eq].
  destruct (int_str _) as [z'|]; [|done]. apply Z.eqb_eq in H1. by subst.
Qed.

Lemma pad2_spec z : 0 ≤ z < 100 →
  ∃ a b, pad0 2 z = [a; b] ∧ int_str (str_of [a; b]) = Ok z.
Proof.
  intros Hz. destruct (pad0_spec 2 100 z pad_ok_2 Hz) as [H1 H2].
  destruct (pad0 2 z) as [|a [|b [|]]]; try done. eauto.
Qed.

Lemma pad4_spec z : 0 ≤ z < 10000 →
  ∃ a b c d, pad0 4 z = [a; b; c; d] ∧ int_str (str_of [a; b; c; d]) = Ok z.
Proof.
  intros Hz. destruct (pad0_spec 4 10000 z pad_ok_4 Hz) as [H1 H2].
  destruct (pad0 4 z) as [|a [|b [|c [|d [|]]]]]; try done. eauto 10.
Qed.

Lemma valid_datetime_bounds d :
  valid_datetime d = true →
  (1 ≤ year d ≤ 9999) ∧ (1 ≤ month d ≤ 12) ∧ (1 ≤ day d ≤ 31) ∧ (0 ≤ hour d ≤ 23) ∧
  (0 ≤ minute d ≤ 59) ∧ (0 ≤ second d ≤ 59).
Proof.
  unfold valid_datetime, in_range. rewrite !andb_true_iff, !Z.leb_le.
  assert (days_in_month (year d) (month d) ≤ 31).
  { unfold days_in_month. destruct (_ =? 2); [destruct (is_leap _); lia|].
    case_bool_decide; lia. }
  lia.
Qed.

#[local] Opaque pad0 int_str.

Lemma fast_datetime_str d :
  valid_datetime d = true → fast_datetime (str_datetime d) = Ok d.
Proof.
  intros Hv. pose proof (valid_datetime_bounds d Hv) as (Hy & Hm & Hd & Hh & Hmi & Hs).
  unfold fast_datetime, str_datetime, str_slice, slice. rewrite !chars_of_str.
  destruct (pad4_spec (year d)) as (y1 & y2 & y3 & y4 & -> & Ey); [lia|].
  destruct (pad2_spec (month d)) as (m1 & m2 & -> & Em); [lia|].
  destruct (pad2_spec (day d)) as (d1 & d2 & -> & Ed); [lia|].
  destruct (pad2_spec (hour d)) as (h1 & h2 & -> & Eh); [lia|].
  destruct (pad2_spec (minute d)) as (i1 & i2 & -> & Ei); [lia|].
  destruct (pad2_spec (second d)) as (s1 & s2 & -> & Es); [lia|].
  cbn -[str_of]. rewrite Ey, Em, Ed, Eh, Ei, Es. cbn. unfold datetime_new.
  destruct d. cbn in *. by rewrite Hv.
Qed.

#[export] Hint Resolve fast_datetime_str : py.
