(* ===== verification/PyFloat.v ===== *)
(** * binary64 floats

    The arithmetic and comparisons of [float] as the executable IEEE 754
    definitions of the Standard Library ([SpecFloat], precision 53, round to
    nearest even), decimal literals and [float(int)] correctly rounded. *)

From Stdlib Require Import Floats.SpecFloat.
From S2P Require Import Prelude.
From S2P Require Import PyDict.
From S2P Require Import PyValues.
From S2P Require Import PyText.

Abbreviation float := spec_float.

Definition fadd : float → float → float := SFadd 53 1024.
Definition fmul : float → float → float := SFmul 53 1024.
Definition fdiv : float → float → float := SFdiv 53 1024.

(** [a < b], [a <= b]; [a > b] is [flt b a]. *)
Definition flt (a b : float) : bool := SFltb a b.
Definition fle (a b : float) : bool := SFleb a b.

(** [float(z)] *)
Definition f_of_Z (z : Z) : float := binary_normalize 53 1024 z 0 false.

(** The literal [m * 10^e], correctly rounded. *)
Definition f_of_dec (m e : Z) : float :=
  match m with
  | 0 => S754_zero false
  | Zpos p | Zneg p =>
      let s := match m with Zneg _ => true | _ => false end in
      if 0 <=? e then binary_normalize 53 1024 (m * 10 ^ e) 0 false
      else
        let '(mz, ez, lz) := SFdiv_core_binary 53 1024 (Zpos p) 0 (10 ^ (- e)) 0 in
        binary_round_aux 53 1024 s mz ez lz
  end.

Example half_dec : f_of_dec 5 (-1) = S754_finite false 4503599627370496 (-53).
Proof. by vm_compute. Qed.
Example tenth_sum : fadd (f_of_dec 1 (-1)) (f_of_dec 2 (-1)) = f_of_dec 30000000000000004 (-17).
Proof. by vm_compute. Qed.

Definition is_nan (f : float) : bool := match f with S754_nan => true | _ => false end.

#[export] Instance float_eq_dec : EqDecision float.
Proof. solve_decision. Defined.

#[export] Instance float_countable : Countable float.
Proof.
  refine (inj_countable'
    (λ f, match f with
          | S754_zero s => inl (inl s)
          | S754_infinity s => inl (inr s)
          | S754_nan => inr (inl tt)
          | S754_finite s m e => inr (inr (s, m, e))
          end)
    (λ x, match x with
          | inl (inl s) => S754_zero s
          | inl (inr s) => S754_infinity s
          | inr (inl _) => S754_nan
          | inr (inr (s, m, e)) => S754_finite s m e
          end) _).
  by intros [].
Defined.

(** ** The order: lexicographic on (class, exponent, mantissa) *)

Definition f_key (f : float) : Z * Z * Z :=
  match f with
  | S754_infinity true => (0, 0, 0)
  | S754_finite true m e => (1, - e, - Zpos m)
  | S754_zero _ => (2, 0, 0)
  | S754_finite false m e => (3, e, Zpos m)
  | S754_infinity false => (4, 0, 0)
  | S754_nan => (5, 0, 0)
  end.

Definition key_lt (a b : Z * Z * Z) : Prop :=
  let '(a1, a2, a3) := a in let '(b1, b2, b3) := b in
  a1 < b1 ∨ a1 = b1 ∧ (a2 < b2 ∨ a2 = b2 ∧ a3 < b3).

Lemma flt_key a b :
  flt a b = true ↔ is_nan a = false ∧ is_nan b = false ∧ key_lt (f_key a) (f_key b).
Proof.
  unfold flt, SFltb, SFcompare.
  destruct a as [[]|[]| |[] m1 e1], b as [[]|[]| |[] m2 e2]; cbn;
    try (split; [intros|intros (? & ? & ?)]; first [done | lia | split_and!; done || lia]).
  - destruct (Z.compare_spec e1 e2) as [He|He|He]; simpl;
      [|split; [done|lia]|split; [|done]; lia].
    change (Pos.compare_cont Eq m1 m2) with (Pos.compare m1 m2).
    destruct (Pos.compare_spec m1 m2); simpl; split; try done; lia.
  - destruct (Z.compare_spec e1 e2) as [He|He|He]; simpl;
      [|split; [|done]; lia|split; [done|lia]].
    change (Pos.compare_cont Eq m1 m2) with (Pos.compare m1 m2).
    destruct (Pos.compare_spec m1 m2); simpl; split; try done; lia.
Qed.

Lemma flt_irrefl a : flt a a = false.
Proof.
  destruct (flt a a) eqn:E; [|done]. apply flt_key in E as (_ & _ & H).
  destruct (f_key a) as [[? ?] ?]. cbn in H. lia.
Qed.

Lemma flt_trans a b c : flt a b = true → flt b c = true → flt a c = true.
Proof.
  rewrite !flt_key. intros (? & ? & H1) (? & ? & H2). split_and!; [done..|].
  destruct (f_key a) as [[? ?] ?], (f_key b) as [[? ?] ?], (f_key c) as [[? ?] ?].
  cbn in *. lia.
Qed.

(** Not below is transitive on numbers. *)
Lemma nlt_trans a b c :
  is_nan b = false → flt b a = false → flt c b = false → flt c a = false.
Proof.
  intros Hb H1 H2. destruct (flt c a) eqn:E; [|done]. apply flt_key in E as (Hc & Ha & H).
  assert (¬ key_lt (f_key b) (f_key a)) by (intros ?; assert (flt b a = true) by (by apply flt_key); congruence).
  assert (¬ key_lt (f_key c) (f_key b)) by (intros ?; assert (flt c b = true) by (by apply flt_key); congruence).
  destruct (f_key a) as [[? ?] ?], (f_key b) as [[? ?] ?], (f_key c) as [[? ?] ?].
  cbn in *. lia.
Qed.

(** [int(f)]: towards zero. *)
Definition f_trunc (f : float) : res Z :=
  match f with
  | S754_zero _ => Ok 0
  | S754_nan => Exc ValueError
  | S754_infinity _ => Exc OverflowError
  | S754_finite s m e =>
      let n := if 0 <=? e then Zpos m * 2 ^ e else Zpos m / 2 ^ (- e) in
      Ok (if s then - n else n)
  end.

(** ** [float(str)] *)

Fixpoint span_digits (l : chars) : chars * chars :=
  match l with
  | c :: l' => if is_digit c then let '(d, r) := span_digits l' in (c :: d, r) else ([], l)
  | [] => ([], [])
  end.

(** Value of a list of decimal digits. *)
Definition digits_value (l : chars) : Z :=
  foldl (λ acc c, acc * 10 + (Z.of_nat (Ascii.nat_of_ascii c) - 48)) 0 l.

Definition lower (c : char) : char :=
  let n := Ascii.nat_of_ascii c in
  if ((65 <=? n) && (n <=? 90))%nat then chr (n + 32) else c.

Definition span_sign (l : chars) : bool * chars :=
  match l with
  | c :: l' =>
      if bool_decide (c = c_minus) then (true, l')
      else if bool_decide (c = c_plus) then (false, l') else (false, l)
  | [] => (false, [])
  end.

(** The exponent part: absent, or [e], a sign and at least one digit. *)
Definition parse_exponent (l : chars) : option Z :=
  match l with
  | [] => Some 0
  | c :: l =>
      if bool_decide (lower c = chr 101) then
        let '(s, l) := span_sign l in
        match span_digits l with
        | (d :: ds, []) => let n := digits_value (d :: ds) in Some (if s then - n else n)
        | _ => None
        end
      else None
  end.

Definition signed (s : bool) (f : float) : float := if s then SFopp f else f.

Definition float_str (s : string) : res float :=
  of_opt ValueError (
    l ← drop_underscores false (strip_c (chars_of s));
    let '(sg, l) := span_sign l in
    let word := str_of (lower <$> l) in
    if bool_decide (word = "inf"%string) || bool_decide (word = "infinity"%string)
    then Some (S754_infinity sg)
    else if bool_decide (word = "nan"%string) then Some S754_nan
    else
      let '(d1, l) := span_digits l in
      let '(d2, l) :=
        match l with
        | c :: l' => if bool_decide (c = chr 46) then span_digits l' else ([], l)
        | [] => ([], [])
        end in
      match d1 ++ d2 with
      | [] => None
      | ds => e ← parse_exponent l;
              Some (signed sg (f_of_dec (digits_value ds) (e - Z.of_nat (length d2))))
      end).

Example float_str_ex :
  float_str "3697.34" = Ok (f_of_dec 369734 (-2)) ∧ float_str " -1e3" = Ok (f_of_dec (-1000) 0)
  ∧ float_str "." = Exc ValueError ∧ float_str "" = Exc ValueError.
Proof. by vm_compute. Qed.
