(* ===== verification/Wire.v ===== *)
(** * Dynamic values and MessagePack

    The values that go on the wire and into checkpoints.  [msgpack] is not part
    of the repository: [MsgPack] is the interface the code relies on, the
    documented behaviour of [packb] and [unpackb]; [msgpack_model] is an
    implementation of the interface, so the laws can hold. *)

From S2P Require Import Prelude.
From S2P Require Import PyDict.
From S2P Require Import PyValues.
From S2P Require Import PyText.
From S2P Require Import PyTime.
From S2P Require Import PyFloat.

(** ** Values *)

#[warnings="-register-all"]
Inductive pyval :=
  | PNone
  | PBool (b : bool)
  | PInt (z : Z)
  | PFloat (f : float)
  | PStr (s : string)
  | PBytes (bs : bytes)
  | PUUID (u : uuid)
  | PDatetime (d : datetime)
  | PList (l : list pyval)
  | PTuple (l : list pyval)
  | PDict (d : list (pyval * pyval)).

(** The values a loop over [v] takes; unpacking [a, b = v] wants exactly two. *)
Definition py_iter (v : pyval) : res (list pyval) :=
  match v with
  | PList l | PTuple l => Ok l
  | PDict d => Ok d.*1
  | PStr s => Ok ((λ c, PStr (str_of [c])) <$> chars_of s)
  | PBytes bs => Ok ((λ b, PInt (byte_to_Z b)) <$> bs)
  | _ => Exc TypeError
  end.

Definition unpack2 (v : pyval) : res (pyval * pyval) :=
  l ← py_iter v; match l with [a; b] => Ok (a, b) | _ => Exc ValueError end.
Definition unpack3 (v : pyval) : res (pyval * pyval * pyval) :=
  l ← py_iter v; match l with [a; b; c] => Ok (a, b, c) | _ => Exc ValueError end.
Definition unpack4 (v : pyval) : res (pyval * pyval * pyval * pyval) :=
  l ← py_iter v; match l with [a; b; c; d] => Ok (a, b, c, d) | _ => Exc ValueError end.

(** [l[i]] *)
Definition py_nth (l : list pyval) (i : nat) : res pyval := of_opt IndexError (l !! i).
(** [v[i]] *)
Definition py_item (v : pyval) (i : nat) : res pyval :=
  match v with
  | PList l | PTuple l => py_nth l i
  | PStr s => l ← py_iter (PStr s); py_nth l i
  | PBytes bs => l ← py_iter (PBytes bs); py_nth l i
  | PDict _ => Exc KeyError
  | _ => Exc TypeError
  end.

(** [l[a:b]] and [l[a:]]: a negative bound counts from the end. *)
Definition slice_bound {A} (i : Z) (l : list A) : nat :=
  Z.to_nat (if i <? 0 then i + Z.of_nat (length l) else i).
Definition py_slice {A} (a b : Z) (l : list A) : list A :=
  take (slice_bound b l - slice_bound a l) (drop (slice_bound a l) l).
Definition py_from {A} (a : Z) (l : list A) : list A := drop (slice_bound a l) l.

(** The items that a count, two fields before them, announces, and those after them. *)
Lemma counted_slices {A} (x y : A) (l1 l2 : list A) (n : nat) : n = length l1 →
  py_slice 2 (2 + Z.of_nat n) (x :: y :: l1 ++ l2) = l1 ∧ py_from (2 + Z.of_nat n) (x :: y :: l1 ++ l2) = l2.
Proof.
  intros ->. unfold py_slice, py_from, slice_bound. rewrite !(proj2 (Z.ltb_ge _ _)) by lia.
  replace (Z.to_nat (2 + Z.of_nat (length l1))) with (2 + length l1)%nat by lia.
  change (Z.to_nat 2) with 2%nat. replace (2 + length l1 - 2)%nat with (length l1) by lia. cbn [drop Nat.add].
  split; [apply take_app_length|apply drop_app_length].
Qed.

(** A value stored where the annotation of the source wants this type: of another type
    it is stored all the same, which is outside of the model ([Untyped]). *)
Definition as_str (v : pyval) : res string := match v with PStr s => Ok s | _ => Exc Untyped end.
Definition as_int (v : pyval) : res Z := match v with PInt z => Ok z | _ => Exc Untyped end.
Definition as_bool (v : pyval) : res bool := match v with PBool b => Ok b | _ => Exc Untyped end.
Definition as_float (v : pyval) : res float := match v with PFloat f => Ok f | _ => Exc Untyped end.
Definition as_bytes (v : pyval) : res bytes := match v with PBytes b => Ok b | _ => Exc Untyped end.
Definition as_dict (v : pyval) : res (list (pyval * pyval)) :=
  match v with PDict d => Ok d | _ => Exc Untyped end.

(** [UUID(v)] *)
Definition py_uuid (v : pyval) : res uuid :=
  match v with PStr s => uuid_of_str s | _ => Exc AttributeError end.

(** ** What a value becomes on the wire: tuples are arrays, and the [default]
    hook replaces what the format has no type for. *)

Definition scalar (v : pyval) : bool :=
  match v with
  | PNone | PBool _ | PInt _ | PFloat _ | PStr _ | PBytes _ => true
  | _ => false
  end.

Fixpoint wire (default : pyval → res pyval) (v : pyval) : res pyval :=
  match v with
  | PNone | PBool _ | PInt _ | PFloat _ | PStr _ | PBytes _ => Ok v
  | PUUID _ | PDatetime _ =>
      w ← default v; if scalar w then Ok w else Exc TypeError
  | PList l | PTuple l => l' ← mapR (wire default) l; Ok (PList l')
  | PDict d =>
      d' ← mapR (λ kv, match kv with (k, x) =>
                     k' ← wire default k; x' ← wire default x; Ok (k', x') end) d;
      Ok (PDict d')
  end.

(** Values the format can carry: integers of at most 64 bits, dicts whose keys
    are distinct integers or distinct strings or byte strings. *)
Definition int64_ok (z : Z) : bool := (- 2 ^ 63 <=? z) && (z <? 2 ^ 64).
Arguments int64_ok : simpl never.

Definition key_repr_ (v : pyval) : option (Z + string + bytes) :=
  match v with
  | PInt z => Some (inl (inl z))
  | PStr s => Some (inl (inr s))
  | PBytes bs => Some (inr bs)
  | _ => None
  end.

Fixpoint packable (v : pyval) : bool :=
  match v with
  | PNone | PBool _ | PFloat _ | PStr _ | PBytes _ => true
  | PInt z => int64_ok z
  | PUUID _ | PDatetime _ => false
  | PList l | PTuple l => forallb packable l
  | PDict d =>
      forallb (λ kv, match kv with (k, x) =>
                 bool_decide (is_Some (key_repr_ k)) && packable k && packable x end) d
      && bool_decide (NoDup (key_repr_ <$> d.*1))
  end.

(** ** The interface *)

Class MsgPack := {
  packb : (pyval → res pyval) → pyval → res bytes;
  unpackb : bytes → res pyval;
  unpackb_packb : ∀ default v w,
    wire default v = Ok w → packable w = true →
    ∃ bs, packb default v = Ok bs ∧ unpackb bs = Ok w
}.

(** ** An implementation *)

Fixpoint tree_of (v : pyval) : gen_tree (bool + Z + float + string + bytes) :=
  match v with
  | PNone => GenNode 0 []
  | PBool b => GenLeaf (inl (inl (inl (inl b))))
  | PInt z => GenLeaf (inl (inl (inl (inr z))))
  | PFloat f => GenLeaf (inl (inl (inr f)))
  | PStr s => GenLeaf (inl (inr s))
  | PBytes bs => GenLeaf (inr bs)
  | PUUID u => GenNode 1 []
  | PDatetime d => GenNode 1 []
  | PList l => GenNode 2 (tree_of <$> l)
  | PTuple l => GenNode 3 (tree_of <$> l)
  | PDict d => GenNode 4 ((λ kv, match kv with (k, x) => GenNode 5 [tree_of k; tree_of x] end) <$> d)
  end.

Fixpoint of_tree (t : gen_tree (bool + Z + float + string + bytes)) : pyval :=
  match t with
  | GenLeaf (inl (inl (inl (inl b)))) => PBool b
  | GenLeaf (inl (inl (inl (inr z)))) => PInt z
  | GenLeaf (inl (inl (inr f))) => PFloat f
  | GenLeaf (inl (inr s)) => PStr s
  | GenLeaf (inr bs) => PBytes bs
  | GenNode 2 l => PList (of_tree <$> l)
  | GenNode 3 l => PTuple (of_tree <$> l)
  | GenNode 4 l =>
      PDict ((λ p, match p with
                   | GenNode _ [k; x] => (of_tree k, of_tree x)
                   | _ => (PNone, PNone)
                   end) <$> l)
  | GenNode _ _ => PNone
  end.

#[export] Instance byte_countable : Countable byte.
Proof.
  refine (inj_countable' Byte.to_N (λ n, match Byte.of_N n with Some b => b | None => Byte.x00 end) _).
  intros b. by rewrite Byte.of_to_N.
Defined.

(** Values without UUIDs and datetimes. *)
Fixpoint plain (v : pyval) : bool :=
  match v with
  | PUUID _ | PDatetime _ => false
  | PList l | PTuple l => forallb plain l
  | PDict d => forallb (λ kv, match kv with (k, x) => plain k && plain x end) d
  | _ => true
  end.

Fixpoint of_tree_of (v : pyval) : plain v = true → of_tree (tree_of v) = v.
Proof.
  destruct v as [| | | | | | | |l|l|d]; simpl; intros Hp; try done.
  - f_equal. revert Hp. induction l as [|x l IH]; [done|]. csimpl.
    intros [H1 H2]%andb_prop. by rewrite of_tree_of, IH.
  - f_equal. revert Hp. induction l as [|x l IH]; [done|]. csimpl.
    intros [H1 H2]%andb_prop. by rewrite of_tree_of, IH.
  - f_equal. revert Hp. induction d as [|[k x] d IH]; [done|]. csimpl.
    intros [[H1 H3]%andb_prop H2]%andb_prop. by rewrite !of_tree_of, IH.
Qed.

Fixpoint packable_plain (v : pyval) : packable v = true → plain v = true.
Proof.
  destruct v as [| | | | | | | |l|l|d]; simpl; intros Hp; try done.
  - revert Hp. induction l as [|x l IH]; [done|]. csimpl.
    intros [H1 H2]%andb_prop. by rewrite packable_plain, IH.
  - revert Hp. induction l as [|x l IH]; [done|]. csimpl.
    intros [H1 H2]%andb_prop. by rewrite packable_plain, IH.
  - apply andb_prop in Hp as [Hp _]. revert Hp. induction d as [|[k x] d IH]; [done|]. csimpl.
    intros [[[_ H1]%andb_prop H3]%andb_prop H2]%andb_prop. by rewrite !packable_plain, IH.
Qed.

(** A value as the big-endian bytes of its code. *)
Definition model_packb (default : pyval → res pyval) (v : pyval) : res bytes :=
  w ← wire default v;
  let z := Zpos (encode (tree_of w)) in
  Ok (be_split (Z.to_nat (Z.log2 z / 8 + 1)) z).

Definition model_unpackb (bs : bytes) : res pyval :=
  match be_combine bs with
  | Zpos p => of_opt ValueError (of_tree <$> decode p)
  | _ => Exc ValueError
  end.

Lemma model_law default v w :
  wire default v = Ok w → packable w = true →
  ∃ bs, model_packb default v = Ok bs ∧ model_unpackb bs = Ok w.
Proof.
  intros Hw Hp. unfold model_packb. rewrite Hw. cbn [mbind res_bind]. eexists; split; [done|].
  unfold model_unpackb. set (p := encode (tree_of w)).
  rewrite be_combine_split, Z.mod_small.
  - unfold p. rewrite decode_encode. simpl. by rewrite of_tree_of by by apply packable_plain.
  - split; [lia|]. pose proof (Z.log2_nonneg (Zpos p)) as Hl.
    pose proof (Z.div_pos (Z.log2 (Zpos p)) 8 Hl ltac:(lia)) as Hd.
    pose proof (Z.log2_spec (Zpos p) ltac:(lia)) as [_ H]. eapply Z.lt_le_trans; [exact H|].
    change 256 with (2 ^ 8). rewrite Z2Nat.id by lia. rewrite <- Z.pow_mul_r by lia. apply Z.pow_le_mono_r; [lia|].
    pose proof (Z.div_mod (Z.log2 (Zpos p)) 8 ltac:(lia)).
    pose proof (Z.mod_pos_bound (Z.log2 (Zpos p)) 8 ltac:(lia)). lia.
Qed.

Definition msgpack_model : MsgPack :=
  {| packb := model_packb; unpackb := model_unpackb; unpackb_packb := model_law |}.
