(* ===== verification/Messages.v ===== *)
(** * Messages (src/src/common/comms/messages/, src/src/common/data/)

    Every message variant with its [_fields] and [_from_fields], the wire layout
    [type:1][client_id:16][producer_id:16][seq:8][payload] of
    [Message.serialize], and [deserialize_message].

    Records are typed as the annotations of the source say.  The source stores the
    fields of a payload unchecked: one of another type than its annotation is [Untyped]
    here, outside of the model. *)

From S2P Require Import Prelude.
From S2P Require Import PyDict.
From S2P Require Import PyValues.
From S2P Require Import PyText.
From S2P Require Import PyTime.
From S2P Require Import PyFloat.
From S2P Require Import Wire.

(** ** Data (common/data, graph_src) *)

Record Account := mkAccount {
  bank_name : string; bank_id : string; account_number : string;
  entity_id : string; entity_name : string
}.

(** A transaction's timestamp is a [datetime], or the text of one after
    [MergedTransactions._from_fields], which does not parse it. *)
Inductive Timestamp := TsDate (d : datetime) | TsText (s : string).

Record Transaction := mkTx {
  timestamp : Timestamp;
  from_bank : string; from_account : string;
  to_bank : string; to_account : string;
  amount_received : float; receiving_currency : string;
  amount_paid : float; payment_currency : string;
  payment_format : string
}.

(** [Node]: compared and hashed by [key], the concatenation of its two parts. *)
Record Node := mkNode { node_bank : string; node_account : string }.
Definition node_key (n : Node) : string := node_bank n +:+ node_account n.
#[export] Instance Node_PyKey : PyKey Node := {| key_repr := string; key_of := node_key |}.

Definition node_fields (n : Node) : pyval := PTuple [PStr (node_bank n); PStr (node_account n)].
(** [str(n)], [Node.from_str] *)
Definition node_str (n : Node) : string := node_bank n +:+ "," +:+ node_account n.
Definition node_from_str (s : string) : res Node :=
  match str_split c_comma s with
  | [b; a] => Ok (mkNode b a)
  | _ => Exc ValueError
  end.

(** [Path] *)
Record Path := mkPath { path_origin : Node; path_destination : Node }.
Definition path_key (p : Path) : string := node_key (path_origin p) +:+ node_key (path_destination p).
#[export] Instance Path_PyKey : PyKey Path := {| key_repr := string; key_of := path_key |}.
Definition path_fields (p : Path) : pyval :=
  PTuple [node_fields (path_origin p); node_fields (path_destination p)].
Definition path_str (p : Path) : string :=
  node_str (path_origin p) +:+ "_" +:+ node_str (path_destination p).
(** [Path.from_string] *)
Definition path_from_string (s : string) : res Path :=
  let fields := str_split c_underscore s in
  f0 ← of_opt IndexError (fields !! 0%nat); o ← node_from_str f0;
  f1 ← of_opt IndexError (fields !! 1%nat); d ← node_from_str f1;
  Ok (mkPath o d).

(** ** Message types *)

Inductive MessageType :=
  | T_EOF | T_TRANSACTIONS | T_ACCOUNTS | T_FIN | T_RESPONSE | T_MAX_BY_BANK | T_BANK_NAMES
  | T_MERGED_BANK_DATA | T_GRAPH | T_PATH_COUNTS | T_COUNT | T_SUM_BY_PAYMENT_FORMAT
  | T_AVG_BY_FORMAT | T_MERGED_TRANSACTIONS | T_RING_DONE | T_NODEMSG | T_PATH_MSG
  | T_RING_SENT_DATA | T_HIGH_DEGREE | T_HELLO | T_HELLO_ACK | T_RING_BARRIER | T_ABORT
  | T_SUPERVISOR_ELECTION | T_SUPERVISOR_ACK | T_SUPERVISOR_LEADER.

#[export] Instance MessageType_eq_dec : EqDecision MessageType.
Proof. solve_decision. Defined.

Definition all_types : list MessageType :=
  [T_EOF; T_TRANSACTIONS; T_ACCOUNTS; T_FIN; T_RESPONSE; T_MAX_BY_BANK; T_BANK_NAMES;
   T_MERGED_BANK_DATA; T_GRAPH; T_PATH_COUNTS; T_COUNT; T_SUM_BY_PAYMENT_FORMAT;
   T_AVG_BY_FORMAT; T_MERGED_TRANSACTIONS; T_RING_DONE; T_NODEMSG; T_PATH_MSG;
   T_RING_SENT_DATA; T_HIGH_DEGREE; T_HELLO; T_HELLO_ACK; T_RING_BARRIER; T_ABORT;
   T_SUPERVISOR_ELECTION; T_SUPERVISOR_ACK; T_SUPERVISOR_LEADER].

(** The number of a type is its position. *)
Definition type_int (t : MessageType) : Z :=
  match t with
  | T_EOF => 0 | T_TRANSACTIONS => 1 | T_ACCOUNTS => 2 | T_FIN => 3 | T_RESPONSE => 4
  | T_MAX_BY_BANK => 5 | T_BANK_NAMES => 6 | T_MERGED_BANK_DATA => 7 | T_GRAPH => 8
  | T_PATH_COUNTS => 9 | T_COUNT => 10 | T_SUM_BY_PAYMENT_FORMAT => 11 | T_AVG_BY_FORMAT => 12
  | T_MERGED_TRANSACTIONS => 13 | T_RING_DONE => 14 | T_NODEMSG => 15 | T_PATH_MSG => 16
  | T_RING_SENT_DATA => 17 | T_HIGH_DEGREE => 18 | T_HELLO => 19 | T_HELLO_ACK => 20
  | T_RING_BARRIER => 21 | T_ABORT => 22 | T_SUPERVISOR_ELECTION => 23
  | T_SUPERVISOR_ACK => 24 | T_SUPERVISOR_LEADER => 25
  end.
Definition type_of_int (z : Z) : option MessageType :=
  if 0 <=? z then all_types !! Z.to_nat z else None.

Lemma type_of_int_int t : type_of_int (type_int t) = Some t.
Proof. by destruct t. Qed.

(** ** Message bodies *)

Inductive Body :=
  | EOF (client_id : uuid) (processed_count expected_count next_expected_count origin : Z)
        (next_expected_per_shard : pydict Z Z)
  | Transactions (client_id : uuid) (transactions : list Transaction)
  | Accounts (client_id : uuid) (accounts : list Account)
  | FIN (client_id : uuid)
  | Response (client_id : uuid) (body : string) (last : bool) (uc_id : Z)
  | MaxByBank (client_id : uuid) (data : pydict string (string * float))
  | BankNames (client_id : uuid) (data : pydict string string)
  | MergedBankData (client_id : uuid) (entries : list (string * string * float * string))
  | Graph (client_id : uuid) (nodes : pydict Node (pyset Node * pyset Node))
  | PathCounts (client_id : uuid) (counts : pydict Path Z)
  | TransactionCount (client_id : uuid) (count : Z)
  | SumByPaymentFormat (client_id : uuid) (sum_counts : pydict string (float * Z))
  | AvgByFormat (client_id : uuid) (averages : pydict string float)
  | MergedTransactions (client_id : uuid) (transactions : list Transaction)
                       (averages : pydict string float)
  | RingDone (client_id : uuid) (origin : Z)
  | NodeMsg (client_id : uuid) (node : Node) (predecesors succesors : pyset Node)
  | PathMsg (client_id : uuid) (path : Path) (count : Z)
  | RingSentData (client_id : uuid) (origin sent_data_amount : Z) (sent_data done : bool)
  | HighDegree (client_id : uuid) (hi_out hi_in : pyset Node)
  | Hello
  | HelloAck (client_id : uuid)
  | RingBarrier (client_id : uuid) (origin : Z) (sent_by : pydict Z (pydict Z Z))
  | Abort (client_id : uuid)
  | SupervisorElection
  | SupervisorACK
  | SupervisorLeader (idx : Z).

Record Message := mkMsg { body_ : Body; producer_id : bytes; seq : Z }.

Definition DEFAULT_PREFIX : bytes := replicate 16 Byte.x00.
Definition DEFAULT_PRODUCER : bytes := replicate 16 Byte.x00.
Definition DEFAULT_SEQ : Z := 0.

(** A message as its constructor builds it, not stamped yet. *)
Definition new_msg (b : Body) : Message := mkMsg b DEFAULT_PRODUCER DEFAULT_SEQ.

Definition body_type (b : Body) : MessageType :=
  match b with
  | EOF _ _ _ _ _ _ => T_EOF | Transactions _ _ => T_TRANSACTIONS | Accounts _ _ => T_ACCOUNTS
  | FIN _ => T_FIN | Response _ _ _ _ => T_RESPONSE | MaxByBank _ _ => T_MAX_BY_BANK
  | BankNames _ _ => T_BANK_NAMES | MergedBankData _ _ => T_MERGED_BANK_DATA
  | Graph _ _ => T_GRAPH | PathCounts _ _ => T_PATH_COUNTS | TransactionCount _ _ => T_COUNT
  | SumByPaymentFormat _ _ => T_SUM_BY_PAYMENT_FORMAT | AvgByFormat _ _ => T_AVG_BY_FORMAT
  | MergedTransactions _ _ _ => T_MERGED_TRANSACTIONS | RingDone _ _ => T_RING_DONE
  | NodeMsg _ _ _ _ => T_NODEMSG | PathMsg _ _ _ => T_PATH_MSG
  | RingSentData _ _ _ _ _ => T_RING_SENT_DATA | HighDegree _ _ _ => T_HIGH_DEGREE
  | Hello => T_HELLO | HelloAck _ => T_HELLO_ACK | RingBarrier _ _ _ => T_RING_BARRIER
  | Abort _ => T_ABORT | SupervisorElection => T_SUPERVISOR_ELECTION
  | SupervisorACK => T_SUPERVISOR_ACK | SupervisorLeader _ => T_SUPERVISOR_LEADER
  end.

(** [getattr(self, "client_id", None)] *)
Definition body_client (b : Body) : option uuid :=
  match b with
  | EOF c _ _ _ _ _ | Transactions c _ | Accounts c _ | FIN c | Response c _ _ _ | MaxByBank c _
  | BankNames c _ | MergedBankData c _ | Graph c _ | PathCounts c _ | TransactionCount c _
  | SumByPaymentFormat c _ | AvgByFormat c _ | MergedTransactions c _ _ | RingDone c _
  | NodeMsg c _ _ _ | PathMsg c _ _ | RingSentData c _ _ _ _ | HighDegree c _ _ | HelloAck c
  | RingBarrier c _ _ | Abort c => Some c
  | Hello | SupervisorElection | SupervisorACK | SupervisorLeader _ => None
  end.

(** ** [_fields] *)

Definition ts_field (t : Timestamp) : pyval :=
  match t with TsDate d => PDatetime d | TsText s => PStr s end.

Definition tx_fields (t : Transaction) : pyval :=
  PList [ts_field (timestamp t); PStr (from_bank t); PStr (from_account t); PStr (to_bank t);
         PStr (to_account t); PFloat (amount_received t); PStr (receiving_currency t);
         PFloat (amount_paid t); PStr (payment_currency t); PStr (payment_format t)].

Definition account_fields (a : Account) : pyval :=
  PList [PStr (bank_name a); PStr (bank_id a); PStr (account_number a); PStr (entity_id a);
         PStr (entity_name a)].

Definition int_dict (d : pydict Z Z) : pyval := PDict ((λ kv, (PInt kv.1, PInt kv.2)) <$> d).

Definition EOF_fields c (p e n o : Z) (d : pydict Z Z) : list pyval :=
  [PUUID c; PInt p; PInt e; PInt n; PInt o; int_dict d].
Definition Transactions_fields c (l : list Transaction) : list pyval := PUUID c :: (tx_fields <$> l).
Definition Accounts_fields c (l : list Account) : list pyval := PUUID c :: (account_fields <$> l).
Definition FIN_fields c : list pyval := [PUUID c].
Definition HelloAck_fields c : list pyval := [PUUID c].
Definition Abort_fields c : list pyval := [PUUID c].
Definition Response_fields c body last (uc : Z) : list pyval :=
  [PUUID c; PInt uc; PStr body; PBool last].
Definition MaxByBank_fields c (d : pydict string (string * float)) : list pyval :=
  PUUID c :: ((λ e, PList [PStr e.1; PStr e.2.1; PFloat e.2.2]) <$> d).
Definition BankNames_fields c (d : pydict string string) : list pyval :=
  PUUID c :: ((λ e, PList [PStr e.1; PStr e.2]) <$> d).
Definition MergedBankData_fields c (l : list (string * string * float * string)) : list pyval :=
  PUUID c :: ((λ e, PList [PStr e.1.1.1; PStr e.1.1.2; PFloat e.1.2; PStr e.2]) <$> l).
Definition Graph_fields c (d : pydict Node (pyset Node * pyset Node)) : list pyval :=
  [PUUID c; PList ((λ e, PTuple [node_fields e.1; PList (node_fields <$> e.2.1);
                                 PList (node_fields <$> e.2.2)]) <$> d)].
Definition PathCounts_fields c (d : pydict Path Z) : list pyval :=
  [PUUID c; PList ((λ e, PTuple [path_fields e.1; PInt e.2]) <$> d)].
Definition TransactionCount_fields c (n : Z) : list pyval := [PUUID c; PInt n].
Definition SumByPaymentFormat_fields c (d : pydict string (float * Z)) : list pyval :=
  PUUID c :: ((λ e, PList [PStr e.1; PFloat e.2.1; PInt e.2.2]) <$> d).
Definition AvgByFormat_fields c (d : pydict string float) : list pyval :=
  PUUID c :: ((λ e, PList [PStr e.1; PFloat e.2]) <$> d).
Definition MergedTransactions_fields c (l : list Transaction) (d : pydict string float)
    : list pyval :=
  PUUID c :: PInt (Z.of_nat (length l)) :: (tx_fields <$> l) ++
    ((λ e, PList [PStr e.1; PFloat e.2]) <$> d).
Definition RingDone_fields c (o : Z) : list pyval := [PUUID c; PInt o].
Definition NodeMsg_fields c (n : Node) (p s : pyset Node) : list pyval :=
  [PUUID c; PStr (node_str n); PList ((λ n, PStr (node_str n)) <$> p);
   PList ((λ n, PStr (node_str n)) <$> s)].
Definition PathMsg_fields c (p : Path) (n : Z) : list pyval := [PUUID c; path_fields p; PInt n].
Definition RingSentData_fields c (o a : Z) (s d : bool) : list pyval :=
  [PUUID c; PInt o; PInt a; PBool s; PBool d].
Definition HighDegree_fields c (o i : pyset Node) : list pyval :=
  [PUUID c; PList (node_fields <$> o); PList (node_fields <$> i)].
Definition RingBarrier_fields c (o : Z) (d : pydict Z (pydict Z Z)) : list pyval :=
  [PUUID c; PInt o; PDict ((λ kv, (PInt kv.1, int_dict kv.2)) <$> d)].
Definition Hello_fields : list pyval := [].
Definition SupervisorElection_fields : list pyval := [].
Definition SupervisorACK_fields : list pyval := [].
Definition SupervisorLeader_fields (i : Z) : list pyval := [PInt i].

Definition fields (b : Body) : list pyval :=
  match b with
  | EOF c p e n o d => EOF_fields c p e n o d
  | Transactions c l => Transactions_fields c l
  | Accounts c l => Accounts_fields c l
  | FIN c => FIN_fields c
  | Response c body last uc => Response_fields c body last uc
  | MaxByBank c d => MaxByBank_fields c d
  | BankNames c d => BankNames_fields c d
  | MergedBankData c l => MergedBankData_fields c l
  | Graph c d => Graph_fields c d
  | PathCounts c d => PathCounts_fields c d
  | TransactionCount c n => TransactionCount_fields c n
  | SumByPaymentFormat c d => SumByPaymentFormat_fields c d
  | AvgByFormat c d => AvgByFormat_fields c d
  | MergedTransactions c l d => MergedTransactions_fields c l d
  | RingDone c o => RingDone_fields c o
  | NodeMsg c n p s => NodeMsg_fields c n p s
  | PathMsg c p n => PathMsg_fields c p n
  | RingSentData c o a s d => RingSentData_fields c o a s d
  | HighDegree c o i => HighDegree_fields c o i
  | Hello => Hello_fields
  | HelloAck c => HelloAck_fields c
  | RingBarrier c o d => RingBarrier_fields c o d
  | Abort c => Abort_fields c
  | SupervisorElection => SupervisorElection_fields
  | SupervisorACK => SupervisorACK_fields
  | SupervisorLeader i => SupervisorLeader_fields i
  end.

(** The msgpack hook: UUIDs and datetimes become text. *)
Definition _mp_default (o : pyval) : res pyval :=
  match o with
  | PUUID u => Ok (PStr (uuid_str u))
  | PDatetime d => Ok (PStr (str_datetime d))
  | _ => Exc TypeError
  end.

(** ** [_from_fields] *)

(** A positional argument with its default. *)
Definition opt_arg {A} (conv : pyval → res A) (args : list pyval) (i : nat) (dflt : A) : res A :=
  match args !! i with Some v => conv v | None => Ok dflt end.

(** A call with at most [n] positional arguments. *)
Definition check_args (args : list pyval) (lo hi : nat) : res unit :=
  guard_exc TypeError ((lo <=? length args) && (length args <=? hi))%nat.

Definition int_dict_of (v : pyval) : res (pydict Z Z) :=
  match v with
  | PNone => Ok []
  | _ =>
      d ← as_dict v;
      items ← mapR (λ kv, k ← as_int kv.1; n ← as_int kv.2; Ok (k, n)) d;
      Ok (dict_of items)
  end.

Definition node_of (v : pyval) : res Node :=
  '(b, a) ← unpack2 v; b ← as_str b; a ← as_str a; Ok (mkNode b a).

Definition nodes_of (v : pyval) : res (pyset Node) :=
  l ← py_iter v; ns ← mapR node_of l; Ok (set_of ns).

Definition tx_of_row (ts : pyval → res Timestamp) (v : pyval) : res Transaction :=
  l ← py_iter v;
  match l with
  | [t; fb; fa; tb; ta; ar; rc; ap; pc; pf] =>
      t ← ts t; fb ← as_str fb; fa ← as_str fa; tb ← as_str tb; ta ← as_str ta;
      ar ← as_float ar; rc ← as_str rc; ap ← as_float ap; pc ← as_str pc; pf ← as_str pf;
      Ok (mkTx t fb fa tb ta ar rc ap pc pf)
  | _ => Exc TypeError
  end.

(** [fast_datetime(t_fields[0])], and the field taken as it comes. *)
Definition ts_parsed (v : pyval) : res Timestamp :=
  s ← as_str v; d ← fast_datetime s; Ok (TsDate d).
Definition ts_raw (v : pyval) : res Timestamp := s ← as_str v; Ok (TsText s).

Definition account_of (v : pyval) : res Account :=
  l ← py_iter v;
  match l with
  | [a; b; c; d; e] =>
      a ← as_str a; b ← as_str b; c ← as_str c; d ← as_str d; e ← as_str e;
      Ok (mkAccount a b c d e)
  | _ => Exc TypeError
  end.

(** [float(v)], [int(v)] *)
Definition py_float (v : pyval) : res float :=
  match v with
  | PFloat f => Ok f
  | PInt z => Ok (f_of_Z z)
  | PBool b => Ok (f_of_Z (if b then 1 else 0))
  | PStr s => float_str s
  | _ => Exc TypeError
  end.
Definition py_int (v : pyval) : res Z :=
  match v with
  | PInt z => Ok z
  | PBool b => Ok (if b then 1 else 0)
  | PFloat f => f_trunc f
  | PStr s => int_str s
  | _ => Exc TypeError
  end.

Definition pair_of {A B} (ca : pyval → res A) (cb : pyval → res B) (v : pyval) : res (A * B) :=
  '(a, b) ← unpack2 v; a ← ca a; b ← cb b; Ok (a, b).

Definition path_of (v : pyval) : res Path :=
  '(o, d) ← unpack2 v; o ← node_of o; d ← node_of d; Ok (mkPath o d).

Definition max_entry_of (v : pyval) : res (string * (string * float)) :=
  k ← py_item v 0; a ← py_item v 1; f ← py_item v 2;
  k ← as_str k; a ← as_str a; f ← py_float f; Ok (k, (a, f)).

Definition name_entry_of (v : pyval) : res (string * string) :=
  k ← py_item v 0; n ← py_item v 1; k ← as_str k; n ← as_str n; Ok (k, n).

Definition merged_entry_of (v : pyval) : res (string * string * float * string) :=
  '(b, a, m, n) ← unpack4 v;
  b ← as_str b; a ← as_str a; m ← as_float m; n ← as_str n; Ok (b, a, m, n).

Definition sum_entry_of (v : pyval) : res (string * (float * Z)) :=
  '(f, s, n) ← unpack3 v; f ← as_str f; s ← as_float s; n ← as_int n; Ok (f, (s, n)).

Definition graph_entry_of (v : pyval) : res (Node * (pyset Node * pyset Node)) :=
  '(n, p, s) ← unpack3 v; n ← node_of n; p ← nodes_of p; s ← nodes_of s; Ok (n, (p, s)).

Definition avg_entry_of (v : pyval) : res (string * float) :=
  k ← py_item v 0; f ← py_item v 1; k ← as_str k; f ← as_float f; Ok (k, f).

Definition path_item_of (v : pyval) : res Node :=
  b ← py_item v 0; a ← py_item v 1; b ← as_str b; a ← as_str a; Ok (mkNode b a).

(** [UUID(fields[0])] *)
Definition client_field (fs : list pyval) : res uuid := v ← py_nth fs 0; py_uuid v.

Definition EOF_from_fields (fs : list pyval) : res Body :=
  c ← client_field fs; _ ← check_args (drop 1 fs) 0 5;
  p ← opt_arg as_int (drop 1 fs) 0 (-1); e ← opt_arg as_int (drop 1 fs) 1 (-1);
  n ← opt_arg as_int (drop 1 fs) 2 (-1); o ← opt_arg as_int (drop 1 fs) 3 (-1);
  d ← opt_arg int_dict_of (drop 1 fs) 4 [];
  Ok (EOF c p e n o d).

Definition Transactions_from_fields (fs : list pyval) : res Body :=
  c ← client_field fs; l ← mapR (tx_of_row ts_parsed) (drop 1 fs); Ok (Transactions c l).

Definition Accounts_from_fields (fs : list pyval) : res Body :=
  c ← client_field fs; l ← mapR account_of (drop 1 fs); Ok (Accounts c l).

Definition FIN_from_fields (fs : list pyval) : res Body :=
  c ← client_field fs; Ok (FIN c).

Definition Response_from_fields (fs : list pyval) : res Body :=
  match fs with
  | [c; uc; b; l] =>
      c ← py_uuid c; b ← as_str b; l ← as_bool l; uc ← as_int uc; Ok (Response c b l uc)
  | _ => Exc ValueError
  end.

Definition MaxByBank_from_fields (fs : list pyval) : res Body :=
  c ← client_field fs; l ← mapR max_entry_of (drop 1 fs); Ok (MaxByBank c (dict_of l)).

Definition BankNames_from_fields (fs : list pyval) : res Body :=
  c ← client_field fs; l ← mapR name_entry_of (drop 1 fs); Ok (BankNames c (dict_of l)).

Definition MergedBankData_from_fields (fs : list pyval) : res Body :=
  c ← client_field fs; l ← mapR merged_entry_of (drop 1 fs); Ok (MergedBankData c l).

Definition Graph_from_fields (fs : list pyval) : res Body :=
  c ← client_field fs; v ← py_nth fs 1; l ← py_iter v; d ← mapR graph_entry_of l;
  Ok (Graph c (dict_of d)).

Definition PathCounts_from_fields (fs : list pyval) : res Body :=
  c ← client_field fs; v ← py_nth fs 1; l ← py_iter v; d ← mapR (pair_of path_of as_int) l;
  Ok (PathCounts c (dict_of d)).

Definition TransactionCount_from_fields (fs : list pyval) : res Body :=
  c ← client_field fs; v ← py_nth fs 1; n ← py_int v; Ok (TransactionCount c n).

Definition SumByPaymentFormat_from_fields (fs : list pyval) : res Body :=
  c ← client_field fs; l ← mapR sum_entry_of (drop 1 fs); Ok (SumByPaymentFormat c (dict_of l)).

Definition AvgByFormat_from_fields (fs : list pyval) : res Body :=
  c ← client_field fs; l ← mapR (pair_of as_str as_float) (drop 1 fs); Ok (AvgByFormat c (dict_of l)).

Definition MergedTransactions_from_fields (fs : list pyval) : res Body :=
  c ← client_field fs; v ← py_nth fs 1; n ← as_int v;
  l ← mapR (tx_of_row ts_raw) (py_slice 2 (2 + n) fs);
  d ← mapR avg_entry_of (py_from (2 + n) fs);
  Ok (MergedTransactions c l (dict_of d)).

Definition RingDone_from_fields (fs : list pyval) : res Body :=
  c ← client_field fs; _ ← check_args (drop 1 fs) 1 1; v ← py_nth (drop 1 fs) 0; o ← as_int v; Ok (RingDone c o).

Definition NodeMsg_from_fields (fs : list pyval) : res Body :=
  c ← client_field fs; v ← py_nth fs 1; s ← as_str v; n ← node_from_str s;
  p ← py_nth fs 2; p ← py_iter p; p ← mapR (λ v, s ← as_str v; node_from_str s) p;
  q ← py_nth fs 3; q ← py_iter q; q ← mapR (λ v, s ← as_str v; node_from_str s) q;
  Ok (NodeMsg c n (set_of p) (set_of q)).

Definition PathMsg_from_fields (fs : list pyval) : res Body :=
  c ← client_field fs; f ← py_nth fs 1; f0 ← py_item f 0; o ← path_item_of f0;
  f1 ← py_item f 1; d ← path_item_of f1; v ← py_nth fs 2; n ← py_int v;
  Ok (PathMsg c (mkPath o d) n).

Definition RingSentData_from_fields (fs : list pyval) : res Body :=
  c ← client_field fs;
  match drop 1 fs with
  | [o; a; s; d] =>
      o ← as_int o; a ← as_int a; s ← as_bool s; d ← as_bool d; Ok (RingSentData c o a s d)
  | _ => Exc TypeError
  end.

Definition HighDegree_from_fields (fs : list pyval) : res Body :=
  c ← client_field fs; v ← py_nth fs 1; o ← nodes_of v; w ← py_nth fs 2; i ← nodes_of w;
  Ok (HighDegree c o i).

Definition Hello_from_fields (fs : list pyval) : res Body :=
  Ok Hello.

Definition HelloAck_from_fields (fs : list pyval) : res Body :=
  c ← client_field fs; Ok (HelloAck c).

Definition RingBarrier_from_fields (fs : list pyval) : res Body :=
  c ← client_field fs; _ ← check_args (drop 1 fs) 1 2; v ← py_nth (drop 1 fs) 0; o ← as_int v;
  d ← opt_arg (λ v,
        match v with
        | PNone => Ok []
        | _ => d ← as_dict v; l ← mapR (λ kv, k ← as_int kv.1; x ← int_dict_of kv.2; Ok (k, x)) d;
               Ok (dict_of l)
        end) (drop 1 fs) 1 [];
  Ok (RingBarrier c o d).

Definition Abort_from_fields (fs : list pyval) : res Body :=
  c ← client_field fs; Ok (Abort c).

Definition SupervisorElection_from_fields (fs : list pyval) : res Body :=
  Ok SupervisorElection.

Definition SupervisorACK_from_fields (fs : list pyval) : res Body :=
  Ok SupervisorACK.

Definition SupervisorLeader_from_fields (fs : list pyval) : res Body :=
  v ← py_nth fs 1; i ← as_int v; Ok (SupervisorLeader i).

Definition from_fields (t : MessageType) (fs : list pyval) : res Body :=
  match t with
  | T_EOF => EOF_from_fields fs
  | T_TRANSACTIONS => Transactions_from_fields fs
  | T_ACCOUNTS => Accounts_from_fields fs
  | T_FIN => FIN_from_fields fs
  | T_RESPONSE => Response_from_fields fs
  | T_MAX_BY_BANK => MaxByBank_from_fields fs
  | T_BANK_NAMES => BankNames_from_fields fs
  | T_MERGED_BANK_DATA => MergedBankData_from_fields fs
  | T_GRAPH => Graph_from_fields fs
  | T_PATH_COUNTS => PathCounts_from_fields fs
  | T_COUNT => TransactionCount_from_fields fs
  | T_SUM_BY_PAYMENT_FORMAT => SumByPaymentFormat_from_fields fs
  | T_AVG_BY_FORMAT => AvgByFormat_from_fields fs
  | T_MERGED_TRANSACTIONS => MergedTransactions_from_fields fs
  | T_RING_DONE => RingDone_from_fields fs
  | T_NODEMSG => NodeMsg_from_fields fs
  | T_PATH_MSG => PathMsg_from_fields fs
  | T_RING_SENT_DATA => RingSentData_from_fields fs
  | T_HIGH_DEGREE => HighDegree_from_fields fs
  | T_HELLO => Hello_from_fields fs
  | T_HELLO_ACK => HelloAck_from_fields fs
  | T_RING_BARRIER => RingBarrier_from_fields fs
  | T_ABORT => Abort_from_fields fs
  | T_SUPERVISOR_ELECTION => SupervisorElection_from_fields fs
  | T_SUPERVISOR_ACK => SupervisorACK_from_fields fs
  | T_SUPERVISOR_LEADER => SupervisorLeader_from_fields fs
  end.

Create HintDb message_fields.
#[export] Hint Unfold
  EOF_fields EOF_from_fields Transactions_fields Transactions_from_fields
  Accounts_fields Accounts_from_fields FIN_fields FIN_from_fields
  Response_fields Response_from_fields MaxByBank_fields MaxByBank_from_fields
  BankNames_fields BankNames_from_fields MergedBankData_fields MergedBankData_from_fields
  Graph_fields Graph_from_fields PathCounts_fields PathCounts_from_fields
  TransactionCount_fields TransactionCount_from_fields SumByPaymentFormat_fields SumByPaymentFormat_from_fields
  AvgByFormat_fields AvgByFormat_from_fields MergedTransactions_fields MergedTransactions_from_fields
  RingDone_fields RingDone_from_fields NodeMsg_fields NodeMsg_from_fields
  PathMsg_fields PathMsg_from_fields RingSentData_fields RingSentData_from_fields
  HighDegree_fields HighDegree_from_fields Hello_fields Hello_from_fields
  HelloAck_fields HelloAck_from_fields RingBarrier_fields RingBarrier_from_fields
  Abort_fields Abort_from_fields SupervisorElection_fields SupervisorElection_from_fields
  SupervisorACK_fields SupervisorACK_from_fields SupervisorLeader_fields SupervisorLeader_from_fields
  client_field : message_fields.

(** ** The wire format *)

Definition TYPE_RANGE (bs : bytes) : bytes := slice 0 1 bs.
Definition PREFIX_RANGE (bs : bytes) : bytes := slice 1 17 bs.
Definition PRODUCER_RANGE (bs : bytes) : bytes := slice 17 33 bs.
Definition SEQ_RANGE (bs : bytes) : bytes := slice 33 41 bs.
Definition MSG_RANGE (bs : bytes) : bytes := drop 41 bs.
Definition SEQ_BYTES : nat := 8.

Definition serialize `{MsgPack} (m : Message) : res bytes :=
  let fs := fields (body_ m) in
  let '(prefix, fs) :=
    match body_client (body_ m) with
    | Some c => (uuid_bytes c, drop 1 fs)
    | None => (DEFAULT_PREFIX, fs)
    end in
  sq ← to_bytes_be SEQ_BYTES (seq m);
  payload ← packb _mp_default (PList fs);
  Ok (byte_of_Z (type_int (body_type (body_ m))) :: prefix ++ producer_id m ++ sq ++ payload).

(** [peek_type]: the first byte. *)
Definition peek_type (raw : bytes) : res Z :=
  match raw with [] => Exc IndexError | b :: _ => Ok (byte_to_Z b) end.

(** [cls.deserialize] for the class of type [t]. *)
Definition deserialize `{MsgPack} (t : MessageType) (bs : bytes) : res Message :=
  b0 ← peek_type bs;
  if negb (b0 =? type_int t) then Exc UnexpectedMessageError
  else
    c ← uuid_of_bytes (PREFIX_RANGE bs);
    v ← unpackb (MSG_RANGE bs);
    fs ← py_iter v;
    b ← from_fields t (PStr (uuid_str c) :: fs);
    Ok (mkMsg b (PRODUCER_RANGE bs) (be_combine (SEQ_RANGE bs))).

Definition deserialize_message `{MsgPack} (bs : bytes) : res Message :=
  b0 ← peek_type bs;
  match type_of_int b0 with
  | Some t => deserialize t bs
  | None => Exc UnknownMessageError
  end.

(** ** [PathCounts.add], [Graph.add_origin], [Graph.add_destination] *)

Definition path_counts_add (counts : pydict Path Z) (p : Path) (n : Z) : pydict Path Z :=
  let counts := if dmem counts p then counts else dset counts p 0 in
  dset counts p (dget_or 0 counts p + n).

Definition graph_nodes : Type := pydict Node (pyset Node * pyset Node).

Definition add_origin (nodes : graph_nodes) (node origin : Node) : graph_nodes :=
  let nodes := if dmem nodes node then nodes else dset nodes node ([], []) in
  let '(p, s) := dget_or ([], []) nodes node in dset nodes node (sadd p origin, s).

Definition add_destination (nodes : graph_nodes) (node destination : Node) : graph_nodes :=
  let nodes := if dmem nodes node then nodes else dset nodes node ([], []) in
  let '(p, s) := dget_or ([], []) nodes node in dset nodes node (p, sadd s destination).

(** ** Round trip *)

(** The wire form of a value: nothing the source sends is refused by the hook. *)
Fixpoint wv (v : pyval) : pyval :=
  match v with
  | PUUID u => PStr (uuid_str u)
  | PDatetime d => PStr (str_datetime d)
  | PList l | PTuple l => PList (wv <$> l)
  | PDict d => PDict ((λ kv, match kv with (k, x) => (wv k, wv x) end) <$> d)
  | _ => v
  end.

Fixpoint wire_default v : wire _mp_default v = Ok (wv v).
Proof.
  destruct v as [| | | | | | | |l|l|d]; [reflexivity..| | |]; cbn [wire wv].
  - enough (mapR (wire _mp_default) l = Ok (wv <$> l)) as -> by done.
    induction l as [|x l IH]; [done|]. cbn [mapR]. by rewrite wire_default, IH.
  - enough (mapR (wire _mp_default) l = Ok (wv <$> l)) as -> by done.
    induction l as [|x l IH]; [done|]. cbn [mapR]. by rewrite wire_default, IH.
  - match goal with |- context [mapR ?f d] =>
      enough (mapR f d = Ok ((λ kv, match kv with (k, x) => (wv k, wv x) end) <$> d)) as -> by done
    end.
    induction d as [|[k x] d IH]; [done|]. cbn [mapR]. by rewrite !wire_default, IH.
Qed.

(** What the receiver sees: the timestamps of merged transactions are text. *)
Definition ts_received (t : Timestamp) : Timestamp :=
  match t with TsDate d => TsText (str_datetime d) | TsText s => TsText s end.
Definition tx_received (t : Transaction) : Transaction :=
  mkTx (ts_received (timestamp t)) (from_bank t) (from_account t) (to_bank t) (to_account t)
    (amount_received t) (receiving_currency t) (amount_paid t) (payment_currency t)
    (payment_format t).
Definition received_body (b : Body) : Body :=
  match b with
  | MergedTransactions c l d => MergedTransactions c (tx_received <$> l) d
  | _ => b
  end.

(** *** Well-formed bodies: 64-bit integers, dicts and sets without repetitions,
    valid dates, and no comma inside the nodes that travel as text. *)

Definition counts_wf {K} `{!PyKey K} (d : pydict K Z) : Prop :=
  dict_wf d ∧ Forall (λ kn, int64_ok kn.2 = true) d.
Definition shard_wf (d : pydict Z Z) : Prop :=
  counts_wf d ∧ Forall (λ kn, int64_ok kn.1 = true) d.
Definition tx_wf (t : Transaction) : Prop :=
  match timestamp t with TsDate d => valid_datetime d = true | TsText _ => False end.
Definition node_wf (n : Node) : Prop :=
  (c_comma ∉ chars_of (node_bank n)) ∧ (c_comma ∉ chars_of (node_account n)).

Definition body_wf (b : Body) : Prop :=
  match b with
  | EOF _ p e n o d =>
      int64_ok p = true ∧ int64_ok e = true ∧ int64_ok n = true ∧ int64_ok o = true ∧ shard_wf d
  | Transactions _ l => Forall tx_wf l
  | MaxByBank _ d => dict_wf d
  | BankNames _ d => dict_wf d
  | Response _ _ _ uc => int64_ok uc = true
  | Graph _ d => dict_wf d ∧ Forall (λ e, set_wf e.2.1 ∧ set_wf e.2.2) d
  | PathCounts _ d => counts_wf d
  | TransactionCount _ n | PathMsg _ _ n | RingDone _ n | SupervisorLeader n => int64_ok n = true
  | SumByPaymentFormat _ d => dict_wf d ∧ Forall (λ e, int64_ok e.2.2 = true) d
  | AvgByFormat _ d => dict_wf d
  | MergedTransactions _ l d => dict_wf d ∧ int64_ok (Z.of_nat (length l)) = true
  | NodeMsg _ n p s => node_wf n ∧ Forall node_wf p ∧ Forall node_wf s ∧ set_wf p ∧ set_wf s
  | RingSentData _ o a _ _ => int64_ok o = true ∧ int64_ok a = true
  | HighDegree _ o i => set_wf o ∧ set_wf i
  | RingBarrier _ o d =>
      int64_ok o = true ∧ dict_wf d ∧ Forall (λ e, int64_ok e.1 = true ∧ shard_wf e.2) d
  | _ => True
  end.

Lemma forallb_fmap {A B} (f : A → B) (p : B → bool) l :
  Forall (λ x, p (f x) = true) l → forallb p (f <$> l) = true.
Proof. induction 1 as [|x l Hx _ IH]; [done|]. csimpl. by rewrite Hx, IH. Qed.

Lemma packable_nodes l : forallb packable (wv <$> (node_fields <$> l)) = true.
Proof. rewrite <- list_fmap_compose. apply forallb_fmap. by apply Forall_true. Qed.

Lemma forallb_Forall_all {A B} (f : A → B) (p : B → bool) l :
  (∀ x, p (f x) = true) → forallb p (f <$> l) = true.
Proof. intros H. apply forallb_fmap. by apply Forall_true. Qed.

Lemma packable_int_dict d : shard_wf d → packable (wv (int_dict d)) = true.
Proof.
  intros [[Hd Hv] Hk]. unfold int_dict. cbn [wv packable]. rewrite <- list_fmap_compose.
  apply andb_true_intro. split.
  - apply forallb_fmap. apply Forall_forall. intros [k n] Hin.
    rewrite Forall_forall in Hk, Hv. specialize (Hk _ Hin). specialize (Hv _ Hin).
    cbn in *. by rewrite Hk, Hv.
  - apply bool_decide_eq_true_2. rewrite <- !list_fmap_compose.
    unfold dict_wf, dkeys in Hd. rewrite <- list_fmap_compose in Hd. clear -Hd.
    induction d as [|[k n] d IH]; [constructor|]. csimpl in Hd. csimpl.
    apply NoDup_cons in Hd as [Hn Hd]. apply NoDup_cons. split; [|by apply IH].
    intros (kn & He & Hin)%list_elem_of_fmap. apply Hn. apply list_elem_of_fmap. exists kn.
    split; [|done]. cbn in He. injection He as He. done.
Qed.

Lemma int_dict_of_wire d : dict_wf d → int_dict_of (wv (int_dict d)) = Ok d.
Proof.
  intros Hd. unfold int_dict, int_dict_of. cbn [wv as_dict mbind res_bind].
  rewrite <- list_fmap_compose. rewrite (mapR_map _ _ id) by (by intros [k n]).
  cbn. rewrite list_fmap_id. by rewrite dict_of_items.
Qed.

Lemma packable_tx t : packable (wv (tx_fields t)) = true.
Proof. unfold tx_fields. by destruct (timestamp t). Qed.

Lemma Forall_impl_b {A} (P : A → Prop) (p : A → bool) l :
  Forall P l → (∀ x, P x → p x = true) → Forall (λ x, p x = true) l.
Proof. intros H Hp. eapply Forall_impl; [exact H|]. exact Hp. Qed.

Lemma packable_graph_entry (e : Node * (pyset Node * pyset Node)) :
  packable (wv (PTuple [node_fields e.1; PList (node_fields <$> e.2.1);
                        PList (node_fields <$> e.2.2)])) = true.
Proof. cbn. by rewrite !packable_nodes. Qed.

Lemma packable_barrier (d : pydict Z (pydict Z Z)) :
  dict_wf d → Forall (λ e, int64_ok e.1 = true ∧ shard_wf e.2) d →
  packable (wv (PDict ((λ kv, (PInt kv.1, int_dict kv.2)) <$> d))) = true.
Proof.
  intros Hd Hf. cbn [wv packable]. rewrite <- list_fmap_compose. apply andb_true_intro. split.
  - apply forallb_fmap. eapply Forall_impl; [exact Hf|]. intros [k x] [Hk Hx]. cbn in Hk, Hx.
    cbn -[wv int_dict packable]. rewrite packable_int_dict by done. cbn. by rewrite Hk.
  - apply bool_decide_eq_true_2. rewrite <- !list_fmap_compose.
    unfold dict_wf, dkeys in Hd. rewrite <- list_fmap_compose in Hd. clear -Hd.
    induction d as [|[k n] d IH]; [constructor|]. csimpl in Hd. csimpl.
    apply NoDup_cons in Hd as [Hn Hd]. apply NoDup_cons. split; [|by apply IH].
    intros (kn & He & Hin)%list_elem_of_fmap. apply Hn. apply list_elem_of_fmap. exists kn.
    split; [|done]. cbn in He. injection He as He. done.
Qed.

#[local] Opaque int_dict.

(** Everything in the payload but the client id. *)
Lemma body_packable b : body_wf b → forallb packable (wv <$>
  match body_client b with Some _ => drop 1 (fields b) | None => fields b end) = true.
Proof.
  destruct b; cbn [body_wf body_client fields]; autounfold with message_fields; cbn [drop];
    intros Hwf; try reflexivity;
    rewrite ?drop_0, ?fmap_app, <- ?list_fmap_compose.
  - destruct Hwf as (H1 & H2 & H3 & H4 & H5). csimpl. rewrite packable_int_dict by done.
    cbn. by rewrite H1, H2, H3, H4.
  - apply forallb_Forall_all, packable_tx.
  - by apply forallb_Forall_all.
  - cbn. by rewrite Hwf.
  - by apply forallb_Forall_all.
  - by apply forallb_Forall_all.
  - by apply forallb_Forall_all.
  - cbn [fmap list_fmap forallb wv packable]. rewrite <- list_fmap_compose.
    by rewrite forallb_Forall_all by apply packable_graph_entry.
  - cbn [fmap list_fmap forallb wv packable]. rewrite <- list_fmap_compose.
    rewrite forallb_fmap; [done|]. eapply Forall_impl; [apply Hwf|]. intros e He. cbn.
    by rewrite He.
  - cbn. by rewrite Hwf.
  - destruct Hwf as [_ Hwf]. apply forallb_fmap. eapply Forall_impl; [exact Hwf|].
    intros e He. cbn. by rewrite He.
  - by apply forallb_Forall_all.
  - destruct Hwf as [_ Hwf]. csimpl. rewrite Hwf, fmap_app, forallb_app, <- !list_fmap_compose.
    by rewrite !forallb_Forall_all by (done || apply packable_tx).
  - cbn. by rewrite Hwf.
  - cbn [fmap list_fmap forallb wv packable]. rewrite <- !list_fmap_compose.
    by rewrite !forallb_Forall_all.
  - cbn. by rewrite Hwf.
  - cbn. destruct Hwf as [-> ->]. done.
  - cbn [fmap list_fmap forallb wv packable]. by rewrite !packable_nodes.
  - destruct Hwf as (H1 & H2 & H3). cbn [fmap list_fmap forallb].
    rewrite packable_barrier by done. cbn. by rewrite H1.
  - cbn. by rewrite Hwf.
Qed.

Lemma node_of_wire n : node_of (wv (node_fields n)) = Ok n.
Proof. by destruct n. Qed.

(** A list of wire values decoded item by item. *)
Lemma mapR_wire {A B} (dec : pyval → res B) (enc : A → pyval) (g : A → B) l :
  (∀ x, x ∈ l → dec (wv (enc x)) = Ok (g x)) → mapR dec (wv <$> (enc <$> l)) = Ok (g <$> l).
Proof. intros H. rewrite <- list_fmap_compose. by apply mapR_map. Qed.

Lemma mapR_wire_id {A} (dec : pyval → res A) (enc : A → pyval) l :
  (∀ x, x ∈ l → dec (wv (enc x)) = Ok x) → mapR dec (wv <$> (enc <$> l)) = Ok l.
Proof. intros H. rewrite (mapR_wire _ _ id) by done. by rewrite list_fmap_id. Qed.

Lemma nodes_of_wire l : set_wf l → nodes_of (PList (wv <$> (node_fields <$> l))) = Ok l.
Proof.
  intros Hl. unfold nodes_of. cbn [py_iter mbind res_bind].
  rewrite mapR_wire_id by (intros; apply node_of_wire). cbn. by rewrite set_of_id.
Qed.

Lemma node_str_split n : node_wf n → str_split c_comma (node_str n) = [node_bank n; node_account n].
Proof.
  intros [Hb Ha]. unfold str_split, node_str. rewrite !chars_of_app.
  change (chars_of ",") with [c_comma]. cbn [app]. rewrite split_on_app, split_on_free by done.
  csimpl. by rewrite !str_of_chars.
Qed.

Lemma node_from_str_str n : node_wf n → node_from_str (node_str n) = Ok n.
Proof. intros Hn. unfold node_from_str. rewrite node_str_split by done. by destruct n. Qed.

Lemma tx_parsed_wire t : tx_wf t → tx_of_row ts_parsed (wv (tx_fields t)) = Ok t.
Proof.
  destruct t as [[d|s]]; cbn [tx_wf timestamp]; [|done]. intros Hd.
  unfold tx_of_row, ts_parsed. cbn -[fast_datetime]. by rewrite fast_datetime_str.
Qed.

Lemma tx_raw_wire t : tx_of_row ts_raw (wv (tx_fields t)) = Ok (tx_received t).
Proof. by destruct t as [[d|s]]. Qed.

Lemma barrier_wire (d : pydict Z (pydict Z Z)) :
  Forall (λ e, int64_ok e.1 = true ∧ shard_wf e.2) d →
  mapR (λ kv, k ← as_int kv.1; x ← int_dict_of kv.2; Ok (k, x))
    ((λ kv, match kv with (k, x) => (wv k, wv x) end) <$>
       ((λ kv, (PInt kv.1, int_dict kv.2)) <$> d)) = Ok d.
Proof.
  intros Hf. rewrite <- list_fmap_compose. rewrite (mapR_map _ _ id); [by rewrite list_fmap_id|].
  intros [k x] Hin. rewrite Forall_forall in Hf. destruct (Hf _ Hin) as [_ [[Hx _] _]].
  cbn -[int_dict_of int_dict wv]. rewrite int_dict_of_wire by done. done.
Qed.

#[local] Opaque node_str node_from_str.

(** The payload read back. *)
Lemma from_fields_fields b c0 :
  body_wf b → (∀ c, body_client b = Some c → c0 = c) →
  from_fields (body_type b) (PStr (uuid_str c0) :: (wv <$>
    match body_client b with Some _ => drop 1 (fields b) | None => fields b end))
  = Ok (received_body b).
Proof.
  intros Hwf Hc.
  assert (Hu : ∀ l, (v ← py_nth (PStr (uuid_str c0) :: l) 0; py_uuid v) = Ok c0)
    by (intros l; cbn; apply uuid_of_str_str).
  destruct b; cbn [body_client] in Hc; try (specialize (Hc _ eq_refl); subst c0);
    unfold from_fields; cbn [body_type body_client fields received_body];
    autounfold with message_fields;
    rewrite ?Hu; cbn [mbind res_bind body_wf] in *; rewrite ?skipn_cons, ?drop_0;
    try reflexivity.
  - unfold opt_arg. cbn -[int_dict_of wv]. cbn [wv as_int mbind res_bind].
    rewrite int_dict_of_wire by apply Hwf. done.
  - rewrite mapR_wire_id; [done|]. intros t Ht. rewrite Forall_forall in Hwf.
    by apply tx_parsed_wire, Hwf.
  - rewrite mapR_wire_id; [done|]. by intros [].
  - cbn. by rewrite uuid_of_str_str.
  - rewrite mapR_wire_id; [cbn; by rewrite dict_of_items|]. by intros [? []].
  - rewrite mapR_wire_id; [cbn; by rewrite dict_of_items|]. by intros [].
  - rewrite mapR_wire_id; [done|]. by intros [[[] ?] ?].
  - cbn -[graph_entry_of dict_of]. rewrite mapR_wire_id; [cbn; by rewrite dict_of_items by apply Hwf|].
    intros [n [p s]] Hin. destruct Hwf as [_ Hf]. rewrite Forall_forall in Hf.
    destruct (Hf _ Hin) as [Hp Hs]. unfold graph_entry_of.
    cbn -[node_of nodes_of node_fields]. rewrite node_of_wire. cbn -[nodes_of node_fields].
    rewrite !nodes_of_wire by done. done.
  - cbn -[dict_of path_of]. rewrite mapR_wire_id; [cbn; by rewrite dict_of_items by apply Hwf|].
    by intros [[[] []] ?].
  - rewrite mapR_wire_id; [cbn; by rewrite dict_of_items by apply Hwf|]. by intros [? []].
  - rewrite mapR_wire_id; [cbn; by rewrite dict_of_items|]. by intros [].
  - cbn -[mapR dict_of py_slice py_from Z.add]. rewrite fmap_app.
    match goal with |- context [py_slice 2 _ (?x :: ?y :: ?l1 ++ ?l2)] =>
      destruct (counted_slices x y l1 l2 (length transactions)) as [-> ->]; [by rewrite !length_fmap|] end.
    rewrite (mapR_wire _ _ tx_received) by (intros; apply tx_raw_wire). cbn -[mapR dict_of].
    rewrite mapR_wire_id; [cbn; by rewrite dict_of_items by apply Hwf|]. by intros [].
  - destruct Hwf as (Hn & Hp & Hs & Hps & Hss). cbn -[mapR set_of].
    rewrite node_from_str_str by done. cbn -[mapR set_of].
    rewrite !(mapR_wire_id (λ v, s ← as_str v; node_from_str s)).
    + cbn -[set_of]. by rewrite !set_of_id.
    + intros n Hin. cbn. rewrite Forall_forall in Hp, Hs. by auto using node_from_str_str.
    + intros n Hin. cbn. rewrite Forall_forall in Hp, Hs. by auto using node_from_str_str.
  - by destruct path as [[] []].
  - cbn -[nodes_of node_fields]. rewrite !nodes_of_wire by apply Hwf. done.
  - unfold opt_arg. cbn -[mapR dict_of int_dict_of wv]. cbn [wv as_int as_dict mbind res_bind].
    rewrite barrier_wire by apply Hwf. cbn. by rewrite dict_of_items by apply Hwf.
Qed.

Lemma slice_app {A} (a b : nat) (l1 l2 l3 : list A) :
  length l1 = a → length l2 = (b - a)%nat → slice a b (l1 ++ l2 ++ l3) = l2.
Proof.
  intros <- H2. unfold slice. rewrite drop_app_length. rewrite <- H2. apply take_app_length.
Qed.

Lemma type_int_bound t : 0 ≤ type_int t < 26.
Proof. by destruct t. Qed.

Lemma byte_of_type t : byte_to_Z (byte_of_Z (type_int t)) = type_int t.
Proof. rewrite byte_to_of. apply Z.mod_small. pose proof (type_int_bound t). lia. Qed.

Definition seq_ok (z : Z) : Prop := 0 ≤ z < 256 ^ 8.

(** The layout of a serialized message. *)
Lemma serialize_layout `{MsgPack} m :
  body_wf (body_ m) → length (producer_id m) = 16%nat → seq_ok (seq m) →
  ∃ payload, serialize m = Ok (byte_of_Z (type_int (body_type (body_ m))) ::
      match body_client (body_ m) with Some c => uuid_bytes c | None => DEFAULT_PREFIX end ++
      producer_id m ++ be_split 8 (seq m) ++ payload)
  ∧ unpackb payload = Ok (PList (wv <$>
      match body_client (body_ m) with
      | Some _ => drop 1 (fields (body_ m)) | None => fields (body_ m) end)).
Proof.
  intros Hwf Hp Hs. unfold serialize, SEQ_BYTES.
  set (fs := match body_client (body_ m) with
             | Some _ => drop 1 (fields (body_ m)) | None => fields (body_ m) end).
  destruct (unpackb_packb _mp_default (PList fs) (PList (wv <$> fs))) as (bs & H1 & H2).
  - by rewrite wire_default.
  - by apply body_packable.
  - exists bs. split; [|exact H2]. unfold fs in H1.
    destruct (body_client (body_ m)); rewrite to_bytes_be_range by exact Hs;
      cbn [mbind res_bind]; by rewrite H1.
Qed.

Lemma default_prefix_uuid : uuid_of_bytes DEFAULT_PREFIX = Ok (uuid_lit 0).
Proof. by vm_compute. Qed.

Lemma layout_ranges b pre prod sq payload :
  length pre = 16%nat → length prod = 16%nat → length sq = 8%nat →
  let bs := b :: pre ++ prod ++ sq ++ payload in
  PREFIX_RANGE bs = pre ∧ PRODUCER_RANGE bs = prod ∧ SEQ_RANGE bs = sq ∧ MSG_RANGE bs = payload.
Proof.
  intros H1 H2 H3 bs. unfold bs. split_and!.
  - by apply (slice_app 1 17 [b]).
  - change (b :: pre ++ ?x) with ((b :: pre) ++ x). apply slice_app; simpl; lia.
  - replace (b :: pre ++ prod ++ sq ++ payload) with ((b :: pre ++ prod) ++ sq ++ payload)
      by (cbn; by rewrite <- app_assoc).
    apply slice_app; cbn; rewrite ?length_app; lia.
  - replace (b :: pre ++ prod ++ sq ++ payload) with ((b :: pre ++ prod ++ sq) ++ payload)
      by (cbn; by rewrite <- !app_assoc).
    unfold MSG_RANGE. apply drop_app_length'. cbn. rewrite !length_app. lia.
Qed.

Lemma deserialize_serialize `{MsgPack} m :
  body_wf (body_ m) → length (producer_id m) = 16%nat → seq_ok (seq m) →
  ∃ bs, serialize m = Ok bs ∧
    deserialize_message bs = Ok (mkMsg (received_body (body_ m)) (producer_id m) (seq m)).
Proof.
  intros Hwf Hp Hs. destruct (serialize_layout m Hwf Hp Hs) as (payload & -> & Hu).
  eexists; split; [done|]. unfold deserialize_message, deserialize. cbn [peek_type mbind res_bind].
  rewrite byte_of_type, type_of_int_int, Z.eqb_refl. cbn [negb].
  edestruct layout_ranges as (-> & -> & -> & ->);
    [|exact Hp|apply length_be_split|].
  { destruct (body_client _); [apply length_uuid_bytes|done]. }
  rewrite Hu. cbn [mbind res_bind py_iter]. rewrite be_combine_split, Z.mod_small by exact Hs.
  destruct (body_client (body_ m)) as [c|] eqn:Hc.
  - rewrite uuid_of_bytes_bytes. cbn [mbind res_bind].
    pose proof (from_fields_fields (body_ m) c Hwf) as Hf. rewrite Hc in Hf.
    by rewrite Hf by congruence.
  - rewrite default_prefix_uuid. cbn [mbind res_bind].
    pose proof (from_fields_fields (body_ m) (uuid_lit 0) Hwf) as Hf. rewrite Hc in Hf.
    by rewrite Hf.
Qed.

(** ** The claims *)

(** C14: the wire format loses nothing: every well-formed message of every type,
    stamped with any producer id and sequence number, serializes, and
    [deserialize_message] returns it unchanged (only the timestamps of merged
    transactions come back as text). *)
Theorem message_roundtrip `{MsgPack} (m : Message) :
  body_wf (body_ m) → length (producer_id m) = 16%nat → seq_ok (seq m) →
  ∃ bs, serialize m = Ok bs ∧
    deserialize_message bs = Ok (mkMsg (received_body (body_ m)) (producer_id m) (seq m)).
Proof. apply deserialize_serialize. Qed.

Lemma message_roundtrip_witness :
  let c := uuid_lit 7 in
  let m := mkMsg (Graph c [(mkNode "b1" "a1", ([mkNode "b2" "a2"], []))])
             (uuid_bytes (uuid_lit 9)) 42 in
  ∃ bs, @serialize msgpack_model m = Ok bs ∧ @deserialize_message msgpack_model bs = Ok m.
Proof.
  intros c m. refine (@message_roundtrip msgpack_model m _ eq_refl _).
  - split.
    + apply (bool_decide_eq_true_1 (NoDup ["b1a1"%string])). reflexivity.
    + constructor; [|constructor]. split.
      * apply (bool_decide_eq_true_1 (NoDup ["b2a2"%string])). reflexivity.
      * constructor.
  - vm_compute. split; [intros Hd; discriminate Hd|reflexivity].
Defined.

(** C17: bytes that are not a message are refused with the documented error: an
    unknown type byte, a type other than the one the receiver expects, a header cut
    before the client id ends, and no bytes at all. *)
Theorem deserialize_errors `{MsgPack} (t : MessageType) (b : byte) (bs : bytes) :
  deserialize_message [] = Exc IndexError ∧
  (26 ≤ byte_to_Z b → deserialize_message (b :: bs) = Exc UnknownMessageError) ∧
  (byte_to_Z b ≠ type_int t → deserialize t (b :: bs) = Exc UnexpectedMessageError) ∧
  (byte_to_Z b = type_int t → (length bs < 16)%nat → deserialize t (b :: bs) = Exc ValueError).
Proof.
  split_and!; [done| | |].
  - intros Hb. unfold deserialize_message. cbn [peek_type mbind res_bind].
    unfold type_of_int. rewrite (proj2 (Z.leb_le 0 _)) by lia.
    rewrite lookup_ge_None_2; [done|]. simpl. lia.
  - intros Hb. unfold deserialize. cbn [peek_type mbind res_bind].
    by rewrite (proj2 (Z.eqb_neq _ _)).
  - intros Hb Hl. unfold deserialize. cbn [peek_type mbind res_bind].
    rewrite Hb, Z.eqb_refl. cbn [negb]. replace (uuid_of_bytes _) with (@Exc uuid ValueError); [done|].
    symmetry. apply uuid_of_bytes_short. unfold PREFIX_RANGE, slice.
    rewrite length_take, length_drop. cbn [length]. lia.
Qed.

Lemma deserialize_errors_witness :
  @deserialize_message msgpack_model [byte_of_Z 26] = Exc UnknownMessageError ∧
  @deserialize msgpack_model T_EOF [byte_of_Z 1] = Exc UnexpectedMessageError ∧
  @deserialize msgpack_model T_EOF [byte_of_Z 0] = Exc ValueError.
Proof.
  split_and!.
  - refine (proj1 (proj2 (@deserialize_errors msgpack_model T_EOF (byte_of_Z 26) [])) _).
    intros Hd. discriminate Hd.
  - refine (proj1 (proj2 (proj2 (@deserialize_errors msgpack_model T_EOF (byte_of_Z 1) []))) _).
    intros Hd. discriminate Hd.
  - refine (proj2 (proj2 (proj2 (@deserialize_errors msgpack_model T_EOF (byte_of_Z 0) []))) eq_refl _).
    repeat constructor.
Defined.
