(* ===== verification/MessageTypes.v ===== *)
(** * What a received message is

    A message that deserializes, its fields of the annotated types, is of the type its
    first byte names and of the class that was asked for, belongs to the client its
    prefix names, and has well-formed contents. *)

From S2P Require Import Prelude.
From S2P Require Import PyDict.
From S2P Require Import PyValues.
From S2P Require Import PyText.
From S2P Require Import PyTime.
From S2P Require Import PyFloat.
From S2P Require Import Wire.
From S2P Require Import Messages.

(** The dicts and sets are without repetitions, the dates are dates. *)
Definition body_shape (b : Body) : Prop :=
  match b with
  | EOF _ _ _ _ _ d => dict_wf d
  | Transactions _ l => Forall tx_wf l
  | MaxByBank _ d => dict_wf d
  | BankNames _ d => dict_wf d
  | Graph _ d => dict_wf d ∧ Forall (λ e, set_wf e.2.1 ∧ set_wf e.2.2) d
  | PathCounts _ d => dict_wf d
  | SumByPaymentFormat _ d => dict_wf d
  | AvgByFormat _ d => dict_wf d
  | MergedTransactions _ l d => dict_wf d ∧ Forall (λ t, ∃ s, timestamp t = TsText s) l
  | NodeMsg _ _ p s => set_wf p ∧ set_wf s
  | HighDegree _ o i => set_wf o ∧ set_wf i
  | RingBarrier _ _ d => dict_wf d ∧ Forall (λ e, dict_wf e.2) d
  | _ => True
  end.

(** ** Entries of a dict *)

Lemma dset_values {K V} `{PyKey K} (P : V → Prop) (d : pydict K V) k v :
  Forall (λ e, P e.2) d → P v → Forall (λ e, P e.2) (dset d k v).
Proof.
  intros Hd Hv. induction Hd as [|[k' v'] d H' Hd IH]; cbn; [by constructor|].
  case_decide; by constructor.
Qed.

Lemma dict_of_values {K V} `{PyKey K} (P : V → Prop) (l : list (K * V)) :
  Forall (λ e, P e.2) l → Forall (λ e, P e.2) (dict_of l).
Proof.
  unfold dict_of, dupdate. assert (Hn : Forall (λ e : K * V, P e.2) []) by done. revert Hn. generalize (@nil (K * V)).
  induction l as [|[k v] l IH]; intros d Hd Hl; [done|]. inversion_clear Hl. cbn. apply IH; [by apply dset_values|done].
Qed.

Lemma mapR_Forall {A B} (f : A → res B) (P : B → Prop) l l' :
  (∀ x y, f x = Ok y → P y) → mapR f l = Ok l' → Forall P l'.
Proof.
  intros Hf. revert l'. induction l as [|x l IH]; intros l' E; cbn in E; [by injection E as <-|].
  apply bind_Ok in E as (y & Ey & E). apply bind_Ok in E as (ys & Eys & [= <-]). constructor; [by eapply Hf|by apply IH].
Qed.

Lemma fast_datetime_valid s d : fast_datetime s = Ok d → valid_datetime d = true.
Proof.
  unfold fast_datetime. intros Hd. res_inv.
  match goal with Hd : datetime_new _ _ _ _ _ _ = Ok _ |- _ => unfold datetime_new in Hd end.
  case_match eqn:E; [|done]. simplify_eq. exact E.
Qed.

Lemma tx_parsed_wf v t : tx_of_row ts_parsed v = Ok t → tx_wf t.
Proof.
  unfold tx_of_row, ts_parsed. intros E. apply bind_Ok in E as (l & _ & E). repeat (case_match; try discriminate).
  res_inv. cbn. by eapply fast_datetime_valid.
Qed.

Lemma tx_raw_text v t : tx_of_row ts_raw v = Ok t → ∃ s, timestamp t = TsText s.
Proof.
  unfold tx_of_row, ts_raw. intros E. apply bind_Ok in E as (l & _ & E). repeat (case_match; try discriminate).
  res_inv. by eexists.
Qed.

Lemma nodes_of_wf v s : nodes_of v = Ok s → set_wf s.
Proof. unfold nodes_of. intros E. res_inv. apply set_of_wf. Qed.

Lemma int_dict_of_wf v d : int_dict_of v = Ok d → dict_wf d.
Proof. unfold int_dict_of. intros E. repeat case_match; res_inv; try apply nil_wf; apply dict_of_wf. Qed.

Lemma opt_arg_int_dict args i d : opt_arg int_dict_of args i [] = Ok d → dict_wf d.
Proof. unfold opt_arg. case_match; [apply int_dict_of_wf|]. intros [= <-]. apply nil_wf. Qed.

Lemma graph_entry_wf v e : graph_entry_of v = Ok e → set_wf e.2.1 ∧ set_wf e.2.2.
Proof.
  unfold graph_entry_of. intros E. res_inv. repeat case_match. res_inv. cbn.
  split; by eapply nodes_of_wf.
Qed.

Lemma barrier_wf args d :
  opt_arg (λ v,
        match v with
        | PNone => Ok []
        | _ => d ← as_dict v; l ← mapR (λ kv, k ← as_int kv.1; x ← int_dict_of kv.2; Ok (k, x)) d;
               Ok (dict_of l)
        end) args 1 [] = Ok d → dict_wf d ∧ Forall (λ e, dict_wf e.2) d.
Proof.
  unfold opt_arg. destruct (args !! 1%nat) as [v|]; [|by intros [= <-]; split; [apply nil_wf|]].
  intros E. assert (H : ∀ v, (d' ← as_dict v; l ← mapR (λ kv, k ← as_int kv.1; x ← int_dict_of kv.2; Ok (k, x)) d'; Ok (dict_of l)) = Ok d →
    dict_wf d ∧ Forall (λ e, dict_wf e.2) d).
  { clear. intros v E. res_inv. split; [apply dict_of_wf|]. apply dict_of_values. eapply mapR_Forall; [|done].
    intros kv y Ey. cbn in Ey. res_inv. cbn. by eapply int_dict_of_wf. }
  destruct v; try (by eapply H; exact E). injection E as <-. by split; [apply nil_wf|].
Qed.

Lemma graph_values_wf l d : mapR graph_entry_of l = Ok d → Forall (λ e : Node * (pyset Node * pyset Node), set_wf e.2.1 ∧ set_wf e.2.2) (dict_of d).
Proof. intros E. apply (dict_of_values (λ ps, set_wf ps.1 ∧ set_wf ps.2)). eapply mapR_Forall; [apply graph_entry_wf|done]. Qed.

Lemma txs_parsed_wf l ts : mapR (tx_of_row ts_parsed) l = Ok ts → Forall tx_wf ts.
Proof. apply mapR_Forall, tx_parsed_wf. Qed.

Lemma txs_raw_text l ts : mapR (tx_of_row ts_raw) l = Ok ts → Forall (λ t, ∃ s, timestamp t = TsText s) ts.
Proof. apply mapR_Forall, tx_raw_text. Qed.
#[export] Hint Resolve opt_arg_int_dict barrier_wf txs_parsed_wf txs_raw_text graph_values_wf nodes_of_wf set_of_wf dict_of_wf : py.

Lemma from_fields_type t fs b : from_fields t fs = Ok b → body_type b = t ∧ body_shape b.
Proof.
  destruct t; cbn [from_fields]; autounfold with message_fields; intros E; repeat (case_match; try discriminate); res_inv;
    (split; [reflexivity|]); cbn [body_shape]; try exact I; eauto 6 with py.
Qed.

(** The client of a body is the first field. *)
Lemma from_fields_client t u fs b c : from_fields t (PStr (uuid_str u) :: fs) = Ok b → body_client b = Some c → u = c.
Proof.
  intros E Hc. assert (Hu : py_uuid (PStr (uuid_str u)) = Ok c); [|cbn in Hu; rewrite uuid_of_str_str in Hu; congruence]. revert E Hc.
  destruct t; cbn [from_fields]; autounfold with message_fields; intros E Hc; repeat (case_match; try discriminate); res_inv;
    cbn [body_client] in Hc; try discriminate; simplify_eq;
    repeat match goal with H : py_nth _ 0 = Ok _ |- _ => injection H as <- end; assumption.
Qed.

(** C35: what a received message is. Of bytes that a class deserializes, the fields of the
    payload having the types the source annotates (it stores them unchecked; nothing
    is said of others), the first byte is the class's type, and so is the body; the
    client of the body is the one the prefix names, the id that the payload leaves out
    and the class puts back; the stamp is the producer and the number that the header
    holds, the number within eight bytes; the dicts and the sets of the body have no
    repetitions, whatever repeats in the payload; the timestamps of transactions are
    parsed into dates that exist, while those of merged transactions stay text. A
    receiver that reads the type first deserializes the same message. *)
Theorem deserialize_typed `{MsgPack} (t : MessageType) (bs : bytes) (m : Message) :
  deserialize t bs = Ok m →
  peek_type bs = Ok (type_int t) ∧ body_type (body_ m) = t ∧ body_shape (body_ m) ∧
  (∀ c, body_client (body_ m) = Some c → uuid_of_bytes (PREFIX_RANGE bs) = Ok c) ∧
  producer_id m = PRODUCER_RANGE bs ∧ seq m = be_combine (SEQ_RANGE bs) ∧ 0 ≤ seq m < 256 ^ 8 ∧
  deserialize_message bs = Ok m.
Proof.
  intros E. assert (Hall := E). unfold deserialize in E. apply bind_Ok in E as (b0 & Hp & E).
  destruct (b0 =? type_int t) eqn:Ht; [|done]. apply Z.eqb_eq in Ht as ->. cbn [negb] in E. res_inv.
  match goal with Hf : from_fields _ _ = Ok _ |- _ => pose proof (from_fields_type _ _ _ Hf) as [Htype Hshape]; rename Hf into Hfields end.
  cbn [body_ producer_id seq]. split_and!; try done.
  - intros c Hc. match goal with Hu : uuid_of_bytes _ = Ok _ |- _ => rewrite Hu end. f_equal.
    eapply from_fields_client; [exact Hfields|exact Hc].
  - pose proof (be_combine_bound (SEQ_RANGE bs)). lia.
  - pose proof (be_combine_bound (SEQ_RANGE bs)) as [_ Hb]. eapply Z.lt_le_trans; [exact Hb|]. apply Z.pow_le_mono_r; [lia|].
    unfold SEQ_RANGE, slice. rewrite length_take. lia.
  - unfold deserialize_message. rewrite Hp. cbn [mbind res_bind]. by rewrite type_of_int_int.
Qed.

Definition raw_bytes (b : Body) : bytes := match @serialize msgpack_model (new_msg b) with Ok raw => raw | Exc _ => [] end.

Lemma deserialize_typed_witness :
  let bs := raw_bytes (Abort (uuid_lit 9)) in
  ∃ m, @deserialize msgpack_model T_ABORT bs = Ok m ∧ body_client (body_ m) = Some (uuid_lit 9) ∧ uuid_of_bytes (PREFIX_RANGE bs) = Ok (uuid_lit 9).
Proof.
  intros bs. destruct (@deserialize msgpack_model T_ABORT bs) as [m|e] eqn:E; [|vm_compute in E; discriminate E].
  exists m. split; [reflexivity|]. pose proof (@deserialize_typed msgpack_model T_ABORT bs m E) as (_ & _ & _ & Hc & _).
  assert (Hm : body_client (body_ m) = Some (uuid_lit 9)) by (vm_compute in E; injection E as <-; vm_compute; reflexivity).
  split; [exact Hm|exact (Hc _ Hm)].
Defined.
