(* ===== verification/Stamping.v ===== *)
(** * Stamping (src/src/common/comms/middleware/stamping_mom.py, make_rx_tx.py)

    The decorator that writes a producer id and an increasing sequence number into
    the header of every data message a node sends, and the routes of a node. *)

From S2P Require Import Prelude.
From S2P Require Import PyDict.
From S2P Require Import PyValues.
From S2P Require Import PyText.
From S2P Require Import PyTime.
From S2P Require Import Wire.
From S2P Require Import Messages.

(** ** [_UNSTAMPED_TYPES] *)

Definition UNSTAMPED_TYPES : list Z :=
  type_int <$> [T_EOF; T_ABORT; T_RING_DONE; T_RING_SENT_DATA; T_FIN; T_HELLO; T_HELLO_ACK].

Definition unstamped (t : Z) : bool := bool_decide (t ∈ UNSTAMPED_TYPES).

(** ** [_SeqCounter] *)

Record SeqCounter := mkSeq { seq_ : Z }.
Definition seq_init : SeqCounter := mkSeq 0.
Definition seq_next (c : SeqCounter) : SeqCounter * Z := (mkSeq (seq_ c + 1), seq_ c + 1).
Definition seq_restore (c : SeqCounter) (v : Z) : SeqCounter := mkSeq v.

(** ** [StampingMOM]: what a send hands to the inner middleware *)

Record StampingMOM := mkSM { sm_producer : bytes; sm_counter : SeqCounter }.

(** [__init__] *)
Definition sm_new (producer : bytes) (counter : option SeqCounter) : res StampingMOM :=
  _ ← guard_exc ValueError (length producer =? 16)%nat;
  Ok (mkSM producer (default seq_init counter)).

Definition seq_value (s : StampingMOM) : Z := seq_ (sm_counter s).
Definition restore_seq (s : StampingMOM) (v : Z) : StampingMOM :=
  mkSM (sm_producer s) (seq_restore (sm_counter s) v).

(** The header rewritten: [message[:17] + producer + seq + message[41:]]. *)
Definition stamp (message producer : bytes) (sq : Z) : res bytes :=
  sqb ← to_bytes_be SEQ_BYTES sq;
  Ok (take 17 message ++ producer ++ sqb ++ drop 41 message).

(** The counter advances even when the number does not fit. *)
Definition sm_send (s : StampingMOM) (message : bytes) : StampingMOM * res bytes :=
  match peek_type message with
  | Exc e => (s, Exc e)
  | Ok t =>
      if unstamped t then (s, Ok message)
      else
        let '(c, sq) := seq_next (sm_counter s) in
        (mkSM (sm_producer s) c, stamp message (sm_producer s) sq)
  end.

Definition sm_send_stamped (s : StampingMOM) (message producer : bytes) (sq : Z)
    : StampingMOM * res bytes :=
  match peek_type message with
  | Exc e => (s, Exc e)
  | Ok t => if unstamped t then (s, Ok message) else (s, stamp message producer sq)
  end.

(** A node sends a list of messages one by one. *)
Fixpoint sm_send_all (s : StampingMOM) (ms : list bytes) : StampingMOM * list (res bytes) :=
  match ms with
  | [] => (s, [])
  | m :: ms =>
      let '(s, r) := sm_send s m in
      let '(s, rs) := sm_send_all s ms in (s, r :: rs)
  end.

(** ** [derive_producer_id] and [make_txs]

    [uuid5] is the name-based UUID of the standard library, a hash: a parameter. *)
Section routes.
Context (uuid5 : uuid → string → uuid).

Definition PRODUCER_NAMESPACE : uuid := uuid_lit 0x6f1c5e1e000040008000000000000001.

Definition derive_producer_id (tx_name : string) (idx route : Z) : bytes :=
  uuid_bytes (uuid5 PRODUCER_NAMESPACE
    (tx_name +:+ ":" +:+ str_int idx +:+ ":" +:+ str_int route)).

(** Where a route leads: a work queue, or an exchange bound to one shard queue. *)
Inductive Route :=
  | QueueRoute (queue_name : string)
  | ExchangeRoute (exchange : string) (routing_keys : list string) (queue_name : string).

Definition make_txs (idx : Z) (tx_name : string) (naffinity_downstream : Z)
    : res (list (Route * StampingMOM)) :=
  if naffinity_downstream <? 0 then Exc ValueError
  else if naffinity_downstream =? 0 then
    s ← sm_new (derive_producer_id tx_name idx 0) None;
    Ok [(QueueRoute tx_name, s)]
  else
    mapR (λ n, s ← sm_new (derive_producer_id tx_name idx n) None;
               Ok (ExchangeRoute tx_name [str_int n] (tx_name +:+ str_int n), s))
      (seqZ 0 naffinity_downstream).
End routes.

(** ** Stamping a serialized message *)

Definition stampable (m : Message) : Prop :=
  unstamped (type_int (body_type (body_ m))) = false.

Lemma layout_take_drop b pre prod sq payload :
  length pre = 16%nat → length prod = 16%nat → length sq = 8%nat →
  take 17 (b :: pre ++ prod ++ sq ++ payload : bytes) = b :: pre ∧
  drop 41 (b :: pre ++ prod ++ sq ++ payload : bytes) = payload.
Proof.
  intros H1 H2 H3. split.
  - change (b :: pre ++ ?x) with ((b :: pre) ++ x). apply take_app_length'. simpl. lia.
  - destruct (layout_ranges b pre prod sq payload H1 H2 H3) as (_ & _ & _ & H). exact H.
Qed.

Section stamping.
Context `{MsgPack}.
Implicit Types (m : Message) (s : StampingMOM).

(** Stamping the bytes of a message is serializing the stamped message. *)
Lemma stamp_serialize m producer sq bs :
  body_wf (body_ m) → length (producer_id m) = 16%nat → seq_ok (seq m) → seq_ok sq →
  serialize m = Ok bs →
  stamp bs producer sq = serialize (mkMsg (body_ m) producer sq).
Proof.
  intros Hwf Hp Hs Hq Hbs. pose proof Hbs as Hbs'. unfold serialize in Hbs'.
  destruct (match body_client (body_ m) with
            | Some c => (uuid_bytes c, drop 1 (fields (body_ m)))
            | None => (DEFAULT_PREFIX, fields (body_ m)) end) as [prefix fs] eqn:E.
  assert (Hpre : length prefix = 16%nat).
  { destruct (body_client _); injection E as <- _; [apply length_uuid_bytes|done]. }
  res_inv. apply to_bytes_be_ok in H0 as [Hl _].
  unfold stamp, serialize. cbn [body_ producer_id seq]. rewrite E.
  unfold SEQ_BYTES in *. rewrite to_bytes_be_range by exact Hq. cbn [mbind res_bind].
  match goal with HP : packb _ _ = Ok _ |- _ => rewrite HP end. cbn [mbind res_bind].
  edestruct layout_take_drop as [-> ->]; [exact Hpre|exact Hp|exact Hl|].
  done.
Qed.

Lemma peek_serialize m bs :
  serialize m = Ok bs → peek_type bs = Ok (type_int (body_type (body_ m))).
Proof.
  unfold serialize.
  destruct (body_client (body_ m)); intros Hs; res_inv; cbn; by rewrite byte_of_type.
Qed.

(** Sending the serialized form of a data message. *)
Lemma sm_send_message s m bs :
  body_wf (body_ m) → length (producer_id m) = 16%nat → seq_ok (seq m) → stampable m →
  seq_ok (seq_value s + 1) → serialize m = Ok bs →
  sm_send s bs = (restore_seq s (seq_value s + 1), serialize (mkMsg (body_ m) (sm_producer s) (seq_value s + 1))).
Proof.
  intros Hwf Hp Hs Hst Hn Hbs. unfold sm_send. rewrite (peek_serialize m bs Hbs), Hst.
  cbn [seq_next]. by rewrite (stamp_serialize m _ _ bs).
Qed.

(** Sending the serialized form of data messages: the [i]-th leaves with the
    sender's producer id and the [i]-th next sequence number. *)
Lemma sm_send_all_spec s (ms : list Message) bss :
  length (sm_producer s) = 16%nat → 0 ≤ seq_value s →
  seq_value s + Z.of_nat (length ms) < 256 ^ 8 →
  Forall (λ m, body_wf (body_ m) ∧ length (producer_id m) = 16%nat ∧ seq_ok (seq m)
               ∧ stampable m) ms →
  mapR serialize ms = Ok bss →
  sm_send_all s bss =
    (restore_seq s (seq_value s + Z.of_nat (length ms)),
     imap (λ i m, serialize (mkMsg (body_ m) (sm_producer s) (seq_value s + Z.of_nat i + 1))) ms).
Proof.
  intros Hprod. revert s Hprod bss. induction ms as [|m ms IH]; intros s Hprod bss H0 Hb Hf Hser.
  - cbn in Hser. injection Hser as <-. cbn. unfold restore_seq, seq_restore, seq_value.
    rewrite Z.add_0_r. by destruct s as [? []].
  - apply Forall_cons in Hf as [(Hwf & Hp & Hs & Hst) Hf']. cbn [mapR] in Hser.
    apply bind_Ok in Hser as (bs & Hbs & Hser). apply bind_Ok in Hser as (bss' & Hbss & Heq).
    injection Heq as <-. cbn [sm_send_all]. unfold sm_send.
    rewrite (peek_serialize m bs Hbs), Hst. cbn [seq_next]. cbn [length] in Hb.
    rewrite (stamp_serialize m _ _ bs);
      [|done|done|done| unfold seq_ok, seq_value in *; lia |done].
    rewrite (IH (mkSM (sm_producer s) (mkSeq (seq_ (sm_counter s) + 1))) Hprod bss') by (try done; unfold seq_value in *; cbn in *; lia).
    unfold seq_value, restore_seq, seq_restore. cbn. f_equal.
    + f_equal. f_equal. lia.
    + f_equal; [f_equal; f_equal; lia|]. apply imap_ext. intros i m' _. cbn. f_equal. f_equal. lia.
Qed.
End stamping.

(** ** The claims *)

(** Stamping rewrites only the header: a data message leaves a node with the
    route's producer id and the next number of the route, the payload untouched, so
    the receiver reads the same body; the route's counter advances by one. *)
Theorem stamping_preserves_payload `{MsgPack} (s : StampingMOM) (m : Message) (bs : bytes) :
  body_wf (body_ m) → length (producer_id m) = 16%nat → seq_ok (seq m) → stampable m →
  length (sm_producer s) = 16%nat → seq_ok (seq_value s + 1) → serialize m = Ok bs →
  ∃ bs', sm_send s bs = (restore_seq s (seq_value s + 1), Ok bs') ∧
    deserialize_message bs' =
      Ok (mkMsg (received_body (body_ m)) (sm_producer s) (seq_value s + 1)).
Proof.
  intros Hwf Hp Hs Hst Hl Hn Hbs. rewrite (sm_send_message s m bs) by done.
  destruct (deserialize_serialize (mkMsg (body_ m) (sm_producer s) (seq_value s + 1)))
    as (bs' & H1 & H2); [done..|].
  exists bs'. split; [by rewrite H1|exact H2].
Qed.

Lemma stamping_preserves_payload_witness :
  let m := new_msg (TransactionCount (uuid_lit 7) 3) in
  let s := mkSM (uuid_bytes (uuid_lit 9)) (mkSeq 4) in
  ∃ bs bs', @serialize msgpack_model m = Ok bs ∧ sm_send s bs = (restore_seq s 5, Ok bs') ∧
    @deserialize_message msgpack_model bs' =
      Ok (mkMsg (TransactionCount (uuid_lit 7) 3) (uuid_bytes (uuid_lit 9)) 5).
Proof.
  intros m s. eexists. edestruct (@stamping_preserves_payload msgpack_model s m) as (bs' & H1 & H2).
  1-6: first [reflexivity | vm_compute; split; [intros Hd; discriminate Hd|reflexivity]].
  { vm_compute. reflexivity. }
  exists bs'. split; [vm_compute; reflexivity|]. split; [exact H1|exact H2].
Defined.

(** Control messages (EOF, Abort, FIN, handshake, ring messages of the old
    protocol) pass a stamping route byte for byte and do not consume a number. *)
Theorem control_messages_unstamped `{MsgPack} (s : StampingMOM) (m : Message) (bs : bytes)
    (producer : bytes) (sq : Z) :
  body_type (body_ m) ∈ [T_EOF; T_ABORT; T_RING_DONE; T_RING_SENT_DATA; T_FIN; T_HELLO; T_HELLO_ACK] →
  serialize m = Ok bs →
  sm_send s bs = (s, Ok bs) ∧ sm_send_stamped s bs producer sq = (s, Ok bs).
Proof.
  intros Ht Hbs. unfold sm_send, sm_send_stamped. rewrite (peek_serialize m bs Hbs).
  assert (unstamped (type_int (body_type (body_ m))) = true) as ->; [|done].
  apply bool_decide_eq_true_2. unfold UNSTAMPED_TYPES. by apply list_elem_of_fmap_2.
Qed.

Lemma control_messages_unstamped_witness :
  let m := new_msg (Abort (uuid_lit 7)) in
  let s := mkSM (uuid_bytes (uuid_lit 9)) (mkSeq 4) in
  ∃ bs, @serialize msgpack_model m = Ok bs ∧ sm_send s bs = (s, Ok bs).
Proof.
  intros m s. eexists. split; [vm_compute; reflexivity|].
  refine (proj1 (@control_messages_unstamped msgpack_model s m _ [] 0 _ _)).
  - right. left.
  - vm_compute. reflexivity.
Defined.

(** A node that restarts from a checkpoint repeats itself: after
    [restore_seq] to the checkpointed value, sending the same messages again puts
    the same bytes on the wire, so the receiver recognises every one of them. *)
Theorem replay_repeats_bytes `{MsgPack} (s : StampingMOM) (before after : list Message)
    (bs1 bs2 : list bytes) :
  length (sm_producer s) = 16%nat → 0 ≤ seq_value s →
  seq_value s + Z.of_nat (length (before ++ after)) < 256 ^ 8 →
  Forall (λ m, body_wf (body_ m) ∧ length (producer_id m) = 16%nat ∧ seq_ok (seq m)
               ∧ stampable m) (before ++ after) →
  mapR serialize before = Ok bs1 → mapR serialize after = Ok bs2 →
  let s1 := (sm_send_all s bs1).1 in
  let s2 := (sm_send_all s1 bs2).1 in
  sm_send_all (restore_seq s2 (seq_value s1)) bs2 = sm_send_all s1 bs2.
Proof.
  intros Hp H0 Hb Hf H1 H2 s1 s2. apply Forall_app in Hf as [Hf1 Hf2].
  rewrite length_app in Hb.
  assert (Hs1 : s1 = restore_seq s (seq_value s + Z.of_nat (length before))).
  { unfold s1. by rewrite (sm_send_all_spec s before bs1) by (done || lia). }
  f_equal. unfold s2. rewrite Hs1.
  rewrite (sm_send_all_spec _ after bs2) by (try done; unfold seq_value in *; cbn in *; lia). done.
Qed.

Lemma replay_repeats_bytes_witness :
  let m := new_msg (TransactionCount (uuid_lit 7) 3) in
  let s := mkSM (uuid_bytes (uuid_lit 9)) (mkSeq 4) in
  ∃ bs, @serialize msgpack_model m = Ok bs ∧
    let s1 := (sm_send_all s [bs]).1 in
    let s2 := (sm_send_all s1 [bs]).1 in
    sm_send_all (restore_seq s2 (seq_value s1)) [bs] = sm_send_all s1 [bs].
Proof.
  intros m s. eexists. split; [vm_compute; reflexivity|].
  refine (@replay_repeats_bytes msgpack_model s [m] [m] _ _ _ _ _ _ _ _).
  1,5,6: vm_compute; reflexivity.
  1,2: vm_compute; first [reflexivity | intros Hd; discriminate Hd].
  repeat constructor; vm_compute; first [reflexivity | intros Hd; discriminate Hd].
Defined.
