(* ===== verification/Dedup.v ===== *)
(** * Deduplicator (src/src/common/checkpoint/deduplicator.py)

    Per producer the highest contiguous sequence number [hi] and the set of
    numbers seen ahead of a gap.  The abstract specification is the set of
    (producer, seq) pairs recorded so far. *)

From S2P Require Import Prelude.
From S2P Require Import PyDict.
From S2P Require Import PyValues.

(** ** State and operations *)

Record Deduplicator := mkDedup {
  hi_ : pydict bytes Z;
  ahead_ : pydict bytes (pyset Z)
}.

(** [__init__(state)]: each entry of the optional state is copied in. *)
Definition dedup_init (state : option (pydict bytes (Z * list Z))) : Deduplicator :=
  foldl (λ d e, mkDedup (dset (hi_ d) e.1 e.2.1) (dset (ahead_ d) e.1 (set_of e.2.2)))
    (mkDedup [] []) (default [] state).

Definition is_duplicate (d : Deduplicator) (producer_id : bytes) (seq : Z) : bool :=
  if seq =? 0 then false
  else if seq <=? dget_or 0 (hi_ d) producer_id then true
  else smem seq (dget_or [] (ahead_ d) producer_id).

(** [while hi + 1 in ahead: hi += 1; ahead.discard(hi)] *)
Fixpoint advance (fuel : nat) (hi : Z) (ahead : pyset Z) : Z * pyset Z :=
  match fuel with
  | O => (hi, ahead)
  | S fuel =>
      if smem (hi + 1) ahead then advance fuel (hi + 1) (sdiscard ahead (hi + 1))
      else (hi, ahead)
  end.

(** Each round of the loop removes a member: one more round than there are
    members is enough (see [advance_done]). *)
Definition record (d : Deduplicator) (producer_id : bytes) (seq : Z) : Deduplicator :=
  if seq =? 0 then d
  else
    let hi := dget_or 0 (hi_ d) producer_id in
    if seq <=? hi then d
    else
      let ahead := sadd (dget_or [] (ahead_ d) producer_id) seq in
      let '(hi', ahead') := advance (S (length ahead)) hi ahead in
      mkDedup (dset (hi_ d) producer_id hi') (dset (ahead_ d) producer_id ahead').

(** [sorted(set)] on integers *)
Definition sorted_ints (s : pyset Z) : list Z := merge_sort Z.le s.

(** [set(self._hi) | set(self._ahead)] enumerates the producers. *)
Definition dedup_producers (d : Deduplicator) : list bytes :=
  set_of (dkeys (hi_ d) ++ dkeys (ahead_ d)).

Definition dedup_snapshot (d : Deduplicator) : pydict bytes (Z * list Z) :=
  dict_of ((λ p, (p, (dget_or 0 (hi_ d) p, sorted_ints (dget_or [] (ahead_ d) p))))
             <$> dedup_producers d).

Definition dedup_restore (sn : pydict bytes (Z * list Z)) : Deduplicator :=
  dedup_init (Some sn).

(** ** The loop *)

Lemma smem_sdiscard (x y : Z) s :
  smem x (sdiscard s y) = true ↔ smem x s = true ∧ x ≠ y.
Proof.
  unfold sdiscard. rewrite !smem_spec. unfold pyeq. cbn [key_of Z_key structural_key].
  rewrite !list_fmap_id. rewrite list_elem_of_filter. tauto.
Qed.

Lemma smem_Z (x : Z) (s : pyset Z) : smem x s = true ↔ x ∈ s.
Proof. rewrite smem_spec. cbn [key_of Z_key structural_key]. by rewrite list_fmap_id. Qed.

Lemma sdiscard_length (y : Z) (s : pyset Z) :
  smem y s = true → (length (sdiscard s y) < length s)%nat.
Proof.
  rewrite smem_Z. intros Hy. unfold sdiscard. induction s as [|z s IH]; [set_solver|].
  rewrite filter_cons. apply elem_of_cons in Hy. cbn [length].
  case_decide as Hz; cbn [length]; [|apply Nat.lt_succ_r, length_filter].
  destruct Hy as [->|Hy]; [by destruct Hz|]. apply -> Nat.succ_lt_mono. by apply IH.
Qed.

(** With at least as much fuel as members the loop ends on its own test. *)
Lemma advance_done fuel hi s hi' s' :
  (length s ≤ fuel)%nat → advance fuel hi s = (hi', s') → smem (hi' + 1) s' = false.
Proof.
  revert hi s; induction fuel as [|fuel IH]; intros hi s Hl; simpl.
  - intros [= <- <-]. destruct s; [done|simpl in Hl; lia].
  - destruct (smem (hi + 1) s) eqn:E; [|by intros [= <- <-]].
    apply IH. pose proof (sdiscard_length _ _ E). lia.
Qed.

(** What the loop keeps: it absorbs exactly the contiguous run above [hi]. *)
Lemma advance_spec fuel hi s hi' s' :
  advance fuel hi s = (hi', s') →
  hi ≤ hi' ∧ (∀ x, smem x s' = true ↔ smem x s = true ∧ ¬ (hi < x ≤ hi')) ∧
  (∀ x, hi < x ≤ hi' → smem x s = true).
Proof.
  revert hi s; induction fuel as [|fuel IH]; intros hi s; simpl.
  - intros [= <- <-]. split_and!; [lia| |intros; lia]. intros x. split; [intros; split; [done|lia]|by intros []].
  - destruct (smem (hi + 1) s) eqn:E.
    + intros (Hle & Hin & Hrun)%IH. setoid_rewrite smem_sdiscard in Hrun.
      split_and!; [lia| |].
      * intros x. rewrite Hin, smem_sdiscard. clear -Hle. intuition lia.
      * intros x Hx. destruct (decide (x = hi + 1)) as [->|]; [done|]. apply Hrun. lia.
    + intros [= <- <-]. split_and!; [lia| |intros; lia]. intros x. split; [intros; split; [done|lia]|by intros []].
Qed.

(** ** Invariant *)

(** For every producer: [hi] is not negative, everything ahead lies above a gap
    at [hi + 1], and the set has no repetition. *)
Definition dedup_ok_at (d : Deduplicator) (p : bytes) : Prop :=
  let hi := dget_or 0 (hi_ d) p in
  let ahead := dget_or [] (ahead_ d) p in
  0 ≤ hi ∧ (∀ x, smem x ahead = true → hi + 1 < x) ∧ set_wf ahead.

Definition dedup_inv (d : Deduplicator) : Prop :=
  dict_wf (hi_ d) ∧ dict_wf (ahead_ d) ∧ ∀ p, dedup_ok_at d p.

Lemma sdiscard_wf (s : pyset Z) y : set_wf s → set_wf (sdiscard s y).
Proof.
  unfold set_wf, sdiscard. cbn [key_of Z_key structural_key].
  rewrite !list_fmap_id. apply NoDup_filter.
Qed.

Lemma advance_wf fuel hi s : set_wf s → set_wf (advance fuel hi s).2.
Proof.
  revert hi s; induction fuel as [|fuel IH]; intros hi s Hs; simpl; [done|].
  destruct (smem (hi + 1) s); [|done]. by apply IH, sdiscard_wf.
Qed.

(** The state [record] leaves for the recorded producer. *)
Lemma record_at d p seq :
  dedup_ok_at d p → 0 < seq →
  let hi := dget_or 0 (hi_ d) p in
  let d' := record d p seq in
  dedup_ok_at d' p ∧ hi ≤ dget_or 0 (hi_ d') p ∧
  (∀ x, (x ≤ dget_or 0 (hi_ d') p ∨ smem x (dget_or [] (ahead_ d') p) = true)
        ↔ (x ≤ hi ∨ smem x (dget_or [] (ahead_ d) p) = true ∨ x = seq)).
Proof.
  intros (Hhi & Hgap & Hwf) Hseq hi d'. subst hi d'. unfold record.
  replace (seq =? 0) with false by lia.
  destruct (seq <=? dget_or 0 (hi_ d) p) eqn:Hle.
  { split_and!; [done|lia|]. intros x. intuition lia. }
  destruct (advance _ _ _) as [hi' ahead'] eqn:Ha.
  pose proof (advance_done _ _ _ _ _ (Nat.le_succ_diag_r _) Ha) as Hend.
  pose proof (advance_wf (S (length (sadd (dget_or [] (ahead_ d) p) seq)))
    (dget_or 0 (hi_ d) p) _ (sadd_wf _ seq Hwf)) as Hwf'. rewrite Ha in Hwf'.
  apply advance_spec in Ha as (Hmono & Hin & Hrun).
  setoid_rewrite smem_sadd in Hin. setoid_rewrite smem_sadd in Hrun.
  unfold pyeq in Hin, Hrun. cbn [key_of Z_key structural_key] in Hin, Hrun. unfold id in *.
  unfold dedup_ok_at. cbn [hi_ ahead_]. unfold dget_or in *. rewrite !dget_dset_eq. cbn.
  split_and!; [lia| |done|lia|].
  - intros x Hx. assert (x ≠ hi' + 1) by (intros ->; congruence).
    apply Hin in Hx as ([Hx|Hx] & Hn); [apply Hgap in Hx; lia|lia].
  - intros x. rewrite Hin. split.
    + intros [Hx|([Hx|Hx] & _)]; [|tauto|tauto].
      destruct (decide (x ≤ default 0 (dget (hi_ d) p))); [by left|]. right.
      apply Hrun. lia.
    + intros H. destruct (decide (x ≤ hi')) as [|Hgt]; [by left|right].
      destruct H as [H|[H|H]]; [lia| |]; (split; [tauto|lia]).
Qed.

(** [record] for one producer leaves the others alone. *)
Lemma record_other d p seq q :
  p ≠ q → dget (hi_ (record d p seq)) q = dget (hi_ d) q
        ∧ dget (ahead_ (record d p seq)) q = dget (ahead_ d) q.
Proof.
  intros Hne. unfold record. destruct (seq =? 0); [done|].
  destruct (seq <=? _); [done|]. destruct (advance _ _ _) as [hi' ahead'].
  cbn. by rewrite !dget_dset_ne.
Qed.

Lemma record_nonpos d p seq : dedup_ok_at d p → seq ≤ 0 → record d p seq = d.
Proof.
  intros (Hhi & _) Hseq. unfold record. destruct (seq =? 0) eqn:E; [done|].
  by replace (seq <=? dget_or 0 (hi_ d) p) with true by lia.
Qed.

Lemma record_wf d p seq :
  dict_wf (hi_ d) → dict_wf (ahead_ d) →
  dict_wf (hi_ (record d p seq)) ∧ dict_wf (ahead_ (record d p seq)).
Proof.
  intros. unfold record. destruct (seq =? 0); [done|]. destruct (seq <=? _); [done|].
  destruct (advance _ _ _) as [hi' ahead']. cbn. eauto with py.
Qed.

Lemma record_inv d p seq : dedup_inv d → dedup_inv (record d p seq).
Proof.
  intros (Hh & Ha & Hok). destruct (record_wf d p seq Hh Ha) as [Hh' Ha'].
  split_and!; [done|done|]. intros q. destruct (decide (p = q)) as [<-|Hne].
  - destruct (decide (0 < seq)) as [Hs|Hs]; [|rewrite record_nonpos; [done|done|lia]].
    by apply record_at.
  - destruct (record_other d p seq q Hne) as [E1 E2].
    specialize (Hok q). unfold dedup_ok_at, dget_or in *. rewrite E1, E2. exact Hok.
Qed.

Lemma dedup_inv_empty : dedup_inv (mkDedup [] []).
Proof.
  split_and!; [apply nil_wf|apply nil_wf|]. intros p. unfold dedup_ok_at. cbn.
  split_and!; [lia|done|apply NoDup_nil_2].
Qed.

#[export] Hint Resolve record_inv dedup_inv_empty : py.

(** ** Refinement of the set of recorded pairs *)

(** The state after recording a history of (producer, seq) pairs. *)
Definition record_all (h : list (bytes * Z)) : Deduplicator :=
  foldl (λ d e, record d e.1 e.2) (mkDedup [] []) h.

(** The abstract filter: negative numbers never occur on the wire and are
    refused, 0 is never a duplicate, anything else iff it was recorded. *)
Definition seen (h : list (bytes * Z)) (p : bytes) (seq : Z) : Prop :=
  seq < 0 ∨ (0 < seq ∧ (p, seq) ∈ h).

Lemma record_all_inv h : dedup_inv (record_all h).
Proof.
  unfold record_all. apply foldl_invariant; [apply dedup_inv_empty|].
  intros. by apply record_inv.
Qed.

Lemma is_duplicate_covered d p seq :
  dedup_ok_at d p →
  is_duplicate d p seq = true ↔
    seq < 0 ∨ (0 < seq ∧ (seq ≤ dget_or 0 (hi_ d) p ∨ smem seq (dget_or [] (ahead_ d) p) = true)).
Proof.
  intros (Hhi & Hgap & _). unfold is_duplicate.
  destruct (seq =? 0) eqn:E0; [split; [done|lia]|].
  destruct (seq <=? _) eqn:E1; [split; [lia|done]|].
  split; [intros; right; split; [lia|by right]|]. intros [?|[_ [?|?]]]; [lia|lia|done].
Qed.

Lemma record_all_snoc h e : record_all (h ++ [e]) = record (record_all h) e.1 e.2.
Proof. unfold record_all. by rewrite foldl_app. Qed.

Lemma is_duplicate_record d p seq q s :
  dedup_inv d →
  is_duplicate (record d p seq) q s = true ↔
    is_duplicate d q s = true ∨ (0 < s ∧ p = q ∧ s = seq).
Proof.
  intros Hinv. pose proof (record_inv d p seq Hinv) as (_ & _ & Hok').
  destruct Hinv as (_ & _ & Hok).
  rewrite (is_duplicate_covered _ _ _ (Hok' q)), (is_duplicate_covered _ _ _ (Hok q)).
  destruct (decide (p = q)) as [<-|Hne].
  - destruct (decide (0 < seq)) as [Hs|Hs].
    + destruct (record_at d p seq (Hok p) Hs) as (_ & _ & Hcov). rewrite Hcov. tauto.
    + rewrite record_nonpos by (done || lia). intuition lia.
  - destruct (record_other d p seq q Hne) as [E1 E2].
    unfold dget_or. rewrite E1, E2. intuition congruence.
Qed.

Lemma is_duplicate_record_all h p seq :
  is_duplicate (record_all h) p seq = true ↔ seen h p seq.
Proof.
  unfold seen. induction h as [|[p0 s0] h IH] using rev_ind.
  - rewrite is_duplicate_covered by apply dedup_inv_empty. cbn. set_solver by lia.
  - rewrite record_all_snoc, is_duplicate_record by apply record_all_inv. rewrite IH.
    rewrite elem_of_app, list_elem_of_singleton. cbn. intuition (congruence || auto).
Qed.

(** ** Snapshot and restore *)

Lemma dedup_producers_spec d p :
  smem p (dedup_producers d) = true ↔
    is_Some (dget (hi_ d) p) ∨ is_Some (dget (ahead_ d) p).
Proof.
  unfold dedup_producers. rewrite smem_set_of, smem_spec, fmap_app, elem_of_app.
  assert (H : ∀ V (m : pydict bytes V), key_of p ∈ key_of <$> dkeys m ↔ is_Some (dget m p)).
  { intros V m. destruct (decide (key_of p ∈ key_of <$> dkeys m)) as [Hi|Hn].
    - split; [|done]. intros _. destruct (dget m p) eqn:E; [eauto|]. by apply dget_None in E.
    - split; [done|]. apply dget_None in Hn. rewrite Hn. by intros []. }
  by rewrite !H.
Qed.

Lemma dget_snapshot d p :
  dget (dedup_snapshot d) p =
    if smem p (dedup_producers d)
    then Some (dget_or 0 (hi_ d) p, sorted_ints (dget_or [] (ahead_ d) p)) else None.
Proof.
  unfold dedup_snapshot. rewrite (dget_comprehension
    (λ p, (dget_or 0 (hi_ d) p, sorted_ints (dget_or [] (ahead_ d) p)))); [done|].
  intros a Ha. unfold pyeq in Ha. cbn in Ha. by unfold id in Ha; subst.
Qed.

Lemma dedup_restore_eq sn :
  dict_wf sn →
  dedup_restore sn = mkDedup (dmap_values fst sn) (dmap_values (λ v, set_of v.2) sn).
Proof.
  intros Hwf. unfold dedup_restore, dedup_init. simpl.
  assert (Hg : ∀ l d, foldl (λ d e, mkDedup (dset (hi_ d) e.1 e.2.1)
      (dset (ahead_ d) e.1 (set_of e.2.2))) d l =
    mkDedup (dupdate (hi_ d) (dmap_values fst l))
      (dupdate (ahead_ d) (dmap_values (λ v : Z * list Z, set_of v.2) l))).
  { induction l as [|e l IH]; intros d; [by destruct d|]. simpl. by rewrite IH. }
  rewrite Hg. cbn [hi_ ahead_]. f_equal; apply dict_of_items; eauto with py.
Qed.

(** The restored deduplicator answers every query as the saved one. *)
Lemma restore_snapshot_covers d p :
  let d' := dedup_restore (dedup_snapshot d) in
  dget_or 0 (hi_ d') p = dget_or 0 (hi_ d) p ∧
  (∀ x, smem x (dget_or [] (ahead_ d') p) = true ↔ smem x (dget_or [] (ahead_ d) p) = true).
Proof.
  intros d'. subst d'. rewrite dedup_restore_eq by (unfold dedup_snapshot; eauto with py).
  unfold dget_or at 1 3. cbn [hi_ ahead_]. rewrite !dget_dmap_values, dget_snapshot.
  destruct (smem p (dedup_producers d)) eqn:E; cbn.
  - split; [done|]. intros x. rewrite smem_set_of, !smem_Z. unfold sorted_ints.
    by rewrite (merge_sort_Permutation Z.le).
  - destruct (dget (hi_ d) p) eqn:E1.
    { assert (smem p (dedup_producers d) = true); [|congruence].
      apply dedup_producers_spec. rewrite E1. eauto. }
    destruct (dget (ahead_ d) p) eqn:E2.
    { assert (smem p (dedup_producers d) = true); [|congruence].
      apply dedup_producers_spec. rewrite E2. eauto. }
    unfold dget_or. by rewrite E1, E2.
Qed.

Lemma dedup_snapshot_wf d : dict_wf (dedup_snapshot d).
Proof. apply dict_of_wf. Qed.

(** [dedup_equiv]: two deduplicators that answer every query alike. *)
Definition dedup_equiv (d1 d2 : Deduplicator) : Prop :=
  ∀ p seq, is_duplicate d1 p seq = is_duplicate d2 p seq.

Lemma restore_snapshot_equiv d : dedup_equiv (dedup_restore (dedup_snapshot d)) d.
Proof.
  intros p seq. destruct (restore_snapshot_covers d p) as [Hh Ha].
  unfold is_duplicate. rewrite Hh. destruct (seq =? 0); [done|].
  destruct (seq <=? _); [done|]. apply eq_true_iff_eq, Ha.
Qed.

Lemma restore_snapshot_inv d : dedup_inv d → dedup_inv (dedup_restore (dedup_snapshot d)).
Proof.
  intros (_ & _ & Hok). split_and!.
  - rewrite dedup_restore_eq by apply dedup_snapshot_wf. apply dmap_values_wf, dedup_snapshot_wf.
  - rewrite dedup_restore_eq by apply dedup_snapshot_wf. apply dmap_values_wf, dedup_snapshot_wf.
  - intros p. destruct (restore_snapshot_covers d p) as [Hh Ha]. destruct (Hok p) as (H1 & H2 & H3).
    split_and!; [lia| |].
    + intros x Hx. rewrite Hh. by apply H2, Ha.
    + rewrite dedup_restore_eq by apply dedup_snapshot_wf. cbn [ahead_].
      unfold dget_or. rewrite dget_dmap_values. destruct (dget _ p); cbn; [apply set_of_wf|].
      apply NoDup_nil_2.
Qed.

#[export] Hint Resolve restore_snapshot_inv record_all_inv : py.

(** ** Memory: an in-order stream keeps nothing ahead *)

Lemma advance_empty fuel hi : advance fuel hi [] = (hi, []).
Proof. by destruct fuel. Qed.

Lemma record_next d p :
  dget_or [] (ahead_ d) p = [] → 0 ≤ dget_or 0 (hi_ d) p →
  let d' := record d p (dget_or 0 (hi_ d) p + 1) in
  dget_or 0 (hi_ d') p = dget_or 0 (hi_ d) p + 1 ∧ dget_or [] (ahead_ d') p = [].
Proof.
  intros Ha Hh d'. subst d'. unfold record.
  replace (_ =? 0) with false by lia. replace (_ <=? _) with false by lia. rewrite Ha.
  generalize dependent (dget_or 0 (hi_ d) p); intros hi Hh. replace (sadd [] (hi + 1)) with [hi + 1] by done.
  cbn [advance length]. rewrite (proj2 (smem_Z _ _)) by left.
  replace (sdiscard [hi + 1] (hi + 1)) with (@nil Z).
  2: { unfold sdiscard. rewrite filter_cons_False; [done|]. intros Hn. by apply Hn. }
  replace (smem (hi + 1 + 1) []) with false by done.
  unfold dget_or. cbn [hi_ ahead_]. by rewrite !dget_dset_eq.
Qed.

Lemma record_in_order p n :
  let d := record_all ((λ i, (p, Z.of_nat i + 1)) <$> seq 0 n) in
  dget_or 0 (hi_ d) p = Z.of_nat n ∧ dget_or [] (ahead_ d) p = [].
Proof.
  induction n as [|n IH]; [done|]. cbv zeta in *. rewrite seq_S, fmap_app. csimpl.
  rewrite record_all_snoc.
  destruct IH as [Hh Ha]. pose proof (record_next _ _ Ha) as Hn. cbv zeta in Hn.
  cbn [fst snd Nat.add]. rewrite Hh in Hn. destruct Hn as [Hn1 Hn2]; [lia|].
  split; [rewrite Hn1; lia|done].
Qed.

Lemma foldl_record_seen d h p seq :
  dedup_inv d →
  is_duplicate (foldl (λ d e, record d e.1 e.2) d h) p seq = true ↔
    is_duplicate d p seq = true ∨ (0 < seq ∧ (p, seq) ∈ h).
Proof.
  revert d; induction h as [|[p0 s0] h IH]; intros d Hinv; simpl; [set_solver|].
  rewrite IH by eauto with py. rewrite is_duplicate_record by done.
  rewrite elem_of_cons. split.
  - intros [[?|(?&<-&->)]|[??]]; [by left|right; by split; [|left]|right; by split; [|right]].
  - intros [?|[? [[= <- <-]|?]]]; [by left; left|by left; right|by right].
Qed.

(** ** The claims *)

(** C11: after any history of recorded (producer, seq) pairs the filter drops a
    message exactly when that very pair was recorded before (sequence number 0
    is never a duplicate, a negative one, which the wire cannot carry, always
    is): reordered redeliveries are neither lost nor repeated. *)
Theorem dedup_refines_seen (h : list (bytes * Z)) (p : bytes) (seq : Z) :
  is_duplicate (record_all h) p seq = true ↔ seen h p seq.
Proof. apply is_duplicate_record_all. Qed.

(** Restarting from a snapshot in the middle of a history changes no answer:
    the filter restored from [dedup_snapshot] and fed the rest of the history
    still drops exactly the pairs of the whole history. *)
Theorem dedup_restart (h1 h2 : list (bytes * Z)) (p : bytes) (seq : Z) :
  is_duplicate
    (foldl (λ d e, record d e.1 e.2) (dedup_restore (dedup_snapshot (record_all h1))) h2)
    p seq = true ↔ seen (h1 ++ h2) p seq.
Proof.
  rewrite foldl_record_seen by eauto with py.
  rewrite (restore_snapshot_equiv (record_all h1)), is_duplicate_record_all.
  unfold seen. rewrite elem_of_app. tauto.
Qed.

(** C16: an in-order stream costs no memory: after the numbers 1 to [n] of a
    producer, [hi] is [n] and nothing is kept ahead. *)
Theorem dedup_in_order (p : bytes) (n : nat) :
  let d := record_all ((λ i, (p, Z.of_nat i + 1)) <$> seq 0 n) in
  dget_or 0 (hi_ d) p = Z.of_nat n ∧ dget_or [] (ahead_ d) p = [].
Proof. apply record_in_order. Qed.
