(* ===== verification/RingCompletion.v ===== *)
(** * RingCompletion (src/src/common/comms/eof_handler/ring_completion.py,
      sent_counts.py)

    The per-client end-of-file completion of one ring peer, as the pure state
    machine of the source: every event returns the new state and the actions the
    controller performs. *)

From S2P Require Import Prelude.
From S2P Require Import PyDict.
From S2P Require Import PyValues.
From S2P Require Import PyText.

(** ** Data *)

Inductive Phase := PROCESSING | EMITTED | DONE.

#[export] Instance Phase_eq_dec : EqDecision Phase.
Proof. solve_decision. Defined.

(** downstream shard -> count *)
Abbreviation shard_counts := (pydict Z Z).

Record Client := mkClient {
  expected : Z;
  received : Z;
  sent : shard_counts;
  phase : Phase
}.

(** [_Client()] *)
Definition fresh_client : Client := mkClient (-1) 0 [] PROCESSING.

Record BarrierToken := mkToken {
  tok_client : uuid;
  tok_origin : Z;
  sent_by : pydict Z shard_counts
}.

Inductive Action :=
  | Emit (client_id : uuid)
  | Forward (token : BarrierToken)
  | DownstreamEOF (client_id : uuid) (expected_per_shard : shard_counts).

Record RingCompletion := mkRC {
  node_id : Z;
  n_nodes : Z;
  leader : Z;
  clients_ : pydict uuid Client;
  aborted_ : pyset uuid
}.

Definition set_clients (rc : RingCompletion) (cs : pydict uuid Client) : RingCompletion :=
  mkRC (node_id rc) (n_nodes rc) (leader rc) cs (aborted_ rc).

(** [__init__]; [min] over a non-empty list. *)
Definition rc_init (node_id : Z) (peer_ids : list Z) : RingCompletion :=
  mkRC node_id (Z.of_nat (length peer_ids) + 1) (foldl Z.min node_id peer_ids) [] [].

(** [_client]: the client's record, created on first use. *)
Definition client_ (rc : RingCompletion) (c : uuid) : RingCompletion * Client :=
  (set_clients rc (dsetdefault (clients_ rc) c fresh_client),
   dget_or fresh_client (clients_ rc) c).

(** Assignment to the fields of the (shared) client record. *)
Definition put_client (rc : RingCompletion) (c : uuid) (x : Client) : RingCompletion :=
  set_clients rc (dset (clients_ rc) c x).

(** ** Operations *)

Definition maybe_local_complete (rc : RingCompletion) (c : uuid) : RingCompletion * list Action :=
  let '(rc, x) := client_ rc c in
  if negb (bool_decide (phase x = PROCESSING)) || (expected x <? 0) || (received x <? expected x)
  then (rc, [])
  else (rc, [Emit c]).

Definition on_data (rc : RingCompletion) (c : uuid) : RingCompletion * list Action :=
  if smem c (aborted_ rc) then (rc, [])
  else
    let '(rc, x) := client_ rc c in
    let rc := put_client rc c (mkClient (expected x) (received x + 1) (sent x) (phase x)) in
    maybe_local_complete rc c.

Definition drop_client (rc : RingCompletion) (c : uuid) : RingCompletion :=
  mkRC (node_id rc) (n_nodes rc) (leader rc) (ddel (clients_ rc) c) (sadd (aborted_ rc) c).

Definition on_upstream_eof (rc : RingCompletion) (c : uuid) (exp : Z)
    : RingCompletion * list Action :=
  if smem c (aborted_ rc) then (rc, [])
  else
    let '(rc, x) := client_ rc c in
    let rc := put_client rc c (mkClient exp (received x) (sent x) (phase x)) in
    maybe_local_complete rc c.

Definition recheck (rc : RingCompletion) : RingCompletion * list Action :=
  run_steps maybe_local_complete rc (dkeys (clients_ rc)).

Definition resolved_clients (rc : RingCompletion) : list uuid :=
  (filter (λ cx, phase cx.2 ≠ PROCESSING) (clients_ rc)).*1.

(** The nested loops that sum every peer's counts shard by shard. *)
Definition sum_shards (sb : pydict Z shard_counts) : shard_counts :=
  foldl (λ per_shard counts,
    foldl (λ per_shard sn, dadd per_shard sn.1 sn.2) per_shard counts) [] (dvalues sb).

Definition advance_token (rc : RingCompletion) (token : BarrierToken)
    : RingCompletion * list Action :=
  if Z.of_nat (length (sent_by token)) <? n_nodes rc then (rc, [Forward token])
  else if negb (tok_origin token =? node_id rc) then (rc, [Forward token])
  else
    let '(rc, x) := client_ rc (tok_client token) in
    if bool_decide (phase x = DONE) then (rc, [])
    else
      let rc := put_client rc (tok_client token)
                  (mkClient (expected x) (received x) (sent x) DONE) in
      (rc, [DownstreamEOF (tok_client token) (sum_shards (sent_by token))]).

Definition report_sent (rc : RingCompletion) (c : uuid) (snt : shard_counts)
    : RingCompletion * list Action :=
  let '(rc, x) := client_ rc c in
  if negb (bool_decide (phase x = PROCESSING)) then (rc, [])
  else
    let rc := put_client rc c (mkClient (expected x) (received x) snt EMITTED) in
    if negb (node_id rc =? leader rc) then (rc, [])
    else advance_token rc (mkToken c (leader rc) [(node_id rc, snt)]).

Definition on_token (rc : RingCompletion) (token : BarrierToken)
    : RingCompletion * list Action :=
  if smem (tok_client token) (aborted_ rc) then (rc, [])
  else
    let '(rc, x) := client_ rc (tok_client token) in
    let token :=
      if bool_decide (phase x = PROCESSING) then token
      else mkToken (tok_client token) (tok_origin token)
             (dset (sent_by token) (node_id rc) (sent x)) in
    advance_token rc token.

(** ** Snapshot and restore *)

Definition phase_name (p : Phase) : string :=
  match p with PROCESSING => "PROCESSING" | EMITTED => "EMITTED" | DONE => "DONE" end.

(** [Phase[name]] *)
Definition phase_of_name (s : string) : res Phase :=
  if bool_decide (s = "PROCESSING"%string) then Ok PROCESSING
  else if bool_decide (s = "EMITTED"%string) then Ok EMITTED
  else if bool_decide (s = "DONE"%string) then Ok DONE
  else Exc KeyError.

(** One client's entry: [expected, received, sent, phase name]. *)
Definition client_entry : Type := Z * Z * pydict string Z * string.

(** The two shapes [restore_state] accepts: the current one, whose aborted list
    may be absent, and the older flat map of clients. *)
Inductive rc_blob :=
  | CurrentBlob (clients : pydict string client_entry) (aborted : option (list string))
  | FlatBlob (clients : pydict string client_entry).

Definition client_to_entry (x : Client) : client_entry :=
  (expected x, received x, dict_of ((λ sn, (str_int sn.1, sn.2)) <$> sent x), phase_name (phase x)).

Definition rc_snapshot_state (rc : RingCompletion) : rc_blob :=
  CurrentBlob
    (dict_of ((λ cx, (uuid_str cx.1, client_to_entry cx.2)) <$> clients_ rc))
    (Some (uuid_str <$> aborted_ rc)).

Definition entry_to_client (e : client_entry) : res Client :=
  let '(exp, rcv, snt, ph) := e in
  items ← mapR (λ sn, k ← int_str sn.1; Ok (k, sn.2)) snt;
  p ← phase_of_name ph;
  Ok (mkClient exp rcv (dict_of items) p).

Definition blob_clients (b : rc_blob) : pydict string client_entry :=
  match b with CurrentBlob cs _ => cs | FlatBlob cs => cs end.
Definition blob_aborted (b : rc_blob) : list string :=
  match b with CurrentBlob _ (Some l) => l | _ => [] end.

Definition rc_restore_state (rc : RingCompletion) (b : rc_blob) : res RingCompletion :=
  items ← mapR (λ ce, c ← uuid_of_str ce.1; x ← entry_to_client ce.2; Ok (c, x)) (blob_clients b);
  ab ← mapR uuid_of_str (blob_aborted b);
  Ok (mkRC (node_id rc) (n_nodes rc) (leader rc) (dict_of items) (set_of ab)).

(** ** SentCounts: what a stateless node has sent, per client and shard *)

Record SentCounts := mkSC { counts_ : pydict uuid shard_counts }.

Definition sc_init : SentCounts := mkSC [].

Definition sc_add (s : SentCounts) (c : uuid) (shard : Z) : SentCounts :=
  mkSC (dset (counts_ s) c (dadd (dget_or [] (counts_ s) c) shard 1)).

Definition sc_pop (s : SentCounts) (c : uuid) : SentCounts * shard_counts :=
  (mkSC (ddel (counts_ s) c), dget_or [] (counts_ s) c).

Definition sc_blob : Type := pydict string (pydict string Z).

Definition sc_snapshot_state (s : SentCounts) : sc_blob :=
  dict_of ((λ cs, (uuid_str cs.1, dict_of ((λ sn, (str_int sn.1, sn.2)) <$> cs.2))) <$> counts_ s).

Definition sc_restore_state (b : sc_blob) : res SentCounts :=
  items ← mapR (λ cs,
    c ← uuid_of_str cs.1;
    inner ← mapR (λ sn, k ← int_str sn.1; Ok (k, sn.2)) cs.2;
    Ok (c, dict_of inner)) b;
  Ok (mkSC (dict_of items)).

(** ** The state of one client *)

(** A client the node never heard of behaves as a fresh one. *)
Definition cl (rc : RingCompletion) (c : uuid) : Client := dget_or fresh_client (clients_ rc) c.
Definition is_aborted_ (rc : RingCompletion) (c : uuid) : bool := smem c (aborted_ rc).

Definition rc_wf (rc : RingCompletion) : Prop :=
  dict_wf (clients_ rc) ∧ set_wf (aborted_ rc) ∧
  ∀ c x, dget (clients_ rc) c = Some x → dict_wf (sent x).

(** The configuration of a node, fixed at construction. *)
Definition rc_config (rc : RingCompletion) : Z * Z * Z := (node_id rc, n_nodes rc, leader rc).

Lemma uuid_pyeq (a b : uuid) : pyeq a b ↔ a = b.
Proof. done. Qed.

Lemma cl_client_ rc c c' : cl (client_ rc c).1 c' = cl rc c'.
Proof.
  unfold cl, client_, dget_or. cbn. rewrite dget_dsetdefault. case_decide as H; [|done].
  apply uuid_pyeq in H as ->. done.
Qed.

Lemma cl_put rc c x c' : cl (put_client rc c x) c' = if decide (c = c') then x else cl rc c'.
Proof.
  unfold cl, put_client, dget_or. cbn. rewrite dget_dset. unfold pyeq. cbn.
  by repeat case_decide.
Qed.

Lemma client_snd rc c : (client_ rc c).2 = cl rc c.
Proof. done. Qed.

Arguments cl : simpl never.
Arguments is_aborted_ : simpl never.
#[local] Opaque client_ put_client.

(** Replaces the record [client_] returns by the client's state. *)
Ltac open_client :=
  rewrite (surjective_pairing (client_ _ _)), client_snd; cbn [fst snd].

(** Is the client's input locally complete? *)
Definition complete (x : Client) : bool :=
  bool_decide (phase x = PROCESSING) && (0 <=? expected x) && (expected x <=? received x).

Lemma maybe_local_complete_eq rc c :
  maybe_local_complete rc c =
    ((client_ rc c).1, if complete (cl rc c) then [Emit c] else []).
Proof.
  unfold maybe_local_complete, complete. open_client.
  destruct (bool_decide (phase (cl rc c) = PROCESSING)), (expected (cl rc c) <? 0) eqn:E2,
    (received (cl rc c) <? expected (cl rc c)) eqn:E3, (0 <=? expected (cl rc c)) eqn:E4,
    (expected (cl rc c) <=? received (cl rc c)) eqn:E5; simpl; done || lia.
Qed.

(** ** Events and the abstract per-client machine

    [rc_event] lists the calls a controller makes; [astep] is what the component
    promises about ONE client: a tombstone flag and the client's record. *)

Inductive rc_event :=
  | EvData (c : uuid)
  | EvEof (c : uuid) (exp : Z)
  | EvDrop (c : uuid)
  | EvReport (c : uuid) (snt : shard_counts)
  | EvToken (token : BarrierToken).

Definition ev_client (e : rc_event) : uuid :=
  match e with
  | EvData c | EvEof c _ | EvDrop c | EvReport c _ => c
  | EvToken t => tok_client t
  end.

Definition rc_step (rc : RingCompletion) (e : rc_event) : RingCompletion * list Action :=
  match e with
  | EvData c => on_data rc c
  | EvEof c exp => on_upstream_eof rc c exp
  | EvDrop c => (drop_client rc c, [])
  | EvReport c snt => report_sent rc c snt
  | EvToken t => on_token rc t
  end.

(** The client's abstract state: tombstoned?, record. *)
Definition astate : Type := bool * Client.
Definition abs (rc : RingCompletion) (c : uuid) : astate := (is_aborted_ rc c, cl rc c).
Arguments abs : simpl never.

Definition a_emit (c : uuid) (x : Client) : list Action := if complete x then [Emit c] else [].

(** Closing a barrier: only the origin closes, with a full token, once. *)
Definition a_advance (cfg : Z * Z * Z) (x : Client) (t : BarrierToken) : Client * list Action :=
  let '(node, n, ldr) := cfg in
  if (Z.of_nat (length (sent_by t)) <? n) || negb (tok_origin t =? node) then (x, [Forward t])
  else if bool_decide (phase x = DONE) then (x, [])
  else (mkClient (expected x) (received x) (sent x) DONE,
        [DownstreamEOF (tok_client t) (sum_shards (sent_by t))]).

Definition a_fill (node : Z) (x : Client) (t : BarrierToken) : BarrierToken :=
  if bool_decide (phase x = PROCESSING) then t
  else mkToken (tok_client t) (tok_origin t) (dset (sent_by t) node (sent x)).

Definition astep (cfg : Z * Z * Z) (s : astate) (e : rc_event) : astate * list Action :=
  let '(ab, x) := s in
  let '(node, n, ldr) := cfg in
  match e with
  | EvData c =>
      if ab then (s, []) else
      let x := mkClient (expected x) (received x + 1) (sent x) (phase x) in ((ab, x), a_emit c x)
  | EvEof c exp =>
      if ab then (s, []) else
      let x := mkClient exp (received x) (sent x) (phase x) in ((ab, x), a_emit c x)
  | EvDrop _ => ((true, fresh_client), [])
  | EvReport c snt =>
      if bool_decide (phase x = PROCESSING) then
        let x := mkClient (expected x) (received x) snt EMITTED in
        if node =? ldr
        then let '(x, acts) := a_advance cfg x (mkToken c ldr [(node, snt)]) in ((ab, x), acts)
        else ((ab, x), [])
      else (s, [])
  | EvToken t =>
      if ab then (s, [])
      else let '(x, acts) := a_advance cfg x (a_fill node x t) in ((ab, x), acts)
  end.

(** *** Each operation implements its abstract step *)

Arguments a_advance : simpl never.
Arguments a_fill : simpl never.

(** Is the client the goal asks about the client of the event? *)
Ltac destruct_advance :=
  unfold rc_config; simpl; match goal with |- context [a_advance ?c ?x ?t] => destruct (a_advance c x t) end.
Ltac is_client :=
  match goal with |- context [decide (?a = ?b)] => destruct (decide (a = b)) as [<-|]; [|done] end.


Lemma put_client_config rc c x : rc_config (put_client rc c x) = rc_config rc.
Proof. done. Qed.

Lemma abs_put rc c x c' :
  abs (put_client rc c x) c' = if decide (c = c') then (is_aborted_ rc c', x) else abs rc c'.
Proof. unfold abs. rewrite cl_put. by case_decide. Qed.

Lemma abs_client_ rc c c' : abs (client_ rc c).1 c' = abs rc c'.
Proof. unfold abs. by rewrite cl_client_. Qed.

Lemma abs_maybe rc c c' : abs (maybe_local_complete rc c).1 c' = abs rc c'.
Proof. rewrite maybe_local_complete_eq. apply abs_client_. Qed.

(** One concrete result [r] of event [e] in state [rc] is one abstract step of
    the event's client, no other client notices, the configuration stays. *)
Definition simulates (rc : RingCompletion) (e : rc_event) (r : RingCompletion * list Action) : Prop :=
  (∀ c', abs r.1 c' = if decide (ev_client e = c')
                      then (astep (rc_config rc) (abs rc c') e).1 else abs rc c')
  ∧ r.2 = (astep (rc_config rc) (abs rc (ev_client e)) e).2
  ∧ rc_config r.1 = rc_config rc.

Lemma is_aborted_client_ rc c c' : is_aborted_ (client_ rc c).1 c' = is_aborted_ rc c'.
Proof. done. Qed.

Lemma is_aborted_put rc c x c' : is_aborted_ (put_client rc c x) c' = is_aborted_ rc c'.
Proof. done. Qed.

Lemma advance_token_abs rc t :
  (∀ c', abs (advance_token rc t).1 c' =
    (if decide (tok_client t = c')
     then (is_aborted_ rc c', (a_advance (rc_config rc) (cl rc c') t).1) else abs rc c'))
  ∧ (advance_token rc t).2 = (a_advance (rc_config rc) (cl rc (tok_client t)) t).2
  ∧ rc_config (advance_token rc t).1 = rc_config rc.
Proof.
  unfold advance_token, a_advance, rc_config. open_client.
  destruct (Z.of_nat (length (sent_by t)) <? n_nodes rc); simpl.
  { split; [|done]. intros c'. is_client. done. }
  destruct (negb (tok_origin t =? node_id rc)); simpl.
  { split; [|done]. intros c'. is_client. done. }
  destruct (bool_decide (phase (cl rc (tok_client t)) = DONE)) eqn:E; simpl.
  - split; [|done]. intros c'. rewrite abs_client_. is_client. by rewrite E.
  - split; [|done]. intros c'. rewrite abs_put, abs_client_. is_client.
    by rewrite E.
Qed.

Lemma on_data_abs rc c : simulates rc (EvData c) (on_data rc c).
Proof.
  unfold simulates, on_data. fold (is_aborted_ rc c). cbn [ev_client].
  destruct (is_aborted_ rc c) eqn:Ea.
  - split_and!; [|by unfold abs; rewrite Ea|done].
    intros c'. is_client. unfold abs. simpl. by rewrite Ea.
  - open_client. rewrite maybe_local_complete_eq. cbn [fst snd].
    split_and!; [|by unfold abs; rewrite Ea, cl_put, decide_True by done|done].
    intros c'. rewrite abs_client_, abs_put, abs_client_. is_client.
    unfold abs. cbn. by rewrite is_aborted_client_, Ea.
Qed.

Lemma on_eof_abs rc c n : simulates rc (EvEof c n) (on_upstream_eof rc c n).
Proof.
  unfold simulates, on_upstream_eof. fold (is_aborted_ rc c). cbn [ev_client].
  destruct (is_aborted_ rc c) eqn:Ea.
  - split_and!; [|by unfold abs; rewrite Ea|done].
    intros c'. is_client. unfold abs. simpl. by rewrite Ea.
  - open_client. rewrite maybe_local_complete_eq. cbn [fst snd].
    split_and!; [|by unfold abs; rewrite Ea, cl_put, decide_True by done|done].
    intros c'. rewrite abs_client_, abs_put, abs_client_. is_client.
    unfold abs. cbn. by rewrite is_aborted_client_, Ea.
Qed.

Lemma drop_client_abs rc c :
  dict_wf (clients_ rc) → simulates rc (EvDrop c) (drop_client rc c, []).
Proof.
  intros Hwf. split_and!; [|done|done]. intros c'. unfold abs, is_aborted_, cl, drop_client, dget_or.
  cbn. rewrite dget_ddel by done. destruct (decide (c = c')) as [<-|Hc].
  - rewrite decide_True by done. f_equal. apply smem_sadd. by right.
  - rewrite decide_False by done. f_equal. apply eq_true_iff_eq. rewrite smem_sadd.
    split; [|by left]. by intros [?|E%uuid_pyeq].
Qed.

Lemma report_sent_abs rc c snt : simulates rc (EvReport c snt) (report_sent rc c snt).
Proof.
  unfold simulates, report_sent. open_client. cbn [ev_client].
  destruct (bool_decide (phase (cl rc c) = PROCESSING)) eqn:Ep; cbn [negb].
  - set (rc1 := put_client _ _ _). destruct (node_id rc =? leader rc) eqn:En.
    + destruct (advance_token_abs rc1 (mkToken c (leader rc) [(node_id rc, snt)])) as (H1 & H2 & H3).
      change (node_id rc1 =? leader rc1) with (node_id rc =? leader rc). rewrite En. cbn [negb].
      change (leader rc1) with (leader rc). change (node_id rc1) with (node_id rc).
      change (rc_config rc1) with (rc_config rc) in *.
      split_and!; [|rewrite H2|by rewrite H3].
      * intros c'. rewrite H1. cbn [tok_client]. unfold rc1. destruct (decide (c = c')) as [<-|]; [|by rewrite abs_put, decide_False, abs_client_ by done].
        rewrite cl_put, decide_True, is_aborted_put, is_aborted_client_ by done.
        unfold abs. simpl. rewrite Ep, En. by destruct_advance.
      * cbn [tok_client]. unfold rc1. rewrite cl_put, decide_True by done. unfold abs. simpl.
        rewrite Ep, En. by destruct_advance.
    + change (node_id rc1 =? leader rc1) with (node_id rc =? leader rc). rewrite En. cbn [negb].
      split_and!; [|by unfold abs; simpl; rewrite Ep, En|done].
      intros c'. unfold rc1. simpl. rewrite abs_put, abs_client_. is_client.
      unfold abs. simpl. by rewrite Ep, En.
  - split_and!; [|by unfold abs; simpl; rewrite Ep|done].
    intros c'. simpl. rewrite abs_client_. is_client. unfold abs. simpl. by rewrite Ep.
Qed.

Lemma on_token_abs rc t : simulates rc (EvToken t) (on_token rc t).
Proof.
  unfold simulates, on_token. fold (is_aborted_ rc (tok_client t)). cbn [ev_client].
  destruct (is_aborted_ rc (tok_client t)) eqn:Ea.
  - split_and!; [|by unfold abs; rewrite Ea|done].
    intros c'. is_client. unfold abs. simpl. by rewrite Ea.
  - open_client. set (rc1 := (client_ _ _).1).
    assert (Ht : tok_client (a_fill (node_id rc) (cl rc (tok_client t)) t) = tok_client t).
    { unfold a_fill. by case_bool_decide. }
    match goal with |- context [advance_token rc1 ?t1] =>
      change t1 with (a_fill (node_id rc) (cl rc (tok_client t)) t) end.
    destruct (advance_token_abs rc1 (a_fill (node_id rc) (cl rc (tok_client t)) t)) as (H1 & H2 & H3).
    rewrite Ht in H1, H2. change (rc_config rc1) with (rc_config rc) in *.
    split_and!; [|rewrite H2|by rewrite H3].
    + intros c'. rewrite H1. unfold rc1. rewrite abs_client_. is_client.
      rewrite cl_client_, is_aborted_client_. unfold abs. rewrite Ea. simpl.
      by destruct_advance.
    + unfold rc1. rewrite cl_client_. unfold abs. rewrite Ea. simpl. by destruct_advance.
Qed.

(** *** The simulation *)
Lemma rc_step_abs rc e : dict_wf (clients_ rc) → simulates rc e (rc_step rc e).
Proof.
  intros Hwf. destruct e; simpl.
  - apply on_data_abs.
  - apply on_eof_abs.
  - by apply drop_client_abs.
  - apply report_sent_abs.
  - apply on_token_abs.
Qed.

(** ** The well-formedness invariant *)

Definition ev_wf (e : rc_event) : Prop :=
  match e with EvReport _ snt => dict_wf snt | _ => True end.

Definition sents_wf (cs : pydict uuid Client) : Prop :=
  ∀ c x, dget cs c = Some x → dict_wf (sent x).

Lemma cl_sent_wf rc c : rc_wf rc → dict_wf (sent (cl rc c)).
Proof.
  intros (_ & _ & H). unfold cl, dget_or. destruct (dget _ c) eqn:E; simpl; [by eapply H|].
  apply nil_wf.
Qed.

Lemma client__wf rc c : rc_wf rc → rc_wf (client_ rc c).1.
Proof.
  intros (H1 & H2 & H3). split_and!; [by apply dsetdefault_wf|done|].
  intros c' x. change (clients_ (client_ rc c).1) with (dsetdefault (clients_ rc) c fresh_client).
  rewrite dget_dsetdefault. case_decide; [|by apply H3].
  intros [= <-]. by apply (cl_sent_wf rc c).
Qed.

Lemma put_client_wf rc c x : rc_wf rc → dict_wf (sent x) → rc_wf (put_client rc c x).
Proof.
  intros (H1 & H2 & H3) Hx. split_and!; [by apply dset_wf|done|].
  intros c' x'. change (clients_ (put_client rc c x)) with (dset (clients_ rc) c x).
  rewrite dget_dset. case_decide; [|by apply H3]. by intros [= <-].
Qed.

Lemma rc_init_wf i ps : rc_wf (rc_init i ps).
Proof. split_and!; [apply nil_wf|apply NoDup_nil_2|done]. Qed.

Lemma drop_client_wf rc c : rc_wf rc → rc_wf (drop_client rc c).
Proof.
  intros (H1 & H2 & H3). split_and!; [by apply ddel_wf|by apply sadd_wf|].
  intros c' x. cbn. rewrite dget_ddel by done. case_decide; [done|]. apply H3.
Qed.

#[export] Hint Resolve cl_sent_wf client__wf put_client_wf rc_init_wf drop_client_wf : py.

Lemma advance_token_wf rc t : rc_wf rc → rc_wf (advance_token rc t).1.
Proof.
  intros H. unfold advance_token. open_client.
  destruct (_ <? _); [done|]. destruct (negb _); [done|].
  destruct (bool_decide _); cbn [fst]; eauto with py.
Qed.
#[export] Hint Resolve advance_token_wf : py.

Lemma rc_step_wf rc e : rc_wf rc → ev_wf e → rc_wf (rc_step rc e).1.
Proof.
  intros H He. destruct e as [c|c n|c|c snt|t]; cbn [rc_step].
  - unfold on_data. destruct (smem _ _); [done|]. open_client.
    rewrite maybe_local_complete_eq. cbn [fst]. eauto 6 with py.
  - unfold on_upstream_eof. destruct (smem _ _); [done|]. open_client.
    rewrite maybe_local_complete_eq. cbn [fst]. eauto 6 with py.
  - cbn [fst]. eauto with py.
  - unfold report_sent. open_client. destruct (negb _); cbn [fst]; [eauto with py|].
    cbn in He. set (rc1 := put_client _ _ _).
    assert (rc_wf rc1) by (unfold rc1; eauto with py).
    destruct (negb _); cbn [fst]; eauto with py.
  - unfold on_token. destruct (smem _ _); [done|]. open_client. eauto with py.
Qed.

Lemma rc_run_wf rc evs : rc_wf rc → Forall ev_wf evs → rc_wf (run_steps rc_step rc evs).1.
Proof.
  revert rc; induction evs as [|e evs IH]; intros rc H He; simpl; [done|].
  inversion_clear He as [|? ? He1 He2].
  pose proof (rc_step_wf rc e H He1) as H1. destruct (rc_step rc e) as [rc1 o1].
  specialize (IH rc1 H1 He2). by destruct (run_steps rc_step rc1 evs).
Qed.

(** ** Snapshot round trip *)

Lemma phase_of_name_name p : phase_of_name (phase_name p) = Ok p.
Proof. by destruct p. Qed.

(** {str(s): n} read back as {int(s): n} *)
Lemma int_keys_roundtrip (d : shard_counts) :
  dict_wf d →
  mapR (λ sn, k ← int_str sn.1; Ok (k, sn.2)) (dict_of ((λ sn, (str_int sn.1, sn.2)) <$> d)) = Ok d.
Proof.
  intros Hd. pose proof (dict_of_fmap_keys str_int (λ n : Z, n) d str_int_inj Hd) as E.
  cbn beta in E. rewrite E. clear E.
  rewrite (mapR_map _ _ id); [by rewrite list_fmap_id|].
  intros [k n] _. cbn. by rewrite int_str_str_int.
Qed.

Lemma entry_roundtrip x : dict_wf (sent x) → entry_to_client (client_to_entry x) = Ok x.
Proof.
  intros Hx. unfold entry_to_client, client_to_entry.
  rewrite int_keys_roundtrip by done. cbn. rewrite phase_of_name_name. cbn.
  rewrite dict_of_items by done. by destruct x.
Qed.

#[local] Opaque entry_to_client client_to_entry.

Lemma rc_restore_snapshot rc0 rc :
  rc_wf rc → rc_config rc0 = rc_config rc →
  rc_restore_state rc0 (rc_snapshot_state rc) = Ok rc.
Proof.
  intros (H1 & H2 & H3) Hc. unfold rc_restore_state, rc_snapshot_state. cbn [blob_clients blob_aborted].
  rewrite (dict_of_fmap_keys uuid_str client_to_entry) by (done || apply uuid_str_pyeq).
  rewrite (mapR_map _ (λ kv, (uuid_str kv.1, client_to_entry kv.2)) id).
  2: { intros [c x] Hin. cbn [fst snd]. rewrite uuid_of_str_str. cbn.
       rewrite entry_roundtrip; [done|]. apply (H3 c), elem_dget; done. }
  rewrite (mapR_map _ _ id) by (intros c _; apply uuid_of_str_str).
  rewrite !list_fmap_id. cbn. rewrite dict_of_items, set_of_id by done.
  unfold rc_config in Hc. injection Hc as -> -> ->. by destruct rc.
Qed.

(** ** Runs: the projection on one client *)

Definition act_client (a : Action) : uuid :=
  match a with
  | Emit c => c
  | Forward t => tok_client t
  | DownstreamEOF c _ => c
  end.

Lemma a_advance_client cfg x t :
  Forall (λ a, act_client a = tok_client t) (a_advance cfg x t).2.
Proof.
  unfold a_advance. destruct cfg as [[node n] ldr].
  destruct (_ || _); [by repeat constructor|]. destruct (bool_decide _); by repeat constructor.
Qed.

(** An event only speaks about its own client. *)
Lemma astep_client cfg s e : Forall (λ a, act_client a = ev_client e) (astep cfg s e).2.
Proof.
  destruct s as [ab x], cfg as [[node n] ldr], e as [c|c k|c|c snt|t]; cbn [astep ev_client].
  - destruct ab; [constructor|]. unfold a_emit. cbn. destruct (complete _); by repeat constructor.
  - destruct ab; [constructor|]. unfold a_emit. cbn. destruct (complete _); by repeat constructor.
  - constructor.
  - destruct (bool_decide _); [|constructor]. destruct (node =? ldr); [|constructor].
    pose proof (a_advance_client (node, n, ldr)
      (mkClient (expected x) (received x) snt EMITTED) (mkToken c ldr [(node, snt)])) as H.
    destruct (a_advance _ _ _). exact H.
  - destruct ab; [constructor|].
    pose proof (a_advance_client (node, n, ldr) x (a_fill node x t)) as H.
    assert (tok_client (a_fill node x t) = tok_client t) as Ht
      by (unfold a_fill; by case_bool_decide).
    destruct (a_advance _ _ _). by rewrite Ht in H.
Qed.

Lemma rc_run_abs rc evs c :
  rc_wf rc → Forall ev_wf evs →
  let r := run_steps rc_step rc evs in
  let a := run_steps (astep (rc_config rc)) (abs rc c) (filter (λ e, ev_client e = c) evs) in
  abs r.1 c = a.1 ∧ filter (λ o, act_client o = c) r.2 = a.2.
Proof.
  cbv zeta. revert rc; induction evs as [|e evs IH]; intros rc Hwf He; [done|].
  inversion_clear He as [|? ? He1 He2].
  pose proof (rc_step_wf rc e Hwf He1) as Hwf1.
  destruct (rc_step_abs rc e (proj1 Hwf)) as (H1 & H2 & H3).
  cbn [run_steps]. destruct (rc_step rc e) as [rc1 o1]. cbn [fst snd] in *.
  destruct (IH rc1 Hwf1 He2) as [I1 I2].
  destruct (run_steps rc_step rc1 evs) as [rc2 o2]. cbn [fst snd] in *.
  pose proof (astep_client (rc_config rc) (abs rc (ev_client e)) e) as Ho. rewrite <- H2 in Ho.
  rewrite H3, H1 in I1, I2. destruct (decide (ev_client e = c)) as [Hc|Hc].
  - subst c. rewrite filter_cons_True by done. cbn [run_steps].
    destruct (astep (rc_config rc) (abs rc (ev_client e)) e) as [s1 p1]. cbn [fst snd] in *.
    destruct (run_steps (astep (rc_config rc)) s1 _) as [s2 p2]. cbn [fst snd] in *.
    split; [done|]. rewrite filter_app, I2, filter_Forall_all by done. by subst.
  - rewrite filter_cons_False by done. split; [done|].
    rewrite filter_app, I2, filter_Forall_none; [done|].
    eapply Forall_impl; [exact Ho|]. intros o -> . done.
Qed.

(** A tombstoned client is deaf to everything but the controller's own report. *)
Definition not_report (e : rc_event) : Prop := match e with EvReport _ _ => False | _ => True end.

Lemma astep_dead cfg x e : not_report e → (astep cfg (true, x) e).2 = [] ∧
  ((astep cfg (true, x) e).1 = (true, x) ∨ (astep cfg (true, x) e).1 = (true, fresh_client)).
Proof. destruct cfg as [[node n] ldr]. destruct e; simpl; intros []; auto. Qed.

Lemma run_dead cfg evs :
  Forall not_report evs → run_steps (astep cfg) (true, fresh_client) evs = ((true, fresh_client), []).
Proof.
  induction evs as [|e evs IH]; intros H; [done|]. inversion_clear H as [|? ? H1 H2].
  cbn [run_steps]. destruct (astep_dead cfg fresh_client e H1) as [Ho Hs].
  destruct (astep cfg (true, fresh_client) e) as [s o]. cbn in *. subst o.
  destruct Hs as [-> | ->]; by rewrite IH.
Qed.

(** ** Local completion *)

(** The events of one client's input: how many data messages, and the EOFs. *)
Definition input_event (c : uuid) (n : Z) (e : rc_event) : Prop := e = EvData c ∨ e = EvEof c n.
Definition is_eof_ev (e : rc_event) : bool := match e with EvEof _ _ => true | _ => false end.

Definition seen_state (n : Z) (eof : bool) (k : nat) : Client :=
  mkClient (if eof then n else -1) (Z.of_nat k) [] PROCESSING.

Lemma run_input_quiet cfg c n evs eof k :
  Forall (input_event c n) evs → 0 ≤ n →
  (eof = true → n > Z.of_nat k) →
  (existsb is_eof_ev evs || eof = true → Z.of_nat (length (filter (λ e, is_eof_ev e = false) evs)) + Z.of_nat k < n) →
  run_steps (astep cfg) (false, seen_state n eof k) evs =
    ((false, seen_state n (existsb is_eof_ev evs || eof)
       (length (filter (λ e, is_eof_ev e = false) evs) + k)), []).
Proof.
  intros Hall Hn. revert eof k. induction Hall as [|e evs He Hall IH]; intros eof k H1 H2; [done|].
  destruct cfg as [[node m] ldr].
  destruct He as [-> | ->]; cbn [run_steps astep].
  - rewrite filter_cons_True in H2 |- * by done. cbn [existsb is_eof_ev orb length] in H2 |- *.
    replace (a_emit c _) with (@nil Action).
    2: { unfold a_emit, complete. cbn. destruct eof; [|done].
         specialize (H2 ltac:(by rewrite orb_true_r)).
         by replace (n <=? Z.of_nat k + 1) with false by lia; rewrite andb_false_r. }
    change (mkClient _ _ _ _) with (mkClient (if eof then n else -1) (Z.of_nat k + 1) [] PROCESSING).
    replace (Z.of_nat k + 1) with (Z.of_nat (S k)) by lia.
    change (mkClient _ _ _ _) with (seen_state n eof (S k)). rewrite (IH eof (S k)).
    + cbn [app]. by rewrite Nat.add_succ_r.
    + intros ->. specialize (H2 ltac:(by rewrite orb_true_r)). lia.
    + intros H. specialize (H2 H). lia.
  - rewrite filter_cons_False in H2 |- * by done. cbn [existsb is_eof_ev orb length] in H2 |- *.
    specialize (H2 eq_refl).
    replace (a_emit c _) with (@nil Action).
    2: { unfold a_emit, complete. cbn.
         by replace (n <=? Z.of_nat k) with false by lia; rewrite andb_false_r. }
    change (mkClient _ _ _ _) with (seen_state n true k).
    rewrite (IH true k); [|lia|intros; lia].
    cbn [app]. by rewrite orb_true_r.
Qed.

Lemma input_counts c (n : nat) evs :
  evs ≡ₚ EvEof c (Z.of_nat n) :: replicate n (EvData c) →
  Forall (input_event c (Z.of_nat n)) evs ∧
  length (filter (λ e, is_eof_ev e = false) evs) = n ∧
  length (filter (λ e, is_eof_ev e = true) evs) = 1%nat.
Proof.
  intros Hp. split_and!.
  - rewrite Hp. constructor; [by right|]. apply Forall_replicate. by left.
  - rewrite Hp, filter_cons_False by done. rewrite filter_Forall_all, length_replicate; [done|].
    by apply Forall_replicate.
  - rewrite Hp, filter_cons_True by done. rewrite filter_Forall_none; [done|].
    by apply Forall_replicate.
Qed.

Lemma existsb_is_eof evs :
  existsb is_eof_ev evs = bool_decide (0 < length (filter (λ e, is_eof_ev e = true) evs))%nat.
Proof. apply existsb_count. Qed.

Lemma split_eof_data evs :
  length evs = (length (filter (λ e, is_eof_ev e = true) evs) +
                length (filter (λ e, is_eof_ev e = false) evs))%nat.
Proof. apply filter_bool_split. Qed.

Lemma run_input_all cfg c (n : nat) evs :
  evs ≡ₚ EvEof c (Z.of_nat n) :: replicate n (EvData c) →
  (run_steps (astep cfg) (false, fresh_client) evs).2 = [Emit c] ∧
  ∀ l1 l2, evs = l1 ++ l2 → l2 ≠ [] → (run_steps (astep cfg) (false, fresh_client) l1).2 = [].
Proof.
  intros Hp. destruct (input_counts _ _ _ Hp) as (Hall & Hd & He).
  assert (Hpre : ∀ l1 l2, evs = l1 ++ l2 → l2 ≠ [] →
    run_steps (astep cfg) (false, fresh_client) l1 =
    ((false, seen_state (Z.of_nat n) (existsb is_eof_ev l1)
        (length (filter (λ e, is_eof_ev e = false) l1))), [])).
  { intros l1 l2 -> H2. apply Forall_app in Hall as [Ha _].
    change fresh_client with (seen_state (Z.of_nat n) false 0).
    rewrite (run_input_quiet cfg c); [by rewrite orb_false_r, Nat.add_0_r|done|lia|done|].
    rewrite orb_false_r, existsb_is_eof. intros Hx%bool_decide_eq_true.
    rewrite !filter_app, !length_app in *. destruct l2 as [|e l2]; [done|].
    pose proof (split_eof_data (e :: l2)) as Hs. cbn [length] in Hs. lia. }
  split.
  - destruct evs as [|e evs _] using rev_ind; [by apply Permutation_nil_cons in Hp|].
    rewrite run_steps_app, (Hpre evs [e]) by done.
    apply Forall_app in Hall as [_ Hl]. inversion_clear Hl as [|? ? Hin _].
    rewrite filter_app, length_app in Hd, He. destruct cfg as [[node m] ldr].
    destruct Hin as [-> | ->]; cbn [run_steps astep].
    + rewrite filter_cons_True in Hd by done. rewrite filter_cons_False in He by done.
      rewrite filter_nil in Hd, He. cbn [length] in Hd, He.
      rewrite existsb_is_eof, bool_decide_eq_true_2 by lia. unfold a_emit, complete. cbn. by rewrite !(proj2 (Z.leb_le _ _)) by lia.
    + rewrite filter_cons_False in Hd by done. rewrite filter_nil in Hd. cbn [length] in Hd.
      unfold a_emit, complete. cbn. by rewrite !(proj2 (Z.leb_le _ _)) by lia.
  - intros l1 l2 H H'. by rewrite (Hpre l1 l2).
Qed.

Lemma sc_add_all_spec l c k :
  dict_wf (counts_ (foldl (λ s cs, sc_add s cs.1 cs.2) sc_init l)) ∧
  (∀ c', dict_wf (dget_or [] (counts_ (foldl (λ s cs, sc_add s cs.1 cs.2) sc_init l)) c')) ∧
  dget_or 0 (dget_or [] (counts_ (foldl (λ s cs, sc_add s cs.1 cs.2) sc_init l)) c) k =
    Z.of_nat (length (filter (λ cs, cs = (c, k)) l)).
Proof.
  induction l as [|[c0 k0] l (IH1 & IH2 & IH3)] using rev_ind.
  { split_and!; [apply nil_wf|intros; apply nil_wf|done]. }
  rewrite foldl_snoc, filter_app, length_app. set (s := foldl _ _ _) in *. cbn [fst snd].
  unfold sc_add. cbn [counts_]. split_and!; [by apply dset_wf| |].
  - intros c'. rewrite dget_or_dset. case_decide; [|apply IH2]. apply dadd_wf, IH2.
  - rewrite dget_or_dset. destruct (decide (pyeq c0 c)) as [Hc|Hc].
    + assert (c0 = c) as -> by exact Hc. rewrite dget_or_dadd, IH3. case_decide as Hk; cbn in Hk.
      * assert (k0 = k) as -> by exact Hk. rewrite filter_cons_True by done. cbn. lia.
      * rewrite filter_cons_False; [cbn; lia|]. intros [= ->]. by destruct Hk.
    + rewrite IH3, filter_cons_False; [cbn; lia|]. intros [= -> ->]. by destruct Hc.
Qed.

(** ** The claims *)

(** C8: a peer keeps its clients apart: over any history of calls, for any number
    of interleaved clients, what the component remembers and returns for one
    client is what the one-client machine [astep] computes from that client's
    calls alone. *)
Theorem ring_completion_refines (node : Z) (peers : list Z) (evs : list rc_event) (c : uuid) :
  Forall ev_wf evs →
  let rc := rc_init node peers in
  let r := run_steps rc_step rc evs in
  let a := run_steps (astep (rc_config rc)) (false, fresh_client)
             (filter (λ e, ev_client e = c) evs) in
  abs r.1 c = a.1 ∧ filter (λ o, act_client o = c) r.2 = a.2.
Proof. intros He. apply (rc_run_abs (rc_init node peers)); [apply rc_init_wf|done]. Qed.

(** C10: local completion is signalled exactly once and not early: when a client's
    input is [n] data messages and one EOF announcing [n], in any order and
    interleaved with any other clients' calls, the peer returns one [Emit] for it,
    and none before the last of the [n + 1]. *)
Theorem emits_exactly_once (node : Z) (peers : list Z) (c : uuid) (n : nat) (evs : list rc_event) :
  Forall ev_wf evs →
  filter (λ e, ev_client e = c) evs ≡ₚ EvEof c (Z.of_nat n) :: replicate n (EvData c) →
  let rc := rc_init node peers in
  filter (λ o, act_client o = c) (run_steps rc_step rc evs).2 = [Emit c] ∧
  ∀ l1 l2, evs = l1 ++ l2 → filter (λ e, ev_client e = c) l2 ≠ [] →
    filter (λ o, act_client o = c) (run_steps rc_step rc l1).2 = [].
Proof.
  intros He Hp rc. destruct (run_input_all (rc_config rc) c n _ Hp) as [H1 H2]. split.
  - destruct (rc_run_abs rc evs c (rc_init_wf _ _) He) as [_ ->]. exact H1.
  - intros l1 l2 -> Hl. apply Forall_app in He as [He _].
    destruct (rc_run_abs rc l1 c (rc_init_wf _ _) He) as [_ ->].
    apply (H2 _ (filter (λ e, ev_client e = c) l2)); [by rewrite filter_app|done].
Qed.

(** An aborted client stays dead: whatever messages and tokens arrive after
    [drop], the peer keeps no record of the client and returns no action for it,
    so its barrier token is not forwarded. *)
Theorem drop_is_final (node : Z) (peers : list Z) (c : uuid) (before after : list rc_event) :
  Forall ev_wf before → Forall ev_wf after → Forall not_report after →
  let rc := drop_client (run_steps rc_step (rc_init node peers) before).1 c in
  let r := run_steps rc_step rc after in
  cl r.1 c = fresh_client ∧ filter (λ o, act_client o = c) r.2 = [].
Proof.
  intros Hb Ha Hr rc r.
  assert (Hwf0 : rc_wf (run_steps rc_step (rc_init node peers) before).1)
    by (apply rc_run_wf; [apply rc_init_wf|done]).
  destruct (drop_client_abs _ c (proj1 Hwf0)) as (Habs & _ & _).
  specialize (Habs c). cbn [fst ev_client] in Habs. rewrite decide_True in Habs by done.
  destruct (rc_run_abs rc after c (drop_client_wf _ _ Hwf0) Ha) as [H1 H2]. fold r in H1, H2.
  assert (Habs' : abs rc c = (true, fresh_client)).
  { unfold rc. rewrite Habs. by destruct (abs _ c), (rc_config _) as [[? ?] ?]. }
  rewrite Habs', run_dead in H1, H2 by (by apply Forall_filter_keep).
  split; [|exact H2]. by injection H1.
Qed.

(** A checkpoint of the barrier state is exact: a fresh peer of the same ring
    that restores the snapshot of any reachable state is in that very state. *)
Theorem ring_completion_restores (node : Z) (peers : list Z) (evs : list rc_event) :
  Forall ev_wf evs →
  let rc := (run_steps rc_step (rc_init node peers) evs).1 in
  rc_restore_state (rc_init node peers) (rc_snapshot_state rc) = Ok rc.
Proof.
  intros He rc. apply rc_restore_snapshot.
  - apply rc_run_wf; [apply rc_init_wf|done].
  - unfold rc. clear rc. symmetry. generalize (rc_init_wf node peers). generalize (rc_init node peers).
    induction He as [|e evs H1 _ IH]; intros rc Hwf; [done|]. cbn [run_steps].
    pose proof (rc_step_wf rc e Hwf H1) as Hwf1.
    destruct (rc_step_abs rc e (proj1 Hwf)) as (_ & _ & Hc).
    destruct (rc_step rc e) as [rc1 o1]. specialize (IH rc1 Hwf1).
    destruct (run_steps rc_step rc1 evs). cbn in *. by rewrite IH.
Qed.

(** [SentCounts] reports what was sent: after any sequence of [add]s, also
    across a snapshot and restore, [pop] returns for each downstream shard the
    number of messages added for that client and shard, and forgets the client. *)
Theorem sent_counts_exact (l : list (uuid * Z)) (c : uuid) (shard : Z) :
  let s := foldl (λ s cs, sc_add s cs.1 cs.2) sc_init l in
  sc_restore_state (sc_snapshot_state s) = Ok s ∧
  dget_or 0 (sc_pop s c).2 shard = Z.of_nat (length (filter (λ cs, cs = (c, shard)) l)) ∧
  (sc_pop (sc_pop s c).1 c).2 = [].
Proof.
  intros s. destruct (sc_add_all_spec l c shard) as (H1 & H2 & H3). fold s in H1, H2, H3.
  split_and!; [|done|].
  - unfold sc_restore_state, sc_snapshot_state.
    rewrite (dict_of_fmap_keys uuid_str (λ d : shard_counts, dict_of ((λ sn, (str_int sn.1, sn.2)) <$> d)))
      by (done || apply uuid_str_pyeq).
    rewrite (mapR_map _ _ id).
    2: { intros [c0 d] Hin. cbn [fst snd]. rewrite uuid_of_str_str. cbn.
         apply elem_dget in Hin; [|done]. specialize (H2 c0). unfold dget_or in H2. rewrite Hin in H2.
         rewrite int_keys_roundtrip by done. cbn. by rewrite dict_of_items. }
    rewrite list_fmap_id. cbn. rewrite dict_of_items by done. by destruct s.
  - unfold sc_pop, dget_or. cbn. rewrite dget_ddel by done. by rewrite decide_True.
Qed.

(** *** Witnesses *)

Lemma ring_completion_refines_witness :
  abs (run_steps rc_step (rc_init 0 [1]) [EvData (uuid_lit 1); EvEof (uuid_lit 2) 0]).1 (uuid_lit 1)
    = (false, mkClient (-1) 1 [] PROCESSING).
Proof.
  rewrite (proj1 (ring_completion_refines 0 [1] [EvData (uuid_lit 1); EvEof (uuid_lit 2) 0] (uuid_lit 1)
    ltac:(repeat constructor))). vm_compute. reflexivity.
Defined.

Lemma emits_exactly_once_witness :
  filter (λ o, act_client o = uuid_lit 1)
    (run_steps rc_step (rc_init 0 [1]) [EvData (uuid_lit 1); EvEof (uuid_lit 2) 5; EvEof (uuid_lit 1) 1]).2
    = [Emit (uuid_lit 1)].
Proof.
  refine (proj1 (emits_exactly_once 0 [1] (uuid_lit 1) 1 _ _ _)).
  - repeat constructor.
  - replace (filter _ _) with [EvData (uuid_lit 1); EvEof (uuid_lit 1) 1] by (vm_compute; reflexivity).
    apply Permutation_swap.
Defined.

Lemma drop_is_final_witness :
  cl (run_steps rc_step (drop_client (run_steps rc_step (rc_init 0 [1]) [EvData (uuid_lit 1)]).1 (uuid_lit 1))
        [EvData (uuid_lit 1); EvToken (mkToken (uuid_lit 1) 0 [])]).1 (uuid_lit 1) = fresh_client.
Proof.
  refine (proj1 (drop_is_final 0 [1] (uuid_lit 1) [EvData (uuid_lit 1)]
    [EvData (uuid_lit 1); EvToken (mkToken (uuid_lit 1) 0 [])] _ _ _)); repeat constructor.
Defined.

Lemma ring_completion_restores_witness :
  let rc := (run_steps rc_step (rc_init 0 [1]) [EvData (uuid_lit 1); EvReport (uuid_lit 1) [(0, 3); (1, 4)]]).1 in
  rc_restore_state (rc_init 0 [1]) (rc_snapshot_state rc) = Ok rc.
Proof.
  refine (ring_completion_restores 0 [1] [EvData (uuid_lit 1); EvReport (uuid_lit 1) [(0, 3); (1, 4)]] _).
  repeat constructor; vm_compute; set_solver.
Defined.
