(* ===== verification/Checkpoint.v ===== *)
(** * Checkpointing (src/src/common/checkpoint/: checkpointer.py, checkpoint_store.py,
      dispatch.py, factory.py, null_state.py)

    The coordinator of deduplication, batched checkpoints and acknowledgements.
    An operation returns the new state and the list of its effects in program
    order (sends, the atomic replacement of the checkpoint file, acks): a crash at
    any point of an operation is a prefix of that list followed by a restart, which is
    what [NodeSystem] makes of it. *)

From S2P Require Import Prelude.
From S2P Require Import PyDict.
From S2P Require Import PyValues.
From S2P Require Import PyText.
From S2P Require Import Messages.
From S2P Require Import Stamping.
From S2P Require Import Dedup.

(** ** Snapshotable: what a component promises the checkpointer

    [snap_wf s0 s]: a fresh instance [s0] of the component (same construction
    arguments) can take over the snapshot of [s], and is then in state [s]. The
    instances, with their proofs, are those of components that keep their state in
    memory: [NullState], [RingCompletion] and [SentCounts] ([RingNode]),
    [MergeEofCounts] ([RingMerge]), [JoinCounts] ([JoinRoute]) and the aggregates of
    [NodeFits]. A component that spills to files
    keeps more than its snapshot and has none. *)
Class Snapshotable (S : Type) := {
  snap : Type;
  snapshot_state : S → snap;
  restore_state : S → snap → res S;
  clear_stale_spill : S → S;
  snap_wf : S → S → Prop;
  restore_snapshot : ∀ s0 s, snap_wf s0 s → restore_state s0 (snapshot_state s) = Ok s
}.
Arguments snap S {_}.

(** [NullState] *)
#[export] Instance NullState : Snapshotable unit := {|
  snap := unit;
  snapshot_state _ := tt;
  restore_state s _ := Ok s;
  clear_stale_spill s := s;
  snap_wf _ _ := True;
  restore_snapshot s0 s _ := match s0, s with tt, tt => eq_refl end
|}.

(** One of two kinds of providers behind the same protocol. *)
#[export, refine] Instance Snapshotable_sum A B `{Snapshotable A, Snapshotable B}
    : Snapshotable (A + B) := {|
  snap := snap A + snap B;
  snapshot_state s := match s with inl a => inl (snapshot_state a) | inr b => inr (snapshot_state b) end;
  restore_state s b := match s, b with
                       | inl a, inl x => a ← restore_state a x; Ok (inl a)
                       | inr c, inr x => c ← restore_state c x; Ok (inr c)
                       | _, _ => Exc TypeError
                       end;
  clear_stale_spill s := match s with inl a => inl (clear_stale_spill a) | inr b => inr (clear_stale_spill b) end;
  snap_wf s0 s := match s0, s with inl a, inl b => snap_wf a b | inr a, inr b => snap_wf a b | _, _ => False end
|}.
Proof. intros [a|a] [b|b] Hw; try done; by rewrite restore_snapshot by done. Defined.

(** ** The store: one file, replaced atomically; [None] when it does not exist.
    [store_save] leaves the new blob or, on a crash before [os.replace], the old
    one (the temporary file is not read by anybody). *)
Definition store_save {B} (replaced : bool) (old : option B) (blob : B) : option B :=
  if replaced then Some blob else old.
Definition store_load {B} (file : option B) : option B := file.

(** ** Checkpointer *)

Section checkpointer.
Context {F E Out Tag : Type} `{!Snapshotable F, !Snapshotable E}.

(** The objects the checkpointer persists: the business function, the sequence
    sources, the named providers of [extra_state]. *)
Record World := mkWorld {
  w_fn : F;
  w_seqs : list StampingMOM;
  w_extra : pydict string E
}.

Record Blob := mkBlob {
  b_state : snap F;
  b_dedup : pydict bytes (Z * list Z);
  b_out_seq : option (pydict bytes Z);
  b_extra : option (pydict string (snap E));
  b_aborted : option (list string)
}.

Record Checkpointer := mkCP {
  cp_dedup : Deduplicator;
  cp_every : Z;
  cp_pending : list Tag;
  cp_aborted : pyset uuid;
  cp_dirty : bool
}.

Inductive effect :=
  | Send (o : Out)
  | Save (b : Blob)
  | Ack (t : Tag).

(** [__init__] *)
Definition cp_new (checkpoint_every : Z) : Checkpointer :=
  mkCP (dedup_init None) (Z.max 1 checkpoint_every) [] [] false.

(** [make_checkpointer]: none without a state directory. *)
Definition make_checkpointer (state_dir : option string) (checkpoint_every : Z)
    : option Checkpointer :=
  match state_dir with
  | None | Some EmptyString => None
  | Some _ => Some (cp_new checkpoint_every)
  end.

(** *** restore *)

Definition restore_seqs (out_seq : pydict bytes Z) (srcs : list StampingMOM) : list StampingMOM :=
  (λ s, match dget out_seq (sm_producer s) with Some v => restore_seq s v | None => s end) <$> srcs.

Definition restore_extra (extra : pydict string (snap E)) (providers : pydict string E)
    : res (pydict string E) :=
  mapR (λ kp, match dget extra kp.1 with
              | Some b => p ← restore_state kp.2 b; Ok (kp.1, p)
              | None => Ok kp
              end) providers.

Definition cp_restore (cp : Checkpointer) (w : World) (file : option Blob)
    : res (bool * (Checkpointer * World)) :=
  match store_load file with
  | None => Ok (false, (cp, mkWorld (clear_stale_spill (w_fn w)) (w_seqs w) (w_extra w)))
  | Some blob =>
      f ← restore_state (w_fn w) (b_state blob);
      let seqs := restore_seqs (default [] (b_out_seq blob)) (w_seqs w) in
      extra ← restore_extra (default [] (b_extra blob)) (w_extra w);
      ab ← mapR uuid_of_str (default [] (b_aborted blob));
      Ok (true, (mkCP (dedup_restore (b_dedup blob)) (cp_every cp) (cp_pending cp) (set_of ab)
                   (cp_dirty cp),
                 mkWorld f seqs extra))
  end.

(** *** the aborted clients *)

Definition is_aborted (cp : Checkpointer) (c : uuid) : bool := smem c (cp_aborted cp).

Definition mark_aborted (cp : Checkpointer) (c : uuid) : Checkpointer :=
  mkCP (cp_dedup cp) (cp_every cp) (cp_pending cp) (sadd (cp_aborted cp) c) true.

(** *** checkpoint, then release the acks *)

Definition blob_of (cp : Checkpointer) (w : World) : Blob :=
  mkBlob (snapshot_state (w_fn w)) (dedup_snapshot (cp_dedup cp))
    (Some (dict_of ((λ s, (sm_producer s, seq_value s)) <$> w_seqs w)))
    (Some (dict_of ((λ kp, (kp.1, snapshot_state kp.2)) <$> w_extra w)))
    (Some (uuid_str <$> cp_aborted cp)).

Definition checkpoint_and_flush (cp : Checkpointer) (w : World) (force : bool)
    : Checkpointer * list effect :=
  let saved := cp_dirty cp || force in
  (mkCP (cp_dedup cp) (cp_every cp) [] (cp_aborted cp) (if saved then false else cp_dirty cp),
   (if saved then [Save (blob_of cp w)] else []) ++ (Ack <$> cp_pending cp)).

Definition flush (cp : Checkpointer) (w : World) (force : bool) : Checkpointer * list effect :=
  checkpoint_and_flush cp w force.

(** *** one data message

    [N] is the controller's whole state, [world_of] the persisted part of it;
    [apply] is the controller's processing: it changes the state and sends, or
    raises. *)
Context {N : Type} (world_of : N → World) (apply : Message → N → res (N * list Out)).

Definition handle_data (cp : Checkpointer) (n : N) (msg : Message) (ack : Tag)
    : res (Checkpointer * N * list effect) :=
  c ← of_opt AttributeError (body_client (body_ msg));
  if smem c (cp_aborted cp) then Ok (cp, n, [Ack ack])
  else if is_duplicate (cp_dedup cp) (producer_id msg) (seq msg) then Ok (cp, n, [Ack ack])
  else
    '(n, outs) ← apply msg n;
    let cp := mkCP (record (cp_dedup cp) (producer_id msg) (seq msg)) (cp_every cp)
                (cp_pending cp ++ [ack]) (cp_aborted cp) true in
    if Z.of_nat (length (cp_pending cp)) >=? cp_every cp
    then let '(cp, effs) := checkpoint_and_flush cp (world_of n) false in
         Ok (cp, n, (Send <$> outs) ++ effs)
    else Ok (cp, n, Send <$> outs).

(** *** dispatch

    The node's state and its checkpointer, if it has one.  [on_eof] and
    [on_abort] are the controller's handlers: they may flush themselves. *)
Definition dispatch (cp : option Checkpointer) (n : N) (msg : Message) (ack : Tag)
    (on_eof : option Checkpointer → N → Message → res (option Checkpointer * N * list effect))
    (on_abort : option (option Checkpointer → N → Message → res (option Checkpointer * N * list effect)))
    : res (option Checkpointer * N * list effect) :=
  match body_type (body_ msg) with
  | T_EOF =>
      let '(cp, e1) :=
        match cp with
        | Some cp => let '(cp, e) := flush cp (world_of n) false in (Some cp, e)
        | None => (None, [])
        end in
      '(cp, n, e2) ← on_eof cp n msg;
      Ok (cp, n, e1 ++ e2 ++ [Ack ack])
  | T_ABORT =>
      match on_abort with
      | Some h => '(cp, n, e) ← h cp n msg; Ok (cp, n, e ++ [Ack ack])
      | None => Ok (cp, n, [Ack ack])
      end
  | _ =>
      match cp with
      | None => '(n, outs) ← apply msg n; Ok (None, n, (Send <$> outs) ++ [Ack ack])
      | Some cp => '(cp, n, e) ← handle_data cp n msg ack; Ok (Some cp, n, e)
      end
  end.
End checkpointer.

Arguments World : clear implicits.
Arguments Blob F E {_ _}.
Arguments Checkpointer : clear implicits.
Arguments effect F E Out Tag {_ _}.

(** ** Restoring a checkpoint *)

Section restoring.
Context {F E : Type} `{!Snapshotable F, !Snapshotable E} {Tag : Type}.
Implicit Types (w : World F E) (cp : Checkpointer Tag).

(** [w0] is a fresh world with the same static parts as [w]. *)
Definition world_like (w0 w : World F E) : Prop :=
  snap_wf (w_fn w0) (w_fn w) ∧
  sm_producer <$> w_seqs w = sm_producer <$> w_seqs w0 ∧
  NoDup (sm_producer <$> w_seqs w0) ∧
  Forall2 (λ a b, a.1 = b.1 ∧ snap_wf a.2 b.2) (w_extra w0) (w_extra w) ∧
  dict_wf (w_extra w0).

Lemma restore_seqs_spec (s0 s : list StampingMOM) :
  sm_producer <$> s = sm_producer <$> s0 → NoDup (sm_producer <$> s0) →
  restore_seqs (dict_of ((λ s, (sm_producer s, seq_value s)) <$> s)) s0 = s.
Proof.
  intros He Hnd.
  assert (Hwf : dict_wf ((λ s, (sm_producer s, seq_value s)) <$> s)).
  { unfold dict_wf, dkeys. rewrite <- !list_fmap_compose. rewrite <- He in Hnd. exact Hnd. }
  rewrite dict_of_items by done. unfold restore_seqs.
  apply list_eq. intros i. rewrite list_lookup_fmap.
  assert (Hi : sm_producer <$> s !! i = sm_producer <$> s0 !! i)
    by (rewrite <- !list_lookup_fmap; by rewrite He).
  destruct (s0 !! i) as [x0|], (s !! i) as [x|] eqn:Ex; try done. cbn in Hi |- *.
  injection Hi as Hi. rewrite <- Hi.
  rewrite (elem_dget _ (sm_producer x) (seq_value x)); [|done|].
  - unfold restore_seq, seq_restore. destruct x as [p [q]], x0 as [p0 [q0]]. cbn in *. by subst.
  - apply list_elem_of_fmap. exists x. split; [done|]. by eapply list_elem_of_lookup_2.
Qed.

Lemma extra_keys (e0 e : pydict string E) :
  Forall2 (λ a b, a.1 = b.1 ∧ snap_wf a.2 b.2) e0 e → dkeys e = dkeys e0.
Proof. unfold dkeys. induction 1 as [|a b e0 e [H _] _ IH]; [done|]. csimpl. by rewrite IH, H. Qed.

Lemma restore_extra_spec (e0 e : pydict string E) :
  Forall2 (λ a b, a.1 = b.1 ∧ snap_wf a.2 b.2) e0 e → dict_wf e0 →
  restore_extra (dict_of ((λ kp, (kp.1, snapshot_state kp.2)) <$> e)) e0 = Ok e.
Proof.
  intros H2 Hwf. pose proof (extra_keys _ _ H2) as Hk.
  assert (Hwf' : dict_wf e) by (unfold dict_wf in *; by rewrite Hk).
  rewrite dict_of_items by (by apply (dmap_values_wf snapshot_state)).
  unfold restore_extra.
  assert (Hall : ∀ kp, kp ∈ e →
    dget ((λ kp, (kp.1, snapshot_state kp.2)) <$> e) kp.1 = Some (snapshot_state kp.2)).
  { intros [k p] Hin. cbn.
    pose proof (dget_dmap_values (K:=string) (snapshot_state (S:=E)) e k) as Hd.
    unfold dmap_values in Hd. rewrite Hd. by rewrite (elem_dget e k p). }
  revert Hall. generalize ((λ kp, (kp.1, snapshot_state kp.2)) <$> e). intros d Hall.
  clear Hk Hwf Hwf'. induction H2 as [|[k0 p0] [k p] e0 e [Hk Hp] H2 IH]; [done|].
  cbn in Hk, Hp. subst k0. cbn [mapR].
  pose proof (Hall (k, p) ltac:(left)) as Hd. cbn in Hd. cbn [fst snd]. rewrite Hd.
  rewrite restore_snapshot by done. cbn [mbind res_bind].
  rewrite IH; [done|]. intros kp Hkp. apply Hall. by right.
Qed.

Lemma restore_blob cp0 cp w0 w :
  world_like w0 w →
  cp_restore cp0 w0 (Some (blob_of cp w)) =
    Ok (true, (mkCP (dedup_restore (dedup_snapshot (cp_dedup cp))) (cp_every cp0) (cp_pending cp0)
                 (set_of (cp_aborted cp)) (cp_dirty cp0), w)).
Proof.
  intros (Hf & Hs & Hsn & He & Hen). unfold cp_restore, blob_of, store_load.
  cbn [b_state b_dedup b_out_seq b_extra b_aborted default].
  rewrite restore_snapshot by done. cbn [mbind res_bind]. unfold default, from_option, id.
  rewrite restore_extra_spec by done. cbn [mbind res_bind].
  rewrite (mapR_map _ _ (λ u, u)) by (intros; apply uuid_of_str_str).
  cbn [mbind res_bind]. rewrite restore_seqs_spec by done. rewrite list_fmap_id.
  by destruct w.
Qed.
End restoring.

(** ** A message delivered again *)

(** A redelivered message changes nothing: handing a node a data message it has
    processed, or one of an aborted client, leaves its state, the table and the held
    acks as they are, sends nothing and only releases that copy. *)
Theorem redelivery_is_idempotent {F E Out N : Type} `{!Snapshotable F, !Snapshotable E} (world_of : N → World F E)
    (apply : Message → N → res (N * list Out)) (cp cp1 : Checkpointer nat) (n n1 : N) effs1
    (m : Message) (t1 t : nat) (c : uuid) :
  dedup_inv (cp_dedup cp) → 0 < seq m → body_client (body_ m) = Some c →
  handle_data world_of apply cp n m t1 = Ok (cp1, n1, effs1) →
  handle_data world_of apply cp1 n1 m t = Ok (cp1, n1, [Ack t]).
Proof.
  intros Hinv Hseq Hc H1. unfold handle_data in *. rewrite Hc in *. cbn [of_opt mbind res_bind] in *.
  destruct (smem c (cp_aborted cp)) eqn:Ea.
  { injection H1 as <- <- <-. by rewrite Ea. }
  destruct (is_duplicate _ _ _) eqn:Ed.
  { injection H1 as <- <- <-. by rewrite Ea, Ed. }
  assert (Hdup : is_duplicate (record (cp_dedup cp) (producer_id m) (seq m)) (producer_id m) (seq m) = true)
    by (apply is_duplicate_record; [done|]; right; done).
  apply bind_Ok in H1 as ([n2 outs] & _ & H1). destruct (_ >=? _).
  - cbn in H1. injection H1 as <- <- <-. cbn. by rewrite Ea, Hdup.
  - injection H1 as <- <- <-. cbn. by rewrite Ea, Hdup.
Qed.

Definition demo_world : World unit unit := mkWorld tt [mkSM (uuid_bytes (uuid_lit 1)) seq_init] [].
Definition demo_msg : Message := mkMsg (TransactionCount (uuid_lit 7) 3) (uuid_bytes (uuid_lit 2)) 1.

Lemma redelivery_is_idempotent_witness :
  let handle := handle_data (Out := nat) (Tag := nat) (λ w : World unit unit, w) (λ _ w, Ok (w, [7%nat])) in
  ∃ cp w effs, handle (cp_new 5) demo_world demo_msg 0%nat = Ok (cp, w, effs) ∧ handle cp w demo_msg 1%nat = Ok (cp, w, [Ack 1%nat]).
Proof.
  cbv zeta. do 3 eexists. split; [vm_compute; reflexivity|].
  refine (redelivery_is_idempotent _ _ (cp_new 5) _ demo_world _ _ demo_msg 0%nat 1%nat (uuid_lit 7) _ _ _ _).
  - apply dedup_inv_empty.
  - vm_compute. reflexivity.
  - reflexivity.
  - vm_compute. reflexivity.
Defined.
