(* ===== verification/RingNode.v ===== *)
(** * Ring nodes (src/src/common/comms/eof_handler/ring_node.py and the
      controllers of filter/, group_by/, aggregate/, merge/)

    The shared machinery of a ring controller: it processes data messages, EOFs,
    aborts and barrier tokens against its business state, its [RingCompletion] and
    its checkpointer.  A handler returns the new state and its effects in program
    order; the business part is a record of the methods the subclasses override. *)

From S2P Require Import Prelude.
From S2P Require Import PyDict.
From S2P Require Import PyValues.
From S2P Require Import PyText.
From S2P Require Import Wire.
From S2P Require Import Messages.
From S2P Require Import Stamping.
From S2P Require Import Dedup.
From S2P Require Import RingCompletion.
From S2P Require Import Checkpoint.

(** ** The providers of [extra_state] *)

#[export, refine] Instance RingCompletion_Snapshotable : Snapshotable RingCompletion := {|
  snap := rc_blob;
  snapshot_state := rc_snapshot_state;
  restore_state := rc_restore_state;
  clear_stale_spill rc := rc;
  snap_wf rc0 rc := rc_wf rc ∧ rc_config rc0 = rc_config rc
|}.
Proof. intros s0 s [H1 H2]. by apply rc_restore_snapshot. Defined.

Definition sc_wf (s : SentCounts) : Prop :=
  dict_wf (counts_ s) ∧ ∀ c d, dget (counts_ s) c = Some d → dict_wf d.

Lemma sc_restore_snapshot s : sc_wf s → sc_restore_state (sc_snapshot_state s) = Ok s.
Proof.
  intros [H1 H2]. unfold sc_restore_state, sc_snapshot_state.
  rewrite (dict_of_fmap_keys uuid_str (λ d : shard_counts, dict_of ((λ sn, (str_int sn.1, sn.2)) <$> d)))
    by (done || apply uuid_str_pyeq).
  rewrite (mapR_map _ _ id).
  2: { intros [c0 d] Hin. cbn [fst snd]. rewrite uuid_of_str_str. cbn.
       apply elem_dget in Hin; [|done].
       rewrite int_keys_roundtrip by by eapply H2. cbn. by rewrite dict_of_items by by eapply H2. }
  rewrite list_fmap_id. cbn. rewrite dict_of_items by done. by destruct s.
Qed.

#[export, refine] Instance SentCounts_Snapshotable : Snapshotable SentCounts := {|
  snap := sc_blob;
  snapshot_state := sc_snapshot_state;
  restore_state _ := sc_restore_state;
  clear_stale_spill s := s;
  snap_wf _ s := sc_wf s
|}.
Proof. intros s0 s H. by apply sc_restore_snapshot. Defined.

(** ** [shard_of] *)

Definition shard_of (m : Message) (nshards : Z) : res Z :=
  if nshards =? 0 then Exc ZeroDivisionError
  else Ok ((be_combine (drop (length (producer_id m) - 4) (producer_id m)) + seq m) mod nshards).

(** ** State and effects *)

Record NodeState (F : Type) := mkNode_ {
  n_rc : RingCompletion;
  n_sent : SentCounts;
  n_txs : list StampingMOM;       (* external_txs *)
  n_fn : F                        (* the business function's state *)
}.
Arguments mkNode_ {F}.
Arguments n_rc {F}. Arguments n_sent {F}. Arguments n_txs {F}. Arguments n_fn {F}.

Definition set_rc {F} (n : NodeState F) rc := mkNode_ rc (n_sent n) (n_txs n) (n_fn n).
Definition set_sent {F} (n : NodeState F) sc := mkNode_ (n_rc n) sc (n_txs n) (n_fn n).
Definition set_txs {F} (n : NodeState F) txs := mkNode_ (n_rc n) (n_sent n) txs (n_fn n).
Definition set_fn {F} (n : NodeState F) (f : F) := mkNode_ (n_rc n) (n_sent n) (n_txs n) f.

(** Where a node sends: the [i]-th external route, or its ring neighbour. *)
Inductive NOut :=
  | ToTx (i : nat) (raw : bytes)
  | ToRing (raw : bytes).

(** The objects the node's checkpointer persists. *)
Definition world_of {F} (n : NodeState F) : World F (RingCompletion + SentCounts) :=
  mkWorld (n_fn n) (n_txs n) [("completion"%string, inl (n_rc n)); ("sent"%string, inr (n_sent n))].

Section node.
Context `{MP : MsgPack} {F : Type} `{!Snapshotable F}.
Implicit Types (n : NodeState F) (m : Message) (c : uuid).

Abbreviation neffect := (effect F (RingCompletion + SentCounts) NOut nat).
Abbreviation cpt := (option (Checkpointer nat)).

(** [external_txs[i].send(message)] *)
Definition send_at n (i : nat) (message : bytes) : res (NodeState F * list NOut) :=
  tx ← of_opt IndexError (n_txs n !! i);
  let '(tx, r) := sm_send tx message in
  raw ← r;
  Ok (set_txs n (<[i := tx]> (n_txs n)), [ToTx i raw]).

(** [external_txs[i].send_stamped(message, producer_id, seq)] *)
Definition send_stamped_at n (i : nat) (message producer : bytes) (sq : Z)
    : res (NodeState F * list NOut) :=
  tx ← of_opt IndexError (n_txs n !! i);
  let '(tx, r) := sm_send_stamped tx message producer sq in
  raw ← r;
  Ok (set_txs n (<[i := tx]> (n_txs n)), [ToTx i raw]).

(** A loop of steps that each change the state and send. *)
Fixpoint steps {A} (f : NodeState F → A → res (NodeState F * list NOut)) n (l : list A)
    : res (NodeState F * list NOut) :=
  match l with
  | [] => Ok (n, [])
  | a :: l => '(n, o1) ← f n a; '(n, o2) ← steps f n l; Ok (n, o1 ++ o2)
  end.

(** *** The overridden methods

    [app_data]: the processing and sends of [_on_data] before [rc.on_data];
    [app_result]: the sends of [_emit] with the per-shard counts it reports;
    [app_discard] and [app_free]. *)
Record App := {
  app_data : NodeState F → Message → res (NodeState F * list NOut);
  app_result : NodeState F → uuid → res (NodeState F * list NOut * shard_counts);
  app_discard : NodeState F → uuid → NodeState F;
  app_free : NodeState F → uuid → NodeState F
}.
Context (app : App).

(** *** [_forward], [_downstream_eof], [_downstream_abort] *)

Definition forward (token : BarrierToken) : res (list NOut) :=
  raw ← serialize (new_msg (RingBarrier (tok_client token) (tok_origin token) (sent_by token)));
  Ok [ToRing raw].

Definition shard_eof (c : uuid) (expected_count : Z) : Message :=
  new_msg (EOF c (-1) expected_count (-1) (-1) []).

Definition downstream_eof n c (expected_per_shard : shard_counts) : res (NodeState F * list NOut) :=
  steps (λ n i, raw ← serialize (shard_eof c (dget_or 0 expected_per_shard (Z.of_nat i)));
                send_at n i raw) n (List.seq 0 (length (n_txs n))).

Definition downstream_abort n c : res (NodeState F * list NOut) :=
  steps (λ n i, raw ← serialize (new_msg (Abort c)); send_at n i raw)
    n (List.seq 0 (length (n_txs n))).

(** *** [_run] and [_emit]

    [run_leaf] performs what [report_sent] and [on_token] may return besides
    [Emit] (see [report_sent_no_emit], [on_token_no_emit]). *)
Definition run_leaf n (a : Action) : res (NodeState F * list NOut) :=
  match a with
  | Emit _ => Ok (n, [])
  | Forward t => o ← forward t; Ok (n, o)
  | DownstreamEOF c per_shard => downstream_eof n c per_shard
  end.

Definition emit n c : res (NodeState F * list NOut) :=
  '(n, o1, snt) ← app_result app n c;
  let '(rc, actions) := report_sent (n_rc n) c snt in
  '(n, o2) ← steps run_leaf (set_rc n rc) actions;
  Ok (n, o1 ++ o2).

Definition run_action n (a : Action) : res (NodeState F * list NOut) :=
  match a with Emit c => emit n c | _ => run_leaf n a end.

(** The clients [_run] emitted for. *)
Definition emitted (actions : list Action) : list uuid :=
  omap (λ a, match a with Emit c => Some c | _ => None end) actions.

Definition run_ n (actions : list Action) : res (NodeState F * list NOut) :=
  steps run_action n actions.

(** *** Handlers *)

Definition on_data_ n m : res (NodeState F * list NOut) :=
  '(n, o1) ← app_data app n m;
  c ← of_opt AttributeError (body_client (body_ m));
  let '(rc, actions) := on_data (n_rc n) c in
  '(n, o2) ← run_ (set_rc n rc) actions;
  Ok (n, o1 ++ o2).

(** [if checkpointer: checkpointer.flush(force=True)] *)
Definition flush_node (cp : cpt) n : cpt * list neffect :=
  match cp with
  | Some cp => let '(cp, e) := flush cp (world_of n) true in (Some cp, e)
  | None => (None, [])
  end.

Definition on_eof_ (cp : cpt) n c (expected_count : Z) : res (cpt * NodeState F * list neffect) :=
  let '(rc, actions) := on_upstream_eof (n_rc n) c expected_count in
  let n := set_rc n rc in
  let '(cp, e1) := match actions with [] => (cp, []) | _ => flush_node cp n end in
  '(n, o) ← run_ n actions;
  let '(cp, e2) := flush_node cp n in
  let n := foldl (app_free app) n (emitted actions) in
  Ok (cp, n, e1 ++ (Send <$> o) ++ e2).

Definition on_abort_ (cp : cpt) n c : res (cpt * NodeState F * list neffect) :=
  let n := app_discard app (set_rc n (drop_client (n_rc n) c)) c in
  let '(cp, e) :=
    match cp with
    | Some cp => flush_node (Some (mark_aborted cp c)) n
    | None => (None, [])
    end in
  '(n, o) ← downstream_abort n c;
  Ok (cp, n, e ++ (Send <$> o)).

(** Outcome of a ring message: processed and acked, or given back ([nack])
    after an exception, with the state as far as it got. *)
Inductive ring_result :=
  | RingAcked (cp : cpt) (n : NodeState F) (effs : list neffect)
  | RingNacked.

Definition on_ring_token (cp : cpt) n (t : BarrierToken) (ack : nat) : ring_result :=
  let '(rc, actions) := on_token (n_rc n) t in
  match run_ (set_rc n rc) actions with
  | Exc _ => RingNacked
  | Ok (n, o) =>
      let '(cp, e) := flush_node cp n in
      let n := foldl (app_free app) n (emitted actions) in
      RingAcked cp n ((Send <$> o) ++ e ++ [Ack ack])
  end.

Definition on_ring_msg (cp : cpt) n (body : bytes) (ack : nat) : res ring_result :=
  m ← deserialize_message body;
  match body_ m with
  | RingBarrier c o sb => Ok (on_ring_token cp n (mkToken c o sb) ack)
  | _ => Exc AttributeError
  end.

(** [start], before consuming: restore, finish what the crash interrupted, free
    what is past [PROCESSING], and checkpoint. *)
Definition start_ (cp : cpt) n (file : option (Blob F (RingCompletion + SentCounts)))
    : res (cpt * NodeState F * list neffect) :=
  match cp with
  | None => Ok (None, n, [])
  | Some cp =>
      '(restored, (cp, w)) ← cp_restore cp (world_of n) file;
      n ← match w_extra w with
          | [(_, inl rc); (_, inr sc)] => Ok (mkNode_ rc sc (w_seqs w) (w_fn w))
          | _ => Exc TypeError
          end;
      if negb restored then Ok (Some cp, n, [])
      else
        let '(rc, actions) := recheck (n_rc n) in
        '(n, o) ← run_ (set_rc n rc) actions;
        let n := foldl (app_free app) n (resolved_clients (n_rc n)) in
        let '(cp, e) := flush_node (Some cp) n in
        Ok (cp, n, (Send <$> o) ++ e)
  end.

(** *** [_on_data_msg]: [dispatch] with this node's handlers *)
Definition on_eof_msg (cp : cpt) n m : res (cpt * NodeState F * list neffect) :=
  match body_ m with
  | EOF c _ expected_count _ _ _ => on_eof_ cp n c expected_count
  | _ => Exc AttributeError
  end.

Definition on_abort_msg (cp : cpt) n m : res (cpt * NodeState F * list neffect) :=
  c ← of_opt AttributeError (body_client (body_ m)); on_abort_ cp n c.

Definition on_data_msg (cp : cpt) n (body : bytes) (ack : nat)
    : res (cpt * NodeState F * list neffect) :=
  m ← deserialize_message body;
  dispatch world_of (λ m n, on_data_ n m) cp n m ack on_eof_msg (Some on_abort_msg).
End node.

Arguments App F : clear implicits.
Arguments ring_result F {_}.

(** ** The controllers *)

Section controllers.
Context `{MP : MsgPack} {F : Type} `{!Snapshotable F}.
Implicit Types (n : NodeState F) (m : Message) (c : uuid).

(** *** [StatelessRingNode]: it only reports what it already sent *)
Definition stateless_result n c : res (NodeState F * list NOut * shard_counts) :=
  let '(sc, cnt) := sc_pop (n_sent n) c in Ok (set_sent n sc, [], cnt).
Definition stateless_discard n c : NodeState F := set_sent n (sc_pop (n_sent n) c).1.

Definition add_sent n c (shard : Z) : NodeState F := set_sent n (sc_add (n_sent n) c shard).

(** One filtered copy of the input to route [i], under the input's identity. *)
Definition filter_to (flt : Body → res Body) m n (i : nat) : res (NodeState F * list NOut) :=
  c ← of_opt AttributeError (body_client (body_ m));
  b ← flt (body_ m);
  raw ← serialize (new_msg b);
  '(n, o) ← send_stamped_at n i raw (producer_id m) (seq m);
  Ok (add_sent n c (Z.of_nat i), o).

(** *** [RingFilter._on_data] *)
Definition ring_filter_data (flt : Body → res Body) n m : res (NodeState F * list NOut) :=
  shard ← shard_of m (Z.of_nat (length (n_txs n)));
  filter_to flt m n (Z.to_nat shard).

Definition RingFilter (flt : Body → res Body) : App F := {|
  app_data := ring_filter_data flt;
  app_result := stateless_result;
  app_discard := stateless_discard;
  app_free n _ := n
|}.

(** *** [RingBroadcastFilter._on_data]: one copy per broadcast route, then one copy
    per sharded route, to the shard of the message's identity.  [external_txs] is
    the concatenation of the routes; [base] is where a sharded route starts. *)
Fixpoint sharded_copies (m : Message) n (base : Z) (routes : list (nat * (Body → res Body)))
    : res (NodeState F * list NOut) :=
  match routes with
  | [] => Ok (n, [])
  | (size, flt) :: routes =>
      i ← shard_of m (Z.of_nat size);
      '(n, o1) ← filter_to flt m n (Z.to_nat (base + i));
      '(n, o2) ← sharded_copies m n (base + Z.of_nat size) routes;
      Ok (n, o1 ++ o2)
  end.

Definition ring_broadcast_data (broadcast : list (Body → res Body))
    (sharded : list (nat * (Body → res Body))) n m : res (NodeState F * list NOut) :=
  '(n, o1) ← steps (λ n ik, filter_to ik.2 m n ik.1) n (imap (λ i flt, (i, flt)) broadcast);
  '(n, o2) ← sharded_copies m n (Z.of_nat (length broadcast)) sharded;
  Ok (n, o1 ++ o2).

Definition RingBroadcastFilter (broadcast : list (Body → res Body))
    (sharded : list (nat * (Body → res Body))) : App F := {|
  app_data := ring_broadcast_data broadcast sharded;
  app_result := stateless_result;
  app_discard := stateless_discard;
  app_free n _ := n
|}.

(** *** [RingGroupBy._on_data]: every group to one shard of every fleet *)
Fixpoint group_to_fleets (c : uuid) (payload : bytes) (affinity : Z) n (base : Z)
    (fleets : list nat) : res (NodeState F * list NOut) :=
  match fleets with
  | [] => Ok (n, [])
  | size :: fleets =>
      _ ← guard_exc ZeroDivisionError (negb (size =? 0)%nat);
      let shard := affinity mod Z.of_nat size in
      '(n, o1) ← send_at n (Z.to_nat (base + shard)) payload;
      '(n, o2) ← group_to_fleets c payload affinity (add_sent n c (base + shard))
                   (base + Z.of_nat size) fleets;
      Ok (n, o1 ++ o2)
  end.

Definition ring_group_by_data (group_by : Message → res (list (Body * Z))) (fleets : list nat)
    n m : res (NodeState F * list NOut) :=
  c ← of_opt AttributeError (body_client (body_ m));
  groups ← group_by m;
  steps (λ n ga, payload ← serialize (new_msg ga.1); group_to_fleets c payload ga.2 n 0 fleets)
    n groups.

Definition RingGroupBy (group_by : Message → res (list (Body * Z))) (fleets : list nat) : App F := {|
  app_data := ring_group_by_data group_by fleets;
  app_result := stateless_result;
  app_discard := stateless_discard;
  app_free n _ := n
|}.

(** *** [RingAggregate]: accumulates, and sends at the end of the input *)
Record AggregateFn := {
  aggregate : F → Body → res F;
  get_result : F → uuid → res (F * list (Body * Z));
  discard : F → uuid → F
}.
Context (fn : AggregateFn) (broadcast_downstream : bool).

Definition count_to (st : NodeState F * list NOut * shard_counts) (i : nat) (raw : bytes)
    : res (NodeState F * list NOut * shard_counts) :=
  let '(n, o, snt) := st in
  '(n, o1) ← send_at n i raw; Ok (n, o ++ o1, dadd snt (Z.of_nat i) 1).

Fixpoint count_each (st : NodeState F * list NOut * shard_counts) (l : list (nat * bytes))
    : res (NodeState F * list NOut * shard_counts) :=
  match l with
  | [] => Ok st
  | (i, raw) :: l => st ← count_to st i raw; count_each st l
  end.

(** The routes of one result: all of them, or the affinity's. *)
Definition result_routes (nroutes : nat) (raw : bytes) (affinity : Z) : res (list (nat * bytes)) :=
  if broadcast_downstream then Ok ((λ i, (i, raw)) <$> List.seq 0 nroutes)
  else
    _ ← guard_exc ZeroDivisionError (negb (nroutes =? 0)%nat);
    Ok [(Z.to_nat (affinity mod Z.of_nat nroutes), raw)].

Fixpoint send_results (st : NodeState F * list NOut * shard_counts) (l : list (Body * Z))
    : res (NodeState F * list NOut * shard_counts) :=
  match l with
  | [] => Ok st
  | (b, affinity) :: l =>
      raw ← serialize (new_msg b);
      routes ← result_routes (length (n_txs st.1.1)) raw affinity;
      st ← count_each st routes;
      send_results st l
  end.

Definition RingAggregate : App F := {|
  app_data n m := f ← aggregate fn (n_fn n) (body_ m); Ok (set_fn n f, []);
  app_result n c :=
    '(f, l) ← get_result fn (n_fn n) c; send_results (set_fn n f, [], []) l;
  app_discard n c := set_fn n (discard fn (n_fn n) c);
  app_free n c := set_fn n (discard fn (n_fn n) c)
|}.
End controllers.
Arguments AggregateFn F : clear implicits.

(** ** What a node reports is what it sent *)

(** How many of the outputs went to route [i]. *)
Definition sent_to (i : nat) (o : list NOut) : Z :=
  zsum ((λ x, match x with ToTx j _ => if decide (j = i) then 1 else 0 | ToRing _ => 0 end) <$> o).

Lemma sent_to_app i o1 o2 : sent_to i (o1 ++ o2) = sent_to i o1 + sent_to i o2.
Proof. unfold sent_to. by rewrite fmap_app, zsum_app. Qed.
Lemma sent_to_nil i : sent_to i [] = 0.
Proof. done. Qed.
Lemma sent_to_one i j raw : sent_to i [ToTx j raw] = if decide (j = i) then 1 else 0.
Proof. unfold sent_to. cbn. case_decide; lia. Qed.

(** The count a node keeps for a client and a route. *)
Definition count_of {F} (n : NodeState F) (c : uuid) (i : nat) : Z :=
  dget_or 0 (dget_or [] (counts_ (n_sent n)) c) (Z.of_nat i).

(** A processing step of client [c] that counts every send it makes. *)
Definition counts_sends {F} (c : uuid) (n n' : NodeState F) (o : list NOut) : Prop :=
  ∀ c' i, count_of n' c' i = count_of n c' i + (if decide (c = c') then sent_to i o else 0).

Section counts.
Context {F : Type}.
Implicit Types (n : NodeState F) (c : uuid).

Lemma counts_sends_refl c n : counts_sends c n n [].
Proof. intros c' i. rewrite sent_to_nil. case_decide; lia. Qed.

Lemma counts_sends_trans c n1 n2 n3 o1 o2 :
  counts_sends c n1 n2 o1 → counts_sends c n2 n3 o2 → counts_sends c n1 n3 (o1 ++ o2).
Proof. intros H1 H2 c' i. rewrite H2, H1, sent_to_app. case_decide; lia. Qed.

Lemma count_of_sc_add n c j c' i :
  count_of (set_sent n (sc_add (n_sent n) c (Z.of_nat j))) c' i =
    count_of n c' i + (if decide (c = c') then if decide (j = i) then 1 else 0 else 0).
Proof.
  unfold count_of, sc_add. cbn [counts_ n_sent set_sent]. rewrite dget_or_dset. destruct (decide (c = c')) as [<-|Hc].
  - rewrite decide_True by done. rewrite dget_or_dadd. f_equal.
    destruct (decide (j = i)) as [<-|Hj]; [by rewrite decide_True|].
    rewrite decide_False; [done|]. unfold pyeq. cbn. unfold id. lia.
  - rewrite decide_False by done. lia.
Qed.

Lemma steps_counts {A} (f : NodeState F → A → res (NodeState F * list NOut)) c n l n' o :
  (∀ n a n' o, a ∈ l → f n a = Ok (n', o) → counts_sends c n n' o) →
  steps f n l = Ok (n', o) → counts_sends c n n' o.
Proof.
  revert n o. induction l as [|a l IH]; intros n o Hf Hs; cbn [steps] in Hs.
  - injection Hs as <- <-. apply counts_sends_refl.
  - apply bind_Ok in Hs as ([n1 o1] & H1 & Hs). apply bind_Ok in Hs as ([n2 o2] & H2 & Hs).
    injection Hs as <- <-. eapply counts_sends_trans; [eapply Hf; [left|exact H1]|].
    eapply IH; [|exact H2]. intros. eapply Hf; [by right|done].
Qed.

Lemma send_at_spec n i message n' o :
  send_at n i message = Ok (n', o) →
  ∃ tx raw, n' = set_txs n (<[i := tx]> (n_txs n)) ∧ o = [ToTx i raw].
Proof.
  unfold send_at. intros H. apply bind_Ok in H as (tx & Htx & H).
  destruct (sm_send tx message) as [tx' r]. apply bind_Ok in H as (raw & Hr & H).
  injection H as <- <-. eauto.
Qed.

Lemma send_stamped_at_spec n i message p q n' o :
  send_stamped_at n i message p q = Ok (n', o) →
  ∃ tx raw, n' = set_txs n (<[i := tx]> (n_txs n)) ∧ o = [ToTx i raw].
Proof.
  unfold send_stamped_at. intros H. apply bind_Ok in H as (tx & Htx & H).
  destruct (sm_send_stamped tx message p q) as [tx' r]. apply bind_Ok in H as (raw & Hr & H).
  injection H as <- <-. eauto.
Qed.

(** Sending to a route and then counting it. *)
Lemma send_and_count c n n1 i tx raw :
  n1 = set_txs n (<[i := tx]> (n_txs n)) →
  counts_sends c n (add_sent n1 c (Z.of_nat i)) [ToTx i raw].
Proof. intros -> c' j. unfold add_sent. rewrite count_of_sc_add, sent_to_one. done. Qed.
End counts.

Section app_counts.
Context `{MP : MsgPack} {F : Type} `{!Snapshotable F}.
Implicit Types (n : NodeState F) (m : Message) (c : uuid).

(** What the subclass promises: its processing of a client's message counts its
    sends, and at the end it reports the counts of the client. *)
Class StatelessApp (app : App F) := {
  data_counts n m n' o c :
    body_client (body_ m) = Some c → app_data app n m = Ok (n', o) → counts_sends c n n' o;
  result_counts n c : app_result app n c = stateless_result n c
}.

Lemma filter_to_counts flt m n i n' o c :
  body_client (body_ m) = Some c → filter_to flt m n i = Ok (n', o) → counts_sends c n n' o.
Proof.
  intros Hc H. unfold filter_to in H. rewrite Hc in H. cbn [of_opt mbind res_bind] in H.
  apply bind_Ok in H as (b & _ & H). apply bind_Ok in H as (raw & _ & H).
  apply bind_Ok in H as ([n1 o1] & H1 & H). injection H as <- <-.
  apply send_stamped_at_spec in H1 as (tx & raw' & Hn & ->). by eapply send_and_count.
Qed.

#[export] Instance RingFilter_stateless flt : StatelessApp (RingFilter flt).
Proof.
  split; [|done]. intros n m n' o c Hc H. cbn in H. unfold ring_filter_data in H.
  apply bind_Ok in H as (sh & _ & H). by eapply filter_to_counts.
Qed.

Lemma sharded_copies_counts m c routes : body_client (body_ m) = Some c →
  ∀ n base n' o, sharded_copies m n base routes = Ok (n', o) → counts_sends c n n' o.
Proof.
  intros Hc. induction routes as [|[size flt] routes IH]; intros n base n' o H; cbn in H.
  - injection H as <- <-. apply counts_sends_refl.
  - apply bind_Ok in H as (i & _ & H). apply bind_Ok in H as ([n1 o1] & H1 & H).
    apply bind_Ok in H as ([n2 o2] & H2 & H). injection H as <- <-.
    eapply counts_sends_trans; [by eapply filter_to_counts|by eapply IH].
Qed.

#[export] Instance RingBroadcastFilter_stateless broadcast sharded :
  StatelessApp (RingBroadcastFilter broadcast sharded).
Proof.
  split; [|done]. intros n m n' o c Hc H. cbn in H. unfold ring_broadcast_data in H.
  apply bind_Ok in H as ([n1 o1] & H1 & H). apply bind_Ok in H as ([n2 o2] & H2 & H).
  injection H as <- <-. eapply counts_sends_trans; [|by eapply sharded_copies_counts].
  eapply steps_counts; [|exact H1].
  intros n0 ik n0' o0 _ H0. by apply (filter_to_counts ik.2 m n0 ik.1).
Qed.

Lemma group_to_fleets_counts c payload affinity fleets :
  ∀ n base n' o, 0 ≤ base → group_to_fleets c payload affinity n base fleets = Ok (n', o) →
  counts_sends c n n' o.
Proof.
  induction fleets as [|size fleets IH]; intros n base n' o Hb H; cbn [group_to_fleets] in H.
  - injection H as <- <-. apply counts_sends_refl.
  - apply bind_Ok in H as (u & Hs & H). apply bind_Ok in H as ([n1 o1] & H1 & H).
    apply bind_Ok in H as ([n2 o2] & H2 & H). injection H as <- <-.
    assert (0 < Z.of_nat size).
    { unfold guard_exc in Hs. destruct (size =? 0)%nat eqn:E; [done|]. apply Nat.eqb_neq in E. lia. }
    pose proof (Z.mod_pos_bound affinity (Z.of_nat size) ltac:(lia)).
    apply send_at_spec in H1 as (tx & raw & Hn & ->).
    eapply counts_sends_trans; [|eapply IH; [|exact H2]; lia].
    pose proof (send_and_count c n n1 _ tx raw Hn) as Hsc. by rewrite Z2Nat.id in Hsc by lia.
Qed.

#[export] Instance RingGroupBy_stateless group_by fleets : StatelessApp (RingGroupBy group_by fleets).
Proof.
  split; [|done]. intros n m n' o c Hc H. cbn in H. unfold ring_group_by_data in H.
  rewrite Hc in H. cbn [of_opt mbind res_bind] in H. apply bind_Ok in H as (gs & _ & H).
  eapply steps_counts; [|exact H]. intros n1 ga n1' o1 _ H1.
  apply bind_Ok in H1 as (payload & _ & H1). by eapply (group_to_fleets_counts _ _ _ _ _ 0).
Qed.

(** A node processes data messages of any clients, in order; each output with the
    client it was made for. *)
Fixpoint data_run (app : App F) n (ms : list Message) : res (NodeState F * list (uuid * NOut)) :=
  match ms with
  | [] => Ok (n, [])
  | m :: ms =>
      c ← of_opt AttributeError (body_client (body_ m));
      '(n, o) ← app_data app n m;
      '(n, os) ← data_run app n ms;
      Ok (n, ((λ x, (c, x)) <$> o) ++ os)
  end.

Definition outs_of c (os : list (uuid * NOut)) : list NOut := (filter (λ x, x.1 = c) os).*2.

Lemma outs_of_own c o : outs_of c ((λ x, (c, x)) <$> o) = o.
Proof.
  unfold outs_of. rewrite filter_Forall_all.
  - rewrite <- list_fmap_compose. apply list_fmap_id.
  - apply Forall_forall. by intros x (y & -> & _)%list_elem_of_fmap.
Qed.

Lemma outs_of_other c c' o : c ≠ c' → outs_of c' ((λ x, (c, x)) <$> o) = [].
Proof.
  intros Hne. unfold outs_of. rewrite filter_Forall_none; [done|].
  apply Forall_forall. by intros x (y & -> & _)%list_elem_of_fmap.
Qed.

Lemma data_run_counts (app : App F) `{!StatelessApp app} ms n n' os :
  data_run app n ms = Ok (n', os) →
  ∀ c i, count_of n' c i = count_of n c i + sent_to i (outs_of c os).
Proof.
  revert n os. induction ms as [|m ms IH]; intros n os H c i; cbn [data_run] in H.
  - injection H as <- <-. change (outs_of c []) with (@nil NOut). rewrite sent_to_nil. lia.
  - apply bind_Ok in H as (c0 & Hc0%of_opt_Ok & H). apply bind_Ok in H as ([n1 o1] & H1 & H).
    apply bind_Ok in H as ([n2 os2] & H2 & H). injection H as <- <-.
    rewrite (IH _ _ H2), (data_counts _ _ _ _ c0 Hc0 H1).
    unfold outs_of. rewrite filter_app, fmap_app, sent_to_app.
    fold (outs_of c ((λ x, (c0, x)) <$> o1)). fold (outs_of c os2).
    destruct (decide (c0 = c)) as [->|Hne]; [rewrite outs_of_own; lia|].
    rewrite outs_of_other by done. rewrite sent_to_nil. lia.
Qed.
End app_counts.

(** ** Aggregates count their results as they send them *)

Section aggregate_counts.
Context `{MP : MsgPack} {F : Type} `{!Snapshotable F}.
Context (fn : AggregateFn F) (broadcast : bool).
Implicit Types (n : NodeState F) (c : uuid).

Definition counted (st : NodeState F * list NOut * shard_counts) : Prop :=
  ∀ i, dget_or 0 st.2 (Z.of_nat i) = sent_to i st.1.2.

Lemma count_to_counted st i raw st' : counted st → count_to st i raw = Ok st' → counted st'.
Proof.
  destruct st as [[n o] snt]. intros Hc H. unfold counted in Hc. cbn [fst snd] in Hc. unfold count_to in H.
  apply bind_Ok in H as ([n1 o1] & H1 & H). injection H as <-.
  apply send_at_spec in H1 as (tx & raw' & _ & ->). intros j. cbn [fst snd].
  rewrite dget_or_dadd, sent_to_app, sent_to_one, (Hc j). cbn [fst snd].
  destruct (decide (i = j)) as [->|Hij]; [by rewrite decide_True|].
  rewrite decide_False; [lia|]. unfold pyeq. cbn. unfold id. lia.
Qed.

Lemma count_each_counted l st st' : counted st → count_each st l = Ok st' → counted st'.
Proof.
  revert st. induction l as [|[i raw] l IH]; intros st Hc H; cbn [count_each] in H.
  - by injection H as <-.
  - apply bind_Ok in H as (st1 & H1 & H). eapply IH; [|exact H]. by eapply count_to_counted.
Qed.

Lemma send_results_counted l st st' :
  counted st → send_results broadcast st l = Ok st' → counted st'.
Proof.
  revert st. induction l as [|[b affinity] l IH]; intros st Hc H; cbn [send_results] in H.
  - by injection H as <-.
  - apply bind_Ok in H as (raw & _ & H). apply bind_Ok in H as (routes & _ & H).
    apply bind_Ok in H as (st1 & H1 & H). eapply IH; [|exact H]. by eapply count_each_counted.
Qed.
End aggregate_counts.

(** ** Effects of the handlers *)

Section handler_effects.
Context `{MP : MsgPack} {F : Type} `{!Snapshotable F} (app : App F).
Implicit Types (n : NodeState F) (c : uuid).

(** [run_leaf] is never handed an [Emit]: only data and EOFs complete a client. *)
Lemma report_sent_no_emit rc c snt : Forall (λ a, ∀ c', a ≠ Emit c') (report_sent rc c snt).2.
Proof.
  unfold report_sent, advance_token. rewrite (surjective_pairing (client_ rc c)).
  destruct (negb _); [constructor|]. destruct (negb _); [constructor|].
  repeat (destruct (_ <? _) || destruct (negb _) || destruct (bool_decide _) || destruct (client_ _ _));
    repeat constructor; done.
Qed.

Lemma on_token_no_emit rc t : Forall (λ a, ∀ c', a ≠ Emit c') (on_token rc t).2.
Proof.
  unfold on_token, advance_token. destruct (smem _ _); [constructor|].
  rewrite (surjective_pairing (client_ rc (tok_client t))).
  repeat (destruct (_ <? _) || destruct (negb _) || destruct (bool_decide _) || destruct (client_ _ _));
    repeat constructor; done.
Qed.

Lemma length_send_at n i message n' o :
  send_at n i message = Ok (n', o) → length (n_txs n') = length (n_txs n).
Proof.
  intros (tx & raw & -> & ->)%send_at_spec. cbn. apply length_insert.
Qed.

(** One unstamped control message to every route from [i] on. *)
Lemma control_to_all (mk : nat → Message) n k i :
  (i + k = length (n_txs n))%nat →
  (∀ j, body_type (body_ (mk j)) ∈ [T_EOF; T_ABORT]) →
  (∀ j, body_wf (body_ (mk j)) ∧ producer_id (mk j) = DEFAULT_PRODUCER ∧ seq (mk j) = 0) →
  ∃ raws, mapR (λ j, serialize (mk j)) (List.seq i k) = Ok raws ∧
    steps (λ n j, raw ← serialize (mk j); send_at n j raw) n (List.seq i k) =
      Ok (n, imap (λ j raw, ToTx (i + j) raw) raws).
Proof.
  intros Hk Ht Hwf. revert i Hk. induction k as [|k IH]; intros i Hk; cbn [List.seq mapR steps].
  { exists []. done. }
  destruct (Hwf i) as (Hb & Hp & Hs).
  destruct (deserialize_serialize (mk i)) as (raw & Hraw & _);
    [done|by rewrite Hp|by rewrite Hs|].
  destruct (IH (S i)) as (raws & Hm & Hst); [lia|].
  exists (raw :: raws). rewrite Hraw. cbn [mbind res_bind]. rewrite Hm. cbn [mbind res_bind].
  split; [done|].
  assert (Hlt : (i < length (n_txs n))%nat) by lia.
  destruct (lookup_lt_is_Some_2 _ _ Hlt) as [tx Htx].
  assert (Hsend : send_at n i raw = Ok (n, [ToTx i raw])).
  { unfold send_at. rewrite Htx. cbn [of_opt mbind res_bind]. unfold sm_send.
    rewrite (peek_serialize (mk i) raw Hraw).
    assert (unstamped (type_int (body_type (body_ (mk i)))) = true) as ->.
    { specialize (Ht i). apply elem_of_cons in Ht as [->|Ht]; [done|].
      apply list_elem_of_singleton in Ht as ->. done. }
    cbn [mbind res_bind]. rewrite list_insert_id by done. by destruct n. }
  rewrite Hsend. cbn [mbind res_bind]. rewrite Hst. cbn [mbind res_bind].
  do 2 f_equal. rewrite imap_cons, Nat.add_0_r. cbn. f_equal.
  apply imap_ext. intros j x _. cbn. f_equal. lia.
Qed.
End handler_effects.

(** ** The claims *)

Section node_claims.
Context `{MP : MsgPack} {F : Type} `{!Snapshotable F}.

(** A filter or group-by reports exactly what it sent: after processing any
    sequence of data messages of any clients, the per-shard counts it hands to the
    barrier for a client are the numbers of messages it sent to each downstream
    route on behalf of that client. *)
Theorem stateless_report_exact (app : App F) `{!StatelessApp app} (n0 n : NodeState F)
    (ms : list Message) (os : list (uuid * NOut)) (c : uuid) :
  n_sent n0 = sc_init → data_run app n0 ms = Ok (n, os) →
  ∃ n' cnt, app_result app n c = Ok (n', [], cnt) ∧
    ∀ i, dget_or 0 cnt (Z.of_nat i) = sent_to i (outs_of c os).
Proof.
  intros H0 Hr. rewrite result_counts. do 2 eexists. split; [done|]. intros i.
  pose proof (data_run_counts app ms n0 n os Hr c i) as H. unfold count_of in H.
  rewrite H0 in H. cbn in H. exact H.
Qed.

(** C13: an aggregate reports exactly what it sends at the end of a client's
    input: the count of each route is the number of results sent to it, whether
    results are sharded by affinity or broadcast. *)
Theorem aggregate_report_exact (fn : AggregateFn F) (broadcast : bool) (n n' : NodeState F)
    (c : uuid) (o : list NOut) (cnt : shard_counts) :
  app_result (RingAggregate fn broadcast) n c = Ok (n', o, cnt) →
  ∀ i, dget_or 0 cnt (Z.of_nat i) = sent_to i o.
Proof.
  intros H. cbn in H. apply bind_Ok in H as ([f l] & _ & H).
  by apply (send_results_counted broadcast l (set_fn n f, [], [])) in H.
Qed.

(** C15: the EOF that completes a client's input is checkpointed before the first
    result leaves: the effects are, in order, a checkpoint of the state with the
    EOF recorded, the acks it covers, the results and the EOFs, and a checkpoint of
    the state after them. *)
Theorem eof_checkpoint_first (app : App F) (cp : Checkpointer nat) (n n' : NodeState F)
    (cp' : option (Checkpointer nat)) (c : uuid) (k : Z) effs :
  let '(rc, actions) := on_upstream_eof (n_rc n) c k in
  actions ≠ [] → on_eof_ app (Some cp) n c k = Ok (cp', n', effs) →
  ∃ o (cp2 : Checkpointer nat) n2, run_ app (set_rc n rc) actions = Ok (n2, o) ∧
    effs = (Save (blob_of cp (world_of (set_rc n rc))) :: (Ack <$> cp_pending cp)) ++
           (Send <$> o) ++ [Save (blob_of cp2 (world_of n2))] ∧
    n' = foldl (app_free app) n2 (emitted actions).
Proof.
  unfold on_eof_. destruct (on_upstream_eof (n_rc n) c k) as [rc actions]. intros Hne H.
  destruct actions as [|a actions]; [done|]. unfold flush_node, flush, checkpoint_and_flush in H.
  rewrite orb_true_r in H. apply bind_Ok in H as ([n2 o] & Ho & H).
  rewrite orb_true_r in H. injection H as <- <- <-.
  do 3 eexists. split; [exact Ho|]. split; [|done]. done.
Qed.

(** A client's abort is durable before it is passed on: the handler first
    forgets and tombstones the client, checkpoints that, and only then sends one
    [Abort] to every downstream route. *)
Theorem abort_durable_before_forwarding (app : App F) (cp : Checkpointer nat) (n : NodeState F)
    (c : uuid) :
  let nd := app_discard app (set_rc n (drop_client (n_rc n) c)) c in
  ∃ (cp' : Checkpointer nat) raws, mapR (λ _, serialize (new_msg (Abort c))) (List.seq 0 (length (n_txs nd))) = Ok raws ∧
    on_abort_ app (Some cp) n c =
      Ok (Some cp', nd, (Save (blob_of (mark_aborted cp c) (world_of nd)) :: (Ack <$> cp_pending cp))
                        ++ (Send <$> imap (λ i raw, ToTx i raw) raws)) ∧
    is_aborted cp' c = true.
Proof.
  intros nd. unfold on_abort_. fold nd.
  unfold flush_node, flush, checkpoint_and_flush. rewrite orb_true_r. unfold downstream_abort.
  destruct (control_to_all (λ _, new_msg (Abort c)) nd (length (n_txs nd)) 0) as (raws & H1 & H2).
  - lia.
  - intros _. right. left.
  - by intros _.
  - rewrite H2. cbn [mbind res_bind]. do 2 eexists. split; [exact H1|]. split; [reflexivity|].
    apply smem_sadd. by right.
Qed.

(** Closing the barrier tells every downstream peer how much to expect: the
    leader sends exactly one EOF per route, in route order, each with that route's
    total (0 for a route nothing was sent to). *)
Theorem downstream_eof_exact (n : NodeState F) (c : uuid) (totals : shard_counts) :
  (∀ i, int64_ok (dget_or 0 totals i) = true) →
  ∃ raws, mapR (λ i, serialize (shard_eof c (dget_or 0 totals (Z.of_nat i))))
            (List.seq 0 (length (n_txs n))) = Ok raws ∧
    downstream_eof n c totals = Ok (n, imap (λ i raw, ToTx i raw) raws).
Proof.
  intros Hok. unfold downstream_eof.
  destruct (control_to_all (λ i, shard_eof c (dget_or 0 totals (Z.of_nat i))) n (length (n_txs n)) 0)
    as (raws & H1 & H2).
  - lia.
  - intros j. left.
  - intros j. split; [|done]. cbn -[dget_or]. split_and!; [done|apply Hok|done..| ].
    split; [|constructor]. split; [apply nil_wf|constructor].
  - exists raws. split; [exact H1|]. exact H2.
Qed.
End node_claims.

(** *** Witnesses *)

#[local] Existing Instance msgpack_model.

Definition demo_node : NodeState unit :=
  mkNode_ (rc_init 0 []) sc_init
    [mkSM (uuid_bytes (uuid_lit 21)) seq_init; mkSM (uuid_bytes (uuid_lit 22)) seq_init] tt.
Definition demo_data (sq : Z) : Message :=
  mkMsg (TransactionCount (uuid_lit 7) 3) (uuid_bytes (uuid_lit 2)) sq.

Lemma stateless_report_exact_witness :
  ∃ n os n' cnt,
    data_run (RingFilter Ok) demo_node
      [demo_data 1; demo_data 2; demo_data 3] = Ok (n, os) ∧
    app_result (RingFilter Ok) n (uuid_lit 7) = Ok (n', [], cnt) ∧
    ∀ i, dget_or 0 cnt (Z.of_nat i) = sent_to i (outs_of (uuid_lit 7) os).
Proof.
  destruct (data_run (RingFilter Ok) demo_node [demo_data 1; demo_data 2; demo_data 3])
    as [[n os]|] eqn:E; [|vm_compute in E; discriminate E].
  destruct (stateless_report_exact (RingFilter Ok) demo_node n
    [demo_data 1; demo_data 2; demo_data 3] os (uuid_lit 7) eq_refl E) as (n' & cnt & H1 & H2).
  exists n, os, n', cnt. split; [reflexivity|]. split; [exact H1|exact H2].
Defined.

(** An aggregate that keeps nothing and sends two results. *)
Definition demo_fn : AggregateFn unit := {|
  aggregate f _ := Ok f;
  get_result f c := Ok (f, [(TransactionCount c 1, 4); (TransactionCount c 2, 5)]);
  discard f _ := f
|}.

Lemma aggregate_report_exact_witness :
  ∃ n' o cnt,
    app_result (RingAggregate demo_fn false) demo_node (uuid_lit 7)
      = Ok (n', o, cnt) ∧ dget_or 0 cnt 1 = sent_to 1 o.
Proof.
  do 3 eexists.
  split; [|refine (aggregate_report_exact demo_fn false demo_node _
                     (uuid_lit 7) _ _ _ 1%nat)]; vm_compute; reflexivity.
Defined.

Lemma eof_checkpoint_first_witness :
  ∃ cp' n' effs o (cp2 : Checkpointer nat) n2,
    on_eof_ (RingFilter Ok) (Some (cp_new 5)) demo_node
      (uuid_lit 7) 0 = Ok (cp', n', effs) ∧
    effs = [Save (blob_of (cp_new (Tag:=nat) 5) (world_of (set_rc demo_node
              (on_upstream_eof (n_rc demo_node) (uuid_lit 7) 0).1)))] ++
           (Send <$> o) ++ [Save (blob_of cp2 (world_of n2))].
Proof.
  assert (Hok : is_ok (on_eof_ (RingFilter Ok) (Some (cp_new 5)) demo_node (uuid_lit 7) 0) = true)
    by (vm_compute; reflexivity).
  destruct (on_eof_ (RingFilter Ok) (Some (cp_new 5)) demo_node (uuid_lit 7) 0)
    as [[[cp' n'] effs]|] eqn:E; [|discriminate Hok].
  pose proof (eof_checkpoint_first (RingFilter Ok) (cp_new 5) demo_node n' cp' (uuid_lit 7) 0 effs) as H.
  assert (Hne : (on_upstream_eof (n_rc demo_node) (uuid_lit 7) 0).2 ≠ [])
    by (vm_compute; intros Hd; discriminate Hd).
  destruct (on_upstream_eof (n_rc demo_node) (uuid_lit 7) 0) as [rc actions].
  destruct (H Hne E) as (o & cp2 & n2 & _ & He & _).
  exists cp', n', effs, o, cp2, n2. split; [reflexivity|exact He].
Defined.

Lemma downstream_eof_exact_witness :
  ∃ raws, downstream_eof demo_node (uuid_lit 7) [(0, 2); (1, 1)]
    = Ok (demo_node, imap (λ i raw, ToTx i raw) raws).
Proof.
  edestruct (downstream_eof_exact demo_node (uuid_lit 7) [(0, 2); (1, 1)])
    as (raws & _ & H).
  - intros i. unfold dget_or. cbn [dget]. repeat case_decide; reflexivity.
  - exists raws. exact H.
Defined.
