(* ===== verification/PyRepr.v ===== *)
(** * Printing: [repr(float)], padded fields, JSON

    [repr] of a float is the shortest decimal that reads back as the same float;
    [json.dumps] and [json.loads] on the values the spill files hold: strings,
    numbers and lists, with the default separators and ASCII escapes. *)

From Stdlib Require Import Floats.SpecFloat Numbers.DecimalString Numbers.DecimalPos Numbers.DecimalFacts.
From S2P Require Import Prelude.
From S2P Require Import PyDict.
From S2P Require Import PyValues.
From S2P Require Import PyText.
From S2P Require Import PyTime.
From S2P Require Import PyFloat.
From S2P Require Import Wire.

(** ** [repr(float)] *)

(** [v * 10^k] as a fraction, for [v = num / den]. *)
Definition scale10 (num den k : Z) : Z * Z :=
  if 0 <=? k then (num * 10 ^ k, den) else (num, den * 10 ^ (- k)).

(** The position of the decimal point: the least of the candidates around the
    estimate from the binary logarithm with [v < 10^k]. *)
Definition decimal_point (num den : Z) : Z :=
  let k0 := (Z.log2 num - Z.log2 den) * 30103 / 100000 in
  let below k := let '(a, b) := scale10 num den (- k) in a <? b in
  default (k0 + 3) (find below [k0 - 1; k0; k0 + 1; k0 + 2]).
Fixpoint strip_zeros (l : chars) : chars :=
  match l with
  | c :: l' => if bool_decide (c = chr 48) then strip_zeros l' else l
  | [] => []
  end.

Definition zeros (n : Z) : chars := replicate (Z.to_nat n) (chr 48).

(** The text of [0.digits * 10^decpt]: fixed notation in the usual range, else
    an exponent of at least two digits. *)
Definition format_repr (digits : chars) (decpt : Z) : chars :=
  let n := Z.of_nat (length digits) in
  if (-4 <? decpt) && (decpt <=? 16) then
    if decpt <=? 0 then chr 48 :: chr 46 :: zeros (- decpt) ++ digits
    else if n <=? decpt then digits ++ zeros (decpt - n) ++ [chr 46; chr 48]
    else take (Z.to_nat decpt) digits ++ chr 46 :: drop (Z.to_nat decpt) digits
  else
    let e := decpt - 1 in
    take 1 digits ++ (if 1 <? n then chr 46 :: drop 1 digits else [])
      ++ chr 101 :: (if 0 <=? e then c_plus else c_minus) :: pad0 2 (Z.abs e).

(** [d * 10^e] *)
Definition decimal_text (d e : Z) : chars :=
  let all := chars_of (str_int d) in
  let digits := reverse (strip_zeros (reverse all)) in
  format_repr digits (Z.of_nat (length all) + e).

(** The decimals of [n] digits on both sides of [v], the closest first. *)
Definition candidates (num den k : Z) (n : nat) : list chars :=
  let '(a, b) := scale10 num den (Z.of_nat n - k) in
  let lo := a / b in
  let e := k - Z.of_nat n in
  match Z.compare (2 * (a mod b)) b with
  | Lt => [decimal_text lo e; decimal_text (lo + 1) e]
  | Gt => [decimal_text (lo + 1) e; decimal_text lo e]
  | Eq => if Z.even lo then [decimal_text lo e; decimal_text (lo + 1) e]
          else [decimal_text (lo + 1) e; decimal_text lo e]
  end.

Definition with_sign (s : bool) (l : chars) : string := str_of (if s then c_minus :: l else l).

(** The shortest decimal that reads back as the float. *)
Definition float_repr (f : float) : string :=
  match f with
  | S754_nan => "nan"
  | S754_infinity s => if s then "-inf" else "inf"
  | S754_zero s => if s then "-0.0" else "0.0"
  | S754_finite s m e =>
      let '(num, den) := if 0 <=? e then (Zpos m * 2 ^ e, 1) else (Zpos m, 2 ^ (- e)) in
      let k := decimal_point num den in
      let all := List.flat_map (candidates num den k) (List.seq 1 17) in
      with_sign s (default (decimal_text (num / den) 0)
        (find (λ l, bool_decide (float_str (with_sign s l) = Ok f)) all))
  end.

(** The float is one that its text reads back as; the digits of every binary64
    number are found among the 17 tried. *)
Definition repr_exact (f : float) : bool := bool_decide (float_str (float_repr f) = Ok f).

Example float_repr_ex :
  float_repr <$> [f_of_dec 1 (-1); f_of_Z 50; f_of_dec 369734 (-2); f_of_dec 1 23;
                  f_of_dec 5684341886080802 (-29); fadd (f_of_dec 1 (-1)) (f_of_dec 2 (-1));
                  f_of_dec (-123456789012345678) (-1)]
  = ["0.1"; "50.0"; "3697.34"; "1e+23"; "5.684341886080802e-14"; "0.30000000000000004";
     "-1.2345678901234568e+16"]%string.
Proof. by vm_compute. Qed.

Example repr_exact_ex :
  forallb repr_exact [f_of_dec 1 (-1); f_of_dec 2013146 (-2); f_of_dec 5 (-324);
                      S754_zero true; S754_infinity true; S754_nan] = true.
Proof. by vm_compute. Qed.

(** [f"{s:<n}"] *)
Definition pad_right (n : nat) (s : string) : string :=
  let l := chars_of s in str_of (l ++ replicate (n - length l) c_space).

(** ** JSON *)

Definition c_quote : char := chr 34.
Definition c_backslash : char := chr 92.
Definition c_lbracket : char := chr 91.
Definition c_rbracket : char := chr 93.

(** [\uXXXX]: four hexadecimal digits. *)
Definition hex4 (n : Z) : chars := hex_split 4 n.

(** One character between quotes: the escapes of [json], ASCII only. *)
Definition json_escape (c : char) : chars :=
  let n := Ascii.nat_of_ascii c in
  if bool_decide (c = c_quote) || bool_decide (c = c_backslash) then [c_backslash; c]
  else if (n =? 10)%nat then [c_backslash; chr 110]
  else if (n =? 13)%nat then [c_backslash; chr 114]
  else if (n =? 9)%nat then [c_backslash; chr 116]
  else if (n =? 12)%nat then [c_backslash; chr 102]
  else if (n =? 8)%nat then [c_backslash; chr 98]
  else if ((n <? 32) || (126 <? n))%nat then c_backslash :: chr 117 :: hex4 (Z.of_nat n)
  else [c].

Definition json_string (s : string) : chars :=
  c_quote :: List.flat_map json_escape (chars_of s) ++ [c_quote].

(** [json.dumps] through the encoder of the source: UUIDs and datetimes as
    their text. (The lines written hold no dictionary.) *)
Fixpoint json_dumps (v : pyval) : res chars :=
  match v with
  | PStr s => Ok (json_string s)
  | PInt z => Ok (chars_of (str_int z))
  | PFloat f =>
      Ok (chars_of (match f with
                    | S754_nan => "NaN"
                    | S754_infinity s => if s then "-Infinity" else "Infinity"
                    | _ => float_repr f
                    end)%string)
  | PList l | PTuple l =>
      items ← (fix dumps_all (l : list pyval) : res (list chars) :=
                 match l with
                 | [] => Ok []
                 | v :: l => x ← json_dumps v; xs ← dumps_all l; Ok (x :: xs)
                 end) l;
      Ok (c_lbracket :: List.concat (
            match items with
            | [] => []
            | x :: xs => x :: ((λ y, c_comma :: c_space :: y) <$> xs)
            end) ++ [c_rbracket])
  | PBool b => Ok (chars_of (if b then "true" else "false")%string)
  | PNone => Ok (chars_of "null"%string)
  | PUUID u => Ok (json_string (uuid_str u))
  | PDatetime d => Ok (json_string (str_datetime d))
  | _ => Exc TypeError
  end.

(** *** Reading *)

Definition json_space (c : char) : bool :=
  bool_decide (Ascii.nat_of_ascii c ∈ [32; 9; 10; 13]%nat).
Fixpoint skip_ws (l : chars) : chars :=
  match l with
  | c :: l' => if json_space c then skip_ws l' else l
  | [] => []
  end.

(** The character a simple escape stands for. *)
Definition json_unescape (c : char) : option char :=
  let n := Ascii.nat_of_ascii c in
  if bool_decide (n ∈ [34; 92; 47]%nat) then Some c
  else if (n =? 110)%nat then Some (chr 10)
  else if (n =? 114)%nat then Some (chr 13)
  else if (n =? 116)%nat then Some (chr 9)
  else if (n =? 102)%nat then Some (chr 12)
  else if (n =? 98)%nat then Some (chr 8)
  else None.

(** The rest of a string after its opening quote. Characters above 255 have no
    counterpart in [string]. *)
Fixpoint json_string_body (l : chars) : option (chars * chars) :=
  match l with
  | [] => None
  | c :: l =>
      if bool_decide (c = c_quote) then Some ([], l)
      else if bool_decide (c = c_backslash) then
        match l with
        | [] => None
        | d :: l =>
            if bool_decide (d = chr 117) then
              match l with
              | h1 :: h2 :: h3 :: h4 :: l =>
                  n ← hex_combine [h1; h2; h3; h4];
                  if n <? 256 then '(s, r) ← json_string_body l; Some (chr (Z.to_nat n) :: s, r)
                  else None
              | _ => None
              end
            else
              x ← json_unescape d; '(s, r) ← json_string_body l; Some (x :: s, r)
        end
      else if (Ascii.nat_of_ascii c <? 32)%nat then None
      else '(s, r) ← json_string_body l; Some (c :: s, r)
  end.

(** A number: an integer part without leading zeros, a fraction and an exponent;
    an [int] when neither of the last two is there. *)
Definition json_int_part (l : chars) : option (chars * chars) :=
  match span_digits l with
  | ([], _) => None
  | (d :: ds, r) => if bool_decide (d = chr 48) then Some ([d], ds ++ r) else Some (d :: ds, r)
  end.

Definition json_frac (l : chars) : chars * chars :=
  match l with
  | c :: l' =>
      if bool_decide (c = chr 46) then
        match span_digits l' with ([], _) => ([], l) | (ds, r) => (c :: ds, r) end
      else ([], l)
  | [] => ([], [])
  end.

Definition json_exp (l : chars) : chars * chars :=
  match l with
  | c :: l' =>
      if bool_decide (lower c = chr 101) then
        let '(sg, l1) := match l' with
                         | s :: l1 => if bool_decide (s = c_plus) || bool_decide (s = c_minus)
                                      then ([s], l1) else ([], l')
                         | [] => ([], l')
                         end in
        match span_digits l1 with ([], _) => ([], l) | (ds, r) => (c :: sg ++ ds, r) end
      else ([], l)
  | [] => ([], [])
  end.

Definition res_opt {A} (r : res A) : option A := match r with Ok a => Some a | Exc _ => None end.

Definition json_number (l : chars) : option (pyval * chars) :=
  let '(sg, l1) := match l with
                   | c :: l' => if bool_decide (c = c_minus) then ([c], l') else ([], l)
                   | [] => ([], l)
                   end in
  '(ds, r) ← json_int_part l1;
  let '(fr, r) := json_frac r in
  let '(ex, r) := json_exp r in
  match fr ++ ex with
  | [] => z ← res_opt (int_str (str_of (sg ++ ds))); Some (PInt z, r)
  | t => f ← res_opt (float_str (str_of (sg ++ ds ++ t))); Some (PFloat f, r)
  end.

(** A fixed word at the head of the text. *)
Definition json_word (w : string) (v : pyval) (l : chars) : option (pyval * chars) :=
  let n := length (chars_of w) in
  if bool_decide (take n l = chars_of w) then Some (v, drop n l) else None.

Definition json_constant (l : chars) : option (pyval * chars) :=
  let or a b := match a with Some x => Some x | None => b end in
  or (json_word "null" PNone l) (or (json_word "true" (PBool true) l)
    (or (json_word "false" (PBool false) l) (or (json_word "NaN" (PFloat S754_nan) l)
      (or (json_word "Infinity" (PFloat (S754_infinity false)) l)
        (or (json_word "-Infinity" (PFloat (S754_infinity true)) l) (json_number l)))))).

Fixpoint json_value (fuel : nat) (l : chars) : option (pyval * chars) :=
  match fuel with
  | O => None
  | S fuel =>
      match l with
      | [] => None
      | c :: l' =>
          if bool_decide (c = c_quote) then
            '(s, r) ← json_string_body l'; Some (PStr (str_of s), r)
          else if bool_decide (c = c_lbracket) then
            match skip_ws l' with
            | [] => None
            | d :: r =>
                if bool_decide (d = c_rbracket) then Some (PList [], r)
                else '(vs, r) ← json_items fuel (d :: r); Some (PList vs, r)
            end
          else json_constant l
      end
  end
with json_items (fuel : nat) (l : chars) : option (list pyval * chars) :=
  match fuel with
  | O => None
  | S fuel =>
      '(v, r) ← json_value fuel l;
      match skip_ws r with
      | c :: r =>
          if bool_decide (c = c_rbracket) then Some ([v], r)
          else if bool_decide (c = c_comma) then
            '(vs, r) ← json_items fuel (skip_ws r); Some (v :: vs, r)
          else None
      | [] => None
      end
  end.

(** [json.loads] of a text of strings, numbers, constants and lists; the length
    of the text bounds the nesting. *)
Definition json_loads (s : chars) : res pyval :=
  of_opt ValueError (
    '(v, r) ← json_value (length s) (skip_ws s);
    match skip_ws r with [] => Some v | _ => None end).

(** ** Round trip *)

(** What a reader gets back: tuples as lists, identifiers and dates as text. *)
Fixpoint jnorm (v : pyval) : pyval :=
  match v with
  | PList l | PTuple l => PList (jnorm <$> l)
  | PUUID u => PStr (uuid_str u)
  | PDatetime d => PStr (str_datetime d)
  | v => v
  end.

Definition json_float_text (f : float) : chars :=
  chars_of (match f with
            | S754_nan => "NaN"
            | S754_infinity s => if s then "-Infinity" else "Infinity"
            | _ => float_repr f
            end)%string.

(** The number scanner takes the whole text of the float, and gives it back. *)
Definition json_exact (f : float) : bool :=
  match f with
  | S754_nan | S754_infinity _ => true
  | _ => match json_number (json_float_text f) with
         | Some (PFloat g, []) => bool_decide (g = f)
         | _ => false
         end
  end.

Example json_exact_ex :
  forallb json_exact [f_of_dec 1 (-1); f_of_dec 2013146 (-2); f_of_dec 5 (-324); f_of_dec (-1) 23;
                      S754_zero true; f_of_Z 50] = true.
Proof. by vm_compute. Qed.

Fixpoint json_ok (v : pyval) : bool :=
  match v with
  | PFloat f => json_exact f
  | PList l | PTuple l => forallb json_ok l
  | PBytes _ | PDict _ => false
  | _ => true
  end.

Lemma json_string_body_cons c l :
  json_string_body (json_escape c ++ l) = ('(s, r) ← json_string_body l; Some (c :: s, r)).
Proof. by destruct c as [[] [] [] [] [] [] [] []]. Qed.

Lemma json_string_body_escape l rest :
  json_string_body (List.flat_map json_escape l ++ c_quote :: rest) = Some (l, rest).
Proof.
  induction l as [|c l IH]; [done|]. cbn [List.flat_map].
  by rewrite <- app_assoc, json_string_body_cons, IH.
Qed.

(** What may follow a number in a line. *)
Definition number_end (l : chars) : Prop :=
  match l with [] => True | c :: _ => c = c_comma ∨ c = c_rbracket ∨ c = c_newline end.

Lemma span_digits_app l ds r rest :
  number_end rest → span_digits l = (ds, r) → span_digits (l ++ rest) = (ds, r ++ rest).
Proof.
  intros Hr. revert ds r. induction l as [|c l IH]; intros ds r H; cbn in *.
  - simplify_eq. destruct rest as [|c rest]; [done|]. by destruct Hr as [-> | [-> | ->]].
  - destruct (is_digit c); [|by simplify_eq].
    destruct (span_digits l) as [d r0]. simplify_eq. by rewrite (IH _ _ eq_refl).
Qed.

Lemma json_int_part_app l ds r rest :
  number_end rest → json_int_part l = Some (ds, r) → json_int_part (l ++ rest) = Some (ds, r ++ rest).
Proof.
  intros Hr. unfold json_int_part. destruct (span_digits l) as [d r0] eqn:E.
  rewrite (span_digits_app _ _ _ _ Hr E). destruct d as [|c d]; [done|].
  case_bool_decide; intros; simplify_eq; [|done]. by rewrite app_assoc.
Qed.

Lemma json_frac_app l fr r rest :
  number_end rest → json_frac l = (fr, r) → json_frac (l ++ rest) = (fr, r ++ rest).
Proof.
  intros Hr. destruct l as [|c l]; cbn.
  - intros. simplify_eq. destruct rest as [|c rest]; [done|]. by destruct Hr as [-> | [-> | ->]].
  - case_bool_decide as Hc; [|by intros; simplify_eq].
    destruct (span_digits l) as [d r0] eqn:E. rewrite (span_digits_app _ _ _ _ Hr E).
    by destruct d; intros; simplify_eq.
Qed.

Lemma json_exp_app l ex r rest :
  number_end rest → json_exp l = (ex, r) → json_exp (l ++ rest) = (ex, r ++ rest).
Proof.
  intros Hr. destruct l as [|c l]; cbn -[lower].
  - intros. simplify_eq. destruct rest as [|c rest]; [done|]. by destruct Hr as [-> | [-> | ->]].
  - case_bool_decide as Hc; [|by intros; simplify_eq].
    destruct l as [|s l]; cbn [app].
    + destruct rest as [|s rest]; cbn; [by intros; simplify_eq|].
      by destruct Hr as [-> | [-> | ->]]; cbn; intros; simplify_eq.
    + set (b := bool_decide (s = c_plus) || bool_decide (s = c_minus)).
      destruct b.
      * destruct (span_digits l) as [d r0] eqn:E. rewrite (span_digits_app _ _ _ _ Hr E).
        by destruct d; intros; simplify_eq.
      * destruct (span_digits (s :: l)) as [d r0] eqn:E. change (s :: l ++ rest) with ((s :: l) ++ rest).
        rewrite (span_digits_app _ _ _ _ Hr E). by destruct d; intros; simplify_eq.
Qed.

(** A number is read the same whatever follows it. *)
Lemma json_number_app l v rest :
  number_end rest → json_number l = Some (v, []) → json_number (l ++ rest) = Some (v, rest).
Proof.
  intros Hr. unfold json_number.
  destruct (match l with
            | c :: l' => if bool_decide (c = c_minus) then ([c], l') else ([], l)
            | [] => ([], l) end) as [sg l1] eqn:E.
  assert (E' : match l ++ rest with
               | c :: l' => if bool_decide (c = c_minus) then ([c], l') else ([], l ++ rest)
               | [] => ([], l ++ rest) end = (sg, l1 ++ rest)).
  { destruct l as [|c l]; cbn in *.
    - simplify_eq. destruct rest as [|c rest]; [done|]. by destruct Hr as [-> | [-> | ->]].
    - case_bool_decide; by simplify_eq. }
  rewrite E'. clear E E'. intros H.
  destruct (json_int_part l1) as [[ds r]|] eqn:E1; [|done].
  rewrite (json_int_part_app _ _ _ _ Hr E1). cbn [mbind option_bind] in *.
  destruct (json_frac r) as [fr r1] eqn:E2. rewrite (json_frac_app _ _ _ _ Hr E2).
  destruct (json_exp r1) as [ex r2] eqn:E3. rewrite (json_exp_app _ _ _ _ Hr E3).
  destruct (fr ++ ex) as [|c t].
  - destruct (res_opt (int_str (str_of (sg ++ ds)))); cbn in *; by simplify_eq.
  - destruct (res_opt (float_str (str_of (sg ++ ds ++ c :: t)))); cbn in *; by simplify_eq.
Qed.

(** *** Integers *)

Lemma pos_uint_head p d : Pos.to_uint p ≠ Decimal.D0 d.
Proof.
  intros E. pose proof (DecimalPos.Unsigned.to_of (Pos.to_uint p)) as H.
  rewrite DecimalPos.Unsigned.of_to in H. cbn in H. rewrite E in H.
  destruct (Decimal.nzhead (Decimal.D0 d)) eqn:En;
    try (by rewrite DecimalFacts.unorm_nzhead in H by (rewrite En; done); rewrite En in H).
  - apply DecimalFacts.unorm_0 in En. rewrite En in H. injection H as ->.
    pose proof (DecimalPos.Unsigned.of_to p) as Hp. by rewrite E in Hp.
  - by apply DecimalFacts.nzhead_nonzero in En.
Qed.

Lemma uint_digits d : Forall (λ c, is_digit c = true) (chars_of (NilEmpty.string_of_uint d)).
Proof. induction d; simpl; by constructor. Qed.

(** The digits of a positive number: not empty, the first one not zero. *)
Lemma pos_digits p :
  ∃ c l, chars_of (NilZero.string_of_uint (Pos.to_uint p)) = c :: l ∧ c ≠ chr 48 ∧
    Forall (λ c, is_digit c = true) (c :: l).
Proof.
  pose proof (uint_digits (Pos.to_uint p)) as Hd.
  destruct (Pos.to_uint p) as [|d|d|d|d|d|d|d|d|d|d] eqn:E;
    [by apply DecimalPos.Unsigned.to_uint_nonnil in E|by apply pos_uint_head in E|..];
    cbn in *; eexists _, _; (split_and!; [reflexivity|done|done]).
Qed.

(** [str(z)]: an optional minus sign, then digits without leading zeros. *)
Lemma str_int_shape z :
  ∃ sg c l, chars_of (str_int z) = sg ++ c :: l ∧ (sg = [] ∨ sg = [c_minus]) ∧
    Forall (λ c, is_digit c = true) (c :: l) ∧ (c = chr 48 → l = []).
Proof.
  unfold str_int, NilZero.string_of_int. destruct z as [|p|p]; cbn [Z.to_int].
  - exists [], (chr 48), []. split_and!; try done; [by left|by repeat constructor].
  - destruct (pos_digits p) as (c & l & E & Hc & Hd). exists [], c, l. rewrite E.
    split_and!; [done|by left|done|done].
  - destruct (pos_digits p) as (c & l & E & Hc & Hd). exists [c_minus], c, l.
    split_and!; [exact (f_equal (cons c_minus) E)|by right|done|done].
Qed.

Lemma span_digits_all l : Forall (λ c, is_digit c = true) l → span_digits l = (l, []).
Proof. induction 1 as [|c l Hc _ IH]; [done|]. cbn. by rewrite Hc, IH. Qed.

Lemma digit_not_minus c : is_digit c = true → c ≠ c_minus.
Proof. by intros H ->. Qed.

Lemma json_number_int z : json_number (chars_of (str_int z)) = Some (PInt z, []).
Proof.
  destruct (str_int_shape z) as (sg & c & l & E & Hsg & Hd & H0). unfold json_number.
  assert (Hc : is_digit c = true) by (by apply Forall_cons in Hd as [? _]).
  assert (Hi : json_int_part (c :: l) = Some (c :: l, [])).
  { unfold json_int_part. rewrite span_digits_all by done. case_bool_decide as Hb; [|done].
    by rewrite (H0 Hb). }
  assert (Hz : int_str (str_of (sg ++ c :: l)) = Ok z).
  { rewrite <- E, str_of_chars. apply int_str_str_int. }
  rewrite E. destruct Hsg as [-> | ->]; cbn [app].
  - rewrite bool_decide_eq_false_2 by by apply digit_not_minus. rewrite Hi. cbn -[str_of].
    cbn [app] in Hz. by rewrite Hz.
  - rewrite bool_decide_eq_true_2 by done. rewrite Hi. cbn -[str_of]. cbn [app] in Hz. by rewrite Hz.
Qed.

(** Only a digit, or a minus sign before a digit, starts a number. *)
Lemma json_number_head l x :
  json_number l = Some x →
  ∃ c l', l = c :: l' ∧ (is_digit c = true ∨ c = c_minus ∧ ∃ d l'', l' = d :: l'' ∧ is_digit d = true).
Proof.
  assert (Hp : ∀ l y, json_int_part l = Some y → ∃ d l', l = d :: l' ∧ is_digit d = true).
  { intros l0 y H. unfold json_int_part in H. destruct l0 as [|d l0]; [done|].
    exists d, l0. split; [done|]. cbn in H. by destruct (is_digit d). }
  unfold json_number. destruct l as [|c l]; [done|]. intros H. exists c, l. split; [done|].
  case_bool_decide as Hc.
  - right. split; [done|]. destruct (json_int_part l) eqn:E; [|done]. by apply Hp in E.
  - left. destruct (json_int_part (c :: l)) eqn:E; [|done]. apply Hp in E as (d & l' & [= <- <-] & Hd).
    done.
Qed.

(** A number is none of the constants. *)
Lemma json_constant_number l v rest :
  number_end rest → json_number l = Some (v, []) → json_constant (l ++ rest) = Some (v, rest).
Proof.
  intros Hr H. pose proof (json_number_app _ _ _ Hr H) as Happ. unfold json_constant.
  rewrite Happ. apply json_number_head in H as (c & l' & -> & Hc). unfold json_word.
  assert (Hw : ∀ w n, match chars_of w with
      | x :: y :: _ => is_digit x = false ∧ (x = c_minus → is_digit y = false)
      | _ => False end → take n ((c :: l') ++ rest) = chars_of w → False).
  { intros w n Hx Hn. destruct n as [|n]; cbn in Hn; [by rewrite <- Hn in Hx|].
    rewrite <- Hn in Hx. destruct Hc as [Hc|(-> & d & l'' & -> & Hd)].
    - destruct (take n (l' ++ rest)); [done|]. destruct Hx. congruence.
    - destruct n as [|n]; cbn in Hx; [done|]. destruct Hx as [_ Hx]. specialize (Hx eq_refl). congruence. }
  rewrite !bool_decide_eq_false_2 by (intros Hn; eapply Hw; [|exact Hn]; done). done.
Qed.

(** *** Values *)

Fixpoint pyval_list_ind (P : pyval → Prop)
    (Hscalar : ∀ v, match v with PList _ | PTuple _ => False | _ => True end → P v)
    (Hlist : ∀ l, Forall P l → P (PList l)) (Htuple : ∀ l, Forall P l → P (PTuple l))
    (v : pyval) : P v :=
  let all := fix all (l : list pyval) : Forall P l :=
    match l with
    | [] => Forall_nil_2 P
    | v :: l => Forall_cons_2 P v l (pyval_list_ind P Hscalar Hlist Htuple v) (all l)
    end in
  match v with
  | PList l => Hlist l (all l)
  | PTuple l => Htuple l (all l)
  | v => Hscalar v I
  end.

(** The text between the brackets, with the closing one. *)
Definition json_join (items : list chars) : chars :=
  match items with
  | [] => []
  | x :: xs => x ++ List.concat ((λ y, c_comma :: c_space :: y) <$> xs)
  end.

Lemma json_dumps_list l :
  json_dumps (PList l) = (items ← mapR json_dumps l; Ok (c_lbracket :: json_join items ++ [c_rbracket])).
Proof.
  cbn [json_dumps]. match goal with |- (?f l ≫= _) = _ => set (dump := f) end.
  assert (H : dump l = mapR json_dumps l).
  { induction l as [|v l IH]; [done|]. cbn. destruct (json_dumps v); cbn; [|done]. by rewrite IH. }
  rewrite H. destruct (mapR json_dumps l) as [items|]; cbn; [|done]. by destruct items.
Qed.

Lemma json_dumps_tuple l : json_dumps (PTuple l) = json_dumps (PList l).
Proof. done. Qed.

(** A text [t] that scans as the value [v] whatever follows. *)
Definition scans (v : pyval) (t : chars) : Prop :=
  (∃ c t', t = c :: t' ∧ json_space c = false ∧ c ≠ c_rbracket) ∧
  ∀ rest n, number_end rest → (length t ≤ n)%nat → json_value n (t ++ rest) = Some (v, rest).

Lemma scans_string s : scans (PStr s) (json_string s).
Proof.
  split; [by eexists _, _|]. intros rest [|n] _ Hn; [cbn in Hn; lia|]. unfold json_string.
  cbn [app json_value]. rewrite bool_decide_eq_true_2 by done.
  rewrite <- app_assoc. cbn [app]. rewrite json_string_body_escape. cbn. by rewrite str_of_chars.
Qed.

Lemma scans_constant v t c t' :
  t = c :: t' → json_space c = false → bool_decide (c ∈ [c_rbracket; c_quote; c_lbracket]) = false →
  (∀ rest, number_end rest → json_constant (t ++ rest) = Some (v, rest)) → scans v t.
Proof.
  intros -> Hs Hc H. apply bool_decide_eq_false in Hc. split.
  - exists c, t'. split_and!; [done..|]. set_solver.
  - intros rest [|n] Hr Hn; [cbn in Hn; lia|]. cbn [app json_value].
    rewrite !bool_decide_eq_false_2 by set_solver. by apply (H rest).
Qed.

Lemma scans_number v t : json_number t = Some (v, []) → scans v t.
Proof.
  intros H. destruct (json_number_head _ _ H) as (c & t' & -> & Hc).
  assert (Hd : is_digit c = true ∨ c = c_minus) by naive_solver.
  eapply scans_constant; [done|..|intros; by apply json_constant_number].
  - destruct Hd as [Hd| ->]; [|done].
    unfold json_space. apply bool_decide_eq_false. intros Hin.
    unfold is_digit in Hd. apply andb_true_iff in Hd as [Hd _]. apply Nat.leb_le in Hd.
    set_unfold. lia.
  - apply bool_decide_eq_false. intros Hin. destruct Hd as [Hd| ->];
      repeat (apply elem_of_cons in Hin as [Hin|Hin]; [subst; done|]); by apply not_elem_of_nil in Hin.
Qed.

Lemma scans_float f : json_exact f = true → scans (PFloat f) (json_float_text f).
Proof.
  assert (Hn : match json_number (json_float_text f) with
               | Some (PFloat g, []) => bool_decide (g = f) | _ => false end = true →
               scans (PFloat f) (json_float_text f)).
  { intros H. apply scans_number.
    destruct (json_number (json_float_text f)) as [[[] [|]]|]; try done.
    by apply bool_decide_eq_true in H as ->. }
  destruct f as [s|s| |s m e]; try exact Hn; intros _;
    try destruct s; (eapply scans_constant; [reflexivity|done|done|]; done).
Qed.

Lemma scans_items l items n rest :
  Forall2 scans l items → items ≠ [] → (length (json_join items) < n)%nat →
  json_items n (json_join items ++ c_rbracket :: rest) = Some (l, rest).
Proof.
  intros Hl. revert n. induction Hl as [|v t l items Ht Hl IH]; intros n Hne Hn; [done|].
  destruct n as [|n]; [lia|]. cbn [json_items json_join] in *. rewrite length_app in Hn.
  rewrite <- app_assoc. destruct Ht as [_ Hs].
  destruct items as [|t2 items].
  - inversion Hl; subst. cbn [fmap list_fmap List.concat app]. rewrite Hs by (by (right; left) || lia).
    cbn. done.
  - cbn [fmap list_fmap List.concat app length] in *. rewrite length_app in Hn.
    rewrite Hs by (by left || (cbn; lia)).
    cbn [mbind option_bind skip_ws]. change (json_space c_comma) with false. cbv iota.
    rewrite bool_decide_eq_false_2, bool_decide_eq_true_2 by done.
    cbn [skip_ws]. change (json_space c_space) with true. cbv iota.
    inversion Hl as [|v2 ? l2 ? Ht2 Hl2]; subst.
    assert (Hws : skip_ws ((t2 ++ List.concat ((λ y, c_comma :: c_space :: y) <$> items)) ++ c_rbracket :: rest)
                  = json_join (t2 :: items) ++ c_rbracket :: rest).
    { destruct Ht2 as [(c & t' & -> & Hc & _) _]. cbn. by rewrite Hc. }
    rewrite Hws, IH; [done|done|]. cbn [json_join]. rewrite length_app. lia.
Qed.

Lemma scans_list l items : Forall2 scans l items → scans (PList l) (c_lbracket :: json_join items ++ [c_rbracket]).
Proof.
  intros Hl. split; [by eexists _, _|]. intros rest [|n] Hr Hn; [cbn in Hn; lia|].
  cbn [app json_value]. rewrite bool_decide_eq_false_2, bool_decide_eq_true_2 by done.
  rewrite <- app_assoc. cbn [app]. destruct Hl as [|v t l items Ht Hl].
  - cbn. done.
  - assert (Hws : skip_ws (json_join (t :: items) ++ c_rbracket :: rest)
                  = json_join (t :: items) ++ c_rbracket :: rest).
    { destruct Ht as [(c & t' & -> & Hc & _) _]. cbn. by rewrite Hc. }
    rewrite Hws. destruct (json_join (t :: items) ++ c_rbracket :: rest) as [|d r] eqn:E.
    { by destruct (json_join (t :: items)). }
    assert (d ≠ c_rbracket).
    { destruct Ht as [(c & t' & -> & _ & Hc) _]. cbn in E. by injection E as <- _. }
    rewrite bool_decide_eq_false_2 by done. rewrite <- E.
    cbn [length] in Hn. rewrite length_app in Hn. cbn in Hn.
    rewrite (scans_items (v :: l)); [done|by constructor|done|cbn [json_join]; lia].
Qed.

(** Every text [json.dumps] writes scans as the value it was written from. *)
Lemma json_dumps_scans v : json_ok v = true → ∀ t, json_dumps v = Ok t → scans (jnorm v) t.
Proof.
  induction v as [v Hv|l IH|l IH] using pyval_list_ind; intros Hok t Ht.
  - destruct v; try done; cbn in Ht; try injection Ht as <-.
    + eapply scans_constant; [reflexivity|done|done|]. done.
    + destruct b; (eapply scans_constant; [reflexivity|done|done|]; done).
    + apply scans_number, json_number_int.
    + by apply scans_float.
    + apply scans_string.
    + apply scans_string.
    + apply scans_string.
  - rewrite json_dumps_list in Ht. apply bind_Ok in Ht as (items & Hi & [= <-]).
    cbn [jnorm]. apply scans_list. cbn in Hok. revert items Hi.
    induction IH as [|v l Hv Hl IHl]; cbn; intros items Hi; res_inv; [done|].
    apply andb_true_iff in Hok as [Ho1 Ho2]. constructor; auto.
  - rewrite json_dumps_tuple, json_dumps_list in Ht. apply bind_Ok in Ht as (items & Hi & [= <-]).
    cbn [jnorm]. apply scans_list. cbn in Hok. revert items Hi.
    induction IH as [|v l Hv Hl IHl]; cbn; intros items Hi; res_inv; [done|].
    apply andb_true_iff in Hok as [Ho1 Ho2]. constructor; auto.
Qed.

(** Reading a line back: with its newline or without. *)
Lemma json_loads_dumps v t :
  json_ok v = true → json_dumps v = Ok t → json_loads t = Ok (jnorm v).
Proof.
  intros Hok Ht. destruct (json_dumps_scans v Hok t Ht) as [(c & t' & -> & Hc & _) Hs].
  unfold json_loads. cbn [skip_ws]. rewrite Hc.
  specialize (Hs [] (length (c :: t')) I (le_n _)). rewrite app_nil_r in Hs.
  rewrite Hs. done.
Qed.

Lemma json_loads_line v t :
  json_ok v = true → json_dumps v = Ok t → json_loads (t ++ [c_newline]) = Ok (jnorm v).
Proof.
  intros Hok Ht. destruct (json_dumps_scans v Hok t Ht) as [(c & t' & -> & Hc & _) Hs].
  unfold json_loads. cbn [skip_ws app]. rewrite Hc.
  specialize (Hs [c_newline] (length ((c :: t') ++ [c_newline]))). cbn [app] in Hs.
  rewrite Hs; [done|by do 2 right|]. cbn. rewrite length_app. lia.
Qed.
