(* ===== verification/Filters.v ===== *)
(** * Filters: [filter/filter_fns], [filter/strategies.py]

    One [_keep] per use case, the template method that applies it, and the
    three filters that override it; the table of routes of the default filter. *)

From S2P Require Import Prelude.
From S2P Require Import PyDict.
From S2P Require Import PyValues.
From S2P Require Import PyText.
From S2P Require Import PyTime.
From S2P Require Import PyFloat.
From S2P Require Import Messages.

(** [el.transactions], [el.client_id] *)
Definition transactions_of (b : Body) : res (list Transaction) :=
  match b with
  | Transactions _ l | MergedTransactions _ l _ => Ok l
  | _ => Exc AttributeError
  end.
Definition client_of (b : Body) : res uuid := of_opt AttributeError (body_client b).

(** [t.timestamp] where a datetime method or comparison is applied to it. *)
Definition ts_compared (t : Timestamp) : res datetime :=
  match t with TsDate d => Ok d | TsText _ => Exc TypeError end.
Definition ts_date (t : Timestamp) : res date :=
  match t with TsDate d => Ok (date_of d) | TsText _ => Exc AttributeError end.

(** [a and b], the second operand evaluated only when the first holds. *)
Definition and_then (a : bool) (b : res bool) : res bool := if a then b else Ok false.

(** The elements a fallible test keeps, in order. *)
Fixpoint filterR {A} (keep : A → res bool) (l : list A) : res (list A) :=
  match l with
  | [] => Ok []
  | x :: l => k ← keep x; r ← filterR keep l; Ok (if k : bool then x :: r else r)
  end.

(** ** The template method [FilterFn.filter] *)

Definition FilterFn_filter (keep : Transaction → res bool) (el : Body) : res Body :=
  l ← transactions_of el;
  filtered ← filterR keep l;
  c ← client_of el;
  Ok (Transactions c filtered).

Definition Promiscuous_filter (el : Body) : res Body := Ok el.

Definition TARGET_CURRENCY : string := "US Dollar".
Definition MIN_AMOUNT : float := f_of_Z 50.

Definition UC1Filter_keep (t : Transaction) : res bool :=
  Ok (bool_decide (payment_currency t = TARGET_CURRENCY) && flt (amount_paid t) MIN_AMOUNT).

Definition UC2Filter_keep (t : Transaction) : res bool :=
  Ok (bool_decide (payment_currency t = TARGET_CURRENCY)).

(** *** [UC3FilterPeriodBase]: both ends of the period are kept *)

Definition UC3FilterPeriodBase_keep (TARGET_PERIOD : date * date) (t : Transaction) : res bool :=
  and_then (bool_decide (payment_currency t = TARGET_CURRENCY))
    (day ← ts_date (timestamp t);
     Ok (date_le TARGET_PERIOD.1 day && date_le day TARGET_PERIOD.2)).

Definition PERIOD_A : date * date := ((2022, 9, 1), (2022, 9, 5)).
Definition PERIOD_B : date * date := ((2022, 9, 6), (2022, 9, 15)).
Definition UC3FilterPeriodA_keep : Transaction → res bool := UC3FilterPeriodBase_keep PERIOD_A.
Definition UC3FilterPeriodB_keep : Transaction → res bool := UC3FilterPeriodBase_keep PERIOD_B.

(** *** [UC4Filter], [UC5Filter]: the upper bound is exclusive *)

Definition midnight (y m d : Z) : datetime := mkDT y m d 0 0 0.
Definition PERIOD_START : datetime := midnight 2022 9 1.
Definition PERIOD_END : datetime := midnight 2022 9 6.

Definition in_window (t : Transaction) : res bool :=
  d ← ts_compared (timestamp t); Ok (dt_le PERIOD_START d && dt_lt d PERIOD_END).

Definition UC4Filter_keep (t : Transaction) : res bool :=
  and_then (bool_decide (payment_currency t = TARGET_CURRENCY)) (in_window t).

Definition FORMATS : pyset string := set_of ["Wire"; "ACH"]%string.
Definition UC5Filter_keep (t : Transaction) : res bool :=
  and_then (smem (payment_format t) FORMATS) (in_window t).

Definition USD_THRESHOLD : float := f_of_Z 1.
Definition UC5AmountFilter_keep (t : Transaction) : res bool := Ok (flt (amount_paid t) USD_THRESHOLD).

(** *** The filters that override [filter] *)

(** 0.01 *)
Definition PERCENTAGE : float := f_of_dec 1 (-2).

Definition UC3AvgFilter_keep (averages : pydict string float) (t : Transaction) : bool :=
  match dget averages (payment_format t) with
  | Some avg => flt (amount_paid t) (fmul PERCENTAGE avg)
  | None => false
  end.

Definition UC3AvgFilter_filter (el : Body) : res Body :=
  match el with
  | MergedTransactions c l averages =>
      Ok (Transactions c (filter (λ t, UC3AvgFilter_keep averages t = true) l))
  | Transactions c [] => Ok (Transactions c [])
  | _ => Exc AttributeError
  end.

Definition MIN_PATH_COUNT : Z := 5.

(** The entries of a dictionary that satisfy a test. *)
Definition dfilter {K V} (f : K * V → bool) (d : pydict K V) : pydict K V :=
  filter (λ e, f e = true) d.

Definition UC4PathFilter_filter (el : Body) : res Body :=
  match el with
  | PathCounts c counts => Ok (PathCounts c (dfilter (λ e, MIN_PATH_COUNT <=? e.2) counts))
  | _ => Exc AttributeError
  end.

(** ** The strategies of [filter/main.py] *)

Inductive FilterStrategy := FS_DEFAULT | FS_UC3_AVG | FS_UC4_PATH | FS_UC5_AMOUNT.

Definition filter_strategy_of (s : string) : res FilterStrategy :=
  if String.eqb s "default" then Ok FS_DEFAULT
  else if String.eqb s "uc3_average_filter" then Ok FS_UC3_AVG
  else if String.eqb s "uc4_path" then Ok FS_UC4_PATH
  else if String.eqb s "uc5_amount_filter" then Ok FS_UC5_AMOUNT
  else Exc ValueError.

(** The filter of a strategy other than the default one. *)
Definition filter_of_strategy (s : FilterStrategy) : option (Body → res Body) :=
  match s with
  | FS_DEFAULT => None
  | FS_UC3_AVG => Some UC3AvgFilter_filter
  | FS_UC4_PATH => Some UC4PathFilter_filter
  | FS_UC5_AMOUNT => Some (FilterFn_filter UC5AmountFilter_keep)
  end.

(** [route_table] of [make_default_filter]: the variables naming each route and
    its number of shards, with the filter. *)
Definition route_table : list (string * (Body → res Body) * string) :=
  [("UC1_TRANSACTIONS_TX", FilterFn_filter UC1Filter_keep, "UC1_TRANSACTIONS_SHARDS");
   ("UC2_TRANSACTIONS_TX", FilterFn_filter UC2Filter_keep, "UC2_TRANSACTIONS_SHARDS");
   ("UC3_PERIOD_A_TRANSACTIONS_TX", FilterFn_filter UC3FilterPeriodA_keep, "UC3_PERIOD_A_SHARDS");
   ("UC4_TRANSACTIONS_TX", FilterFn_filter UC4Filter_keep, "UC4_TRANSACTIONS_SHARDS");
   ("UC5_TRANSACTIONS_TX", FilterFn_filter UC5Filter_keep, "UC5_TRANSACTIONS_SHARDS");
   ("UC3_PERIOD_B_TRANSACTIONS_TX", FilterFn_filter UC3FilterPeriodB_keep, "UC3_PERIOD_B_SHARDS")]%string.

(** ** Lemmas *)

Lemma filterR_Ok {A} (keep : A → res bool) (P : A → bool) l :
  (∀ x, x ∈ l → keep x = Ok (P x)) → filterR keep l = Ok (filter (λ x, P x = true) l).
Proof.
  induction l as [|x l IH]; intros H; [done|]. cbn [filterR]. rewrite H by left.
  rewrite IH by (intros; apply H; by right). cbn [mbind res_bind]. rewrite filter_cons.
  destruct (decide (P x = true)) as [->|Hn]; [done|]. by destruct (P x).
Qed.

Lemma filterR_sublist {A} (keep : A → res bool) l l' :
  filterR keep l = Ok l' → l' `sublist_of` l.
Proof.
  revert l'. induction l as [|x l IH]; intros l' H; cbn [filterR] in H; res_inv; [done|].
  match goal with H : filterR _ _ = Ok _ |- _ => apply IH in H end.
  case_match; by constructor.
Qed.

Lemma filterR_elem {A} (keep : A → res bool) l l' x :
  filterR keep l = Ok l' → x ∈ l' ↔ x ∈ l ∧ keep x = Ok true.
Proof.
  revert l'. induction l as [|y l IH]; intros l' H; cbn [filterR] in H; res_inv; [set_solver|].
  match goal with H : filterR _ _ = Ok _ |- _ => specialize (IH _ H) end.
  match goal with H : keep y = Ok ?k |- _ => destruct k end; rewrite !elem_of_cons; naive_solver congruence.
Qed.

(** A datetime is before a midnight when its date is before that day. *)
Lemma lt_midnight d y m dd :
  valid_datetime d = true →
  dt_lt d (midnight y m dd) = lex_lt (date_fields d) [y; m; dd].
Proof.
  intros (_ & _ & _ & Hh & Hmi & Hs)%valid_datetime_bounds.
  unfold dt_lt, dt_fields, date_fields, midnight. cbn. lia.
Qed.

(** The window bounded by midnights, read on dates: the excluded upper midnight
    is the day before, included. *)
Lemma window_dates d :
  valid_datetime d = true →
  dt_le PERIOD_START d && dt_lt d PERIOD_END =
    date_le PERIOD_A.1 (date_of d) && date_le (date_of d) PERIOD_A.2.
Proof.
  intros Hv. unfold dt_le, PERIOD_START, PERIOD_END. rewrite !lt_midnight by done.
  unfold date_le, date_of, date_fields. cbn -[Z.eqb Z.ltb]. lia.
Qed.

(** A simple filter over transactions its test never raises on. *)
Lemma FilterFn_filter_exact keep (P : Transaction → Prop) c l :
  (∀ t, t ∈ l → ∃ b, keep t = Ok b ∧ (b = true ↔ P t)) →
  ∃ l', FilterFn_filter keep (Transactions c l) = Ok (Transactions c l') ∧
    l' `sublist_of` l ∧ ∀ t, t ∈ l' ↔ t ∈ l ∧ P t.
Proof.
  intros H. pose (Q t := match keep t with Ok b => b | Exc _ => false end).
  assert (HQ : filterR keep l = Ok (filter (λ t, Q t = true) l)).
  { apply filterR_Ok. intros t Ht. destruct (H t Ht) as (b & E & _). unfold Q. by rewrite E. }
  exists (filter (λ t, Q t = true) l). unfold FilterFn_filter. cbn [transactions_of mbind res_bind].
  rewrite HQ. cbn [mbind res_bind client_of body_client of_opt].
  split; [done|]. split; [by eapply filterR_sublist|]. intros t.
  rewrite (filterR_elem _ _ _ _ HQ). split; intros [Hin Ht]; (split; [done|]);
    destruct (H t Hin) as (b & E & Hb); rewrite E in *; [|f_equal; by apply Hb].
  apply Hb. congruence.
Qed.

(** What each route of the default filter is meant to select. *)
Definition usd (t : Transaction) : Prop := payment_currency t = "US Dollar"%string.

(** The transaction is dated between two days of September 2022, both included. *)
Definition dated (lo hi : Z) (t : Transaction) : Prop :=
  match timestamp t with
  | TsDate d => year d = 2022 ∧ month d = 9 ∧ lo ≤ day d ≤ hi
  | TsText _ => False
  end.

Definition selects (route : nat) (t : Transaction) : Prop :=
  match route with
  | 0%nat => usd t ∧ flt (amount_paid t) (f_of_Z 50) = true
  | 1%nat => usd t
  | 2%nat | 3%nat => usd t ∧ dated 1 5 t
  | 4%nat => (payment_format t = "Wire"%string ∨ payment_format t = "ACH"%string) ∧ dated 1 5 t
  | _ => usd t ∧ dated 6 15 t
  end.

Lemma date_window lo hi d :
  date_le (2022, 9, lo) (date_of d) && date_le (date_of d) (2022, 9, hi) = true ↔
  year d = 2022 ∧ month d = 9 ∧ lo ≤ day d ≤ hi.
Proof. unfold date_le, date_of. cbn -[Z.eqb Z.ltb]. lia. Qed.

Lemma and_then_exact (a : bool) (b : res bool) (P Q : Prop) :
  (a = true ↔ P) → (∃ x, b = Ok x ∧ (x = true ↔ Q)) →
  ∃ x, and_then a b = Ok x ∧ (x = true ↔ P ∧ Q).
Proof.
  intros Ha (x & -> & Hx). destruct a; cbn; eexists; (split; [done|]); [naive_solver|].
  split; [done|]. intros [Hp _]. by apply Ha.
Qed.

Lemma in_window_exact t :
  tx_wf t → ∃ x, in_window t = Ok x ∧ (x = true ↔ dated 1 5 t).
Proof.
  unfold in_window, dated, tx_wf. destruct (timestamp t) as [d|s]; [|done]. intros Hv.
  eexists; split; [reflexivity|]. rewrite window_dates by done. apply date_window.
Qed.

Lemma period_exact lo hi t :
  tx_wf t →
  ∃ x, (day ← ts_date (timestamp t);
        Ok (date_le (2022, 9, lo) day && date_le day (2022, 9, hi))) = Ok x ∧
       (x = true ↔ dated lo hi t).
Proof.
  unfold dated, tx_wf. destruct (timestamp t) as [d|s]; [|done]. intros Hv.
  eexists; split; [reflexivity|]. apply date_window.
Qed.

Lemma usd_exact t : bool_decide (payment_currency t = TARGET_CURRENCY) = true ↔ usd t.
Proof. by rewrite bool_decide_eq_true. Qed.

Lemma formats_exact t :
  smem (payment_format t) FORMATS = true ↔
  payment_format t = "Wire"%string ∨ payment_format t = "ACH"%string.
Proof.
  unfold FORMATS. rewrite smem_set_of. cbn. rewrite smem_spec. cbn. set_solver.
Qed.

(** ** Properties *)

(** C20: Each of the six routes of the default filter sends, for any batch of
    transactions with well-formed timestamps, exactly the transactions its use
    case asks for, in the order they came: dollar payments under 50, dollar
    payments, dollar payments of 1 to 5 September 2022 (for both UC3 and UC4,
    whose windows are written with dates and with an exclusive midnight), wire
    and ACH payments of those days, dollar payments of 6 to 15 September. *)
Theorem default_routes_select (c : uuid) (l : list Transaction)
    (i : nat) (tx shards : string) (flt_ : Body → res Body)
    (Hwf : Forall tx_wf l) (Hi : route_table !! i = Some (tx, flt_, shards)) :
  ∃ l', flt_ (Transactions c l) = Ok (Transactions c l') ∧ l' `sublist_of` l ∧
    ∀ t, t ∈ l' ↔ t ∈ l ∧ selects i t.
Proof.
  rewrite Forall_forall in Hwf.
  do 6 (destruct i as [|i]; [injection Hi as <- <- <-; apply FilterFn_filter_exact; intros t Ht;
    specialize (Hwf t Ht);
    first [ apply and_then_exact;
            [first [apply usd_exact | apply formats_exact]
            |first [by apply in_window_exact | by apply period_exact]]
          | eexists; split; [reflexivity|]; rewrite ?andb_true_iff, usd_exact; done ]|]).
  destruct i; done.
Qed.

Definition demo_tx (y m d : Z) (currency format : string) (amount : Z) : Transaction :=
  mkTx (TsDate (midnight y m d)) "1" "A" "2" "B" (f_of_Z amount) currency (f_of_Z amount) currency format.

Lemma default_routes_select_witness :
  ∃ l', FilterFn_filter UC4Filter_keep
      (Transactions (uuid_lit 7) [demo_tx 2022 9 5 "US Dollar" "Wire" 20; demo_tx 2022 9 6 "US Dollar" "ACH" 9])
    = Ok (Transactions (uuid_lit 7) l') ∧
    l' `sublist_of` [demo_tx 2022 9 5 "US Dollar" "Wire" 20; demo_tx 2022 9 6 "US Dollar" "ACH" 9] ∧
    ∀ t, t ∈ l' ↔ t ∈ [demo_tx 2022 9 5 "US Dollar" "Wire" 20; demo_tx 2022 9 6 "US Dollar" "ACH" 9]
              ∧ selects 3 t.
Proof.
  apply (default_routes_select (uuid_lit 7) _ 3 "UC4_TRANSACTIONS_TX" "UC4_TRANSACTIONS_SHARDS").
  - repeat constructor.
  - reflexivity.
Defined.
