(* ===== verification/GroupBy.v ===== *)
(** * Group-by functions: [group_by/group_by_fns], [common/conversion]

    What each strategy makes of one input message: the partial results of the
    batch, split by affinity. The built-in [hash] (randomised per process unless
    [PYTHONHASHSEED] fixes it, as the deployment does) and the rates service are
    parameters. *)

From Stdlib Require Import Floats.SpecFloat.
From S2P Require Import Prelude.
From S2P Require Import PyDict.
From S2P Require Import PyValues.
From S2P Require Import PyText.
From S2P Require Import PyTime.
From S2P Require Import PyFloat.
From S2P Require Import Messages.
From S2P Require Import Filters.

(** The built-in [hash] on the objects the program hashes. *)
Class PyHash := {
  hash_str : string → Z;
  hash_uuid : uuid → Z;
  hash_identity : bytes → Z → Z
}.

(** [Node.__hash__], [Path.__hash__] *)
Definition hash_node `{PyHash} (n : Node) : Z := hash_str (node_key n).
Definition hash_path `{PyHash} (p : Path) : Z := hash_str (path_key p).

(** ** Splitting a dictionary by affinity *)

(** The loop over a [defaultdict] of groups; [add] puts an entry in a group. *)
Definition by_affinity {K V} (aff : K → Z) (add : pydict K V → K → V → pydict K V)
    (d : pydict K V) : pydict Z (pydict K V) :=
  foldl (λ groups kv,
           dset groups (aff kv.1) (add (dget_or [] groups (aff kv.1)) kv.1 kv.2)) [] d.

(** [yield group, affinity] for each of them. *)
Definition yield_groups {D} (body : D → Body) (groups : pydict Z D) : list (Body * Z) :=
  (λ g, (body g.2, g.1)) <$> groups.

Section group_by.
Context `{PyHash}.

(** *** UC2: bank names *)

Definition AFFINITY_SHARDS_UC2 : Z := 10.
Definition bank_affinity (bank : string) : Z := hash_str bank mod AFFINITY_SHARDS_UC2.

Definition UC2BankNames_group_by (msg : Body) : res (list (Body * Z)) :=
  match msg with
  | Accounts c accounts =>
      let bank_id_names := dict_of ((λ a, (bank_id a, bank_name a)) <$> accounts) in
      Ok (yield_groups (BankNames c) (by_affinity bank_affinity dset bank_id_names))
  | _ => Exc AttributeError
  end.

(** *** UC2: the largest payment of each bank *)

(** [if not curr_max or amount > curr_max[1]]: an entry takes the place of the
    current one only when it is strictly larger. *)
Definition max_update (maxes : pydict string (string * float)) (bank account : string)
    (amount : float) : pydict string (string * float) :=
  match dget maxes bank with
  | Some curr_max => if flt curr_max.2 amount then dset maxes bank (account, amount) else maxes
  | None => dset maxes bank (account, amount)
  end.

Definition max_of_batch (l : list Transaction) : pydict string (string * float) :=
  foldl (λ d t, max_update d (from_bank t) (from_account t) (amount_paid t)) [] l.

Definition UC2MaxAmount_group_by (msg : Body) : res (list (Body * Z)) :=
  l ← transactions_of msg;
  c ← client_of msg;
  Ok (yield_groups (MaxByBank c) (by_affinity bank_affinity dset (max_of_batch l))).

(** *** UC3: the sum and the count of each payment format *)

Definition sum_step (sums : pydict string (float * Z)) (t : Transaction)
    : pydict string (float * Z) :=
  let sums := dsetdefault sums (payment_format t) (f_of_Z 0, 0) in
  let curr := dget_or (f_of_Z 0, 0) sums (payment_format t) in
  dset sums (payment_format t) (fadd curr.1 (amount_paid t), curr.2 + 1).

Definition sums_of_batch (l : list Transaction) : pydict string (float * Z) := foldl sum_step [] l.

Definition UC3Sum_group_by (msg : Body) : res (list (Body * Z)) :=
  l ← transactions_of msg;
  c ← client_of msg;
  Ok ((λ e, (SumByPaymentFormat c [(e.1, e.2)], hash_str e.1)) <$> sums_of_batch l).

(** *** UC4: the transfer graph *)

Definition AFFINITY_SHARDS_UC4 : Z := 50.

Definition graph_step (nodes : graph_nodes) (t : Transaction) : graph_nodes :=
  let a := mkNode (from_bank t) (from_account t) in
  let b := mkNode (to_bank t) (to_account t) in
  add_destination (add_origin nodes b a) a b.

Definition graph_of_batch (l : list Transaction) : graph_nodes := foldl graph_step [] l.

(** A node joins a shard, or its neighbours join the node already there. *)
Definition graph_add (nodes : graph_nodes) (b : Node) (ac : pyset Node * pyset Node) : graph_nodes :=
  match dget nodes b with
  | None => dset nodes b ac
  | Some (preds, succs) => dset nodes b (supdate preds ac.1, supdate succs ac.2)
  end.

Definition node_affinity (n : Node) : Z := hash_node n mod AFFINITY_SHARDS_UC4.

Definition UC4ComputeGraph_group_by (msg : Body) : res (list (Body * Z)) :=
  l ← transactions_of msg;
  c ← client_of msg;
  Ok (yield_groups (Graph c) (by_affinity node_affinity graph_add (graph_of_batch l))).

(** *** UC5: the count of a batch *)

Definition UC5Count_group_by (msg : Body) : res (list (Body * Z)) :=
  l ← transactions_of msg;
  c ← client_of msg;
  Ok [(TransactionCount c (Z.of_nat (length l)), hash_uuid c)].
End group_by.

(** ** [FrankfurterConversionAPI] *)

Definition CURRENCY_ISO : list (string * string) :=
  [("Australian Dollar", "AUD"); ("Brazil Real", "BRL"); ("Canadian Dollar", "CAD");
   ("Euro", "EUR"); ("Mexican Peso", "MXN"); ("Rupee", "INR"); ("Shekel", "ILS");
   ("Swiss Franc", "CHF"); ("UK Pound", "GBP"); ("US Dollar", "USD"); ("Yen", "JPY");
   ("Yuan", "CNY")]%string.

Definition USD_FALLBACK : pydict string float :=
  [("Bitcoin", f_of_dec 7833 (-2)); ("Ruble", f_of_dec 1 (-2)); ("Saudi Riyal", f_of_dec 27 (-2))]%string.

Definition TARGET_CURRENCIES : list string := ["USD"; "EUR"]%string.

(** [a / b] on floats *)
Definition py_fdiv (a b : float) : res float :=
  match b with S754_zero _ => Exc ZeroDivisionError | _ => Ok (fdiv a b) end.

(** The loop over the currencies: those the service quotes, except the two
    already there. *)
Fixpoint cross_rates (usd_per_eur : float) (eur_rates rates : pydict string float)
    (l : list (string * string)) : res (pydict string float) :=
  match l with
  | [] => Ok rates
  | (name, iso) :: l =>
      if bool_decide (iso ∈ TARGET_CURRENCIES) then cross_rates usd_per_eur eur_rates rates l
      else match dget eur_rates iso with
           | None => cross_rates usd_per_eur eur_rates rates l
           | Some r =>
               q ← py_fdiv usd_per_eur r;
               cross_rates usd_per_eur eur_rates (dset rates name q) l
           end
  end.

(** [get_rates] from the outcome of the request: the decoded body, or a
    [RequestException]. *)
Definition frankfurter_get_rates (resp : option (pydict string (pydict string float)))
    : res (pydict string float) :=
  match resp with
  | None => Exc ConversionAPIError
  | Some body =>
      eur_rates ← dindex body "rates"%string;
      usd_per_eur ← dindex eur_rates "USD"%string;
      rates ← cross_rates usd_per_eur eur_rates
        [("US Dollar"%string, f_of_Z 1); ("Euro"%string, usd_per_eur)] CURRENCY_ISO;
      Ok (dupdate rates USD_FALLBACK)
  end.

(** ** [UC5ConverterGroupByFn] *)

(** The answers the service will give, in order, to the requests to come. *)
Definition api_answers : Type := list (res (pydict string float)).

#[export] Instance date_key : PyKey date := structural_key date.

Record Converter := mkConverter {
  base_delay : float;
  max_delay : float;
  cache_ : pydict date (pydict string float)
}.

Definition BITCOIN_RATES_USD : pydict date float :=
  [((2022, 9, 1), f_of_dec 2013146 (-2)); ((2022, 9, 2), f_of_dec 1995186 (-2));
   ((2022, 9, 3), f_of_dec 1983190 (-2)); ((2022, 9, 4), f_of_dec 2000030 (-2));
   ((2022, 9, 5), f_of_dec 1979684 (-2))].

(** [_get_rates_with_retry]: the answer, the answers left and the delays slept.
    [None] when the answers listed run out before one is accepted: the loop is
    still waiting. *)
Fixpoint get_rates_with_retry (cap delay : float) (answers : api_answers)
    : option (res (pydict string float) * api_answers * list float) :=
  match answers with
  | [] => None
  | Exc ConversionAPIError :: answers =>
      let next := let d := fmul delay (f_of_Z 2) in if flt cap d then cap else d in
      '(r, rest, slept) ← get_rates_with_retry cap next answers;
      Some (r, rest, delay :: slept)
  | r :: answers => Some (r, answers, [])
  end.

(** [_rates_for] *)
Definition rates_for (cv : Converter) (day : date) (answers : api_answers)
    : option (res (Converter * pydict string float) * api_answers * list float) :=
  match dget (cache_ cv) day with
  | Some rates => Some (Ok (cv, rates), answers, [])
  | None =>
      '(r, rest, slept) ← get_rates_with_retry (max_delay cv) (base_delay cv) answers;
      Some
        (rates ← r;
         let rates := match dget BITCOIN_RATES_USD day with
                      | Some b => dset rates "Bitcoin"%string b
                      | None => rates
                      end in
         Ok (mkConverter (base_delay cv) (max_delay cv) (dset (cache_ cv) day rates), rates),
         rest, slept)
  end.

(** [replace(t, amount_paid=..., payment_currency=...)] *)
Definition convert_with (rates : pydict string float) (t : Transaction) : Transaction :=
  mkTx (timestamp t) (from_bank t) (from_account t) (to_bank t) (to_account t)
    (amount_received t) (receiving_currency t)
    (fmul (amount_paid t) (dget_or (f_of_Z 1) rates (payment_currency t)))
    TARGET_CURRENCY (payment_format t).

Fixpoint convert_all (cv : Converter) (l : list Transaction) (answers : api_answers)
    : option (res (Converter * list Transaction) * api_answers) :=
  match l with
  | [] => Some (Ok (cv, []), answers)
  | t :: l =>
      match ts_date (timestamp t) with
      | Exc e => Some (Exc e, answers)
      | Ok day =>
          '(r, answers, _) ← rates_for cv day answers;
          match r with
          | Exc e => Some (Exc e, answers)
          | Ok (cv, rates) =>
              '(r, answers) ← convert_all cv l answers;
              Some ('(cv, l) ← r; Ok (cv, convert_with rates t :: l), answers)
          end
      end
  end.

Definition UC5Converter_group_by `{PyHash} (cv : Converter) (msg : Message) (answers : api_answers)
    : option (res (Converter * list (Body * Z)) * api_answers) :=
  match transactions_of (body_ msg) with
  | Exc e => Some (Exc e, answers)
  | Ok l =>
      '(r, answers) ← convert_all cv l answers;
      Some ('(cv, converted) ← r;
            c ← client_of (body_ msg);
            Ok (cv, [(Transactions c converted, hash_identity (producer_id msg) (seq msg))]),
            answers)
  end.

(** ** The strategies of [group_by/main.py] *)

Inductive GroupByStrategy :=
  GS_UC2_MAX_AMOUNT | GS_UC2_BANK_NAMES | GS_UC3_SUM | GS_UC4_COMPUTE_GRAPH | GS_UC5_CONVERTER | GS_UC5_COUNT.

Definition group_by_strategy_of (s : string) : res GroupByStrategy :=
  if String.eqb s "uc2_max_amount_group_by" then Ok GS_UC2_MAX_AMOUNT
  else if String.eqb s "uc2_bank_names_group_by" then Ok GS_UC2_BANK_NAMES
  else if String.eqb s "uc3_group_by_format" then Ok GS_UC3_SUM
  else if String.eqb s "uc4_compute_graph_group_by" then Ok GS_UC4_COMPUTE_GRAPH
  else if String.eqb s "uc5_converter" then Ok GS_UC5_CONVERTER
  else if String.eqb s "uc5_count_group_by" then Ok GS_UC5_COUNT
  else Exc ValueError.

(** The function of a strategy, for those that keep no state between messages. *)
Definition group_by_of_strategy `{PyHash} (s : GroupByStrategy) : option (Body → res (list (Body * Z))) :=
  match s with
  | GS_UC2_MAX_AMOUNT => Some UC2MaxAmount_group_by
  | GS_UC2_BANK_NAMES => Some UC2BankNames_group_by
  | GS_UC3_SUM => Some UC3Sum_group_by
  | GS_UC4_COMPUTE_GRAPH => Some UC4ComputeGraph_group_by
  | GS_UC5_CONVERTER => None
  | GS_UC5_COUNT => Some UC5Count_group_by
  end.

(** ** Groups are the entries of their affinity *)

Section affinity.
Context {K V : Type} `{!PyKey K} (aff : K → Z) (add : pydict K V → K → V → pydict K V).
Context (add_fresh : ∀ d k v, dget d k = None → add d k v = d ++ [(k, v)]).

Definition of_affinity (a : Z) (d : pydict K V) : pydict K V := filter (λ kv, aff kv.1 = a) d.

Lemma dget_filter_fresh (P : K * V → Prop) `{!∀ x, Decision (P x)} (d : pydict K V) k :
  dget d k = None → dget (filter P d) k = None.
Proof.
  rewrite !dget_None. intros Hn Hin. apply Hn.
  apply list_elem_of_fmap in Hin as (k' & -> & Hin). unfold dkeys in *.
  apply list_elem_of_fmap in Hin as (e & -> & [_ Hin]%list_elem_of_filter).
  by do 2 apply list_elem_of_fmap_2.
Qed.

Lemma by_affinity_spec (d : pydict K V) :
  dict_wf d →
  dict_wf (by_affinity aff add d) ∧
  ∀ a, dget (by_affinity aff add d) a =
    match of_affinity a d with [] => None | g => Some g end.
Proof.
  induction d as [|[k v] d IH] using rev_ind; intros Hd; [split; [apply nil_wf|done]|].
  assert (Hd' : dict_wf d ∧ dget d k = None).
  { unfold dict_wf, dkeys in Hd. rewrite !fmap_app in Hd. apply NoDup_app in Hd as (H1 & H2 & _).
    split; [done|]. apply dget_None. intros Hin. apply (H2 _ Hin). by left. }
  destruct Hd' as [Hd' Hk]. destruct (IH Hd') as [IHw IHg].
  unfold by_affinity. rewrite foldl_app. cbn [foldl fst snd]. fold (by_affinity aff add d).
  split; [by apply dset_wf|]. intros a. rewrite dget_dset.
  assert (Hg : dget_or [] (by_affinity aff add d) (aff k) = of_affinity (aff k) d).
  { unfold dget_or. rewrite IHg. by destruct (of_affinity (aff k) d). }
  unfold of_affinity at 1. rewrite filter_app.
  destruct (decide (pyeq (aff k) a)) as [Ha|Ha].
  - assert (aff k = a) as <- by exact Ha. rewrite filter_cons_True by done.
    rewrite Hg, add_fresh by by apply dget_filter_fresh.
    fold (of_affinity (aff k) d). cbn. by destruct (of_affinity (aff k) d).
  - rewrite filter_cons_False by (intros E; apply Ha; exact E). rewrite app_nil_r. apply IHg.
Qed.

(** Every entry is in the group of its affinity, and in no other. *)
Lemma elem_yield_groups body (d : pydict K V) m a :
  dict_wf d →
  (m, a) ∈ yield_groups body (by_affinity aff add d) ↔
    m = body (of_affinity a d) ∧ of_affinity a d ≠ [].
Proof.
  intros Hd. destruct (by_affinity_spec d Hd) as [Hw Hg]. unfold yield_groups. rewrite list_elem_of_fmap. split.
  - intros ([a' g] & [= -> ->] & Hin). apply (elem_dget _ _ _ Hw) in Hin. rewrite Hg in Hin.
    destruct (of_affinity a' d); [done|]. by injection Hin as <-.
  - intros [-> Hne]. specialize (Hg a). destruct (of_affinity a d) as [|e g] eqn:E; [done|].
    apply dget_Some_elem in Hg as (a' & Hp & Hin). assert (a' = a) as -> by exact Hp.
    by exists (a, e :: g).
Qed.
End affinity.

(** ** The dictionaries a batch is grouped in *)

Lemma max_update_wf d b acc amt : dict_wf d → dict_wf (max_update d b acc amt).
Proof.
  intros Hd. unfold max_update. destruct (dget d b) as [m|]; [|by apply dset_wf].
  destruct (flt m.2 amt); [by apply dset_wf|done].
Qed.

Lemma max_of_batch_wf l : dict_wf (max_of_batch l).
Proof. unfold max_of_batch. apply foldl_invariant; [apply nil_wf|]. intros. by apply max_update_wf. Qed.

Lemma dset_append {K V} `{!PyKey K} (d : pydict K V) k v : dget d k = None → dset d k v = d ++ [(k, v)].
Proof. apply dset_fresh. Qed.
