(* ===== verification/Spill.v ===== *)
(** * Spill files: [common/checkpoint/persistent_spill.py], [multi_shard_spill.py],
    [join/join_fns/line_spill.py]

    Append-only text files on a durable directory. A file object buffers what is
    written to it; the buffer reaches the file when it is flushed, or earlier. A
    crash loses the buffers and keeps the files. The text is ASCII, one byte per
    character. Creating and removing the directory itself is not modelled: the
    source recreates it when a file is opened. *)

From S2P Require Import Prelude.
From S2P Require Import PyDict.
From S2P Require Import PyValues.
From S2P Require Import PyText.
From S2P Require Import PyTime.
From S2P Require Import PyRepr.

(** ** Text files *)

(** Reading in text mode: every line ending becomes one newline. *)
Fixpoint universal_newlines (l : chars) : chars :=
  match l with
  | [] => []
  | c :: l' =>
      if bool_decide (c = chr 13) then
        match l' with
        | d :: _ => if bool_decide (d = c_newline) then universal_newlines l'
                    else c_newline :: universal_newlines l'
        | [] => [c_newline]
        end
      else c :: universal_newlines l'
  end.

(** The lines of a text, each with its newline, the last one perhaps without. *)
Fixpoint lines_of (l : chars) : list chars :=
  match l with
  | [] => []
  | c :: l =>
      if bool_decide (c = c_newline) then [c] :: lines_of l
      else match lines_of l with
           | [] => [[c]]
           | w :: ws => (c :: w) :: ws
           end
  end.

(** [for line in open(path)] *)
Definition file_lines (l : chars) : list chars := lines_of (universal_newlines l).

Lemma universal_newlines_id l : chr 13 ∉ l → universal_newlines l = l.
Proof.
  induction l as [|c l IH]; [done|]. intros [H1 H2]%not_elem_of_cons. cbn.
  rewrite bool_decide_eq_false_2 by congruence. by rewrite IH.
Qed.

Lemma concat_lines l : List.concat (lines_of l) = l.
Proof.
  induction l as [|c l IH]; [done|]. cbn. case_bool_decide; cbn; [by rewrite IH|].
  destruct (lines_of l) as [|w ws]; cbn in *; by rewrite <- IH.
Qed.

Lemma concat_file_lines l : chr 13 ∉ l → List.concat (file_lines l) = l.
Proof. intros H. unfold file_lines. by rewrite universal_newlines_id, concat_lines. Qed.

(** [f.truncate(n)]: cut, or extended with NUL bytes. *)
Definition truncate (n : nat) (l : chars) : chars := take n l ++ replicate (n - length l) (chr 0).

(** Does [l] start with [p], end with [q] and have something in between? *)
Definition glob_match (p q l : chars) : bool :=
  bool_decide (take (length p) l = p) && bool_decide (drop (length l - length q) l = q)
  && (length p + length q <=? length l)%nat.

Section spill.
Context {K : Type} `{!PyKey K} (path : K → string).

Record Spill := mkSpill {
  handles : pydict K chars;        (* open files: what each still buffers *)
  files : pydict string chars      (* the directory *)
}.
Implicit Types (s : Spill) (k : K).

Definition spill_init (dir : pydict string chars) : Spill := mkSpill [] dir.

(** *** The operations both classes share *)

(** Opening for append creates the file. *)
Definition open_append (fs : pydict string chars) (p : string) : pydict string chars :=
  dsetdefault fs p [].

Definition write_file (fs : pydict string chars) (p : string) (data : chars) : pydict string chars :=
  dset fs p (dget_or [] fs p ++ data).

(** [handle.flush()] on the handle of [k] *)
Definition flush_handle s k : Spill :=
  match dget (handles s) k with
  | Some pending => mkSpill (dset (handles s) k []) (write_file (files s) (path k) pending)
  | None => s
  end.

(** The handle popped and closed. *)
Definition close_handle s k : Spill :=
  let s := flush_handle s k in mkSpill (ddel (handles s) k) (files s).

(** The handle of [k], opened when there is none. *)
Definition get_handle s k : Spill :=
  match dget (handles s) k with
  | Some _ => s
  | None => mkSpill (dset (handles s) k []) (open_append (files s) (path k))
  end.

Definition spill_append s k (line : chars) : Spill :=
  let s := get_handle s k in
  mkSpill (dset (handles s) k (dget_or [] (handles s) k ++ line)) (files s).

Definition unlink s k : Spill := mkSpill (handles s) (ddel (files s) (path k)).

Definition read_file s k : list chars :=
  match dget (files s) (path k) with Some l => file_lines l | None => [] end.

Definition spill_clear s k : Spill := unlink (close_handle s k) k.

(** Every handle flushed; the length of every file with a handle. *)
Definition spill_snapshot s : Spill * res (list (K * Z)) :=
  let s' := foldl flush_handle s (dkeys (handles s)) in
  (s', mapR (λ k, l ← of_opt OSError (dget (files s') (path k)); Ok (k, Z.of_nat (length l)))
         (dkeys (handles s))).

(** Truncating to a recorded length the files that are still there. *)
Definition truncate_file (fs : pydict string chars) (p : string) (n : Z) : pydict string chars :=
  match dget fs p with Some l => dset fs p (truncate (Z.to_nat n) l) | None => fs end.

(** *** What happens outside the program's control *)

(** The buffer of [k] spills its first [n] characters to the file by itself. *)
Definition writeback s k (n : nat) : Spill :=
  match dget (handles s) k with
  | Some pending =>
      mkSpill (dset (handles s) k (drop n pending)) (write_file (files s) (path k) (take n pending))
  | None => s
  end.

Definition crash s : Spill := mkSpill [] (files s).

(** Everything written for [k], buffered or not. *)
Definition content s k : chars := dget_or [] (files s) (path k) ++ dget_or [] (handles s) k.
End spill.

Arguments Spill K : clear implicits.

(** The loop that joins the lines in batches. *)
Fixpoint batch_loop (batch_lines : Z) (batch : list chars) (lines : list chars) : list chars :=
  match lines with
  | [] => match batch with [] => [] | _ => [List.concat batch] end
  | line :: lines =>
      let batch := batch ++ [line] in
      if batch_lines <=? Z.of_nat (length batch)
      then List.concat batch :: batch_loop batch_lines [] lines
      else batch_loop batch_lines batch lines
  end.

(** ** [PersistentSpill]: one file per client *)

Section persistent.
Context (tag : string).

Definition PersistentSpill : Type := Spill uuid.
Implicit Types (s : PersistentSpill) (c : uuid).

Definition ps_path c : string := tag +:+ "_" +:+ uuid_str c +:+ ".spill".

Definition ps_append s c (line : chars) : PersistentSpill := spill_append ps_path s c line.

Definition ps_iter_lines s c : PersistentSpill * list chars :=
  let s := flush_handle ps_path s c in (s, read_file ps_path s c).

Definition ps_iter_chunks s c (batch_lines : Z) : PersistentSpill * list chars :=
  let '(s, lines) := ps_iter_lines s c in (s, batch_loop batch_lines [] lines).

Definition ps_iter_lines_and_clear s c : PersistentSpill * list chars :=
  let s := close_handle ps_path s c in (unlink ps_path s c, read_file ps_path s c).

Definition ps_iter_chunks_and_clear s c (batch_lines : Z) : PersistentSpill * list chars :=
  let '(s, lines) := ps_iter_lines_and_clear s c in (s, batch_loop batch_lines [] lines).

Definition ps_clear s c : PersistentSpill := spill_clear ps_path s c.

Definition ps_clear_all s : PersistentSpill :=
  let s := foldl (close_handle ps_path) s (dkeys (handles s)) in
  mkSpill [] (filter (λ e,
    glob_match (chars_of (tag +:+ "_")) (chars_of ".spill") (chars_of e.1) = false) (files s)).

Definition ps_snapshot_state s : PersistentSpill * res (pydict string Z) :=
  let '(s, r) := spill_snapshot ps_path s in
  (s, l ← r; Ok (dict_of ((λ e, (uuid_str e.1, e.2)) <$> l))).

(** Every file of the snapshot truncated and opened again. *)
Definition ps_restore_one (r : res PersistentSpill) (e : string * Z) : res PersistentSpill :=
  s ← r;
  c ← uuid_of_str e.1;
  let fs := truncate_file (files s) (ps_path c) e.2 in
  Ok (mkSpill (dset (handles s) c []) (open_append fs (ps_path c))).

Definition ps_restore_state s (snapshot : pydict string Z) : res PersistentSpill :=
  foldl ps_restore_one (Ok (mkSpill [] (files s))) snapshot.
End persistent.

(** ** [MultiShardSpill]: one file per client and shard *)

(** [s.rsplit("|", 1)], unpacked in two. *)
Definition rsplit_bar (s : string) : res (string * string) :=
  match reverse (split_on (chr 124) (chars_of s)) with
  | last :: ((_ :: _) as before) =>
      let front := reverse before in
      Ok (str_of (List.concat (match front with
            | [] => [] | w :: ws => w :: ((λ x, chr 124 :: x) <$> ws) end)), str_of last)
  | _ => Exc ValueError
  end.

Section multi.
Context (tag : string).

Definition MultiShardSpill : Type := Spill (uuid * Z).
Implicit Types (s : MultiShardSpill) (c : uuid) (shard : Z).

Definition ms_path (k : uuid * Z) : string :=
  tag +:+ "_" +:+ uuid_str k.1 +:+ "_" +:+ str_int k.2 +:+ ".spill".

Definition ms_append s c shard (line : chars) : MultiShardSpill := spill_append ms_path s (c, shard) line.

(** [_disk_shards]: the files of the client whose middle part is a number. *)
Definition ms_disk_shards s c : pyset Z :=
  let prefix := chars_of (tag +:+ "_" +:+ uuid_str c +:+ "_") in
  let suffix := chars_of ".spill" in
  set_of (omap (λ name,
    let l := chars_of name in
    if glob_match prefix suffix l then
      match int_str (str_of (slice (length prefix) (length l - length suffix) l)) with
      | Ok n => Some n
      | Exc _ => None
      end
    else None) (dkeys (files s))).

Definition ms_shards_of s c : list Z :=
  let from_handles := set_of ((filter (λ k, k.1 = c) (dkeys (handles s))).*2) in
  merge_sort Z.le (supdate from_handles (ms_disk_shards s c)).

Definition ms_read_shard s c shard : MultiShardSpill * list chars :=
  let s := close_handle ms_path s (c, shard) in (s, read_file ms_path s (c, shard)).

Definition ms_clear s c : MultiShardSpill :=
  let s := foldl (close_handle ms_path) s (filter (λ k, k.1 = c) (dkeys (handles s))) in
  foldl (λ s shard, unlink ms_path s (c, shard)) s (ms_disk_shards s c).

Definition ms_clear_all s : MultiShardSpill :=
  let s := foldl (close_handle ms_path) s (dkeys (handles s)) in
  mkSpill [] (filter (λ e,
    glob_match (chars_of (tag +:+ "_")) (chars_of ".spill") (chars_of e.1) = false) (files s)).

Definition ms_snapshot_state s : MultiShardSpill * res (pydict string Z) :=
  let '(s, r) := spill_snapshot ms_path s in
  (s, l ← r; Ok (dict_of ((λ e, (uuid_str e.1.1 +:+ "|" +:+ str_int e.1.2, e.2)) <$> l))).

Definition ms_restore_one (r : res MultiShardSpill) (e : string * Z) : res MultiShardSpill :=
  s ← r;
  '(client_str, shard_str) ← rsplit_bar e.1;
  c ← uuid_of_str client_str;
  shard ← int_str shard_str;
  Ok (mkSpill (handles s) (truncate_file (files s) (ms_path (c, shard)) e.2)).

Definition ms_restore_state s (snapshot : pydict string Z) : res MultiShardSpill :=
  foldl ms_restore_one (Ok (mkSpill [] (files s))) snapshot.
End multi.

(** ** The files under the operations *)

Lemma fst_fmap_pair {A B} (f : A → B) (l : list A) : ((λ x, (x, f x)) <$> l).*1 = l.
Proof. induction l as [|x l IH]; [done|]. csimpl. by rewrite IH. Qed.

(** What the other activity of a node does to its spill between a checkpoint
    and a crash. *)
Inductive spill_event (K : Type) :=
  | SpAppend (k : K) (line : chars)
  | SpFlush (k : K)
  | SpWriteback (k : K) (n : nat).
Arguments SpAppend {K}.
Arguments SpFlush {K}.
Arguments SpWriteback {K}.

Section spill_lemmas.
Context {K : Type} `{!PyKey K} (path : K → string).
Context (path_inj : ∀ k k', path k = path k' ↔ pyeq k k').
Implicit Types (s : Spill K) (k : K).

Definition file_of s k : option chars := dget (files s) (path k).

(** Every open handle has its file. *)
Definition spill_wf s : Prop :=
  dict_wf (handles s) ∧ ∀ k, dget (handles s) k ≠ None → file_of s k ≠ None.

Definition spill_step s (e : spill_event K) : Spill K :=
  match e with
  | SpAppend k line => spill_append path s k line
  | SpFlush k => flush_handle path s k
  | SpWriteback k n => writeback path s k n
  end.

Lemma path_pyeq k k' : pyeq (path k) (path k') ↔ pyeq k k'.
Proof. rewrite <- path_inj. done. Qed.

Lemma decide_path {A} k k' (a b : A) :
  (if decide (pyeq (path k) (path k')) then a else b) = (if decide (pyeq k k') then a else b).
Proof.
  destruct (decide (pyeq k k')) as [H|H].
  - by rewrite decide_True by by apply path_pyeq.
  - by rewrite decide_False by (by rewrite path_pyeq).
Qed.

Lemma write_file_of fs k data k' :
  dget (write_file fs (path k) data) (path k') =
    if decide (pyeq k k') then Some (dget_or [] fs (path k') ++ data) else dget fs (path k').
Proof.
  unfold write_file. rewrite dget_dset, decide_path. destruct (decide (pyeq k k')) as [Hk|]; [|done].
  apply path_inj in Hk. by rewrite Hk.
Qed.

Lemma open_append_of fs k k' :
  dget (open_append fs (path k)) (path k') =
    if decide (pyeq k k') then Some (dget_or [] fs (path k')) else dget fs (path k').
Proof.
  unfold open_append. rewrite dget_dsetdefault, decide_path.
  destruct (decide (pyeq k k')) as [Hk|]; [|done]. apply path_inj in Hk. by rewrite Hk.
Qed.

Lemma truncate_file_of fs k n k' :
  dget (truncate_file fs (path k) n) (path k') =
    if decide (pyeq k k') then truncate (Z.to_nat n) <$> dget fs (path k') else dget fs (path k').
Proof.
  unfold truncate_file. destruct (decide (pyeq k k')) as [Hk|Hk].
  - pose proof Hk as Hp. apply path_inj in Hp. rewrite <- Hp.
    destruct (dget fs (path k)) as [l|] eqn:E; cbn; [|done]. by rewrite dget_dset_eq.
  - destruct (dget fs (path k)); [|done]. by rewrite dget_dset_ne by (by rewrite path_pyeq).
Qed.

Lemma flush_file s k k' :
  file_of (flush_handle path s k) k' =
    if decide (pyeq k k') then
      match dget (handles s) k' with
      | Some pending => Some (dget_or [] (files s) (path k') ++ pending)
      | None => file_of s k'
      end
    else file_of s k'.
Proof.
  unfold flush_handle, file_of. destruct (decide (pyeq k k')) as [Hk|Hk].
  - rewrite <- (dget_pyeq (handles s) k k') by done.
    destruct (dget (handles s) k); [|done]. cbn. by rewrite write_file_of, decide_True.
  - destruct (dget (handles s) k); [|done]. cbn. by rewrite write_file_of, decide_False.
Qed.

Lemma flush_handles s k k' :
  dget (handles (flush_handle path s k)) k' =
    if decide (pyeq k k') then (λ _, []) <$> dget (handles s) k' else dget (handles s) k'.
Proof.
  unfold flush_handle. destruct (decide (pyeq k k')) as [Hk|Hk].
  - rewrite <- (dget_pyeq (handles s) k k') by done.
    destruct (dget (handles s) k) eqn:E; cbn.
    + rewrite dget_dset, decide_True by done. done.
    + by rewrite <- (dget_pyeq (handles s) k k').
  - destruct (dget (handles s) k); [|done]. cbn. by rewrite dget_dset_ne.
Qed.

Lemma flush_wf s k : spill_wf s → spill_wf (flush_handle path s k).
Proof.
  intros [Hd Hf]. split.
  - unfold flush_handle. destruct (dget (handles s) k); [|done]. by apply dset_wf.
  - intros k'. rewrite flush_handles, flush_file. destruct (decide (pyeq k k')); [|apply Hf].
    specialize (Hf k'). by destruct (dget (handles s) k').
Qed.

Lemma writeback_wf s k n : spill_wf s → spill_wf (writeback path s k n).
Proof.
  intros [Hd Hf]. unfold writeback. destruct (dget (handles s) k) as [pending|] eqn:E; [|done].
  split; cbn; [by apply dset_wf|]. intros k'. unfold file_of. cbn.
  rewrite dget_dset, write_file_of. by destruct (decide (pyeq k k')); [|apply Hf].
Qed.

Lemma get_handle_wf s k : spill_wf s → spill_wf (get_handle path s k).
Proof.
  intros [Hd Hf]. unfold get_handle. destruct (dget (handles s) k) eqn:E; [done|].
  split; cbn; [by apply dset_wf|]. intros k'. unfold file_of. cbn.
  rewrite dget_dset, open_append_of. by destruct (decide (pyeq k k')); [|apply Hf].
Qed.

Lemma append_wf s k line : spill_wf s → spill_wf (spill_append path s k line).
Proof.
  intros Hwf. unfold spill_append. destruct (get_handle_wf s k Hwf) as [Hd Hf].
  split; cbn; [by apply dset_wf|]. intros k'. rewrite dget_dset.
  destruct (decide (pyeq k k')) as [Hk|]; [|apply Hf]. intros _. apply Hf.
  rewrite <- (dget_pyeq _ k k') by done. unfold get_handle.
  destruct (dget (handles s) k) eqn:E; cbn; [congruence|]. by rewrite dget_dset_eq.
Qed.

Lemma spill_step_wf s e : spill_wf s → spill_wf (spill_step s e).
Proof. destruct e; cbn; auto using append_wf, flush_wf, writeback_wf. Qed.

(** Files only grow. *)
Definition grows s s' : Prop :=
  ∀ k l, file_of s k = Some l → ∃ l', file_of s' k = Some (l ++ l').

Lemma grows_files s s' : files s = files s' → grows s s'.
Proof. intros E k l H. exists []. unfold file_of in *. by rewrite app_nil_r, <- E. Qed.

Lemma grows_refl s : grows s s.
Proof. by apply grows_files. Qed.

Lemma grows_trans s1 s2 s3 : grows s1 s2 → grows s2 s3 → grows s1 s3.
Proof.
  intros H1 H2 k l H. apply H1 in H as (l1 & H). apply H2 in H as (l2 & H).
  exists (l1 ++ l2). by rewrite app_assoc.
Qed.

Lemma grows_write s k data hs :
  grows s (mkSpill hs (write_file (files s) (path k) data)).
Proof.
  intros k' l H. unfold file_of in *. cbn. rewrite write_file_of.
  destruct (decide (pyeq k k')); [|exists []; by rewrite app_nil_r]. unfold dget_or. rewrite H. by exists data.
Qed.

Lemma spill_step_grows s e : grows s (spill_step s e).
Proof.
  destruct e as [k line|k|k n]; cbn.
  - unfold spill_append, get_handle. destruct (dget (handles s) k); [by apply grows_files|].
    intros k' l H. unfold file_of in *. cbn. rewrite open_append_of.
    exists []. rewrite app_nil_r. destruct (decide (pyeq k k')); [|done]. unfold dget_or. by rewrite H.
  - unfold flush_handle. destruct (dget (handles s) k); [apply grows_write|apply grows_refl].
  - unfold writeback. destruct (dget (handles s) k); [apply grows_write|apply grows_refl].
Qed.

Lemma spill_run_grows s evs : grows s (foldl spill_step s evs).
Proof.
  revert s. induction evs as [|e evs IH]; intros s; cbn; [apply grows_refl|].
  eapply grows_trans; [apply spill_step_grows|apply IH].
Qed.

Lemma truncate_app l l' : truncate (length l) (l ++ l') = l.
Proof.
  unfold truncate. rewrite take_app_length, length_app.
  replace (length l - (length l + length l'))%nat with 0%nat by lia. apply app_nil_r.
Qed.
(** *** A checkpoint, then a crash *)

Lemma flush_content s k k' :
  spill_wf s → content path (flush_handle path s k) k' = content path s k'.
Proof.
  intros [_ Hf]. unfold content, dget_or at 1. fold (file_of (flush_handle path s k) k').
  rewrite flush_file. unfold dget_or at 2. rewrite flush_handles.
  destruct (decide (pyeq k k')) as [Hk|]; [|done]. unfold file_of, dget_or.
  destruct (dget (handles s) k'); cbn; [|done]. by rewrite app_nil_r.
Qed.

Lemma flush_dmem s k k' : dmem (handles (flush_handle path s k)) k' = dmem (handles s) k'.
Proof.
  unfold dmem. rewrite flush_handles. destruct (decide (pyeq k k')); [|done].
  by destruct (dget (handles s) k').
Qed.

(** Flushing a list of handles: what is in the files afterwards. *)
Lemma flush_all_spec ks s :
  spill_wf s →
  let s' := foldl (flush_handle path) s ks in
  spill_wf s' ∧ (∀ k, content path s' k = content path s k) ∧
  (∀ k, dmem (handles s') k = dmem (handles s) k) ∧
  (∀ k, smem k ks = true → dmem (handles s) k = true → file_of s' k = Some (content path s k)).
Proof.
  revert s. induction ks as [|k0 ks IH]; intros s Hwf; cbn.
  - split_and!; [done..|]. intros k Hk. by apply smem_spec in Hk; apply not_elem_of_nil in Hk.
  - destruct (IH _ (flush_wf s k0 Hwf)) as (H1 & H2 & H3 & H4). split_and!; [done|..].
    + intros k. rewrite H2. by apply flush_content.
    + intros k. rewrite H3. apply flush_dmem.
    + intros k Hk Hd. destruct (smem k ks) eqn:E.
      { rewrite H4; [by rewrite flush_content|done|by rewrite flush_dmem]. }
      apply smem_spec in Hk. csimpl in Hk. apply elem_of_cons in Hk as [Hk|Hk];
        [|by apply smem_spec in Hk; congruence].
      pose proof (H2 k) as Hc. rewrite flush_content in Hc by done. rewrite <- Hc.
      assert (Hp : pyeq k0 k) by by symmetry.
      assert (Hh : dget (handles (foldl (flush_handle path) (flush_handle path s k0) ks)) k = Some []).
      { assert (H0 : dget (handles (flush_handle path s k0)) k = Some []).
        { rewrite flush_handles, decide_True by done. unfold dmem in Hd. by destruct (dget (handles s) k). }
        clear -H0. revert H0. generalize (flush_handle path s k0). induction ks as [|k1 ks IH]; intros s0 H0; [done|].
        cbn. apply IH. rewrite flush_handles, H0. by destruct (decide (pyeq k1 k)). }
      unfold content, dget_or. rewrite Hh. cbn. rewrite app_nil_r.
      destruct H1 as [_ Hf]. specialize (Hf k). unfold file_of in *. rewrite Hh in Hf.
      destruct (dget (files _) (path k)); [done|]. by destruct Hf.
Qed.

Lemma dmem_dkeys {V} (d : pydict K V) k : k ∈ dkeys d → dmem d k = true.
Proof.
  intros Hk. unfold dmem. destruct (dget d k) eqn:E; [done|]. apply dget_None in E.
  destruct E. apply list_elem_of_fmap. eauto.
Qed.

(** The checkpoint records the length of everything written so far. *)
Lemma snapshot_spec s :
  spill_wf s →
  ∃ s', spill_snapshot path s =
      (s', Ok ((λ k, (k, Z.of_nat (length (content path s k)))) <$> dkeys (handles s))) ∧
    spill_wf s' ∧
    (∀ k, dmem (handles s) k = true → file_of s' k = Some (content path s k)).
Proof.
  intros Hwf. destruct (flush_all_spec (dkeys (handles s)) s Hwf) as (H1 & H2 & H3 & H4).
  assert (H5 : ∀ k, dmem (handles s) k = true →
    file_of (foldl (flush_handle path) s (dkeys (handles s))) k = Some (content path s k)).
  { intros k Hk. apply H4; [|done]. apply smem_spec. unfold dmem in Hk.
    destruct (dget (handles s) k) eqn:E; [|done].
    destruct (decide (key_of k ∈ key_of <$> dkeys (handles s))) as [|Hn]; [done|].
    apply dget_None in Hn. congruence. }
  eexists. split; [|by split].
  unfold spill_snapshot. f_equal.
  pose proof (mapR_map (λ k, l ← of_opt OSError (file_of (foldl (flush_handle path) s (dkeys (handles s))) k);
    Ok (k, Z.of_nat (length l))) id (λ k, (k, Z.of_nat (length (content path s k)))) (dkeys (handles s))) as Hm.
  rewrite list_fmap_id in Hm. apply Hm. intros k Hk. unfold id.
  rewrite H5 by by apply dmem_dkeys. done.
Qed.

(** Truncating the files of a list of keys to the lengths of their contents. *)
Lemma truncate_files_spec (l : list (K * Z)) fs k :
  NoDup (key_of <$> l.*1) →
  dget (foldl (λ fs e, truncate_file fs (path e.1) e.2) fs l) (path k) =
    match dget l k with
    | Some n => truncate (Z.to_nat n) <$> dget fs (path k)
    | None => dget fs (path k)
    end.
Proof.
  revert fs. induction l as [|[k0 n] l IH]; intros fs Hd; [done|]. csimpl in Hd.
  apply NoDup_cons in Hd as [Hn Hd]. cbn. rewrite IH by done. rewrite truncate_file_of.
  destruct (decide (pyeq k0 k)) as [Hk|Hk]; [|done].
  destruct (dget l k) eqn:E; [|done].
  rewrite <- (dget_pyeq l k0 k) in E by done.
  destruct Hn. destruct (decide (key_of k0 ∈ key_of <$> l.*1)) as [|Hx]; [done|].
  apply (proj2 (dget_None l k0)) in Hx. congruence.
Qed.

(** After a checkpoint, any activity and a crash, cutting the files back gives
    what was written when the checkpoint was taken. *)
Lemma truncate_rewinds s s' evs k :
  spill_wf s → dmem (handles s) k = true →
  (∀ k, dmem (handles s) k = true → file_of s' k = Some (content path s k)) →
  dget (foldl (λ fs e, truncate_file fs (path e.1) e.2) (files (crash (foldl spill_step s' evs)))
    ((λ k, (k, Z.of_nat (length (content path s k)))) <$> dkeys (handles s))) (path k)
  = Some (content path s k).
Proof.
  intros [Hd _] Hk Hs. pose proof (spill_run_grows s' evs k _ (Hs k Hk)) as [l Hl].
  unfold file_of in Hl. cbn [files crash]. rewrite truncate_files_spec.
  2: { by rewrite fst_fmap_pair. }
  unfold dmem in Hk. destruct (dget (handles s) k) as [v|] eqn:E; [|done].
  assert (Hg : dget ((λ k, (k, Z.of_nat (length (content path s k)))) <$> dkeys (handles s)) k
               = Some (Z.of_nat (length (content path s k)))).
  { apply dget_Some_elem in E as (k' & Hp & Hin).
    assert (Ec : content path s k' = content path s k).
    { unfold content, dget_or. rewrite (dget_pyeq (handles s) k' k) by done.
      by rewrite (proj2 (path_inj k' k) Hp). }
    rewrite <- Ec. erewrite dget_pyeq by (symmetry; exact Hp). apply elem_dget.
    - unfold dict_wf, dkeys at 1. by rewrite fst_fmap_pair.
    - apply list_elem_of_fmap. exists k'. split; [done|]. unfold dkeys.
      apply list_elem_of_fmap. by exists (k', v). }
  rewrite Hg, Hl. cbn. by rewrite Nat2Z.id, truncate_app.
Qed.
End spill_lemmas.

(** ** The two classes *)

Lemma chars_eq s1 s2 : chars_of s1 = chars_of s2 → s1 = s2.
Proof. apply chars_of_inj. Qed.

Lemma ps_path_inj tag c c' : ps_path tag c = ps_path tag c' ↔ pyeq c c'.
Proof.
  split.
  - intros H%(f_equal chars_of). unfold ps_path in H. rewrite !chars_of_app in H.
    apply app_inv_head, app_inv_head, app_inv_tail in H. apply chars_eq in H.
    apply uuid_str_pyeq. by rewrite H.
  - intros H. assert (c = c') as -> by exact H. done.
Qed.

Lemma ms_path_inj tag k k' : ms_path tag k = ms_path tag k' ↔ pyeq k k'.
Proof.
  split.
  - intros H%(f_equal chars_of). unfold ms_path in H. rewrite !chars_of_app in H.
    apply app_inv_head, app_inv_head in H.
    apply app_inj_1 in H as [H1 H2]; [|unfold chars_of; by rewrite !length_uuid_str].
    apply app_inv_head, app_inv_tail in H2. apply chars_eq in H1, H2.
    destruct k as [c n], k' as [c' n']; cbn in *.
    assert (pyeq c c') as Hc by (apply uuid_str_pyeq; by rewrite H1).
    assert (pyeq n n') as Hn by (apply str_int_inj; by rewrite H2).
    assert (c = c') as -> by exact Hc. assert (n = n') as -> by exact Hn. done.
  - intros H. destruct k as [c n], k' as [c' n']. injection H as Hc Hn. cbn in Hc, Hn.
    assert (c = c') as -> by exact Hc. assert (n = n') as -> by exact Hn. done.
Qed.

(** The key of a shard in the snapshot, read back. *)
Definition no_bar (c : char) : Prop := c ≠ chr 124.

Lemma no_bar_uuid u : chr 124 ∉ chars_of (uuid_str u).
Proof.
  assert (H : Forall no_bar (chars_of (uuid_str u))).
  { apply uuid_str_Forall; [|done]. intros c Hc ->. by apply Hc. }
  rewrite Forall_forall in H. intros Hin. by apply (H _ Hin).
Qed.

Lemma no_bar_int z : chr 124 ∉ chars_of (str_int z).
Proof.
  destruct (str_int_shape z) as (sg & c & l & E & Hsg & Hd & _). rewrite E.
  rewrite elem_of_app. intros [Hin|Hin].
  - destruct Hsg as [-> | ->]; [by apply not_elem_of_nil in Hin|].
    by apply list_elem_of_singleton in Hin.
  - rewrite Forall_forall in Hd. by apply Hd in Hin.
Qed.

Lemma rsplit_key c n : rsplit_bar (uuid_str c +:+ "|" +:+ str_int n) = Ok (uuid_str c, str_int n).
Proof.
  unfold rsplit_bar. rewrite !chars_of_app. change (chars_of "|") with [chr 124]. cbn [app].
  rewrite split_on_app by apply no_bar_uuid. rewrite split_on_free by apply no_bar_int.
  cbn [reverse rev_append drop fmap list_fmap List.concat]. unfold reverse. cbn.
  by rewrite app_nil_r, !str_of_chars.
Qed.

Lemma ms_key_inj (k k' : uuid * Z) :
  pyeq (uuid_str k.1 +:+ "|" +:+ str_int k.2) (uuid_str k'.1 +:+ "|" +:+ str_int k'.2) → pyeq k k'.
Proof.
  destruct k as [c n], k' as [c' n']. cbn [fst snd]. intros H.
  assert (H3 : Ok (uuid_str c, str_int n) = Ok (uuid_str c', str_int n')).
  { rewrite <- !rsplit_key. f_equal. exact H. }
  assert (H1 : uuid_str c = uuid_str c') by congruence.
  assert (H2 : str_int n = str_int n') by congruence.
  assert (Hc : pyeq c c') by (apply uuid_str_pyeq; unfold pyeq; by rewrite H1).
  assert (Hn : pyeq n n') by (apply str_int_inj; unfold pyeq; by rewrite H2).
  assert (c = c') as -> by exact Hc. assert (n = n') as -> by exact Hn. done.
Qed.

Lemma ps_restore_eq tag (l : list (uuid * Z)) s :
  foldl (ps_restore_one tag) (Ok s) ((λ e, (uuid_str e.1, e.2)) <$> l) =
  Ok (mkSpill (foldl (λ h e, dset h e.1 []) (handles s) l)
     (foldl (λ fs e, open_append (truncate_file fs (ps_path tag e.1) e.2) (ps_path tag e.1)) (files s) l)).
Proof.
  revert s. induction l as [|[c n] l IH]; intros s; [by destruct s|]. cbn [fmap list_fmap foldl].
  unfold ps_restore_one at 2. cbn [mbind res_bind fst snd]. rewrite uuid_of_str_str. cbn [mbind res_bind].
  by rewrite IH.
Qed.

Lemma ps_restore_files tag (l : list (uuid * Z)) fs c :
  NoDup (key_of <$> l.*1) →
  dget (foldl (λ fs e, open_append (truncate_file fs (ps_path tag e.1) e.2) (ps_path tag e.1)) fs l)
    (ps_path tag c) =
  match dget l c with
  | Some n => Some (default [] (truncate (Z.to_nat n) <$> dget fs (ps_path tag c)))
  | None => dget fs (ps_path tag c)
  end.
Proof.
  revert fs. induction l as [|[c0 n] l IH]; intros fs Hd; [done|]. csimpl in Hd.
  apply NoDup_cons in Hd as [Hn Hd]. cbn. rewrite IH by done.
  rewrite (open_append_of (ps_path tag) (ps_path_inj tag)). unfold dget_or.
  rewrite (truncate_file_of (ps_path tag) (ps_path_inj tag)).
  destruct (decide (pyeq c0 c)) as [Hk|Hk]; [|done].
  destruct (dget l c) eqn:E; [|done]. rewrite <- (dget_pyeq l c0 c) in E by done.
  destruct Hn. destruct (decide (key_of c0 ∈ key_of <$> l.*1)) as [|Hx]; [done|].
  apply (proj2 (dget_None l c0)) in Hx. congruence.
Qed.

Definition ms_key (k : uuid * Z) : string := uuid_str k.1 +:+ "|" +:+ str_int k.2.

Lemma ms_restore_parsed tag s key a b c shard n :
  rsplit_bar key = Ok (a, b) → uuid_of_str a = Ok c → int_str b = Ok shard →
  ms_restore_one tag (Ok s) (key, n) =
    Ok (mkSpill (handles s) (truncate_file (files s) (ms_path tag (c, shard)) n)).
Proof.
  intros H1 H2 H3. unfold ms_restore_one. cbn [mbind res_bind fst snd].
  rewrite H1. cbn [mbind res_bind]. rewrite H2. cbn [mbind res_bind]. by rewrite H3.
Qed.

Lemma ms_restore_key tag s k n :
  ms_restore_one tag (Ok s) (ms_key k, n) = Ok (mkSpill (handles s) (truncate_file (files s) (ms_path tag k) n)).
Proof.
  destruct k as [c shard].
  exact (ms_restore_parsed tag s _ _ _ c shard n (rsplit_key c shard) (uuid_of_str_str c) (int_str_str_int shard)).
Qed.

Lemma ms_restore_eq tag (l : list ((uuid * Z) * Z)) s :
  foldl (ms_restore_one tag) (Ok s) ((λ e, (ms_key e.1, e.2)) <$> l) =
  Ok (mkSpill (handles s) (foldl (λ fs e, truncate_file fs (ms_path tag e.1) e.2) (files s) l)).
Proof.
  revert s. induction l as [|[k n] l IH]; intros s; [by destruct s|].
  rewrite fmap_cons. cbn [foldl fst snd]. by rewrite ms_restore_key, IH.
Qed.

(** The lengths a checkpoint records, before their keys are printed. *)
Definition lengths {K} `{!PyKey K} (path : K → string) (s : Spill K) : list (K * Z) :=
  (λ k, (k, Z.of_nat (length (content path s k)))) <$> dkeys (handles s).

Lemma lengths_wf {K} `{!PyKey K} (path : K → string) s :
  spill_wf path s → dict_wf (lengths path s).
Proof. intros [Hd _]. unfold dict_wf, dkeys at 1, lengths. by rewrite fst_fmap_pair. Qed.

Lemma dget_lengths_None {K} `{!PyKey K} (path : K → string) s k :
  dmem (handles s) k = false → dget (lengths path s) k = None.
Proof.
  intros H. apply dget_None. unfold dkeys at 1, lengths. rewrite fst_fmap_pair.
  apply dget_None. unfold dmem in H. by destruct (dget (handles s) k).
Qed.

Lemma ps_snapshot_spec tag s :
  spill_wf (ps_path tag) s →
  ∃ s', ps_snapshot_state tag s =
      (s', Ok ((λ e, (uuid_str e.1, e.2)) <$> lengths (ps_path tag) s)) ∧
    (∀ c, dmem (handles s) c = true → file_of (ps_path tag) s' c = Some (content (ps_path tag) s c)).
Proof.
  intros Hwf. destruct (snapshot_spec (ps_path tag) (ps_path_inj tag) s Hwf) as (s' & E & _ & Hs).
  exists s'. split; [|done]. unfold ps_snapshot_state. rewrite E. cbn. do 2 f_equal.
  apply (dict_of_fmap_keys uuid_str (λ n : Z, n)); [apply uuid_str_pyeq|]. by apply lengths_wf.
Qed.

Lemma ms_snapshot_spec tag s :
  spill_wf (ms_path tag) s →
  ∃ s', ms_snapshot_state tag s =
      (s', Ok ((λ e, (ms_key e.1, e.2)) <$> lengths (ms_path tag) s)) ∧
    (∀ k, dmem (handles s) k = true → file_of (ms_path tag) s' k = Some (content (ms_path tag) s k)).
Proof.
  intros Hwf. destruct (snapshot_spec (ms_path tag) (ms_path_inj tag) s Hwf) as (s' & E & _ & Hs).
  exists s'. split; [|done]. unfold ms_snapshot_state. rewrite E. cbn. do 2 f_equal.
  apply (dict_of_fmap_keys ms_key (λ n : Z, n));
    [apply ms_key_inj|]. by apply lengths_wf.
Qed.

Lemma iter_lines_content tag s c :
  spill_wf (ps_path tag) s → (ps_iter_lines tag s c).2 = file_lines (content (ps_path tag) s c).
Proof.
  intros Hwf. pose proof (flush_content (ps_path tag) (ps_path_inj tag) s c c Hwf) as Hc.
  unfold ps_iter_lines, read_file. cbn [snd]. rewrite <- Hc. unfold content, dget_or.
  rewrite flush_handles, decide_True by done.
  destruct (dget (handles s) c); cbn; rewrite app_nil_r; by destruct (dget _ (ps_path tag c)).
Qed.

Lemma iter_lines_clean tag s c :
  dget (handles s) c = Some [] ∨ dget (handles s) c = None →
  (ps_iter_lines tag s c).2 = file_lines (dget_or [] (files s) (ps_path tag c)).
Proof.
  unfold ps_iter_lines, read_file, dget_or. cbn [snd].
  pose proof (flush_file (ps_path tag) (ps_path_inj tag) s c c) as Hf.
  rewrite decide_True in Hf by done. unfold file_of in Hf. rewrite Hf. clear Hf.
  intros [-> | ->]; [unfold dget_or; by rewrite app_nil_r|]. by destruct (dget _ (ps_path tag c)).
Qed.

Lemma foldl_open_handles {K} `{!PyKey K} (l : list (K * Z)) (h : pydict K chars) k :
  dget (foldl (λ h e, dset h e.1 []) h l) k =
    match dget l k with Some _ => Some [] | None => dget h k end.
Proof.
  revert h. induction l as [|[k0 n] l IH]; intros h; [done|]. cbn. rewrite IH, dget_dset.
  destruct (decide (pyeq k0 k)); [|done]. by destruct (dget l k).
Qed.

(** ** Properties *)

(** C19: A checkpoint of a spill and a restore after a crash give back, for
    every client that had an open file at the checkpoint, exactly the lines
    spilled by then, whatever was appended, flushed or written back between the
    checkpoint and the crash; the files of the other clients are as the crash
    left them. *)
Theorem persistent_spill_rewinds (tag : string) (s : PersistentSpill) (evs : list (spill_event uuid))
    (Hwf : spill_wf (ps_path tag) s) :
  ∃ s0 sn s2, ps_snapshot_state tag s = (s0, Ok sn) ∧
    let s1 := crash (foldl (spill_step (ps_path tag)) s0 evs) in
    ps_restore_state tag s1 sn = Ok s2 ∧
    (∀ c, dmem (handles s) c = true → (ps_iter_lines tag s2 c).2 = (ps_iter_lines tag s c).2) ∧
    (∀ c, dmem (handles s) c = false → (ps_iter_lines tag s2 c).2 = read_file (ps_path tag) s1 c).
Proof.
  destruct (ps_snapshot_spec tag s Hwf) as (s0 & E & Hs0).
  eexists s0, _, _. split; [exact E|]. cbn zeta. split; [apply ps_restore_eq|].
  assert (Hl : NoDup (key_of <$> (lengths (ps_path tag) s).*1)) by by apply lengths_wf.
  split; intros c Hc.
  - pose proof (truncate_rewinds (ps_path tag) (ps_path_inj tag) s s0 evs c Hwf Hc Hs0) as Ht.
    fold (lengths (ps_path tag) s) in Ht.
    rewrite truncate_files_spec in Ht by (apply ps_path_inj || exact Hl).
    rewrite (iter_lines_content tag s) by done. rewrite iter_lines_clean.
    2: { cbn [handles]. rewrite foldl_open_handles. destruct (dget (lengths _ _) c); [by left|by right]. }
    unfold dget_or. cbn [files]. rewrite ps_restore_files by exact Hl.
    destruct (dget (lengths (ps_path tag) s) c); by rewrite Ht.
  - apply (dget_lengths_None (ps_path tag)) in Hc. rewrite iter_lines_clean.
    2: { right. cbn [handles]. by rewrite foldl_open_handles, Hc. }
    unfold dget_or, read_file. cbn [files]. rewrite ps_restore_files, Hc by exact Hl.
    by destruct (dget _ (ps_path tag c)).
Qed.

Lemma demo_spill_wf : spill_wf (ps_path "uc1") (ps_append "uc1" (spill_init []) (uuid_lit 7) [chr 65; c_newline]).
Proof. apply append_wf; [apply ps_path_inj|]. split; [apply nil_wf|]. intros k H. by destruct H. Qed.

Lemma persistent_spill_rewinds_witness :
  let s := ps_append "uc1" (spill_init []) (uuid_lit 7) [chr 65; c_newline] in
  let evs := [SpAppend (uuid_lit 7) [chr 66; c_newline]; SpWriteback (uuid_lit 7) 1] in
  ∃ s0 sn s2, ps_snapshot_state "uc1" s = (s0, Ok sn) ∧
    let s1 := crash (foldl (spill_step (ps_path "uc1")) s0 evs) in
    ps_restore_state "uc1" s1 sn = Ok s2 ∧
    (∀ c, dmem (handles s) c = true → (ps_iter_lines "uc1" s2 c).2 = (ps_iter_lines "uc1" s c).2) ∧
    (∀ c, dmem (handles s) c = false → (ps_iter_lines "uc1" s2 c).2 = read_file (ps_path "uc1") s1 c).
Proof. cbv zeta. apply (persistent_spill_rewinds "uc1"), demo_spill_wf. Defined.

(** The same for the files of a client's shards. The restore opens no
    file, so the next checkpoint records none of the files restored, and a
    second crash before they are appended to leaves them as they are. *)
Theorem multi_shard_spill_rewinds (tag : string) (s : MultiShardSpill)
    (evs : list (spill_event (uuid * Z))) (Hwf : spill_wf (ms_path tag) s) :
  ∃ s0 sn s2, ms_snapshot_state tag s = (s0, Ok sn) ∧
    let s1 := crash (foldl (spill_step (ms_path tag)) s0 evs) in
    ms_restore_state tag s1 sn = Ok s2 ∧
    (∀ c shard, dmem (handles s) (c, shard) = true →
       file_of (ms_path tag) s2 (c, shard) = Some (content (ms_path tag) s (c, shard))) ∧
    (∀ c shard, dmem (handles s) (c, shard) = false →
       file_of (ms_path tag) s2 (c, shard) = file_of (ms_path tag) s1 (c, shard)) ∧
    (ms_snapshot_state tag s2).2 = Ok [].
Proof.
  destruct (ms_snapshot_spec tag s Hwf) as (s0 & E & Hs0).
  eexists s0, _, _. split; [exact E|]. cbn zeta. split; [apply ms_restore_eq|].
  assert (Hl : NoDup (key_of <$> (lengths (ms_path tag) s).*1)) by by apply lengths_wf.
  split; [|split; [|done]]; intros c shard Hc.
  - exact (truncate_rewinds (ms_path tag) (ms_path_inj tag) s s0 evs (c, shard) Hwf Hc Hs0).
  - apply (dget_lengths_None (ms_path tag)) in Hc. unfold file_of. cbn [files].
    rewrite truncate_files_spec by (apply ms_path_inj || exact Hl). by rewrite Hc.
Qed.

Lemma multi_shard_spill_rewinds_witness :
  let s := ms_append "uc4" (spill_init []) (uuid_lit 7) 3 [chr 65; c_newline] in
  ∃ s0 sn s2, ms_snapshot_state "uc4" s = (s0, Ok sn) ∧
    let s1 := crash (foldl (spill_step (ms_path "uc4")) s0 [SpAppend (uuid_lit 7, 3) [chr 66]]) in
    ms_restore_state "uc4" s1 sn = Ok s2 ∧
    (∀ c shard, dmem (handles s) (c, shard) = true →
       file_of (ms_path "uc4") s2 (c, shard) = Some (content (ms_path "uc4") s (c, shard))) ∧
    (∀ c shard, dmem (handles s) (c, shard) = false →
       file_of (ms_path "uc4") s2 (c, shard) = file_of (ms_path "uc4") s1 (c, shard)) ∧
    (ms_snapshot_state "uc4" s2).2 = Ok [].
Proof.
  cbv zeta. apply (multi_shard_spill_rewinds "uc4"). apply append_wf; [apply ms_path_inj|].
  split; [apply nil_wf|]. intros k H. by destruct H.
Defined.

(** Lines of a client whose file was created after the last checkpoint
    survive the crash: when the messages they came from are delivered again, the
    lines are in the file twice. *)
Theorem new_spill_file_duplicates (tag : string) (c : uuid) (line : chars) :
  let s := spill_init [] in
  let '(s0, sn) := ps_snapshot_state tag s in
  let s1 := crash (flush_handle (ps_path tag) (ps_append tag s0 c line) c) in
  sn = Ok [] ∧
  ∃ s2, ps_restore_state tag s1 [] = Ok s2 ∧
    (ps_iter_lines tag (ps_append tag s2 c line) c).2 = file_lines (line ++ line).
Proof.
  cbn [ps_snapshot_state]. split; [done|]. eexists. split; [reflexivity|].
  unfold ps_append, spill_append, get_handle, flush_handle, write_file, open_append, dsetdefault,
    dmem, dget_or, ps_iter_lines, read_file. cbn.
  repeat (rewrite decide_True by done; cbn). unfold flush_handle, write_file, dget_or. cbn.
  repeat (rewrite decide_True by done; cbn). done.
Qed.
