(* ===== verification/SpillLog.v ===== *)
(** * What a spill holds: a log of lines

    The abstraction the clients of the spill files rely on: a spill stands for
    the list of (key, line) pairs appended to it, whatever of it is still in a
    buffer. Appending extends the log, reading a key gives its lines in order. *)

From Stdlib Require Import Floats.SpecFloat.
From S2P Require Import Prelude.
From S2P Require Import PyDict.
From S2P Require Import PyValues.
From S2P Require Import PyText.
From S2P Require Import PyTime.
From S2P Require Import PyFloat.
From S2P Require Import PyRepr.
From S2P Require Import Wire.
From S2P Require Import Spill.

(** A line has no line ending inside. *)
Definition clean_char (c : char) : Prop := c ≠ c_newline ∧ c ≠ chr 13.
Definition clean (t : chars) : Prop := Forall clean_char t.

(** The line as it is written. *)
Definition terminated (t : chars) : chars := t ++ [c_newline].
Definition text_of (ts : list chars) : chars := List.concat (terminated <$> ts).

Lemma text_of_app ts1 ts2 : text_of (ts1 ++ ts2) = text_of ts1 ++ text_of ts2.
Proof. unfold text_of. by rewrite fmap_app, List.concat_app. Qed.

Lemma text_of_one t : text_of [t] = terminated t.
Proof. unfold text_of. cbn. apply app_nil_r. Qed.

Lemma universal_newlines_clean t l :
  clean t → universal_newlines (t ++ c_newline :: l) = t ++ c_newline :: universal_newlines l.
Proof.
  induction 1 as [|c t [Hc1 Hc2] _ IH]; [done|]. cbn.
  rewrite bool_decide_eq_false_2 by done. by rewrite IH.
Qed.

Lemma lines_of_clean t l : clean t → lines_of (t ++ c_newline :: l) = terminated t :: lines_of l.
Proof.
  induction 1 as [|c t [Hc1 Hc2] _ IH]; [done|]. cbn.
  rewrite bool_decide_eq_false_2 by done. by rewrite IH.
Qed.

Lemma file_lines_text ts : Forall clean ts → file_lines (text_of ts) = terminated <$> ts.
Proof.
  unfold file_lines. induction 1 as [|t ts Ht _ IH]; [done|].
  change (t :: ts) with ([t] ++ ts) at 1. rewrite text_of_app, text_of_one. unfold terminated at 1.
  rewrite <- app_assoc. cbn [app]. rewrite universal_newlines_clean by done.
  rewrite lines_of_clean by done. by rewrite IH.
Qed.

(** ** JSON texts are clean *)

Lemma json_escape_clean c : clean (json_escape c).
Proof.
  assert (H : forallb (λ d, negb (Ascii.eqb d c_newline) && negb (Ascii.eqb d (chr 13))) (json_escape c) = true)
    by by destruct c as [[] [] [] [] [] [] [] []].
  rewrite forallb_forall in H. apply Forall_forall. intros d Hd. apply list_elem_of_In in Hd.
  apply H, andb_true_iff in Hd as [H1 H2]. by split; intros ->.
Qed.

Lemma json_string_clean s : clean (json_string s).
Proof.
  unfold json_string. constructor; [done|]. apply Forall_app. split; [|by repeat constructor].
  induction (chars_of s) as [|c l IH]; cbn; [constructor|]. apply Forall_app.
  split; [apply json_escape_clean|done].
Qed.

Lemma digit_clean c : is_digit c = true → clean_char c.
Proof. intros H. split; intros ->; discriminate H. Qed.

Lemma str_int_clean z : clean (chars_of (str_int z)).
Proof.
  destruct (str_int_shape z) as (sg & c & l & -> & Hsg & Hd & _). apply Forall_app. split.
  - destruct Hsg as [-> | ->]; repeat constructor; discriminate.
  - eapply Forall_impl; [exact Hd|]. apply digit_clean.
Qed.

(** A text the number scanner takes whole is clean. *)
Lemma span_digits_clean l ds r :
  span_digits l = (ds, r) → clean r → clean l.
Proof.
  revert ds r. induction l as [|c l IH]; intros ds r H Hr; cbn in H; [constructor|].
  destruct (is_digit c) eqn:Ec; [|by simplify_eq].
  destruct (span_digits l) as [d r0]. simplify_eq. constructor; [by apply digit_clean|]. by eapply IH.
Qed.

Lemma json_number_clean l v : json_number l = Some (v, []) → clean l.
Proof.
  unfold json_number.
  destruct (match l with
            | c :: l' => if bool_decide (c = c_minus) then ([c], l') else ([], l)
            | [] => ([], l) end) as [sg l1] eqn:E.
  intros H. destruct (json_int_part l1) as [[ds r]|] eqn:E1; [|done]. cbn [mbind option_bind] in H.
  destruct (json_frac r) as [fr r1] eqn:E2. destruct (json_exp r1) as [ex r2] eqn:E3.
  assert (r2 = []) as ->.
  { destruct (fr ++ ex);
      [destruct (res_opt (int_str _)) | destruct (res_opt (float_str _))]; cbn in H; by simplify_eq. }
  assert (Hr1 : clean r1).
  { destruct r1 as [|c r1]; [constructor|]. unfold json_exp in E3. case_bool_decide as Hc; [|by simplify_eq].
    constructor; [by split; intros ->; vm_compute in Hc|].
    destruct r1 as [|s r1']; [constructor|].
    destruct (bool_decide (s = c_plus) || bool_decide (s = c_minus)) eqn:Es.
    - destruct (span_digits r1') as [d r0] eqn:Ed. destruct d; simplify_eq.
      constructor; [|eapply span_digits_clean; [exact Ed|constructor]].
      apply orb_true_iff in Es as [->%bool_decide_eq_true| ->%bool_decide_eq_true]; by split.
    - destruct (span_digits (s :: r1')) as [d r0] eqn:Ed. destruct d; simplify_eq.
      eapply span_digits_clean; [exact Ed|constructor]. }
  assert (Hr : clean r).
  { destruct r as [|c r]; [constructor|]. unfold json_frac in E2. case_bool_decide as Hc; [|by simplify_eq].
    destruct (span_digits r) as [d r0] eqn:Ed. destruct d; simplify_eq.
    constructor; [by split|]. by eapply span_digits_clean. }
  assert (Hl1 : clean l1).
  { unfold json_int_part in E1. destruct (span_digits l1) as [d r0] eqn:Ed. destruct d as [|c d]; [done|].
    case_bool_decide; simplify_eq; [|by eapply span_digits_clean].
    eapply span_digits_clean; [exact Ed|]. by apply Forall_app in Hr as [_ Hr]. }
  destruct l as [|c l]; [constructor|]. case_bool_decide as Hc; simplify_eq; [|done].
  constructor; [by split|done].
Qed.

Lemma json_dumps_clean v : json_ok v = true → ∀ t, json_dumps v = Ok t → clean t.
Proof.
  assert (Hl : ∀ l, Forall (λ v, json_ok v = true → ∀ t, json_dumps v = Ok t → clean t) l →
    forallb json_ok l = true → ∀ t, json_dumps (PList l) = Ok t → clean t).
  { clear v. intros l IH Hok t. rewrite json_dumps_list. intros (items & Hi & [= <-])%bind_Ok.
    assert (Hc : Forall clean items).
    { revert items Hi. induction IH as [|v l Hv _ IHl]; cbn; intros items Hi; res_inv; [constructor|].
      apply andb_true_iff in Hok as [Ho1 Ho2]. constructor; auto. }
    constructor; [by split|]. apply Forall_app. split; [|by repeat constructor].
    destruct Hc as [|x xs Hx Hxs]; cbn; [constructor|]. apply Forall_app. split; [done|].
    clear -Hxs. induction Hxs as [|y ys Hy _ IHy]; cbn; [constructor|].
    repeat (constructor; [by split|]). apply Forall_app; split; [done|exact IHy]. }
  induction v as [v Hv|l IH|l IH] using pyval_list_ind; intros Hok t Ht; [|by eapply Hl..].
  destruct v; try done; cbn in Ht; try injection Ht as <-.
  - repeat constructor; discriminate.
  - destruct b; repeat constructor; discriminate.
  - apply str_int_clean.
  - destruct f as [s|s| |s m e]; try (destruct s); try (repeat constructor; discriminate).
    all: cbn [json_ok json_exact] in Hok;
      match type of Hok with context [json_number ?x] =>
        destruct (json_number x) as [[v0 [|]]|] eqn:E end;
      first [discriminate Hok | by apply json_number_clean in E | by destruct v0].
  - apply json_string_clean.
  - apply json_string_clean.
  - apply json_string_clean.
Qed.

(** ** The log of a spill *)

Definition lines_at {K} `{!PyKey K} (W : list (K * chars)) (k : K) : list chars :=
  (filter (λ e, pyeq e.1 k) W).*2.

Lemma lines_at_snoc {K} `{!PyKey K} (W : list (K * chars)) k t k' :
  lines_at (W ++ [(k, t)]) k' = lines_at W k' ++ (if decide (pyeq k k') then [t] else []).
Proof.
  unfold lines_at. rewrite filter_app, fmap_app. f_equal.
  destruct (decide (pyeq k k')); [by rewrite filter_cons_True|by rewrite filter_cons_False].
Qed.

Section logged.
Context {K : Type} `{!PyKey K} (path : K → string).
Context (path_inj : ∀ k k', path k = path k' ↔ pyeq k k').
Implicit Types (s : Spill K) (k : K) (W : list (K * chars)).

(** The spill [s] holds the log [W]. *)
Record logged s W : Prop := {
  log_wf : spill_wf path s;
  log_clean : Forall clean W.*2;
  log_content : ∀ k, content path s k = text_of (lines_at W k)
}.

Lemma logged_init : logged (spill_init []) [].
Proof. split; [split; [apply nil_wf|by intros k H; destruct H]|constructor|done]. Qed.

Lemma lines_at_clean W k : Forall clean W.*2 → Forall clean (lines_at W k).
Proof.
  unfold lines_at. rewrite !Forall_fmap. intros H. by apply Forall_filter_keep.
Qed.

(** Appending to a file changes no other, and adds the text at the end. *)
Lemma append_content s k line k' :
  spill_wf path s →
  content path (spill_append path s k line) k' =
    content path s k' ++ (if decide (pyeq k k') then line else []).
Proof.
  intros [_ Hf]. unfold spill_append, content, get_handle, dget_or.
  destruct (dget (handles s) k) as [p|] eqn:E; cbn [handles files].
  - rewrite dget_dset. destruct (decide (pyeq k k')) as [Hk|]; [|by rewrite app_nil_r].
    rewrite E, <- (dget_pyeq (handles s) k k'), E by done. cbn. by rewrite app_assoc.
  - rewrite dget_dset, (open_append_of path path_inj), dget_dset_eq. unfold dget_or.
    destruct (decide (pyeq k k')) as [Hk|Hk]; cbn.
    + rewrite <- (dget_pyeq (handles s) k k'), E by done. cbn. by rewrite app_nil_r.
    + by rewrite dget_dset_ne, app_nil_r.
Qed.

Lemma logged_append s W k t :
  logged s W → clean t → logged (spill_append path s k (terminated t)) (W ++ [(k, t)]).
Proof.
  intros [Hwf Hc Hs] Ht. split.
  - by apply append_wf.
  - rewrite fmap_app. apply Forall_app. split; [done|]. by repeat constructor.
  - intros k'. rewrite append_content, Hs, lines_at_snoc, text_of_app by done. f_equal.
    destruct (decide (pyeq k k')); [by rewrite text_of_one|done].
Qed.

Lemma logged_flush s W k : logged s W → logged (flush_handle path s k) W.
Proof.
  intros [Hwf Hc Hs]. split; [by apply flush_wf|done|]. intros k'. by rewrite flush_content.
Qed.

Lemma close_handles s k k' :
  dict_wf (handles s) →
  dget (handles (close_handle path s k)) k' = if decide (pyeq k k') then None else dget (handles s) k'.
Proof.
  intros Hwf. unfold close_handle. cbn [handles].
  assert (Hd : dict_wf (handles (flush_handle path s k))).
  { unfold flush_handle. destruct (dget (handles s) k); [by apply dset_wf|done]. }
  rewrite dget_ddel by done. destruct (decide (pyeq k k')); [done|].
  rewrite flush_handles by done. by rewrite decide_False.
Qed.

Lemma logged_close s W k : logged s W → logged (close_handle path s k) W.
Proof.
  intros Hl. pose proof (logged_flush s W k Hl) as [[Hd Hf] Hc Hs].
  assert (Hh : ∀ k', dget (handles (close_handle path s k)) k' =
    if decide (pyeq k k') then None else dget (handles s) k').
  { intros k'. apply close_handles. apply Hl. }
  assert (Hfl : ∀ k', dget (handles (flush_handle path s k)) k' =
    if decide (pyeq k k') then (λ _, []) <$> dget (handles s) k' else dget (handles s) k')
    by (intros; by apply flush_handles).
  split; [|done|].
  - split; [by apply ddel_wf|]. intros k'. rewrite Hh.
    destruct (decide (pyeq k k')) eqn:E; [done|]. specialize (Hf k'). rewrite Hfl, E in Hf. exact Hf.
  - intros k'. rewrite <- Hs. unfold content, dget_or. rewrite Hh, Hfl. f_equal.
    destruct (decide (pyeq k k')); [|done]. by destruct (dget (handles s) k').
Qed.

(** What reading a closed file gives. *)
Lemma logged_read s W k :
  logged s W → dget (handles s) k = None → read_file path s k = terminated <$> lines_at W k.
Proof.
  intros [Hwf Hc Hs] Hh. specialize (Hs k). unfold content, dget_or in Hs. rewrite Hh in Hs.
  cbn in Hs. rewrite app_nil_r in Hs. unfold read_file.
  rewrite <- file_lines_text by by apply lines_at_clean. rewrite <- Hs.
  by destruct (dget (files s) (path k)).
Qed.

(** A key with lines has a handle or a file. *)
Lemma logged_there s W k t :
  logged s W → t ∈ lines_at W k → dget (handles s) k ≠ None ∨ dget (files s) (path k) ≠ None.
Proof.
  intros [Hwf Hc Hs] Ht. specialize (Hs k). unfold content, dget_or in Hs.
  destruct (dget (handles s) k); [by left|]. destruct (dget (files s) (path k)); [by right|].
  destruct (lines_at W k) as [|x ts]; [by apply not_elem_of_nil in Ht|].
  unfold text_of, terminated in Hs. cbn in Hs. by destruct x.
Qed.
End logged.

(** ** The shards of a client *)

Lemma glob_match_middle p q m : glob_match p q (p ++ m ++ q) = true.
Proof.
  unfold glob_match. rewrite take_app_length, bool_decide_eq_true_2 by done.
  rewrite !length_app.
  replace (length p + (length m + length q) - length q)%nat with (length (p ++ m)) by (rewrite length_app; lia).
  rewrite app_assoc, drop_app_length, bool_decide_eq_true_2 by done. cbn. apply Nat.leb_le. lia.
Qed.

Lemma slice_middle {A} (p q m : list A) :
  slice (length p) (length (p ++ m ++ q) - length q) (p ++ m ++ q) = m.
Proof.
  unfold slice. rewrite drop_app_length, !length_app.
  replace (length p + (length m + length q) - length q - length p)%nat with (length m) by lia.
  apply take_app_length.
Qed.

Lemma set_of_int (l : list Z) x : x ∈ l → x ∈ set_of l.
Proof.
  intros H. apply elem_smem, smem_set_of, smem_spec in H. cbn in H.
  apply list_elem_of_fmap in H as (y & E & Hy). unfold id in E. by subst.
Qed.

Lemma smem_int (l : list Z) x : smem x l = true ↔ x ∈ l.
Proof.
  rewrite smem_spec. cbn. split.
  - intros (y & E & Hy)%list_elem_of_fmap. unfold id in E. by subst.
  - intros Hx. apply list_elem_of_fmap. by exists x.
Qed.

Lemma ms_shards_complete tag s c shard :
  dget (handles s) (c, shard) ≠ None ∨ dget (files s) (ms_path tag (c, shard)) ≠ None →
  shard ∈ ms_shards_of tag s c.
Proof.
  intros H. unfold ms_shards_of. rewrite merge_sort_Permutation.
  apply smem_int, smem_supdate. destruct H as [H|H].
  - left. apply smem_set_of, smem_int. destruct (dget (handles s) (c, shard)) as [v|] eqn:E; [|done].
    apply dget_Some_elem in E as ([c' n] & Hp & Hin). injection Hp as Hc Hn. cbn in Hc, Hn.
    unfold id in Hc, Hn. subst. apply list_elem_of_fmap. exists (c, shard). split; [done|].
    apply list_elem_of_filter. split; [done|]. unfold dkeys. apply list_elem_of_fmap. by exists (c, shard, v).
  - right. unfold ms_disk_shards. apply smem_set_of, smem_int, list_elem_of_omap.
    destruct (dget (files s) (ms_path tag (c, shard))) as [v|] eqn:E; [|done].
    apply dget_Some_elem in E as (name & Hp & Hin). exists name.
    assert (Hname : name = ms_path tag (c, shard)) by exact Hp.
    split; [unfold dkeys; apply list_elem_of_fmap; by exists (name, v)|].
    rewrite Hname. unfold ms_path. cbn [fst snd].
    assert (Ech : chars_of (tag +:+ "_" +:+ uuid_str c +:+ "_" +:+ str_int shard +:+ ".spill") =
      chars_of (tag +:+ "_" +:+ uuid_str c +:+ "_") ++ chars_of (str_int shard) ++ chars_of ".spill").
    { rewrite !chars_of_app. by rewrite <- !app_assoc. }
    rewrite Ech, glob_match_middle, slice_middle, str_of_chars, int_str_str_int. done.
Qed.

Lemma ms_shards_NoDup tag s c : NoDup (ms_shards_of tag s c).
Proof.
  unfold ms_shards_of. rewrite merge_sort_Permutation.
  assert (H : set_wf (supdate (set_of ((filter (λ k, k.1 = c) (dkeys (handles s))).*2)) (ms_disk_shards tag s c)))
    by (apply supdate_wf, set_of_wf).
  unfold set_wf in H. cbn in H. by rewrite list_fmap_id in H.
Qed.

(** A checkpoint flushes the handles and keeps the log. *)
Lemma logged_snapshot tag s W :
  logged (ms_path tag) s W →
  ∃ s' sn, ms_snapshot_state tag s = (s', Ok sn) ∧ logged (ms_path tag) s' W.
Proof.
  intros [Hwf Hc Hs]. destruct (ms_snapshot_spec tag s Hwf) as (s' & E & _).
  exists s'. eexists. split; [exact E|].
  assert (Hs' : s' = foldl (flush_handle (ms_path tag)) s (dkeys (handles s))).
  { unfold ms_snapshot_state, spill_snapshot in E. by injection E as <- _. }
  destruct (flush_all_spec (ms_path tag) (ms_path_inj tag) (dkeys (handles s)) s Hwf) as (H1 & H2 & _).
  subst s'. split; [done..|]. intros k. by rewrite H2.
Qed.

Lemma logged_ps_snapshot tag s W :
  logged (ps_path tag) s W →
  ∃ s' sn, ps_snapshot_state tag s = (s', Ok sn) ∧ logged (ps_path tag) s' W.
Proof.
  intros [Hwf Hc Hs]. destruct (ps_snapshot_spec tag s Hwf) as (s' & E & _).
  exists s'. eexists. split; [exact E|].
  assert (Hs' : s' = foldl (flush_handle (ps_path tag)) s (dkeys (handles s))).
  { unfold ps_snapshot_state, spill_snapshot in E. by injection E as <- _. }
  destruct (flush_all_spec (ps_path tag) (ps_path_inj tag) (dkeys (handles s)) s Hwf) as (H1 & H2 & _).
  subst s'. split; [done..|]. intros k. by rewrite H2.
Qed.

(** Iterating over a client's lines gives all of them, the buffered ones too. *)
Lemma logged_iter tag s W c :
  logged (ps_path tag) s W →
  ∃ s', ps_iter_lines tag s c = (s', terminated <$> lines_at W c) ∧ logged (ps_path tag) s' W.
Proof.
  intros Hl. pose proof (logged_flush (ps_path tag) (ps_path_inj tag) s W c Hl) as Hl'.
  unfold ps_iter_lines. eexists. split; [|exact Hl']. f_equal. unfold read_file.
  pose proof (log_content _ _ _ Hl' c) as Hc. unfold content in Hc.
  assert (Hh : dget_or [] (handles (flush_handle (ps_path tag) s c)) c = []).
  { unfold dget_or. rewrite flush_handles, decide_True by done. by destruct (dget (handles s) c). }
  rewrite Hh, app_nil_r in Hc.
  rewrite <- file_lines_text by (by eapply lines_at_clean, log_clean). rewrite <- Hc. unfold dget_or.
  by destruct (dget _ (ps_path tag c)).
Qed.

(** ** Logs of entries by client

    A user of a client's file appends the text of an entry; what the file stands
    for is the list of entries. *)

Section client_log.
Context {A : Type} (text : A → chars) (tag : string).
Implicit Types (W : list (uuid * A)) (c : uuid).

Definition client_log s W : Prop := logged (ps_path tag) s ((λ e, (e.1, text e.2)) <$> W).

Lemma client_log_init : client_log (spill_init []) [].
Proof. apply logged_init; apply ps_path_inj. Qed.

Lemma filter_client c c' (l : list A) :
  (filter (λ e, e.1 = c') ((λ x, (c, x)) <$> l)).*2 = if decide (c = c') then l else [].
Proof.
  induction l as [|x l IH]; [by destruct (decide _)|]. rewrite fmap_cons, filter_cons. cbn [fst].
  destruct (decide (c = c')); [|done]. by rewrite fmap_cons, IH.
Qed.

Lemma lines_at_client W c :
  lines_at ((λ e, (e.1, text e.2)) <$> W) c = text <$> (filter (λ e, e.1 = c) W).*2.
Proof.
  unfold lines_at. induction W as [|[c' e] W IH]; [done|]. rewrite fmap_cons, !filter_cons. cbn [fst snd].
  destruct (decide (pyeq c' c)) as [E|E], (decide (c' = c)) as [E'|E']; [|by destruct E'|by destruct E; subst|done].
  rewrite !fmap_cons. cbn [snd]. by f_equal.
Qed.

Lemma client_log_append c s W x :
  clean (text x) → client_log s W → client_log (ps_append tag s c (terminated (text x))) (W ++ [(c, x)]).
Proof. intros Hx Hl. unfold client_log. rewrite fmap_app. by apply (logged_append _ (ps_path_inj tag)). Qed.

(** The lines of a client, as an iteration over its file gives them. *)
Lemma client_log_iter s W c :
  client_log s W →
  ∃ s', ps_iter_lines tag s c = (s', terminated <$> (text <$> (filter (λ e, e.1 = c) W).*2)) ∧ client_log s' W.
Proof. intros Hl. destruct (logged_iter tag s _ c Hl) as (s' & E & Hl'). exists s'. by rewrite lines_at_client in E. Qed.
End client_log.
