(* ===== verification/Aggregates.v ===== *)
(** * Aggregates of UC2 and UC3: [aggregate/aggregate_fns]

    The state of each client as a dictionary, the accumulation of one partial
    result, the final results with their affinity, and the checkpoint format. *)

From Stdlib Require Import Floats.SpecFloat.
From S2P Require Import Prelude.
From S2P Require Import PyDict.
From S2P Require Import PyValues.
From S2P Require Import PyText.
From S2P Require Import PyTime.
From S2P Require Import PyFloat.
From S2P Require Import Wire.
From S2P Require Import Messages.
From S2P Require Import Stamping.
From S2P Require Import Checkpoint.
From S2P Require Import RingNode.
From S2P Require Import Filters.
From S2P Require Import GroupBy.

(** The keys of a per-client dictionary printed, and read back. *)
Definition clients_out {V W} (f : V → W) (d : pydict uuid V) : pydict string W :=
  dict_of ((λ e, (uuid_str e.1, f e.2)) <$> d).
Definition clients_in {V W} (f : W → V) (d : pydict string W) : res (pydict uuid V) :=
  l ← mapR (λ e, c ← uuid_of_str e.1; Ok (c, f e.2)) d; Ok (dict_of l).

Section aggregates.
Context `{PyHash}.

(** ** [UC2BankNamesAggregateFn] *)

Definition names_state : Type := pydict uuid (pydict string string).

Definition UC2BankNames_aggregate (st : names_state) (msg : Body) : res names_state :=
  match msg with
  | BankNames c data =>
      let st := dsetdefault st c [] in
      Ok (dset st c (dupdate (dget_or [] st c) data))
  | _ => Exc AttributeError
  end.

(** The result is a generator: empty when the client is unknown. *)
Definition UC2BankNames_get_result (st : names_state) (c : uuid) : res (names_state * list (Body * Z)) :=
  match dget st c with
  | None => Ok (st, [])
  | Some names =>
      Ok (ddel st c, (λ e, (BankNames c [(e.1, e.2)], hash_str e.1)) <$> names)
  end.

Definition UC2BankNames_discard (st : names_state) (c : uuid) : names_state := ddel st c.

Definition UC2BankNames_snapshot_state (st : names_state) : pydict string (pydict string string) :=
  clients_out id st.
Definition UC2BankNames_restore_state (sn : pydict string (pydict string string)) : res names_state :=
  clients_in dict_of sn.

Definition UC2BankNamesAggregateFn : AggregateFn names_state := {|
  aggregate := UC2BankNames_aggregate;
  get_result := UC2BankNames_get_result;
  discard := UC2BankNames_discard
|}.

(** ** [UC2MaxAmountAggregateFn] *)

Definition max_state : Type := pydict uuid (pydict string (string * float)).

Definition max_merge (maxes data : pydict string (string * float)) : pydict string (string * float) :=
  foldl (λ d e, max_update d e.1 e.2.1 e.2.2) maxes data.

Definition UC2MaxAmount_aggregate (st : max_state) (msg : Body) : res max_state :=
  match msg with
  | MaxByBank c data =>
      let st := dsetdefault st c [] in
      Ok (dset st c (max_merge (dget_or [] st c) data))
  | _ => Exc AttributeError
  end.

Definition UC2MaxAmount_get_result (st : max_state) (c : uuid) : res (max_state * list (Body * Z)) :=
  match dget st c with
  | None => Ok (st, [])
  | Some maxes =>
      Ok (ddel st c, (λ e, (MaxByBank c [(e.1, (e.2.1, e.2.2))], hash_str e.1)) <$> maxes)
  end.

Definition UC2MaxAmount_discard (st : max_state) (c : uuid) : max_state := ddel st c.

(** A client's entries are written as the list of its items. *)
Definition UC2MaxAmount_snapshot_state (st : max_state)
    : pydict string (list (string * (string * float))) := clients_out id st.
Definition UC2MaxAmount_restore_state (sn : pydict string (list (string * (string * float))))
    : res max_state := clients_in dict_of sn.

Definition UC2MaxAmountAggregateFn : AggregateFn max_state := {|
  aggregate := UC2MaxAmount_aggregate;
  get_result := UC2MaxAmount_get_result;
  discard := UC2MaxAmount_discard
|}.

(** ** [UC3AvgAggregateFn] *)

Definition sum_state : Type := pydict uuid (pydict string (float * Z)).

Definition sum_merge (sums data : pydict string (float * Z)) : pydict string (float * Z) :=
  foldl (λ d e, let curr := dget_or (f_of_Z 0, 0) d e.1 in
                dset d e.1 (fadd curr.1 e.2.1, curr.2 + e.2.2)) sums data.

Definition UC3Avg_aggregate (st : sum_state) (msg : Body) : res sum_state :=
  match msg with
  | SumByPaymentFormat c data =>
      let st := dsetdefault st c [] in
      Ok (dset st c (sum_merge (dget_or [] st c) data))
  | _ => Exc AttributeError
  end.

(** All the averages are computed before the first one is yielded. *)
Definition UC3Avg_get_result (st : sum_state) (c : uuid) : res (sum_state * list (Body * Z)) :=
  match dget st c with
  | None => Ok (st, [])
  | Some sums =>
      averages ← mapR (λ e, avg ← py_fdiv e.2.1 (f_of_Z e.2.2); Ok (e.1, avg)) sums;
      Ok (ddel st c, (λ e, (AvgByFormat c [(e.1, e.2)], hash_str e.1)) <$> dict_of averages)
  end.

Definition UC3Avg_discard (st : sum_state) (c : uuid) : sum_state := ddel st c.

Definition UC3Avg_snapshot_state (st : sum_state) : pydict string (list (string * (float * Z))) :=
  clients_out id st.
Definition UC3Avg_restore_state (sn : pydict string (list (string * (float * Z)))) : res sum_state :=
  clients_in dict_of sn.

Definition UC3AvgAggregateFn : AggregateFn sum_state := {|
  aggregate := UC3Avg_aggregate;
  get_result := UC3Avg_get_result;
  discard := UC3Avg_discard
|}.

(** Partial results received one after the other. *)
Fixpoint aggregate_all {F} (fn : AggregateFn F) (st : F) (ms : list Body) : res F :=
  match ms with
  | [] => Ok st
  | m :: ms => st ← aggregate fn st m; aggregate_all fn st ms
  end.
End aggregates.

(** ** Checkpoints round trip *)

Lemma clients_roundtrip {V W} (f : V → W) (g : W → V) (d : pydict uuid V) :
  dict_wf d → (∀ c v, (c, v) ∈ d → g (f v) = v) → clients_in g (clients_out f d) = Ok d.
Proof.
  intros Hd Hg. unfold clients_in, clients_out.
  rewrite (dict_of_fmap_keys uuid_str f) by (done || apply uuid_str_pyeq).
  rewrite (mapR_map _ _ id).
  - rewrite list_fmap_id. cbn. by rewrite dict_of_items.
  - intros [c v] Hin. cbn [fst snd id]. rewrite uuid_of_str_str. cbn. by rewrite (Hg c).
Qed.

(** The per-client state of each function is well formed. *)
Definition state_wf {V} (st : pydict uuid (pydict string V)) : Prop :=
  dict_wf st ∧ ∀ c d, (c, d) ∈ st → dict_wf d.

Lemma state_roundtrip {V} (st : pydict uuid (pydict string V)) :
  state_wf st → clients_in dict_of (clients_out id st) = Ok st.
Proof.
  intros [H1 H2]. apply clients_roundtrip; [done|]. intros c d Hin. by apply dict_of_items, (H2 c).
Qed.

(** ** Which bank has which maximum *)

(** The entries of a batch, bank first. *)
Definition tx_entries (l : list Transaction) : list (string * (string * float)) :=
  (λ t, (from_bank t, (from_account t, amount_paid t))) <$> l.

(** [v] is the maximum of the entries of [bank]: one of them, and none of them
    is larger; [None] when the bank has no entry. *)
Definition is_max (bank : string) (S : list (string * (string * float))) (v : option (string * float)) : Prop :=
  match v with
  | None => ∀ e, e ∈ S → e.1 ≠ bank
  | Some m => (bank, m) ∈ S ∧ ∀ e, e ∈ S → e.1 = bank → flt m.2 e.2.2 = false
  end.

(** The larger of two maxima, the first one on a tie. *)
Definition max_opt (a b : option (string * float)) : option (string * float) :=
  match a, b with
  | Some x, Some y => if flt x.2 y.2 then Some y else Some x
  | Some x, None => Some x
  | None, b => b
  end.

Lemma elem_tx_entries e l :
  e ∈ tx_entries l ↔ ∃ t, t ∈ l ∧ e = (from_bank t, (from_account t, amount_paid t)).
Proof. unfold tx_entries. rewrite list_elem_of_fmap. naive_solver. Qed.

Definition no_nan (S : list (string * (string * float))) : Prop :=
  Forall (λ e, is_nan e.2.2 = false) S.

Lemma max_update_dget d b acc amt bank :
  dget (max_update d b acc amt) bank =
    if decide (b = bank) then max_opt (dget d bank) (Some (acc, amt)) else dget d bank.
Proof.
  unfold max_update, max_opt. destruct (decide (b = bank)) as [->|Hn].
  - destruct (dget d bank) as [m|] eqn:E; cbn; [|by rewrite dget_dset_eq].
    destruct (flt m.2 amt); [by rewrite dget_dset_eq|done].
  - destruct (dget d b) as [m|]; [destruct (flt m.2 amt)|]; rewrite ?dget_dset_ne by (intros H; apply Hn; exact H); done.
Qed.

Lemma max_merge_wf d l : dict_wf d → dict_wf (max_merge d l).
Proof. intros Hd. unfold max_merge. apply foldl_invariant; [done|]. intros. by apply max_update_wf. Qed.

Lemma max_merge_app d l1 l2 : max_merge d (l1 ++ l2) = max_merge (max_merge d l1) l2.
Proof. apply foldl_app. Qed.

Lemma max_of_batch_entries l : max_of_batch l = max_merge [] (tx_entries l).
Proof.
  unfold max_of_batch, max_merge, tx_entries. generalize (@nil (string * (string * float))).
  induction l as [|t l IH]; intros d; [done|]. cbn. apply IH.
Qed.

(** Folding entries gives the maximum of each bank. *)
Lemma max_merge_is_max S bank : no_nan S → is_max bank S (dget (max_merge [] S) bank).
Proof.
  induction S as [|[b [acc amt]] S IH] using rev_ind; intros Hn; cbn.
  { intros e He. by apply not_elem_of_nil in He. }
  apply Forall_app in Hn as [Hn Hb]. apply Forall_cons in Hb as [Hb _]. cbn in Hb. specialize (IH Hn).
  rewrite max_merge_app. cbn. rewrite max_update_dget.
  destruct (decide (b = bank)) as [->|Hne].
  - destruct (dget (max_merge [] S) bank) as [m|] eqn:E; cbn in *.
    + destruct IH as [Hin Hmax]. assert (Hm : is_nan m.2 = false).
      { unfold no_nan in Hn. rewrite Forall_forall in Hn. exact (Hn _ Hin). }
      destruct (flt m.2 amt) eqn:Ef; cbn; (split; [rewrite elem_of_app; set_solver|]);
        intros e [He|He]%elem_of_app Eb.
      * destruct (flt amt e.2.2) eqn:Ee; [|done]. specialize (Hmax e He Eb).
        pose proof (flt_trans _ _ _ Ef Ee). congruence.
      * apply list_elem_of_singleton in He as ->. apply flt_irrefl.
      * by apply Hmax.
      * apply list_elem_of_singleton in He as ->. done.
    + split; [rewrite elem_of_app; set_solver|]. intros e [He|He]%elem_of_app Eb.
      * by destruct (IH e He).
      * apply list_elem_of_singleton in He as ->. apply flt_irrefl.
  - destruct (dget (max_merge [] S) bank) as [m|]; cbn in *.
    + destruct IH as [Hin Hmax]. split; [rewrite elem_of_app; by left|].
      intros e [He|He]%elem_of_app Eb; [by apply Hmax|]. apply list_elem_of_singleton in He as ->. done.
    + intros e [He|He]%elem_of_app; [by apply IH|]. by apply list_elem_of_singleton in He as ->.
Qed.

Section uc2_max.
Context `{PyHash}.

Lemma aggregate_all_max (c : uuid) (datas : list (pydict string (string * float))) st :
  ∃ st', aggregate_all UC2MaxAmountAggregateFn st (MaxByBank c <$> datas) = Ok st' ∧
    dget_or [] st' c = max_merge (dget_or [] st c) (List.concat datas).
Proof.
  revert st. induction datas as [|data datas IH]; intros st; cbn; [by exists st|].
  destruct (IH (dset (dsetdefault st c []) c (max_merge (dget_or [] (dsetdefault st c []) c) data)))
    as (st' & E & Hd).
  exists st'. split; [exact E|]. rewrite Hd. unfold dget_or at 1. rewrite dget_dset_eq.
  unfold dget_or at 1. rewrite dget_dsetdefault, decide_True by done.
  symmetry. exact (max_merge_app (dget_or [] st c) data (List.concat datas)).
Qed.

(** The entries of the groups a shard receives, from all the batches. *)
Lemma group_entries (batches : list (list Transaction)) (nshards shard : Z)
    (datas : list (pydict string (string * float))) :
  (∀ data, data ∈ datas ↔ ∃ l a, l ∈ batches ∧ a mod nshards = shard ∧
     data = of_affinity bank_affinity a (max_of_batch l) ∧ data ≠ []) →
  ∀ bank m, bank_affinity bank mod nshards = shard →
  (bank, m) ∈ List.concat datas ↔ ∃ l, l ∈ batches ∧ (bank, m) ∈ max_of_batch l.
Proof.
  intros Hd bank m Hb. rewrite elem_concat. split.
  - intros (data & Hin1 & Hin2). apply Hd in Hin1 as (l & a & Hl & _ & -> & _).
    exists l. split; [done|]. unfold of_affinity in Hin2. by apply list_elem_of_filter in Hin2 as [_ ?].
  - intros (l & Hl & Hin). exists (of_affinity bank_affinity (bank_affinity bank) (max_of_batch l)).
    assert (Hin' : (bank, m) ∈ of_affinity bank_affinity (bank_affinity bank) (max_of_batch l))
      by (unfold of_affinity; by apply list_elem_of_filter).
    split; [|done]. apply Hd. exists l, (bank_affinity bank). split_and!; [done..|].
    intros E. rewrite E in Hin'. by apply not_elem_of_nil in Hin'.
Qed.

Lemma batch_entries_no_nan batches l :
  no_nan (tx_entries (List.concat batches)) → l ∈ batches → no_nan (tx_entries l).
Proof.
  unfold no_nan. rewrite !Forall_forall. intros Hn Hl e He. apply Hn.
  apply elem_tx_entries in He as (t & Ht & ->). apply elem_tx_entries. exists t.
  rewrite elem_concat. eauto.
Qed.

(** A maximum of the maxima of the batches is a maximum of all the payments. *)
Lemma max_of_maxima batches (E : list (string * (string * float))) bank v :
  no_nan (tx_entries (List.concat batches)) →
  (∀ m, (bank, m) ∈ E ↔ ∃ l, l ∈ batches ∧ (bank, m) ∈ max_of_batch l) →
  is_max bank E v → is_max bank (tx_entries (List.concat batches)) v.
Proof.
  intros Hn HE Hv.
  assert (Hb : ∀ l, l ∈ batches → is_max bank (tx_entries l) (dget (max_of_batch l) bank)).
  { intros l Hl. rewrite max_of_batch_entries. apply max_merge_is_max. by eapply batch_entries_no_nan. }
  assert (Hsub : ∀ l e, l ∈ batches → e ∈ tx_entries l → e ∈ tx_entries (List.concat batches)).
  { intros l e Hl He. apply elem_tx_entries in He as (t & Ht & ->). apply elem_tx_entries. exists t.
    rewrite elem_concat. eauto. }
  assert (Hcov : ∀ e, e ∈ tx_entries (List.concat batches) → e.1 = bank →
    ∃ l m, l ∈ batches ∧ e ∈ tx_entries l ∧ dget (max_of_batch l) bank = Some m ∧ (bank, m) ∈ E).
  { intros e He Eb. apply elem_tx_entries in He as (t & Ht & ->).
    apply elem_concat in Ht as (l & Hl & Ht). cbn in Eb.
    assert (He' : (from_bank t, (from_account t, amount_paid t)) ∈ tx_entries l)
      by (apply elem_tx_entries; eauto).
    specialize (Hb l Hl). destruct (dget (max_of_batch l) bank) as [m|] eqn:Em.
    - exists l, m. split_and!; [done..|]. apply HE. exists l. split; [done|].
      apply dget_Some_elem in Em as (b' & Hp & Hin). by assert (b' = bank) as -> by exact Hp.
    - by destruct (Hb _ He'). }
  destruct v as [m|]; cbn in *.
  - destruct Hv as [Hin Hmax]. apply HE in Hin as Hin'. destruct Hin' as (l & Hl & Hlm).
    split.
    + apply (Hsub l); [done|]. specialize (Hb l Hl).
      rewrite (elem_dget _ _ _ (max_of_batch_wf l) Hlm) in Hb. by destruct Hb.
    + intros e He Eb. destruct (Hcov e He Eb) as (l' & m' & Hl' & He' & Em' & HE').
      specialize (Hb l' Hl'). rewrite Em' in Hb. destruct Hb as [Hin' Hmax'].
      eapply (nlt_trans e.2.2 m'.2); [|by apply Hmax'|exact (Hmax _ HE' eq_refl)].
      unfold no_nan in Hn. rewrite Forall_forall in Hn. exact (Hn _ (Hsub l' _ Hl' Hin')).
  - intros e He Eb. destruct (Hcov e He Eb) as (l' & m' & _ & _ & _ & HE'). by destruct (Hv _ HE').
Qed.

Lemma max_group_elem c l m a :
  (m, a) ∈ yield_groups (MaxByBank c) (by_affinity bank_affinity dset (max_of_batch l)) ↔
    m = MaxByBank c (of_affinity bank_affinity a (max_of_batch l)) ∧
    of_affinity bank_affinity a (max_of_batch l) ≠ [].
Proof.
  apply elem_yield_groups; [apply dset_append|apply max_of_batch_wf].
Qed.

Lemma groups_no_nan batches datas nshards shard :
  no_nan (tx_entries (List.concat batches)) →
  (∀ data, data ∈ datas ↔ ∃ l a, l ∈ batches ∧ a mod nshards = shard ∧
     data = of_affinity bank_affinity a (max_of_batch l) ∧ data ≠ []) →
  no_nan (List.concat datas).
Proof.
  intros Hn Hd. apply Forall_forall. intros [bank m] Hin.
  apply elem_concat in Hin as (data & H1 & H2).
  apply Hd in H1 as (l & a & Hl & _ & -> & _). apply list_elem_of_filter in H2 as [_ H2].
  pose proof (batch_entries_no_nan batches l Hn Hl) as Hnl.
  pose proof (max_merge_is_max (tx_entries l) bank Hnl) as Hm. rewrite <- max_of_batch_entries in Hm.
  rewrite (elem_dget _ _ _ (max_of_batch_wf l) H2) in Hm. destruct Hm as [Hm _].
  unfold no_nan in Hnl. rewrite Forall_forall in Hnl. exact (Hnl _ Hm).
Qed.

(** The results of a client, from what was accumulated for it. *)
Definition max_results (c : uuid) (maxes : pydict string (string * float)) : list (Body * Z) :=
  (λ e, (MaxByBank c [(e.1, (e.2.1, e.2.2))], hash_str e.1)) <$> maxes.

Lemma max_result (st : max_state) c :
  ∃ st', UC2MaxAmount_get_result st c = Ok (st', max_results c (dget_or [] st c)).
Proof.
  unfold UC2MaxAmount_get_result, dget_or. destruct (dget st c); cbn; eauto.
Qed.

Lemma max_result_elem c maxes bank m :
  (MaxByBank c [(bank, m)], hash_str bank) ∈ max_results c maxes ↔ (bank, m) ∈ maxes.
Proof.
  unfold max_results. rewrite list_elem_of_fmap. split.
  - intros ([b [acc amt]] & [= -> -> _] & Hin). done.
  - intros Hin. exists (bank, m). by destruct m.
Qed.

Lemma max_result_NoDup c maxes : dict_wf maxes → NoDup (max_results c maxes).*1.
Proof.
  unfold dict_wf, dkeys, max_results. rewrite <- !list_fmap_compose. intros Hd.
  induction maxes as [|[b [acc amt]] maxes IH]; csimpl; [constructor|]. csimpl in Hd.
  apply NoDup_cons in Hd as [Hn Hd]. constructor; [|by apply IH].
  intros ([b' [acc' amt']] & [= -> _ _] & Hin)%list_elem_of_fmap. apply Hn.
  apply list_elem_of_fmap. eexists. split; [|exact Hin]. done.
Qed.
End uc2_max.

(** ** Properties *)

(** End to end of UC2: however the payments of a client are batched, and
    in whatever order (even repeated) the groups made of the batches reach the
    peer that owns a shard, that peer reports for every bank of its shard one
    largest payment among all the client's payments from that bank, and reports
    no bank of its shard without payments. *)
Theorem uc2_reports_the_maximum `{PyHash} (c : uuid) (batches : list (list Transaction))
    (nshards shard : Z) (datas : list (pydict string (string * float)))
    (Hnan : no_nan (tx_entries (List.concat batches)))
    (Hrecv : ∀ data, data ∈ datas ↔ ∃ l out a, l ∈ batches ∧
       UC2MaxAmount_group_by (Transactions c l) = Ok out ∧ (MaxByBank c data, a) ∈ out ∧
       a mod nshards = shard) :
  ∃ st st' out, aggregate_all UC2MaxAmountAggregateFn [] (MaxByBank c <$> datas) = Ok st ∧
    UC2MaxAmount_get_result st c = Ok (st', out) ∧ NoDup (out.*1) ∧
    ∀ bank, bank_affinity bank mod nshards = shard →
      (∀ m, (MaxByBank c [(bank, m)], hash_str bank) ∈ out →
         is_max bank (tx_entries (List.concat batches)) (Some m)) ∧
      ((∃ t, t ∈ List.concat batches ∧ from_bank t = bank) →
         ∃ m, (MaxByBank c [(bank, m)], hash_str bank) ∈ out).
Proof.
  assert (Hd : ∀ data, data ∈ datas ↔ ∃ l a, l ∈ batches ∧ a mod nshards = shard ∧
     data = of_affinity bank_affinity a (max_of_batch l) ∧ data ≠ []).
  { intros data. rewrite Hrecv. split.
    - intros (l & out & a & Hl & [= <-] & Hin & Ha). apply max_group_elem in Hin as [[= ->] Hne].
      by exists l, a.
    - intros (l & a & Hl & Ha & -> & Hne). eexists l, _, a. split; [done|]. split; [reflexivity|].
      split; [|done]. by apply max_group_elem. }
  destruct (aggregate_all_max c datas []) as (st & Est & Hst). cbn [dget_or] in Hst.
  set (E := List.concat datas) in *.
  assert (HE : ∀ bank m, bank_affinity bank mod nshards = shard →
    (bank, m) ∈ E ↔ ∃ l, l ∈ batches ∧ (bank, m) ∈ max_of_batch l) by (intros; by apply (group_entries batches nshards shard)).
  assert (Hmax : ∀ bank, bank_affinity bank mod nshards = shard →
    is_max bank (tx_entries (List.concat batches)) (dget (max_merge [] E) bank)).
  { intros bank Hb. apply (max_of_maxima batches E); [done|by intros; apply HE|].
    apply max_merge_is_max. by apply (groups_no_nan batches datas nshards shard). }
  destruct (max_result st c) as (st' & Er). exists st, st'. eexists. split; [done|]. split; [exact Er|].
  rewrite Hst. change (dget_or [] [] c) with (@nil (string * (string * float))).
  split; [apply max_result_NoDup, max_merge_wf, nil_wf|]. intros bank Hb. split.
  - intros m Hin. apply max_result_elem in Hin. rewrite <- (elem_dget _ _ _ (max_merge_wf _ E nil_wf) Hin).
    by apply Hmax.
  - intros (t & Ht & Hfrom). specialize (Hmax bank Hb).
    destruct (dget (max_merge [] E) bank) as [m|] eqn:Em.
    + exists m. apply max_result_elem. apply dget_Some_elem in Em as (b' & Hp & Hin).
      by assert (b' = bank) as -> by exact Hp.
    + destruct (Hmax (bank, (from_account t, amount_paid t))); [|done]. apply elem_tx_entries. exists t. by rewrite Hfrom.
Qed.

#[local] Instance demo_hash : PyHash := {|
  hash_str s := Z.of_nat (String.length s);
  hash_uuid u := uuid_int u;
  hash_identity p n := be_combine p + n
|}.

Definition demo_pay (bank account : string) (amount : Z) : Transaction :=
  mkTx (TsDate (midnight 2022 9 1)) bank account "2" "B" (f_of_Z amount) "Euro" (f_of_Z amount) "Euro" "Wire".

Lemma uc2_reports_the_maximum_witness :
  let c := uuid_lit 7 in
  let batches := [[demo_pay "1" "A" 5; demo_pay "1" "B" 9]; [demo_pay "1" "C" 7]]%string in
  ∃ st st' out, aggregate_all UC2MaxAmountAggregateFn []
      (MaxByBank c <$> [[("1", ("C", f_of_Z 7))]; [("1", ("B", f_of_Z 9))]]%string) = Ok st ∧
    UC2MaxAmount_get_result st c = Ok (st', out) ∧ NoDup (out.*1) ∧
    ∀ bank, bank_affinity bank mod 1 = 0 →
      (∀ m, (MaxByBank c [(bank, m)], hash_str bank) ∈ out →
         is_max bank (tx_entries (List.concat batches)) (Some m)) ∧
      ((∃ t, t ∈ List.concat batches ∧ from_bank t = bank) →
         ∃ m, (MaxByBank c [(bank, m)], hash_str bank) ∈ out).
Proof.
  cbv zeta. apply (uc2_reports_the_maximum (uuid_lit 7) _ 1 0).
  - repeat constructor.
  - intros data. split.
    + intros Hin. apply elem_of_cons in Hin as [-> |Hin];
        [|apply list_elem_of_singleton in Hin as ->]; eexists _, _, 1.
      * split; [right; left|]. split; [reflexivity|]. split; [|done]. by vm_compute; left.
      * split; [left|]. split; [reflexivity|]. split; [|done]. by vm_compute; left.
    + intros (l & out & a & Hl & Hg & Hin & _).
      apply elem_of_cons in Hl as [-> |Hl]; [|apply list_elem_of_singleton in Hl as ->];
        vm_compute in Hg; injection Hg as <-; apply list_elem_of_singleton in Hin; injection Hin as -> _;
        vm_compute; [right; left|left].
Defined.
