(* ===== verification/NodeFits.v ===== *)
(** * Nodes whose state is what their checkpoint holds

    A restarted node is built anew and takes over the snapshot of the one that died. A
    state [fits] a fresh one when that gives it back: same routes, same place in the
    ring, tables without repetitions, and a business function whose snapshot holds
    its whole state. Every operation of a node keeps this, for the filters, the
    group-bys and the aggregates in memory ([UC2MaxAmount], [UC2BankNames], [UC3Avg]);
    functions that spill to files have no instance (see [Spill.persistent_spill_rewinds]
    for what becomes of their files). *)

From S2P Require Import Prelude.
From S2P Require Import PyDict.
From S2P Require Import PyValues.
From S2P Require Import PyText.
From S2P Require Import PyFloat.
From S2P Require Import Wire.
From S2P Require Import Messages.
From S2P Require Import Stamping.
From S2P Require Import Dedup.
From S2P Require Import RingCompletion.
From S2P Require Import Checkpoint.
From S2P Require Import RingNode.
From S2P Require Import GroupBy.
From S2P Require Import Aggregates.

(** ** The state of a node *)

Section fits.
Context `{MP : MsgPack} {F : Type} `{!Snapshotable F} (n0 : NodeState F).
Implicit Types (n : NodeState F) (m : Message) (c : uuid).

Record fits n : Prop := {
  fit_fn : snap_wf (n_fn n0) (n_fn n);
  fit_txs : sm_producer <$> n_txs n = sm_producer <$> n_txs n0;
  fit_rc : rc_wf (n_rc n) ∧ rc_config (n_rc n0) = rc_config (n_rc n);
  fit_sent : sc_wf (n_sent n)
}.

(** A node as its entry point builds it: no two routes with the same producer id. *)
Record fresh_node : Prop := {
  fresh_fits : fits n0;
  fresh_routes : NoDup (sm_producer <$> n_txs n0);
  fresh_clear : clear_stale_spill (n_fn n0) = n_fn n0
}.

Lemma fits_world n : fresh_node → fits n → world_like (world_of n0) (world_of n).
Proof.
  intros [_ Hnd _] [H1 H2 [H3 H3'] H4]. split_and!; try done.
  - constructor; [done|]. constructor; [done|constructor].
  - apply (bool_decide_unpack (NoDup ["completion"%string; "sent"%string])). by vm_compute.
Qed.

(** What the methods of a controller promise. *)
Class Keeps (app : App F) : Prop := {
  keeps_data n m n' o : fits n → app_data app n m = Ok (n', o) → fits n';
  keeps_result n c n' o cnt : fits n → app_result app n c = Ok (n', o, cnt) → fits n' ∧ dict_wf cnt;
  keeps_discard n c : fits n → fits (app_discard app n c);
  keeps_free n c : fits n → fits (app_free app n c)
}.

(** ** Sends *)

Lemma sm_send_producer s message : sm_producer (sm_send s message).1 = sm_producer s.
Proof. unfold sm_send. destruct (peek_type message); [|done]. by destruct (unstamped _). Qed.

Lemma sm_send_stamped_producer s message p q : sm_producer (sm_send_stamped s message p q).1 = sm_producer s.
Proof. unfold sm_send_stamped. destruct (peek_type message); [|done]. by destruct (unstamped _). Qed.

Lemma fits_set_tx n i tx tx' : fits n → n_txs n !! i = Some tx → sm_producer tx' = sm_producer tx → fits (set_txs n (<[i := tx']> (n_txs n))).
Proof.
  intros [H1 H2 H3 H4] Hi Hp. split; try done. cbn [set_txs n_txs]. rewrite <- H2, list_fmap_insert, Hp.
  apply list_insert_id. by rewrite list_lookup_fmap, Hi.
Qed.

Lemma fits_send_at n i message n' o : fits n → send_at n i message = Ok (n', o) → fits n'.
Proof.
  intros Hn H. unfold send_at in H. apply bind_Ok in H as (tx & Htx%of_opt_Ok & H). pose proof (sm_send_producer tx message) as Hp.
  destruct (sm_send tx message) as [tx' r]. apply bind_Ok in H as (raw & _ & [= <- <-]). by eapply fits_set_tx.
Qed.

Lemma fits_send_stamped_at n i message p q n' o : fits n → send_stamped_at n i message p q = Ok (n', o) → fits n'.
Proof.
  intros Hn H. unfold send_stamped_at in H. apply bind_Ok in H as (tx & Htx%of_opt_Ok & H).
  pose proof (sm_send_stamped_producer tx message p q) as Hp.
  destruct (sm_send_stamped tx message p q) as [tx' r]. apply bind_Ok in H as (raw & _ & [= <- <-]). by eapply fits_set_tx.
Qed.

Lemma fits_steps {A} (f : NodeState F → A → res (NodeState F * list NOut)) l : ∀ n n' o,
  (∀ n a n' o, fits n → f n a = Ok (n', o) → fits n') → fits n → steps f n l = Ok (n', o) → fits n'.
Proof.
  induction l as [|a l IH]; intros n n' o Hf Hn H; cbn [steps] in H; [by injection H as <- <-|].
  apply bind_Ok in H as ([n1 o1] & H1 & H). apply bind_Ok in H as ([n2 o2] & H2 & [= <- <-]). eapply IH; [done| |exact H2]. by eapply Hf.
Qed.

Lemma fits_set_rc n rc : fits n → rc_wf rc → rc_config rc = rc_config (n_rc n) → fits (set_rc n rc).
Proof. intros [H1 H2 [_ H3] H4] Hw Hc. split; try done. cbn [set_rc n_rc]. split; [done|congruence]. Qed.

Lemma fits_rc_step n e : fits n → ev_wf e → fits (set_rc n (rc_step (n_rc n) e).1).
Proof.
  intros Hn He. pose proof (fit_rc _ Hn) as [Hw _]. apply fits_set_rc; [done|by apply rc_step_wf|].
  by destruct (rc_step_abs (n_rc n) e (proj1 Hw)) as (_ & _ & ->).
Qed.

Lemma fits_set_sent n sc : fits n → sc_wf sc → fits (set_sent n sc).
Proof. by intros []; split. Qed.

Lemma fits_set_fn n f : fits n → snap_wf (n_fn n0) f → fits (set_fn n f).
Proof. by intros []; split. Qed.

(** ** The counts of a stateless node *)

Lemma sc_add_wf s c shard : sc_wf s → sc_wf (sc_add s c shard).
Proof.
  intros [H1 H2]. split; cbn; [by apply dset_wf|]. intros c' d. rewrite dget_dset. case_decide; [|apply H2].
  intros [= <-]. apply dadd_wf. unfold dget_or. destruct (dget (counts_ s) c) eqn:E; [by eapply H2|apply nil_wf].
Qed.

Lemma sc_pop_wf s c : sc_wf s → sc_wf (sc_pop s c).1 ∧ dict_wf (sc_pop s c).2.
Proof.
  intros [H1 H2]. split; [split; cbn; [by apply ddel_wf|]|].
  - intros c' d. rewrite dget_ddel by done. case_decide; [done|apply H2].
  - cbn. unfold dget_or. destruct (dget (counts_ s) c) eqn:E; [by eapply H2|apply nil_wf].
Qed.

Lemma fits_add_sent n c shard : fits n → fits (add_sent n c shard).
Proof. intros Hn. apply fits_set_sent; [done|]. apply sc_add_wf, Hn. Qed.

Lemma fits_stateless_result n c n' o cnt : fits n → stateless_result n c = Ok (n', o, cnt) → fits n' ∧ dict_wf cnt.
Proof.
  intros Hn. unfold stateless_result. pose proof (sc_pop_wf (n_sent n) c (fit_sent _ Hn)) as [H1 H2].
  destruct (sc_pop (n_sent n) c) as [sc d]. intros [= <- <- <-]. split; [by apply fits_set_sent|done].
Qed.

Lemma fits_stateless_discard n c : fits n → fits (stateless_discard n c).
Proof. intros Hn. apply fits_set_sent; [done|]. apply sc_pop_wf, Hn. Qed.

Lemma fits_filter_to flt m n i n' o : fits n → filter_to flt m n i = Ok (n', o) → fits n'.
Proof.
  intros Hn H. unfold filter_to in H. apply bind_Ok in H as (c & _ & H). apply bind_Ok in H as (b & _ & H). apply bind_Ok in H as (raw & _ & H).
  apply bind_Ok in H as ([n1 o1] & H1 & [= <- <-]). by eapply fits_add_sent, fits_send_stamped_at.
Qed.

Lemma fits_sharded_copies m routes : ∀ n base n' o, fits n → sharded_copies m n base routes = Ok (n', o) → fits n'.
Proof.
  induction routes as [|[size flt] routes IH]; intros n base n' o Hn H; cbn in H; [by injection H as <- <-|].
  apply bind_Ok in H as (i & _ & H). apply bind_Ok in H as ([n1 o1] & H1 & H). apply bind_Ok in H as ([n2 o2] & H2 & [= <- <-]).
  eapply IH; [|exact H2]. by eapply fits_filter_to.
Qed.

Lemma fits_group_to_fleets c payload affinity fleets : ∀ n base n' o, fits n → group_to_fleets c payload affinity n base fleets = Ok (n', o) → fits n'.
Proof.
  induction fleets as [|size fleets IH]; intros n base n' o Hn H; cbn [group_to_fleets] in H; [by injection H as <- <-|].
  apply bind_Ok in H as (u & _ & H). apply bind_Ok in H as ([n1 o1] & H1 & H). apply bind_Ok in H as ([n2 o2] & H2 & [= <- <-]).
  eapply IH; [|exact H2]. by eapply fits_add_sent, fits_send_at.
Qed.

(** ** The controllers *)

#[export] Instance RingFilter_keeps flt : Keeps (RingFilter flt).
Proof.
  split; [|apply fits_stateless_result|apply fits_stateless_discard|done]. intros n m n' o Hn H. cbn in H. unfold ring_filter_data in H.
  apply bind_Ok in H as (sh & _ & H). by eapply fits_filter_to.
Qed.

#[export] Instance RingBroadcastFilter_keeps broadcast sharded : Keeps (RingBroadcastFilter broadcast sharded).
Proof.
  split; [|apply fits_stateless_result|apply fits_stateless_discard|done]. intros n m n' o Hn H. cbn in H. unfold ring_broadcast_data in H.
  apply bind_Ok in H as ([n1 o1] & H1 & H). apply bind_Ok in H as ([n2 o2] & H2 & [= <- <-]). eapply fits_sharded_copies; [|exact H2].
  eapply fits_steps; [|exact Hn|exact H1]. intros n3 ik n3' o3 Hn3. by apply (fits_filter_to ik.2 m n3 ik.1).
Qed.

#[export] Instance RingGroupBy_keeps group_by fleets : Keeps (RingGroupBy group_by fleets).
Proof.
  split; [|apply fits_stateless_result|apply fits_stateless_discard|done]. intros n m n' o Hn H. cbn in H. unfold ring_group_by_data in H.
  apply bind_Ok in H as (c & _ & H). apply bind_Ok in H as (gs & _ & H). eapply fits_steps; [|exact Hn|exact H].
  intros n1 ga n1' o1 Hn1 H1. apply bind_Ok in H1 as (payload & _ & H1). by eapply (fits_group_to_fleets _ _ _ _ _ 0).
Qed.

(** What an aggregate function promises, from its fresh state on. *)
Class FnKeeps (fn : AggregateFn F) : Prop := {
  fn_aggregate f b f' : snap_wf (n_fn n0) f → aggregate fn f b = Ok f' → snap_wf (n_fn n0) f';
  fn_result f c f' l : snap_wf (n_fn n0) f → get_result fn f c = Ok (f', l) → snap_wf (n_fn n0) f';
  fn_discard f c : snap_wf (n_fn n0) f → snap_wf (n_fn n0) (discard fn f c)
}.

Lemma fits_count_each l : ∀ st st', fits st.1.1 ∧ dict_wf st.2 → count_each st l = Ok st' → fits st'.1.1 ∧ dict_wf st'.2.
Proof.
  induction l as [|[i raw] l IH]; intros [[n o] snt] st' [Hn Hs] H; cbn [count_each] in H; [by injection H as <-|].
  apply bind_Ok in H as (st1 & H1 & H). eapply IH; [|exact H]. unfold count_to in H1. apply bind_Ok in H1 as ([n1 o1] & H1 & [= <-]).
  cbn [fst snd] in *. split; [by eapply fits_send_at|by apply dadd_wf].
Qed.

Lemma fits_send_results broadcast l : ∀ st st', fits st.1.1 ∧ dict_wf st.2 → send_results broadcast st l = Ok st' → fits st'.1.1 ∧ dict_wf st'.2.
Proof.
  induction l as [|[b affinity] l IH]; intros st st' Hst H; cbn [send_results] in H; [by injection H as <-|].
  apply bind_Ok in H as (raw & _ & H). apply bind_Ok in H as (routes & _ & H). apply bind_Ok in H as (st1 & H1 & H).
  eapply IH; [|exact H]. by eapply fits_count_each.
Qed.

#[export] Instance RingAggregate_keeps fn broadcast `{!FnKeeps fn} : Keeps (RingAggregate fn broadcast).
Proof.
  split.
  - intros n m n' o Hn H. cbn in H. apply bind_Ok in H as (f & Hf & [= <- <-]). apply fits_set_fn; [done|]. by eapply fn_aggregate; [apply Hn|].
  - intros n c n' o cnt Hn H. cbn in H. apply bind_Ok in H as ([f l] & Hf & H).
    apply (fits_send_results broadcast l (set_fn n f, [], []) (n', o, cnt)); [|exact H]. split; [|apply nil_wf].
    apply fits_set_fn; [done|]. by eapply fn_result; [apply Hn|].
  - intros n c Hn. apply fits_set_fn; [done|]. apply fn_discard, Hn.
  - intros n c Hn. apply fits_set_fn; [done|]. apply fn_discard, Hn.
Qed.

(** ** The shared machinery *)

Context (app : App F) `{!Keeps app}.

Lemma fits_run_leaf n a n' o : fits n → run_leaf n a = Ok (n', o) → fits n'.
Proof.
  intros Hn H. destruct a as [c|t|c per]; cbn [run_leaf] in H.
  - by injection H as <- <-.
  - by apply bind_Ok in H as (o' & _ & [= <- <-]).
  - unfold downstream_eof in H. eapply fits_steps; [|exact Hn|exact H]. intros n1 i n1' o1 Hn1 H1.
    apply bind_Ok in H1 as (raw & _ & H1). by eapply fits_send_at.
Qed.

Lemma fits_run n actions n' o : fits n → run_ app n actions = Ok (n', o) → fits n'.
Proof.
  apply fits_steps. clear n actions n' o. intros n a n' o Hn H. destruct a as [c|t|c per]; cbn [run_action] in H; [|by eapply fits_run_leaf..].
  unfold emit in H. apply bind_Ok in H as ([[n1 o1] snt] & H1 & H). destruct (keeps_result _ _ _ _ _ Hn H1) as [Hn1 Hsnt].
  pose proof (fits_rc_step n1 (EvReport c snt) Hn1 Hsnt) as Hn2. cbn [rc_step] in Hn2.
  destruct (report_sent (n_rc n1) c snt) as [rc actions]. apply bind_Ok in H as ([n2 o2] & H2 & [= <- <-]).
  eapply fits_steps; [|exact Hn2|exact H2]. apply fits_run_leaf.
Qed.

Lemma fits_free_all n cs : fits n → fits (foldl (app_free app) n cs).
Proof. intros Hn. apply foldl_invariant; [done|]. intros. by apply keeps_free. Qed.

Lemma fits_on_data n m n' o : fits n → on_data_ app n m = Ok (n', o) → fits n'.
Proof.
  intros Hn H. unfold on_data_ in H. apply bind_Ok in H as ([n1 o1] & H1 & H). pose proof (keeps_data _ _ _ _ Hn H1) as Hn1.
  apply bind_Ok in H as (c & _ & H). pose proof (fits_rc_step n1 (EvData c) Hn1 I) as Hn2. cbn [rc_step] in Hn2.
  destruct (on_data (n_rc n1) c) as [rc actions]. apply bind_Ok in H as ([n2 o2] & H2 & [= <- <-]). by eapply fits_run.
Qed.

Lemma fits_recheck n : fits n → fits (set_rc n (recheck (n_rc n)).1).
Proof.
  intros Hn. unfold recheck. generalize (dkeys (clients_ (n_rc n))). intros cs.
  assert (H : ∀ rc, rc_wf rc → rc_wf (run_steps maybe_local_complete rc cs).1 ∧ rc_config (run_steps maybe_local_complete rc cs).1 = rc_config rc).
  { induction cs as [|c cs IH]; intros rc Hw; [done|]. cbn [run_steps]. rewrite maybe_local_complete_eq.
    destruct (IH (client_ rc c).1 (client__wf rc c Hw)) as [H1 H2]. by destruct (run_steps _ _ cs). }
  destruct (H (n_rc n)) as [H1 H2]; [apply Hn|]. by apply fits_set_rc.
Qed.

Lemma fits_abort n c : fits n → fits (app_discard app (set_rc n (drop_client (n_rc n) c)) c).
Proof. intros Hn. apply keeps_discard. exact (fits_rc_step n (EvDrop c) Hn I). Qed.
End fits.

Arguments fits {F _}.
Arguments fresh_node {F _}.

(** ** The aggregates in memory *)

Lemma elem_dset {K V} `{!PyKey K} (d : pydict K V) k v k' v' : (k', v') ∈ dset d k v → v' = v ∨ (k', v') ∈ d.
Proof.
  induction d as [|[k0 v0] d IH]; cbn [dset].
  - intros [= -> ->]%list_elem_of_singleton. by left.
  - case_decide; intros [[= -> ->]|Hin]%elem_of_cons; rewrite elem_of_cons; tauto.
Qed.

Lemma state_wf_dset {V} (st : pydict uuid (pydict string V)) c d : state_wf st → dict_wf d → state_wf (dset st c d).
Proof. intros [H1 H2] Hd. split; [by apply dset_wf|]. intros c' d' [->|Hin]%elem_dset; [done|by apply (H2 c')]. Qed.

Lemma state_wf_ddel {V} (st : pydict uuid (pydict string V)) c : state_wf st → state_wf (ddel st c).
Proof.
  intros [H1 H2]. split; [by apply ddel_wf|]. intros c' d Hin. apply (H2 c'). revert Hin. clear. induction st as [|[k v] st IH]; cbn [ddel]; [done|]. case_decide; rewrite !elem_of_cons; tauto.
Qed.

Lemma state_wf_get {V} (st : pydict uuid (pydict string V)) c : state_wf st → dict_wf (dget_or [] st c).
Proof.
  intros [_ H2]. unfold dget_or. destruct (dget st c) as [d|] eqn:E; [|apply nil_wf].
  apply dget_Some_elem in E as (k & _ & Hin). by apply (H2 k).
Qed.

(** The step of every aggregate: the client's table updated. *)
Lemma state_wf_step {V} (st : pydict uuid (pydict string V)) c (f : pydict string V → pydict string V) :
  (∀ d, dict_wf d → dict_wf (f d)) → state_wf st →
  let st := dsetdefault st c [] in state_wf (dset st c (f (dget_or [] st c))).
Proof.
  intros Hf Hst. cbv zeta. assert (Hst1 : state_wf (dsetdefault st c [])).
  { unfold dsetdefault. destruct (dmem st c); [done|]. apply state_wf_dset; [done|apply nil_wf]. }
  apply state_wf_dset; [done|]. by apply Hf, state_wf_get.
Qed.

#[export, refine] Instance UC2BankNames_Snapshotable : Snapshotable names_state := {|
  snap := pydict string (pydict string string);
  snapshot_state := UC2BankNames_snapshot_state;
  restore_state _ := UC2BankNames_restore_state;
  clear_stale_spill st := st;
  snap_wf _ := state_wf
|}.
Proof. intros _ st Hst. by apply state_roundtrip. Defined.

#[export, refine] Instance UC2MaxAmount_Snapshotable : Snapshotable max_state := {|
  snap := pydict string (list (string * (string * float)));
  snapshot_state := UC2MaxAmount_snapshot_state;
  restore_state _ := UC2MaxAmount_restore_state;
  clear_stale_spill st := st;
  snap_wf _ := state_wf
|}.
Proof. intros _ st Hst. by apply state_roundtrip. Defined.

#[export, refine] Instance UC3Avg_Snapshotable : Snapshotable sum_state := {|
  snap := pydict string (list (string * (float * Z)));
  snapshot_state := UC3Avg_snapshot_state;
  restore_state _ := UC3Avg_restore_state;
  clear_stale_spill st := st;
  snap_wf _ := state_wf
|}.
Proof. intros _ st Hst. by apply state_roundtrip. Defined.

(** An aggregate that updates the table of the message's client, and forgets a client
    when it answers it. *)
Ltac keeps_state_wf :=
  split; [intros f b f' Hf Hr; destruct b; try discriminate Hr; injection Hr as <-
         |intros f c f' l Hf Hr|intros f c Hf; by apply state_wf_ddel].

#[export] Instance UC2BankNames_keeps `{PyHash} (n0 : NodeState names_state) : FnKeeps n0 UC2BankNamesAggregateFn.
Proof.
  keeps_state_wf.
  - apply (state_wf_step f client_id (λ d, dupdate d data)); [|exact Hf]. intros d. apply dupdate_wf.
  - cbn in Hr. unfold UC2BankNames_get_result in Hr. destruct (dget f c); injection Hr as <- _; [by apply state_wf_ddel|done].
Qed.

#[export] Instance UC2MaxAmount_keeps `{PyHash} (n0 : NodeState max_state) : FnKeeps n0 UC2MaxAmountAggregateFn.
Proof.
  keeps_state_wf.
  - apply (state_wf_step f client_id (λ d, max_merge d data)); [|exact Hf]. intros d. apply max_merge_wf.
  - cbn in Hr. unfold UC2MaxAmount_get_result in Hr. destruct (dget f c); injection Hr as <- _; [by apply state_wf_ddel|done].
Qed.

#[export] Instance UC3Avg_keeps `{PyHash} (n0 : NodeState sum_state) : FnKeeps n0 UC3AvgAggregateFn.
Proof.
  keeps_state_wf.
  - apply (state_wf_step f client_id (λ d, sum_merge d sum_counts)); [|exact Hf]. intros d Hd. unfold sum_merge. apply foldl_invariant; [done|]. intros. by apply dset_wf.
  - cbn in Hr. unfold UC3Avg_get_result in Hr. destruct (dget f c); [|by injection Hr as <- _].
    apply bind_Ok in Hr as (averages & _ & [= <- _]). by apply state_wf_ddel.
Qed.
