(* ===== verification/NodeSystem.v ===== *)
(** * A node of a ring between an at-least-once broker and its checkpoint file

    The handlers of [RingNode] with the broker's queue, the node's file and its crashes:
    deliveries of data, ends of file, aborts and tokens, each handled whole or cut short
    between any two of its effects, and restarts, which may be cut short as well. What
    the node has acknowledged survives, and each of its data messages counts once. *)

From S2P Require Import Prelude.
From S2P Require Import PyDict.
From S2P Require Import PyValues.
From S2P Require Import PyText.
From S2P Require Import PyFloat.
From S2P Require Import Wire.
From S2P Require Import Messages.
From S2P Require Import Stamping.
From S2P Require Import Dedup.
From S2P Require Import RingCompletion.
From S2P Require Import Checkpoint.
From S2P Require Import RingNode.
From S2P Require Import GroupBy.
From S2P Require Import Aggregates.
From S2P Require Import NodeFits.

(** ** What is delivered, and what it does to the node *)

(** A message of the node's data queue or of its ring queue. *)
Inductive delivery := OnData (raw : bytes) | OnRing (raw : bytes).

(** How far a handler that emits results got: the completion has recorded the event, the
    results are sent, the client's state is freed. *)
Inductive stage := Recorded | Sent | Freed.

Inductive entry :=
  | LData (m : Message)
  | LEof (c : uuid) (expected_count : Z) (s : stage)
  | LToken (t : BarrierToken) (s : stage)
  | LAbort (c : uuid)
  | LStart.

Definition datas (log : list entry) : list Message := omap (λ e, match e with LData m => Some m | _ => None end) log.

(** The identity by which a data message is deduplicated. *)
Definition msg_id (m : Message) : bytes * Z := (producer_id m, seq m).

Section deliveries.
Context `{MP : MsgPack}.

(** The data message that bytes are, if they are one. *)
Definition data_of (raw : bytes) : option Message :=
  match deserialize_message raw with
  | Ok m => match body_type (body_ m) with T_EOF | T_ABORT => None | _ => Some m end
  | Exc _ => None
  end.

(** Which delivery an entry of a history is about. *)
Definition about (d : delivery) (e : entry) : Prop :=
  match d, e with
  | OnData raw, LData m => data_of raw = Some m
  | OnData raw, LEof c k _ => ∃ m p n o per, deserialize_message raw = Ok m ∧ body_ m = EOF c p k n o per
  | OnData raw, LAbort c => ∃ m, deserialize_message raw = Ok m ∧ body_ m = Abort c
  | OnRing raw, LToken t _ => ∃ m, deserialize_message raw = Ok m ∧ body_ m = RingBarrier (tok_client t) (tok_origin t) (sent_by t)
  | _, _ => False
  end.

Definition finished (e : entry) : bool := match e with LEof _ _ Recorded | LToken _ Recorded => false | _ => true end.

(** A history that holds a delivery, handled to the end. *)
Definition settles (log : list entry) (d : delivery) : Prop := ∃ e, e ∈ log ∧ about d e ∧ finished e = true.

Definition abort_sent (sent : list delivery) (c : uuid) : Prop := ∃ raw, OnData raw ∈ sent ∧ about (OnData raw) (LAbort c).

(** Data of a client that was aborted. *)
Definition dropped (sent : list delivery) (d : delivery) : Prop :=
  ∃ m c, about d (LData m) ∧ body_client (body_ m) = Some c ∧ abort_sent sent c.

(** Every entry is a start of the process or about something that was sent. *)
Definition justified (sent : list delivery) (log : list entry) : Prop :=
  ∀ e, e ∈ log → e = LStart ∨ ∃ d, d ∈ sent ∧ about d e.

Lemma settles_app l1 l2 d : settles (l1 ++ l2) d ↔ settles l1 d ∨ settles l2 d.
Proof. unfold settles. setoid_rewrite elem_of_app. naive_solver. Qed.

Lemma settles_one e d : settles [e] d ↔ about d e ∧ finished e = true.
Proof. unfold settles. setoid_rewrite list_elem_of_singleton. naive_solver. Qed.

Lemma elem_datas log m : m ∈ datas log ↔ LData m ∈ log.
Proof.
  unfold datas. rewrite list_elem_of_omap. split.
  - intros (e & He & H). destruct e; try discriminate. by injection H as ->.
  - intros H. by exists (LData m).
Qed.

Lemma datas_app l1 l2 : datas (l1 ++ l2) = datas l1 ++ datas l2.
Proof. apply omap_app. Qed.

Lemma settles_data log d m : about d (LData m) → settles log d ↔ m ∈ datas log.
Proof.
  intros Hd. rewrite elem_datas. split; [|by intros H; exists (LData m)]. intros (e & He & Ha & _).
  destruct d as [raw|raw]; [|done]. cbn in Hd. destruct e as [m'|c k st|t st|c|]; try done; cbn in Ha.
  - by rewrite Hd in Ha; injection Ha as ->.
  - destruct Ha as (m' & p & n & o & per & E & Eb). unfold data_of in Hd. rewrite E, Eb in Hd. done.
  - destruct Ha as (m' & E & Eb). unfold data_of in Hd. rewrite E, Eb in Hd. done.
Qed.

Lemma justified_app sent l1 l2 : justified sent (l1 ++ l2) ↔ justified sent l1 ∧ justified sent l2.
Proof. unfold justified. setoid_rewrite elem_of_app. naive_solver. Qed.

Lemma justified_sub sent sent' log : sent ⊆ sent' → justified sent log → justified sent' log.
Proof. intros Hs H e He. destruct (H e He) as [?|(d & Hd & Ha)]; [by left|]. right. exists d. auto. Qed.
End deliveries.

(** ** The system *)

Section system.
Context `{MP : MsgPack} {F : Type} `{!Snapshotable F} (app : App F) (n0 : NodeState F) (every : Z).

Abbreviation nblob := (Blob F (RingCompletion + SentCounts)).
Abbreviation neffect := (effect F (RingCompletion + SentCounts) NOut nat).
Abbreviation cpr := (Checkpointer nat).

(** What is outside of the process: the file, the deliveries the broker still holds,
    each under its tag, and everything it was ever given. *)
Record Outside := mkOut {
  o_disk : option nblob;
  o_queue : list (nat * delivery);
  o_sent : list delivery
}.

(** The process, unless it is down. *)
Record NodeSys := mkNS { ns_up : option (NodeState F * cpr); ns_out : Outside }.

Definition ns_init : NodeSys := mkNS None (mkOut None [] []).

Definition do_effect (o : Outside) (e : neffect) : Outside :=
  match e with
  | Send _ => o
  | Save b => mkOut (store_save true (o_disk o) b) (o_queue o) (o_sent o)
  | Ack t => mkOut (o_disk o) (filter (λ td, td.1 ≠ t) (o_queue o)) (o_sent o)
  end.
Abbreviation after := (foldl do_effect).

(** The handler of a delivery returns, having acknowledged or kept it. *)
Definition handles (cp : cpr) (n : NodeState F) (d : delivery) (t : nat) (cp' : cpr) (n' : NodeState F) (effs : list neffect) : Prop :=
  match d with
  | OnData raw => on_data_msg app (Some cp) n raw t = Ok (Some cp', n', effs)
  | OnRing raw => on_ring_msg app (Some cp) n raw t = Ok (RingAcked (Some cp') n' effs)
  end.

(** The writes and acknowledgements of a handler before the calls that can raise. *)
Definition before_raising (cp : cpr) (n : NodeState F) (raw : bytes) : list neffect :=
  match deserialize_message raw with
  | Exc _ => []
  | Ok m =>
      match body_ m with
      | EOF c _ k _ _ _ =>
          let '(cp, e1) := flush cp (world_of n) false in
          let '(rc, actions) := on_upstream_eof (n_rc n) c k in
          e1 ++ match actions with [] => [] | _ => (flush cp (world_of (set_rc n rc)) true).2 end
      | _ => []
      end
  end.

(** Data is stamped, and one identity stands for one body: an upstream node that sends a
    message again after a crash sends the same bytes. *)
Definition may_send (o : Outside) (d : delivery) : Prop :=
  ∀ raw m, d = OnData raw → data_of raw = Some m →
    0 < seq m ∧ ∀ raw' m', OnData raw' ∈ o_sent o → data_of raw' = Some m' → msg_id m' = msg_id m → raw' = raw.

Definition enqueue (o : Outside) (d : delivery) : Outside :=
  mkOut (o_disk o) (o_queue o ++ [(length (o_sent o), d)]) (o_sent o ++ [d]).

(** The broker delivers what it holds and the process does not hold already. *)
Definition deliverable (o : Outside) (cp : cpr) (t : nat) (d : delivery) : Prop := (t, d) ∈ o_queue o ∧ t ∉ cp_pending cp.

Inductive ns_step : NodeSys → NodeSys → Prop :=
  (** something is sent to the node, or sent again *)
  | StepSend up o d : may_send o d → ns_step (mkNS up o) (mkNS up (enqueue o d))
  (** a delivery is handled *)
  | StepHandle n cp o t d cp' n' effs :
      deliverable o cp t d → handles cp n d t cp' n' effs → ns_step (mkNS (Some (n, cp)) o) (mkNS (Some (n', cp')) (after o effs))
  (** the process is killed after some effects of a handler, or between two of them *)
  | StepCrash n cp o t d cp' n' done_ rest :
      deliverable o cp t d → handles cp n d t cp' n' (done_ ++ rest) → ns_step (mkNS (Some (n, cp)) o) (mkNS None (after o done_))
  | StepKill up o : ns_step (mkNS up o) (mkNS None o)
  (** a handler of the data queue raises, which ends the process *)
  | StepRaise n cp o t raw e done_ rest :
      deliverable o cp t (OnData raw) → on_data_msg app (Some cp) n raw t = Exc e → before_raising cp n raw = done_ ++ rest →
      ns_step (mkNS (Some (n, cp)) o) (mkNS None (after o done_))
  (** the process starts, or is killed while it does *)
  | StepStart o cp n effs :
      start_ app (Some (cp_new every)) n0 (o_disk o) = Ok (Some cp, n, effs) → ns_step (mkNS None o) (mkNS (Some (n, cp)) (after o effs))
  | StepStartCrash o cp n done_ rest :
      start_ app (Some (cp_new every)) n0 (o_disk o) = Ok (Some cp, n, done_ ++ rest) → ns_step (mkNS None o) (mkNS None (after o done_)).

(** ** The history a state stands for *)

(** A run that is not interrupted: what each entry makes of the node. *)
Definition node_after (n : NodeState F) (e : entry) : res (NodeState F) :=
  match e with
  | LData m => '(n, _) ← on_data_ app n m; Ok n
  | LEof c k st =>
      let '(rc, actions) := on_upstream_eof (n_rc n) c k in
      match st with
      | Recorded => Ok (set_rc n rc)
      | Sent => '(n, _) ← run_ app (set_rc n rc) actions; Ok n
      | Freed => '(n, _) ← run_ app (set_rc n rc) actions; Ok (foldl (app_free app) n (emitted actions))
      end
  | LToken t st =>
      let '(rc, actions) := on_token (n_rc n) t in
      match st with
      | Recorded => Ok (set_rc n rc)
      | Sent => '(n, _) ← run_ app (set_rc n rc) actions; Ok n
      | Freed => '(n, _) ← run_ app (set_rc n rc) actions; Ok (foldl (app_free app) n (emitted actions))
      end
  | LAbort c => Ok (app_discard app (set_rc n (drop_client (n_rc n) c)) c)
  | LStart =>
      let '(rc, actions) := recheck (n_rc n) in
      '(n, _) ← run_ app (set_rc n rc) actions;
      Ok (foldl (app_free app) n (resolved_clients (n_rc n)))
  end.

Definition run_log (log : list entry) : res (NodeState F) := foldR node_after n0 log.

Lemma run_log_snoc log n e : run_log log = Ok n → run_log (log ++ [e]) = node_after n e.
Proof. intros H. unfold run_log. rewrite foldR_app. fold (run_log log). rewrite H. cbn. by destruct (node_after n e). Qed.

(** State and dedup table are those of [log], each data message once. *)
Definition stands_for (n : NodeState F) (cp : cpr) (log : list entry) : Prop :=
  run_log log = Ok n ∧ dedup_inv (cp_dedup cp) ∧
  (∀ p q, is_duplicate (cp_dedup cp) p q = true ↔ seen (msg_id <$> datas log) p q) ∧ NoDup (datas log).

Definition disk_covers (d : option nblob) (sent : list delivery) (dlog : list entry) : Prop :=
  match d with
  | None => dlog = []
  | Some b => ∃ n cp, b = blob_of cp (world_of n) ∧ stands_for n cp dlog ∧ fits n0 n ∧
      ∀ c, smem c (cp_aborted cp) = true → abort_sent sent c
  end.

(** ** Invariants *)

(** Of the broker: one delivery for each tag, one body for each identity. *)
Record out_ok (o : Outside) : Prop := {
  oo_tags : NoDup (o_queue o).*1;
  oo_queue : ∀ t d, (t, d) ∈ o_queue o → (t < length (o_sent o))%nat ∧ d ∈ o_sent o;
  oo_ids : ∀ raw raw' m m', OnData raw ∈ o_sent o → OnData raw' ∈ o_sent o → data_of raw = Some m → data_of raw' = Some m' →
    msg_id m = msg_id m' → raw = raw';
  oo_stamped : ∀ raw m, OnData raw ∈ o_sent o → data_of raw = Some m → 0 < seq m
}.

(** At every moment, also after a crash: [dlog] is the history of the file. *)
Record durable (o : Outside) (dlog : list entry) : Prop := {
  du_disk : disk_covers (o_disk o) (o_sent o) dlog;
  du_just : justified (o_sent o) dlog;
  du_sent : ∀ d, d ∈ o_sent o → (∃ t, (t, d) ∈ o_queue o) ∨ settles dlog d ∨ dropped (o_sent o) d
}.

(** Of the running process: [log] is its history. *)
Record volatile (o : Outside) (n : NodeState F) (cp : cpr) (log dlog : list entry) : Prop := {
  vo_stands : stands_for n cp log;
  vo_fits : fits n0 n;
  vo_just : justified (o_sent o) log;
  vo_kept : ∀ d, settles dlog d → settles log d;
  vo_held : ∀ m, m ∈ datas log → m ∈ datas dlog ∨ ∃ t d, t ∈ cp_pending cp ∧ (t, d) ∈ o_queue o ∧ about d (LData m);
  vo_pending : ∀ t, t ∈ cp_pending cp → ∃ d m, (t, d) ∈ o_queue o ∧ about d (LData m) ∧ m ∈ datas log;
  vo_clean : cp_dirty cp = false → cp_pending cp = [];
  vo_aborts : ∀ c, smem c (cp_aborted cp) = true → abort_sent (o_sent o) c
}.

(** *** Effects *)

Lemma after_sends o (outs : list NOut) : after o (Send <$> outs) = o.
Proof. by induction outs. Qed.

Lemma after_sent es : ∀ o, o_sent (after o es) = o_sent o.
Proof. induction es as [|e es IH]; intros o; [done|]. cbn [foldl]. rewrite IH. by destruct e. Qed.

Lemma after_queue es : ∀ o t d, (t, d) ∈ o_queue (after o es) ↔ (t, d) ∈ o_queue o ∧ Ack t ∉ es.
Proof.
  induction es as [|e es IH]; intros o t d; cbn [foldl]; [|].
  - split; [intros H; split; [done|apply not_elem_of_nil]|by intros []].
  - rewrite IH, not_elem_of_cons. destruct e as [x|b|t']; cbn [do_effect o_queue]; [naive_solver..|].
    rewrite list_elem_of_filter. cbn [fst]. split; [intros [[Hne H] Hn]; split_and!; try done; congruence|naive_solver].
Qed.

Lemma out_ok_after es : ∀ o, out_ok o → out_ok (after o es).
Proof.
  induction es as [|e es IH]; intros o Ho; [done|]. cbn [foldl]. apply IH. destruct Ho as [H1 H2 H3 H4]. destruct e as [x|b|t]; split; try done; cbn.
  - eapply sublist_NoDup; [exact H1|]. apply fmap_sublist, sublist_filter.
  - intros t' d [_ Hin]%list_elem_of_filter. by apply H2.
Qed.

Lemma tag_unique o t d d' : out_ok o → (t, d) ∈ o_queue o → (t, d') ∈ o_queue o → d = d'.
Proof. intros Ho H1 H2. eapply NoDup_fst_inj; [exact (oo_tags _ Ho)|done..]. Qed.

(** Two data messages of the broker with one identity are one. *)
Lemma data_unique o d d' m : out_ok o → d ∈ o_sent o → d' ∈ o_sent o → about d (LData m) → about d' (LData m) → d = d'.
Proof. intros Ho H1 H2. destruct d as [raw|], d' as [raw'|]; try done. cbn. intros Hm Hm'. f_equal. by apply (oo_ids _ Ho raw raw' m m). Qed.

(** A copy may be acknowledged when what it carries is durable or another copy stays. *)
Definition ackable (o : Outside) (dlog : list entry) (t : nat) : Prop :=
  ∀ d, (t, d) ∈ o_queue o → settles dlog d ∨ dropped (o_sent o) d ∨ ∃ t', t' ≠ t ∧ (t', d) ∈ o_queue o.

(** Effects after every prefix of which what is acknowledged is durable. *)
Inductive safe : Outside → list entry → list neffect → list entry → Prop :=
  | safe_nil o dlog : safe o dlog [] dlog
  | safe_send o dlog x es dlog' : safe o dlog es dlog' → safe o dlog (Send x :: es) dlog'
  | safe_save o dlog b log es dlog' :
      disk_covers (Some b) (o_sent o) log → justified (o_sent o) log → (∀ d, settles dlog d → settles log d) →
      safe (do_effect o (Save b)) log es dlog' → safe o dlog (Save b :: es) dlog'
  | safe_ack o dlog t es dlog' : ackable o dlog t → safe (do_effect o (Ack t)) dlog es dlog' → safe o dlog (Ack t :: es) dlog'.

Lemma durable_save o dlog log b : durable o dlog → disk_covers (Some b) (o_sent o) log → justified (o_sent o) log →
  (∀ d, settles dlog d → settles log d) → durable (do_effect o (Save b)) log.
Proof. intros [H1 H2 H3] Hb Hj Hk. split; cbn -[disk_covers]; try done. intros d Hd. destruct (H3 d Hd) as [?|[?|?]]; auto. Qed.

Lemma durable_ack o dlog t : durable o dlog → ackable o dlog t → durable (do_effect o (Ack t)) dlog.
Proof.
  intros [H1 H2 H3] Ha. split; cbn; try done. intros d Hd. destruct (H3 d Hd) as [[t' Ht']|?]; [|auto].
  destruct (decide (t' = t)) as [->|Hne].
  - destruct (Ha d Ht') as [?|[?|(t2 & Hne2 & Ht2)]]; [auto..|]. left. exists t2. by apply list_elem_of_filter.
  - left. exists t'. by apply list_elem_of_filter.
Qed.

Lemma safe_prefix o dlog es1 es2 dlog' : safe o dlog (es1 ++ es2) dlog' → durable o dlog → ∃ dlog1, durable (after o es1) dlog1.
Proof.
  remember (es1 ++ es2) as es eqn:He. intros Hs. revert es1 He.
  induction Hs as [o dlog|o dlog x es dlog' _ IH|o dlog b log es dlog' Hb Hj Hk _ IH|o dlog t es dlog' Ha _ IH]; intros es1 He Hd;
    (destruct es1 as [|e es1]; [by exists dlog|]); try discriminate; injection He as <- He; cbn [foldl]; apply IH; try done.
  - by eapply durable_save.
  - by apply durable_ack.
Qed.

Lemma safe_all o dlog es dlog' : safe o dlog es dlog' → durable o dlog → durable (after o es) dlog'.
Proof.
  induction 1 as [o dlog|o dlog x es dlog' _ IH|o dlog b log es dlog' Hb Hj Hk _ IH|o dlog t es dlog' Ha _ IH]; intros Hd; cbn [foldl]; [done|..]; apply IH; try done.
  - by eapply durable_save.
  - by apply durable_ack.
Qed.

Lemma safe_app o dlog es1 dlog1 es2 dlog2 : safe o dlog es1 dlog1 → safe (after o es1) dlog1 es2 dlog2 → safe o dlog (es1 ++ es2) dlog2.
Proof. intros Hs Hs2. induction Hs; simpl; [done|constructor; auto|econstructor; eauto|constructor; auto]. Qed.

Lemma safe_sends o dlog (outs : list NOut) : safe o dlog (Send <$> outs) dlog.
Proof. induction outs as [|x outs IH]; [constructor|]. csimpl. by constructor. Qed.

Lemma safe_acks dlog ts : ∀ o, (∀ t d, t ∈ ts → (t, d) ∈ o_queue o → settles dlog d) → safe o dlog (Ack <$> ts) dlog.
Proof.
  induction ts as [|t ts IH]; intros o H; [constructor|]. csimpl. constructor.
  - intros d Hd. left. apply (H t); [left|done].
  - apply IH. intros t' d Ht' [_ Hd]%list_elem_of_filter. apply (H t'); [by right|done].
Qed.

(** *** Flushes *)

(** After a checkpoint, or with nothing held, only the node and its table matter. *)
Lemma volatile_flushed o n cp log dlog : stands_for n cp log → fits n0 n → justified (o_sent o) log → (∀ d, settles dlog d → settles log d) →
  datas log ⊆ datas dlog → cp_pending cp = [] → (∀ c, smem c (cp_aborted cp) = true → abort_sent (o_sent o) c) → volatile o n cp log dlog.
Proof.
  intros H1 H2 H3 H4 H5 H6 H7. split; try done.
  - intros m Hm. left. auto.
  - intros t Ht. rewrite H6 in Ht. by apply not_elem_of_nil in Ht.
Qed.

(** What a flush of the checkpointer does: what is saved covers the whole history, and
    every acknowledgement held is released. *)
Definition flushed (o : Outside) (n : NodeState F) (log dlog : list entry) (cp' : cpr) (effs : list neffect) (dlog' : list entry) : Prop :=
  safe o dlog effs dlog' ∧ volatile (after o effs) n cp' log dlog' ∧ cp_pending cp' = [].

Lemma flush_good o n cp log dlog force cp' effs : out_ok o → volatile o n cp log dlog → flush cp (world_of n) force = (cp', effs) →
  ∃ dlog', flushed o n log dlog cp' effs dlog' ∧ (force = true → dlog' = log).
Proof.
  intros Ho HV. unfold flush, checkpoint_and_flush. intros [= <- <-]. destruct (HV) as [H1 H2 H3 H4 H5 H6 H7 H8].
  destruct (cp_dirty cp || force) eqn:Ed.
  - exists log. split; [|done]. split_and!; [|apply volatile_flushed|done]; try done; rewrite ?after_sent; try done.
    simpl. econstructor; [by exists n, cp|done..|]. apply safe_acks. intros t d Ht Hq.
    destruct (H6 t Ht) as (d' & m & Hq' & Ha & Hm). rewrite (tag_unique _ _ _ _ Ho Hq Hq'). by rewrite settles_data.
  - apply orb_false_iff in Ed as [Ed ->]. exists dlog. rewrite H7 by done. split; [|done]. split; [constructor|]. split; [|done].
    apply volatile_flushed; try done. intros m Hm. destruct (H5 m Hm) as [?|(t & d & Ht & _)]; [done|].
    rewrite H7 in Ht by done. by apply not_elem_of_nil in Ht.
Qed.

(** The state and the history change, the data messages stay. *)
Lemma volatile_log o n n' cp log log' dlog : volatile o n cp log dlog → run_log log' = Ok n' → datas log' = datas log → fits n0 n' →
  justified (o_sent o) log' → (∀ d, settles log d → settles log' d) → volatile o n' cp log' dlog.
Proof.
  intros [(Hr & Hi & Hd & Hnd) H2 H3 H4 H5 H6 H7 H8] Hr' Ed Hf Hj Hk. split; try done; rewrite ?Ed; try done.
  - split_and!; [done|done|by rewrite Ed|by rewrite Ed].
  - auto.
Qed.

(** One more entry, which is no data message. *)
Lemma volatile_entry o n n' cp log dlog e : volatile o n cp log dlog → node_after n e = Ok n' → datas [e] = [] → fits n0 n' →
  justified (o_sent o) [e] → volatile o n' cp (log ++ [e]) dlog.
Proof.
  intros HV He Hd Hf Hj. apply (volatile_log o n _ _ log); try done.
  - by rewrite (run_log_snoc log n) by apply HV.
  - by rewrite datas_app, Hd, app_nil_r.
  - apply justified_app. split; [apply HV|done].
  - intros d Hs. apply settles_app. by left.
Qed.

(** The last entry replaced by a later stage of the same handler. *)
Lemma volatile_stage o n1 n2 n cp log dlog e e' : volatile o n1 cp (log ++ [e]) dlog → run_log log = Ok n → node_after n e' = Ok n2 →
  datas [e] = [] → datas [e'] = [] → fits n0 n2 → justified (o_sent o) [e'] → (∀ d, about d e ↔ about d e') → (finished e = true → finished e' = true) →
  volatile o n2 cp (log ++ [e']) dlog.
Proof.
  intros HV Hr He Hd Hd' Hf Hj' Ha Hfin. apply (volatile_log o n1 _ _ (log ++ [e])); try done.
  - by rewrite (run_log_snoc log n).
  - by rewrite !datas_app, Hd, Hd'.
  - pose proof (vo_just _ _ _ _ _ HV) as [Hj _]%justified_app. by apply justified_app.
  - intros d. rewrite !settles_app, !settles_one, Ha. naive_solver.
Qed.

(** Acknowledging a delivery that the process does not hold. *)
Lemma volatile_ack o n cp log dlog t : t ∉ cp_pending cp → volatile o n cp log dlog → volatile (do_effect o (Ack t)) n cp log dlog.
Proof.
  intros Ht [H1 H2 H3 H4 H5 H6 H7 H8]. split; try done.
  - intros m Hm. destruct (H5 m Hm) as [?|(t' & d & Hp & Hq & Ha)]; [by left|]. right. exists t', d. split_and!; try done.
    apply list_elem_of_filter. split; [|done]. cbn. by intros ->.
  - intros t' Hp. destruct (H6 t' Hp) as (d & m & Hq & Ha & Hm). exists d, m. split_and!; try done.
    apply list_elem_of_filter. split; [|done]. cbn. by intros ->.
Qed.

(** ** The handlers *)

Context (fresh : fresh_node n0) `{!Keeps n0 app}.

(** A handler's effects are safe, and leave the state of a longer history. *)
Definition good (o : Outside) (dlog : list entry) (n' : NodeState F) (cp' : cpr) (effs : list neffect) : Prop :=
  ∃ log' dlog', safe o dlog effs dlog' ∧ volatile (after o effs) n' cp' log' dlog'.

(** A delivery that is only acknowledged. *)
Lemma acked_good o n cp log dlog t : volatile o n cp log dlog → t ∉ cp_pending cp → ackable o dlog t → good o dlog n cp [Ack t].
Proof. intros HV Ht Ha. exists log, dlog. split; [by constructor; [|constructor]|]. by apply volatile_ack. Qed.

(** *** Data *)

Lemma stands_for_data n n' outs cp log m t : stands_for n cp log → 0 < seq m →
  is_duplicate (cp_dedup cp) (producer_id m) (seq m) = false → on_data_ app n m = Ok (n', outs) →
  stands_for n' (mkCP (record (cp_dedup cp) (producer_id m) (seq m)) (cp_every cp) (cp_pending cp ++ [t]) (cp_aborted cp) true) (log ++ [LData m]).
Proof.
  intros (Hr & Hinv & Hdup & Hnd) Hs Hfresh Ha. split_and!.
  - rewrite (run_log_snoc log n) by done. cbn [node_after]. by rewrite Ha.
  - by apply record_inv.
  - intros p q. cbn [cp_dedup]. rewrite is_duplicate_record, Hdup by done. unfold seen.
    rewrite datas_app, fmap_app, elem_of_app. change (msg_id <$> datas [LData m]) with [msg_id m].
    rewrite list_elem_of_singleton. unfold msg_id at 3. intuition congruence.
  - rewrite datas_app. apply NoDup_app. split_and!; [done| |apply NoDup_singleton].
    intros m' Hm' ->%list_elem_of_singleton.
    assert (is_duplicate (cp_dedup cp) (producer_id m) (seq m) = true); [|congruence].
    apply Hdup. right. split; [done|]. apply list_elem_of_fmap. by exists m.
Qed.

(** A message whose identity is in the table is in the history. *)
Lemma duplicate_in_log o n cp log dlog t raw m : out_ok o → volatile o n cp log dlog → (t, OnData raw) ∈ o_queue o → data_of raw = Some m →
  is_duplicate (cp_dedup cp) (producer_id m) (seq m) = true → m ∈ datas log.
Proof.
  intros Ho HV Hq Hm Hdup. destruct (oo_queue _ Ho _ _ Hq) as [_ Hsent]. destruct (vo_stands _ _ _ _ _ HV) as (_ & _ & Hd & _).
  apply Hd in Hdup as [Hneg|[_ Hin]]; [pose proof (oo_stamped _ Ho raw m Hsent Hm); lia|].
  apply list_elem_of_fmap in Hin as (m' & Eid & Hin). assert (Hin' := Hin). apply elem_datas in Hin'.
  destruct (vo_just _ _ _ _ _ HV _ Hin') as [?|(d & Hd' & Ha)]; [done|]. destruct d as [raw'|]; [|done]. cbn in Ha.
  pose proof (oo_ids _ Ho raw raw' m m' Hsent Hd' Hm Ha Eid) as ->. rewrite Hm in Ha. by injection Ha as ->.
Qed.

(** The state after a message has been applied and recorded, before any effect. *)
Lemma volatile_taken o n n' outs cp log dlog t raw m : out_ok o → volatile o n cp log dlog → deliverable o cp t (OnData raw) → data_of raw = Some m →
  is_duplicate (cp_dedup cp) (producer_id m) (seq m) = false → on_data_ app n m = Ok (n', outs) →
  volatile o n' (mkCP (record (cp_dedup cp) (producer_id m) (seq m)) (cp_every cp) (cp_pending cp ++ [t]) (cp_aborted cp) true) (log ++ [LData m]) dlog.
Proof.
  intros Ho HV [Hq Ht] Hm Hdup Ha. destruct (oo_queue _ Ho _ _ Hq) as [_ Hsent]. split; cbn [cp_pending cp_dirty cp_aborted]; try done.
  - eapply stands_for_data; [apply HV|by apply (oo_stamped _ Ho raw)|done|exact Ha].
  - eapply (fits_on_data n0 app); [apply (vo_fits _ _ _ _ _ HV)|exact Ha].
  - apply justified_app. split; [apply HV|]. intros e ->%list_elem_of_singleton. right. by exists (OnData raw).
  - intros d Hd. apply settles_app. left. by apply (vo_kept _ _ _ _ _ HV).
  - intros m' Hm'. rewrite datas_app in Hm'. apply elem_of_app in Hm' as [Hm'| ->%list_elem_of_singleton].
    + destruct (vo_held _ _ _ _ _ HV m' Hm') as [?|(t' & d & Hp & Hd)]; [by left|]. right. exists t', d. split; [|done]. apply elem_of_app. by left.
    + right. exists t, (OnData raw). split; [|done]. apply elem_of_app. right. by apply list_elem_of_singleton.
  - intros t' [Hp| ->%list_elem_of_singleton]%elem_of_app; setoid_rewrite datas_app; setoid_rewrite elem_of_app.
    + destruct (vo_pending _ _ _ _ _ HV t' Hp) as (d & m' & ? & ? & ?). exists d, m'. auto.
    + exists (OnData raw), m. split; [done|]. split; [done|]. right. by apply list_elem_of_singleton.
  - apply HV.
Qed.

Lemma data_good o n cp log dlog t raw m cp' n' effs : out_ok o → volatile o n cp log dlog → deliverable o cp t (OnData raw) → data_of raw = Some m →
  handle_data world_of (λ m n, on_data_ app n m) cp n m t = Ok (cp', n', effs) → good o dlog n' cp' effs.
Proof.
  intros Ho HV [Hq Ht] Hm H. unfold handle_data in H. apply bind_Ok in H as (c & Hc%of_opt_Ok & H).
  destruct (oo_queue _ Ho _ _ Hq) as [_ Hsent].
  destruct (smem c (cp_aborted cp)) eqn:Eab.
  { injection H as <- <- <-. apply (acked_good _ _ _ log); [done..|]. intros d Hd. rewrite <- (tag_unique _ _ _ _ Ho Hq Hd).
    right. left. exists m, c. split_and!; [done..|]. by apply (vo_aborts _ _ _ _ _ HV). }
  destruct (is_duplicate _ _ _) eqn:Edup.
  { injection H as <- <- <-. apply (acked_good _ _ _ log); [done..|]. intros d Hd. rewrite <- (tag_unique _ _ _ _ Ho Hq Hd).
    pose proof (duplicate_in_log _ _ _ _ _ _ _ _ Ho HV Hq Hm Edup) as Hin.
    destruct (vo_held _ _ _ _ _ HV m Hin) as [?|(t' & d' & Hp & Hq' & Ha)]; [left; by rewrite (settles_data _ _ m)|].
    right. right. exists t'. split; [by intros ->|]. destruct (oo_queue _ Ho _ _ Hq') as [_ Hsent'].
    by rewrite (data_unique o (OnData raw) d' m Ho Hsent Hsent'). }
  apply bind_Ok in H as ([n1 outs] & Ha & H). cbn beta in Ha.
  pose proof (volatile_taken _ _ _ _ _ _ _ _ _ _ Ho HV (conj Hq Ht) Hm Edup Ha) as HV1.
  set (cp1 := mkCP _ _ _ _ _) in HV1, H. destruct (_ >=? _).
  - destruct (checkpoint_and_flush cp1 (world_of n1) false) as [cp2 e2] eqn:Ef. injection H as <- <- <-.
    destruct (flush_good _ _ _ _ _ false cp2 e2 Ho HV1 Ef) as (dlog' & (Hs & HV2 & _) & _). exists (log ++ [LData m]), dlog'. split.
    + eapply safe_app; [apply safe_sends|]. by rewrite after_sends.
    + by rewrite foldl_app, after_sends.
  - injection H as <- <- <-. exists (log ++ [LData m]), dlog. split; [apply safe_sends|]. by rewrite after_sends.
Qed.

(** *** Handlers that emit *)

Lemma flush_acks (cp : cpr) (w : World F (RingCompletion + SentCounts)) force cp' (effs : list neffect) t : flush cp w force = (cp', effs) → Ack t ∈ effs → t ∈ cp_pending cp.
Proof.
  unfold flush, checkpoint_and_flush. intros [= _ <-] [Hin|Hin]%elem_of_app.
  - destruct (cp_dirty cp || force); [|by apply not_elem_of_nil in Hin]. by apply list_elem_of_singleton in Hin.
  - by apply list_elem_of_fmap in Hin as (t' & [= ->] & Hin).
Qed.

Lemma flush_keeps o (cp : cpr) (w : World F (RingCompletion + SentCounts)) force cp' (effs : list neffect) t d : flush cp w force = (cp', effs) → t ∉ cp_pending cp → (t, d) ∈ o_queue o → (t, d) ∈ o_queue (after o effs).
Proof. intros Hf Ht Hq. apply after_queue. split; [done|]. intros Hin. apply Ht. by eapply flush_acks. Qed.

Lemma justified_one o d e : d ∈ o_sent o → about d e → justified (o_sent o) [e].
Proof. intros Hd Ha x ->%list_elem_of_singleton. right. by exists d. Qed.

(** The common end of the handlers of an end of file and of a token: the completion has
    recorded the event; the actions run, a checkpoint, the memory freed, the delivery
    acknowledged. *)
Lemma emission_good o n n1 n2 n3 cp1 cp2 log dlog t d (mk : stage → entry) (outs : list NOut) e2 :
  out_ok o → volatile o n1 cp1 (log ++ [mk Recorded]) dlog → run_log log = Ok n → (t, d) ∈ o_queue o → t ∉ cp_pending cp1 →
  (∀ s, datas [mk s] = []) → (∀ s s' d', about d' (mk s) ↔ about d' (mk s')) → finished (mk Sent) = true → finished (mk Freed) = true → about d (mk Sent) →
  node_after n (mk Sent) = Ok n2 → node_after n (mk Freed) = Ok n3 → fits n0 n2 → fits n0 n3 →
  flush cp1 (world_of n2) true = (cp2, e2) → good o dlog n3 cp2 ((Send <$> outs) ++ e2 ++ [Ack t]).
Proof.
  intros Ho HV Hr Hq Ht Hdat Hab Hf1 Hf2 Ha H2 H3 Hn2 Hn3 Ef. destruct (oo_queue _ Ho _ _ Hq) as [_ Hsent].
  assert (Hj : ∀ s, justified (o_sent o) [mk s]) by (intros s; apply (justified_one _ d); [done|by apply (Hab Sent)]).
  assert (HV2 : volatile o n2 cp1 (log ++ [mk Sent]) dlog).
  { apply (volatile_stage o n1 n2 n _ _ _ (mk Recorded)); [exact HV|exact Hr|exact H2|apply Hdat|apply Hdat|exact Hn2|apply Hj|apply Hab|done]. }
  destruct (flush_good _ _ _ _ _ true cp2 e2 Ho HV2 Ef) as (dlog' & (Hs & HV3 & Hp) & E). rewrite E in Hs, HV3 by done.
  exists (log ++ [mk Freed]), (log ++ [mk Sent]). split.
  - eapply safe_app; [apply safe_sends|]. rewrite after_sends. eapply safe_app; [exact Hs|]. constructor; [|constructor].
    intros d' Hd'. apply after_queue in Hd' as [Hd' _]. rewrite <- (tag_unique _ _ _ _ Ho Hq Hd'). left. apply settles_app. right. by apply settles_one.
  - rewrite !foldl_app, after_sends. apply volatile_ack; [rewrite Hp; apply not_elem_of_nil|].
    apply (volatile_stage _ n2 n3 n _ _ _ (mk Sent)); [exact HV3|exact Hr|exact H3|apply Hdat|apply Hdat|exact Hn3|rewrite after_sent; apply Hj|apply Hab|done].
Qed.

Lemma good_app o dlog es1 dlog1 n' cp' es2 : safe o dlog es1 dlog1 → good (after o es1) dlog1 n' cp' es2 → good o dlog n' cp' (es1 ++ es2).
Proof. intros Hs (log' & dlog' & H1 & H2). exists log', dlog'. split; [by eapply safe_app|by rewrite foldl_app]. Qed.

(** *** Ends of file *)

(** The two flushes that precede the actions. *)
Lemma recorded_good o n cp log dlog t raw m c p k nx og per cp0 e0 cp1 e1 : out_ok o → volatile o n cp log dlog → deliverable o cp t (OnData raw) →
  deserialize_message raw = Ok m → body_ m = EOF c p k nx og per → flush cp (world_of n) false = (cp0, e0) →
  let '(rc, actions) := on_upstream_eof (n_rc n) c k in
  match actions with [] => (Some cp0, []) | _ => flush_node (Some cp0) (set_rc n rc) end = (Some cp1, e1) →
  ∃ dlog1, safe o dlog (e0 ++ e1) dlog1 ∧ volatile (after o (e0 ++ e1)) (set_rc n rc) cp1 (log ++ [LEof c k Recorded]) dlog1 ∧
    cp_pending cp1 = [] ∧ (t, OnData raw) ∈ o_queue (after o (e0 ++ e1)).
Proof.
  intros Ho HV [Hq Ht] Hm Hb Ef. destruct (oo_queue _ Ho _ _ Hq) as [_ Hsent].
  destruct (flush_good _ _ _ _ _ false cp0 e0 Ho HV Ef) as (dlog0 & (Hs0 & HV0 & Hp0) & _).
  pose proof (flush_keeps _ _ _ _ _ _ _ _ Ef Ht Hq) as Hq0.
  pose proof (fits_rc_step n0 n (EvEof c k) (vo_fits _ _ _ _ _ HV) I) as Hfit. cbn [rc_step] in Hfit.
  destruct (on_upstream_eof (n_rc n) c k) as [rc actions] eqn:Er. cbn [fst] in Hfit.
  assert (HV1 : volatile (after o e0) (set_rc n rc) cp0 (log ++ [LEof c k Recorded]) dlog0).
  { apply (volatile_entry _ n); [exact HV0| |done|exact Hfit|].
    - cbn [node_after]. by rewrite Er.
    - rewrite after_sent. apply (justified_one _ (OnData raw)); [done|]. exists m. by eauto 7. }
  destruct actions as [|a actions]; [intros [= <- <-]|unfold flush_node; destruct (flush cp0 _ true) as [cp1' e1'] eqn:Ef1; intros [= <- <-]].
  - exists dlog0. rewrite app_nil_r. done.
  - destruct (flush_good _ _ _ _ _ true cp1' e1' (out_ok_after _ _ Ho) HV1 Ef1) as (dlog1 & (Hs1 & HV2 & Hp1) & _).
    exists dlog1. rewrite foldl_app. split; [by eapply safe_app|]. split; [done|]. split; [done|].
    eapply flush_keeps; [exact Ef1| |exact Hq0]. rewrite Hp0. apply not_elem_of_nil.
Qed.

Lemma eof_good o n cp log dlog t raw m c p k nx og per cp0 e0 cp' n' e2 : out_ok o → volatile o n cp log dlog → deliverable o cp t (OnData raw) →
  deserialize_message raw = Ok m → body_ m = EOF c p k nx og per → flush cp (world_of n) false = (cp0, e0) →
  on_eof_ app (Some cp0) n c k = Ok (Some cp', n', e2) → good o dlog n' cp' (e0 ++ e2 ++ [Ack t]).
Proof.
  intros Ho HV Hdel Hm Hb Ef H. pose proof (λ cp1 e1, recorded_good o n cp log dlog t raw m c p k nx og per cp0 e0 cp1 e1 Ho HV Hdel Hm Hb Ef) as Hrec. unfold on_eof_ in H.
  destruct (on_upstream_eof (n_rc n) c k) as [rc actions] eqn:Er.
  assert (E : ∃ cp1 e1, match actions with [] => (Some cp0, []) | _ => flush_node (Some cp0) (set_rc n rc) end = (Some cp1, e1)).
  { destruct actions; [by eauto|]. unfold flush_node. destruct (flush cp0 _ true). by eauto. }
  destruct E as (cp1 & e1 & E). rewrite E in H. destruct (Hrec cp1 e1 E) as (dlog1 & Hs & HV1 & Hp1 & Hq1).
  apply bind_Ok in H as ([n2 outs] & Hrun & H). unfold flush_node in H. destruct (flush cp1 (world_of n2) true) as [cp2 e3] eqn:Ef2.
  injection H as <- <- <-. replace (e0 ++ (e1 ++ (Send <$> outs) ++ e3) ++ [Ack t]) with ((e0 ++ e1) ++ (Send <$> outs) ++ e3 ++ [Ack t]) by (by rewrite <- !app_assoc).
  eapply good_app; [exact Hs|]. assert (Hn2 : fits n0 n2) by (eapply (fits_run n0 app); [exact (vo_fits _ _ _ _ _ HV1)|exact Hrun]).
  apply (emission_good _ n (set_rc n rc) n2 _ cp1 _ log _ t (OnData raw) (LEof c k)); try done.
  - by apply out_ok_after.
  - apply HV.
  - rewrite Hp1. apply not_elem_of_nil.
  - exists m. by eauto 7.
  - cbn [node_after]. by rewrite Er, Hrun.
  - cbn [node_after]. by rewrite Er, Hrun.
  - by apply (fits_free_all n0 app).
Qed.

(** *** Tokens *)

Lemma token_good o n cp log dlog t raw m tok cp' n' effs : out_ok o → volatile o n cp log dlog → deliverable o cp t (OnRing raw) →
  deserialize_message raw = Ok m → body_ m = RingBarrier (tok_client tok) (tok_origin tok) (sent_by tok) →
  on_ring_token app (Some cp) n tok t = RingAcked (Some cp') n' effs → good o dlog n' cp' effs.
Proof.
  intros Ho HV [Hq Ht] Hm Hb H. destruct (oo_queue _ Ho _ _ Hq) as [_ Hsent]. unfold on_ring_token in H.
  pose proof (fits_rc_step n0 n (EvToken tok) (vo_fits _ _ _ _ _ HV) I) as Hfit. cbn [rc_step] in Hfit.
  destruct (on_token (n_rc n) tok) as [rc actions] eqn:Er. cbn [fst] in Hfit.
  destruct (run_ app (set_rc n rc) actions) as [[n2 outs]|] eqn:Hrun; [|done].
  unfold flush_node in H. destruct (flush cp (world_of n2) true) as [cp2 e2] eqn:Ef. injection H as <- <- <-.
  assert (Hn2 : fits n0 n2) by (eapply (fits_run n0 app); [exact Hfit|exact Hrun]).
  apply (emission_good _ n (set_rc n rc) n2 _ cp _ log _ t (OnRing raw) (LToken tok)); try done.
  - apply (volatile_entry _ n); [exact HV| |done|exact Hfit|].
    + cbn [node_after]. by rewrite Er.
    + apply (justified_one _ (OnRing raw)); [done|]. by exists m.
  - apply HV.
  - by exists m.
  - cbn [node_after]. by rewrite Er, Hrun.
  - cbn [node_after]. by rewrite Er, Hrun.
  - by apply (fits_free_all n0 app).
Qed.

(** *** Aborts *)

Lemma downstream_abort_same (n : NodeState F) c n' outs : downstream_abort n c = Ok (n', outs) → n' = n.
Proof.
  unfold downstream_abort. destruct (control_to_all (λ _, new_msg (Abort c)) n (length (n_txs n)) 0) as (raws & _ & H); [lia|by right; left|done|].
  rewrite H. by intros [= <- _].
Qed.

Lemma volatile_mark o n cp c log dlog : volatile o n cp log dlog → abort_sent (o_sent o) c → volatile o n (mark_aborted cp c) log dlog.
Proof.
  intros [H1 H2 H3 H4 H5 H6 H7 H8] Hc. split; try done. intros c' [Hc'|E]%smem_sadd; [by apply H8|]. assert (c' = c) as -> by exact E. done.
Qed.

Lemma abort_good o n cp log dlog t raw m c cp' n' effs : out_ok o → volatile o n cp log dlog → deliverable o cp t (OnData raw) →
  deserialize_message raw = Ok m → body_ m = Abort c → on_abort_ app (Some cp) n c = Ok (Some cp', n', effs) → good o dlog n' cp' (effs ++ [Ack t]).
Proof.
  intros Ho HV [Hq Ht] Hm Hb H. destruct (oo_queue _ Ho _ _ Hq) as [_ Hsent]. unfold on_abort_, flush_node in H.
  set (n1 := app_discard app _ c) in H. destruct (flush (mark_aborted cp c) (world_of n1) true) as [cp1 e1] eqn:Ef.
  apply bind_Ok in H as ([n2 outs] & Hd & H). apply downstream_abort_same in Hd as ->. injection H as <- <- <-.
  assert (Ha : about (OnData raw) (LAbort c)) by (by exists m).
  assert (HV1 : volatile o n1 (mark_aborted cp c) (log ++ [LAbort c]) dlog).
  { apply (volatile_entry _ n); [|done|done|apply (fits_abort n0 app), HV|by apply (justified_one _ (OnData raw))].
    apply volatile_mark; [done|]. by exists raw. }
  destruct (flush_good _ _ _ _ _ true cp1 e1 Ho HV1 Ef) as (dlog1 & (Hs & HV2 & Hp) & E). rewrite E in Hs, HV2 by done.
  exists (log ++ [LAbort c]), (log ++ [LAbort c]). rewrite <- app_assoc. split.
  - eapply safe_app; [exact Hs|]. eapply safe_app; [apply safe_sends|]. rewrite after_sends. constructor; [|constructor].
    intros d' Hd'. apply after_queue in Hd' as [Hd' _]. rewrite <- (tag_unique _ _ _ _ Ho Hq Hd'). left. apply settles_app. right. by apply settles_one.
  - rewrite !foldl_app, after_sends. apply volatile_ack; [|exact HV2]. rewrite Hp. apply not_elem_of_nil.
Qed.

(** *** Every delivery *)

Lemma handle_good o n cp log dlog t d cp' n' effs : out_ok o → volatile o n cp log dlog → deliverable o cp t d →
  handles cp n d t cp' n' effs → good o dlog n' cp' effs.
Proof.
  intros Ho HV Hdel H. destruct d as [raw|raw]; cbn [handles] in H.
  - unfold on_data_msg in H. apply bind_Ok in H as (m & Hm & H).
    destruct (data_of raw) as [m'|] eqn:Ed.
    + assert (H' : ('(cp, n, e) ← handle_data world_of (λ m n, on_data_ app n m) cp n m t; Ok (Some cp, n, e)) = Ok (Some cp', n', effs) ∧ m' = m).
      { unfold data_of in Ed. rewrite Hm in Ed. unfold dispatch in H. destruct (body_type (body_ m)); try discriminate Ed; injection Ed as <-; done. }
      destruct H' as [H' ->]. apply bind_Ok in H' as ([[cp1 n1] e1] & H' & [= <- <- <-]). by eapply data_good.
    + unfold data_of in Ed. rewrite Hm in Ed. unfold dispatch in H. destruct (body_type (body_ m)) eqn:Eb; try discriminate Ed.
      * destruct (flush cp (world_of n) false) as [cp0 e0] eqn:Ef. apply bind_Ok in H as ([[cp1 n1] e2] & H & E). injection E as -> -> <-.
        unfold on_eof_msg in H. destruct (body_ m) as [c p k nx og per| | | | | | | | | | | | | | | | | | | | | | | | |] eqn:Eb'; try discriminate H.
        by eapply eof_good.
      * apply bind_Ok in H as ([[cp1 n1] e2] & H & E). injection E as -> -> <-. unfold on_abort_msg in H.
        destruct (body_ m) as [| | | | | | | | | | | | | | | | | | | | | |c| | |] eqn:Eb'; try discriminate Eb. by eapply abort_good.
  - unfold on_ring_msg in H. apply bind_Ok in H as (m & Hm & H).
    destruct (body_ m) as [| | | | | | | | | | | | | | | | | | | | |c org sb| | | |] eqn:Eb; try discriminate H. injection H as H.
    by apply (token_good o n cp log dlog t raw m (mkToken c org sb)).
Qed.

(** What a handler has done when it raises. *)
Lemma raising_good o n cp log dlog t raw : out_ok o → volatile o n cp log dlog → deliverable o cp t (OnData raw) →
  ∃ dlog', safe o dlog (before_raising cp n raw) dlog'.
Proof.
  intros Ho HV Hdel. unfold before_raising. destruct (deserialize_message raw) as [m|] eqn:Hm; [|by exists dlog; constructor].
  destruct (body_ m) as [c p k nx og per| | | | | | | | | | | | | | | | | | | | | | | | |] eqn:Eb; try (by exists dlog; constructor).
  destruct (flush cp (world_of n) false) as [cp0 e0] eqn:Ef.
  pose proof (λ cp1 e1, recorded_good o n cp log dlog t raw m c p k nx og per cp0 e0 cp1 e1 Ho HV Hdel Hm Eb Ef) as Hrec.
  destruct (on_upstream_eof (n_rc n) c k) as [rc [|a actions]].
  - destruct (Hrec cp0 [] eq_refl) as (dlog1 & Hs & _). by exists dlog1.
  - unfold flush_node in Hrec. destruct (flush cp0 (world_of (set_rc n rc)) true) as [cp1 e1].
    destruct (Hrec cp1 e1 eq_refl) as (dlog1 & Hs & _). by exists dlog1.
Qed.

(** *** Starting *)

Lemma stands_for_new : stands_for n0 (cp_new every) [].
Proof. split_and!; [done|apply dedup_inv_empty| |constructor]. intros p q. apply (is_duplicate_record_all [] p q). Qed.

Lemma restored o dlog : durable o dlog →
  ∃ b cp n, cp_restore (cp_new every) (world_of n0) (o_disk o) = Ok (b, (cp, world_of n)) ∧ volatile o n cp dlog dlog ∧
    (b = false → n = n0 ∧ cp = cp_new every).
Proof.
  intros [Hd Hj _]. pose proof (fresh_fits _ fresh) as Hf0. destruct (o_disk o) as [b|].
  - destruct Hd as (n & cp & -> & (H1 & H2 & H3 & H4) & Hf & Hab). rewrite restore_blob by (by apply fits_world).
    do 3 eexists. split; [reflexivity|]. split; [|done]. apply volatile_flushed; try done.
    + split_and!; [done|by apply restore_snapshot_inv| |done]. intros p q. cbn. by rewrite (restore_snapshot_equiv (cp_dedup cp)).
    + intros c Hc. apply Hab. by apply smem_set_of.
  - cbn in Hd. subst dlog. exists false, (cp_new every), n0. split; [|split; [|done]].
    + cbn. rewrite (fresh_clear _ fresh). done.
    + apply volatile_flushed; try done. apply stands_for_new.
Qed.

Lemma start_good o dlog cp n effs : out_ok o → durable o dlog →
  start_ app (Some (cp_new every)) n0 (o_disk o) = Ok (Some cp, n, effs) → good o dlog n cp effs.
Proof.
  intros Ho Hd H. destruct (restored o dlog Hd) as (b & cp1 & n1 & E & HV & Hb). unfold start_ in H. rewrite E in H. cbn [mbind res_bind world_of w_extra w_seqs w_fn] in H.
  replace (mkNode_ (n_rc n1) (n_sent n1) (n_txs n1) (n_fn n1)) with n1 in H by (by destruct n1). destruct b; cbn [negb] in H.
  - pose proof (fits_recheck n0 n1 (vo_fits _ _ _ _ _ HV)) as Hfit. destruct (recheck (n_rc n1)) as [rc actions] eqn:Er. cbn [fst] in Hfit.
    apply bind_Ok in H as ([n2 outs] & Hrun & H). unfold flush_node in H. destruct (flush cp1 _ true) as [cp2 e2] eqn:Ef. injection H as <- <- <-.
    assert (Hn2 : fits n0 n2) by (eapply (fits_run n0 app); [exact Hfit|exact Hrun]).
    assert (HV1 : volatile o (foldl (app_free app) n2 (resolved_clients (n_rc n2))) cp1 (dlog ++ [LStart]) dlog).
    { apply (volatile_entry _ n1); [exact HV| |done|by apply (fits_free_all n0 app)|intros x ->%list_elem_of_singleton; by left].
      cbn [node_after]. by rewrite Er, Hrun. }
    destruct (flush_good _ _ _ _ _ true cp2 e2 Ho HV1 Ef) as (dlog1 & (Hs & HV2 & _) & _). exists (dlog ++ [LStart]), dlog1. split.
    + eapply safe_app; [apply safe_sends|]. by rewrite after_sends.
    + by rewrite foldl_app, after_sends.
  - injection H as <- <- <-. exists dlog, dlog. split; [constructor|done].
Qed.

(** ** Every reachable state *)

Lemma out_ok_enqueue o d : out_ok o → may_send o d → out_ok (enqueue o d).
Proof.
  intros [H1 H2 H3 H4] Hd. split; cbn.
  - rewrite fmap_app. apply NoDup_app. split_and!; [done| |apply NoDup_singleton].
    intros t ([t' d'] & -> & Hin)%list_elem_of_fmap Ht%list_elem_of_singleton. destruct (H2 _ _ Hin). cbn in Ht. lia.
  - intros t d' [Hin|[= -> ->]%list_elem_of_singleton]%elem_of_app; rewrite length_app, elem_of_app, list_elem_of_singleton; cbn.
    + destruct (H2 _ _ Hin). split; [lia|by left].
    + split; [lia|by right].
  - intros raw raw' m m' [Hr|Hr%list_elem_of_singleton]%elem_of_app [Hr'|Hr'%list_elem_of_singleton]%elem_of_app Hm Hm' E.
    + by eapply H3.
    + symmetry in Hr'. by apply (proj2 (Hd raw' m' Hr' Hm') raw m).
    + symmetry in Hr. symmetry. by apply (proj2 (Hd raw m Hr Hm) raw' m').
    + congruence.
  - intros raw m [Hr|Hr%list_elem_of_singleton]%elem_of_app Hm; [by eapply H4|]. symmetry in Hr. by apply (Hd raw m Hr Hm).
Qed.

Lemma abort_sent_sub sent sent' c : sent ⊆ sent' → abort_sent sent c → abort_sent sent' c.
Proof. intros Hs (raw & H1 & H2). exists raw. auto. Qed.

Lemma durable_enqueue o d dlog : durable o dlog → durable (enqueue o d) dlog.
Proof.
  intros [H1 H2 H3]. assert (Hs : o_sent o ⊆ o_sent (enqueue o d)) by (cbn; intros x Hx; apply elem_of_app; by left). split.
  - unfold disk_covers in *. cbn [enqueue o_disk]. destruct (o_disk o) as [b|]; [|done]. destruct H1 as (n & cp & -> & ? & ? & Hab).
    exists n, cp. split_and!; try done. intros c Hc. by eapply abort_sent_sub; [|apply Hab].
  - by eapply justified_sub.
  - intros d' [Hd'| ->%list_elem_of_singleton]%elem_of_app.
    + destruct (H3 d' Hd') as [[t Ht]|[?|(m & c & ? & ? & ?)]]; [left; exists t; apply elem_of_app; by left|by right; left|].
      right. right. exists m, c. split_and!; try done. by eapply abort_sent_sub.
    + left. eexists. apply elem_of_app. right. by apply list_elem_of_singleton.
Qed.

Lemma volatile_enqueue o d n cp log dlog : volatile o n cp log dlog → volatile (enqueue o d) n cp log dlog.
Proof.
  intros [H1 H2 H3 H4 H5 H6 H7 H8]. assert (Hs : o_sent o ⊆ o_sent (enqueue o d)) by (cbn; intros x Hx; apply elem_of_app; by left). split; try done.
  - by eapply justified_sub.
  - intros m Hm. destruct (H5 m Hm) as [?|(t & d' & ? & ? & ?)]; [by left|]. right. exists t, d'. split_and!; try done. apply elem_of_app. by left.
  - intros t Ht. destruct (H6 t Ht) as (d' & m & ? & ? & ?). exists d', m. split_and!; try done. apply elem_of_app. by left.
  - intros c Hc. eapply abort_sent_sub; [exact Hs|by apply H8].
Qed.

Definition ns_inv (s : NodeSys) : Prop :=
  out_ok (ns_out s) ∧ ∃ dlog, durable (ns_out s) dlog ∧
    match ns_up s with Some (n, cp) => ∃ log, volatile (ns_out s) n cp log dlog | None => True end.

Lemma ns_inv_init : ns_inv ns_init.
Proof. split; [split; cbn; intros; try apply NoDup_nil_2; set_solver|]. exists []. split; [|done]. split; cbn; [done|by intros e ?%not_elem_of_nil|set_solver]. Qed.

Lemma ns_inv_step s s' : ns_inv s → ns_step s s' → ns_inv s'.
Proof.
  intros (Ho & dlog & HD & HV) Hstep.
  destruct Hstep as [up o d Hd|n cp o t d cp' n' effs Hdel Hh|n cp o t d cp' n' done_ rest Hdel Hh|up o
    |n cp o t raw e done_ rest Hdel Hr He|o cp n effs Hs|o cp n done_ rest Hs]; cbn [ns_up ns_out] in *.
  - split; [by apply out_ok_enqueue|]. exists dlog. split; [by apply durable_enqueue|]. destruct up as [[n cp]|]; [|done].
    destruct HV as [log HV]. exists log. by apply volatile_enqueue.
  - destruct HV as [log HV]. destruct (handle_good _ _ _ _ _ _ _ _ _ _ Ho HV Hdel Hh) as (log' & dlog' & Hs & HV').
    split; [by apply out_ok_after|]. exists dlog'. split; [by eapply safe_all|]. by exists log'.
  - destruct HV as [log HV]. destruct (handle_good _ _ _ _ _ _ _ _ _ _ Ho HV Hdel Hh) as (log' & dlog' & Hs & _).
    split; [by apply out_ok_after|]. destruct (safe_prefix _ _ _ _ _ Hs HD) as [dlog1 HD1]. by exists dlog1.
  - split; [done|]. by exists dlog.
  - destruct HV as [log HV]. destruct (raising_good _ _ _ _ _ _ _ Ho HV Hdel) as (dlog' & Hs). rewrite He in Hs.
    split; [by apply out_ok_after|]. destruct (safe_prefix _ _ _ _ _ Hs HD) as [dlog1 HD1]. by exists dlog1.
  - destruct (start_good _ _ _ _ _ Ho HD Hs) as (log' & dlog' & Hsafe & HV'). split; [by apply out_ok_after|].
    exists dlog'. split; [by eapply safe_all|]. by exists log'.
  - destruct (start_good _ _ _ _ _ Ho HD Hs) as (log' & dlog' & Hsafe & _). split; [by apply out_ok_after|].
    destruct (safe_prefix _ _ _ _ _ Hsafe HD) as [dlog1 HD1]. by exists dlog1.
Qed.

Lemma ns_inv_reachable s : rtc ns_step ns_init s → ns_inv s.
Proof. intros Hr. eapply (rtc_invariant ns_step ns_inv); [apply ns_inv_step|exact Hr|apply ns_inv_init]. Qed.
End system.

(** ** What survives *)

Section node_claims.
Context `{MP : MsgPack} {F : Type} `{!Snapshotable F}.

(** Two data messages of a history with one identity are one message. *)
Lemma ids_NoDup (o : Outside) (log : list entry) : out_ok o → justified (o_sent o) log → NoDup (datas log) → NoDup (msg_id <$> datas log).
Proof.
  intros Ho Hj. apply NoDup_fmap_2_strong. intros m m' Hm Hm' E. apply elem_datas in Hm, Hm'.
  destruct (Hj _ Hm) as [?|([raw|raw] & Hd & Ha)]; [done| |done]. destruct (Hj _ Hm') as [?|([raw'|raw'] & Hd' & Ha')]; [done| |done].
  cbn in Ha, Ha'. pose proof (oo_ids o Ho raw raw' m m' Hd Hd' Ha Ha' E) as ->. rewrite Ha in Ha'. by injection Ha'.
Qed.

(** C1: effectively-once processing.  A node of a ring (a filter, a group-by, or an
    aggregate that keeps its state in memory; [Keeps] has an instance for each, and the
    functions that spill to files have none) gets its data messages, ends of file and
    aborts through [_on_data_msg], its tokens through [_on_ring_msg], each delivered,
    redelivered and sent again in any order, and may be killed at any moment: between
    two effects of a handler, in a handler of the data queue that raises, while it
    starts.  Whenever the broker holds nothing and the node is up, the node's state
    (business function, completion, counts, sequence numbers) is the one an uninterrupted
    run makes of a history in which every data message occurs once, everything comes
    from something sent, and everything sent has been handled to the end, the data of
    aborted clients apart.  Ends of file, aborts and tokens may occur in it repeatedly:
    only data carries an identity to tell copies by.  Assumed of the senders ([may_send]): data is stamped,
    and what is sent again has the same bytes; of the node's parts, nothing: that its
    checkpoint gives its state back is proved for the nodes above.  A token whose
    processing raises is given back to the broker, and is not a step of this system. *)
Theorem exactly_once (app : App F) (n0 n : NodeState F) (every : Z) (cp : Checkpointer nat) (o : Outside) :
  fresh_node n0 → Keeps n0 app → rtc (ns_step app n0 every) ns_init (mkNS (Some (n, cp)) o) → o_queue o = [] →
  ∃ log, run_log app n0 log = Ok n ∧ NoDup (msg_id <$> datas log) ∧ justified (o_sent o) log ∧
    ∀ d, d ∈ o_sent o → settles log d ∨ dropped (o_sent o) d.
Proof.
  intros Hf HK Hr Hq. destruct (ns_inv_reachable app n0 every Hf _ Hr) as (Ho & dlog & HD & log & HV). cbn [ns_out ns_up] in *.
  exists log. pose proof (vo_stands _ _ _ _ _ _ _ HV) as (H1 & _ & _ & H4). pose proof (vo_just _ _ _ _ _ _ _ HV) as H2.
  split_and!; [done|by eapply ids_NoDup|done|]. intros d Hd. destruct (du_sent _ _ _ _ HD d Hd) as [[t Ht]|[?|?]]; [|left|by right].
  - rewrite Hq in Ht. by apply not_elem_of_nil in Ht.
  - by eapply (vo_kept _ _ _ _ _ _ _ HV).
Qed.

(** C12: nothing acknowledged is lost.  At every moment of the same node, also when it
    has just been killed between two effects of a handler, its checkpoint file (or the
    absence of one) restores without an error, to the state that an uninterrupted run
    makes of a history in which every data message occurs once and everything comes from
    something sent; and every delivery the broker no longer holds, be it data, an end of
    file, an abort or a token, has been handled to the end in that history, or is data
    of an aborted client.  It holds of the filters, the group-bys and the aggregates in
    memory, given stamped data and senders that repeat themselves with the same bytes;
    nodes whose function spills to files are not among them. *)
Theorem acked_effects_survive (app : App F) (n0 : NodeState F) (every : Z) (s : NodeSys) :
  fresh_node n0 → Keeps n0 app → rtc (ns_step app n0 every) ns_init s →
  ∃ b cp n log, cp_restore (cp_new (Tag:=nat) every) (world_of n0) (o_disk (ns_out s)) = Ok (b, (cp, world_of n)) ∧
    run_log app n0 log = Ok n ∧ NoDup (msg_id <$> datas log) ∧ justified (o_sent (ns_out s)) log ∧
    ∀ d, d ∈ o_sent (ns_out s) → (∀ t, (t, d) ∉ o_queue (ns_out s)) → settles log d ∨ dropped (o_sent (ns_out s)) d.
Proof.
  intros Hf HK Hr. destruct (ns_inv_reachable app n0 every Hf _ Hr) as (Ho & dlog & HD & _).
  destruct (restored app n0 every Hf _ _ HD) as (b & cp & n & E & HV & _). exists b, cp, n, dlog.
  pose proof (vo_stands _ _ _ _ _ _ _ HV) as (H1 & _ & _ & H4). pose proof (vo_just _ _ _ _ _ _ _ HV) as H2.
  split_and!; [done|done|by eapply ids_NoDup|done|]. intros d Hd Hq. destruct (du_sent _ _ _ _ HD d Hd) as [[t Ht]|?]; [by destruct (Hq t)|done].
Qed.
End node_claims.

(** *** Witnesses: the aggregate of UC2's maxima, two batches and their end of file,
    one batch sent twice, a process killed after it saved a checkpoint *)

#[local] Existing Instance msgpack_model.
#[local] Instance system_hash : PyHash :=
  {| hash_str s := Z.of_nat (String.length s); hash_uuid u := uuid_int u; hash_identity p n := be_combine p + n |}.

Definition max_node : NodeState max_state :=
  mkNode_ (rc_init 0 []) sc_init [mkSM (uuid_bytes (uuid_lit 21)) seq_init; mkSM (uuid_bytes (uuid_lit 22)) seq_init] [].

Definition max_app : App max_state := RingAggregate UC2MaxAmountAggregateFn false.

Definition raw_of (b : Body) (sq : Z) : bytes :=
  match serialize (mkMsg b (uuid_bytes (uuid_lit 2)) sq) with Ok raw => raw | Exc _ => [] end.
Definition max_batch (sq amount : Z) : delivery := OnData (raw_of (MaxByBank (uuid_lit 7) [("1"%string, ("C"%string, f_of_Z amount))]) sq).
Definition max_eof : delivery := OnData (raw_of (EOF (uuid_lit 7) (-1) 2 (-1) (-1) []) 0).

Lemma max_node_fresh : fresh_node max_node.
Proof.
  split.
  - split; [|done| |]; cbn.
    + split; [apply nil_wf|]. by intros c d ?%not_elem_of_nil.
    + split; [|done]. apply rc_init_wf.
    + split; [apply nil_wf|done].
  - by apply (bool_decide_unpack (NoDup (sm_producer <$> n_txs max_node))); vm_compute.
  - done.
Qed.

(** [may_send], decided. *)
Definition may_send_b (o : Outside (F := max_state)) (d : delivery) : bool :=
  match d with
  | OnRing _ => true
  | OnData raw =>
      match data_of raw with
      | None => true
      | Some m => (0 <? seq m) && forallb (λ d', match d' with
          | OnRing _ => true
          | OnData raw' => bool_decide (raw' = raw) || match data_of raw' with None => true | Some m' => negb (bool_decide (msg_id m' = msg_id m)) end
          end) (o_sent o)
      end
  end.

Lemma may_send_check o d : may_send_b o d = true → may_send o d.
Proof.
  intros H raw m -> Hm. cbn in H. rewrite Hm in H. apply andb_true_iff in H as [H1 H2]. split; [lia|].
  intros raw' m' Hin Hm' E. apply list_elem_of_In in Hin. rewrite forallb_forall in H2. specialize (H2 _ Hin). cbn in H2. rewrite Hm', E in H2.
  rewrite (bool_decide_eq_true_2 (msg_id m = msg_id m) eq_refl) in H2. cbn in H2. rewrite orb_false_r in H2. by apply bool_decide_eq_true in H2.
Qed.

(** What is sent, in order. *)
Definition max_input : list delivery := [max_batch 1 5; max_batch 1 5; max_batch 2 9; max_eof].
Definition max_out : Outside (F := max_state) := foldl enqueue (mkOut None [] []) max_input.

Lemma max_sends : rtc (ns_step max_app max_node 2) ns_init (mkNS None max_out).
Proof.
  unfold max_out, max_input. cbn [foldl].
  repeat (eapply rtc_r; [|apply StepSend, may_send_check; vm_compute; reflexivity]). apply rtc_refl.
Qed.

(** The steps of a schedule, computed: start, handle the [i]-th delivery, be killed
    after [k] of its effects. *)
Inductive schedule := Start | Handle (i : nat) | KilledIn (i k : nat).

Definition handled (cp : Checkpointer nat) (n : NodeState max_state) (d : delivery) (t : nat) :=
  match d with
  | OnData raw => match on_data_msg max_app (Some cp) n raw t with Ok (Some cp', n', effs) => Some (n', cp', effs) | _ => None end
  | OnRing raw => match on_ring_msg max_app (Some cp) n raw t with Ok (RingAcked (Some cp') n' effs) => Some (n', cp', effs) | _ => None end
  end.

Definition ns_exec (s : NodeSys (F := max_state)) (a : schedule) : option (NodeSys (F := max_state)) :=
  match a, ns_up s with
  | Start, None =>
      match start_ max_app (Some (cp_new 2)) max_node (o_disk (ns_out s)) with
      | Ok (Some cp, n, effs) => Some (mkNS (Some (n, cp)) (foldl do_effect (ns_out s) effs))
      | _ => None
      end
  | (Handle i | KilledIn i _), Some (n, cp) =>
      '(t, d) ← o_queue (ns_out s) !! i;
      '(n', cp', effs) ← (if bool_decide (t ∈ cp_pending cp) then None else handled cp n d t);
      Some (match a with
            | KilledIn _ k => mkNS None (foldl do_effect (ns_out s) (take k effs))
            | _ => mkNS (Some (n', cp')) (foldl do_effect (ns_out s) effs)
            end)
  | _, _ => None
  end.

Lemma handled_handles cp n d t n' cp' effs : handled cp n d t = Some (n', cp', effs) → handles max_app cp n d t cp' n' effs.
Proof.
  unfold handled, handles. destruct d as [raw|raw].
  - destruct (on_data_msg _ _ _ _ _) as [[[[cp1|] n1] e1]|]; by intros [= -> -> ->].
  - destruct (on_ring_msg _ _ _ _ _) as [[[cp1|] n1 e1|]|]; by intros [= -> -> ->].
Qed.

Lemma ns_exec_step (s : NodeSys (F := max_state)) a s' : ns_exec s a = Some s' → ns_step max_app max_node 2 s s'.
Proof.
  destruct s as [[[n cp]|] o]; destruct a as [|i|i k]; cbn [ns_exec ns_up ns_out]; intros H; try discriminate H.
  1,2: apply bind_Some in H as ([t d] & Hi%list_elem_of_lookup_2 & H); apply bind_Some in H as ([[n' cp'] effs] & H1 & [= <-]);
    case_bool_decide; [discriminate|]; apply handled_handles in H1.
  - by apply (StepHandle _ _ _ n cp o t d).
  - apply (StepCrash _ _ _ n cp o t d cp' n' (take k effs) (drop k effs)); [done|]. by rewrite take_drop.
  - destruct (start_ _ _ _ _) as [[[[cp|] n] effs]|] eqn:E; try discriminate H. injection H as <-. by apply StepStart.
Qed.

Lemma ns_execs_steps l : ∀ (s s' : NodeSys (F := max_state)), foldl (λ r a, s ← r; ns_exec s a) (Some s) l = Some s' → rtc (ns_step max_app max_node 2) s s'.
Proof.
  induction l as [|a l IH]; intros s s' H; [injection H as ->; apply rtc_refl|]. cbn [foldl] in H.
  destruct (ns_exec s a) as [s1|] eqn:E; cbn [mbind option_bind] in H.
  - rewrite E in H. eapply rtc_l; [by apply (ns_exec_step s a)|]. by apply IH.
  - assert (foldl (λ (r : option (NodeSys (F := max_state))) a, s ← r; ns_exec s a) None l = None) by (clear; by induction l). congruence.
Qed.

(** The first batch handled and held; the second one taken in too, which saves a
    checkpoint, and the process killed before it acknowledges either; started again, it
    sends back every copy of both, and takes in their end of file. *)
Definition max_schedule : list schedule := [Start; Handle 0; KilledIn 2 1; Start; Handle 0; Handle 0; Handle 0; Handle 0].
Definition max_final : option (NodeSys (F := max_state)) := foldl (λ r a, s ← r; ns_exec s a) (Some (mkNS None max_out)) max_schedule.

Definition max_final_ok : bool :=
  match max_final with Some (mkNS (Some _) o) => bool_decide (length (o_queue o) = 0%nat) && bool_decide (length (o_sent o) = 4%nat) | _ => false end.

Lemma max_run : ∃ n cp o, rtc (ns_step max_app max_node 2) ns_init (mkNS (Some (n, cp)) o) ∧ o_queue o = [] ∧ length (o_sent o) = 4%nat.
Proof.
  assert (H : max_final_ok = true) by (vm_compute; reflexivity). unfold max_final_ok in H.
  destruct max_final as [[[[n cp]|] o]|] eqn:E; try discriminate H. apply andb_true_iff in H as [H1%bool_decide_eq_true H2%bool_decide_eq_true].
  exists n, cp, o. split_and!; [|by apply nil_length_inv|done]. etransitivity; [exact max_sends|]. by apply (ns_execs_steps max_schedule).
Qed.

Lemma exactly_once_witness :
  ∃ n cp o log, rtc (ns_step max_app max_node 2) ns_init (mkNS (Some (n, cp)) o) ∧ length (o_sent o) = 4%nat ∧
    run_log max_app max_node log = Ok n ∧ NoDup (msg_id <$> datas log) ∧ justified (o_sent o) log ∧
    ∀ d, d ∈ o_sent o → settles log d ∨ dropped (o_sent o) d.
Proof.
  destruct max_run as (n & cp & o & Hr & Hq & Hl).
  destruct (exactly_once max_app max_node n 2 cp o max_node_fresh _ Hr Hq) as (log & H).
  exists n, cp, o, log. split; [exact Hr|]. split; [exact Hl|exact H].
Defined.

(** The node just killed between its checkpoint and the acknowledgements. *)
Definition max_half : option (NodeSys (F := max_state)) := foldl (λ r a, s ← r; ns_exec s a) (Some (mkNS None max_out)) (take 3 max_schedule).
Definition max_half_ok : bool :=
  match max_half with Some (mkNS None o) => bool_decide (is_Some (o_disk o)) && bool_decide (length (o_queue o) = 4%nat) | _ => false end.

Lemma max_killed : ∃ o, rtc (ns_step max_app max_node 2) ns_init (mkNS None o) ∧ is_Some (o_disk o) ∧ length (o_queue o) = 4%nat.
Proof.
  assert (H : max_half_ok = true) by (vm_compute; reflexivity). unfold max_half_ok in H.
  destruct max_half as [[[?|] o]|] eqn:E; try discriminate H. apply andb_true_iff in H as [H1%bool_decide_eq_true H2%bool_decide_eq_true].
  exists o. split_and!; [|done..]. etransitivity; [exact max_sends|]. by apply (ns_execs_steps (take 3 max_schedule)).
Qed.

Lemma acked_effects_survive_witness :
  ∃ s, rtc (ns_step max_app max_node 2) ns_init s ∧ ns_up s = None ∧ is_Some (o_disk (ns_out s)) ∧
  ∃ b cp n log, cp_restore (cp_new (Tag:=nat) 2) (world_of max_node) (o_disk (ns_out s)) = Ok (b, (cp, world_of n)) ∧
    run_log max_app max_node log = Ok n ∧ NoDup (msg_id <$> datas log) ∧ justified (o_sent (ns_out s)) log ∧
    ∀ d, d ∈ o_sent (ns_out s) → (∀ t, (t, d) ∉ o_queue (ns_out s)) → settles log d ∨ dropped (o_sent (ns_out s)) d.
Proof.
  destruct max_killed as (o & Hr & Hd & _). exists (mkNS None o). split; [exact Hr|]. split; [reflexivity|]. split; [exact Hd|].
  exact (acked_effects_survive max_app max_node 2 _ max_node_fresh _ Hr).
Defined.
