(* ===== verification/UC4.v ===== *)
(** * Aggregates of UC4: [aggregate/aggregate_fns/uc4_*.py]

    The four functions over the transfer graph. Each keeps a client's partial
    results in memory, spills them as JSON lines into shard files when there are
    too many or at a checkpoint, and sums the lines of every shard at the end.
    The spilling threshold is an argument; the constants of the source follow. *)

From S2P Require Import Prelude.
From S2P Require Import PyDict.
From S2P Require Import PyValues.
From S2P Require Import PyText.
From S2P Require Import PyTime.
From S2P Require Import PyFloat.
From S2P Require Import Wire.
From S2P Require Import PyRepr.
From S2P Require Import Messages.
From S2P Require Import Stamping.
From S2P Require Import Checkpoint.
From S2P Require Import RingNode.
From S2P Require Import Filters.
From S2P Require Import GroupBy.
From S2P Require Import Spill.
From S2P Require Import SpillLog.

Definition SHARDING_FILES : Z := 500.

(** [d[shard].append(item)] over a [defaultdict(list)] *)
Definition append_entry {K V} (g : pydict K V) (k : K) (v : V) : pydict K V := g ++ [(k, v)].

(** A line read back: [json.loads], with the fields of the list. *)
Definition json_fields (line : chars) : res (list pyval) := v ← json_loads line; py_iter v.

(** Appending entries one by one extends the log of the client. *)
Lemma client_log_all {A} (text : A → chars) tag (f : PersistentSpill → A → res PersistentSpill) (c : uuid) (l : list A) :
  (∀ s x, x ∈ l → f s x = Ok (ps_append tag s c (terminated (text x))) ∧ clean (text x)) →
  ∀ s W, client_log text tag s W →
  ∃ s', foldR f s l = Ok s' ∧ client_log text tag s' (W ++ ((λ x, (c, x)) <$> l)).
Proof.
  induction l as [|x l IH]; intros Hf s W Hl; [exists s; by rewrite app_nil_r|].
  destruct (Hf s x (list_elem_of_here _ _)) as [E Hc]. cbn [foldR]. rewrite E. cbn [mbind res_bind].
  destruct (IH (λ s y Hy, Hf s y (list_elem_of_further _ _ _ Hy)) _ _ (client_log_append text tag c s W x Hc Hl))
    as (s' & E' & Hl').
  exists s'. split; [exact E'|]. by rewrite <- app_assoc in Hl'.
Qed.

Section uc4.
Context `{PyHash} (tag : string).

(** ** Counting paths: [UC4CountPaths], [UC4AggregatePaths] *)

Record PathState := mkPS {
  _paths : pydict uuid (pydict Path Z);
  paths_spill : MultiShardSpill
}.

Definition paths_init : PathState := mkPS [] (spill_init []).

Definition path_sharding_hash (p : Path) (c : uuid) : Z :=
  hash_str (uuid_str c +:+ "_" +:+ path_str p) mod SHARDING_FILES.

(** [_serialize(PathMsg(client_id, p, count))], and back. *)
Definition path_line (c : uuid) (p : Path) (n : Z) : res chars := json_dumps (PList (PathMsg_fields c p n)).
Definition path_of_line (line : chars) : res (Path * Z) :=
  fs ← json_fields line;
  b ← PathMsg_from_fields fs;
  match b with PathMsg _ p n => Ok (p, n) | _ => Exc AttributeError end.

Definition append_path_line (c : uuid) (shard : Z) (s : MultiShardSpill) (e : Path * Z) : res MultiShardSpill :=
  t ← path_line c e.1 e.2; Ok (ms_append tag s c shard (t ++ [c_newline])).

Definition append_path_group (c : uuid) (s : MultiShardSpill) (g : Z * pydict Path Z) : res MultiShardSpill :=
  foldR (append_path_line c g.1) s g.2.

(** [_spill_to_disk] *)
Definition spill_paths (st : PathState) (c : uuid) : res PathState :=
  paths ← dindex (_paths st) c;
  let by_shard := by_affinity (λ p, path_sharding_hash p c) append_entry paths in
  spill ← foldR (append_path_group c) (paths_spill st) by_shard;
  Ok (mkPS (ddel (_paths st) c) spill).

Definition spill_paths_if_large (threshold : Z) (st : PathState) (c : uuid) : res PathState :=
  if threshold <=? Z.of_nat (length (dget_or [] (_paths st) c)) then spill_paths st c else Ok st.

Definition set_paths (st : PathState) (c : uuid) (paths : pydict Path Z) : PathState :=
  mkPS (dset (_paths st) c paths) (paths_spill st).

(** *** [UC4CountPaths]: one more path for every pair around a node *)

Definition count_pair (a : Node) (paths : pydict Path Z) (s : Node) : pydict Path Z :=
  if decide (pyeq a s) then paths else dadd paths (mkPath a s) 1.

(** The pairs of one predecessor, and a spill when there are too many: what was
    spilled starts again from nothing. *)
Definition count_predecessor (threshold : Z) (c : uuid) (succs : list Node) (st : PathState) (a : Node)
    : res PathState :=
  let paths := foldl (count_pair a) (dget_or [] (_paths st) c) succs in
  let st := set_paths st c paths in
  if threshold <=? Z.of_nat (length paths)
  then st ← spill_paths st c; Ok (set_paths st c [])
  else Ok st.

Definition count_node (threshold : Z) (c : uuid) (st : PathState) (ps : pyset Node * pyset Node)
    : res PathState := foldR (count_predecessor threshold c ps.2) st ps.1.

Definition UC4CountPaths_aggregate (threshold : Z) (st : PathState) (msg : Body) : res PathState :=
  match msg with
  | Graph c nodes =>
      let st := mkPS (dsetdefault (_paths st) c []) (paths_spill st) in
      st ← foldR (count_node threshold c) st nodes.*2;
      spill_paths_if_large threshold st c
  | _ => Exc AttributeError
  end.

(** The lines of a shard summed. *)
Definition add_path_line (paths : pydict Path Z) (line : chars) : res (pydict Path Z) :=
  '(p, n) ← path_of_line line; Ok (dadd paths p n).

Definition AFFINITY_SHARDS_PATHS : Z := 10.

(** [affinities[hash(path) % AFFINITY_SHARDS].add(path, count)] *)
Definition path_groups (paths : pydict Path Z) : pydict Z (pydict Path Z) :=
  by_affinity (λ p, hash_path p mod AFFINITY_SHARDS_PATHS) path_counts_add paths.

Fixpoint count_paths_results (c : uuid) (s : MultiShardSpill) (shards : list Z)
    : res (MultiShardSpill * list (Body * Z)) :=
  match shards with
  | [] => Ok (s, [])
  | shard :: shards =>
      let '(s, lines) := ms_read_shard tag s c shard in
      paths ← foldR add_path_line [] lines;
      '(s, out) ← count_paths_results c s shards;
      Ok (s, yield_groups (PathCounts c) (path_groups paths) ++ out)
  end.

(** The client's memory spilled, if it has any. *)
Definition spill_known_paths (st : PathState) (c : uuid) : res PathState :=
  if dmem (_paths st) c then spill_paths st c else Ok st.

Definition UC4CountPaths_get_result (st : PathState) (c : uuid) : res (PathState * list (Body * Z)) :=
  st ← spill_known_paths st c;
  '(s, out) ← count_paths_results c (paths_spill st) (ms_shards_of tag (paths_spill st) c);
  Ok (mkPS (ddel (_paths st) c) s, out).

Definition paths_discard (st : PathState) (c : uuid) : PathState :=
  mkPS (ddel (_paths st) c) (ms_clear tag (paths_spill st) c).

(** Everything in memory goes to disk; the checkpoint records the lengths. *)
Definition paths_snapshot_state (st : PathState) : res (PathState * pydict string Z) :=
  st ← foldR spill_paths st (dkeys (_paths st));
  let '(s, r) := ms_snapshot_state tag (paths_spill st) in
  sn ← r; Ok (mkPS (_paths st) s, sn).

Definition paths_restore_state (st : PathState) (sn : pydict string Z) : res PathState :=
  s ← ms_restore_state tag (paths_spill st) sn; Ok (mkPS [] s).

Definition paths_clear_stale_spill (st : PathState) : PathState :=
  mkPS (_paths st) (ms_clear_all tag (paths_spill st)).

Definition COUNT_PATHS_THRESHOLD : Z := 500000.

Definition UC4CountPaths : AggregateFn PathState := {|
  aggregate := UC4CountPaths_aggregate COUNT_PATHS_THRESHOLD;
  get_result := UC4CountPaths_get_result;
  discard := paths_discard
|}.

(** *** [UC4AggregatePaths]: the counts added up, the frequent paths kept *)

Definition UC4AggregatePaths_aggregate (threshold : Z) (st : PathState) (msg : Body) : res PathState :=
  match msg with
  | PathCounts c counts =>
      let st := mkPS (dsetdefault (_paths st) c []) (paths_spill st) in
      let paths := foldl (λ d e, dadd d e.1 e.2) (dget_or [] (_paths st) c) counts in
      spill_paths_if_large threshold (set_paths st c paths) c
  | _ => Exc AttributeError
  end.

Fixpoint frequent_paths_results (c : uuid) (s : MultiShardSpill) (shards : list Z)
    : res (MultiShardSpill * list (Body * Z)) :=
  match shards with
  | [] => Ok (s, [])
  | shard :: shards =>
      let '(s, lines) := ms_read_shard tag s c shard in
      paths ← foldR add_path_line [] lines;
      let qualifying := dfilter (λ e, MIN_PATH_COUNT <=? e.2) paths in
      '(s, out) ← frequent_paths_results c s shards;
      Ok (s, (PathCounts c qualifying, 0) :: out)
  end.

Definition UC4AggregatePaths_get_result (st : PathState) (c : uuid) : res (PathState * list (Body * Z)) :=
  st ← spill_known_paths st c;
  '(s, out) ← frequent_paths_results c (paths_spill st) (ms_shards_of tag (paths_spill st) c);
  Ok (mkPS (ddel (_paths st) c) s, out).

Definition AGGREGATE_THRESHOLD : Z := 100000.

Definition UC4AggregatePaths : AggregateFn PathState := {|
  aggregate := UC4AggregatePaths_aggregate AGGREGATE_THRESHOLD;
  get_result := UC4AggregatePaths_get_result;
  discard := paths_discard
|}.

(** ** The full graph: [UC4AggregateGraphs] *)

Record GraphState := mkGS {
  _preds : pydict uuid (pydict Node (pyset Node));
  _succs : pydict uuid (pydict Node (pyset Node));
  graph_spill : MultiShardSpill
}.

Definition sharding_hash (n : Node) : Z := hash_str (node_str n) mod SHARDING_FILES.

Definition graph_line (n : Node) (preds succs : pyset Node) : res chars :=
  json_dumps (PList [PStr (node_str n); PList ((λ m, PStr (node_str m)) <$> preds);
                     PList ((λ m, PStr (node_str m)) <$> succs)]).

(** [{Node.from_str(n) for n in raw[i]}] *)
Definition node_set_field (fs : list pyval) (i : nat) : res (pyset Node) :=
  v ← py_nth fs i; l ← py_iter v;
  ns ← mapR (λ v, s ← as_str v; node_from_str s) l; Ok (set_of ns).

Definition graph_of_line (line : chars) : res (Node * (pyset Node * pyset Node)) :=
  fs ← json_fields line;
  v ← py_nth fs 0; s ← as_str v; n ← node_from_str s;
  preds ← node_set_field fs 1; succs ← node_set_field fs 2;
  Ok (n, (preds, succs)).

(** [d.setdefault(node, set()).update(l)] *)
Definition update_neighbours (d : pydict Node (pyset Node)) (n : Node) (l : pyset Node)
    : pydict Node (pyset Node) := dset d n (supdate (dget_or [] d n) l).

Definition append_graph_line (c : uuid) (succs : pydict Node (pyset Node)) (shard : Z)
    (s : MultiShardSpill) (e : Node * pyset Node) : res MultiShardSpill :=
  next ← dindex succs e.1;
  t ← graph_line e.1 e.2 next; Ok (ms_append tag s c shard (t ++ [c_newline])).

Definition append_graph_group (c : uuid) (succs : pydict Node (pyset Node))
    (s : MultiShardSpill) (g : Z * pydict Node (pyset Node)) : res MultiShardSpill :=
  foldR (append_graph_line c succs g.1) s g.2.

Definition spill_graph (st : GraphState) (c : uuid) : res GraphState :=
  preds ← dindex (_preds st) c;
  succs ← dindex (_succs st) c;
  let by_shard := by_affinity sharding_hash append_entry preds in
  spill ← foldR (append_graph_group c succs) (graph_spill st) by_shard;
  Ok (mkGS (ddel (_preds st) c) (ddel (_succs st) c) spill).

Definition UC4AggregateGraphs_aggregate (threshold : Z) (st : GraphState) (msg : Body) : res GraphState :=
  match msg with
  | Graph c nodes =>
      let '(preds, succs) :=
        if dmem (_preds st) c then (_preds st, _succs st)
        else (dset (_preds st) c [], dset (_succs st) c []) in
      let p := foldl (λ d e, update_neighbours d e.1 e.2.1) (dget_or [] preds c) nodes in
      let q := foldl (λ d e, update_neighbours d e.1 e.2.2) (dget_or [] succs c) nodes in
      let st := mkGS (dset preds c p) (dset succs c q) (graph_spill st) in
      if threshold <=? Z.of_nat (length p) then spill_graph st c else Ok st
  | _ => Exc AttributeError
  end.

Definition AFFINITY_SHARDS_GRAPH : Z := 100.

Definition add_graph_line (d : pydict Node (pyset Node) * pydict Node (pyset Node)) (line : chars)
    : res (pydict Node (pyset Node) * pydict Node (pyset Node)) :=
  '(n, (p, q)) ← graph_of_line line; Ok (update_neighbours d.1 n p, update_neighbours d.2 n q).

(** [affinities[..].nodes[node] = (preds[node], succs[node])] over the nodes *)
Definition graph_groups (preds succs : pydict Node (pyset Node)) : pydict Z graph_nodes :=
  foldl (λ groups e,
    let a := hash_node e.1 mod AFFINITY_SHARDS_GRAPH in
    dset groups a (dset (dget_or [] groups a) e.1 (e.2, dget_or [] succs e.1))) [] preds.

Fixpoint graph_results (c : uuid) (s : MultiShardSpill) (shards : list Z)
    : res (MultiShardSpill * list (Body * Z)) :=
  match shards with
  | [] => Ok (s, [])
  | shard :: shards =>
      let '(s, lines) := ms_read_shard tag s c shard in
      '(preds, succs) ← foldR add_graph_line ([], []) lines;
      '(s, out) ← graph_results c s shards;
      Ok (s, yield_groups (Graph c) (graph_groups preds succs) ++ out)
  end.

Definition UC4AggregateGraphs_get_result (st : GraphState) (c : uuid) : res (GraphState * list (Body * Z)) :=
  st ← (if dmem (_succs st) c then spill_graph st c else Ok st);
  '(s, out) ← graph_results c (graph_spill st) (ms_shards_of tag (graph_spill st) c);
  Ok (mkGS (ddel (_preds st) c) (ddel (_succs st) c) s, out).

Definition graphs_discard (st : GraphState) (c : uuid) : GraphState :=
  mkGS (ddel (_preds st) c) (ddel (_succs st) c) (ms_clear tag (graph_spill st) c).

Definition graphs_snapshot_state (st : GraphState) : res (GraphState * pydict string Z) :=
  st ← foldR spill_graph st (dkeys (_preds st));
  let '(s, r) := ms_snapshot_state tag (graph_spill st) in
  sn ← r; Ok (mkGS (_preds st) (_succs st) s, sn).

Definition graphs_restore_state (st : GraphState) (sn : pydict string Z) : res GraphState :=
  s ← ms_restore_state tag (graph_spill st) sn; Ok (mkGS [] [] s).

Definition UC4AggregateGraphs : AggregateFn GraphState := {|
  aggregate := UC4AggregateGraphs_aggregate AGGREGATE_THRESHOLD;
  get_result := UC4AggregateGraphs_get_result;
  discard := graphs_discard
|}.

(** ** Degrees up to five: [UC4Degree] *)

Record DegreeState := mkDS {
  _out : pydict uuid (pydict string (pyset string));
  _in : pydict uuid (pydict string (pyset string));
  degree_spill : MultiShardSpill
}.

Definition MIN_DEGREE : Z := 5.

Definition degree_sharding_hash (node : string) : Z := hash_str node mod SHARDING_FILES.

Definition degree_line (node : string) (out in_ : pyset string) : res chars :=
  json_dumps (PList [PStr node; PList (PStr <$> out); PList (PStr <$> in_)]).

Definition string_set_field (fs : list pyval) (i : nat) : res (pyset string) :=
  v ← py_nth fs i; l ← py_iter v; ns ← mapR as_str l; Ok (set_of ns).

Definition degree_of_line (line : chars) : res (string * (pyset string * pyset string)) :=
  fs ← json_fields line;
  v ← py_nth fs 0; node ← as_str v;
  out ← string_set_field fs 1; in_ ← string_set_field fs 2;
  Ok (node, (out, in_)).

(** The neighbours are added while the bucket is below the cap. *)
Fixpoint capped_add (bucket : pyset string) (neighbors : list string) : pyset string :=
  match neighbors with
  | [] => bucket
  | n :: neighbors =>
      if MIN_DEGREE <=? Z.of_nat (length bucket) then bucket else capped_add (sadd bucket n) neighbors
  end.

Definition capped_update (store : pydict string (pyset string)) (node : string) (neighbors : list string)
    : pydict string (pyset string) :=
  dset store node (capped_add (dget_or [] store node) neighbors).

Definition degree_step (d : pydict string (pyset string) * pydict string (pyset string))
    (e : Node * (pyset Node * pyset Node)) : pydict string (pyset string) * pydict string (pyset string) :=
  let node := node_str e.1 in
  (capped_update d.1 node (set_of (node_str <$> e.2.2)), capped_update d.2 node (set_of (node_str <$> e.2.1))).

Definition append_degree_line (c : uuid) (out in_ : pydict string (pyset string)) (s : MultiShardSpill)
    (node : string) : res MultiShardSpill :=
  t ← degree_line node (dget_or [] out node) (dget_or [] in_ node);
  Ok (ms_append tag s c (degree_sharding_hash node) (t ++ [c_newline])).

Definition spill_degrees (st : DegreeState) (c : uuid) : res DegreeState :=
  let out := dget_or [] (_out st) c in
  let in_ := dget_or [] (_in st) c in
  spill ← foldR (append_degree_line c out in_) (degree_spill st) (supdate (set_of (dkeys out)) (dkeys in_));
  Ok (mkDS (ddel (_out st) c) (ddel (_in st) c) spill).

Definition UC4Degree_aggregate (threshold : Z) (st : DegreeState) (msg : Body) : res DegreeState :=
  match msg with
  | Graph c nodes =>
      let '(out, in_) :=
        if dmem (_out st) c then (_out st, _in st) else (dset (_out st) c [], dset (_in st) c []) in
      let d := foldl degree_step (dget_or [] out c, dget_or [] in_ c) nodes in
      let st := mkDS (dset out c d.1) (dset in_ c d.2) (degree_spill st) in
      if threshold <=? Z.of_nat (length d.1) then spill_degrees st c else Ok st
  | _ => Exc AttributeError
  end.

Definition add_degree_line (d : pydict string (pyset string) * pydict string (pyset string)) (line : chars)
    : res (pydict string (pyset string) * pydict string (pyset string)) :=
  '(node, (o, i)) ← degree_of_line line; Ok (capped_update d.1 node o, capped_update d.2 node i).

Fixpoint degree_lines (c : uuid) (s : MultiShardSpill)
    (d : pydict string (pyset string) * pydict string (pyset string)) (shards : list Z)
    : res (MultiShardSpill * (pydict string (pyset string) * pydict string (pyset string))) :=
  match shards with
  | [] => Ok (s, d)
  | shard :: shards =>
      let '(s, lines) := ms_read_shard tag s c shard in
      d ← foldR add_degree_line d lines;
      degree_lines c s d shards
  end.

(** [{Node.from_str(n) for n, s in d.items() if len(s) >= MIN_DEGREE}] *)
Definition high_degree (d : pydict string (pyset string)) : res (pyset Node) :=
  ns ← mapR node_from_str (dkeys (dfilter (λ e, MIN_DEGREE <=? Z.of_nat (length e.2)) d)); Ok (set_of ns).

Definition UC4Degree_get_result (st : DegreeState) (c : uuid) : res (DegreeState * list (Body * Z)) :=
  st ← (if dmem (_out st) c then spill_degrees st c else Ok st);
  '(s, d) ← degree_lines c (degree_spill st) ([], []) (ms_shards_of tag (degree_spill st) c);
  hi_out ← high_degree d.1; hi_in ← high_degree d.2;
  Ok (mkDS (_out st) (_in st) s, [(HighDegree c hi_out hi_in, 0)]).

Definition degree_discard (st : DegreeState) (c : uuid) : DegreeState :=
  mkDS (ddel (_out st) c) (ddel (_in st) c) (ms_clear tag (degree_spill st) c).

Definition degree_snapshot_state (st : DegreeState) : res (DegreeState * pydict string Z) :=
  st ← foldR spill_degrees st (dkeys (_out st));
  let '(s, r) := ms_snapshot_state tag (degree_spill st) in
  sn ← r; Ok (mkDS (_out st) (_in st) s, sn).

Definition degree_restore_state (st : DegreeState) (sn : pydict string Z) : res DegreeState :=
  s ← ms_restore_state tag (degree_spill st) sn; Ok (mkDS [] [] s).

Definition UC4Degree : AggregateFn DegreeState := {|
  aggregate := UC4Degree_aggregate AGGREGATE_THRESHOLD;
  get_result := UC4Degree_get_result;
  discard := degree_discard
|}.
End uc4.
