(* ===== verification/UC4Paths.v ===== *)
(** * Path counts do not depend on spilling

    The spilled lines of [UC4CountPaths] and [UC4AggregatePaths] stand for a list
    of partial counts; the sum of what is in memory and what is on disk changes
    only by the messages received, so the results are the counts of all of them. *)

From S2P Require Import Prelude.
From S2P Require Import PyDict.
From S2P Require Import PyValues.
From S2P Require Import PyText.
From S2P Require Import PyTime.
From S2P Require Import PyFloat.
From S2P Require Import Wire.
From S2P Require Import PyRepr.
From S2P Require Import Messages.
From S2P Require Import Filters.
From S2P Require Import GroupBy.
From S2P Require Import Spill.
From S2P Require Import SpillLog.
From S2P Require Import UC4.

(** ** Sums over the values of a dictionary *)

Section sums.
Context {K V : Type} `{!PyKey K} (f : V → Z) (dflt : V) (dflt_zero : f dflt = 0).
Implicit Types (d : pydict K V).

Definition vsum d : Z := zsum (f <$> dvalues d).

Lemma vsum_dset d k v : vsum (dset d k v) = vsum d + f v - f (dget_or dflt d k).
Proof.
  unfold vsum, dvalues, dget_or. induction d as [|[k0 v0] d IH]; csimpl.
  - unfold zsum. cbn. lia.
  - destruct (decide (pyeq k0 k)); csimpl; unfold zsum in *; cbn in *; lia.
Qed.
End sums.

(** Splitting by affinity keeps every additive measure. *)
Lemma by_affinity_sum {K V} (aff : K → Z) (add : pydict K V → K → V → pydict K V)
    (μ : pydict K V → Z) (μ1 : K * V → Z) (d : pydict K V) :
  μ [] = 0 → (∀ g k v, μ (add g k v) = μ g + μ1 (k, v)) →
  vsum μ (by_affinity aff add d) = zsum (μ1 <$> d).
Proof.
  intros H0 Hadd. induction d as [|[k v] d IH] using rev_ind; [done|].
  unfold by_affinity. rewrite foldl_app. cbn [foldl fst snd]. fold (by_affinity aff add d).
  rewrite (vsum_dset μ [] H0), Hadd, IH, fmap_app, zsum_app. unfold zsum at 3. cbn. lia.
Qed.

Lemma total_at_dadd (d : pydict Path Z) q n p : dict_wf d →
  total_at (dadd d q n) p = total_at d p + (if decide (pyeq q p) then n else 0).
Proof.
  intros Hd. rewrite !total_at_dict by (done || by apply dadd_wf). apply dget_or_dadd.
Qed.

Lemma total_at_concat (ls : list (list (Path * Z))) p :
  total_at (List.concat ls) p = zsum ((λ l, total_at l p) <$> ls).
Proof.
  induction ls as [|l ls IH]; [done|]. change (List.concat (l :: ls)) with (l ++ List.concat ls).
  by rewrite total_at_app, IH.
Qed.

(** ** A line of the spill *)

Definition path_text (c : uuid) (e : Path * Z) : chars :=
  match path_line c e.1 e.2 with Ok t => t | Exc _ => [] end.

Lemma path_line_ok c p n : path_line c p n = Ok (path_text c (p, n)).
Proof.
  unfold path_text, path_line. cbn [fst snd]. rewrite json_dumps_list.
  destruct p as [[ob oa] [db da]]. done.
Qed.

Lemma path_fields_ok c p n : json_ok (PList (PathMsg_fields c p n)) = true.
Proof. by destruct p as [[ob oa] [db da]]. Qed.

Lemma path_text_clean c e : clean (path_text c e).
Proof.
  destruct e as [p n]. eapply json_dumps_clean; [apply (path_fields_ok c p n)|]. apply path_line_ok.
Qed.

Lemma path_of_line_text c e : path_of_line (terminated (path_text c e)) = Ok e.
Proof.
  destruct e as [p n]. unfold path_of_line, json_fields, terminated.
  rewrite (json_loads_line _ _ (path_fields_ok c p n) (path_line_ok c p n)).
  destruct p as [[ob oa] [db da]]. cbn. by rewrite uuid_of_str_str.
Qed.

Lemma add_path_line_text c d e : add_path_line d (terminated (path_text c e)) = Ok (dadd d e.1 e.2).
Proof. unfold add_path_line. rewrite path_of_line_text. by destruct e. Qed.

Lemma foldR_add_lines c paths (es : list (Path * Z)) :
  foldR add_path_line paths (terminated <$> (path_text c <$> es)) = Ok (dadd_all paths es).
Proof.
  revert paths. induction es as [|e es IH]; intros paths; [done|].
  rewrite !fmap_cons. cbn [foldR]. rewrite add_path_line_text. apply IH.
Qed.

(** ** The state as partial counts *)

Section paths.
(** [U] is a set of paths that contains all those received. *)
Context `{PyHash} (tag : string) (U : Path → Prop).
Implicit Types (st : PathState) (c : uuid) (p : Path).

(** The entries spilled, with their file. *)
Abbreviation spilled := (list ((uuid * Z) * (Path * Z))).
Definition enc (e : (uuid * Z) * (Path * Z)) : (uuid * Z) * chars := (e.1, path_text e.1.1 e.2).

(** A spilled path is among [U] and lies in the shard of its hash. *)
Definition placed (e : (uuid * Z) * (Path * Z)) : Prop :=
  e.1.2 = path_sharding_hash e.2.1 e.1.1 ∧ U e.2.1.

Definition of_client c (W : spilled) : list (Path * Z) := (filter (λ e, e.1.1 = c) W).*2.

Record holds st (W : spilled) : Prop := {
  h_log : logged (ms_path tag) (paths_spill st) (enc <$> W);
  h_placed : ∀ e, e ∈ W → placed e;
  h_known : ∀ c d p, dget (_paths st) c = Some d → p ∈ dkeys d → U p;
  h_paths : dict_wf (_paths st);
  h_client : ∀ c d, dget (_paths st) c = Some d → dict_wf d
}.

Definition total st (W : spilled) c p : Z :=
  dget_or 0 (dget_or [] (_paths st) c) p + total_at (of_client c W) p.

Lemma holds_init : holds paths_init [].
Proof.
  split; [apply logged_init; apply ms_path_inj|by intros e ?%not_elem_of_nil|done|apply nil_wf|done].
Qed.

Lemma client_paths_wf st W c : holds st W → dict_wf (dget_or [] (_paths st) c).
Proof.
  intros Hh. unfold dget_or. destruct (dget (_paths st) c) eqn:E; [by eapply h_client|apply nil_wf].
Qed.

Lemma of_client_app c W1 W2 : of_client c (W1 ++ W2) = of_client c W1 ++ of_client c W2.
Proof. unfold of_client. by rewrite filter_app, fmap_app. Qed.

Lemma of_client_group c0 c shard (g : list (Path * Z)) :
  of_client c ((λ e, ((c0, shard), e)) <$> g) = if decide (c0 = c) then g else [].
Proof.
  unfold of_client. induction g as [|e g IH]; csimpl; [by destruct (decide _)|].
  rewrite filter_cons. cbn. destruct (decide (c0 = c)); [|done]. csimpl. by rewrite IH.
Qed.

Lemma append_path_line_text s c shard e :
  append_path_line tag c shard s e = Ok (ms_append tag s c shard (terminated (path_text c e))).
Proof. unfold append_path_line. destruct e as [p n]. cbn [fst snd]. by rewrite path_line_ok. Qed.

(** A group appended to its file. *)
Lemma append_group_holds s W c shard (g : list (Path * Z)) :
  logged (ms_path tag) s (enc <$> W) →
  ∃ s', foldR (append_path_line tag c shard) s g = Ok s' ∧
    logged (ms_path tag) s' (enc <$> (W ++ ((λ e, ((c, shard), e)) <$> g))).
Proof.
  revert s W. induction g as [|e g IH]; intros s W Hl.
  - exists s. by rewrite app_nil_r.
  - cbn [foldR]. rewrite append_path_line_text. cbn [mbind res_bind].
    destruct (IH (ms_append tag s c shard (terminated (path_text c e))) (W ++ [((c, shard), e)]))
      as (s' & E & Hl').
    { rewrite fmap_app. apply (logged_append _ (ms_path_inj tag)); [done|apply path_text_clean]. }
    exists s'. split; [exact E|]. by rewrite <- app_assoc in Hl'.
Qed.

Lemma append_path_group_eq c s shard g :
  append_path_group tag c s (shard, g) = foldR (append_path_line tag c shard) s g.
Proof. reflexivity. Qed.

Lemma append_groups_holds s W c (groups : pydict Z (pydict Path Z)) :
  logged (ms_path tag) s (enc <$> W) →
  ∃ s' W', foldR (append_path_group tag c) s groups = Ok s' ∧
    logged (ms_path tag) s' (enc <$> (W ++ W')) ∧
    (∀ e, e ∈ W' → ∃ g, ((e.1.2, g) : Z * pydict Path Z) ∈ groups ∧ e.2 ∈ g ∧ e.1.1 = c) ∧
    ∀ c', of_client c' W' = if decide (c = c') then List.concat (dvalues groups) else [].
Proof.
  revert s W. induction groups as [|[shard g] groups IH]; intros s W Hl.
  - exists s, []. rewrite app_nil_r. split_and!; [done..|by intros e ?%not_elem_of_nil|].
    intros c'. by destruct (decide _).
  - cbn [foldR]. rewrite append_path_group_eq.
    destruct (append_group_holds s W c shard g Hl) as (s1 & E1 & Hl1). rewrite E1. cbn [mbind res_bind].
    destruct (IH _ _ Hl1) as (s' & W' & E & Hl' & Hin & Hc).
    exists s', (((λ e, ((c, shard), e)) <$> g) ++ W'). rewrite app_assoc. split_and!; [done..| |].
    + intros e [(e' & -> & He)%list_elem_of_fmap|He]%elem_of_app; cbn [fst snd].
      * exists g. split_and!; [left|done..].
      * destruct (Hin e He) as (g' & Hg & Hm). exists g'. split; [by right|done].
    + intros c'. rewrite of_client_app, of_client_group, Hc. by destruct (decide (c = c')).
Qed.

(** The groups hold the entries of the dictionary, each in the group of its key. *)
Lemma elem_dset_Z {V} (d : pydict Z V) k v k' v' :
  (k', v') ∈ dset d k v → (k', v') ∈ d ∨ (k' = k ∧ v' = v).
Proof.
  induction d as [|[k0 v0] d IH]; cbn.
  - intros [[= -> ->]| ?%not_elem_of_nil]%elem_of_cons; [by right|done].
  - destruct (decide (pyeq k0 k)) as [Hk|]; intros [[= -> ->]|Hin]%elem_of_cons.
    + by right.
    + left. by right.
    + left. by left.
    + destruct (IH Hin); [left; by right|by right].
Qed.

Lemma by_affinity_entries (aff : Path → Z) (paths : pydict Path Z) a g e :
  (a, g) ∈ by_affinity aff append_entry paths → e ∈ g → a = aff e.1 ∧ e ∈ paths.
Proof.
  revert a g e. induction paths as [|[p n] paths IH] using rev_ind; [by intros a g e ?%not_elem_of_nil|].
  intros a g e. unfold by_affinity. rewrite foldl_app. cbn [foldl fst snd].
  fold (by_affinity aff append_entry paths).
  intros [Hin|[-> ->]]%elem_dset_Z He.
  - destruct (IH _ _ _ Hin He). split; [done|]. apply elem_of_app. by left.
  - unfold append_entry in He. apply elem_of_app in He as [He|He].
    + unfold dget_or in He. destruct (dget _ _) as [g0|] eqn:E; cbn in He; [|by apply not_elem_of_nil in He].
      apply dget_Some_elem in E as (a' & Ha & Hin). unfold pyeq in Ha. cbn in Ha. unfold id in Ha. subst a'.
      destruct (IH _ _ _ Hin He). split; [done|]. apply elem_of_app. by left.
    + apply list_elem_of_singleton in He. subst e. split; [done|]. apply elem_of_app. right. by left.
Qed.

Lemma dget_or_ddel_client {V} (d : pydict uuid V) x c c' : dict_wf d →
  dget_or x (ddel d c) c' = if decide (c = c') then x else dget_or x d c'.
Proof.
  intros Hd. unfold dget_or. rewrite dget_ddel by done.
  by destruct (decide (pyeq c c')) as [E|E], (decide (c = c')) as [E'|E'].
Qed.

Lemma dget_or_dset_client {V} (d : pydict uuid V) x c v c' :
  dget_or x (dset d c v) c' = if decide (c = c') then v else dget_or x d c'.
Proof.
  unfold dget_or. rewrite dget_dset.
  by destruct (decide (pyeq c c')) as [E|E], (decide (c = c')) as [E'|E'].
Qed.

Lemma dget_or_nil (p : Path) : dget_or 0 [] p = 0.
Proof. done. Qed.

Lemma groups_total (aff : Path → Z) (paths : pydict Path Z) p : dict_wf paths →
  total_at (List.concat (dvalues (by_affinity aff append_entry paths))) p = dget_or 0 paths p.
Proof.
  intros Hd. rewrite total_at_concat. fold (vsum (λ g, total_at g p) (by_affinity aff append_entry paths)).
  rewrite (by_affinity_sum aff append_entry _ (λ e, if decide (pyeq e.1 p) then e.2 else 0)); [|done|].
  - by rewrite <- total_at_dict.
  - intros g k v. unfold append_entry. rewrite total_at_app, total_at_cons, total_at_nil. cbn. lia.
Qed.

(** Spilling moves a client's counts to disk; no total changes. *)
Lemma spill_paths_holds st W c paths :
  holds st W → dget (_paths st) c = Some paths →
  ∃ st' W', spill_paths tag st c = Ok st' ∧ holds st' W' ∧
    _paths st' = ddel (_paths st) c ∧ ∀ c' p, total st' W' c' p = total st W c' p.
Proof.
  intros Hh Hc. unfold spill_paths, dindex. rewrite Hc. cbn [of_opt mbind res_bind].
  destruct (append_groups_holds (paths_spill st) W c
    (by_affinity (λ p, path_sharding_hash p c) append_entry paths)) as (s' & W' & E & Hl & Hin & Hw);
    [apply Hh|]. rewrite E. cbn [mbind res_bind].
  exists (mkPS (ddel (_paths st) c) s'), (W ++ W'). split_and!; [done| |done|].
  - split; cbn; [done| | |apply ddel_wf, Hh|].
    + intros e [He|He]%elem_of_app; [by eapply h_placed|].
      destruct (Hin e He) as (g & Hg & Hm & Hce). destruct (by_affinity_entries _ _ _ _ _ Hg Hm) as [Ha Hp].
      split; [by rewrite Hce|]. eapply h_known; [done|done|]. apply list_elem_of_fmap. eauto.
    + intros c' d p Hd. rewrite dget_ddel in Hd by apply Hh.
      destruct (decide (pyeq c c')); [done|]. by eapply h_known.
    + intros c' d Hd. rewrite dget_ddel in Hd by apply Hh.
      destruct (decide (pyeq c c')); [done|]. by eapply h_client.
  - intros c' p. unfold total. cbn [_paths]. rewrite of_client_app, total_at_app, Hw, dget_or_ddel_client by apply Hh.
    destruct (decide (c = c')) as [<-|Hne]; [|rewrite total_at_nil; lia].
    assert (E1 : dget_or [] (_paths st) c = paths) by (unfold dget_or; by rewrite Hc).
    rewrite E1, groups_total by (by eapply h_client). rewrite dget_or_nil. lia.
Qed.
(** The client's memory replaced by other counts. *)
Lemma set_paths_holds st W c paths :
  holds st W → dict_wf paths → (∀ p, p ∈ dkeys paths → U p) →
  holds (set_paths st c paths) W ∧
  ∀ c' p, total (set_paths st c paths) W c' p =
    total st W c' p + (if decide (c = c')
      then dget_or 0 paths p - dget_or 0 (dget_or [] (_paths st) c) p else 0).
Proof.
  intros Hh Hwf HU. unfold set_paths. split.
  - split; cbn; [apply Hh|apply Hh| |apply dset_wf, Hh|].
    + intros c' d p. rewrite dget_dset. destruct (decide (pyeq c c')) as [Hc|]; [|by eapply h_known].
      intros [= <-]. apply HU.
    + intros c' d. rewrite dget_dset. destruct (decide (pyeq c c')) as [Hc|]; [|by eapply h_client].
      by intros [= <-].
  - intros c' p. unfold total. cbn [_paths].
    rewrite dget_or_dset_client. destruct (decide (c = c')) as [<-|]; lia.
Qed.

Lemma dget_set_paths st c paths : dget (_paths (set_paths st c paths)) c = Some paths.
Proof. apply dget_dset_eq. Qed.

Lemma spill_if_large_holds threshold st W c :
  0 < threshold → holds st W →
  ∃ st' W', spill_paths_if_large tag threshold st c = Ok st' ∧ holds st' W' ∧
    ∀ c' p, total st' W' c' p = total st W c' p.
Proof.
  intros Hth Hh. unfold spill_paths_if_large. destruct (_ <=? _) eqn:Hle; [|by exists st, W].
  destruct (dget (_paths st) c) as [paths|] eqn:Hc;
    [|unfold dget_or in Hle; rewrite Hc in Hle; apply Z.leb_le in Hle; cbn in Hle; lia].
  destruct (spill_paths_holds st W c paths Hh Hc) as (st' & W' & E & Hh' & _ & Ht). by exists st', W'.
Qed.

(** ** Counting *)

(** The paths around a node: every predecessor with every other successor. *)
Definition pairs_of (a : Node) (succs : list Node) : list (Path * Z) :=
  (λ s, (mkPath a s, 1)) <$> filter (λ s, ¬ pyeq a s) succs.
Definition node_pairs (ps : pyset Node * pyset Node) : list (Path * Z) :=
  List.concat ((λ a, pairs_of a ps.2) <$> ps.1).
Definition graph_pairs (nodes : graph_nodes) : list (Path * Z) :=
  List.concat (node_pairs <$> nodes.*2).

Lemma count_pairs_all a paths succs : foldl (count_pair a) paths succs = dadd_all paths (pairs_of a succs).
Proof.
  revert paths. induction succs as [|s succs IH]; intros paths; [done|]. cbn [foldl]. rewrite IH.
  unfold count_pair, pairs_of. destruct (decide (pyeq a s)) as [Hs|Hs].
  - rewrite filter_cons_False by tauto. done.
  - rewrite filter_cons_True by done. done.
Qed.

Lemma dset_keys {V} (d : pydict Path V) k v q : q ∈ dkeys (dset d k v) → q ∈ dkeys d ∨ q = k.
Proof.
  unfold dkeys. induction d as [|[k0 v0] d IH]; csimpl.
  - intros ->%list_elem_of_singleton. by right.
  - destruct (decide (pyeq k0 k)) as [Hk|]; csimpl; intros [->|Hin]%elem_of_cons.
    + left. by left.
    + left. by right.
    + left. by left.
    + destruct (IH Hin); [left; by right|by right].
Qed.

Lemma dadd_all_keys (d : pydict Path Z) l q :
  q ∈ dkeys (dadd_all d l) → q ∈ dkeys d ∨ q ∈ l.*1.
Proof.
  revert d. induction l as [|[p n] l IH]; intros d; [by left|].
  intros [Hq|Hq]%IH; [|right; by right].
  unfold dadd in Hq. cbn [fst snd] in Hq.
  destruct (dset_keys d p (dget_or 0 d p + n) q Hq) as [| ->]; [by left|right; by left].
Qed.

(** Counts added to the memory of a client. *)
Lemma add_counts_holds st W c l :
  holds st W → (∀ p, p ∈ l.*1 → U p) →
  let st' := set_paths st c (dadd_all (dget_or [] (_paths st) c) l) in
  holds st' W ∧
  ∀ c' p, total st' W c' p = total st W c' p + (if decide (c = c') then total_at l p else 0).
Proof.
  intros Hh HU. cbn zeta.
  destruct (set_paths_holds st W c (dadd_all (dget_or [] (_paths st) c) l) Hh) as [Hh' Ht].
  - apply dadd_all_wf. by eapply client_paths_wf.
  - intros p [Hp|Hp]%dadd_all_keys; [|by apply HU]. unfold dget_or in Hp.
    destruct (dget (_paths st) c) eqn:E; cbn in Hp; [by eapply h_known|by apply not_elem_of_nil in Hp].
  - split; [done|]. intros c' p. rewrite Ht. f_equal. destruct (decide (c = c')); [|done].
    rewrite dget_or_dadd_all. lia.
Qed.
Lemma count_predecessor_holds threshold st W c succs a :
  holds st W → (∀ p, p ∈ (pairs_of a succs).*1 → U p) →
  ∃ st' W', count_predecessor tag threshold c succs st a = Ok st' ∧ holds st' W' ∧
    ∀ c' p, total st' W' c' p =
      total st W c' p + (if decide (c = c') then total_at (pairs_of a succs) p else 0).
Proof.
  intros Hh HU. destruct (add_counts_holds st W c (pairs_of a succs) Hh HU) as [Hh1 Ht1].
  unfold count_predecessor. cbn zeta. rewrite count_pairs_all.
  destruct (_ <=? _); [|by eexists _, W].
  destruct (spill_paths_holds _ W c _ Hh1 (dget_set_paths _ _ _)) as (st2 & W2 & E & Hh2 & Hd & Ht2).
  rewrite E. cbn [mbind res_bind].
  destruct (set_paths_holds st2 W2 c [] Hh2) as [Hh3 Ht3]; [apply nil_wf|intros p Hp; by destruct (not_elem_of_nil p)|].
  exists (set_paths st2 c []), W2. split_and!; [done..|]. intros c' p.
  rewrite Ht3, Ht2, Ht1, Hd, dget_or_ddel_client by apply Hh1.
  destruct (decide (c = c')), (decide (c = c)); rewrite ?dget_or_nil; done || lia.
Qed.

(** Steps that each add a list of counts to the totals of a client add them all. *)
Lemma foldR_total {A} (f : PathState → A → res PathState) (g : A → list (Path * Z)) c (l : list A) :
  (∀ st W a, a ∈ l → holds st W → ∃ st' W', f st a = Ok st' ∧ holds st' W' ∧
    ∀ c' p, total st' W' c' p = total st W c' p + (if decide (c = c') then total_at (g a) p else 0)) →
  ∀ st W, holds st W → ∃ st' W', foldR f st l = Ok st' ∧ holds st' W' ∧
    ∀ c' p, total st' W' c' p =
      total st W c' p + (if decide (c = c') then total_at (List.concat (g <$> l)) p else 0).
Proof.
  induction l as [|a l IH]; intros Hf st W Hh.
  - exists st, W. split_and!; [done..|]. intros c' p. destruct (decide _); [|lia].
    change (List.concat (g <$> [])) with (@nil (Path * Z)). rewrite total_at_nil. lia.
  - destruct (Hf st W a) as (st1 & W1 & E1 & Hh1 & Ht1); [left|done|].
    cbn [foldR]. rewrite E1. cbn [mbind res_bind].
    destruct (IH (λ st W b Hb, Hf st W b (list_elem_of_further b a l Hb)) st1 W1 Hh1)
      as (st2 & W2 & E2 & Hh2 & Ht2).
    exists st2, W2. split_and!; [done..|]. intros c' p. rewrite Ht2, Ht1.
    change (List.concat (g <$> a :: l)) with (g a ++ List.concat (g <$> l)).
    rewrite total_at_app. destruct (decide _); lia.
Qed.

Lemma concat_keys {A} (f : A → list (Path * Z)) l a p :
  a ∈ l → p ∈ (f a).*1 → p ∈ (List.concat (f <$> l)).*1.
Proof.
  intros Ha (e & -> & He)%list_elem_of_fmap. apply list_elem_of_fmap. exists e. split; [done|].
  apply elem_concat. exists (f a). split; [|done]. apply list_elem_of_fmap. eauto.
Qed.

Lemma count_node_holds threshold st W c ps :
  holds st W → (∀ p, p ∈ (node_pairs ps).*1 → U p) →
  ∃ st' W', count_node tag threshold c st ps = Ok st' ∧ holds st' W' ∧
    ∀ c' p, total st' W' c' p = total st W c' p + (if decide (c = c') then total_at (node_pairs ps) p else 0).
Proof.
  intros Hh HU. unfold count_node. apply foldR_total; [|done].
  intros st1 W1 a Ha Hh1. apply count_predecessor_holds; [done|]. intros p Hp. apply HU.
  by eapply (concat_keys (λ a, pairs_of a ps.2)).
Qed.

(** A client first seen starts from no counts. *)
Lemma setdefault_holds st W c :
  holds st W →
  let st' := mkPS (dsetdefault (_paths st) c []) (paths_spill st) in
  holds st' W ∧ (∀ c' p, total st' W c' p = total st W c' p).
Proof.
  intros Hh. cbn zeta. assert (Hg : ∀ c', dget_or [] (dsetdefault (_paths st) c []) c' = dget_or [] (_paths st) c').
  { intros c'. unfold dget_or. rewrite dget_dsetdefault. destruct (decide (pyeq c c')) as [E|]; [|done].
    assert (c = c') as <- by exact E. done. }
  split; [|by intros c' p; unfold total; cbn [_paths]; rewrite Hg].
  split; cbn; [by apply Hh|by apply Hh| |by apply dsetdefault_wf, Hh|].
  - intros c' d p Hd. assert (Ed : d = dget_or [] (_paths st) c') by (rewrite <- Hg; unfold dget_or; by rewrite Hd).
    subst d. unfold dget_or. destruct (dget (_paths st) c') eqn:E; [by eapply h_known|].
    by intros ?%not_elem_of_nil.
  - intros c' d Hd. assert (Ed : d = dget_or [] (_paths st) c') by (rewrite <- Hg; unfold dget_or; by rewrite Hd).
    subst d. by eapply client_paths_wf.
Qed.

Lemma count_aggregate_holds threshold st W c nodes :
  0 < threshold → holds st W → (∀ p, p ∈ (graph_pairs nodes).*1 → U p) →
  ∃ st' W', UC4CountPaths_aggregate tag threshold st (Graph c nodes) = Ok st' ∧ holds st' W' ∧
    ∀ c' p, total st' W' c' p =
      total st W c' p + (if decide (c = c') then total_at (graph_pairs nodes) p else 0).
Proof.
  intros Hth Hh HU. destruct (setdefault_holds st W c Hh) as (Hh1 & Ht1). unfold UC4CountPaths_aggregate.
  cbn zeta in *.
  destruct (foldR_total (count_node tag threshold c) node_pairs c (nodes.*2)) with
    (st := mkPS (dsetdefault (_paths st) c []) (paths_spill st)) (W := W) as (st2 & W2 & E2 & Hh2 & Ht2); [|done|].
  { intros st1 W1 ps Hps Hh0. apply count_node_holds; [done|]. intros p Hp. apply HU.
    by eapply (concat_keys node_pairs). }
  rewrite E2. cbn [mbind res_bind].
  destruct (spill_if_large_holds threshold st2 W2 c) as (st3 & W3 & E3 & Hh3 & Ht3); [done..|].
  exists st3, W3. split_and!; [done..|]. intros c' p. by rewrite Ht3, Ht2, Ht1.
Qed.
Lemma sum_aggregate_holds threshold st W c counts :
  0 < threshold → holds st W → (∀ p, p ∈ dkeys counts → U p) →
  ∃ st' W', UC4AggregatePaths_aggregate tag threshold st (PathCounts c counts) = Ok st' ∧ holds st' W' ∧
    ∀ c' p, total st' W' c' p = total st W c' p + (if decide (c = c') then total_at counts p else 0).
Proof.
  intros Hth Hh HU. destruct (setdefault_holds st W c Hh) as (Hh1 & Ht1). unfold UC4AggregatePaths_aggregate.
  cbn zeta in *. destruct (add_counts_holds _ W c counts Hh1 HU) as (Hh2 & Ht2).
  destruct (spill_if_large_holds threshold _ W c Hth Hh2) as (st3 & W3 & E3 & Hh3 & Ht3).
  exists st3, W3. split_and!; [exact E3|done|]. intros c' p. by rewrite Ht3, Ht2, Ht1.
Qed.

(** A checkpoint moves everything to disk. *)
Lemma snapshot_holds st W :
  holds st W → ∃ st' sn W', paths_snapshot_state tag st = Ok (st', sn) ∧ holds st' W' ∧
    ∀ c p, total st' W' c p = total st W c p.
Proof.
  intros Hh. assert (Hs : ∀ ks st W, holds st W → NoDup ks → (∀ c, c ∈ ks → dget (_paths st) c ≠ None) →
    ∃ st' W', foldR (spill_paths tag) st ks = Ok st' ∧ holds st' W' ∧
      ∀ c p, total st' W' c p = total st W c p).
  { clear. induction ks as [|c ks IH]; intros st W Hh Hnd Hks; [by exists st, W|].
    apply NoDup_cons in Hnd as [Hc Hnd].
    destruct (dget (_paths st) c) as [paths|] eqn:E; [|by destruct (Hks c); [left|]].
    destruct (spill_paths_holds st W c paths Hh E) as (st1 & W1 & E1 & Hh1 & Hd & Ht1).
    cbn [foldR]. rewrite E1. cbn [mbind res_bind].
    destruct (IH st1 W1 Hh1 Hnd) as (st2 & W2 & E2 & Hh2 & Ht2).
    { intros c' Hc'. rewrite Hd, dget_ddel by apply Hh. destruct (decide (pyeq c c')) as [Hp|].
      - assert (c = c') as -> by exact Hp. done.
      - apply Hks. by right. }
    exists st2, W2. split_and!; [done..|]. intros c' p. by rewrite Ht2, Ht1. }
  destruct (Hs (dkeys (_paths st)) st W Hh) as (st1 & W1 & E1 & Hh1 & Ht1).
  - pose proof (h_paths _ _ Hh) as Hd. unfold dict_wf in Hd. by apply NoDup_fmap_1 in Hd.
  - intros c Hc. pose proof (dmem_dkeys (_paths st) c Hc) as Hm. unfold dmem in Hm.
    by destruct (dget (_paths st) c).
  - unfold paths_snapshot_state. rewrite E1. cbn [mbind res_bind].
    destruct (logged_snapshot tag (paths_spill st1) _ (h_log _ _ Hh1)) as (s2 & sn & E2 & Hl2).
    rewrite E2. cbn [mbind res_bind]. exists (mkPS (_paths st1) s2), sn, W1. split_and!; [done| |done].
    split; cbn; [done|by apply Hh1|by apply Hh1|by apply Hh1|by apply Hh1].
Qed.
(** ** The results *)

Definition shard_entries c shard (W : spilled) : list (Path * Z) := (filter (λ e, e.1 = (c, shard)) W).*2.

Lemma lines_at_entries W c shard :
  lines_at (enc <$> W) (c, shard) = path_text c <$> shard_entries c shard W.
Proof.
  unfold lines_at, shard_entries. induction W as [|[k e] W IH]; [done|].
  rewrite fmap_cons, !filter_cons. cbn [enc fst snd]. rewrite !fmap_app || idtac.
  destruct (decide (pyeq k (c, shard))) as [Hk|Hk], (decide (k = (c, shard))) as [Hk'|Hk'].
  - subst k. cbn [fst]. rewrite !fmap_cons. by f_equal.
  - destruct Hk'. destruct k as [c' n]. injection Hk as E1 E2. cbn in E1, E2. unfold id in *. by subst.
  - by destruct Hk; subst.
  - done.
Qed.

Lemma read_shard_log s W c shard s' lines :
  logged (ms_path tag) s (enc <$> W) → ms_read_shard tag s c shard = (s', lines) →
  logged (ms_path tag) s' (enc <$> W) ∧ lines = terminated <$> (path_text c <$> shard_entries c shard W).
Proof.
  intros Hl [= <- <-].
  pose proof (logged_close (ms_path tag) (ms_path_inj tag) s _ (c, shard) Hl) as Hl'. split; [done|].
  rewrite (logged_read (ms_path tag) _ _ (c, shard) Hl').
  - by rewrite lines_at_entries.
  - rewrite close_handles by apply Hl. by rewrite decide_True.
Qed.

Lemma zsum_indicator (l : list Z) x (v : Z) :
  NoDup l → x ∈ l → zsum ((λ y, if decide (x = y) then v else 0) <$> l) = v.
Proof.
  intros Hnd Hx. apply list_elem_of_split in Hx as (l1 & l2 & ->).
  apply NoDup_app in Hnd as (_ & H1 & [H2 _]%NoDup_cons).
  rewrite fmap_app, fmap_cons, zsum_app. change (zsum (?a :: ?r)) with (a + zsum r).
  rewrite decide_True by done. rewrite !zsum_fmap_zero; [lia| |].
  - intros y Hy. rewrite decide_False; [done|]. by intros <-.
  - intros y Hy. rewrite decide_False; [done|]. intros <-. apply (H1 x); [done|left].
Qed.

(** Every spilled entry of a client is in one of its shards. *)
Lemma shards_total s W c p :
  logged (ms_path tag) s (enc <$> W) →
  zsum ((λ shard, total_at (shard_entries c shard W) p) <$> ms_shards_of tag s c) =
  total_at (of_client c W) p.
Proof.
  intros Hl. pose proof (ms_shards_NoDup tag s c) as Hnd.
  assert (Hc : ∀ shard e, ((c, shard), e) ∈ W → shard ∈ ms_shards_of tag s c).
  { intros shard e He. apply ms_shards_complete.
    apply (logged_there (ms_path tag) s (enc <$> W) (c, shard) (path_text c e) Hl).
    rewrite lines_at_entries. apply list_elem_of_fmap. exists e. split; [done|].
    apply list_elem_of_fmap. exists ((c, shard), e). split; [done|]. by apply list_elem_of_filter. }
  revert Hnd Hc. generalize (ms_shards_of tag s c). clear Hl. intros shards Hnd Hc.
  induction W as [|[[c' shard'] e] W IH].
  - apply zsum_fmap_zero. intros y _. apply total_at_nil.
  - assert (IH' := IH (λ shard e' He, Hc shard e' (list_elem_of_further _ _ _ He))). clear IH.
    unfold of_client, shard_entries in *. rewrite filter_cons. cbn [fst].
    destruct (decide (c' = c)) as [->|Hne].
    + rewrite fmap_cons, total_at_cons, <- IH'.
      rewrite <- (zsum_indicator shards shard' (if decide (pyeq e.1 p) then e.2 else 0)) at 1;
        [|done|by apply (Hc shard' e); left].
      rewrite <- zsum_fmap_add. apply zsum_fmap_ext. intros y _. rewrite filter_cons.
      destruct (decide ((c, shard', e).1 = (c, y))) as [E|E], (decide (shard' = y)) as [E'|E'].
      * rewrite fmap_cons, total_at_cons. done.
      * by injection E as ->.
      * by destruct E; subst.
      * done.
    + rewrite <- IH'. apply zsum_fmap_ext. intros y _. rewrite filter_cons_False; [done|]. cbn. by intros [= ->].
Qed.
(** What the messages of a result count for a path. *)
Definition counted (out : list (Body * Z)) (p : Path) : Z :=
  zsum ((λ m, match m.1 with PathCounts _ counts => dget_or 0 counts p | _ => 0 end) <$> out).

Lemma counted_app out1 out2 p : counted (out1 ++ out2) p = counted out1 p + counted out2 p.
Proof. unfold counted. by rewrite fmap_app, zsum_app. Qed.

Lemma counted_groups c paths p : dict_wf paths →
  counted (yield_groups (PathCounts c) (path_groups paths)) p = dget_or 0 paths p.
Proof.
  intros Hwf. unfold counted, yield_groups. rewrite <- list_fmap_compose.
  assert (E : ∀ gs : pydict Z (pydict Path Z),
    zsum ((λ g, match (PathCounts c g.2, g.1).1 with PathCounts _ counts => dget_or 0 counts p | _ => 0 end) <$> gs)
    = vsum (λ g, dget_or 0 g p) gs).
  { intros gs. unfold vsum, dvalues. by rewrite <- list_fmap_compose. }
  unfold compose. rewrite E. unfold path_groups.
  rewrite (by_affinity_sum _ path_counts_add _ (λ e, if decide (pyeq e.1 p) then e.2 else 0)); [|done|].
  - by rewrite <- total_at_dict.
  - intros g k n. cbn [fst snd]. unfold path_counts_add. unfold dget_or at 1. rewrite dget_dset.
    destruct (decide (pyeq k p)) as [Hk|Hk].
    + cbn. unfold dmem. destruct (dget g k) as [m|] eqn:E0; unfold dget_or.
      * rewrite <- (dget_pyeq g k p), E0 by done. done.
      * rewrite dget_dset_eq, <- (dget_pyeq g k p), E0 by done. done.
    + destruct (dmem g k); [unfold dget_or; lia|]. rewrite dget_dset_ne by done. unfold dget_or. lia.
Qed.

(** A message of a result: paths received, all of the affinity it is sent with. *)
Definition counted_message c (m : Body * Z) : Prop :=
  ∃ counts, m.1 = PathCounts c counts ∧ dict_wf counts ∧
    ∀ q, q ∈ dkeys counts → U q ∧ m.2 = hash_path q mod AFFINITY_SHARDS_PATHS.

Lemma path_groups_members paths a g : (a, g) ∈ path_groups paths →
  dict_wf g ∧ ∀ q, q ∈ dkeys g → a = hash_path q mod AFFINITY_SHARDS_PATHS ∧ q ∈ dkeys paths.
Proof.
  revert a g. induction paths as [|[p n] paths IH] using rev_ind; [by intros a g ?%not_elem_of_nil|].
  intros a g. unfold path_groups, by_affinity. rewrite foldl_app. cbn [foldl fst snd].
  fold (by_affinity (λ p, hash_path p mod AFFINITY_SHARDS_PATHS) path_counts_add paths). fold (path_groups paths).
  assert (Hk : ∀ q, q ∈ dkeys paths → q ∈ dkeys (paths ++ [(p, n)])).
  { intros q Hq. unfold dkeys in *. rewrite fmap_app, elem_of_app. by left. }
  intros [Hin|[-> ->]]%elem_dset_Z.
  { destruct (IH _ _ Hin) as [Hwf Hg]. split; [done|]. intros q Hq. destruct (Hg q Hq). auto. }
  set (g0 := dget_or [] (path_groups paths) (hash_path p mod AFFINITY_SHARDS_PATHS)).
  assert (Hg0 : dict_wf g0 ∧ ∀ q, q ∈ dkeys g0 → hash_path p mod AFFINITY_SHARDS_PATHS = hash_path q mod AFFINITY_SHARDS_PATHS ∧ q ∈ dkeys paths).
  { unfold g0, dget_or. destruct (dget (path_groups paths) _) as [g1|] eqn:E; [|split; [apply nil_wf|by intros q ?%not_elem_of_nil]].
    apply dget_Some_elem in E as (a' & Ha & Hin). assert (a' = hash_path p mod AFFINITY_SHARDS_PATHS) as -> by exact Ha. by apply IH. }
  destruct Hg0 as [Hwf Hg0]. unfold path_counts_add. split; [apply dset_wf; destruct (dmem g0 p); [done|by apply dset_wf]|].
  assert (Hp : p ∈ dkeys (paths ++ [(p, n)])) by (unfold dkeys; rewrite fmap_app, elem_of_app; right; left).
  intros q [Hq| ->]%dset_keys; [|done]. destruct (dmem g0 p); [|apply dset_keys in Hq as [Hq| ->]; [|done]].
  all: destruct (Hg0 q Hq); auto.
Qed.

Lemma count_paths_results_spec c W shards s :
  logged (ms_path tag) s (enc <$> W) → (∀ e, e ∈ W → placed e) →
  ∃ s' out, count_paths_results tag c s shards = Ok (s', out) ∧
    (∀ m, m ∈ out → counted_message c m) ∧
    ∀ p, counted out p = zsum ((λ shard, total_at (shard_entries c shard W) p) <$> shards).
Proof.
  intros Hl HW. revert s Hl. induction shards as [|shard shards IH]; intros s Hl.
  - exists s, []. split_and!; [done|by intros m ?%not_elem_of_nil|done].
  - cbn [count_paths_results]. destruct (ms_read_shard tag s c shard) as [s1 lines] eqn:Er.
    destruct (read_shard_log s W c shard s1 lines Hl Er) as [Hl1 ->].
    rewrite foldR_add_lines. cbn [mbind res_bind].
    destruct (IH s1 Hl1) as (s2 & out & E & Hm & Hp). rewrite E. cbn [mbind res_bind].
    eexists s2, _. split_and!; [reflexivity| |].
    + intros m [Hin|Hin]%elem_of_app; [|by apply Hm]. unfold yield_groups in Hin.
      apply list_elem_of_fmap in Hin as ([a g] & -> & Hg). exists g. split; [done|].
      destruct (path_groups_members _ _ _ Hg) as [Hwf Hkeys]. split; [done|]. intros q Hq.
      destruct (Hkeys q Hq) as [Ha Hin]. split; [|done]. apply dadd_all_keys in Hin as [Hin|Hin]; [by apply not_elem_of_nil in Hin|].
      apply list_elem_of_fmap in Hin as (e & -> & He). apply list_elem_of_fmap in He as (e' & -> & He').
      apply list_elem_of_filter in He' as [_ He']. by apply HW.
    + intros p. rewrite counted_app, counted_groups, Hp by (apply dadd_all_wf, nil_wf).
      rewrite dget_or_dadd_all, dget_or_nil. done.
Qed.

Lemma spill_known_holds st W c :
  holds st W → ∃ st' W', spill_known_paths tag st c = Ok st' ∧ holds st' W' ∧
    dget (_paths st') c = None ∧ ∀ c' p, total st' W' c' p = total st W c' p.
Proof.
  intros Hh. unfold spill_known_paths, dmem. destruct (dget (_paths st) c) as [paths|] eqn:E; [|by exists st, W].
  destruct (spill_paths_holds st W c paths Hh E) as (st1 & W1 & E1 & Hh1 & Hd & Ht). exists st1, W1.
  split_and!; [done|done| |done]. rewrite Hd, dget_ddel by apply Hh. by rewrite decide_True.
Qed.

Lemma total_spilled st W c p : dget (_paths st) c = None → total st W c p = total_at (of_client c W) p.
Proof. intros E. unfold total. unfold dget_or at 2. rewrite E. cbn [from_option]. rewrite dget_or_nil. lia. Qed.

Lemma count_paths_get_result st W c :
  holds st W →
  ∃ st' out, UC4CountPaths_get_result tag st c = Ok (st', out) ∧
    (∀ m, m ∈ out → counted_message c m) ∧ ∀ p, counted out p = total st W c p.
Proof.
  intros Hh. unfold UC4CountPaths_get_result.
  destruct (spill_known_holds st W c Hh) as (st1 & W1 & E1 & Hh1 & Hn & Ht). rewrite E1. cbn [mbind res_bind].
  destruct (count_paths_results_spec c W1 (ms_shards_of tag (paths_spill st1) c) (paths_spill st1))
    as (s2 & out & E2 & Hm & Hp); [apply Hh1..|]. rewrite E2. cbn [mbind res_bind].
  eexists _, out. split_and!; [reflexivity|done|]. intros p.
  rewrite Hp, shards_total, <- Ht by apply Hh1. by rewrite total_spilled.
Qed.
(** A shard of frequent paths: those whose entries there add up to enough. *)
Lemma placed_total W c p :
  (∀ e, e ∈ W → placed e) → (∀ p q, U p → U q → pyeq p q → p = q) → U p → ∀ shard,
  total_at (shard_entries c shard W) p =
    if decide (shard = path_sharding_hash p c) then total_at (of_client c W) p else 0.
Proof.
  intros HW Hinj Hp shard. induction W as [|[[c' n] [q m]] W IH].
  - by destruct (decide _).
  - destruct (HW _ (list_elem_of_here _ _)) as [Hn Hq]. cbn [fst snd] in Hn, Hq.
    specialize (IH (λ e He, HW e (list_elem_of_further _ _ _ He))).
    unfold of_client, shard_entries in *. rewrite !filter_cons. cbn [fst].
    destruct (decide (c' = c)) as [->|Hne].
    + rewrite fmap_cons, total_at_cons. cbn [fst snd].
      destruct (decide ((c, n) = (c, shard))) as [[= ->]|Hs].
      * rewrite fmap_cons, total_at_cons, IH. cbn [fst snd].
        destruct (decide (pyeq q p)) as [Hqp|]; [|by destruct (decide (shard = _)); lia].
        pose proof (Hinj q p Hq Hp Hqp) as ->. by rewrite !decide_True.
      * rewrite IH. destruct (decide (shard = _)) as [->|]; [|done].
        destruct (decide (pyeq q p)) as [Hqp|]; [|lia].
        pose proof (Hinj q p Hq Hp Hqp) as ->. by destruct Hs; subst.
    + rewrite decide_False by (intros [= ->]; done). apply IH.
Qed.

Lemma frequent_results_spec c W shards s :
  logged (ms_path tag) s (enc <$> W) →
  ∃ s', frequent_paths_results tag c s shards = Ok (s',
    (λ shard, (PathCounts c (dfilter (λ e, MIN_PATH_COUNT <=? e.2) (dadd_all [] (shard_entries c shard W))), 0))
      <$> shards).
Proof.
  revert s. induction shards as [|shard shards IH]; intros s Hl; [by exists s|].
  cbn [frequent_paths_results]. destruct (ms_read_shard tag s c shard) as [s1 lines] eqn:Er.
  destruct (read_shard_log s W c shard s1 lines Hl Er) as [Hl1 ->].
  rewrite foldR_add_lines. cbn [mbind res_bind].
  destruct (IH s1 Hl1) as (s2 & E). rewrite E. cbn [mbind res_bind]. by exists s2.
Qed.

Lemma dadd_all_entry (l : list (Path * Z)) p n :
  (∀ q, q ∈ l.*1 → U q) → (∀ p q, U p → U q → pyeq p q → p = q) →
  0 < n → (p, n) ∈ dadd_all [] l ↔ U p ∧ n = total_at l p.
Proof.
  intros Hl Hinj Hn. pose proof (dadd_all_wf [] l nil_wf) as Hwf.
  assert (Hd : ∀ q, dget_or 0 (dadd_all [] l) q = total_at l q)
    by (intros; by rewrite dget_or_dadd_all, dget_or_nil).
  assert (HU : ∀ q m, (q, m) ∈ dadd_all [] l → U q).
  { intros q m Hin. apply Hl. destruct (dadd_all_keys [] l q) as [H0|]; [|by apply not_elem_of_nil in H0|done].
    apply list_elem_of_fmap. by exists (q, m). }
  split.
  - intros Hin. split; [by eapply HU|]. rewrite <- Hd. unfold dget_or.
    by rewrite (elem_dget _ p n Hwf Hin).
  - intros [Hp ->]. rewrite <- Hd in Hn |- *. unfold dget_or in *.
    destruct (dget (dadd_all [] l) p) as [m|] eqn:E; cbn in *; [|lia].
    apply dget_Some_elem in E as (q & Hq & Hin). by rewrite <- (Hinj q p (HU _ _ Hin) Hp Hq).
Qed.
Lemma frequent_get_result st W c :
  holds st W → (∀ p q, U p → U q → pyeq p q → p = q) →
  ∃ st' out, UC4AggregatePaths_get_result tag st c = Ok (st', out) ∧
    (∀ m, m ∈ out → ∃ counts, m = (PathCounts c counts, 0)) ∧
    ∀ p n, (∃ counts, (PathCounts c counts, 0) ∈ out ∧ (p, n) ∈ counts) ↔
      U p ∧ n = total st W c p ∧ MIN_PATH_COUNT ≤ n.
Proof.
  intros Hh Hinj. unfold UC4AggregatePaths_get_result.
  destruct (spill_known_holds st W c Hh) as (st1 & W1 & E1 & Hh1 & Hn & Ht). rewrite E1. cbn [mbind res_bind].
  destruct (frequent_results_spec c W1 (ms_shards_of tag (paths_spill st1) c) (paths_spill st1))
    as (s2 & E2); [apply Hh1|]. rewrite E2. cbn [mbind res_bind].
  eexists _, _. split_and!; [reflexivity| |].
  { intros m (shard & -> & _)%list_elem_of_fmap. eexists. reflexivity. }
  intros p n. rewrite <- Ht, total_spilled by done.
  assert (HW : ∀ e, e ∈ W1 → placed e) by apply Hh1.
  assert (Hse : ∀ shard q, q ∈ (shard_entries c shard W1).*1 → U q).
  { intros shard q (e & -> & He)%list_elem_of_fmap. apply list_elem_of_fmap in He as (e' & -> & He').
    apply list_elem_of_filter in He' as [_ He']. by apply HW. }
  assert (Hent : ∀ shard, MIN_PATH_COUNT ≤ n →
    (p, n) ∈ dadd_all [] (shard_entries c shard W1) ↔ U p ∧ n = total_at (shard_entries c shard W1) p).
  { intros shard Hmin. apply dadd_all_entry; [apply Hse|done|unfold MIN_PATH_COUNT in Hmin; lia]. }
  split.
  - intros (counts & Hin & Hp). apply list_elem_of_fmap in Hin as (shard & [= ->] & Hsh).
    unfold dfilter in Hp. apply list_elem_of_filter in Hp as [Hmin Hp]. cbn in Hmin.
    assert (Hmin' : MIN_PATH_COUNT ≤ n) by by apply Z.leb_le.
    apply Hent in Hp as [HU Hp]; [|done]. rewrite (placed_total W1) in Hp by done.
    destruct (decide _); [done|unfold MIN_PATH_COUNT in Hmin'; lia].
  - intros (HU & Hp & Hmin). set (shard := path_sharding_hash p c).
    assert (Hs : n = total_at (shard_entries c shard W1) p) by (rewrite (placed_total W1) by done; by rewrite decide_True).
    eexists. split; [apply list_elem_of_fmap; exists shard; split; [reflexivity|]|].
    + apply ms_shards_complete.
      destruct (shard_entries c shard W1) as [|e l] eqn:E;
        [rewrite total_at_nil in Hs; unfold MIN_PATH_COUNT in Hmin; lia|].
      apply (logged_there (ms_path tag) (paths_spill st1) (enc <$> W1) (c, shard) (path_text c e)); [apply Hh1|].
      rewrite lines_at_entries, E. left.
    + unfold dfilter. apply list_elem_of_filter. split; [by apply Z.leb_le|]. by apply Hent.
Qed.
End paths.

(** ** The counting node of UC4 *)

(** What happens to it: a graph received, or a checkpoint. *)
Inductive path_event := PathsReceive (msg : Body) | PathsCheckpoint.

Definition path_event_step `{PyHash} (tag : string) (agg : PathState → Body → res PathState)
    (st : PathState) (e : path_event) : res PathState :=
  match e with
  | PathsReceive msg => agg st msg
  | PathsCheckpoint => '(st, _) ← paths_snapshot_state tag st; Ok st
  end.

Definition graph_event (e : option (uuid * graph_nodes)) : path_event :=
  match e with Some (c, nodes) => PathsReceive (Graph c nodes) | None => PathsCheckpoint end.

(** The pairs around the nodes of a client's graphs. *)
Definition client_pairs (c : uuid) (es : list (option (uuid * graph_nodes))) : list (Path * Z) :=
  List.concat ((λ e, match e with
    | Some (c', nodes) => if decide (c' = c) then graph_pairs nodes else []
    | None => [] end) <$> es).

Section events.
Context `{PyHash} (tag : string) (U : Path → Prop) (agg : PathState → Body → res PathState).
Context {E : Type} (event : E → path_event) (contents : E → uuid → list (Path * Z)).

(** Events that each add their contents to the totals. *)
Lemma path_events_hold es :
  (∀ e, e ∈ es → match event e with
    | PathsReceive msg => ∀ st W, holds tag U st W → ∃ st' W', agg st msg = Ok st' ∧ holds tag U st' W' ∧
        ∀ c p, total st' W' c p = total st W c p + total_at (contents e c) p
    | PathsCheckpoint => ∀ c, contents e c = [] end) →
  ∀ st W, holds tag U st W → ∃ st' W',
    foldR (path_event_step tag agg) st (event <$> es) = Ok st' ∧ holds tag U st' W' ∧
    ∀ c p, total st' W' c p = total st W c p + total_at (List.concat ((λ e, contents e c) <$> es)) p.
Proof.
  induction es as [|e es IH]; intros Hes st W Hh.
  - exists st, W. split_and!; [done..|]. intros c p.
    change (List.concat ((λ e, contents e c) <$> [])) with (@nil (Path * Z)). rewrite total_at_nil. lia.
  - rewrite fmap_cons. cbn [foldR].
    assert (Hstep : ∃ st' W', path_event_step tag agg st (event e) = Ok st' ∧ holds tag U st' W' ∧
      ∀ c p, total st' W' c p = total st W c p + total_at (contents e c) p).
    { specialize (Hes e (list_elem_of_here _ _)). unfold path_event_step. destruct (event e); [by apply Hes|].
      destruct (snapshot_holds tag U st W Hh) as (st' & sn & W' & E1 & Hh' & Ht). rewrite E1. cbn [mbind res_bind].
      exists st', W'. split_and!; [done..|]. intros c p. rewrite Ht, Hes, total_at_nil. lia. }
    destruct Hstep as (st1 & W1 & E1 & Hh1 & Ht1). rewrite E1. cbn [mbind res_bind].
    destruct (IH (λ e' He, Hes e' (list_elem_of_further _ _ _ He)) st1 W1 Hh1) as (st2 & W2 & E2 & Hh2 & Ht2).
    exists st2, W2. split_and!; [done..|]. intros c p. rewrite Ht2, Ht1.
    change (List.concat ((λ e, contents e c) <$> e :: es))
      with (contents e c ++ List.concat ((λ e, contents e c) <$> es)).
    rewrite total_at_app. lia.
Qed.
End events.

Lemma total_init c p : total paths_init [] c p = 0.
Proof. done. Qed.

(** The path counts [UC4CountPaths] reports for a client are exact: for any
    sequence of graphs of any clients, interleaved with checkpoints, and any
    spilling threshold, no step fails, every message of the result is a
    [PathCounts] of the client, and the counts the messages give to a path add up
    to the number of pairs (predecessor, other successor) around the nodes of
    that client's graphs. What was spilled to disk, when, and in which shard
    makes no difference. *)
Theorem uc4_counts_every_path `{PyHash} (tag : string) (threshold : Z) (c : uuid)
    (es : list (option (uuid * graph_nodes))) (Hth : 0 < threshold) :
  ∃ st st' out,
    foldR (path_event_step tag (UC4CountPaths_aggregate tag threshold)) paths_init (graph_event <$> es) = Ok st ∧
    UC4CountPaths_get_result tag st c = Ok (st', out) ∧
    (∀ m, m ∈ out → ∃ counts, m.1 = PathCounts c counts) ∧
    ∀ p, counted out p = total_at (client_pairs c es) p.
Proof.
  pose (contents := λ (e : option (uuid * graph_nodes)) (c : uuid), match e with
    | Some (c', nodes) => if decide (c' = c) then graph_pairs nodes else []
    | None => [] end).
  destruct (path_events_hold tag (λ _, True) (UC4CountPaths_aggregate tag threshold) graph_event contents es)
    with (st := paths_init) (W := @nil ((uuid * Z) * (Path * Z))) as (st & W & Er & Hh & Ht).
  - intros [[c0 nodes]|] _; [|done]. intros st W Hh.
    destruct (count_aggregate_holds tag (λ _, True) threshold st W c0 nodes Hth Hh) as (st' & W' & E' & Hh' & Ht');
      [done|].
    exists st', W'. split_and!; [done..|]. intros c' p. rewrite Ht'. f_equal. unfold contents.
    by destruct (decide (c0 = c')).
  - apply holds_init.
  - destruct (count_paths_get_result tag (λ _, True) st W c Hh) as (st' & out & Eg & Hm & Hp).
    exists st, st', out. split_and!; [done..| |intros p; by rewrite Hp, Ht, total_init].
    intros m Hin. destruct (Hm m Hin) as (counts & E & _). by exists counts.
Qed.

Definition counts_event (e : option (uuid * pydict Path Z)) : path_event :=
  match e with Some (c, counts) => PathsReceive (PathCounts c counts) | None => PathsCheckpoint end.

(** The entries a client's messages carry, and the paths of all messages. *)
Definition client_counts (c : uuid) (es : list (option (uuid * pydict Path Z))) : list (Path * Z) :=
  List.concat ((λ e, match e with
    | Some (c', counts) => if decide (c' = c) then counts else []
    | None => [] end) <$> es).
Definition paths_of_events (es : list (option (uuid * pydict Path Z))) : list Path :=
  List.concat ((λ e, match e with Some (_, counts) => dkeys counts | None => [] end) <$> es).

(** C18: The paths [UC4AggregatePaths] reports for a client are those the
    client's messages count at least [MIN_PATH_COUNT] times in total, each with
    that total: for any sequence of counts of any clients, interleaved with
    checkpoints, and any spilling threshold. A path is never judged on a part of
    its count, because all the entries of a path go to the shard of its hash;
    this needs that distinct paths have distinct keys (see [Node.key]: the
    concatenation of bank and account). *)
Theorem uc4_frequent_paths_exact `{PyHash} (tag : string) (threshold : Z) (c : uuid)
    (es : list (option (uuid * pydict Path Z))) (Hth : 0 < threshold)
    (Hkeys : ∀ p q, p ∈ paths_of_events es → q ∈ paths_of_events es → pyeq p q → p = q) :
  ∃ st st' out,
    foldR (path_event_step tag (UC4AggregatePaths_aggregate tag threshold)) paths_init (counts_event <$> es) = Ok st ∧
    UC4AggregatePaths_get_result tag st c = Ok (st', out) ∧
    (∀ m, m ∈ out → ∃ counts, m = (PathCounts c counts, 0)) ∧
    ∀ p n, (∃ counts, (PathCounts c counts, 0) ∈ out ∧ (p, n) ∈ counts) ↔
      p ∈ paths_of_events es ∧ n = total_at (client_counts c es) p ∧ MIN_PATH_COUNT ≤ n.
Proof.
  pose (contents := λ (e : option (uuid * pydict Path Z)) (c : uuid), match e with
    | Some (c', counts) => if decide (c' = c) then counts else []
    | None => [] end).
  pose (U := λ p, p ∈ paths_of_events es).
  destruct (path_events_hold tag U (UC4AggregatePaths_aggregate tag threshold) counts_event contents es)
    with (st := paths_init) (W := @nil ((uuid * Z) * (Path * Z))) as (st & W & Er & Hh & Ht).
  - intros [[c0 counts]|] He; [|done]. intros st W Hh.
    destruct (sum_aggregate_holds tag U threshold st W c0 counts Hth Hh) as (st' & W' & E' & Hh' & Ht').
    { intros p Hp. unfold U, paths_of_events. apply elem_concat. exists (dkeys counts). split; [|done].
      apply list_elem_of_fmap. by exists (Some (c0, counts)). }
    exists st', W'. split_and!; [done..|]. intros c' p. rewrite Ht'. f_equal. unfold contents.
    by destruct (decide (c0 = c')).
  - apply holds_init.
  - destruct (frequent_get_result tag U st W c Hh Hkeys) as (st' & out & Eg & Hm & Hp).
    exists st, st', out. split_and!; [done..|]. intros p n. rewrite Hp, Ht, total_init. done.
Qed.

#[local] Instance paths_demo_hash : PyHash :=
  {| hash_str s := Z.of_nat (String.length s); hash_uuid _ := 0; hash_identity _ _ := 0 |}.

(** Two predecessors around one node, one of them also a successor, with a
    checkpoint in between; the threshold makes every predecessor spill. *)
Lemma uc4_counts_every_path_witness :
  let node a := mkNode "1" a in
  let c := uuid_lit 4 in
  let es := [Some (c, [(node "X", ([node "A"; node "B"], [node "B"; node "C"]))]); None;
             Some (c, [(node "Y", ([node "A"], [node "C"]))])]%string in
  (0 < 1 ∧ total_at (client_pairs c es) (mkPath (node "A") (node "C")) = 2)%string ∧
  ∃ st st' out,
    foldR (path_event_step "uc4" (UC4CountPaths_aggregate "uc4" 1)) paths_init (graph_event <$> es) = Ok st ∧
    UC4CountPaths_get_result "uc4" st c = Ok (st', out) ∧
    (∀ m, m ∈ out → ∃ counts, m.1 = PathCounts c counts) ∧
    ∀ p, counted out p = total_at (client_pairs c es) p.
Proof.
  cbv zeta. split; [split; [lia|vm_compute; reflexivity]|].
  apply (uc4_counts_every_path "uc4" 1). lia.
Defined.

(** Three and two make five, in separate messages with a spill after each. *)
Lemma uc4_frequent_paths_exact_witness :
  let path := λ a b, mkPath (mkNode "1" a) (mkNode "2" b) in
  let c := uuid_lit 4 in
  let es := [Some (c, [(path "A" "B", 3); (path "A" "C", 4)]); None; Some (c, [(path "A" "B", 2)])]%string in
  (0 < 1 ∧ ∀ p q, p ∈ paths_of_events es → q ∈ paths_of_events es → pyeq p q → p = q) ∧
  ∃ st st' out,
    foldR (path_event_step "uc4" (UC4AggregatePaths_aggregate "uc4" 1)) paths_init (counts_event <$> es) = Ok st ∧
    UC4AggregatePaths_get_result "uc4" st c = Ok (st', out) ∧
    (∀ m, m ∈ out → ∃ counts, m = (PathCounts c counts, 0)) ∧
    ∀ p n, (∃ counts, (PathCounts c counts, 0) ∈ out ∧ (p, n) ∈ counts) ↔
      p ∈ paths_of_events es ∧ n = total_at (client_counts c es) p ∧ MIN_PATH_COUNT ≤ n.
Proof.
  cbv zeta.
  match goal with |- (_ ∧ ?Q) ∧ _ => assert (Hk : Q) end.
  { intros p q. rewrite !list_elem_of_In. cbn [paths_of_events List.concat fmap list_fmap app dkeys List.In fst].
    intros [<-|[<-|[<-|[]]]] [<-|[<-|[<-|[]]]] E; done || discriminate E. }
  split; [split; [lia|exact Hk]|]. apply (uc4_frequent_paths_exact "uc4" 1); [lia|exact Hk].
Defined.
