(* ===== verification/FloatBounds.v ===== *)
(** * Bounds on float results

    A positive quotient of integers below [2^53], and its square root, are
    finite: what the tile sizes of the pruning merge need. *)

From Stdlib Require Import Floats.SpecFloat.
From S2P Require Import Prelude.
From S2P Require Import PyText.
From S2P Require Import PyFloat.
From S2P Require Import GroupBy.

(** ** Digits *)

Lemma digits2_bounds p : 2 ^ (Zpos (digits2_pos p) - 1) ≤ Zpos p < 2 ^ Zpos (digits2_pos p).
Proof.
  induction p as [p IH|p IH|]; cbn [digits2_pos]; [| |done].
  all: rewrite Pos2Z.inj_succ; replace (Z.succ (Z.pos (digits2_pos p)) - 1) with (Z.succ (Z.pos (digits2_pos p) - 1)) by lia.
  all: rewrite !Z.pow_succ_r by lia; lia.
Qed.

Lemma digits2_le m n : 0 ≤ n → 0 ≤ m < 2 ^ n → 0 ≤ Zdigits2 m ≤ n.
Proof.
  intros Hn Hm. destruct m as [|p|p]; cbn [Zdigits2]; [lia| |lia].
  pose proof (digits2_bounds p) as [Hp _]. split; [lia|].
  assert (2 ^ (Z.pos (digits2_pos p) - 1) < 2 ^ n) as Hlt by lia.
  apply Z.pow_lt_mono_r_iff in Hlt; lia.
Qed.

Lemma digits2_shift p k : Zpos (digits2_pos (Pos.iter xO p k)) = Zpos (digits2_pos p) + Zpos k.
Proof.
  induction k as [|k IH] using Pos.peano_ind; [cbn; lia|].
  rewrite Pos.iter_succ. cbn [digits2_pos]. rewrite !Pos2Z.inj_succ, IH. lia.
Qed.

(** ** Rounding *)

Lemma shr_1_bound r : 0 ≤ shr_m r → 0 ≤ shr_m (shr_1 r) ≤ shr_m r.
Proof. destruct r as [[|[p|p|]|p] b s]; cbn; lia. Qed.

Lemma shr_iter_bound p r : 0 ≤ shr_m r → 0 ≤ shr_m (SpecFloat.iter_pos shr_1 p r) ≤ shr_m r.
Proof.
  revert r. induction p as [p IH|p IH|]; intros r Hr; cbn [SpecFloat.iter_pos].
  - pose proof (shr_1_bound r Hr). pose proof (IH (shr_1 r) ltac:(lia)).
    pose proof (IH (SpecFloat.iter_pos shr_1 p (shr_1 r)) ltac:(lia)). lia.
  - pose proof (IH r Hr). pose proof (IH (SpecFloat.iter_pos shr_1 p r) ltac:(lia)). lia.
  - by apply shr_1_bound.
Qed.

Lemma shr_record_m m l : shr_m (shr_record_of_loc m l) = m.
Proof. by destruct l as [|[]]. Qed.

Lemma shr_fexp_bound mx ex lx n :
  0 ≤ n → 0 ≤ mx < 2 ^ n → -1000 ≤ ex →
  0 ≤ shr_m (shr_fexp 53 1024 mx ex lx).1 ≤ mx ∧ ex ≤ (shr_fexp 53 1024 mx ex lx).2 ≤ ex + n.
Proof.
  intros Hn Hm He. pose proof (digits2_le mx n Hn Hm) as Hd. unfold shr_fexp, shr.
  assert (Hf : fexp 53 1024 (Zdigits2 mx + ex) - ex ≤ n) by (unfold fexp, emin; lia).
  destruct (fexp 53 1024 (Zdigits2 mx + ex) - ex) as [|p|p] eqn:E; cbn [fst snd].
  - rewrite shr_record_m. lia.
  - pose proof (shr_iter_bound p (shr_record_of_loc mx lx)) as H. rewrite shr_record_m in H. lia.
  - rewrite shr_record_m. lia.
Qed.

Lemma round_even_bound m l : m ≤ round_nearest_even m l ≤ m + 1.
Proof. destruct l as [|[]]; cbn; try lia. destruct (Z.even m); lia. Qed.

(** Zero, or positive with a bounded mantissa and exponent. *)
Definition sane (n lo hi : Z) (f : float) : Prop :=
  match f with
  | S754_zero false => True
  | S754_finite false m e => Zpos m < 2 ^ n ∧ lo ≤ e ≤ hi
  | _ => False
  end.

Lemma round_aux_sane mx ex lx n :
  0 ≤ n → 0 ≤ mx < 2 ^ n → -1000 ≤ ex → ex + 2 * n + 1 ≤ 971 →
  sane (n + 1) ex (ex + 2 * n + 1) (binary_round_aux 53 1024 false mx ex lx).
Proof.
  intros Hn Hm He Hmax. unfold binary_round_aux.
  pose proof (shr_fexp_bound mx ex lx n Hn Hm He) as [H1 H2].
  destruct (shr_fexp 53 1024 mx ex lx) as [r1 e1]. cbn [fst snd] in *.
  pose proof (round_even_bound (shr_m r1) (loc_of_shr_record r1)) as H3.
  set (m1 := round_nearest_even (shr_m r1) (loc_of_shr_record r1)) in *.
  assert (Hm1 : 0 ≤ m1 < 2 ^ (n + 1)) by (rewrite Z.pow_add_r by lia; lia).
  pose proof (shr_fexp_bound m1 e1 loc_Exact (n + 1) ltac:(lia) Hm1 ltac:(lia)) as [H4 H5].
  destruct (shr_fexp 53 1024 m1 e1 loc_Exact) as [r2 e2]. cbn [fst snd] in *.
  destruct (shr_m r2) as [|m|m]; [done| |lia].
  rewrite (proj2 (Z.leb_le e2 (1024 - 53))) by lia. cbn [sane]. lia.
Qed.

(** Already 53 digits: nothing to round. *)
Lemma round_aux_exact m e :
  Zpos (digits2_pos m) = 53 → -1000 ≤ e ≤ 971 →
  binary_round_aux 53 1024 false (Zpos m) e loc_Exact = S754_finite false m e.
Proof.
  intros Hd He. assert (Hs : shr_fexp 53 1024 (Zpos m) e loc_Exact = (shr_record_of_loc (Zpos m) loc_Exact, e)).
  { unfold shr_fexp. cbn [Zdigits2]. rewrite Hd.
    replace (fexp 53 1024 (53 + e) - e) with 0 by (unfold fexp, emin; lia). done. }
  unfold binary_round_aux. rewrite Hs. cbn [shr_record_of_loc shr_m loc_of_shr_record round_nearest_even].
  rewrite Hs. cbn [shr_record_of_loc shr_m]. by rewrite (proj2 (Z.leb_le e (1024 - 53))) by lia.
Qed.

Lemma f_of_Z_form z : 0 < z < 2 ^ 53 →
  ∃ m e, f_of_Z z = S754_finite false m e ∧ Zpos (digits2_pos m) = 53 ∧ -52 ≤ e ≤ 0.
Proof.
  intros Hz. destruct z as [|p|p]; [lia| |lia]. unfold f_of_Z, binary_normalize, binary_round.
  pose proof (digits2_le (Zpos p) 53 ltac:(lia) ltac:(lia)) as Hd. cbn [Zdigits2] in Hd.
  unfold shl_align. set (d := Z.pos (digits2_pos p)) in *.
  assert (Hf : fexp 53 1024 (d + 0) = d - 53) by (unfold fexp, emin; lia). rewrite Hf, Z.sub_0_r.
  assert (Hd1 : 1 ≤ d) by (unfold d; lia).
  destruct (d - 53) as [|q|q] eqn:E; [|lia|].
  - exists p, 0. rewrite round_aux_exact by (fold d; lia). split_and!; [done|fold d; lia|lia|lia].
  - exists (Pos.iter xO p q), (Zneg q). pose proof (digits2_shift p q) as Hq. fold d in Hq.
    rewrite round_aux_exact by lia. split_and!; [done|lia..].
Qed.

(** ** Quotient and square root *)

Lemma fdiv_sane a b : 0 < a < 2 ^ 53 → 0 < b < 2 ^ 53 → sane 55 (-105) 108 (fdiv (f_of_Z a) (f_of_Z b)).
Proof.
  intros Ha Hb. destruct (f_of_Z_form a Ha) as (m1 & e1 & -> & Hd1 & He1).
  destruct (f_of_Z_form b Hb) as (m2 & e2 & -> & Hd2 & He2).
  unfold fdiv, SFdiv. cbn [xorb].
  assert (Hc : ∃ q l, SFdiv_core_binary 53 1024 (Zpos m1) e1 (Zpos m2) e2 = (q, e1 - e2 - 53, l) ∧ 0 ≤ q < 2 ^ 54).
  { unfold SFdiv_core_binary. cbn [Zdigits2]. rewrite Hd1, Hd2.
    replace (Z.min (fexp 53 1024 (53 + e1 - (53 + e2))) (e1 - e2)) with (e1 - e2 - 53)
      by (unfold fexp, emin; lia).
    replace (e1 - e2 - (e1 - e2 - 53)) with 53 by lia.
    pose proof (digits2_bounds m1) as Hb1. pose proof (digits2_bounds m2) as Hb2. rewrite Hd1 in Hb1. rewrite Hd2 in Hb2.
    pose proof (Z.div_eucl_eq (Z.shiftl (Zpos m1) 53) (Zpos m2) ltac:(lia)) as Hq.
    pose proof (Z.mod_pos_bound (Z.shiftl (Zpos m1) 53) (Zpos m2) ltac:(lia)) as Hr. unfold Z.modulo in Hr.
    destruct (Z.div_eucl (Z.shiftl (Zpos m1) 53) (Zpos m2)) as [q r].
    rewrite Z.shiftl_mul_pow2 in Hq by lia. exists q. eexists. split; [reflexivity|].
    change (2 ^ 54) with (4 * 2 ^ 52). change (2 ^ (53 - 1)) with (2 ^ 52) in *. change (2 ^ 53) with (2 * 2 ^ 52) in *.
    nia. }
  destruct Hc as (q & l & -> & Hq).
  pose proof (round_aux_sane q (e1 - e2 - 53) l 54 ltac:(lia) Hq ltac:(lia) ltac:(lia)) as Hs.
  destruct (binary_round_aux _ _ _ _ _ _) as [[]| | |[] m e]; cbn in *; lia.
Qed.

Lemma sqrt_sane f : sane 55 (-105) 108 f → sane 188 (-105) 404 (SFsqrt 53 1024 f).
Proof.
  destruct f as [[]| | |[] m e]; cbn [sane]; try done. intros [Hm He]. cbn [SFsqrt].
  assert (Hc : ∃ q e' l, SFsqrt_core_binary 53 1024 (Zpos m) e = (q, e', l) ∧ 0 ≤ q < 2 ^ 187 ∧ -105 ≤ e' ≤ 29).
  { unfold SFsqrt_core_binary. cbn [Zdigits2].
    pose proof (digits2_le (Zpos m) 55 ltac:(lia) ltac:(lia)) as Hd. cbn [Zdigits2] in Hd.
    assert (He' : -105 ≤ Z.min (fexp 53 1024 (Z.div2 (Z.pos (digits2_pos m) + e + 1))) (Z.div2 e) ≤ 29).
    { rewrite !Z.div2_div. unfold fexp, emin.
      pose proof (Z.div_mod (Z.pos (digits2_pos m) + e + 1) 2 ltac:(lia)).
      pose proof (Z.mod_pos_bound (Z.pos (digits2_pos m) + e + 1) 2 ltac:(lia)).
      pose proof (Z.div_mod e 2 ltac:(lia)). pose proof (Z.mod_pos_bound e 2 ltac:(lia)). lia. }
    set (e' := Z.min _ _) in *. set (s := e - 2 * e').
    assert (Hm' : 0 ≤ match s with Z0 => Zpos m | Zpos _ => Z.shiftl (Zpos m) s | Zneg _ => 0 end < 2 ^ 373).
    { assert (Hs : s ≤ 318) by lia. destruct s as [|p|p] eqn:E; [lia| |lia].
      rewrite Z.shiftl_mul_pow2 by lia. split; [lia|].
      apply Z.lt_le_trans with (2 ^ 55 * 2 ^ 318); [|by rewrite <- Z.pow_add_r].
      assert (2 ^ Z.pos p ≤ 2 ^ 318) by (apply Z.pow_le_mono_r; lia). nia. }
    assert (Hmatch : (match s with Z0 => Zpos m | Zpos _ => Z.shiftl (Zpos m) s | Zneg _ => 0 end) =
      match s with Zpos p => Z.shiftl (Zpos m) s | Z0 => Zpos m | Zneg _ => 0 end) by done.
    set (m' := match s with Z0 => Zpos m | Zpos _ => Z.shiftl (Zpos m) s | Zneg _ => 0 end) in *.
    pose proof (Z.sqrtrem_spec m' ltac:(lia)) as Hq. destruct (Z.sqrtrem m') as [q r]. destruct Hq as [Hq Hr].
    exists q, e'. eexists. split; [reflexivity|]. split; [|lia].
    assert (0 ≤ q) by (apply Z.nlt_ge; intros ?; lia). split; [done|].
    apply Z.nle_gt. intros Hge. assert (2 ^ 187 * 2 ^ 187 ≤ q * q) by (apply Z.mul_le_mono_nonneg; lia).
    change (2 ^ 187 * 2 ^ 187) with (2 * 2 ^ 373) in *. lia. }
  destruct Hc as (q & e' & l & -> & Hq & He').
  pose proof (round_aux_sane q e' l 187 ltac:(lia) Hq ltac:(lia) ltac:(lia)) as Hs.
  destruct (binary_round_aux _ _ _ _ _ _) as [[]| | |[] m2 e2]; cbn in *; try done.
  destruct Hs as [H1 H2]. split; [exact H1|lia].
Qed.

Lemma f_of_Z_nonzero b : 0 < b < 2 ^ 53 → ∀ s, f_of_Z b ≠ S754_zero s.
Proof. intros Hb s. destruct (f_of_Z_form b Hb) as (m & e & -> & _). done. Qed.

(** [math.sqrt(a / b)] is finite. *)
Lemma sqrt_quotient_trunc a b : 0 < a < 2 ^ 53 → 0 < b < 2 ^ 53 →
  ∃ q n, py_fdiv (f_of_Z a) (f_of_Z b) = Ok q ∧ f_trunc (SFsqrt 53 1024 q) = Ok n.
Proof.
  intros Ha Hb. pose proof (sqrt_sane _ (fdiv_sane a b Ha Hb)) as Hs.
  exists (fdiv (f_of_Z a) (f_of_Z b)). unfold py_fdiv.
  destruct (f_of_Z b) as [s| | |s m e] eqn:E; [by destruct (f_of_Z_nonzero b Hb s)|..].
  all: destruct (SFsqrt 53 1024 _) as [[]| | |[] m2 e2]; cbn in Hs; try done; eexists; split; reflexivity.
Qed.
