(* ===== verification/MergeFns.v ===== *)
(** * Merge functions: [merge/merge_fns]

    The joins of a small broadcast left side with a large right side: UC2 joins
    the maxima with the bank names, UC3 pairs the transactions with the averages
    of their format, UC4 prunes the transfer graph to the nodes of high degree
    and splits the heavy ones into tiles. The chunk sizes and the splitting
    threshold are arguments; the constants of the source follow. *)

From Stdlib Require Import Floats.SpecFloat.
From S2P Require Import Prelude.
From S2P Require Import PyDict.
From S2P Require Import PyValues.
From S2P Require Import PyText.
From S2P Require Import PyTime.
From S2P Require Import PyFloat.
From S2P Require Import Wire.
From S2P Require Import PyRepr.
From S2P Require Import Messages.
From S2P Require Import Checkpoint.
From S2P Require Import GroupBy.
From S2P Require Import Spill.
From S2P Require Import SpillLog.
From S2P Require Import Aggregates.
From S2P Require Import UC4.

(** ** [MergeFn] *)

Record MergeFn (F : Type) := {
  left : F → Body → res F;
  right : F → Body → res F;
  merge_result : F → uuid → res (F * list Body);
  merge_discard : F → uuid → F
}.
Arguments left {F}. Arguments right {F}. Arguments merge_result {F}. Arguments merge_discard {F}.

(** ** UC2: [UC2BankIdMergeFn] *)

Record BankMerge := mkBM { _max_amounts : max_state; _bank_names : names_state }.

Definition UC2Merge_left (st : BankMerge) (msg : Body) : res BankMerge :=
  match msg with
  | MaxByBank c data =>
      let d := dsetdefault (_max_amounts st) c [] in
      Ok (mkBM (dset d c (max_merge (dget_or [] d c) data)) (_bank_names st))
  | _ => Exc AttributeError
  end.

Definition UC2Merge_right (st : BankMerge) (msg : Body) : res BankMerge :=
  match msg with
  | BankNames c data =>
      let d := dsetdefault (_bank_names st) c [] in
      Ok (mkBM (_max_amounts st) (dset d c (dupdate (dget_or [] d c) data)))
  | _ => Exc AttributeError
  end.

(** [[(id, account, amount, names[id]) for id, .. in maxima if id in names]] *)
Definition merged_entries (max_amounts : pydict string (string * float)) (bank_names : pydict string string)
    : list (string * string * float * string) :=
  omap (λ e, match dget bank_names e.1 with
             | Some name => Some (e.1, e.2.1, e.2.2, name)
             | None => None end) max_amounts.

Definition UC2Merge_get_result (st : BankMerge) (c : uuid) : res (BankMerge * list Body) :=
  Ok (mkBM (ddel (_max_amounts st) c) (ddel (_bank_names st) c),
      [MergedBankData c (merged_entries (dget_or [] (_max_amounts st) c) (dget_or [] (_bank_names st) c))]).

Definition UC2Merge_discard (st : BankMerge) (c : uuid) : BankMerge :=
  mkBM (ddel (_max_amounts st) c) (ddel (_bank_names st) c).

Definition UC2Merge_snapshot_state (st : BankMerge)
    : pydict string (pydict string (string * float)) * pydict string (pydict string string) :=
  (clients_out id (_max_amounts st), clients_out id (_bank_names st)).

Definition UC2Merge_restore_state
    (sn : pydict string (pydict string (string * float)) * pydict string (pydict string string))
    : res BankMerge :=
  m ← clients_in dict_of sn.1; n ← clients_in dict_of sn.2; Ok (mkBM m n).

Definition UC2BankIdMergeFn : MergeFn BankMerge := {|
  left := UC2Merge_left;
  right := UC2Merge_right;
  merge_result := UC2Merge_get_result;
  merge_discard := UC2Merge_discard
|}.

(** ** [datetime.strftime], [datetime.strptime] with ["%Y-%m-%d %H:%M:%S"]

    [%Y] is not padded for the years before 1000 (the C library's format), and
    needs four digits to be read. *)

Definition strftime (d : datetime) : chars :=
  chars_of (str_int (year d)) ++ chr 45 :: pad0 2 (month d) ++ chr 45 :: pad0 2 (day d)
    ++ chr 32 :: pad0 2 (hour d) ++ chr 58 :: pad0 2 (minute d) ++ chr 58 :: pad0 2 (second d).

(** A number of between [a] and [b] digits, within bounds. *)
Definition strp_num (a b : nat) (lo hi : Z) (l : chars) : option (Z * chars) :=
  let '(ds, r) := span_digits l in
  if ((a <=? length ds) && (length ds <=? b))%nat && in_range lo hi (digits_value ds)
  then Some (digits_value ds, r) else None.

Definition strp_char (c : char) (l : chars) : option chars :=
  match l with d :: l => if bool_decide (d = c) then Some l else None | [] => None end.

(** A space in the format stands for one or more white space characters. *)
Definition strp_space (l : chars) : option chars :=
  match l with c :: l => if is_space c then Some (lstrip_ws l) else None | [] => None end.

(** [%d] also takes a space and one digit. *)
Definition strp_day (l : chars) : option (Z * chars) :=
  match l with
  | c :: l' => if bool_decide (c = chr 32) then strp_num 1 1 1 9 l' else strp_num 1 2 1 31 l
  | [] => None
  end.

Definition strptime (s : string) : res datetime :=
  '(y, mo, d, h, mi, sec) ← of_opt ValueError (
    '(y, l) ← strp_num 4 4 0 9999 (chars_of s); l ← strp_char (chr 45) l;
    '(mo, l) ← strp_num 1 2 1 12 l; l ← strp_char (chr 45) l;
    '(d, l) ← strp_day l; l ← strp_space l;
    '(h, l) ← strp_num 1 2 0 23 l; l ← strp_char (chr 58) l;
    '(mi, l) ← strp_num 1 2 0 59 l; l ← strp_char (chr 58) l;
    '(sec, l) ← strp_num 1 2 0 61 l;
    match l with [] => Some (y, mo, d, h, mi, sec) | _ => None end);
  datetime_new y mo d h mi sec.

(** [line.rstrip("\n")] *)
Fixpoint lstrip_nl (l : chars) : chars :=
  match l with
  | c :: l' => if bool_decide (c = c_newline) then lstrip_nl l' else l
  | [] => []
  end.
Definition rstrip_nl (l : chars) : chars := reverse (lstrip_nl (reverse l)).

(** ** UC3: [UC3BankIdMergeFn] *)

Section merges.
Context `{PyHash} (tag : string).

(** [_serialize], [_deserialize] *)
Definition tx_line (t : Transaction) : res chars :=
  match timestamp t with
  | TsDate d =>
      json_dumps (PList [PStr (str_of (strftime d)); PStr (from_bank t); PStr (from_account t);
        PStr (to_bank t); PStr (to_account t); PFloat (amount_received t); PStr (receiving_currency t);
        PFloat (amount_paid t); PStr (payment_currency t); PStr (payment_format t)])
  | TsText _ => Exc AttributeError
  end.

Definition ts_strptime (v : pyval) : res Timestamp := s ← as_str v; d ← strptime s; Ok (TsDate d).
Definition tx_of_line (line : chars) : res Transaction :=
  fs ← json_fields (rstrip_nl line); tx_of_row ts_strptime (PList fs).

Record AvgMerge := mkAM {
  _averages : pydict uuid (pydict string float);
  avg_spill : PersistentSpill
}.

(** One assignment per format; a second average of a format replaces the first. *)
Definition UC3Merge_left (st : AvgMerge) (msg : Body) : res AvgMerge :=
  match msg with
  | AvgByFormat c averages =>
      let d := dsetdefault (_averages st) c [] in
      Ok (mkAM (dset d c (dupdate (dget_or [] d c) averages)) (avg_spill st))
  | _ => Exc AttributeError
  end.

Definition append_tx (c : uuid) (s : PersistentSpill) (t : Transaction) : res PersistentSpill :=
  l ← tx_line t; Ok (ps_append tag s c (l ++ [c_newline])).

Definition UC3Merge_right (st : AvgMerge) (msg : Body) : res AvgMerge :=
  match msg with
  | Transactions c l => s ← foldR (append_tx c) (avg_spill st) l; Ok (mkAM (_averages st) s)
  | _ => Exc AttributeError
  end.

(** The loop over the spilled lines: [batch] is being filled, [emitted] says
    whether a message has been yielded. *)
Fixpoint merge_batches (chunk_size : Z) (c : uuid) (averages : pydict string float)
    (batch : list Transaction) (emitted : bool) (lines : list chars) : res (list Body) :=
  match lines with
  | [] =>
      let last := match batch with [] => [] | _ => [MergedTransactions c batch averages] end in
      Ok (if emitted || negb (bool_decide (batch = [])) then last else [MergedTransactions c [] averages])
  | line :: lines =>
      t ← tx_of_line line;
      if dmem averages (payment_format t) then
        let batch := batch ++ [t] in
        if chunk_size <=? Z.of_nat (length batch)
        then out ← merge_batches chunk_size c averages [] true lines;
             Ok (MergedTransactions c batch averages :: out)
        else merge_batches chunk_size c averages batch emitted lines
      else merge_batches chunk_size c averages batch emitted lines
  end.

Definition UC3Merge_get_result (chunk_size : Z) (st : AvgMerge) (c : uuid) : res (AvgMerge * list Body) :=
  let averages := dget_or [] (_averages st) c in
  let '(s, lines) := ps_iter_lines tag (avg_spill st) c in
  out ← merge_batches chunk_size c averages [] false lines;
  Ok (mkAM (ddel (_averages st) c) s, out).

Definition UC3Merge_discard (st : AvgMerge) (c : uuid) : AvgMerge :=
  mkAM (ddel (_averages st) c) (ps_clear tag (avg_spill st) c).

Definition UC3Merge_snapshot_state (st : AvgMerge)
    : res (AvgMerge * (pydict string (pydict string float) * pydict string Z)) :=
  let '(s, r) := ps_snapshot_state tag (avg_spill st) in
  lens ← r; Ok (mkAM (_averages st) s, (clients_out id (_averages st), lens)).

Definition UC3Merge_restore_state (st : AvgMerge)
    (sn : pydict string (pydict string float) * pydict string Z) : res AvgMerge :=
  a ← clients_in dict_of sn.1; s ← ps_restore_state tag (avg_spill st) sn.2; Ok (mkAM a s).

Definition UC3Merge_clear_stale_spill (st : AvgMerge) : AvgMerge :=
  mkAM (_averages st) (ps_clear_all tag (avg_spill st)).

Definition UC3_CHUNK_SIZE : Z := 10000.

Definition UC3BankIdMergeFn : MergeFn AvgMerge := {|
  left := UC3Merge_left;
  right := UC3Merge_right;
  merge_result := UC3Merge_get_result UC3_CHUNK_SIZE;
  merge_discard := UC3Merge_discard
|}.

(** ** UC4: [UC4PruneMergeFn] *)

Record PruneMerge := mkPM {
  _hi_out : pydict uuid (pyset Node);
  _hi_in : pydict uuid (pyset Node);
  prune_spill : PersistentSpill
}.

Definition UC4Prune_left (st : PruneMerge) (msg : Body) : res PruneMerge :=
  match msg with
  | HighDegree c hi_out hi_in =>
      Ok (mkPM (dset (_hi_out st) c (supdate (dget_or [] (_hi_out st) c) hi_out))
               (dset (_hi_in st) c (supdate (dget_or [] (_hi_in st) c) hi_in)) (prune_spill st))
  | _ => Exc AttributeError
  end.

(** The lines are those of [UC4AggregateGraphs]. *)
Definition prune_line (n : Node) (preds succs : pyset Node) : res chars := graph_line n preds succs.
Definition prune_of_line (line : chars) : res (Node * (pyset Node * pyset Node)) :=
  graph_of_line (rstrip_nl line).

Definition append_node (c : uuid) (s : PersistentSpill) (e : Node * (pyset Node * pyset Node))
    : res PersistentSpill :=
  l ← prune_line e.1 e.2.1 e.2.2; Ok (ps_append tag s c (l ++ [c_newline])).

Definition UC4Prune_right (st : PruneMerge) (msg : Body) : res PruneMerge :=
  match msg with
  | Graph c nodes => s ← foldR (append_node c) (prune_spill st) nodes; Ok (mkPM (_hi_out st) (_hi_in st) s)
  | _ => Exc AttributeError
  end.

(** [s & t]: the members come from the smaller of the two. *)
Definition py_inter (s t : pyset Node) : pyset Node :=
  if (length s <? length t)%nat then sinter s t else sinter t s.

(** [max(1, int(math.sqrt(threshold * a / b)))] *)
Definition chunk_side (threshold a b : Z) : res Z :=
  q ← py_fdiv (f_of_Z (threshold * a)) (f_of_Z b);
  n ← f_trunc (SFsqrt 53 1024 q); Ok (Z.max 1 n).

(** [[l[i : i + n] for i in range(0, len(l), n)]] *)
Fixpoint chunks {A} (fuel : nat) (n : nat) (l : list A) : list (list A) :=
  match fuel, l with
  | _, [] => []
  | O, _ => []
  | S fuel, _ => take n l :: chunks fuel n (drop n l)
  end.
Definition chunks_of {A} (n : Z) (l : list A) : list (list A) := chunks (length l) (Z.to_nat n) l.

Definition salted_tiles (threshold : Z) (c : uuid) (node : Node) (preds succs : pyset Node)
    : res (list Body) :=
  let p_count := Z.of_nat (length preds) in
  let s_count := Z.of_nat (length succs) in
  chunk_p ← chunk_side threshold p_count s_count;
  chunk_s ← chunk_side threshold s_count p_count;
  Ok (List.concat ((λ pchunk,
    (λ schunk, Graph c [(node, (set_of pchunk, set_of schunk))]) <$> chunks_of chunk_s succs)
      <$> chunks_of chunk_p preds)).

Fixpoint prune_batches (threshold chunk_size : Z) (c : uuid) (hi_out hi_in : pyset Node)
    (batch : graph_nodes) (batch_size : Z) (lines : list chars) : res (list Body) :=
  match lines with
  | [] => Ok (match batch with [] => [] | _ => [Graph c batch] end)
  | line :: lines =>
      '(node, (preds, succs)) ← prune_of_line line;
      let preds := py_inter preds hi_out in
      let succs := py_inter succs hi_in in
      let p := Z.of_nat (length preds) in
      let s := Z.of_nat (length succs) in
      if (p =? 0) || (s =? 0) then prune_batches threshold chunk_size c hi_out hi_in batch batch_size lines
      else if threshold <? p * s then
        tiles ← salted_tiles threshold c node preds succs;
        out ← prune_batches threshold chunk_size c hi_out hi_in batch batch_size lines;
        Ok (tiles ++ out)
      else
        let batch := dset batch node (preds, succs) in
        let batch_size := batch_size + (p + s) in
        if chunk_size <=? batch_size
        then out ← prune_batches threshold chunk_size c hi_out hi_in [] 0 lines; Ok (Graph c batch :: out)
        else prune_batches threshold chunk_size c hi_out hi_in batch batch_size lines
  end.

Definition UC4Prune_get_result (threshold chunk_size : Z) (st : PruneMerge) (c : uuid)
    : res (PruneMerge * list Body) :=
  let hi_out := dget_or [] (_hi_out st) c in
  let hi_in := dget_or [] (_hi_in st) c in
  let '(s, lines) := ps_iter_lines tag (prune_spill st) c in
  out ← prune_batches threshold chunk_size c hi_out hi_in [] 0 lines;
  Ok (mkPM (ddel (_hi_out st) c) (ddel (_hi_in st) c) s, out).

Definition UC4Prune_discard (st : PruneMerge) (c : uuid) : PruneMerge :=
  mkPM (ddel (_hi_out st) c) (ddel (_hi_in st) c) (ps_clear tag (prune_spill st) c).

Definition UC4Prune_snapshot_state (st : PruneMerge)
    : res (PruneMerge * (pydict string (list string) * pydict string (list string) * pydict string Z)) :=
  let '(s, r) := ps_snapshot_state tag (prune_spill st) in
  lens ← r;
  Ok (mkPM (_hi_out st) (_hi_in st) s,
      (clients_out (fmap node_str) (_hi_out st), clients_out (fmap node_str) (_hi_in st), lens)).

Definition clients_nodes (d : pydict string (list string)) : res (pydict uuid (pyset Node)) :=
  l ← mapR (λ e, c ← uuid_of_str e.1; ns ← mapR node_from_str e.2; Ok (c, set_of ns)) d; Ok (dict_of l).

Definition UC4Prune_restore_state (st : PruneMerge)
    (sn : pydict string (list string) * pydict string (list string) * pydict string Z) : res PruneMerge :=
  ho ← clients_nodes sn.1.1; hi ← clients_nodes sn.1.2;
  s ← ps_restore_state tag (prune_spill st) sn.2; Ok (mkPM ho hi s).

Definition UC4Prune_clear_stale_spill (st : PruneMerge) : PruneMerge :=
  mkPM (_hi_out st) (_hi_in st) (ps_clear_all tag (prune_spill st)).

Definition SPLIT_THRESHOLD : Z := 250000.
Definition PRUNE_CHUNK_SIZE : Z := 50000.

Definition UC4PruneMergeFn : MergeFn PruneMerge := {|
  left := UC4Prune_left;
  right := UC4Prune_right;
  merge_result := UC4Prune_get_result SPLIT_THRESHOLD PRUNE_CHUNK_SIZE;
  merge_discard := UC4Prune_discard
|}.
End merges.

(** ** Examples *)

Example strptime_ex :
  strptime "2022-09-01 00:20:07" = Ok (mkDT 2022 9 1 0 20 7) ∧
  strptime "2022-9- 1  0:20:7" = Ok (mkDT 2022 9 1 0 20 7) ∧
  strptime "2022-02-30 00:00:00" = Exc ValueError ∧ strptime "2022-09-01" = Exc ValueError ∧
  strptime "2022-09-01 00:20:60" = Exc ValueError.
Proof. by vm_compute. Qed.

Example chunk_side_ex : chunk_side 250000 1000000 1000000 = Ok 500 ∧ chunk_side 250000 1 1000000 = Ok 1 ∧
  chunk_side 250000 1000000 1 = Ok 500000.
Proof. by vm_compute. Qed.
