(* ===== verification/UC4Prune.v ===== *)
(** * Pruning and tiling keep the paths

    [UC4PruneMergeFn] restricts every node of the transfer graph to its
    predecessors and successors of high degree, groups the nodes in messages and
    splits the heavy ones into tiles. None of that changes how many times a path
    is counted downstream. *)

From S2P Require Import Prelude.
From S2P Require Import PyDict.
From S2P Require Import PyValues.
From S2P Require Import PyText.
From S2P Require Import PyTime.
From S2P Require Import PyFloat.
From S2P Require Import Wire.
From S2P Require Import PyRepr.
From S2P Require Import Messages.
From S2P Require Import GroupBy.
From S2P Require Import Spill.
From S2P Require Import SpillLog.
From S2P Require Import UC4.
From S2P Require Import UC4Paths.
From S2P Require Import MergeFns.
From S2P Require Import FloatBounds.

(** ** Chunks of a list *)

Lemma zsum_concat {A} (f : A → Z) (ls : list (list A)) :
  zsum (f <$> List.concat ls) = zsum ((λ l, zsum (f <$> l)) <$> ls).
Proof.
  induction ls as [|l ls IH]; [done|]. change (List.concat (l :: ls)) with (l ++ List.concat ls).
  rewrite fmap_app, zsum_app, IH. done.
Qed.

Lemma chunks_concat {A} fuel n (l : list A) :
  (0 < n)%nat → (length l ≤ fuel)%nat → List.concat (chunks fuel n l) = l.
Proof.
  intros Hn. revert l. induction fuel as [|fuel IH]; intros l Hl; destruct l as [|x l]; cbn in *; try done; try lia.
  rewrite IH; [apply take_drop|]. rewrite length_drop. cbn. lia.
Qed.

Lemma chunks_of_concat {A} n (l : list A) : 0 < n → List.concat (chunks_of n l) = l.
Proof. intros. apply chunks_concat; lia. Qed.

Lemma chunks_sublist {A} fuel n (l ch : list A) : ch ∈ chunks fuel n l → ch `sublist_of` l.
Proof.
  revert l. induction fuel as [|fuel IH]; intros [|x l]; cbn [chunks]; try by intros ?%not_elem_of_nil.
  intros [->|Hin]%elem_of_cons; [apply sublist_take|].
  etransitivity; [by apply IH|apply sublist_drop].
Qed.

Lemma chunk_side_pos threshold a b n : chunk_side threshold a b = Ok n → 0 < n.
Proof. unfold chunk_side. intros H. res_inv. lia. Qed.

(** ** The weight of a node *)

(** What the pair of a predecessor and a successor adds to the count of a path. *)
Definition pair_weight (p : Path) (a s : Node) : Z :=
  if decide (pyeq a s) then 0 else if decide (pyeq (mkPath a s) p) then 1 else 0.

Definition block_weight (p : Path) (preds succs : pyset Node) : Z :=
  zsum ((λ a, zsum ((λ s, pair_weight p a s) <$> succs)) <$> preds).

Lemma pairs_of_weight a succs p :
  total_at (pairs_of a succs) p = zsum ((λ s, pair_weight p a s) <$> succs).
Proof.
  unfold pairs_of. induction succs as [|s succs IH]; [done|].
  rewrite fmap_cons. change (zsum (?x :: ?r)) with (x + zsum r). rewrite <- IH. unfold pair_weight.
  destruct (decide (pyeq a s)) as [E|E].
  - rewrite filter_cons_False by tauto. lia.
  - rewrite filter_cons_True by done. rewrite fmap_cons, total_at_cons. done.
Qed.

Lemma node_pairs_weight preds succs p : total_at (node_pairs (preds, succs)) p = block_weight p preds succs.
Proof.
  unfold node_pairs, block_weight. rewrite total_at_concat, <- list_fmap_compose. cbn [fst snd].
  apply zsum_fmap_ext. intros a _. apply pairs_of_weight.
Qed.

Lemma graph_pairs_weight nodes p :
  total_at (graph_pairs nodes) p = zsum ((λ e, block_weight p e.2.1 e.2.2) <$> nodes).
Proof.
  unfold graph_pairs. rewrite total_at_concat, <- !list_fmap_compose.
  apply zsum_fmap_ext. intros [n [ps ss]] _. apply node_pairs_weight.
Qed.

(** ** Tiles *)

(** What the graphs of a result add to the count of a path. *)
Definition graph_weight (p : Path) (m : Body) : Z :=
  match m with Graph _ nodes => total_at (graph_pairs nodes) p | _ => 0 end.

Definition graphs_weight (out : list Body) (p : Path) : Z := zsum (graph_weight p <$> out).

Lemma graphs_weight_app out1 out2 p :
  graphs_weight (out1 ++ out2) p = graphs_weight out1 p + graphs_weight out2 p.
Proof. unfold graphs_weight. by rewrite fmap_app, zsum_app. Qed.

Lemma set_of_chunk (l ch : pyset Node) n : set_wf l → ch ∈ chunks_of n l → set_of ch = ch.
Proof.
  intros Hl Hin. apply set_of_id. unfold set_wf in *. eapply sublist_NoDup; [exact Hl|].
  apply fmap_sublist. by eapply chunks_sublist.
Qed.

Lemma one_node_weight c node preds succs p :
  graph_weight p (Graph c [(node, (preds, succs))]) = block_weight p preds succs.
Proof. cbn [graph_weight]. rewrite graph_pairs_weight.
  unfold zsum. cbn [fmap list_fmap foldr fst snd]. lia. Qed.

(** The tiles of a node count its paths: the blocks of the grid add up. *)
Lemma tiles_weight c node n m preds succs p :
  0 < n → 0 < m → set_wf preds → set_wf succs →
  graphs_weight (List.concat ((λ pchunk,
    (λ schunk, Graph c [(node, (set_of pchunk, set_of schunk))]) <$> chunks_of m succs)
      <$> chunks_of n preds)) p = block_weight p preds succs.
Proof.
  intros Hn Hm Hp Hs. unfold graphs_weight. rewrite zsum_concat, <- list_fmap_compose.
  unfold block_weight at 1. rewrite <- (chunks_of_concat n preds Hn) at 2. rewrite zsum_concat.
  apply zsum_fmap_ext. intros pc Hpc. unfold compose. rewrite <- list_fmap_compose.
  assert (E : ∀ sc, sc ∈ chunks_of m succs →
    (graph_weight p ∘ (λ schunk, Graph c [(node, (set_of pc, set_of schunk))])) sc = block_weight p pc sc).
  { intros sc Hsc. unfold compose. rewrite one_node_weight, (set_of_chunk preds pc n) by done.
    by rewrite (set_of_chunk succs sc m). }
  rewrite (zsum_fmap_ext _ _ _ E). clear E. unfold block_weight.
  rewrite (zsum_fmap_ext _ (λ a, zsum ((λ l, zsum ((λ s, pair_weight p a s) <$> l)) <$> chunks_of m succs)) pc).
  2: { intros a _. by rewrite <- zsum_concat, chunks_of_concat. }
  clear. induction pc as [|a pc IH]; [by apply zsum_fmap_zero|].
  rewrite fmap_cons. change (zsum (?x :: ?r)) with (x + zsum r). rewrite <- IH, <- zsum_fmap_add.
  by apply zsum_fmap_ext.
Qed.

(** Fubini: only the keys of the members of a block matter, not their order. *)
Lemma block_weight_keys p preds preds' succs succs' :
  key_of <$> preds ≡ₚ key_of <$> preds' → key_of <$> succs ≡ₚ key_of <$> succs' →
  block_weight p preds succs = block_weight p preds' succs'.
Proof.
  pose (w := λ a s : string, if decide (a = s) then 0 else if decide (a +:+ s = path_key p) then 1 else 0).
  assert (E : ∀ P S, block_weight p P S =
    zsum ((λ a, zsum ((λ s, w a s) <$> (key_of <$> S))) <$> (key_of <$> P))).
  { intros P S. unfold block_weight. rewrite <- list_fmap_compose. apply zsum_fmap_ext. intros a _.
    unfold compose. rewrite <- list_fmap_compose. done. }
  intros HP HS. rewrite !E. etransitivity; [apply zsum_perm, fmap_Permutation, HP|].
  apply zsum_fmap_ext. intros a _. apply zsum_perm. by rewrite HS.
Qed.

(** [s & t] has the members of either in the other, whichever it takes them from. *)
Lemma py_inter_keys s t : set_wf s → set_wf t → key_of <$> py_inter s t ≡ₚ key_of <$> sinter s t.
Proof.
  intros Hs Ht. unfold py_inter. destruct (_ <? _)%nat; [done|].
  assert (Hn : ∀ u v : pyset Node, set_wf u → NoDup (key_of <$> sinter u v)).
  { intros u v Hu. unfold sinter. eapply sublist_NoDup; [exact Hu|]. apply fmap_sublist, sublist_filter. }
  apply NoDup_Permutation; [by apply Hn..|]. intros k. rewrite !list_elem_of_fmap. unfold sinter. split.
  - intros (y & -> & Hy). apply list_elem_of_filter in Hy as [Hys Hyt].
    apply smem_spec, list_elem_of_fmap in Hys as (x & Hk & Hx). exists x. split; [done|].
    apply list_elem_of_filter. split; [|done]. apply smem_spec. rewrite <- Hk. by apply list_elem_of_fmap_2.
  - intros (y & -> & Hy). apply list_elem_of_filter in Hy as [Hys Hyt].
    apply smem_spec, list_elem_of_fmap in Hys as (x & Hk & Hx). exists x. split; [done|].
    apply list_elem_of_filter. split; [|done]. apply smem_spec. rewrite <- Hk. by apply list_elem_of_fmap_2.
Qed.

Lemma sinter_wf (s t : pyset Node) : set_wf s → set_wf (sinter s t).
Proof. intros Hs. unfold set_wf, sinter. eapply sublist_NoDup; [exact Hs|]. apply fmap_sublist, sublist_filter. Qed.

Lemma py_inter_wf s t : set_wf s → set_wf t → set_wf (py_inter s t).
Proof. unfold py_inter. destruct (_ <? _)%nat; by auto using sinter_wf. Qed.

(** ** A line of the spill *)

Definition prune_text (e : Node * (pyset Node * pyset Node)) : chars :=
  match prune_line e.1 e.2.1 e.2.2 with Ok t => t | Exc _ => [] end.

(** The nodes of an entry print and parse: no comma in their parts. *)
Definition entry_wf (e : Node * (pyset Node * pyset Node)) : Prop :=
  node_wf e.1 ∧ Forall node_wf e.2.1 ∧ Forall node_wf e.2.2 ∧ set_wf e.2.1 ∧ set_wf e.2.2.

Definition graph_fields (e : Node * (pyset Node * pyset Node)) : pyval :=
  PList [PStr (node_str e.1); PList ((λ m, PStr (node_str m)) <$> e.2.1); PList ((λ m, PStr (node_str m)) <$> e.2.2)].

Lemma strings_ok (l : pyset Node) : forallb json_ok ((λ m, PStr (node_str m)) <$> l) = true.
Proof. induction l as [|x l IH]; [done|]. exact IH. Qed.

Lemma graph_fields_ok e : json_ok (graph_fields e) = true.
Proof. unfold graph_fields. cbn. by rewrite !strings_ok. Qed.

Lemma dumps_nodes (l : pyset Node) : ∃ t, json_dumps (PList ((λ m, PStr (node_str m)) <$> l)) = Ok t.
Proof.
  rewrite json_dumps_list.
  rewrite (mapR_map json_dumps (λ m, PStr (node_str m)) (λ m, json_string (node_str m))) by done. eauto.
Qed.

Lemma dumps_string s : json_dumps (PStr s) = Ok (json_string s).
Proof. done. Qed.

Lemma prune_line_ok e : prune_line e.1 e.2.1 e.2.2 = Ok (prune_text e).
Proof.
  unfold prune_text. destruct (prune_line e.1 e.2.1 e.2.2) eqn:E; [done|]. exfalso.
  unfold prune_line, graph_line in E. rewrite json_dumps_list in E. cbn [mapR] in E.
  destruct (dumps_nodes e.2.1) as (t1 & E1), (dumps_nodes e.2.2) as (t2 & E2).
  rewrite dumps_string, E1, E2 in E. done.
Qed.

Lemma prune_text_clean e : clean (prune_text e).
Proof. eapply json_dumps_clean; [apply (graph_fields_ok e)|]. apply prune_line_ok. Qed.

Lemma rstrip_terminated t : clean t → rstrip_nl (terminated t) = t.
Proof.
  intros Ht. unfold rstrip_nl, terminated. rewrite reverse_app, reverse_singleton. cbn [app lstrip_nl].
  rewrite bool_decide_eq_true_2 by done.
  destruct (reverse t) as [|c r] eqn:E.
  - apply (f_equal reverse) in E. rewrite reverse_involutive in E. by subst.
  - assert (Hc : c ≠ c_newline).
    { assert (c ∈ t) by (rewrite <- elem_of_reverse, E; left). unfold clean in Ht.
      rewrite Forall_forall in Ht. by apply Ht. }
    cbn [lstrip_nl]. rewrite bool_decide_eq_false_2 by done. by rewrite <- E, reverse_involutive.
Qed.

Lemma node_set_of_strings (fs : list pyval) i (l : pyset Node) :
  fs !! i = Some (PList ((λ m, PStr (node_str m)) <$> l)) → Forall node_wf l → set_wf l →
  node_set_field fs i = Ok l.
Proof.
  intros Hf Hl Hs. unfold node_set_field, py_nth. rewrite Hf. cbn [of_opt mbind res_bind py_iter].
  rewrite (mapR_map _ _ id).
  - cbn. by rewrite list_fmap_id, set_of_id.
  - intros n Hn. cbn. apply node_from_str_str. rewrite Forall_forall in Hl. by apply Hl.
Qed.

Lemma prune_of_line_text e : entry_wf e → prune_of_line (terminated (prune_text e)) = Ok e.
Proof.
  intros (Hn & Hp & Hs & Hwp & Hws). unfold prune_of_line. rewrite rstrip_terminated by apply prune_text_clean.
  unfold graph_of_line, json_fields.
  rewrite (json_loads_dumps _ _ (graph_fields_ok e) (prune_line_ok e)).
  unfold graph_fields. cbn [jnorm]. cbn [py_iter mbind res_bind].
  assert (Ej : ∀ l : pyset Node, jnorm <$> ((λ m, PStr (node_str m)) <$> l) = (λ m, PStr (node_str m)) <$> l)
    by (intros l; by rewrite <- list_fmap_compose).
  rewrite !fmap_cons, fmap_nil. cbn [jnorm]. rewrite !Ej. unfold py_nth at 1. cbn [lookup list_lookup of_opt mbind res_bind as_str].
  rewrite node_from_str_str by done. cbn [mbind res_bind].
  rewrite (node_set_of_strings _ 1 e.2.1), (node_set_of_strings _ 2 e.2.2) by done. cbn [mbind res_bind].
  by destruct e as [n [ps ss]].
Qed.

(** ** The batches *)

Lemma salted_tiles_weight threshold c node preds succs p :
  0 < threshold → set_wf preds → set_wf succs → preds ≠ [] → succs ≠ [] →
  threshold * Z.of_nat (length preds) < 2 ^ 53 → threshold * Z.of_nat (length succs) < 2 ^ 53 →
  ∃ out, salted_tiles threshold c node preds succs = Ok out ∧
    (∀ m, m ∈ out → ∃ nodes, m = Graph c nodes) ∧ graphs_weight out p = block_weight p preds succs.
Proof.
  intros Hth Hp Hs Hnp Hns Hlp Hls.
  assert (Hp0 : 0 < Z.of_nat (length preds)) by (destruct preds; cbn; [done|lia]).
  assert (Hs0 : 0 < Z.of_nat (length succs)) by (destruct succs; cbn; [done|lia]).
  assert (Hside : ∀ a b, 0 < a → 0 < b → threshold * a < 2 ^ 53 → threshold * b < 2 ^ 53 →
    ∃ n, chunk_side threshold a b = Ok n ∧ 0 < n).
  { intros a b Ha Hb Hta Htb.
    destruct (sqrt_quotient_trunc (threshold * a) b) as (q & n & Eq & En); [nia|nia|].
    unfold chunk_side. rewrite Eq. cbn [mbind res_bind]. rewrite En. cbn [mbind res_bind].
    eexists. split; [reflexivity|lia]. }
  destruct (Hside _ _ Hp0 Hs0 Hlp Hls) as (n & En & Hn), (Hside _ _ Hs0 Hp0 Hls Hlp) as (m & Em & Hm).
  unfold salted_tiles. cbn zeta. rewrite En, Em. cbn [mbind res_bind]. eexists. split_and!; [reflexivity| |].
  - intros x Hx. apply elem_concat in Hx as (l & Hl & Hx). apply list_elem_of_fmap in Hl as (pc & -> & _).
    apply list_elem_of_fmap in Hx as (sc & -> & _). eauto.
  - by apply tiles_weight.
Qed.

(** What is left of a node after pruning. *)
Definition pruned_weight (p : Path) (hi_out hi_in : pyset Node) (e : Node * (pyset Node * pyset Node)) : Z :=
  block_weight p (sinter e.2.1 hi_out) (sinter e.2.2 hi_in).

Lemma py_inter_length s t : set_wf s → set_wf t → (length (py_inter s t) ≤ length s)%nat.
Proof.
  intros Hs Ht. pose proof (Permutation_length (py_inter_keys s t Hs Ht)) as E. rewrite !length_fmap in E.
  rewrite E. unfold sinter. apply length_filter.
Qed.

Lemma block_weight_nil_l p succs : block_weight p [] succs = 0.
Proof. done. Qed.

Lemma block_weight_nil_r p preds : block_weight p preds [] = 0.
Proof. unfold block_weight. by apply zsum_fmap_zero. Qed.

Lemma graph_cons_weight c nodes p out :
  graphs_weight (Graph c nodes :: out) p = total_at (graph_pairs nodes) p + graphs_weight out p.
Proof. done. Qed.

Lemma dset_pairs (batch : graph_nodes) node ps p :
  dget batch node = None →
  total_at (graph_pairs (dset batch node ps)) p = total_at (graph_pairs batch) p + block_weight p ps.1 ps.2.
Proof.
  intros Hn. rewrite dset_append by done. rewrite !graph_pairs_weight, fmap_app, zsum_app.
  unfold zsum at 2. cbn [fmap list_fmap foldr fst snd]. lia.
Qed.

Definition sized (threshold : Z) (e : Node * (pyset Node * pyset Node)) : Prop :=
  threshold * Z.of_nat (length e.2.1) < 2 ^ 53 ∧ threshold * Z.of_nat (length e.2.2) < 2 ^ 53.

Lemma prune_batches_weight threshold chunk_size c hi_out hi_in p (es : list (Node * (pyset Node * pyset Node))) :
  0 < threshold → set_wf hi_out → set_wf hi_in → Forall entry_wf es → Forall (sized threshold) es →
  ∀ batch size, NoDup (key_of <$> (dkeys batch ++ es.*1)) →
  ∃ out, prune_batches threshold chunk_size c hi_out hi_in batch size (terminated <$> (prune_text <$> es)) = Ok out ∧
    (∀ m, m ∈ out → ∃ nodes, m = Graph c nodes) ∧
    graphs_weight out p = total_at (graph_pairs batch) p + zsum (pruned_weight p hi_out hi_in <$> es).
Proof.
  intros Hth Hho Hhi. induction es as [|e es IH]; intros Hwf Hsz batch size Hnd.
  - destruct batch as [|b batch].
    + exists []. split_and!; [done|by intros m ?%not_elem_of_nil|done].
    + exists [Graph c (b :: batch)]. split_and!; [done|intros m ->%list_elem_of_singleton; eauto|].
      rewrite graph_cons_weight. done.
  - apply Forall_cons in Hwf as [He Hwf]. apply Forall_cons in Hsz as [[Hs1 Hs2] Hsz].
    rewrite !fmap_cons. cbn [prune_batches]. rewrite prune_of_line_text by done. cbn [mbind res_bind].
    destruct e as [node [preds succs]]. cbn [fst snd] in *. destruct He as (_ & _ & _ & Hwp & Hws). cbn [fst snd] in *.
    pose proof (py_inter_wf preds hi_out Hwp Hho) as Hw1. pose proof (py_inter_wf succs hi_in Hws Hhi) as Hw2.
    pose proof (py_inter_length preds hi_out Hwp Hho) as Hl1. pose proof (py_inter_length succs hi_in Hws Hhi) as Hl2.
    assert (Hwt : pruned_weight p hi_out hi_in (node, (preds, succs)) =
      block_weight p (py_inter preds hi_out) (py_inter succs hi_in)).
    { symmetry. by apply block_weight_keys; apply py_inter_keys. }
    rewrite fmap_app, !fmap_cons in Hnd.
    assert (Hnd' : NoDup (key_of <$> (dkeys batch ++ es.*1))).
    { rewrite fmap_app. eapply sublist_NoDup; [exact Hnd|]. apply sublist_app; [done|by apply sublist_cons]. }
    change (zsum (?x :: ?r)) with (x + zsum r). rewrite Hwt. cbn zeta.
    set (P := py_inter preds hi_out) in *. set (S := py_inter succs hi_in) in *.
    destruct (Z.of_nat (length P) =? 0) eqn:EP; cbn [orb].
    { apply Z.eqb_eq in EP. destruct P; [|done]. rewrite block_weight_nil_l, Z.add_0_l. by apply IH. }
    destruct (Z.of_nat (length S) =? 0) eqn:ES; cbn [orb].
    { apply Z.eqb_eq in ES. destruct S; [|done]. rewrite block_weight_nil_r, Z.add_0_l. by apply IH. }
    apply Z.eqb_neq in EP, ES.
    destruct (threshold <? _).
    + destruct (salted_tiles_weight threshold c node P S p) as (tiles & Et & Hgt & Hwtt); try done.
      { by intros ->. } { by intros ->. } { nia. } { nia. }
      destruct (IH Hwf Hsz batch size Hnd') as (out & Eo & Hgo & Hwo).
      rewrite Et. cbn [mbind res_bind]. rewrite Eo. cbn [mbind res_bind]. exists (tiles ++ out). split_and!; [done| |].
      * intros m [Hm|Hm]%elem_of_app; [by apply Hgt|by apply Hgo].
      * rewrite graphs_weight_app, Hwtt, Hwo. lia.
    + assert (Hfresh : dget batch node = None).
      { apply dget_None. apply NoDup_app in Hnd as (_ & Hd & _). intros Hin. apply (Hd _ Hin). left. }
      pose proof (dset_pairs batch node (P, S) p Hfresh) as Hset. cbn [fst snd] in Hset.
      destruct (chunk_size <=? _).
      * destruct (IH Hwf Hsz [] 0) as (out & Eo & Hgo & Hwo).
        { eapply sublist_NoDup; [exact Hnd'|]. apply fmap_sublist, sublist_inserts_l. done. }
        rewrite Eo. cbn [mbind res_bind]. eexists. split_and!; [reflexivity| |].
        -- intros m [->|Hm]%elem_of_cons; [eauto|by apply Hgo].
        -- rewrite graph_cons_weight, Hwo, Hset. change (total_at (graph_pairs []) p) with 0. lia.
      * destruct (IH Hwf Hsz (dset batch node (P, S)) (size + (Z.of_nat (length P) + Z.of_nat (length S))))
          as (out & Eo & Hgo & Hwo).
        { rewrite dset_append by done. unfold dkeys. rewrite !fmap_app, <- app_assoc. exact Hnd. }
        exists out. split_and!; [exact Eo|done|]. rewrite Hwo, Hset. lia.
Qed.

(** Pruning and tiling bring in no new node: what holds of the nodes received holds
    of those sent. *)
Section members.
Context (V : Node → Prop).

Definition members (e : Node * (pyset Node * pyset Node)) : Prop := V e.1 ∧ Forall V e.2.1 ∧ Forall V e.2.2.
Definition sent_members (c : uuid) (m : Body) : Prop := ∃ nodes, m = Graph c nodes ∧ ∀ e, e ∈ nodes → members e.

Lemma py_inter_Forall s t : Forall V s → Forall V t → Forall V (py_inter s t).
Proof.
  intros Hs Ht. assert (H : ∀ u v : pyset Node, Forall V u → Forall V (sinter u v)); [|unfold py_inter; destruct (_ <? _)%nat; by apply H].
  intros u v Hu. apply Forall_forall. intros x [_ Hx]%list_elem_of_filter. rewrite Forall_forall in Hu. by apply Hu.
Qed.

Lemma set_of_Forall (l : list Node) : Forall V l → Forall V (set_of l).
Proof.
  intros Hl. unfold set_of. assert (H : ∀ s : pyset Node, Forall V s → Forall V (supdate s l)); [|by apply H].
  induction Hl as [|x l Hx _ IH]; intros s Hs; [done|]. apply IH. unfold sadd. destruct (smem x s); [done|].
  apply Forall_app. by split; [|constructor].
Qed.

Lemma salted_tiles_members threshold c node preds succs out : V node → Forall V preds → Forall V succs →
  salted_tiles threshold c node preds succs = Ok out → ∀ m, m ∈ out → sent_members c m.
Proof.
  intros Hn Hp Hs.
  assert (Hsub : ∀ ch l : list Node, ch `sublist_of` l → Forall V l → Forall V ch).
  { intros ch l Hch. rewrite !Forall_forall. intros Hl x Hx. by apply Hl, (sublist_subseteq _ _ Hch). }
  unfold salted_tiles. cbn zeta. intros E. res_inv. intros m (l & Hl & Hm)%elem_concat.
  apply list_elem_of_fmap in Hl as (pc & -> & Hpc). apply list_elem_of_fmap in Hm as (sc & -> & Hsc).
  eexists. split; [reflexivity|]. intros e ->%list_elem_of_singleton. apply chunks_sublist in Hpc, Hsc.
  split_and!; [done|apply set_of_Forall, (Hsub _ _ Hpc Hp)|apply set_of_Forall, (Hsub _ _ Hsc Hs)].
Qed.

Lemma dset_members (batch : graph_nodes) n ps : (∀ e, e ∈ batch → members e) → members (n, ps) →
  ∀ e, e ∈ dset batch n ps → members e.
Proof.
  intros Hb Hn. induction batch as [|[k v] batch IH]; cbn [dset].
  - by intros e ->%list_elem_of_singleton.
  - case_decide; intros e [->|He]%elem_of_cons.
    + destruct (Hb (k, v)) as [Hk _]; [left|]. destruct Hn as [_ Hn]. by split.
    + apply Hb. by right.
    + apply Hb. left.
    + apply IH; [|done]. intros e' He'. apply Hb. by right.
Qed.

Lemma prune_batches_members threshold chunk_size c hi_out hi_in es :
  Forall V hi_out → Forall V hi_in → Forall entry_wf es → (∀ e, e ∈ es → members e) →
  ∀ batch size out, (∀ e, e ∈ batch → members e) →
  prune_batches threshold chunk_size c hi_out hi_in batch size (terminated <$> (prune_text <$> es)) = Ok out →
  ∀ m, m ∈ out → sent_members c m.
Proof.
  intros Hho Hhi. induction es as [|e es IH]; intros Hwf Hes batch size out Hb.
  - cbn. intros [= <-] m. destruct batch as [|b batch]; [by intros ?%not_elem_of_nil|]. intros ->%list_elem_of_singleton. by eexists.
  - apply Forall_cons in Hwf as [He Hwf]. rewrite !fmap_cons. cbn [prune_batches]. rewrite prune_of_line_text by done.
    destruct (Hes e) as (Hn & Hp & Hs); [left|]. destruct e as [node [preds succs]]. cbn [fst snd mbind res_bind] in *.
    specialize (IH Hwf (λ e' H, Hes e' (list_elem_of_further _ _ _ H))). cbn zeta.
    pose proof (py_inter_Forall preds hi_out Hp Hho) as HP. pose proof (py_inter_Forall succs hi_in Hs Hhi) as HS.
    destruct (_ || _); [by apply IH|]. destruct (threshold <? _).
    + intros E. res_inv. intros m [Hm|Hm]%elem_of_app; [eapply salted_tiles_members; [exact Hn|exact HP|exact HS|eassumption|exact Hm]|eapply IH; [exact Hb|eassumption|exact Hm]].
    + assert (Hb' : ∀ e, e ∈ dset batch node (py_inter preds hi_out, py_inter succs hi_in) → members e) by (by apply dset_members).
      destruct (chunk_size <=? _).
      * intros E. res_inv. intros m [->|Hm]%elem_of_cons; [by eexists|]. eapply (IH [] 0); [by intros e ?%not_elem_of_nil|eassumption|exact Hm].
      * by apply IH.
Qed.
End members.

(** ** The pruning node *)

(** What happens to it: either side's message, or a checkpoint. *)
Inductive prune_event :=
  | PruneLeft (c : uuid) (hi_out hi_in : pyset Node)
  | PruneRight (c : uuid) (nodes : graph_nodes)
  | PruneCheckpoint.

Definition prune_step (tag : string) (st : PruneMerge) (e : prune_event) : res PruneMerge :=
  match e with
  | PruneLeft c hi_out hi_in => UC4Prune_left st (HighDegree c hi_out hi_in)
  | PruneRight c nodes => UC4Prune_right tag st (Graph c nodes)
  | PruneCheckpoint => '(st, _) ← UC4Prune_snapshot_state tag st; Ok st
  end.

Definition prune_init : PruneMerge := mkPM [] [] (spill_init []).

(** All that a client's messages carry. *)
Definition left_out (c : uuid) (es : list prune_event) : list Node :=
  List.concat ((λ e, match e with PruneLeft c' ho _ => if decide (c' = c) then ho else [] | _ => [] end) <$> es).
Definition left_in (c : uuid) (es : list prune_event) : list Node :=
  List.concat ((λ e, match e with PruneLeft c' _ hi => if decide (c' = c) then hi else [] | _ => [] end) <$> es).
Definition right_nodes (c : uuid) (es : list prune_event) : graph_nodes :=
  List.concat ((λ e, match e with PruneRight c' nodes => if decide (c' = c) then nodes else [] | _ => [] end) <$> es).

Section prune_node.
Context (tag : string).

Record pruned (st : PruneMerge) (W : list (uuid * (Node * (pyset Node * pyset Node)))) (es : list prune_event)
    : Prop := {
  p_log : client_log prune_text tag (prune_spill st) W;
  p_out : ∀ c, dget_or [] (_hi_out st) c = set_of (left_out c es);
  p_in : ∀ c, dget_or [] (_hi_in st) c = set_of (left_in c es);
  p_nodes : ∀ c, (filter (λ e, e.1 = c) W).*2 = right_nodes c es
}.

Lemma left_out_snoc c es e : left_out c (es ++ [e]) = left_out c es ++ left_out c [e].
Proof. unfold left_out. by rewrite fmap_app, List.concat_app. Qed.
Lemma left_in_snoc c es e : left_in c (es ++ [e]) = left_in c es ++ left_in c [e].
Proof. unfold left_in. by rewrite fmap_app, List.concat_app. Qed.
Lemma right_nodes_snoc c es e : right_nodes c (es ++ [e]) = right_nodes c es ++ right_nodes c [e].
Proof. unfold right_nodes. by rewrite fmap_app, List.concat_app. Qed.

Lemma set_of_app (l1 l2 : list Node) : set_of (l1 ++ l2) = supdate (set_of l1) l2.
Proof. unfold set_of, supdate. apply foldl_app. Qed.

Lemma append_node_ok c s e :
  append_node tag c s e = Ok (ps_append tag s c (terminated (prune_text e))) ∧ clean (prune_text e).
Proof. unfold append_node. rewrite prune_line_ok. split; [done|apply prune_text_clean]. Qed.

Lemma concat_one {A} (l : list A) : List.concat [l] = l.
Proof. apply app_nil_r. Qed.

Lemma prune_step_pruned st W es e :
  pruned st W es → ∃ st' W', prune_step tag st e = Ok st' ∧ pruned st' W' (es ++ [e]).
Proof.
  intros [Hl Ho Hi Hn]. destruct e as [c ho hi|c nodes|]; cbn [prune_step].
  - eexists _, W. split; [reflexivity|]. split; cbn [prune_spill _hi_out _hi_in]; [done| | |]; intros c'.
    + rewrite left_out_snoc, set_of_app, <- Ho, dget_or_dset_client. unfold left_out. cbn [fmap list_fmap].
      rewrite concat_one. by destruct (decide (c = c')) as [->|].
    + rewrite left_in_snoc, set_of_app, <- Hi, dget_or_dset_client. unfold left_in. cbn [fmap list_fmap].
      rewrite concat_one. by destruct (decide (c = c')) as [->|].
    + rewrite right_nodes_snoc, Hn. by rewrite app_nil_r.
  - destruct (client_log_all prune_text tag (append_node tag c) c nodes (λ s e _, append_node_ok c s e) _ _ Hl)
      as (s' & E & Hl'). unfold UC4Prune_right. rewrite E.
    cbn [mbind res_bind]. eexists _, _. split; [reflexivity|]. split; cbn [prune_spill _hi_out _hi_in]; [exact Hl'| | |]; intros c'.
    + rewrite left_out_snoc, Ho. by rewrite app_nil_r.
    + rewrite left_in_snoc, Hi. by rewrite app_nil_r.
    + rewrite filter_app, fmap_app, Hn, right_nodes_snoc, filter_client. 
      unfold right_nodes at 3. cbn [fmap list_fmap]. by rewrite concat_one.
  - destruct (logged_ps_snapshot tag _ _ Hl) as (s' & sn & E & Hl'). unfold UC4Prune_snapshot_state. rewrite E.
    cbn [mbind res_bind]. eexists _, W. split; [reflexivity|].
    split; cbn [prune_spill _hi_out _hi_in]; [done| | |]; intros c'.
    + rewrite left_out_snoc, Ho. by rewrite app_nil_r.
    + rewrite left_in_snoc, Hi. by rewrite app_nil_r.
    + rewrite right_nodes_snoc, Hn. by rewrite app_nil_r.
Qed.

Lemma prune_run_pruned es : ∃ st W, foldR (prune_step tag) prune_init es = Ok st ∧ pruned st W es.
Proof.
  induction es as [|e es IH] using rev_ind.
  - exists prune_init, []. split; [done|]. split; [apply client_log_init|done..].
  - destruct IH as (st & W & E & Hp). destruct (prune_step_pruned st W es e Hp) as (st' & W' & E' & Hp').
    exists st', W'. split; [|done]. by rewrite foldR_app, E; cbn [mbind res_bind foldR]; rewrite E'.
Qed.

End prune_node.

(** The result of a client. *)
Lemma prune_report (tag : string) (threshold chunk_size : Z) (c : uuid) (es : list prune_event) (V : Node → Prop) :
  0 < threshold → NoDup (key_of <$> (right_nodes c es).*1) → Forall entry_wf (right_nodes c es) →
  Forall (sized threshold) (right_nodes c es) →
  Forall V (left_out c es) → Forall V (left_in c es) → (∀ e, e ∈ right_nodes c es → members V e) →
  ∃ st st' out, foldR (prune_step tag) prune_init es = Ok st ∧
    UC4Prune_get_result tag threshold chunk_size st c = Ok (st', out) ∧
    (∀ m, m ∈ out → sent_members V c m) ∧
    ∀ p, graphs_weight out p =
      zsum (pruned_weight p (set_of (left_out c es)) (set_of (left_in c es)) <$> right_nodes c es).
Proof.
  intros Hth Hdistinct Hprint Hsized HVo HVi HV.
  destruct (prune_run_pruned tag es) as (st & W & E & [Hl Ho Hi Hn]).
  destruct (client_log_iter prune_text tag (prune_spill st) W c Hl) as (s' & Es & _). rewrite Hn in Es.
  assert (Hb : ∀ p, ∃ out, prune_batches threshold chunk_size c (set_of (left_out c es)) (set_of (left_in c es)) [] 0
      (terminated <$> (prune_text <$> right_nodes c es)) = Ok out ∧
    (∀ m, m ∈ out → ∃ nodes, m = Graph c nodes) ∧
    graphs_weight out p = zsum (pruned_weight p (set_of (left_out c es)) (set_of (left_in c es)) <$> right_nodes c es)).
  { intros p. apply prune_batches_weight; try done; apply set_of_wf. }
  destruct (Hb (mkPath (mkNode "" "") (mkNode "" ""))) as (out & Eo & _ & _).
  eexists st, _, out. split_and!; [done| | |].
  - unfold UC4Prune_get_result. cbn zeta. rewrite Es, Ho, Hi, Eo. reflexivity.
  - eapply prune_batches_members; [by apply set_of_Forall, HVo|by apply set_of_Forall, HVi|done|done| |exact Eo].
    by intros e ?%not_elem_of_nil.
  - intros p. destruct (Hb p) as (out' & Eo' & _ & Hp). rewrite Eo in Eo'. by injection Eo' as <-.
Qed.

(** Pruning and tiling change no count of a path between nodes of high degree:
    for any interleaving of the two sides' messages and of checkpoints, any
    splitting threshold and any chunk size, every message of the result is a
    graph of the client, and the pairs around the nodes of those graphs give a
    path the same count as the pairs around the nodes received, restricted to the
    predecessors and successors of high degree. The nodes of a client's graphs
    are distinct (each comes from the one shard that owns it), print and parse,
    and have fewer than [2^53 / threshold] neighbours (the tile sides are
    computed in floating point). *)
Theorem uc4_prune_keeps_paths (tag : string) (threshold chunk_size : Z) (c : uuid) (es : list prune_event)
    (Hth : 0 < threshold)
    (Hdistinct : NoDup (key_of <$> (right_nodes c es).*1))
    (Hprint : Forall entry_wf (right_nodes c es))
    (Hsized : Forall (sized threshold) (right_nodes c es)) :
  ∃ st st' out, foldR (prune_step tag) prune_init es = Ok st ∧
    UC4Prune_get_result tag threshold chunk_size st c = Ok (st', out) ∧
    (∀ m, m ∈ out → ∃ nodes, m = Graph c nodes) ∧
    ∀ p, graphs_weight out p =
      zsum (pruned_weight p (set_of (left_out c es)) (set_of (left_in c es)) <$> right_nodes c es).
Proof.
  destruct (prune_report tag threshold chunk_size c es (λ _, True)) as (st & st' & out & E & Eg & Hm & Hw); try done;
    [by apply Forall_true..|intros e _; split_and!; [done|by apply Forall_true..]|].
  exists st, st', out. split_and!; [done..| |done]. intros m (nodes & -> & _)%Hm. by exists nodes.
Qed.

(** A hub with two predecessors and three successors, split in tiles by a
    threshold of three; one of the predecessors is not of high degree. *)
Lemma uc4_prune_keeps_paths_witness :
  let node a := mkNode "1" a in
  let c := uuid_lit 4 in
  let es := [PruneRight c [(node "X", ([node "A"; node "B"; node "C"], [node "D"; node "E"]))]; PruneCheckpoint;
             PruneLeft c [node "A"; node "B"] [node "D"; node "E"]]%string in
  (0 < 3 ∧ NoDup (key_of <$> (right_nodes c es).*1) ∧ Forall entry_wf (right_nodes c es) ∧
   Forall (sized 3) (right_nodes c es)) ∧
  ∃ st st' out, foldR (prune_step "uc4") prune_init es = Ok st ∧
    UC4Prune_get_result "uc4" 3 10 st c = Ok (st', out) ∧
    (∀ m, m ∈ out → ∃ nodes, m = Graph c nodes) ∧
    ∀ p, graphs_weight out p =
      zsum (pruned_weight p (set_of (left_out c es)) (set_of (left_in c es)) <$> right_nodes c es).
Proof.
  cbv zeta.
  match goal with |- (_ ∧ ?A ∧ ?B ∧ ?C) ∧ _ => assert (HA : A); [|assert (HB : B); [|assert (HC : C)]] end.
  - vm_compute. apply NoDup_singleton.
  - repeat constructor; vm_compute; try (apply bool_decide_unpack; vm_compute; exact I); set_solver.
  - repeat constructor.
  - split; [by repeat split|]. apply (uc4_prune_keeps_paths "uc4" 3 10); [lia|exact HA|exact HB|exact HC].
Defined.
