(* ===== verification/ShardLog.v ===== *)
(** * What the files of a client's shards hold

    The log of a [MultiShardSpill] whose lines are the texts of items, each appended
    to the shard of its key, and the splitting of a dict into groups by affinity:
    what the UC4 aggregates share. *)

From S2P Require Import Prelude.
From S2P Require Import PyDict.
From S2P Require Import PyValues.
From S2P Require Import PyText.
From S2P Require Import Wire.
From S2P Require Import Messages.
From S2P Require Import GroupBy.
From S2P Require Import Spill.
From S2P Require Import SpillLog.
From S2P Require Import UC4.

(** ** The log *)

Section shard_log.
Context {A : Type} (text : uuid → A → chars) (tag : string) (P : A → Prop).
Hypothesis text_clean : ∀ c a, P a → clean (text c a).

(** The items spilled, with their file. *)
Abbreviation items := (list ((uuid * Z) * A)).
Implicit Types (W : items) (c : uuid) (s : MultiShardSpill).

Definition shard_enc (e : (uuid * Z) * A) : (uuid * Z) * chars := (e.1, text e.1.1 e.2).
Definition shard_log s W : Prop := logged (ms_path tag) s (shard_enc <$> W) ∧ ∀ e, e ∈ W → P e.2.
Definition client_items c W : list A := (filter (λ e, e.1.1 = c) W).*2.
Definition at_shard c shard W : list A := (filter (λ e, e.1 = (c, shard)) W).*2.

Lemma shard_log_init : shard_log (spill_init []) [].
Proof. split; [apply logged_init|by intros e ?%not_elem_of_nil]. Qed.

Lemma client_items_app c W1 W2 : client_items c (W1 ++ W2) = client_items c W1 ++ client_items c W2.
Proof. unfold client_items. by rewrite filter_app, fmap_app. Qed.

Lemma client_items_elem c W x : x ∈ client_items c W ↔ ∃ shard, ((c, shard), x) ∈ W.
Proof.
  unfold client_items. rewrite list_elem_of_fmap. split.
  - intros ([[c' shard] y] & -> & [Hc Hin]%list_elem_of_filter). cbn in Hc. subst. by exists shard.
  - intros [shard Hin]. exists ((c, shard), x). split; [done|]. by apply list_elem_of_filter.
Qed.

Lemma at_shard_elem c shard W x : x ∈ at_shard c shard W ↔ ((c, shard), x) ∈ W.
Proof.
  unfold at_shard. rewrite list_elem_of_fmap. split.
  - intros ([k y] & -> & [Hc Hin]%list_elem_of_filter). cbn in *. by subst.
  - intros Hin. exists ((c, shard), x). split; [done|]. by apply list_elem_of_filter.
Qed.

Lemma shard_log_append s W c shard x :
  shard_log s W → P x → shard_log (ms_append tag s c shard (terminated (text c x))) (W ++ [((c, shard), x)]).
Proof.
  intros [Hl HP] Hx. split.
  - rewrite fmap_app. apply (logged_append _ (ms_path_inj tag)); [done|by apply text_clean].
  - intros e [He|He%list_elem_of_singleton]%elem_of_app; [by apply HP|by subst].
Qed.

(** Appending the items of a list one by one. *)
Lemma shard_log_appends {B} (f : MultiShardSpill → B → res MultiShardSpill) (conv : B → A) (shard : B → Z) c (l : list B) :
  (∀ s b, b ∈ l → f s b = Ok (ms_append tag s c (shard b) (terminated (text c (conv b)))) ∧ P (conv b)) →
  ∀ s W, shard_log s W → ∃ s', foldR f s l = Ok s' ∧ shard_log s' (W ++ ((λ b, ((c, shard b), conv b)) <$> l)).
Proof.
  induction l as [|b l IH]; intros Hf s W Hl; [exists s; by rewrite app_nil_r|].
  destruct (Hf s b (list_elem_of_here _ _)) as [E Hb]. cbn [foldR]. rewrite E. cbn [mbind res_bind].
  destruct (IH (λ s y Hy, Hf s y (list_elem_of_further _ _ _ Hy)) _ _ (shard_log_append s W c (shard b) (conv b) Hl Hb))
    as (s' & E' & Hl'). exists s'. split; [exact E'|]. by rewrite <- app_assoc in Hl'.
Qed.

Lemma lines_at_shard W c shard : lines_at (shard_enc <$> W) (c, shard) = text c <$> at_shard c shard W.
Proof.
  unfold lines_at, at_shard. induction W as [|[k e] W IH]; [done|].
  rewrite fmap_cons, !filter_cons. cbn [shard_enc fst snd].
  destruct (decide (pyeq k (c, shard))) as [Hk|Hk], (decide (k = (c, shard))) as [Hk'|Hk'].
  - subst k. cbn [fst]. rewrite !fmap_cons. by f_equal.
  - destruct Hk'. destruct k as [c' n]. injection Hk as E1 E2. cbn in E1, E2. unfold id in *. by subst.
  - by destruct Hk; subst.
  - done.
Qed.

Lemma read_shard_items s W c shard s' lines :
  shard_log s W → ms_read_shard tag s c shard = (s', lines) →
  shard_log s' W ∧ lines = terminated <$> (text c <$> at_shard c shard W).
Proof.
  intros [Hl HP] [= <- <-].
  pose proof (logged_close (ms_path tag) (ms_path_inj tag) s _ (c, shard) Hl) as Hl'. split; [done|].
  rewrite (logged_read (ms_path tag) _ _ (c, shard) Hl').
  - by rewrite lines_at_shard.
  - rewrite close_handles by apply Hl. by rewrite decide_True.
Qed.

Lemma shards_of_items s W c shard x : shard_log s W → ((c, shard), x) ∈ W → shard ∈ ms_shards_of tag s c.
Proof.
  intros [Hl _] Hx. apply ms_shards_complete.
  apply (logged_there (ms_path tag) s (shard_enc <$> W) (c, shard) (text c x) Hl).
  rewrite lines_at_shard. apply list_elem_of_fmap. exists x. split; [done|]. by apply at_shard_elem.
Qed.

Lemma snapshot_items s W : shard_log s W → ∃ s' sn, ms_snapshot_state tag s = (s', Ok sn) ∧ shard_log s' W.
Proof.
  intros [Hl HP]. destruct (logged_snapshot tag s _ Hl) as (s' & sn & E & Hl'). by exists s', sn.
Qed.
End shard_log.

(** ** Groups by affinity *)

Section groups.
Context {K V : Type} `{!PyKey K}.

(** All the entries of the groups, with their affinity. *)
Definition flat {W} (groups : pydict Z (list W)) : list (Z * W) :=
  List.concat ((λ g : Z * list W, (λ e : W, (g.1, e)) <$> g.2) <$> groups).

Lemma flat_elem {W} (groups : pydict Z (list W)) a e : (a, e) ∈ flat groups ↔ ∃ g, (a, g) ∈ groups ∧ e ∈ g.
Proof.
  unfold flat. rewrite elem_concat. split.
  - intros (l & ([a' g] & -> & Hin)%list_elem_of_fmap & (e' & [= -> ->] & He)%list_elem_of_fmap). by exists g.
  - intros (g & Hin & He). eexists. split; [apply list_elem_of_fmap; by exists (a, g)|]. apply list_elem_of_fmap. by exists e.
Qed.

(** The loop over the groups is a loop over their entries. *)
Lemma foldR_flat {S W} (f : Z → S → W → res S) (groups : pydict Z (list W)) : ∀ s,
  foldR (λ s g, foldR (f g.1) s g.2) s groups = foldR (λ s x, f x.1 s x.2) s (flat groups).
Proof.
  induction groups as [|[a g] groups IH]; intros s; [done|]. cbn [foldR].
  change (flat ((a, g) :: groups)) with (((λ e, (a, e)) <$> g) ++ flat groups). rewrite foldR_app.
  assert (E : ∀ s, foldR (λ s x, f x.1 s x.2) s ((λ e, (a, e)) <$> g) = foldR (f a) s g).
  { clear. induction g as [|e g IH]; intros s; [done|]. rewrite fmap_cons. cbn [foldR fst snd].
    destruct (f a s e); [apply IH|done]. }
  rewrite E. cbn [fst snd]. destruct (foldR (f a) s g); [apply IH|done].
Qed.

(** Adding an entry to its group. *)
Lemma flat_dset {W} (groups : pydict Z (list W)) a x :
  flat (dset groups a (dget_or [] groups a ++ [x])) ≡ₚ flat groups ++ [(a, x)].
Proof.
  unfold flat, dget_or. induction groups as [|[a0 g] groups IH]; [done|]. cbn [dset dget].
  destruct (decide (pyeq a0 a)) as [Ha|Ha]; cbn [from_option default]; rewrite !fmap_cons; cbn [List.concat fst snd].
  - rewrite fmap_app. assert (a0 = a) as -> by exact Ha. cbn. rewrite <- !app_assoc. f_equiv. apply Permutation_app_comm.
  - rewrite IH. by rewrite app_assoc.
Qed.

Lemma by_affinity_append (aff : K → Z) (d : pydict K V) :
  flat (by_affinity aff append_entry d) ≡ₚ (λ e, (aff e.1, e)) <$> d.
Proof.
  induction d as [|[k v] d IH] using rev_ind; [done|].
  unfold by_affinity. rewrite foldl_app. cbn [foldl fst snd]. fold (by_affinity aff append_entry d).
  etransitivity; [apply (flat_dset (by_affinity aff append_entry d) (aff k) (k, v))|]. rewrite IH. by rewrite fmap_app.
Qed.

(** The same when a group is a dict, as the keys are distinct. *)
Lemma affinity_dicts {W} (aff : K → Z) (val : K * V → W) (d : pydict K V) : dict_wf d →
  flat (foldl (λ groups e, dset groups (aff e.1) (dset (dget_or [] groups (aff e.1)) e.1 (val e))) [] d)
    ≡ₚ (λ e, (aff e.1, (e.1, val e))) <$> d.
Proof.
  induction d as [|[k v] d IH] using rev_ind; [done|]. intros Hwf.
  assert (dict_wf d ∧ key_of k ∉ key_of <$> dkeys d) as [Hd Hk].
  { unfold dict_wf, dkeys in Hwf. rewrite !fmap_app in Hwf. apply NoDup_app in Hwf as (H1 & H2 & _). split; [done|].
    intros Hin. apply (H2 _ Hin). by left. }
  rewrite foldl_app. cbn [foldl fst snd]. specialize (IH Hd). set (groups := foldl _ [] d) in *.
  rewrite (dset_fresh (dget_or [] groups (aff k))).
  - etransitivity; [apply (flat_dset groups (aff k))|]. rewrite IH. by rewrite fmap_app.
  - apply dget_None. intros (k' & Ek & Hin)%list_elem_of_fmap. apply Hk. rewrite Ek.
    apply list_elem_of_fmap. exists k'. split; [done|]. unfold dget_or in Hin.
    destruct (dget groups (aff k)) as [g|] eqn:E; [|by apply not_elem_of_nil in Hin]. cbn in Hin.
    apply dget_Some_elem in E as (a & _ & Ha). apply list_elem_of_fmap in Hin as (x & -> & Hx).
    assert (Hf : (a, x) ∈ flat groups) by (apply flat_elem; by exists g). rewrite IH in Hf.
    apply list_elem_of_fmap in Hf as (e & [= -> ->] & He). apply list_elem_of_fmap. by exists e.
Qed.
End groups.

(** ** Neighbours *)

(** Keys among which Python's equality is equality. *)
Section neighbours.
Context {K : Type} `{!EqDecision K, !PyKey K} (U : K → Prop).
Hypothesis U_inj : ∀ a b, U a → U b → pyeq a b → a = b.
Implicit Types (d : pydict K (pyset K)) (l : pyset K).

Lemma elem_smem_iff x (s : pyset K) : U x → Forall U s → smem x s = true ↔ x ∈ s.
Proof.
  intros Hx Hs. split; [|apply elem_smem]. rewrite smem_spec. intros (y & E & Hy)%list_elem_of_fmap.
  rewrite Forall_forall in Hs. by rewrite (U_inj x y Hx (Hs y Hy) E).
Qed.

Lemma sadd_U s x : Forall U s → U x → Forall U (sadd s x).
Proof. intros Hs Hx. unfold sadd. destruct (smem x s); [done|]. apply Forall_app. by split; [|constructor]. Qed.

Lemma supdate_U s l : Forall U s → Forall U l → Forall U (supdate s l).
Proof. intros Hs Hl. revert s Hs. induction Hl as [|x l Hx _ IH]; intros s Hs; [done|]. apply IH. by apply sadd_U. Qed.

Lemma supdate_elem s l x : x ∈ supdate s l → x ∈ s ∨ x ∈ l.
Proof.
  revert s. induction l as [|y l IH]; intros s; [by left|]. intros [H|H]%IH; [|right; by right]. unfold sadd in H.
  destruct (smem y s); [by left|]. apply elem_of_app in H as [H|H%list_elem_of_singleton]; [by left|subst; right; by left].
Qed.

Lemma elem_supdate s l x : Forall U s → Forall U l → x ∈ supdate s l ↔ x ∈ s ∨ x ∈ l.
Proof.
  intros Hs Hl. split; [apply supdate_elem|]. intros Hin.
  assert (Hx : U x) by (rewrite Forall_forall in Hs, Hl; naive_solver).
  apply elem_smem_iff; [done|by apply supdate_U|]. apply smem_supdate. destruct Hin; [left|right]; by apply elem_smem.
Qed.

(** Two lists of neighbours of nodes that say the same. *)
Definition nbrs (L : list (K * list K)) (n a : K) : Prop := ∃ l, (n, l) ∈ L ∧ a ∈ l.
Definition same_nb (L1 L2 : list (K * list K)) : Prop := (∀ n, n ∈ L1.*1 ↔ n ∈ L2.*1) ∧ ∀ n a, nbrs L1 n a ↔ nbrs L2 n a.

#[export] Instance same_nb_equiv : Equivalence same_nb.
Proof.
  split.
  - by intros L.
  - intros L1 L2 [H1 H2]. split; [by intros n; rewrite H1|by intros n a; rewrite H2].
  - intros L1 L2 L3 [H1 H2] [H3 H4]. split; [intros n; by rewrite H1|intros n a; by rewrite H2].
Qed.

Lemma nbrs_app L1 L2 n a : nbrs (L1 ++ L2) n a ↔ nbrs L1 n a ∨ nbrs L2 n a.
Proof. unfold nbrs. setoid_rewrite elem_of_app. naive_solver. Qed.

#[export] Instance same_nb_app : Proper (same_nb ==> same_nb ==> same_nb) (++).
Proof.
  intros L1 L1' [H1 H2] L2 L2' [H3 H4]. split.
  - intros n. rewrite !fmap_app, !elem_of_app. by rewrite H1, H3.
  - intros n a. rewrite !nbrs_app. by rewrite H2, H4.
Qed.

Lemma same_nb_elem L1 L2 : (∀ e, e ∈ L1 ↔ e ∈ L2) → same_nb L1 L2.
Proof.
  intros H. split; [|intros n a; unfold nbrs; by setoid_rewrite H].
  intros n. rewrite !list_elem_of_fmap. by setoid_rewrite H.
Qed.

(** A dict of neighbours, all of them in [U]. *)
Definition nd_ok d : Prop := dict_wf d ∧ ∀ n l, (n, l) ∈ d → U n ∧ Forall U l ∧ set_wf l.

Lemma nd_ok_nil : nd_ok [].
Proof. split; [apply nil_wf|by intros n l ?%not_elem_of_nil]. Qed.

Lemma nd_ok_get d n : nd_ok d → Forall U (dget_or [] d n) ∧ set_wf (dget_or [] d n).
Proof.
  intros [_ Hd]. unfold dget_or. destruct (dget d n) as [l|] eqn:E; [|by split; [|apply NoDup_nil_2]]. cbn.
  apply dget_Some_elem in E as (n' & _ & Hin). by destruct (Hd _ _ Hin) as (_ & ? & ?).
Qed.

Lemma nd_elem d n l : nd_ok d → U n → (n, l) ∈ d ↔ dget d n = Some l.
Proof.
  intros [Hwf Hd] Hn. split; [by apply elem_dget|]. intros (n' & E & Hin)%dget_Some_elem.
  destruct (Hd _ _ Hin) as (Hn' & _). by rewrite <- (U_inj n' n Hn' Hn E).
Qed.

Lemma nd_nbrs d n a : nd_ok d → U n → nbrs d n a ↔ a ∈ dget_or [] d n.
Proof.
  intros Hd Hn. unfold nbrs. setoid_rewrite (nd_elem d n); [|done..]. unfold dget_or. split.
  - intros (l & -> & Ha). exact Ha.
  - destruct (dget d n) as [l|]; [by exists l|]. by intros ?%not_elem_of_nil.
Qed.

Lemma nd_keys d n : nd_ok d → U n → n ∈ d.*1 ↔ dget d n ≠ None.
Proof.
  intros Hd Hn. rewrite list_elem_of_fmap. split.
  - intros ([n' l] & -> & Hin). apply (nd_elem d _ _ Hd Hn) in Hin. cbn in *. congruence.
  - destruct (dget d n) as [l|] eqn:E; [|done]. intros _. exists (n, l). split; [done|]. by apply nd_elem.
Qed.

Lemma dset_elem d k v m x : (m, x) ∈ dset d k v → (m = k ∧ x = v) ∨ (m, x) ∈ d ∨ (x = v ∧ m ∈ d.*1).
Proof.
  induction d as [|[k0 v0] d IH]; cbn [dset]; [intros [= -> ->]%list_elem_of_singleton; by left|].
  case_decide as Hk; intros [E|Hin]%elem_of_cons.
  - injection E as -> ->. right. right. split; [done|left].
  - right. left. by right.
  - injection E as -> ->. right. left. by left.
  - destruct (IH Hin) as [?|[?|[? ?]]]; [by left|right; left; by right|]. right. right. split; [done|by right].
Qed.

(** [d.setdefault(n, set()).update(l)] *)
Definition update_nbrs d n l : pydict K (pyset K) := dset d n (supdate (dget_or [] d n) l).

Lemma update_ok d n (l l' : pyset K) : nd_ok d → U n → Forall U l' → set_wf l' →
  (∀ a, a ∈ l' ↔ a ∈ dget_or [] d n ∨ a ∈ l) →
  nd_ok (dset d n l') ∧ same_nb (dset d n l') (d ++ [(n, l)]).
Proof.
  intros Hd Hn Hl' Hwf' Hin.
  assert (Hok : nd_ok (dset d n l')).
  { split; [by apply dset_wf, Hd|]. intros m x [[-> ->]|[H|[-> H3]]]%dset_elem.
    - done.
    - by apply Hd.
    - apply list_elem_of_fmap in H3 as ([m' y] & -> & Hm). cbn in *.
      destruct Hd as [_ Hd]. destruct (Hd _ _ Hm) as (Hm' & _). by split. }
  split; [done|].
  assert (HU : ∀ m, m ∈ (dset d n l').*1 ∨ m ∈ (d ++ [(n, l)]).*1 → U m).
  { intros m [H|H]; apply list_elem_of_fmap in H as ([m' y] & -> & Hm).
    - by apply Hok in Hm as [? _].
    - apply elem_of_app in Hm as [Hm|Hm%list_elem_of_singleton]; [by apply Hd in Hm as [? _]|by injection Hm as -> ->]. }
  assert (Hkey : ∀ m, U m → dget (dset d n l') m = if decide (n = m) then Some l' else dget d m).
  { intros m Hm. rewrite dget_dset. destruct (decide (pyeq n m)) as [E|E], (decide (n = m)) as [E'|E']; try done.
    - by destruct E'; apply U_inj.
    - by subst. }
  split.
  - intros m. assert (Hm : U m → m ∈ (dset d n l').*1 ↔ m ∈ (d ++ [(n, l)]).*1); [|naive_solver].
    intros Hm. rewrite (nd_keys (dset d n l')), Hkey by done. rewrite fmap_app, elem_of_app, (nd_keys d) by done.
    cbn. rewrite list_elem_of_singleton. destruct (decide (n = m)); naive_solver.
  - intros m a. assert (Hm : U m → nbrs (dset d n l') m a ↔ nbrs (d ++ [(n, l)]) m a).
    { intros Hm. rewrite (nd_nbrs (dset d n l')) by done. unfold dget_or at 1. rewrite Hkey, nbrs_app, (nd_nbrs d) by done.
      unfold nbrs. setoid_rewrite list_elem_of_singleton. destruct (decide (n = m)) as [<-|Hne].
      - cbn. rewrite Hin. naive_solver.
      - unfold dget_or. naive_solver. }
    split; intros H; (apply Hm; [|done]); apply HU; [left|right];
      destruct H as (x & Hx & _); apply list_elem_of_fmap; by exists (m, x).
Qed.

Lemma nd_update d n l : nd_ok d → U n → Forall U l →
  nd_ok (update_nbrs d n l) ∧ same_nb (update_nbrs d n l) (d ++ [(n, l)]).
Proof.
  intros Hd Hn Hl. destruct (nd_ok_get d n Hd) as [HU Hwf]. apply update_ok; try done.
  - by apply supdate_U.
  - by apply supdate_wf.
  - intros a. by apply elem_supdate.
Qed.

Lemma nd_updates (L : list (K * pyset K)) : ∀ d, nd_ok d → (∀ n l, (n, l) ∈ L → U n ∧ Forall U l) →
  nd_ok (foldl (λ d e, update_nbrs d e.1 e.2) d L) ∧ same_nb (foldl (λ d e, update_nbrs d e.1 e.2) d L) (d ++ L).
Proof.
  induction L as [|[n l] L IH]; intros d Hd HL; cbn [foldl fst snd]; [by rewrite app_nil_r|].
  destruct (HL n l) as [Hn Hl]; [left|]. destruct (nd_update d n l Hd Hn Hl) as [Hok Hsame].
  destruct (IH _ Hok) as [Hok' Hsame']; [intros m x Hin; apply HL; by right|]. split; [done|].
  rewrite Hsame', Hsame. by rewrite <- app_assoc.
Qed.
End neighbours.

Lemma foldl_map {A B C} (f : A → B → A) (g : C → B) l a : foldl f a (g <$> l) = foldl (λ a c, f a (g c)) a l.
Proof. revert a. induction l as [|x l IH]; intros a; [done|]. apply IH. Qed.
