(* ===== verification/UC4Graphs.v ===== *)
(** * The full graph does not depend on spilling

    What [UC4AggregateGraphs] holds of a client, in memory and on disk, says the
    same of the neighbours of every node as the partial graphs received; so the
    result has each node once, with all its neighbours. *)

From S2P Require Import Prelude.
From S2P Require Import PyDict.
From S2P Require Import PyValues.
From S2P Require Import PyText.
From S2P Require Import PyTime.
From S2P Require Import PyFloat.
From S2P Require Import Wire.
From S2P Require Import PyRepr.
From S2P Require Import Messages.
From S2P Require Import Filters.
From S2P Require Import GroupBy.
From S2P Require Import Spill.
From S2P Require Import SpillLog.
From S2P Require Import UC4.
From S2P Require Import UC4Paths.
From S2P Require Import MergeFns.
From S2P Require Import UC4Prune.
From S2P Require Import ShardLog.

#[export] Instance Node_eq_dec : EqDecision Node.
Proof. solve_decision. Defined.

(** A node with its predecessors and successors. *)
Abbreviation node_entry := (Node * (pyset Node * pyset Node))%type.
Definition preds_of (L : list node_entry) : list (Node * pyset Node) := (λ e, (e.1, e.2.1)) <$> L.
Definition succs_of (L : list node_entry) : list (Node * pyset Node) := (λ e, (e.1, e.2.2)) <$> L.

Lemma graph_line_text e : graph_line e.1 e.2.1 e.2.2 = Ok (prune_text e).
Proof. apply prune_line_ok. Qed.

Lemma graph_of_line_text e : entry_wf e → graph_of_line (terminated (prune_text e)) = Ok e.
Proof.
  intros (Hn & Hp & Hs & Hwp & Hws). unfold graph_of_line, json_fields, terminated.
  rewrite (json_loads_line _ _ (graph_fields_ok e) (prune_line_ok e)).
  unfold graph_fields. cbn [jnorm]. cbn [py_iter mbind res_bind].
  assert (Ej : ∀ l : pyset Node, jnorm <$> ((λ m, PStr (node_str m)) <$> l) = (λ m, PStr (node_str m)) <$> l)
    by (intros l; by rewrite <- list_fmap_compose).
  rewrite !fmap_cons, fmap_nil. cbn [jnorm]. rewrite !Ej. unfold py_nth at 1. cbn [lookup list_lookup of_opt mbind res_bind as_str].
  rewrite node_from_str_str by done. cbn [mbind res_bind].
  rewrite (node_set_of_strings _ 1 e.2.1), (node_set_of_strings _ 2 e.2.2) by done. cbn [mbind res_bind].
  by destruct e as [n [ps ss]].
Qed.

(** ** The state as the neighbours received *)

Section graph.
(** [U] contains all the nodes received; its nodes print and parse, and are equal
    when Python says so. *)
Context `{PyHash} (tag : string) (U : Node → Prop).
Hypothesis U_inj : ∀ a b, U a → U b → pyeq a b → a = b.
Hypothesis U_print : ∀ n, U n → node_wf n.
Implicit Types (st : GraphState) (c : uuid) (L : uuid → list node_entry).

Definition entry_U (e : node_entry) : Prop :=
  U e.1 ∧ Forall U e.2.1 ∧ Forall U e.2.2 ∧ set_wf e.2.1 ∧ set_wf e.2.2.

Lemma entry_U_wf e : entry_U e → entry_wf e.
Proof.
  intros (Hn & Hp & Hs & ? & ?). split; [by apply U_print|]. split_and!; try done; by eapply Forall_impl; [|exact U_print].
Qed.

(** A line does not depend on the client. *)
Definition entry_text (c : uuid) (e : node_entry) : chars := prune_text e.

Lemma entry_text_clean c e : entry_U e → clean (entry_text c e).
Proof. intros _. apply prune_text_clean. Qed.

Abbreviation glog := (shard_log entry_text tag entry_U).

Definition mem_preds st c : pydict Node (pyset Node) := dget_or [] (_preds st) c.
Definition mem_succs st c : pydict Node (pyset Node) := dget_or [] (_succs st) c.

Record gholds st (W : list ((uuid * Z) * node_entry)) L : Prop := {
  g_log : glog (graph_spill st) W;
  g_placed : ∀ c shard e, ((c, shard), e) ∈ W → shard = sharding_hash e.1;
  g_wf : dict_wf (_preds st) ∧ dict_wf (_succs st);
  g_mem : ∀ c, dmem (_preds st) c = dmem (_succs st) c;
  g_nd : ∀ c, nd_ok U (mem_preds st c) ∧ nd_ok U (mem_succs st c) ∧ ∀ n, n ∈ (mem_preds st c).*1 ↔ n ∈ (mem_succs st c).*1;
  g_preds : ∀ c, same_nb (preds_of (client_items c W) ++ mem_preds st c) (preds_of (L c));
  g_succs : ∀ c, same_nb (succs_of (client_items c W) ++ mem_succs st c) (succs_of (L c))
}.

Definition graph_init : GraphState := mkGS [] [] (spill_init []).

Lemma gholds_init : gholds graph_init [] (λ _, []).
Proof. split; try done; [apply shard_log_init|by intros c shard e ?%not_elem_of_nil|split; apply nil_wf|]. intros c. split_and!; try apply nd_ok_nil. done. Qed.

(** *** Spilling *)

Definition with_succs (succs : pydict Node (pyset Node)) (e : Node * pyset Node) : node_entry := (e.1, (e.2, dget_or [] succs e.1)).

(** The two dicts have the same nodes: nothing is lost. *)
Lemma with_succs_elem p q e : nd_ok U p → nd_ok U q → (∀ n, n ∈ p.*1 ↔ n ∈ q.*1) →
  (∃ x, x ∈ p ∧ e = (x.1, dget_or [] q x.1)) ↔ e ∈ q.
Proof.
  intros Hp Hq Hk. destruct e as [n l]. split.
  - intros ([m x] & Hx & [= -> ->]). destruct (proj2 Hp m x Hx) as (Hm & _).
    assert (Hin : m ∈ q.*1) by (apply Hk; apply list_elem_of_fmap; by exists (m, x)).
    apply (nd_keys U U_inj _ _ Hq Hm) in Hin. apply (nd_elem U U_inj _ _ _ Hq Hm). unfold dget_or. by destruct (dget q m).
  - intros He. destruct (proj2 Hq n l He) as (Hn & _).
    assert (Hin : n ∈ p.*1) by (apply Hk; apply list_elem_of_fmap; by exists (n, l)).
    apply list_elem_of_fmap in Hin as ([m x] & -> & Hin). exists (m, x). split; [done|]. cbn in *. f_equal.
    apply (nd_elem U U_inj _ _ _ Hq Hn) in He. unfold dget_or. by rewrite He.
Qed.

Lemma append_graph_line_text st W L c shard s e :
  gholds st W L → e ∈ mem_preds st c →
  append_graph_line tag c (mem_succs st c) shard s e =
    Ok (ms_append tag s c shard (terminated (entry_text c (with_succs (mem_succs st c) e)))) ∧
  entry_U (with_succs (mem_succs st c) e).
Proof.
  intros Hh He. destruct (g_nd _ _ _ Hh c) as (Hp & Hs & Hk). destruct e as [n l].
  destruct (proj2 Hp n l He) as (Hn & Hl & Hwl). destruct (nd_ok_get U (mem_succs st c) n Hs) as [Hq Hwq].
  split; [|by split_and!].
  assert (Hin : n ∈ (mem_succs st c).*1) by (apply Hk; apply list_elem_of_fmap; by exists (n, l)).
  apply (nd_keys U U_inj _ _ Hs Hn) in Hin. unfold append_graph_line, dindex, with_succs. cbn [fst snd]. unfold dget_or.
  destruct (dget (mem_succs st c) n) as [q|]; [|done]. cbn [of_opt mbind res_bind from_option default].
  pose proof (graph_line_text (n, (l, q))) as E. cbn [fst snd] in E. by rewrite E.
Qed.

Lemma graph_spill_holds st W L c :
  gholds st W L → dmem (_preds st) c = true →
  ∃ st' W', spill_graph tag st c = Ok st' ∧ gholds st' W' L ∧ _preds st' = ddel (_preds st) c ∧ _succs st' = ddel (_succs st) c.
Proof.
  intros Hh Hm. pose proof (g_mem _ _ _ Hh c) as Hm2. rewrite Hm in Hm2. unfold spill_graph, dindex.
  assert (Ep : dget (_preds st) c = Some (mem_preds st c)) by (unfold mem_preds, dget_or, dmem in *; by destruct (dget (_preds st) c)).
  assert (Eq : dget (_succs st) c = Some (mem_succs st c)) by (unfold mem_succs, dget_or, dmem in *; by destruct (dget (_succs st) c)).
  rewrite Ep, Eq. cbn [of_opt mbind res_bind].
  set (groups := by_affinity sharding_hash append_entry (mem_preds st c)).
  pose proof (by_affinity_append sharding_hash (mem_preds st c)) as Hflat. fold groups in Hflat.
  change (foldR (append_graph_group tag c (mem_succs st c)) (graph_spill st) groups) with
    (foldR (λ s g, foldR (append_graph_line tag c (mem_succs st c) g.1) s g.2) (graph_spill st) groups).
  rewrite foldR_flat.
  destruct (shard_log_appends entry_text tag entry_U entry_text_clean (λ s x, append_graph_line tag c (mem_succs st c) x.1 s x.2)
    (λ x, with_succs (mem_succs st c) x.2) fst c (flat groups)) with (s := graph_spill st) (W := W) as (s' & E & Hl').
  { intros s [a e] Hin. cbn [fst snd]. apply (append_graph_line_text st W L); [done|]. rewrite Hflat in Hin.
    apply list_elem_of_fmap in Hin as (e' & [= _ ->] & Hin). exact Hin. }
  { apply Hh. }
  rewrite E. cbn [mbind res_bind]. set (new := (λ b, ((c, b.1), with_succs (mem_succs st c) b.2)) <$> flat groups) in *.
  assert (Hnew : ∀ k e, (k, e) ∈ new ↔ ∃ x, x ∈ mem_preds st c ∧ k = (c, sharding_hash x.1) ∧ e = with_succs (mem_succs st c) x).
  { intros k e. unfold new. rewrite list_elem_of_fmap. split.
    - intros ([a x] & [= -> ->] & Hin). rewrite Hflat in Hin. apply list_elem_of_fmap in Hin as (x' & [= -> ->] & Hin). by exists x'.
    - intros (x & Hin & -> & ->). exists (sharding_hash x.1, x). split; [done|]. rewrite Hflat. apply list_elem_of_fmap. by exists x. }
  eexists _, (W ++ new). split; [reflexivity|]. split; [|done].
  assert (Hitems : ∀ c' e, e ∈ client_items c' new ↔ c' = c ∧ ∃ x, x ∈ mem_preds st c ∧ e = with_succs (mem_succs st c) x).
  { intros c' e. rewrite client_items_elem. setoid_rewrite Hnew. naive_solver. }
  assert (Hother : ∀ c', c' ≠ c → client_items c' new = []).
  { intros c' Hne. apply elem_of_nil_inv. intros e He. by apply Hitems in He as [? _]. }
  destruct (g_nd _ _ _ Hh c) as (Hp & Hs & Hk).
  split; cbn [graph_spill _preds _succs].
  - exact Hl'.
  - intros c' shard e [He|He]%elem_of_app; [by eapply g_placed|]. apply Hnew in He as (x & _ & [= -> ->] & ->). done.
  - split; apply ddel_wf, Hh.
  - intros c'. unfold dmem. rewrite !dget_ddel by apply Hh. destruct (decide (pyeq c c')); [done|]. apply (g_mem _ _ _ Hh c').
  - intros c'. unfold mem_preds, mem_succs. cbn [_preds _succs]. rewrite !dget_or_ddel_client by apply Hh.
    destruct (decide (c = c')); [split_and!; by try apply nd_ok_nil|apply (g_nd _ _ _ Hh c')].
  - intros c'. rewrite <- (g_preds _ _ _ Hh c'). unfold mem_preds at 1. cbn [_preds]. rewrite dget_or_ddel_client by apply Hh.
    rewrite client_items_app. unfold preds_of. rewrite fmap_app. destruct (decide (c = c')) as [<-|Hne].
    + rewrite app_nil_r. f_equiv. apply same_nb_elem. intros e. rewrite list_elem_of_fmap. setoid_rewrite Hitems. split.
      * intros (y & -> & _ & x & Hx & ->). by destruct x.
      * intros He. exists (with_succs (mem_succs st c) e). split; [by destruct e|]. split; [done|]. by exists e.
    + rewrite Hother by done. by rewrite app_nil_r.
  - intros c'. rewrite <- (g_succs _ _ _ Hh c'). unfold mem_succs at 1. cbn [_succs]. rewrite dget_or_ddel_client by apply Hh.
    rewrite client_items_app. unfold succs_of. rewrite fmap_app. destruct (decide (c = c')) as [<-|Hne].
    + rewrite app_nil_r. f_equiv. apply same_nb_elem. intros e. rewrite <- (with_succs_elem _ _ e Hp Hs Hk), list_elem_of_fmap.
      setoid_rewrite Hitems. split.
      * intros (y & -> & _ & x & Hx & ->). by exists x.
      * intros (x & Hx & ->). exists (with_succs (mem_succs st c) x). split; [done|]. split; [done|]. by exists x.
    + rewrite Hother by done. by rewrite app_nil_r.
Qed.

(** *** Receiving a graph *)

Definition add_graph L (c : uuid) (nodes : list node_entry) : uuid → list node_entry :=
  λ c', if decide (c = c') then L c' ++ nodes else L c'.

Lemma fold_neighbours (f : node_entry → pyset Node) d (nodes : list node_entry) :
  nd_ok U d → (∀ e, e ∈ nodes → U e.1 ∧ Forall U (f e)) →
  nd_ok U (foldl (λ d e, update_neighbours d e.1 (f e)) d nodes) ∧
  same_nb (foldl (λ d e, update_neighbours d e.1 (f e)) d nodes) (d ++ ((λ e, (e.1, f e)) <$> nodes)).
Proof.
  intros Hd Hf.
  assert (E : foldl (λ d e, update_neighbours d e.1 (f e)) d nodes =
    foldl (λ d e, update_nbrs d e.1 e.2) d ((λ e, (e.1, f e)) <$> nodes)) by (symmetry; apply foldl_map).
  rewrite E.
  apply (nd_updates U U_inj); [done|]. intros n l (e & [= -> ->] & He)%list_elem_of_fmap. by apply Hf.
Qed.

Lemma graph_aggregate_holds threshold st W L c nodes :
  0 < threshold → gholds st W L → (∀ e, e ∈ nodes → entry_U e) →
  ∃ st' W', UC4AggregateGraphs_aggregate tag threshold st (Graph c nodes) = Ok st' ∧ gholds st' W' (add_graph L c nodes).
Proof.
  intros Hth Hh Hnodes. unfold UC4AggregateGraphs_aggregate. destruct (g_nd _ _ _ Hh c) as (Hp & Hs & Hk).
  set (ps := if dmem (_preds st) c then (_preds st, _succs st) else (dset (_preds st) c [], dset (_succs st) c [])).
  assert (Hget : dget_or [] ps.1 c = mem_preds st c ∧ dget_or [] ps.2 c = mem_succs st c).
  { unfold ps, mem_preds, mem_succs. pose proof (g_mem _ _ _ Hh c) as Hm. unfold dmem in Hm |- *. unfold dget_or.
    destruct (dget (_preds st) c) eqn:E, (dget (_succs st) c) eqn:E'; try done; cbn [fst snd]; [by rewrite E, E'|by rewrite !dget_dset_eq]. }
  assert (Hother : ∀ c', c ≠ c' → dget ps.1 c' = dget (_preds st) c' ∧ dget ps.2 c' = dget (_succs st) c').
  { intros c' Hne. unfold ps. destruct (dmem _ c); [done|]. cbn. by rewrite !dget_dset_ne by (intros E; by destruct Hne). }
  assert (Hwf : dict_wf ps.1 ∧ dict_wf ps.2).
  { unfold ps. destruct (g_wf _ _ _ Hh). destruct (dmem _ c); [done|]. split; by apply dset_wf. }
  clearbody ps. destruct ps as [preds succs]. cbn [fst snd] in *. destruct Hget as [-> ->].
  destruct (fold_neighbours (λ e, e.2.1) (mem_preds st c) nodes Hp) as [Hp' Hps]; [intros e He; by apply Hnodes in He as (? & ? & _)|].
  destruct (fold_neighbours (λ e, e.2.2) (mem_succs st c) nodes Hs) as [Hs' Hss]; [intros e He; by apply Hnodes in He as (? & _ & ? & _)|].
  cbn zeta.
  set (p := foldl (λ d e, update_neighbours d e.1 e.2.1) (mem_preds st c) nodes) in *.
  set (q := foldl (λ d e, update_neighbours d e.1 e.2.2) (mem_succs st c) nodes) in *.
  set (st1 := mkGS (dset preds c p) (dset succs c q) (graph_spill st)).
  assert (Hmem : ∀ c', mem_preds st1 c' = (if decide (c = c') then p else mem_preds st c') ∧
    mem_succs st1 c' = (if decide (c = c') then q else mem_succs st c')).
  { intros c'. unfold mem_preds, mem_succs. cbn [st1 _preds _succs]. rewrite !dget_or_dset_client. destruct (decide (c = c')) as [|Hne]; [done|].
    unfold dget_or. by destruct (Hother c' Hne) as [-> ->]. }
  assert (Hh1 : gholds st1 W (add_graph L c nodes)).
  { split.
    - apply Hh.
    - apply Hh.
    - destruct Hwf. split; by apply dset_wf.
    - intros c'. unfold dmem. cbn [st1 _preds _succs]. rewrite !dget_dset. destruct (decide (pyeq c c')) as [E|E]; [done|].
      destruct (Hother c') as [-> ->]; [by intros ->|]. apply (g_mem _ _ _ Hh c').
    - intros c'. destruct (Hmem c') as [-> ->]. destruct (decide (c = c')) as [<-|]; [|apply (g_nd _ _ _ Hh c')].
      split_and!; [done..|]. intros n. rewrite (proj1 Hps), (proj1 Hss), !fmap_app, !elem_of_app, Hk.
      by rewrite <- !list_fmap_compose.
    - intros c'. destruct (Hmem c') as [-> _]. unfold add_graph. destruct (decide (c = c')) as [<-|]; [|apply (g_preds _ _ _ Hh c')].
      rewrite Hps. unfold preds_of. rewrite fmap_app, app_assoc. f_equiv. apply (g_preds _ _ _ Hh c).
    - intros c'. destruct (Hmem c') as [_ ->]. unfold add_graph. destruct (decide (c = c')) as [<-|]; [|apply (g_succs _ _ _ Hh c')].
      rewrite Hss. unfold succs_of. rewrite fmap_app, app_assoc. f_equiv. apply (g_succs _ _ _ Hh c). }
  destruct (threshold <=? Z.of_nat (length p)); [|by exists st1, W].
  destruct (graph_spill_holds st1 W _ c Hh1) as (st2 & W2 & E & Hh2 & _); [unfold dmem; cbn [st1 _preds]; by rewrite dget_dset_eq|].
  by exists st2, W2.
Qed.

(** *** A checkpoint *)

Lemma graph_snapshot_holds st W L :
  gholds st W L → ∃ st' sn W', graphs_snapshot_state tag st = Ok (st', sn) ∧ gholds st' W' L.
Proof.
  intros Hh. assert (Hs : ∀ ks st W, gholds st W L → NoDup ks → (∀ c, c ∈ ks → dmem (_preds st) c = true) →
    ∃ st' W', foldR (spill_graph tag) st ks = Ok st' ∧ gholds st' W' L).
  { clear st W Hh. induction ks as [|c ks IH]; intros st W Hh Hnd Hks; [by exists st, W|].
    apply NoDup_cons in Hnd as [Hc Hnd]. destruct (graph_spill_holds st W L c Hh) as (st1 & W1 & E1 & Hh1 & Ed & _); [apply Hks; left|].
    cbn [foldR]. rewrite E1. cbn [mbind res_bind]. apply (IH st1 W1 Hh1 Hnd). intros c' Hc'. rewrite Ed. unfold dmem.
    rewrite dget_ddel by apply Hh. destruct (decide (pyeq c c')) as [E|E]; [by assert (c = c') as -> by exact E|].
    apply Hks. by right. }
  destruct (Hs (dkeys (_preds st)) st W Hh) as (st1 & W1 & E1 & Hh1).
  - destruct (g_wf _ _ _ Hh) as [Hd _]. unfold dict_wf in Hd. by apply NoDup_fmap_1 in Hd.
  - intros c Hc. by apply dmem_dkeys.
  - unfold graphs_snapshot_state. rewrite E1. cbn [mbind res_bind].
    destruct (snapshot_items entry_text tag entry_U (graph_spill st1) _ (g_log _ _ _ Hh1)) as (s2 & sn & E2 & Hl2).
    rewrite E2. cbn [mbind res_bind]. exists (mkGS (_preds st1) (_succs st1) s2), sn, W1. split; [done|].
    destruct Hh1. by split.
Qed.

(** *** The results *)

(** The nodes of the messages of a result. *)
Definition out_entries (out : list (Body * Z)) : list node_entry :=
  List.concat ((λ m, match m.1 with Graph _ nodes => nodes | _ => [] end) <$> out).

Lemma out_entries_app o1 o2 : out_entries (o1 ++ o2) = out_entries o1 ++ out_entries o2.
Proof. unfold out_entries. by rewrite fmap_app, concat_app. Qed.

Definition merged_preds (es : list node_entry) d := foldl (λ d e, update_neighbours d e.1 e.2.1) d es.
Definition merged_succs (es : list node_entry) d := foldl (λ d e, update_neighbours d e.1 e.2.2) d es.

Lemma add_graph_line_text c e d : entry_U e →
  add_graph_line d (terminated (entry_text c e)) = Ok (update_neighbours d.1 e.1 e.2.1, update_neighbours d.2 e.1 e.2.2).
Proof.
  intros He. unfold add_graph_line, entry_text. rewrite graph_of_line_text by by apply entry_U_wf. by destruct e as [n [p q]].
Qed.

Lemma foldR_graph_lines c (es : list node_entry) : (∀ e, e ∈ es → entry_U e) → ∀ d,
  foldR add_graph_line d (terminated <$> (entry_text c <$> es)) = Ok (merged_preds es d.1, merged_succs es d.2).
Proof.
  induction es as [|e es IH]; intros Hes d; [by destruct d|]. rewrite !fmap_cons. cbn [foldR].
  rewrite add_graph_line_text by (apply Hes; left). cbn [mbind res_bind]. apply IH. intros e' He. apply Hes. by right.
Qed.

(** One shard of the result. *)
Definition shard_graph c shard W : list node_entry :=
  with_succs (merged_succs (at_shard c shard W) []) <$> merged_preds (at_shard c shard W) [].

Lemma yield_groups_entries c (groups : pydict Z graph_nodes) : out_entries (yield_groups (Graph c) groups) = (flat groups).*2.
Proof.
  unfold out_entries, yield_groups, flat. induction groups as [|[a g] groups IH]; [done|].
  rewrite !fmap_cons. cbn [List.concat fst snd]. rewrite fmap_app, <- IH. f_equal. rewrite <- list_fmap_compose. symmetry. apply list_fmap_id.
Qed.

Lemma shard_results c W shards : ∀ s,
  glog s W → NoDup shards →
  ∃ s' out, graph_results tag c s shards = Ok (s', out) ∧
    (∀ m, m ∈ out → ∃ nodes, m.1 = Graph c nodes ∧ ∀ e, e ∈ nodes → m.2 = hash_node e.1 mod AFFINITY_SHARDS_GRAPH) ∧
    out_entries out ≡ₚ List.concat ((λ shard, shard_graph c shard W) <$> shards).
Proof.
  induction shards as [|shard shards IH]; intros s Hl Hnd.
  { exists s, []. split; [done|]. split; [by intros m ?%not_elem_of_nil|done]. }
  apply NoDup_cons in Hnd as [_ Hnd]. cbn [graph_results].
  destruct (ms_read_shard tag s c shard) as [s1 lines] eqn:Er.
  destruct (read_shard_items entry_text tag entry_U s W c shard s1 lines Hl Er) as [Hl1 ->].
  assert (HU : ∀ e, e ∈ at_shard c shard W → entry_U e) by (intros e He%at_shard_elem; apply (proj2 Hl) in He; done).
  rewrite foldR_graph_lines by done. cbn [mbind res_bind fst snd].
  destruct (IH s1 Hl1 Hnd) as (s2 & out & E & Hm & Hp). rewrite E. cbn [mbind res_bind].
  set (P := merged_preds (at_shard c shard W) []). set (Q := merged_succs (at_shard c shard W) []).
  assert (HP : dict_wf P).
  { apply (proj1 (fold_neighbours (λ e, e.2.1) [] (at_shard c shard W) (nd_ok_nil U) (λ e He, ltac:(by destruct (HU e He) as (? & ? & _))))). }
  pose proof (affinity_dicts (λ n, hash_node n mod AFFINITY_SHARDS_GRAPH) (λ e : Node * pyset Node, (e.2, dget_or [] Q e.1)) P HP) as Hflat.
  fold (graph_groups P Q) in Hflat.
  eexists s2, _. split; [reflexivity|]. split.
  - intros m [Hin|Hin]%elem_of_app; [|by apply Hm]. unfold yield_groups in Hin. apply list_elem_of_fmap in Hin as ([a g] & -> & Hg).
    exists g. split; [done|]. intros e He. assert (Hf : (a, e) ∈ flat (graph_groups P Q)) by (apply flat_elem; by exists g).
    rewrite Hflat in Hf. apply list_elem_of_fmap in Hf as (x & [= -> ->] & _). done.
  - rewrite out_entries_app, yield_groups_entries, Hp, fmap_cons. cbn [List.concat]. f_equiv. rewrite Hflat.
    rewrite <- list_fmap_compose. done.
Qed.

Lemma shard_graph_spec s W c shard :
  glog s W → (∀ c shard e, ((c, shard), e) ∈ W → shard = sharding_hash e.1) →
  NoDup (shard_graph c shard W).*1 ∧ (∀ e, e ∈ shard_graph c shard W → entry_U e ∧ sharding_hash e.1 = shard) ∧
  same_nb (preds_of (shard_graph c shard W)) (preds_of (at_shard c shard W)) ∧
  same_nb (succs_of (shard_graph c shard W)) (succs_of (at_shard c shard W)).
Proof.
  intros Hl Hplaced. set (es := at_shard c shard W).
  assert (HU : ∀ e, e ∈ es → entry_U e) by (intros e He%at_shard_elem; apply (proj2 Hl) in He; done).
  destruct (fold_neighbours (λ e, e.2.1) [] es (nd_ok_nil U)) as [Hp Hps]; [intros e He; by destruct (HU e He) as (? & ? & _)|].
  destruct (fold_neighbours (λ e, e.2.2) [] es (nd_ok_nil U)) as [Hq Hqs]; [intros e He; by destruct (HU e He) as (? & _ & ? & _)|].
  unfold shard_graph. fold es. fold (merged_preds es []) in Hp, Hps. fold (merged_succs es []) in Hq, Hqs.
  set (P := merged_preds es []) in *. set (Q := merged_succs es []) in *. cbn [app] in Hps, Hqs.
  assert (Hk : ∀ n, n ∈ P.*1 ↔ n ∈ Q.*1).
  { intros n. rewrite (proj1 Hps), (proj1 Hqs). by rewrite <- !list_fmap_compose. }
  assert (Hpreds : preds_of (with_succs Q <$> P) = P).
  { unfold preds_of. rewrite <- list_fmap_compose. rewrite (list_fmap_ext _ id); [apply list_fmap_id|]. by intros i [n l] _. }
  split_and!.
  - rewrite <- list_fmap_compose. change ((fst ∘ with_succs Q) <$> P) with (P.*1). destruct Hp as [Hp _]. by apply NoDup_fmap_1 in Hp.
  - intros e ([n l] & -> & Hin)%list_elem_of_fmap. destruct (proj2 Hp n l Hin) as (Hn & Hl' & Hw).
    destruct (nd_ok_get U Q n Hq) as [Hq' Hwq]. split; [by split_and!|]. cbn [with_succs fst].
    assert (Hin' : n ∈ P.*1) by (apply list_elem_of_fmap; by exists (n, l)). apply (proj1 Hps) in Hin'.
    apply list_elem_of_fmap in Hin' as (x & -> & Hx). apply list_elem_of_fmap in Hx as (e & -> & He).
    apply at_shard_elem, Hplaced in He. done.
  - rewrite Hpreds. exact Hps.
  - etransitivity; [|exact Hqs]. apply same_nb_elem. intros e. rewrite <- (with_succs_elem P Q e Hp Hq Hk).
    unfold succs_of. rewrite list_elem_of_fmap. setoid_rewrite list_elem_of_fmap. split.
    + intros (y & -> & x & -> & Hx). by exists x.
    + intros (x & Hx & ->). exists (with_succs Q x). split; [done|]. by exists x.
Qed.

Lemma same_nb_concat {B} (f g : B → list (Node * pyset Node)) l :
  (∀ x, x ∈ l → same_nb (f x) (g x)) → same_nb (List.concat (f <$> l)) (List.concat (g <$> l)).
Proof.
  induction l as [|x l IH]; intros Hx; [done|]. rewrite !fmap_cons. cbn [List.concat].
  rewrite (Hx x) by left. rewrite IH; [done|]. intros y Hy. apply Hx. by right.
Qed.

Lemma graph_get_result st W L c :
  gholds st W L →
  ∃ st' out, UC4AggregateGraphs_get_result tag st c = Ok (st', out) ∧
    (∀ m, m ∈ out → ∃ nodes, m.1 = Graph c nodes ∧ ∀ e, e ∈ nodes → m.2 = hash_node e.1 mod AFFINITY_SHARDS_GRAPH) ∧
    NoDup (out_entries out).*1 ∧ (∀ e, e ∈ out_entries out → entry_U e) ∧
    same_nb (preds_of (out_entries out)) (preds_of (L c)) ∧ same_nb (succs_of (out_entries out)) (succs_of (L c)).
Proof.
  intros Hh. unfold UC4AggregateGraphs_get_result.
  assert (H1 : ∃ st1 W1, (if dmem (_succs st) c then spill_graph tag st c else Ok st) = Ok st1 ∧ gholds st1 W1 L ∧
    mem_preds st1 c = [] ∧ mem_succs st1 c = []).
  { pose proof (g_mem _ _ _ Hh c) as Hm. destruct (dmem (_succs st) c) eqn:E.
    - destruct (graph_spill_holds st W L c Hh Hm) as (st1 & W1 & E1 & Hh1 & Ep & Eq). exists st1, W1. split_and!; [done..| |].
      + unfold mem_preds. rewrite Ep, dget_or_ddel_client by apply Hh. by rewrite decide_True.
      + unfold mem_succs. rewrite Eq, dget_or_ddel_client by apply Hh. by rewrite decide_True.
    - exists st, W. unfold mem_preds, mem_succs, dget_or, dmem in *. destruct (dget (_preds st) c); [done|].
      destruct (dget (_succs st) c); [done|]. by split_and!. }
  destruct H1 as (st1 & W1 & E1 & Hh1 & Hmp & Hms). rewrite E1. cbn [mbind res_bind].
  pose proof (g_log _ _ _ Hh1) as Hl. pose proof (g_placed _ _ _ Hh1) as Hpl.
  set (shards := ms_shards_of tag (graph_spill st1) c).
  destruct (shard_results c W1 shards (graph_spill st1) Hl (ms_shards_NoDup _ _ _)) as (s2 & out & E2 & Hm & Hp).
  rewrite E2. cbn [mbind res_bind]. eexists _, out. split; [reflexivity|]. split; [exact Hm|].
  assert (Hitems : ∀ e, e ∈ List.concat ((λ shard, at_shard c shard W1) <$> shards) ↔ e ∈ client_items c W1).
  { intros e. rewrite elem_concat, client_items_elem. split.
    - intros (l & (shard & -> & _)%list_elem_of_fmap & He%at_shard_elem). by exists shard.
    - intros [shard He]. exists (at_shard c shard W1). split; [|by apply at_shard_elem]. apply list_elem_of_fmap. exists shard.
      split; [done|]. by eapply shards_of_items. }
  assert (Hconcat : ∀ f : node_entry → Node * pyset Node, (∀ shard, shard ∈ shards →
      same_nb (f <$> shard_graph c shard W1) (f <$> at_shard c shard W1)) →
    same_nb (f <$> out_entries out) (f <$> client_items c W1)).
  { intros f Hf. transitivity (f <$> List.concat ((λ shard, shard_graph c shard W1) <$> shards)).
    { apply same_nb_elem. intros e. by rewrite Hp. }
    transitivity (f <$> List.concat ((λ shard, at_shard c shard W1) <$> shards)).
    - rewrite !fmap_concat, <- !list_fmap_compose. apply (same_nb_concat (λ shard, f <$> shard_graph c shard W1)). exact Hf.
    - apply same_nb_elem. intros e. rewrite !list_elem_of_fmap. by setoid_rewrite Hitems. }
  pose proof (g_preds _ _ _ Hh1 c) as Hgp. pose proof (g_succs _ _ _ Hh1 c) as Hgs. rewrite Hmp, app_nil_r in Hgp. rewrite Hms, app_nil_r in Hgs.
  split_and!.
  - rewrite Hp. clear -Hl Hpl U_inj U_print. pose proof (ms_shards_NoDup tag (graph_spill st1) c) as Hnd. fold shards in Hnd.
    clearbody shards. induction shards as [|shard shards IH]; [apply NoDup_nil_2|]. apply NoDup_cons in Hnd as [Hs Hnd].
    rewrite fmap_cons. cbn [List.concat]. rewrite fmap_app. apply NoDup_app.
    destruct (shard_graph_spec _ W1 c shard Hl Hpl) as (H1 & H2 & _). split; [done|]. split; [|by apply IH].
    intros n (e & -> & He)%list_elem_of_fmap (e' & E & He')%list_elem_of_fmap. apply elem_concat in He' as (l & (shard' & -> & Hs')%list_elem_of_fmap & He').
    destruct (shard_graph_spec _ W1 c shard' Hl Hpl) as (_ & H2' & _).
    apply H2 in He as [_ He]. apply H2' in He' as [_ He']. rewrite E in He. congruence.
  - intros e He. rewrite Hp in He. apply elem_concat in He as (l & (shard & -> & _)%list_elem_of_fmap & He).
    by eapply shard_graph_spec in He as [? _].
  - etransitivity; [|exact Hgp]. apply Hconcat. intros shard _. by eapply shard_graph_spec.
  - etransitivity; [|exact Hgs]. apply Hconcat. intros shard _. by eapply shard_graph_spec.
Qed.
End graph.

(** ** The aggregating node *)

(** What happens to it: a graph received, or a checkpoint ([None]). *)
Definition graphs_step `{PyHash} (tag : string) (threshold : Z) (st : GraphState) (e : option (uuid * graph_nodes)) : res GraphState :=
  match e with
  | Some (c, nodes) => UC4AggregateGraphs_aggregate tag threshold st (Graph c nodes)
  | None => '(st, _) ← graphs_snapshot_state tag st; Ok st
  end.

(** The nodes of a client's graphs, and all the nodes in sight. *)
Definition received (c : uuid) (es : list (option (uuid * graph_nodes))) : list node_entry :=
  List.concat ((λ e, match e with Some (c', nodes) => if decide (c = c') then nodes else [] | None => [] end) <$> es).
Definition in_sight (es : list (option (uuid * graph_nodes))) (n : Node) : Prop :=
  ∃ c nodes e, Some (c, nodes) ∈ es ∧ e ∈ nodes ∧ (n = e.1 ∨ n ∈ e.2.1 ∨ n ∈ e.2.2).

(** Nodes print and parse, and those that Python takes for equal are equal. *)
Definition plain_nodes (es : list (option (uuid * graph_nodes))) : Prop :=
  (∀ c nodes e, Some (c, nodes) ∈ es → e ∈ nodes → entry_wf e) ∧
  (∀ a b, in_sight es a → in_sight es b → pyeq a b → a = b).

Lemma received_cons c e es :
  received c (e :: es) = (match e with Some (c', nodes) => if decide (c = c') then nodes else [] | None => [] end) ++ received c es.
Proof. done. Qed.

Lemma in_sight_print es n : plain_nodes es → in_sight es n → node_wf n.
Proof.
  intros [Hwf _] (c & nodes & e & He & Hin & Hn). destruct (Hwf c nodes e He Hin) as (H1 & H2 & H3 & _).
  rewrite Forall_forall in H2, H3. destruct Hn as [->|[Hn|Hn]]; auto.
Qed.

Lemma sight_entry es c nodes e : plain_nodes es → Some (c, nodes) ∈ es → e ∈ nodes → entry_U (in_sight es) e.
Proof.
  intros [Hwf _] He Hin. destruct (Hwf c nodes e He Hin) as (H1 & H2 & H3 & H4 & H5). split_and!; try done.
  - exists c, nodes, e. split_and!; [done..|by left].
  - apply Forall_forall. intros a Ha. exists c, nodes, e. split_and!; [done..|by right; left].
  - apply Forall_forall. intros a Ha. exists c, nodes, e. split_and!; [done..|by right; right].
Qed.

(** Nodes of one bank, that print and parse: enough for the examples. *)
Lemma plain_one_bank (b : string) es :
  Forall (λ o : option (uuid * graph_nodes), match o with Some (_, nodes) => Forall (λ e, entry_wf e ∧
    Forall (λ n, node_bank n = b) (e.1 :: e.2.1 ++ e.2.2)) nodes | None => True end) es → plain_nodes es.
Proof.
  rewrite Forall_forall. intros Hall.
  assert (Hin : ∀ c nodes e, Some (c, nodes) ∈ es → e ∈ nodes → entry_wf e ∧ Forall (λ n, node_bank n = b) (e.1 :: e.2.1 ++ e.2.2)).
  { intros c nodes e He Hin. specialize (Hall _ He). cbn in Hall. rewrite Forall_forall in Hall. by apply Hall. }
  assert (Hb : ∀ n, in_sight es n → node_bank n = b).
  { intros n (c & nodes & e & He & Hi & Hn). destruct (Hin c nodes e He Hi) as [_ Hb]. rewrite Forall_forall in Hb. apply Hb.
    rewrite elem_of_cons, elem_of_app. done. }
  split; [intros c nodes e He Hi; by eapply Hin|].
  intros [b1 a1] [b2 a2] H1%Hb H2%Hb Heq. cbn in H1, H2. subst. apply (inj (String.append b)) in Heq. cbn in Heq. by subst.
Qed.

Ltac plain_demo b :=
  apply (plain_one_bank b); repeat (apply Forall_cons; split); try apply Forall_nil; try done;
  split_and!; repeat (apply Forall_cons; split); try (by apply Forall_nil); try done;
  try (split; apply (bool_decide_unpack _); vm_compute; exact I); apply (bool_decide_unpack _); vm_compute; exact I.

Section events.
Context `{PyHash} (tag : string) (threshold : Z) (U : Node → Prop).
Hypothesis U_inj : ∀ a b, U a → U b → pyeq a b → a = b.
Hypothesis U_print : ∀ n, U n → node_wf n.

Lemma graphs_run es : 0 < threshold → (∀ c nodes e, Some (c, nodes) ∈ es → e ∈ nodes → entry_U U e) →
  ∀ st W L, gholds tag U st W L →
  ∃ st' W', foldR (graphs_step tag threshold) st es = Ok st' ∧ gholds tag U st' W' (λ c, L c ++ received c es).
Proof.
  intros Hth. induction es as [|e es IH]; intros Hes st W L Hh.
  { exists st, W. split; [done|]. destruct Hh. split; try done; intros c; by rewrite app_nil_r. }
  cbn [foldR].
  assert (H1 : ∃ st1 W1, graphs_step tag threshold st e = Ok st1 ∧
    gholds tag U st1 W1 (λ c, L c ++ match e with Some (c', nodes) => if decide (c = c') then nodes else [] | None => [] end)).
  { destruct e as [[c0 nodes]|]; cbn [graphs_step].
    - destruct (graph_aggregate_holds tag U U_inj threshold st W L c0 nodes Hth Hh) as (st1 & W1 & E1 & Hh1).
      { intros e He. apply (Hes c0 nodes); [left|done]. }
      exists st1, W1. split; [exact E1|]. destruct Hh1 as [? ? ? ? ? Hp Hs]. split; try done; intros c.
      + rewrite (Hp c). unfold add_graph. destruct (decide (c0 = c)), (decide (c = c0)); by rewrite ?app_nil_r; subst.
      + rewrite (Hs c). unfold add_graph. destruct (decide (c0 = c)), (decide (c = c0)); by rewrite ?app_nil_r; subst.
    - destruct (graph_snapshot_holds tag U U_inj st W L Hh) as (st1 & sn & W1 & E1 & Hh1). rewrite E1. cbn [mbind res_bind].
      exists st1, W1. split; [done|]. destruct Hh1 as [? ? ? ? ? Hp Hs]. split; try done; intros c; by rewrite app_nil_r. }
  destruct H1 as (st1 & W1 & E1 & Hh1). rewrite E1. cbn [mbind res_bind].
  destruct (IH (λ c nodes e' He', Hes c nodes e' (list_elem_of_further _ _ _ He')) st1 W1 _ Hh1) as (st2 & W2 & E2 & Hh2).
  exists st2, W2. split; [exact E2|]. destruct Hh2 as [? ? ? ? ? Hp Hs]. split; try done; intros c.
  - rewrite (Hp c). by rewrite received_cons, app_assoc.
  - rewrite (Hs c). by rewrite received_cons, app_assoc.
Qed.
End events.

(** The graph [UC4AggregateGraphs] reports for a client is the union of the graphs
    it received: for any sequence of graphs of any clients, interleaved with
    checkpoints, and any spilling threshold, no step fails, and the messages of the
    result are graphs of the client, each sent with the affinity of its nodes, in
    which every node received stands exactly once, with exactly the predecessors
    and the successors it had in any of the graphs. *)
Theorem uc4_graph_exact `{PyHash} (tag : string) (threshold : Z) (c : uuid) (es : list (option (uuid * graph_nodes))) :
  0 < threshold → plain_nodes es →
  ∃ st st' out, foldR (graphs_step tag threshold) graph_init es = Ok st ∧
    UC4AggregateGraphs_get_result tag st c = Ok (st', out) ∧
    (∀ m, m ∈ out → ∃ nodes, m.1 = Graph c nodes ∧ ∀ e, e ∈ nodes → m.2 = hash_node e.1 mod AFFINITY_SHARDS_GRAPH) ∧
    NoDup (out_entries out).*1 ∧ (∀ e, e ∈ out_entries out → entry_wf e) ∧
    same_nb (preds_of (out_entries out)) (preds_of (received c es)) ∧
    same_nb (succs_of (out_entries out)) (succs_of (received c es)).
Proof.
  intros Hth Hes. pose proof (proj2 Hes) as Hinj. pose proof (λ n, in_sight_print es n Hes) as Hprint.
  destruct (graphs_run tag threshold (in_sight es) Hinj es Hth) with (st := graph_init) (W := @nil ((uuid * Z) * node_entry))
    (L := λ _ : uuid, @nil node_entry) as (st & W & E & Hh).
  - intros c' nodes e He Hin. by eapply sight_entry.
  - apply gholds_init.
  - destruct (graph_get_result tag (in_sight es) Hinj Hprint st W _ c Hh) as (st' & out & Eg & Hm & Hn & HU & Hp & Hs).
    exists st, st', out. split_and!; try done. intros e He. apply (entry_U_wf (in_sight es) Hprint). by apply HU.
Qed.

#[local] Instance graphs_demo_hash : PyHash :=
  {| hash_str s := Z.of_nat (String.length s); hash_uuid _ := 0; hash_identity _ _ := 0 |}.

(** Two partial graphs of a node with a checkpoint in between, and another client. *)
Definition demo_graphs : list (option (uuid * graph_nodes)) :=
  let node a := mkNode "1" a in
  [Some (uuid_lit 4, [(node "X", ([node "A"], [node "B"]))]); None; Some (uuid_lit 5, [(node "X", ([], [node "C"]))]);
   Some (uuid_lit 4, [(node "X", ([node "C"], [node "B"])); (node "A", ([], [node "X"]))])]%string.

Lemma demo_graphs_plain : plain_nodes demo_graphs.
Proof. plain_demo "1"%string. Qed.

Lemma uc4_graph_exact_witness :
  ∃ st st' out, foldR (graphs_step "uc4" 2) graph_init demo_graphs = Ok st ∧
    UC4AggregateGraphs_get_result "uc4" st (uuid_lit 4) = Ok (st', out) ∧ NoDup (out_entries out).*1.
Proof.
  destruct (uc4_graph_exact "uc4" 2 (uuid_lit 4) demo_graphs) as (st & st' & out & H1 & H2 & _ & H3 & _).
  - lia.
  - exact demo_graphs_plain.
  - exists st, st', out. split; [exact H1|]. split; [exact H2|exact H3].
Defined.
