(* ===== verification/UC4Degrees.v ===== *)
(** * High degree is exact although the buckets are capped

    [UC4Degree] keeps no more than five neighbours of a node, in memory and in every
    line it spills; yet the nodes it reports are those with five distinct neighbours
    or more, whatever is spilled when. *)

From S2P Require Import Prelude.
From S2P Require Import PyDict.
From S2P Require Import PyValues.
From S2P Require Import PyText.
From S2P Require Import PyTime.
From S2P Require Import PyFloat.
From S2P Require Import Wire.
From S2P Require Import PyRepr.
From S2P Require Import Messages.
From S2P Require Import Filters.
From S2P Require Import GroupBy.
From S2P Require Import Spill.
From S2P Require Import SpillLog.
From S2P Require Import UC4.
From S2P Require Import UC4Paths.
From S2P Require Import MergeFns.
From S2P Require Import UC4Prune.
From S2P Require Import ShardLog.
From S2P Require Import UC4Graphs.

(** ** Lists of neighbours that agree up to five *)

Section rep.
Context {K : Type}.
Implicit Types (L R : list (K * list K)) (n a : K).

(** At least [MIN_DEGREE] distinct neighbours. *)
Definition many L n : Prop := ∃ s, NoDup s ∧ MIN_DEGREE ≤ Z.of_nat (length s) ∧ ∀ a, a ∈ s → nbrs L n a.

(** [R] has the nodes of [L] and some of their neighbours: all, or enough. *)
Definition rep R L : Prop :=
  (∀ n, n ∈ R.*1 ↔ n ∈ L.*1) ∧ (∀ n a, nbrs R n a → nbrs L n a) ∧ ∀ n, many R n ∨ ∀ a, nbrs L n a → nbrs R n a.

#[export] Instance rep_preorder : PreOrder rep.
Proof.
  split.
  - intros L. split_and!; [done..|]. intros n. by right.
  - intros L1 L2 L3 (H1 & H2 & H3) (H4 & H5 & H6). split_and!.
    + intros n. by rewrite H1.
    + intros n a H. by apply H5, H2.
    + intros n. destruct (H3 n) as [H|H]; [by left|]. destruct (H6 n) as [(s & Hs & Hl & Ha)|H']; [|right; auto].
      left. exists s. split_and!; auto.
Qed.

Lemma many_mono L1 L2 n : (∀ a, nbrs L1 n a → nbrs L2 n a) → many L1 n → many L2 n.
Proof. intros H (s & Hs & Hl & Ha). exists s. split_and!; auto. Qed.

#[export] Instance rep_app : Proper (rep ==> rep ==> rep) (++).
Proof.
  intros R1 L1 (H1 & H2 & H3) R2 L2 (H4 & H5 & H6). split_and!.
  - intros n. rewrite !fmap_app, !elem_of_app. by rewrite H1, H4.
  - intros n a. rewrite !nbrs_app. naive_solver.
  - intros n. destruct (H3 n) as [H|H]; [left; eapply many_mono; [|exact H]; intros a; rewrite nbrs_app; by left|].
    destruct (H6 n) as [H'|H']; [left; eapply many_mono; [|exact H']; intros a; rewrite nbrs_app; by right|].
    right. intros a. rewrite !nbrs_app. naive_solver.
Qed.

Lemma same_rep R L : same_nb R L → rep R L.
Proof. intros [H1 H2]. split_and!; [done|by intros n a; rewrite H2|]. intros n. right. intros a. by rewrite H2. Qed.

Lemma rep_many R L n : rep R L → many R n ↔ many L n.
Proof.
  intros (_ & H2 & H3). split; [intros H; eapply many_mono; [exact (H2 n)|exact H]|]. intros H. destruct (H3 n) as [|H']; [done|]. by eapply many_mono.
Qed.
End rep.

(** ** Capped buckets *)

Lemma str_smem (x : string) (s : pyset string) : smem x s = true ↔ x ∈ s.
Proof. apply (elem_smem_iff (λ _, True)); [done..|]. by apply Forall_true. Qed.

Lemma capped_add_spec l : ∀ b,
  NoDup b → NoDup (capped_add b l) ∧ (∀ a, a ∈ b → a ∈ capped_add b l) ∧ (∀ a, a ∈ capped_add b l → a ∈ b ∨ a ∈ l) ∧
  (MIN_DEGREE ≤ Z.of_nat (length (capped_add b l)) ∨ ∀ a, a ∈ l → a ∈ capped_add b l).
Proof.
  induction l as [|x l IH]; intros b Hb; cbn [capped_add].
  { split_and!; [done|done|by left|right]. by intros a ?%not_elem_of_nil. }
  destruct (MIN_DEGREE <=? Z.of_nat (length b)) eqn:E.
  { split_and!; [done|done|by left|left]. by apply Z.leb_le. }
  assert (Hb' : NoDup (sadd b x)).
  { unfold sadd. destruct (smem x b) eqn:Ex; [done|]. apply NoDup_app. split; [done|]. split; [|apply NoDup_singleton].
    intros y Hy ->%list_elem_of_singleton. apply str_smem in Hy. congruence. }
  assert (Hin : ∀ a, a ∈ sadd b x ↔ a ∈ b ∨ a = x).
  { intros a. rewrite <- !str_smem, smem_sadd. done. }
  destruct (IH (sadd b x) Hb') as (H1 & H2 & H3 & H4). split_and!; [done| | |].
  - intros a Ha. apply H2, Hin. by left.
  - intros a [Ha|Ha]%H3; [|right; by right]. apply Hin in Ha as [Ha| ->]; [by left|right; left].
  - destruct H4 as [H4|H4]; [by left|]. right. intros a [->|Ha]%elem_of_cons; [|by apply H4]. apply H2, Hin. by right.
Qed.

(** The dicts of the function: one bucket for each node, without repetitions. *)
Definition buckets_ok (d : pydict string (pyset string)) : Prop := dict_wf d ∧ ∀ n b, (n, b) ∈ d → NoDup b.

Lemma bucket_get (d : pydict string (pyset string)) n b : dict_wf d → (n, b) ∈ d ↔ dget d n = Some b.
Proof.
  intros Hwf. split; [by apply elem_dget|]. intros (n' & E & Hin)%dget_Some_elem. by assert (n' = n) as -> by exact E.
Qed.

Lemma bucket_nbrs (d : pydict string (pyset string)) n a : dict_wf d → nbrs d n a ↔ a ∈ dget_or [] d n.
Proof.
  intros Hd. unfold nbrs. setoid_rewrite (bucket_get d n); [|done]. unfold dget_or. split.
  - intros (l & -> & Ha). exact Ha.
  - destruct (dget d n) as [l|]; [by exists l|]. by intros ?%not_elem_of_nil.
Qed.

Lemma bucket_keys (d : pydict string (pyset string)) n : dict_wf d → n ∈ d.*1 ↔ dget d n ≠ None.
Proof.
  intros Hd. rewrite list_elem_of_fmap. split.
  - intros ([n' l] & -> & Hin). apply (bucket_get d _ _ Hd) in Hin. cbn in *. congruence.
  - destruct (dget d n) as [l|] eqn:E; [|done]. intros _. exists (n, l). split; [done|]. by apply bucket_get.
Qed.

Lemma dget_str_dset (d : pydict string (pyset string)) n v m : dget (dset d n v) m = if decide (n = m) then Some v else dget d m.
Proof. rewrite dget_dset. by destruct (decide (pyeq n m)) as [E|E], (decide (n = m)) as [E'|E']. Qed.

Lemma capped_update_rep d n l : buckets_ok d → buckets_ok (capped_update d n l) ∧ rep (capped_update d n l) (d ++ [(n, l)]).
Proof.
  intros [Hwf Hd]. unfold capped_update.
  assert (Hb : NoDup (dget_or [] d n)).
  { unfold dget_or. destruct (dget d n) as [b|] eqn:E; [|apply NoDup_nil_2]. apply (bucket_get d n b Hwf) in E. by apply Hd in E. }
  destruct (capped_add_spec l (dget_or [] d n) Hb) as (H1 & H2 & H3 & H4). set (b' := capped_add (dget_or [] d n) l) in *.
  assert (Hwf' : dict_wf (dset d n b')) by by apply dset_wf.
  assert (Hget : ∀ m, dget_or [] (dset d n b') m = if decide (n = m) then b' else dget_or [] d m).
  { intros m. unfold dget_or. rewrite dget_str_dset. by destruct (decide (n = m)). }
  split.
  { split; [done|]. intros m b. rewrite bucket_get by done. rewrite dget_str_dset. destruct (decide (n = m)); [by intros [= <-]|].
    intros E. apply (bucket_get d m b Hwf) in E. by apply Hd in E. }
  assert (Hone : ∀ m a, nbrs [(n, l)] m a ↔ m = n ∧ a ∈ l).
  { intros m a. unfold nbrs. setoid_rewrite list_elem_of_singleton. naive_solver. }
  split_and!.
  - intros m. rewrite bucket_keys, dget_str_dset by done. rewrite fmap_app, elem_of_app, bucket_keys by done. cbn.
    rewrite list_elem_of_singleton. destruct (decide (n = m)); naive_solver.
  - intros m a. rewrite bucket_nbrs, Hget by done. rewrite nbrs_app, Hone, bucket_nbrs by done.
    destruct (decide (n = m)) as [<-|]; [|by left]. intros [?|?]%H3; [by left|by right].
  - intros m. destruct (decide (n = m)) as [<-|Hne].
    + destruct H4 as [H4|H4].
      * left. exists b'. split_and!; [done..|]. intros a. rewrite bucket_nbrs, Hget by done. by rewrite decide_True.
      * right. intros a. rewrite nbrs_app, Hone, !bucket_nbrs, Hget by done. rewrite decide_True by done. intros [?|[_ ?]]; auto.
    + right. intros a. rewrite nbrs_app, Hone, !bucket_nbrs, Hget by done. rewrite decide_False by done. naive_solver.
Qed.

Lemma capped_updates_rep (L : list (string * list string)) : ∀ d, buckets_ok d →
  buckets_ok (foldl (λ d e, capped_update d e.1 e.2) d L) ∧ rep (foldl (λ d e, capped_update d e.1 e.2) d L) (d ++ L).
Proof.
  induction L as [|[n l] L IH]; intros d Hd; cbn [foldl fst snd]; [by rewrite app_nil_r|].
  destruct (capped_update_rep d n l Hd) as [Hok Hrep]. destruct (IH _ Hok) as [Hok' Hrep']. split; [done|].
  rewrite Hrep', Hrep. by rewrite <- app_assoc.
Qed.

(** What a bucket says of the degree. *)
Lemma bucket_many d n : buckets_ok d → (∃ b, (n, b) ∈ d ∧ MIN_DEGREE ≤ Z.of_nat (length b)) ↔ many d n.
Proof.
  intros [Hwf Hd]. split.
  - intros (b & Hin & Hl). exists b. split_and!; [by eapply Hd|done|]. intros a Ha. by exists b.
  - intros (s & Hs & Hl & Ha). assert (Hsub : s ⊆ dget_or [] d n) by (intros a Hin; by apply bucket_nbrs, Ha).
    apply (NoDup_submseteq s) in Hsub; [|done]. apply submseteq_length in Hsub. unfold dget_or in Hsub.
    destruct (dget d n) as [b|] eqn:E; [|cbn in Hsub; unfold MIN_DEGREE in Hl; lia]. exists b. split; [by apply bucket_get|].
    cbn in Hsub. lia.
Qed.

(** ** A line of the spill *)

(** A node with the neighbours it points to and those that point to it. *)
Abbreviation degree_item := (string * (pyset string * pyset string))%type.
Definition item_outs (W : list degree_item) : list (string * list string) := (λ e, (e.1, e.2.1)) <$> W.
Definition item_ins (W : list degree_item) : list (string * list string) := (λ e, (e.1, e.2.2)) <$> W.

Definition degree_text (c : uuid) (e : degree_item) : chars :=
  match degree_line e.1 e.2.1 e.2.2 with Ok t => t | Exc _ => [] end.
Definition degree_fields (e : degree_item) : pyval :=
  PList [PStr e.1; PList (PStr <$> e.2.1); PList (PStr <$> e.2.2)].
Definition item_ok (e : degree_item) : Prop := NoDup e.2.1 ∧ NoDup e.2.2.

Lemma degree_fields_ok e : json_ok (degree_fields e) = true.
Proof.
  assert (H : ∀ l : pyset string, forallb json_ok (PStr <$> l) = true) by (induction l as [|x l IH]; [done|exact IH]).
  unfold degree_fields. cbn. by rewrite !H.
Qed.

Lemma degree_line_ok c e : degree_line e.1 e.2.1 e.2.2 = Ok (degree_text c e).
Proof.
  unfold degree_text. destruct (degree_line e.1 e.2.1 e.2.2) eqn:E; [done|]. exfalso.
  assert (H : ∀ l : pyset string, ∃ t, json_dumps (PList (PStr <$> l)) = Ok t).
  { intros l. rewrite json_dumps_list, (mapR_map json_dumps PStr json_string) by done. eauto. }
  unfold degree_line in E. rewrite json_dumps_list in E. cbn [mapR] in E.
  destruct (H e.2.1) as (t1 & E1), (H e.2.2) as (t2 & E2). rewrite dumps_string, E1, E2 in E. done.
Qed.

Lemma degree_text_clean c e : item_ok e → clean (degree_text c e).
Proof. intros _. eapply json_dumps_clean; [apply (degree_fields_ok e)|]. apply (degree_line_ok c). Qed.

Lemma str_set_wf (l : pyset string) : NoDup l → set_wf l.
Proof. intros H. unfold set_wf. by rewrite list_fmap_id. Qed.

Lemma string_set_strings (fs : list pyval) i (l : pyset string) :
  fs !! i = Some (PList (PStr <$> l)) → NoDup l → string_set_field fs i = Ok l.
Proof.
  intros Hf Hl. unfold string_set_field, py_nth. rewrite Hf. cbn [of_opt mbind res_bind py_iter].
  rewrite (mapR_map _ _ id) by done. cbn. rewrite list_fmap_id. by rewrite set_of_id by by apply str_set_wf.
Qed.

Lemma degree_of_line_text c e : item_ok e → degree_of_line (terminated (degree_text c e)) = Ok e.
Proof.
  intros [Ho Hi]. unfold degree_of_line, json_fields, terminated.
  rewrite (json_loads_line _ _ (degree_fields_ok e) (degree_line_ok c e)).
  assert (Ej : ∀ l : pyset string, jnorm <$> (PStr <$> l) = PStr <$> l) by (intros l; by rewrite <- list_fmap_compose).
  unfold degree_fields. cbn [jnorm]. cbn [py_iter mbind res_bind]. rewrite !fmap_cons, fmap_nil. cbn [jnorm]. rewrite !Ej.
  unfold py_nth at 1. cbn [lookup list_lookup of_opt mbind res_bind as_str].
  rewrite (string_set_strings _ 1 e.2.1), (string_set_strings _ 2 e.2.2) by done. by destruct e as [n [o i]].
Qed.

(** *** The two dicts move together *)

Abbreviation capped_all := (foldl (λ (d : pydict string (pyset string)) (e : string * list string), capped_update d e.1 e.2)).

Lemma degree_lines_fold c (items : list degree_item) : (∀ e, e ∈ items → item_ok e) → ∀ d,
  foldR add_degree_line d (terminated <$> (degree_text c <$> items)) =
    Ok (capped_all d.1 (item_outs items), capped_all d.2 (item_ins items)).
Proof.
  induction items as [|e items IH]; intros Hok d; [by destruct d|]. rewrite !fmap_cons. cbn [foldR].
  assert (He : add_degree_line d (terminated (degree_text c e)) = Ok (capped_update d.1 e.1 e.2.1, capped_update d.2 e.1 e.2.2)).
  { unfold add_degree_line. rewrite degree_of_line_text by (apply Hok; left). by destruct e as [n [o i]]. }
  rewrite He. cbn [mbind res_bind]. rewrite IH by (intros x Hx; apply Hok; by right). done.
Qed.

(** The neighbours of the nodes received, as text. *)
Definition texts (f : node_entry → list Node) (e : node_entry) : string * list string := (node_str e.1, node_str <$> f e).
Definition outs_of (L : list node_entry) : list (string * list string) := texts (λ e, e.2.2) <$> L.
Definition ins_of (L : list node_entry) : list (string * list string) := texts (λ e, e.2.1) <$> L.

Definition set_pairs (f : node_entry → list Node) (L : list node_entry) : list (string * list string) :=
  (λ e : node_entry, (node_str e.1, set_of (node_str <$> f e))) <$> L.

Lemma degree_steps nodes : ∀ d, foldl degree_step d nodes =
  (capped_all d.1 (set_pairs (λ e, e.2.2) nodes), capped_all d.2 (set_pairs (λ e, e.2.1) nodes)).
Proof. induction nodes as [|e nodes IH]; intros d; [by destruct d|]. cbn [foldl]. by rewrite IH. Qed.

Lemma set_pairs_nb f L : same_nb (set_pairs f L) (texts f <$> L).
Proof.
  unfold set_pairs. split.
  - intros n. by rewrite <- !list_fmap_compose.
  - intros n a. unfold nbrs. split.
    + intros (l & (e & [= -> ->] & He)%list_elem_of_fmap & Ha). exists (node_str <$> f e). split; [apply list_elem_of_fmap; by exists e|].
      apply str_smem. apply str_smem in Ha. by rewrite smem_set_of in Ha.
    + intros (l & (e & [= -> ->] & He)%list_elem_of_fmap & Ha). exists (set_of (node_str <$> f e)). split; [apply list_elem_of_fmap; by exists e|].
      apply str_smem. apply str_smem in Ha. by rewrite smem_set_of.
Qed.

(** ** The state as the neighbours received *)

Section degrees.
Context `{PyHash} (tag : string).
Implicit Types (st : DegreeState) (c : uuid) (L : uuid → list node_entry) (W : list ((uuid * Z) * degree_item)).

Abbreviation dlog := (shard_log degree_text tag item_ok).

Definition mem_out st c : pydict string (pyset string) := dget_or [] (_out st) c.
Definition mem_in st c : pydict string (pyset string) := dget_or [] (_in st) c.

Record dholds st W L : Prop := {
  d_log : dlog (degree_spill st) W;
  d_wf : dict_wf (_out st) ∧ dict_wf (_in st);
  d_mem : ∀ c, dmem (_out st) c = dmem (_in st) c;
  d_ok : ∀ c, buckets_ok (mem_out st c) ∧ buckets_ok (mem_in st c) ∧ ∀ n, n ∈ (mem_out st c).*1 ↔ n ∈ (mem_in st c).*1;
  d_out : ∀ c, rep (item_outs (client_items c W) ++ mem_out st c) (outs_of (L c));
  d_in : ∀ c, rep (item_ins (client_items c W) ++ mem_in st c) (ins_of (L c))
}.

Definition degree_init : DegreeState := mkDS [] [] (spill_init []).

Lemma buckets_nil : buckets_ok [].
Proof. split; [apply nil_wf|by intros n b ?%not_elem_of_nil]. Qed.

Lemma dholds_init : dholds degree_init [] (λ _, []).
Proof. split; try done; [apply shard_log_init|split; apply nil_wf|]. intros c. by split_and!; try apply buckets_nil. Qed.

(** *** Spilling *)

Definition item_of (o i : pydict string (pyset string)) (n : string) : degree_item := (n, (dget_or [] o n, dget_or [] i n)).

Lemma bucket_or_NoDup d n : buckets_ok d → NoDup (dget_or [] d n).
Proof.
  intros [Hwf Hd]. unfold dget_or. destruct (dget d n) as [b|] eqn:E; [|apply NoDup_nil_2].
  apply (bucket_get d n b Hwf) in E. by apply Hd in E.
Qed.

(** Every key of a dict with its bucket. *)
Lemma keys_nb (d : pydict string (pyset string)) (ks : list string) : dict_wf d → (∀ n, n ∈ ks ↔ n ∈ d.*1) →
  ∀ e, e ∈ (λ n, (n, dget_or [] d n)) <$> ks ↔ e ∈ d.
Proof.
  intros Hd Hks [n b]. rewrite list_elem_of_fmap. split.
  - intros (m & [= -> ->] & Hin). apply Hks, bucket_keys in Hin; [|done]. apply bucket_get; [done|]. unfold dget_or. by destruct (dget d m).
  - intros Hin. exists n. split; [|apply Hks, list_elem_of_fmap; by exists (n, b)]. apply (bucket_get d n b Hd) in Hin. unfold dget_or. by rewrite Hin.
Qed.

Lemma degree_spill_holds st W L c :
  dholds st W L →
  ∃ st' W', spill_degrees tag st c = Ok st' ∧ dholds st' W' L ∧ _out st' = ddel (_out st) c ∧ _in st' = ddel (_in st) c.
Proof.
  intros Hh. unfold spill_degrees. fold (mem_out st c) (mem_in st c). destruct (d_ok _ _ _ Hh c) as (Ho & Hi & Hk).
  set (ks := supdate (set_of (dkeys (mem_out st c))) (dkeys (mem_in st c))).
  assert (Hks : ∀ n, n ∈ ks ↔ n ∈ (mem_out st c).*1).
  { intros n. unfold ks. rewrite <- str_smem, smem_supdate, smem_set_of, !str_smem. unfold dkeys. rewrite Hk. tauto. }
  destruct (shard_log_appends degree_text tag item_ok degree_text_clean (append_degree_line tag c (mem_out st c) (mem_in st c))
    (item_of (mem_out st c) (mem_in st c)) degree_sharding_hash c ks) with (s := degree_spill st) (W := W) as (s' & E & Hl').
  { intros s n _. split; [|split; by apply bucket_or_NoDup]. unfold append_degree_line.
    pose proof (degree_line_ok c (item_of (mem_out st c) (mem_in st c) n)) as E. cbn [item_of fst snd] in E. by rewrite E. }
  { apply Hh. }
  rewrite E. cbn [mbind res_bind]. set (new := (λ b, ((c, degree_sharding_hash b), item_of (mem_out st c) (mem_in st c) b)) <$> ks) in *.
  assert (Hc : client_items c new = item_of (mem_out st c) (mem_in st c) <$> ks).
  { unfold client_items, new. clear. induction ks as [|n ks IH]; [done|]. rewrite fmap_cons, filter_cons. cbn [fst].
    rewrite decide_True by done. rewrite !fmap_cons. by f_equal. }
  assert (Hother : ∀ c', c ≠ c' → client_items c' new = []).
  { intros c' Hne. apply elem_of_nil_inv. intros e (sh & Hin)%client_items_elem. by apply list_elem_of_fmap in Hin as (n & [= ? _ _] & _). }
  assert (Hno : same_nb (item_outs (client_items c new)) (mem_out st c)).
  { apply same_nb_elem. rewrite Hc. unfold item_outs. rewrite <- list_fmap_compose. by apply keys_nb; [apply Ho|]. }
  assert (Hni : same_nb (item_ins (client_items c new)) (mem_in st c)).
  { apply same_nb_elem. rewrite Hc. unfold item_ins. rewrite <- list_fmap_compose. apply keys_nb; [apply Hi|]. intros n. by rewrite Hks. }
  eexists _, (W ++ new). split; [reflexivity|]. split; [|done].
  split; cbn [degree_spill _out _in].
  - exact Hl'.
  - split; apply ddel_wf, Hh.
  - intros c'. unfold dmem. rewrite !dget_ddel by apply Hh. destruct (decide (pyeq c c')); [done|]. apply (d_mem _ _ _ Hh c').
  - intros c'. unfold mem_out, mem_in. cbn [_out _in]. rewrite !dget_or_ddel_client by apply Hh.
    destruct (decide (c = c')); [split_and!; by try apply buckets_nil|apply (d_ok _ _ _ Hh c')].
  - intros c'. rewrite <- (d_out _ _ _ Hh c'). unfold mem_out at 1. cbn [_out]. rewrite dget_or_ddel_client by apply Hh.
    rewrite client_items_app. unfold item_outs at 1. rewrite fmap_app. fold (item_outs (client_items c' W)) (item_outs (client_items c' new)).
    destruct (decide (c = c')) as [<-|Hne]; rewrite app_nil_r || rewrite Hother by done.
    + f_equiv. by apply same_rep.
    + by rewrite app_nil_r.
  - intros c'. rewrite <- (d_in _ _ _ Hh c'). unfold mem_in at 1. cbn [_in]. rewrite dget_or_ddel_client by apply Hh.
    rewrite client_items_app. unfold item_ins at 1. rewrite fmap_app. fold (item_ins (client_items c' W)) (item_ins (client_items c' new)).
    destruct (decide (c = c')) as [<-|Hne]; rewrite app_nil_r || rewrite Hother by done.
    + f_equiv. by apply same_rep.
    + by rewrite app_nil_r.
Qed.
(** *** Receiving a graph *)

Lemma capped_set_pairs f (d : pydict string (pyset string)) (nodes : list node_entry) : buckets_ok d →
  buckets_ok (capped_all d (set_pairs f nodes)) ∧ rep (capped_all d (set_pairs f nodes)) (d ++ (texts f <$> nodes)).
Proof.
  intros Hd. destruct (capped_updates_rep (set_pairs f nodes) d Hd) as [Hok Hrep]. split; [done|].
  rewrite Hrep. f_equiv. apply same_rep, set_pairs_nb.
Qed.

Lemma degree_aggregate_holds threshold st W L c nodes :
  dholds st W L →
  ∃ st' W', UC4Degree_aggregate tag threshold st (Graph c nodes) = Ok st' ∧ dholds st' W' (add_graph L c nodes).
Proof.
  intros Hh. unfold UC4Degree_aggregate. destruct (d_ok _ _ _ Hh c) as (Ho & Hi & Hk).
  set (ps := if dmem (_out st) c then (_out st, _in st) else (dset (_out st) c [], dset (_in st) c [])).
  assert (Hget : dget_or [] ps.1 c = mem_out st c ∧ dget_or [] ps.2 c = mem_in st c).
  { unfold ps, mem_out, mem_in. pose proof (d_mem _ _ _ Hh c) as Hm. unfold dmem in Hm |- *. unfold dget_or.
    destruct (dget (_out st) c) eqn:E, (dget (_in st) c) eqn:E'; try done; cbn [fst snd]; [by rewrite E, E'|by rewrite !dget_dset_eq]. }
  assert (Hother : ∀ c', c ≠ c' → dget ps.1 c' = dget (_out st) c' ∧ dget ps.2 c' = dget (_in st) c').
  { intros c' Hne. unfold ps. destruct (dmem _ c); [done|]. cbn. by rewrite !dget_dset_ne by (intros E; by destruct Hne). }
  assert (Hwf : dict_wf ps.1 ∧ dict_wf ps.2).
  { unfold ps. destruct (d_wf _ _ _ Hh). destruct (dmem _ c); [done|]. split; by apply dset_wf. }
  clearbody ps. destruct ps as [outs ins]. cbn [fst snd] in *. destruct Hget as [-> ->].
  destruct (capped_set_pairs (λ e, e.2.2) (mem_out st c) nodes Ho) as [Ho' Hps].
  destruct (capped_set_pairs (λ e, e.2.1) (mem_in st c) nodes Hi) as [Hi' Hss].
  rewrite degree_steps. cbn zeta. cbn [fst snd].
  set (p := capped_all (mem_out st c) (set_pairs (λ e, e.2.2) nodes)) in *.
  set (q := capped_all (mem_in st c) (set_pairs (λ e, e.2.1) nodes)) in *.
  set (st1 := mkDS (dset outs c p) (dset ins c q) (degree_spill st)).
  assert (Hmem : ∀ c', mem_out st1 c' = (if decide (c = c') then p else mem_out st c') ∧
    mem_in st1 c' = (if decide (c = c') then q else mem_in st c')).
  { intros c'. unfold mem_out, mem_in. cbn [st1 _out _in]. rewrite !dget_or_dset_client. destruct (decide (c = c')) as [|Hne]; [done|].
    unfold dget_or. by destruct (Hother c' Hne) as [-> ->]. }
  assert (Hh1 : dholds st1 W (add_graph L c nodes)).
  { split.
    - apply Hh.
    - destruct Hwf. split; by apply dset_wf.
    - intros c'. unfold dmem. cbn [st1 _out _in]. rewrite !dget_dset. destruct (decide (pyeq c c')) as [E|E]; [done|].
      destruct (Hother c') as [-> ->]; [by intros ->|]. apply (d_mem _ _ _ Hh c').
    - intros c'. destruct (Hmem c') as [-> ->]. destruct (decide (c = c')) as [<-|]; [|apply (d_ok _ _ _ Hh c')].
      split_and!; [done..|]. intros n. rewrite (proj1 Hps), (proj1 Hss), !fmap_app, !elem_of_app, Hk. by rewrite <- !list_fmap_compose.
    - intros c'. destruct (Hmem c') as [-> _]. unfold add_graph. destruct (decide (c = c')) as [<-|]; [|apply (d_out _ _ _ Hh c')].
      rewrite Hps. unfold outs_of. rewrite fmap_app, app_assoc. f_equiv. apply (d_out _ _ _ Hh c).
    - intros c'. destruct (Hmem c') as [_ ->]. unfold add_graph. destruct (decide (c = c')) as [<-|]; [|apply (d_in _ _ _ Hh c')].
      rewrite Hss. unfold ins_of. rewrite fmap_app, app_assoc. f_equiv. apply (d_in _ _ _ Hh c). }
  destruct (threshold <=? Z.of_nat (length p)); [|by exists st1, W].
  destruct (degree_spill_holds st1 W _ c Hh1) as (st2 & W2 & E & Hh2 & _). by exists st2, W2.
Qed.

(** *** A checkpoint *)

Lemma degree_snapshot_holds st W L :
  dholds st W L → ∃ st' sn W', degree_snapshot_state tag st = Ok (st', sn) ∧ dholds st' W' L.
Proof.
  intros Hh. unfold degree_snapshot_state.
  assert (Hs : ∀ ks st W, dholds st W L → ∃ st' W', foldR (spill_degrees tag) st ks = Ok st' ∧ dholds st' W' L).
  { clear st W Hh. induction ks as [|c ks IH]; intros st W Hh; [by exists st, W|].
    destruct (degree_spill_holds st W L c Hh) as (st1 & W1 & E1 & Hh1 & _). cbn [foldR]. rewrite E1. apply (IH st1 W1 Hh1). }
  destruct (Hs (dkeys (_out st)) st W Hh) as (st1 & W1 & E1 & Hh1). rewrite E1. cbn [mbind res_bind].
  destruct (snapshot_items degree_text tag item_ok (degree_spill st1) W1 (d_log _ _ _ Hh1)) as (s' & sn & E & Hl).
  rewrite E. cbn [mbind res_bind]. eexists _, sn, W1. split; [reflexivity|]. destruct Hh1. by split.
Qed.

(** *** The result *)

(** The lines of all the shards, in one pair of dicts. *)
Lemma degree_lines_spec c W shards : ∀ s d, dlog s W → ∃ s' items,
  degree_lines tag c s d shards = Ok (s', (capped_all d.1 (item_outs items), capped_all d.2 (item_ins items))) ∧
  ∀ e, e ∈ items ↔ ∃ shard, shard ∈ shards ∧ e ∈ at_shard c shard W.
Proof.
  induction shards as [|shard shards IH]; intros s d Hl.
  { exists s, []. split; [by destruct d|]. intros e. split; [by intros ?%not_elem_of_nil|by intros (? & ?%not_elem_of_nil & _)]. }
  cbn [degree_lines]. destruct (ms_read_shard tag s c shard) as [s1 lines] eqn:E.
  destruct (read_shard_items degree_text tag item_ok s W c shard s1 lines Hl E) as [Hl1 ->].
  rewrite degree_lines_fold by (intros e He%at_shard_elem; by apply (proj2 Hl) in He). cbn [mbind res_bind].
  destruct (IH s1 (capped_all d.1 (item_outs (at_shard c shard W)), capped_all d.2 (item_ins (at_shard c shard W))) Hl1)
    as (s' & items & E' & Hin).
  exists s', (at_shard c shard W ++ items). split.
  - rewrite E'. unfold item_outs, item_ins. by rewrite !fmap_app, !foldl_app.
  - intros e. rewrite elem_of_app, Hin. setoid_rewrite elem_of_cons. naive_solver.
Qed.

Lemma degree_get_dicts st W L c :
  dholds st W L →
  ∃ st1 s' o i, (if dmem (_out st) c then spill_degrees tag st c else Ok st) = Ok st1 ∧
    degree_lines tag c (degree_spill st1) ([], []) (ms_shards_of tag (degree_spill st1) c) = Ok (s', (o, i)) ∧
    buckets_ok o ∧ buckets_ok i ∧ rep o (outs_of (L c)) ∧ rep i (ins_of (L c)).
Proof.
  intros Hh.
  assert (H1 : ∃ st1 W1, (if dmem (_out st) c then spill_degrees tag st c else Ok st) = Ok st1 ∧ dholds st1 W1 L ∧
    mem_out st1 c = [] ∧ mem_in st1 c = []).
  { pose proof (d_mem _ _ _ Hh c) as Hm. destruct (dmem (_out st) c) eqn:E.
    - destruct (degree_spill_holds st W L c Hh) as (st1 & W1 & E1 & Hh1 & Ep & Eq). exists st1, W1. split_and!; [done..| |].
      + unfold mem_out. rewrite Ep, dget_or_ddel_client by apply Hh. by rewrite decide_True.
      + unfold mem_in. rewrite Eq, dget_or_ddel_client by apply Hh. by rewrite decide_True.
    - exists st, W. unfold mem_out, mem_in, dget_or, dmem in *. destruct (dget (_out st) c); [done|].
      destruct (dget (_in st) c); [done|]. by split_and!. }
  destruct H1 as (st1 & W1 & E1 & Hh1 & Hmo & Hmi).
  destruct (degree_lines_spec c W1 (ms_shards_of tag (degree_spill st1) c) (degree_spill st1) ([], []) (d_log _ _ _ Hh1))
    as (s' & items & E2 & Hin). cbn [fst snd] in E2.
  eexists st1, s', _, _. split; [exact E1|]. split; [exact E2|].
  assert (Hitems : ∀ e, e ∈ items ↔ e ∈ client_items c W1).
  { intros e. rewrite Hin, client_items_elem. split.
    - intros (shard & _ & He%at_shard_elem). by exists shard.
    - intros [shard He]. exists shard. split; [|by apply at_shard_elem]. by eapply shards_of_items, He; [apply Hh1]. }
  assert (Hsame : ∀ f : degree_item → string * list string, same_nb (f <$> items) (f <$> client_items c W1)).
  { intros f. apply same_nb_elem. intros e. rewrite !list_elem_of_fmap. by setoid_rewrite Hitems. }
  destruct (capped_updates_rep (item_outs items) [] buckets_nil) as [Ho Hro], (capped_updates_rep (item_ins items) [] buckets_nil) as [Hi Hri].
  pose proof (d_out _ _ _ Hh1 c) as Hgo. pose proof (d_in _ _ _ Hh1 c) as Hgi. rewrite Hmo, app_nil_r in Hgo. rewrite Hmi, app_nil_r in Hgi.
  split_and!; [done|done| |].
  - etransitivity; [exact Hro|]. etransitivity; [|exact Hgo]. apply same_rep, Hsame.
  - etransitivity; [exact Hri|]. etransitivity; [|exact Hgi]. apply same_rep, Hsame.
Qed.
End degrees.

(** ** From texts to nodes *)

(** Nodes with the neighbours [f] gives them: [preds_of] and [succs_of]. *)
Definition pairs (f : node_entry → list Node) (L : list node_entry) : list (Node * list Node) := (λ e, (e.1, f e)) <$> L.

Section nodes.
Context (U : Node → Prop) (f : node_entry → list Node) (L : list node_entry).
Hypothesis U_inj : ∀ a b, U a → U b → pyeq a b → a = b.
Hypothesis U_print : ∀ n, U n → node_wf n.
Hypothesis HL : ∀ e, e ∈ L → U e.1 ∧ Forall U (f e).

Lemma node_str_U_inj a b : U a → U b → node_str a = node_str b → a = b.
Proof.
  intros Ha%U_print%node_from_str_str Hb%U_print%node_from_str_str E. rewrite E in Ha. congruence.
Qed.

Lemma nbrs_texts n s : U n → nbrs (texts f <$> L) (node_str n) s ↔ ∃ a, s = node_str a ∧ nbrs (pairs f L) n a.
Proof.
  intros Hn. unfold nbrs. split.
  - intros (l & (e & [= En ->] & He)%list_elem_of_fmap & (a & -> & Ha)%list_elem_of_fmap).
    apply node_str_U_inj in En; [|done|by apply HL]. exists a. split; [done|]. exists (f e). split; [|done].
    apply list_elem_of_fmap. exists e. by rewrite En.
  - intros (a & -> & l & (e & [= -> ->] & He)%list_elem_of_fmap & Ha). exists (node_str <$> f e). split.
    + apply list_elem_of_fmap. by exists e.
    + apply list_elem_of_fmap. by exists a.
Qed.

Lemma nbrs_U n a : nbrs (pairs f L) n a → U n ∧ U a.
Proof.
  intros (l & (e & [= -> ->] & He)%list_elem_of_fmap & Ha). destruct (HL e He) as [Hn Hf]. split; [done|].
  rewrite Forall_forall in Hf. by apply Hf.
Qed.

(** Texts that are those of nodes. *)
Lemma texts_of_nodes (P : Node → Prop) (ss : list string) : (∀ s, s ∈ ss → ∃ a, s = node_str a ∧ P a) →
  ∃ l, ss = node_str <$> l ∧ Forall P l.
Proof.
  induction ss as [|s ss IH]; intros Hs; [by exists []|]. destruct (Hs s) as (a & -> & Ha); [left|].
  destruct IH as (l & -> & Hl); [intros x Hx; apply Hs; by right|]. exists (a :: l). by split; [|constructor].
Qed.

Lemma many_texts n : U n → many (texts f <$> L) (node_str n) ↔ many (pairs f L) n.
Proof.
  intros Hn. split.
  - intros (ss & Hnd & Hl & Hs). destruct (texts_of_nodes (nbrs (pairs f L) n) ss) as (l & -> & Hall).
    { intros s Hin. by apply nbrs_texts, Hs. }
    exists l. rewrite length_fmap in Hl. split_and!; [by eapply NoDup_fmap_1|done|]. by apply Forall_forall.
  - intros (l & Hnd & Hl & Hall). exists (node_str <$> l). split_and!.
    + apply NoDup_fmap_2_strong; [|done]. intros a b Ha Hb. apply node_str_U_inj; by eapply nbrs_U, Hall.
    + by rewrite length_fmap.
    + intros s (a & -> & Ha)%list_elem_of_fmap. apply nbrs_texts; [done|]. exists a. split; [done|]. by apply Hall.
Qed.

Lemma high_degree_spec d : buckets_ok d → rep d (texts f <$> L) →
  ∃ ns, high_degree d = Ok ns ∧ ∀ n, n ∈ ns ↔ many (pairs f L) n.
Proof.
  intros Hd Hrep. unfold high_degree. set (ks := dkeys (dfilter _ d)).
  assert (Hks : ∀ k, k ∈ ks ↔ many (texts f <$> L) k).
  { intros k. rewrite <- (rep_many _ _ k Hrep), <- (bucket_many d k Hd). unfold ks, dkeys, dfilter. rewrite list_elem_of_fmap. split.
    - intros ([k' b] & -> & [Hb Hin]%list_elem_of_filter). exists b. split; [done|]. by apply Z.leb_le.
    - intros (b & Hin & Hb). exists (k, b). split; [done|]. apply list_elem_of_filter. split; [|done]. by apply Z.leb_le. }
  destruct (texts_of_nodes U ks) as (ns & Ens & Hns).
  { intros k Hk. apply Hks in Hk as (ss & _ & Hl & Hs). destruct ss as [|s ss]; [cbn in Hl; unfold MIN_DEGREE in Hl; lia|].
    destruct (Hs s) as (l & (e & [= -> _] & He)%list_elem_of_fmap & _); [left|]. exists e.1. split; [done|]. by apply HL. }
  rewrite Ens, (mapR_map node_from_str node_str id).
  2: { intros n Hn. rewrite Forall_forall in Hns. by apply node_from_str_str, U_print, Hns. }
  cbn [mbind res_bind]. rewrite list_fmap_id. exists (set_of ns). split; [done|]. intros n. unfold set_of.
  rewrite (elem_supdate U U_inj) by done. split.
  - intros [H%not_elem_of_nil|H]; [done|]. rewrite Forall_forall in Hns. apply many_texts; [by apply Hns|]. apply Hks. rewrite Ens.
    apply list_elem_of_fmap. by exists n.
  - intros Hm. right. assert (Hn : U n).
    { destruct Hm as (ss & _ & Hl & Hs). destruct ss as [|s ss]; [cbn in Hl; unfold MIN_DEGREE in Hl; lia|]. apply (nbrs_U n s), Hs. left. }
    apply many_texts, Hks in Hm; [|done]. rewrite Ens in Hm. apply list_elem_of_fmap in Hm as (n' & E & Hin).
    rewrite Forall_forall in Hns. apply node_str_U_inj in E; [by subst|done|by apply Hns].
Qed.
End nodes.

(** ** The degree node *)

(** What happens to it: a graph received, or a checkpoint ([None]). *)
Definition degrees_step `{PyHash} (tag : string) (threshold : Z) (st : DegreeState) (e : option (uuid * graph_nodes)) : res DegreeState :=
  match e with
  | Some (c, nodes) => UC4Degree_aggregate tag threshold st (Graph c nodes)
  | None => '(st, _) ← degree_snapshot_state tag st; Ok st
  end.

Lemma dholds_ext `{PyHash} tag st W L1 L2 : (∀ c, L1 c = L2 c) → dholds tag st W L1 → dholds tag st W L2.
Proof. intros E [? ? ? ? Ho Hi]. split; try done; intros c; rewrite <- E; [apply Ho|apply Hi]. Qed.

Lemma degrees_run `{PyHash} (tag : string) (threshold : Z) es : ∀ st W L, dholds tag st W L →
  ∃ st' W', foldR (degrees_step tag threshold) st es = Ok st' ∧ dholds tag st' W' (λ c, L c ++ received c es).
Proof.
  induction es as [|e es IH]; intros st W L Hh.
  { exists st, W. split; [done|]. eapply dholds_ext, Hh. intros c. by rewrite app_nil_r. }
  assert (H1 : ∃ st1 W1 L1, degrees_step tag threshold st e = Ok st1 ∧ dholds tag st1 W1 L1 ∧
    ∀ c, L1 c ++ received c es = L c ++ received c (e :: es)).
  { destruct e as [[c0 nodes]|]; cbn [degrees_step].
    - destruct (degree_aggregate_holds tag threshold st W L c0 nodes Hh) as (st1 & W1 & E1 & Hh1).
      exists st1, W1, (add_graph L c0 nodes). split_and!; [exact E1|done|]. intros c. rewrite received_cons. unfold add_graph.
      rewrite app_assoc. destruct (decide (c0 = c)), (decide (c = c0)); by rewrite ?app_nil_r; subst.
    - destruct (degree_snapshot_holds tag st W L Hh) as (st1 & sn & W1 & E1 & Hh1). exists st1, W1, L. rewrite E1. by split_and!. }
  destruct H1 as (st1 & W1 & L1 & E1 & Hh1 & EL). cbn [foldR]. rewrite E1. cbn [mbind res_bind].
  destruct (IH st1 W1 L1 Hh1) as (st2 & W2 & E2 & Hh2). exists st2, W2. split; [exact E2|]. by eapply dholds_ext, Hh2.
Qed.

(** The report on a client, when all the nodes are in [U]. *)
Lemma degree_report `{PyHash} (tag : string) (threshold : Z) (U : Node → Prop) (c : uuid) es :
  (∀ a b, U a → U b → pyeq a b → a = b) → (∀ n, U n → node_wf n) →
  (∀ c nodes e, Some (c, nodes) ∈ es → e ∈ nodes → entry_U U e) →
  ∃ st st' hi_out hi_in, foldR (degrees_step tag threshold) degree_init es = Ok st ∧
    UC4Degree_get_result tag st c = Ok (st', [(HighDegree c hi_out hi_in, 0)]) ∧
    (∀ n, n ∈ hi_out ↔ many (succs_of (received c es)) n) ∧
    (∀ n, n ∈ hi_in ↔ many (preds_of (received c es)) n).
Proof.
  intros Hinj Hprint Hes.
  destruct (degrees_run tag threshold es degree_init [] (λ _, []) (dholds_init tag)) as (st & W & E & Hh).
  destruct (degree_get_dicts tag st W _ c Hh) as (st1 & s' & o & i & E1 & E2 & Ho & Hi & Hro & Hri). cbn [app] in Hro, Hri.
  assert (Hent : ∀ e, e ∈ received c es → entry_U U e).
  { intros e (l & ([[c' nodes]|] & -> & Hin)%list_elem_of_fmap & He)%elem_concat; [|by apply not_elem_of_nil in He].
    destruct (decide (c = c')) as [<-|]; [|by apply not_elem_of_nil in He]. by eapply Hes. }
  destruct (high_degree_spec U (λ e, e.2.2) (received c es) Hinj Hprint) with (d := o) as (hi_out & Eo & Hout).
  { intros e He. by destruct (Hent e He) as (? & ? & ? & _). } { done. } { done. }
  destruct (high_degree_spec U (λ e, e.2.1) (received c es) Hinj Hprint) with (d := i) as (hi_in & Ei & Hin).
  { intros e He. by destruct (Hent e He) as (? & ? & _). } { done. } { done. }
  eexists st, _, hi_out, hi_in. split; [exact E|]. split; [|by split].
  unfold UC4Degree_get_result. rewrite E1. cbn [mbind res_bind]. rewrite E2. cbn [mbind res_bind fst snd].
  rewrite Eo. cbn [mbind res_bind]. rewrite Ei. reflexivity.
Qed.

(** The nodes [UC4Degree] reports for a client are exactly those of high degree,
    although it keeps no more than five neighbours of a node: for any sequence of
    graphs of any clients, interleaved with checkpoints, and any spilling threshold,
    no step fails, and the single message of the result has the nodes with five
    distinct successors or more over all the graphs received, and those with
    five distinct predecessors or more. *)
Theorem uc4_degree_exact `{PyHash} (tag : string) (threshold : Z) (c : uuid) (es : list (option (uuid * graph_nodes))) :
  plain_nodes es →
  ∃ st st' hi_out hi_in, foldR (degrees_step tag threshold) degree_init es = Ok st ∧
    UC4Degree_get_result tag st c = Ok (st', [(HighDegree c hi_out hi_in, 0)]) ∧
    (∀ n, n ∈ hi_out ↔ many (succs_of (received c es)) n) ∧
    (∀ n, n ∈ hi_in ↔ many (preds_of (received c es)) n).
Proof.
  intros Hes. apply (degree_report tag threshold (in_sight es)).
  - apply Hes.
  - intros n. by apply in_sight_print.
  - intros c' nodes e. by apply sight_entry.
Qed.

#[local] Instance degrees_demo_hash : PyHash :=
  {| hash_str s := Z.of_nat (String.length s); hash_uuid _ := 0; hash_identity _ _ := 0 |}.

(** A node of degree six spread over two graphs, with a checkpoint in between. *)
Definition demo_degrees : list (option (uuid * graph_nodes)) :=
  let node a := mkNode "1" a in
  [Some (uuid_lit 4, [(node "H", ([], [node "A"; node "B"; node "C"]))]); None;
   Some (uuid_lit 4, [(node "H", ([node "A"], [node "C"; node "D"; node "E"; node "F"]))])]%string.

Lemma demo_degrees_plain : plain_nodes demo_degrees.
Proof. plain_demo "1"%string. Qed.

Lemma uc4_degree_exact_witness :
  ∃ st st' hi_out hi_in, foldR (degrees_step "uc4" 2) degree_init demo_degrees = Ok st ∧
    UC4Degree_get_result "uc4" st (uuid_lit 4) = Ok (st', [(HighDegree (uuid_lit 4) hi_out hi_in, 0)]) ∧
    ∀ n, n ∈ hi_out ↔ many (succs_of (received (uuid_lit 4) demo_degrees)) n.
Proof.
  destruct (uc4_degree_exact "uc4" 2 (uuid_lit 4) demo_degrees demo_degrees_plain) as (st & st' & ho & hi & H1 & H2 & H3 & _).
  exists st, st', ho, hi. split; [exact H1|]. split; [exact H2|exact H3].
Defined.
