(* ===== verification/UC4Build.v ===== *)
(** * The graph of a batch says its transfers

    [UC4ComputeGraph] builds a graph from a batch and splits it by the affinity of
    the nodes: what its messages say of the neighbours of every node is what the
    transactions of the batch say. *)

From S2P Require Import Prelude.
From S2P Require Import PyDict.
From S2P Require Import PyValues.
From S2P Require Import PyText.
From S2P Require Import PyTime.
From S2P Require Import PyFloat.
From S2P Require Import Wire.
From S2P Require Import Messages.
From S2P Require Import Filters.
From S2P Require Import GroupBy.
From S2P Require Import Spill.
From S2P Require Import SpillLog.
From S2P Require Import UC4.
From S2P Require Import UC4Paths.
From S2P Require Import MergeFns.
From S2P Require Import UC4Prune.
From S2P Require Import ShardLog.
From S2P Require Import UC4Graphs.

Definition origin_of (t : Transaction) : Node := mkNode (from_bank t) (from_account t).
Definition destination_of (t : Transaction) : Node := mkNode (to_bank t) (to_account t).

(** The predecessors and successors the transactions give, both ends listed. *)
Definition transfer_preds (l : list Transaction) : list (Node * list Node) :=
  List.concat ((λ t, [(destination_of t, [origin_of t]); (origin_of t, [])]) <$> l).
Definition transfer_succs (l : list Transaction) : list (Node * list Node) :=
  List.concat ((λ t, [(destination_of t, []); (origin_of t, [destination_of t])]) <$> l).

Lemma transfers_app l1 l2 :
  transfer_preds (l1 ++ l2) = transfer_preds l1 ++ transfer_preds l2 ∧
  transfer_succs (l1 ++ l2) = transfer_succs l1 ++ transfer_succs l2.
Proof. unfold transfer_preds, transfer_succs. by rewrite !fmap_app, !List.concat_app. Qed.

Lemma transfer_nbrs l n a :
  (nbrs (transfer_preds l) n a ↔ ∃ t, t ∈ l ∧ destination_of t = n ∧ origin_of t = a) ∧
  (nbrs (transfer_succs l) n a ↔ ∃ t, t ∈ l ∧ origin_of t = n ∧ destination_of t = a).
Proof.
  unfold nbrs, transfer_preds, transfer_succs. setoid_rewrite elem_concat. setoid_rewrite list_elem_of_fmap. split.
  - split.
    + intros (s & (es & (t & -> & Ht) & Hin) & Ha). exists t. split; [done|].
      rewrite !elem_of_cons in Hin. destruct Hin as [[= -> ->]|[[= -> ->]|Hin]].
      * by apply list_elem_of_singleton in Ha.
      * by apply not_elem_of_nil in Ha.
      * by apply not_elem_of_nil in Hin.
    + intros (t & Ht & <- & <-). exists [origin_of t]. split; [|left]. eexists. split; [by exists t|]. left.
  - split.
    + intros (s & (es & (t & -> & Ht) & Hin) & Ha). exists t. split; [done|].
      rewrite !elem_of_cons in Hin. destruct Hin as [[= -> ->]|[[= -> ->]|Hin]].
      * by apply not_elem_of_nil in Ha.
      * by apply list_elem_of_singleton in Ha.
      * by apply not_elem_of_nil in Hin.
    + intros (t & Ht & <- & <-). exists [destination_of t]. split; [|left]. eexists. split; [by exists t|]. right. left.
Qed.

Lemma dget_fmap_snd {V W} (f : Node * V → W) (d : pydict Node V) n : (∀ k v v', key_of k = key_of v' → f (k, v) = f (v', v)) →
  dget ((λ e, (e.1, f e)) <$> d) n = (λ v, f (n, v)) <$> dget d n.
Proof.
  intros Hf. induction d as [|[k v] d IH]; [done|]. rewrite fmap_cons. cbn [dget fst]. case_decide as Hk; [|done].
  cbn. f_equal. by apply Hf.
Qed.

Section build.
Context `{PyHash} (U : Node → Prop).
Hypothesis U_inj : ∀ a b, U a → U b → pyeq a b → a = b.
Implicit Types (nodes : graph_nodes) (n a b : Node).

Definition graph_ok nodes : Prop := nd_ok U (preds_of nodes) ∧ nd_ok U (succs_of nodes).

Lemma graph_ok_entry nodes e : graph_ok nodes → e ∈ nodes → entry_U U e.
Proof.
  intros [[_ Hp] [_ Hs]] He. destruct (Hp e.1 e.2.1) as (Hn & ? & ?); [apply list_elem_of_fmap; by exists e|].
  destruct (Hs e.1 e.2.2) as (_ & ? & ?); [apply list_elem_of_fmap; by exists e|]. by split_and!.
Qed.

Lemma preds_dset nodes n v :
  preds_of (dset nodes n v) = dset (preds_of nodes) n v.1 ∧ succs_of (dset nodes n v) = dset (succs_of nodes) n v.2.
Proof.
  unfold preds_of, succs_of. induction nodes as [|[k w] nodes [IH1 IH2]]; [done|]. cbn [dset].
  rewrite !fmap_cons. cbn [dset fst snd]. case_decide; rewrite !fmap_cons; cbn [fst snd]; [done|]. by rewrite IH1, IH2.
Qed.

Lemma preds_get nodes n :
  dget_or [] (preds_of nodes) n = (dget_or ([], []) nodes n).1 ∧ dget_or [] (succs_of nodes) n = (dget_or ([], []) nodes n).2.
Proof.
  unfold dget_or, preds_of, succs_of. rewrite !dget_fmap_snd by done. by destruct (dget nodes n).
Qed.

(** A node given its new sets. *)
Lemma graph_put nodes n p s lp ls : graph_ok nodes → U n → Forall U p → Forall U s → set_wf p → set_wf s →
  (∀ a, a ∈ p ↔ a ∈ (dget_or ([], []) nodes n).1 ∨ a ∈ lp) → (∀ a, a ∈ s ↔ a ∈ (dget_or ([], []) nodes n).2 ∨ a ∈ ls) →
  graph_ok (dset nodes n (p, s)) ∧
  same_nb (preds_of (dset nodes n (p, s))) (preds_of nodes ++ [(n, lp)]) ∧
  same_nb (succs_of (dset nodes n (p, s))) (succs_of nodes ++ [(n, ls)]).
Proof.
  intros [Hp Hs] Hn HUp HUs Hwp Hws Hinp Hins. destruct (preds_get nodes n) as [Ep Es].
  destruct (preds_dset nodes n (p, s)) as [Edp Eds]. unfold graph_ok. rewrite Edp, Eds. cbn [fst snd].
  destruct (update_ok U U_inj (preds_of nodes) n lp p Hp Hn HUp Hwp) as [H1 H2]; [by rewrite Ep|].
  destruct (update_ok U U_inj (succs_of nodes) n ls s Hs Hn HUs Hws) as [H3 H4]; [by rewrite Es|]. done.
Qed.

Lemma graph_sets nodes n : graph_ok nodes → let ps := dget_or ([], []) nodes n in
  Forall U ps.1 ∧ Forall U ps.2 ∧ set_wf ps.1 ∧ set_wf ps.2.
Proof.
  intros [Hp Hs]. destruct (preds_get nodes n) as [Ep Es]. cbn zeta. rewrite <- Ep, <- Es.
  destruct (nd_ok_get U _ n Hp), (nd_ok_get U _ n Hs). done.
Qed.

Lemma elem_sadd s n a : Forall U s → U n → a ∈ sadd s n ↔ a ∈ s ∨ a = n.
Proof.
  intros Hs Hn. rewrite <- list_elem_of_singleton. apply (elem_supdate U U_inj s [n]); [done|]. by constructor.
Qed.

Lemma dset_twice nodes n v w : dset (dset nodes n v) n w = dset nodes n w.
Proof.
  induction nodes as [|[k x] nodes IH]; cbn [dset].
  - by rewrite decide_True.
  - case_decide as Hk; cbn [dset]; [by rewrite decide_True|]. by rewrite decide_False, IH.
Qed.

Lemma add_origin_dset nodes n a :
  add_origin nodes n a = dset nodes n (sadd (dget_or ([], []) nodes n).1 a, (dget_or ([], []) nodes n).2) ∧
  add_destination nodes n a = dset nodes n ((dget_or ([], []) nodes n).1, sadd (dget_or ([], []) nodes n).2 a).
Proof.
  unfold add_origin, add_destination, dmem, dget_or. destruct (dget nodes n) as [[p s]|] eqn:E; [by rewrite E|].
  rewrite dget_dset_eq. cbn. by rewrite !dset_twice.
Qed.

Lemma graph_step_spec nodes t : graph_ok nodes → U (origin_of t) → U (destination_of t) →
  graph_ok (graph_step nodes t) ∧
  same_nb (preds_of (graph_step nodes t)) (preds_of nodes ++ transfer_preds [t]) ∧
  same_nb (succs_of (graph_step nodes t)) (succs_of nodes ++ transfer_succs [t]).
Proof.
  intros Hok Ho Hd. unfold graph_step. fold (origin_of t) (destination_of t). set (a := origin_of t) in *. set (b := destination_of t) in *.
  destruct (graph_sets nodes b Hok) as (H1 & H2 & H3 & H4).
  destruct (add_origin_dset nodes b a) as [Ea _].
  destruct (graph_put nodes b (sadd (dget_or ([], []) nodes b).1 a) (dget_or ([], []) nodes b).2 [a] [])
    as (Hok1 & Hp1 & Hs1); [done|done|by apply sadd_U|done|by apply sadd_wf|done| | |].
  { intros x. rewrite elem_sadd by done. by rewrite list_elem_of_singleton. }
  { intros x. rewrite elem_of_nil. tauto. }
  rewrite <- Ea in Hok1, Hp1, Hs1. set (nodes1 := add_origin nodes b a) in *.
  destruct (graph_sets nodes1 a Hok1) as (H5 & H6 & H7 & H8).
  destruct (add_origin_dset nodes1 a b) as [_ Eb].
  destruct (graph_put nodes1 a (dget_or ([], []) nodes1 a).1 (sadd (dget_or ([], []) nodes1 a).2 b) [] [b])
    as (Hok2 & Hp2 & Hs2); [done|done|done|by apply sadd_U|done|by apply sadd_wf| | |].
  { intros x. rewrite elem_of_nil. tauto. }
  { intros x. rewrite elem_sadd by done. by rewrite list_elem_of_singleton. }
  rewrite <- Eb in Hok2, Hp2, Hs2. split; [done|]. split.
  - rewrite Hp2, Hp1. by rewrite <- app_assoc.
  - rewrite Hs2, Hs1. by rewrite <- app_assoc.
Qed.

Lemma graph_of_batch_spec l : (∀ t, t ∈ l → U (origin_of t) ∧ U (destination_of t)) →
  graph_ok (graph_of_batch l) ∧
  same_nb (preds_of (graph_of_batch l)) (transfer_preds l) ∧ same_nb (succs_of (graph_of_batch l)) (transfer_succs l).
Proof.
  unfold graph_of_batch. induction l as [|t l IH] using rev_ind; intros Hl; [split; [split; apply nd_ok_nil|done]|].
  rewrite foldl_snoc. destruct IH as (Hok & Hp & Hs); [intros x Hx; apply Hl, elem_of_app; by left|].
  destruct (Hl t) as [Ho Hd]; [apply elem_of_app; right; left|].
  destruct (graph_step_spec _ t Hok Ho Hd) as (Hok' & Hp' & Hs'). destruct (transfers_app l [t]) as [-> ->].
  split; [done|]. by rewrite Hp', Hs', Hp, Hs.
Qed.

(** Every node of a graph goes to the group of its affinity, unchanged. *)
Lemma by_affinity_graph (aff : Node → Z) nodes : dict_wf nodes →
  flat (by_affinity aff graph_add nodes) ≡ₚ (λ e, (aff e.1, e)) <$> nodes.
Proof.
  induction nodes as [|[k v] nodes IH] using rev_ind; [done|]. intros Hwf.
  assert (dict_wf nodes ∧ key_of k ∉ key_of <$> dkeys nodes) as [Hd Hk].
  { unfold dict_wf, dkeys in Hwf. rewrite !fmap_app in Hwf. apply NoDup_app in Hwf as (H1 & H2 & _). split; [done|].
    intros Hin. apply (H2 _ Hin). by left. }
  unfold by_affinity. rewrite foldl_app. cbn [foldl fst snd]. fold (by_affinity aff graph_add nodes).
  specialize (IH Hd). set (groups := by_affinity aff graph_add nodes) in *.
  assert (Hnone : dget (dget_or [] groups (aff k)) k = None).
  { apply dget_None. intros (k' & Ek & Hin)%list_elem_of_fmap. apply Hk. rewrite Ek.
    apply list_elem_of_fmap. exists k'. split; [done|]. unfold dget_or in Hin.
    destruct (dget groups (aff k)) as [g|] eqn:E; [|by apply not_elem_of_nil in Hin]. cbn in Hin.
    apply dget_Some_elem in E as (a & _ & Ha). apply list_elem_of_fmap in Hin as (x & -> & Hx).
    assert (Hf : (a, x) ∈ flat groups) by (apply flat_elem; by exists g). rewrite IH in Hf.
    apply list_elem_of_fmap in Hf as (e & [= _ ->] & He). apply list_elem_of_fmap. by exists e. }
  unfold graph_add at 1. rewrite Hnone, (dset_fresh (dget_or [] groups (aff k))) by done.
  etransitivity; [apply (flat_dset groups (aff k))|]. rewrite IH. by rewrite fmap_app.
Qed.

(** Messages of graphs whose nodes all have the affinity the message is sent with. *)
Definition graphs_by (aff : Node → Z) (c : uuid) (out : list (Body * Z)) : Prop :=
  ∀ m, m ∈ out → ∃ nodes, m.1 = Graph c nodes ∧ ∀ e, e ∈ nodes → m.2 = aff e.1.

Lemma graph_group_by_spec c l : (∀ t, t ∈ l → U (origin_of t) ∧ U (destination_of t)) →
  ∃ out, UC4ComputeGraph_group_by (Transactions c l) = Ok out ∧ graphs_by node_affinity c out ∧
    (∀ e, e ∈ out_entries out → entry_U U e) ∧
    same_nb (preds_of (out_entries out)) (transfer_preds l) ∧ same_nb (succs_of (out_entries out)) (transfer_succs l).
Proof.
  intros Hl. destruct (graph_of_batch_spec l Hl) as (Hok & Hp & Hs). set (nodes := graph_of_batch l) in *.
  assert (Hwf : dict_wf nodes).
  { destruct Hok as [[Hwf _] _]. unfold dict_wf, dkeys, preds_of in *. rewrite <- (list_fmap_compose _ fst nodes) in Hwf. exact Hwf. }
  pose proof (by_affinity_graph node_affinity nodes Hwf) as Hflat.
  assert (Hent : out_entries (yield_groups (Graph c) (by_affinity node_affinity graph_add nodes)) ≡ₚ nodes).
  { rewrite yield_groups_entries, Hflat, <- list_fmap_compose. change ((snd ∘ _) <$> nodes) with (id <$> nodes). by rewrite list_fmap_id. }
  eexists. split; [reflexivity|]. fold nodes. split; [|split; [|split]].
  - intros m (g & -> & Hg)%list_elem_of_fmap. exists g.2. split; [done|]. intros e He.
    assert (Hin : (g.1, e) ∈ flat (by_affinity node_affinity graph_add nodes)) by (apply flat_elem; exists g.2; by destruct g).
    rewrite Hflat in Hin. cbn. by apply list_elem_of_fmap in Hin as (e' & [= -> ->] & _).
  - intros e He. rewrite Hent in He. by eapply graph_ok_entry.
  - rewrite <- Hp. apply same_nb_elem. intros e. unfold preds_of. by rewrite Hent.
  - rewrite <- Hs. apply same_nb_elem. intros e. unfold succs_of. by rewrite Hent.
Qed.
End build.
