(* ===== verification/Fleet.v ===== *)
(** * Fleets of nodes

    How the messages of one stage reach the instances of the next: each goes to the
    queue its affinity selects, as [RingGroupBy] and [RingAggregate] route them
    ([affinity % len(fleet)]), and every instance takes the messages of its queue in
    some order, among other events. *)

From S2P Require Import Prelude.
From S2P Require Import PyDict.
From S2P Require Import PyValues.
From S2P Require Import PyText.
From S2P Require Import PyTime.
From S2P Require Import PyFloat.
From S2P Require Import Wire.
From S2P Require Import Messages.
From S2P Require Import Filters.
From S2P Require Import GroupBy.
From S2P Require Import UC4.
From S2P Require Import UC4Paths.
From S2P Require Import UC4Prune.

(** ** Lists *)

Lemma mapR_total {A B} (f : A → res B) (P : A → B → Prop) l :
  (∀ x, x ∈ l → ∃ y, f x = Ok y ∧ P x y) → ∃ ys, mapR f l = Ok ys ∧ Forall2 P l ys.
Proof.
  induction l as [|x l IH]; intros Hl; [by exists []|].
  destruct (Hl x) as (y & E & Hy); [left|]. destruct IH as (ys & E' & Hys); [intros z Hz; apply Hl; by right|].
  exists (y :: ys). cbn [mapR]. rewrite E. cbn [mbind res_bind]. rewrite E'. split; [done|by constructor].
Qed.

Lemma mapR_lookup {A B C} (f : A → res C) (g : B → C) (Q : nat → B → Prop) l :
  (∀ i x, l !! i = Some x → ∃ y, f x = Ok (g y) ∧ Q i y) →
  ∃ ys, mapR f l = Ok (g <$> ys) ∧ length ys = length l ∧ ∀ i y, ys !! i = Some y → Q i y.
Proof.
  revert Q. induction l as [|x l IH]; intros Q Hl; [by exists []|].
  destruct (Hl 0%nat x eq_refl) as (y & E & Hy). destruct (IH (λ i, Q (S i))) as (ys & E' & Hlen & Hys); [intros i; apply (Hl (S i))|].
  exists (y :: ys). split; [cbn [mapR]; rewrite E; cbn [mbind res_bind]; by rewrite E'|]. split; [cbn [length]; by rewrite Hlen|].
  intros [|i] z; cbn; [by intros [= <-]|apply Hys].
Qed.

(** Lists whose members all have the position of their list. *)
Lemma NoDup_concat_at {A} (pos : A → Z) (ls : list (list A)) : ∀ b,
  (∀ i l, ls !! i = Some l → NoDup l ∧ ∀ x, x ∈ l → pos x = b + Z.of_nat i) → NoDup (List.concat ls).
Proof.
  induction ls as [|l ls IH]; intros b Hls; [apply NoDup_nil_2|]. cbn [List.concat].
  destruct (Hls 0%nat l eq_refl) as [Hl Hpos]. apply NoDup_app. split; [done|]. split.
  - intros x Hx%Hpos (l' & Hl' & Hx')%elem_concat. apply list_elem_of_lookup in Hl' as [i Hi].
    destruct (Hls (S i) l' Hi) as [_ Hp]. apply Hp in Hx'. lia.
  - apply (IH (b + 1)). intros i l' Hi. destruct (Hls (S i) l' Hi) as [Hn Hp]. split; [done|]. intros x Hx%Hp. lia.
Qed.

Lemma concat_perm {A} (ls1 ls2 : list (list A)) : Forall2 (≡ₚ) ls1 ls2 → List.concat ls1 ≡ₚ List.concat ls2.
Proof. induction 1 as [|l1 l2 ls1 ls2 Hl _ IH]; [done|]. cbn [List.concat]. by rewrite Hl, IH. Qed.

Lemma Forall2_elem_r {A B} (P : A → B → Prop) l k y : Forall2 P l k → y ∈ k → ∃ x, x ∈ l ∧ P x y.
Proof.
  intros HP (i & Hi)%list_elem_of_lookup. destruct (Forall2_lookup_r _ _ _ _ _ HP Hi) as (x & Hx & H).
  exists x. split; [by eapply list_elem_of_lookup_2|done].
Qed.

Lemma Forall2_elem_l {A B} (P : A → B → Prop) l k x : Forall2 P l k → x ∈ l → ∃ y, y ∈ k ∧ P x y.
Proof.
  intros HP (i & Hi)%list_elem_of_lookup. destruct (Forall2_lookup_l _ _ _ _ _ HP Hi) as (y & Hy & H).
  exists y. split; [by eapply list_elem_of_lookup_2|done].
Qed.

(** ** The mail of an instance *)

Definition shard_mail (k : Z) (i : Z) (out : list (Body * Z)) : list Body := (filter (λ m, m.2 mod k = i) out).*1.

Lemma shard_mail_elem k i out b : b ∈ shard_mail k i out ↔ ∃ a, (b, a) ∈ out ∧ a mod k = i.
Proof.
  unfold shard_mail. rewrite list_elem_of_fmap. split.
  - intros ([b' a] & -> & [Hm Hin]%list_elem_of_filter). by exists a.
  - intros (a & Hin & Hm). exists (b, a). split; [done|]. by apply list_elem_of_filter.
Qed.

(** Nothing is lost and nothing comes twice. *)
Lemma shards_perm k out : 0 < k →
  List.concat ((λ i, shard_mail k (Z.of_nat i) out) <$> List.seq 0 (Z.to_nat k)) ≡ₚ out.*1.
Proof.
  intros Hk. induction out as [|[b a] out IH].
  - clear. generalize (List.seq 0 (Z.to_nat k)) as l. by induction l.
  - rewrite fmap_cons. cbn [fst]. rewrite <- IH. clear IH.
    assert (Hone : ∀ n b0,
      List.concat ((λ i, shard_mail k (Z.of_nat i) ((b, a) :: out)) <$> List.seq b0 n) ≡ₚ
        (if decide (Z.of_nat b0 ≤ a mod k < Z.of_nat (b0 + n)) then [b] else []) ++
        List.concat ((λ i, shard_mail k (Z.of_nat i) out) <$> List.seq b0 n)).
    { induction n as [|n IH]; intros b0; cbn [List.seq].
      - rewrite decide_False by lia. done.
      - rewrite !fmap_cons. cbn [List.concat]. rewrite IH. unfold shard_mail at 1. rewrite filter_cons. cbn [snd].
        destruct (decide (a mod k = Z.of_nat b0)) as [E|E].
        + rewrite decide_False by lia. rewrite decide_True by lia. done.
        + fold (shard_mail k (Z.of_nat b0) out).
          destruct (decide (Z.of_nat (S b0) ≤ a mod k < Z.of_nat (S b0 + n))) as [E'|E'].
          * rewrite decide_True by lia. cbn. by rewrite <- Permutation_middle.
          * rewrite decide_False by lia. done. }
    rewrite Hone. rewrite decide_True; [done|]. pose proof (Z.mod_pos_bound a k Hk). lia.
Qed.

(** The events of every instance of a fleet bring it the messages of its queue.
    [mail] reads an event: the message of the client it brings, if any. *)
Section fed.
Context {E : Type} (mail : E → option Body).

Definition fed (k : Z) (out : list (Body * Z)) (evs : list (list E)) : Prop :=
  length evs = Z.to_nat k ∧ ∀ i es, evs !! i = Some es → omap mail es ≡ₚ shard_mail k (Z.of_nat i) out.

Lemma fed_all k out evs : 0 < k → fed k out evs → List.concat ((λ es : list E, omap mail es) <$> evs) ≡ₚ out.*1.
Proof.
  intros Hk [Hlen Hfed]. rewrite <- (shards_perm k) by done. apply concat_perm, Forall2_same_length_lookup_2.
  - by rewrite !length_fmap, length_seq.
  - intros i ms ms' Hms Hms'. apply list_lookup_fmap_Some in Hms as (es & -> & Hes).
    apply list_lookup_fmap_Some in Hms' as (j & -> & [-> Hj]%lookup_seq). by apply Hfed.
Qed.

Lemma fed_elem k out evs i es b : fed k out evs → evs !! i = Some es → b ∈ omap mail es ↔ ∃ a, (b, a) ∈ out ∧ a mod k = Z.of_nat i.
Proof. intros [_ Hfed] Hi. rewrite (Hfed i es Hi). apply shard_mail_elem. Qed.

(** Every message reaches some instance. *)
Lemma fed_reach k out evs b a : 0 < k → fed k out evs → (b, a) ∈ out → ∃ i es, evs !! i = Some es ∧ b ∈ omap mail es ∧ a mod k = Z.of_nat i.
Proof.
  intros Hk Hfed Hin. pose proof (Z.mod_pos_bound a k Hk) as Hb. destruct (lookup_lt_is_Some_2 evs (Z.to_nat (a mod k))) as [es Hes].
  { destruct Hfed as [-> _]. lia. }
  exists (Z.to_nat (a mod k)), es. split; [done|]. split; [|lia]. apply (fed_elem k out evs _ es b Hfed Hes). exists a. split; [done|lia].
Qed.

(** The plainest events: the messages themselves. *)
Lemma feed_exists k out (conv : Body → E) : (∀ b, b ∈ out.*1 → mail (conv b) = Some b) →
  fed k out ((λ i, conv <$> shard_mail k (Z.of_nat i) out) <$> List.seq 0 (Z.to_nat k)).
Proof.
  intros Hconv. split; [by rewrite length_fmap, length_seq|].
  intros i es (j & -> & [-> Hj]%lookup_seq)%list_lookup_fmap_Some.
  assert (Hsub : ∀ b, b ∈ shard_mail k (Z.of_nat (0 + i)) out → mail (conv b) = Some b).
  { intros b (a & Hin & _)%shard_mail_elem. apply Hconv, list_elem_of_fmap. by exists (b, a). }
  cbn [Nat.add] in *. induction (shard_mail k (Z.of_nat i) out) as [|b ms IH]; [done|].
  cbn [fmap list_fmap omap list_omap]. rewrite Hsub by left. constructor. apply IH. intros b' Hb'. apply Hsub. by right.
Qed.

Lemma feed_events k out (conv : Body → E) es e :
  es ∈ (λ i, conv <$> shard_mail k (Z.of_nat i) out) <$> List.seq 0 (Z.to_nat k) → e ∈ es → ∃ b, b ∈ out.*1 ∧ e = conv b.
Proof.
  intros (i & -> & _)%list_elem_of_fmap (b & -> & (a & Hin & _)%shard_mail_elem)%list_elem_of_fmap.
  exists b. split; [|done]. apply list_elem_of_fmap. by exists (b, a).
Qed.
End fed.
