(* ===== verification/UC4Stages.v ===== *)
(** * The stages of UC4, each as a fleet

    What each fleet of the UC4 network makes of the messages the fleet before it
    sent, however these are spread over its instances, ordered, and interleaved
    with other clients' messages and with checkpoints. *)

From S2P Require Import Prelude.
From S2P Require Import PyDict.
From S2P Require Import PyValues.
From S2P Require Import PyText.
From S2P Require Import PyTime.
From S2P Require Import PyFloat.
From S2P Require Import Wire.
From S2P Require Import Messages.
From S2P Require Import Filters.
From S2P Require Import GroupBy.
From S2P Require Import Spill.
From S2P Require Import SpillLog.
From S2P Require Import UC4.
From S2P Require Import UC4Paths.
From S2P Require Import MergeFns.
From S2P Require Import UC4Prune.
From S2P Require Import ShardLog.
From S2P Require Import UC4Graphs.
From S2P Require Import UC4Degrees.
From S2P Require Import UC4Build.
From S2P Require Import Fleet.

(** ** The nodes: the function run over the events, then the client's result *)

Section nodes.
Context `{PyHash} (threshold : Z) (c : uuid).

Definition graphs_node (es : list (option (uuid * graph_nodes))) : res (list (Body * Z)) :=
  st ← foldR (graphs_step "uc4_aggregate_graphs" threshold) graph_init es;
  '(_, out) ← UC4AggregateGraphs_get_result "uc4_aggregate_graphs" st c; Ok out.

Definition degrees_node (es : list (option (uuid * graph_nodes))) : res (list (Body * Z)) :=
  st ← foldR (degrees_step "uc4_degree" threshold) degree_init es;
  '(_, out) ← UC4Degree_get_result "uc4_degree" st c; Ok out.

Definition prune_node (chunk : Z) (es : list prune_event) : res (list Body) :=
  st ← foldR (prune_step "uc4_prune") prune_init es;
  '(_, out) ← UC4Prune_get_result "uc4_prune" threshold chunk st c; Ok out.

Definition counts_node (es : list (option (uuid * graph_nodes))) : res (list (Body * Z)) :=
  st ← foldR (path_event_step "uc4_count_paths" (UC4CountPaths_aggregate "uc4_count_paths" threshold)) paths_init
         (graph_event <$> es);
  '(_, out) ← UC4CountPaths_get_result "uc4_count_paths" st c; Ok out.

Definition paths_node (es : list (option (uuid * pydict Path Z))) : res (list (Body * Z)) :=
  st ← foldR (path_event_step "uc4_aggregate_paths" (UC4AggregatePaths_aggregate "uc4_aggregate_paths" threshold)) paths_init
         (counts_event <$> es);
  '(_, out) ← UC4AggregatePaths_get_result "uc4_aggregate_paths" st c; Ok out.
End nodes.

(** The message of the client an event brings. *)
Definition graph_mail (c : uuid) (e : option (uuid * graph_nodes)) : option Body :=
  match e with Some (c', nodes) => if decide (c = c') then Some (Graph c nodes) else None | None => None end.
Definition left_mail (c : uuid) (e : prune_event) : option Body :=
  match e with PruneLeft c' ho hi => if decide (c = c') then Some (HighDegree c ho hi) else None | _ => None end.
Definition right_mail (c : uuid) (e : prune_event) : option Body :=
  match e with PruneRight c' nodes => if decide (c = c') then Some (Graph c nodes) else None | _ => None end.
Definition counts_mail (c : uuid) (e : option (uuid * pydict Path Z)) : option Body :=
  match e with Some (c', counts) => if decide (c = c') then Some (PathCounts c counts) else None | None => None end.

(** ** The nodes the graphs of a list of messages are made of *)

Definition mail_entries (ms : list Body) : list node_entry :=
  List.concat ((λ b, match b with Graph _ nodes => nodes | _ => [] end) <$> ms).

Lemma out_mail_entries out : out_entries out = mail_entries out.*1.
Proof. unfold out_entries, mail_entries. by rewrite <- list_fmap_compose. Qed.

Lemma mail_entries_perm ms1 ms2 : ms1 ≡ₚ ms2 → mail_entries ms1 ≡ₚ mail_entries ms2.
Proof.
  intros Hp. unfold mail_entries. induction Hp as [|b ms1 ms2 _ IH|b1 b2 ms|ms1 ms2 ms3 _ IH1 _ IH2]; [done| | |by rewrite IH1].
  - rewrite !fmap_cons. cbn [List.concat]. by rewrite IH.
  - rewrite !fmap_cons. cbn [List.concat]. rewrite !app_assoc. f_equiv. apply Permutation_app_comm.
Qed.

Lemma mail_entries_app ms1 ms2 : mail_entries (ms1 ++ ms2) = mail_entries ms1 ++ mail_entries ms2.
Proof. unfold mail_entries. by rewrite fmap_app, concat_app. Qed.

Lemma mail_entries_concat (mss : list (list Body)) : mail_entries (List.concat mss) = List.concat (mail_entries <$> mss).
Proof. induction mss as [|ms mss IH]; [done|]. rewrite fmap_cons. cbn [List.concat]. by rewrite mail_entries_app, IH. Qed.

Lemma mail_entries_elem ms e : e ∈ mail_entries ms ↔ ∃ c nodes, Graph c nodes ∈ ms ∧ e ∈ nodes.
Proof.
  unfold mail_entries. rewrite elem_concat. setoid_rewrite list_elem_of_fmap. split.
  - intros (l & (b & -> & Hb) & He). destruct b; try by apply not_elem_of_nil in He. eauto.
  - intros (c & nodes & Hb & He). exists nodes. split; [by exists (Graph c nodes)|done].
Qed.

Lemma received_mail c es : received c es = mail_entries (omap (graph_mail c) es).
Proof.
  induction es as [|[[c' nodes]|] es IH]; [done| |exact IH]. rewrite received_cons, IH. cbn [omap list_omap graph_mail].
  by destruct (decide (c = c')).
Qed.

Lemma graph_mail_elem c (es : list (option (uuid * graph_nodes))) b : b ∈ omap (graph_mail c) es ↔ ∃ nodes, b = Graph c nodes ∧ Some (c, nodes) ∈ es.
Proof.
  rewrite list_elem_of_omap. split.
  - intros ([[c' nodes]|] & He & E); [|done]. cbn in E. destruct (decide (c = c')) as [<-|]; [|done]. injection E as <-. by exists nodes.
  - intros (nodes & -> & He). exists (Some (c, nodes)). split; [done|]. cbn. by rewrite decide_True.
Qed.

Lemma same_nb_concat2 {K} `{!PyKey K} (ls1 ls2 : list (list (K * list K))) :
  Forall2 same_nb ls1 ls2 → same_nb (List.concat ls1) (List.concat ls2).
Proof. induction 1 as [|l1 l2 ls1 ls2 Hl _ IH]; [done|]. cbn [List.concat]. by rewrite Hl, IH. Qed.

Lemma preds_concat (ls : list (list node_entry)) :
  preds_of (List.concat ls) = List.concat (preds_of <$> ls) ∧ succs_of (List.concat ls) = List.concat (succs_of <$> ls).
Proof. split; apply concat_map. Qed.

Lemma same_nb_perm (L1 L2 : list node_entry) : L1 ≡ₚ L2 → same_nb (preds_of L1) (preds_of L2) ∧ same_nb (succs_of L1) (succs_of L2).
Proof. intros Hp. unfold preds_of, succs_of. split; apply same_nb_elem; intros e; by rewrite Hp. Qed.

Section stages.
(** The accounts in sight: they print and parse, and a pair of them is known by the
    text Python compares paths by. *)
Context `{PyHash} (c : uuid) (U : Node → Prop).

Definition in_U (p : Path) : Prop := U (path_origin p) ∧ U (path_destination p).

Definition nodes_ok : Prop :=
  (∀ n, U n → node_wf n) ∧ ∀ p q, in_U p → in_U q → path_key p = path_key q → p = q.
Hypothesis U_ok : nodes_ok.

Lemma U_print n : U n → node_wf n.
Proof. apply U_ok. Qed.

Lemma U_inj a b : U a → U b → pyeq a b → a = b.
Proof.
  intros Ha Hb E. assert (E' : mkPath a a = mkPath b b); [|by injection E'].
  apply U_ok; [done..|]. unfold path_key. cbn. change (node_key a = node_key b) in E. by rewrite E.
Qed.

(** What other clients send is made of such accounts too. *)
Definition foreign (es : list (option (uuid * graph_nodes))) : Prop :=
  ∀ c' nodes e, Some (c', nodes) ∈ es → c' ≠ c → e ∈ nodes → entry_U U e.
Definition foreign_counts (es : list (option (uuid * pydict Path Z))) : Prop :=
  ∀ c' counts p, Some (c', counts) ∈ es → c' ≠ c → p ∈ dkeys counts → in_U p.

(** ** The graphs of a fleet's mail *)

Section graph_mail.
Context (k : Z) (out : list (Body * Z)) (evs : list (list (option (uuid * graph_nodes)))).
Hypothesis k_pos : 0 < k.
Hypothesis Hfed : fed (graph_mail c) k out evs.
Hypothesis Hforeign : ∀ es, es ∈ evs → foreign es.
Hypothesis out_U : ∀ e, e ∈ out_entries out → entry_U U e.

Lemma mail_U es c' nodes e : es ∈ evs → Some (c', nodes) ∈ es → e ∈ nodes → entry_U U e.
Proof.
  intros Hes Hin He. destruct (decide (c' = c)) as [->|Hne]; [|by eapply Hforeign].
  apply out_U. rewrite out_mail_entries. apply mail_entries_elem. exists c, nodes. split; [|done].
  apply list_elem_of_lookup in Hes as [i Hi].
  assert (Hb : Graph c nodes ∈ omap (graph_mail c) es) by (apply graph_mail_elem; eauto).
  apply (fed_elem _ _ _ _ _ _ _ Hfed Hi) in Hb as (a & Ha & _). apply list_elem_of_fmap. by exists (Graph c nodes, a).
Qed.

Lemma all_received : List.concat (received c <$> evs) ≡ₚ out_entries out.
Proof.
  rewrite out_mail_entries, <- (mail_entries_perm _ _ (fed_all _ _ _ _ k_pos Hfed)), mail_entries_concat, <- list_fmap_compose.
  erewrite list_fmap_ext; [done|]. intros i es _. apply received_mail.
Qed.

Lemma received_place (aff : Node → Z) i es e : graphs_by aff c out → evs !! i = Some es → e ∈ received c es →
  aff e.1 mod k = Z.of_nat i.
Proof.
  intros Hby Hi He. rewrite received_mail in He. apply mail_entries_elem in He as (c' & nodes & Hb & He).
  apply (fed_elem _ _ _ _ _ _ _ Hfed Hi) in Hb as (a & Ha & Hm). destruct (Hby _ Ha) as (nodes' & [= -> ->] & Haff).
  rewrite <- (Haff e He). done.
Qed.
End graph_mail.

Lemma graphs_stage th k out evs : 0 < th → 0 < k → graphs_by node_affinity c out →
  (∀ e, e ∈ out_entries out → entry_U U e) → fed (graph_mail c) k out evs → (∀ es, es ∈ evs → foreign es) →
  ∃ outs, mapR (graphs_node th c) evs = Ok outs ∧
    graphs_by (λ n, hash_node n mod AFFINITY_SHARDS_GRAPH) c (List.concat outs) ∧
    NoDup (out_entries (List.concat outs)).*1 ∧ (∀ e, e ∈ out_entries (List.concat outs) → entry_U U e) ∧
    same_nb (preds_of (out_entries (List.concat outs))) (preds_of (out_entries out)) ∧
    same_nb (succs_of (out_entries (List.concat outs))) (succs_of (out_entries out)).
Proof.
  intros Hth Hk Hby HU Hfed Hfor.
  destruct (mapR_total (graphs_node th c) (λ es o,
    graphs_by (λ n, hash_node n mod AFFINITY_SHARDS_GRAPH) c o ∧ NoDup (out_entries o).*1 ∧ (∀ e, e ∈ out_entries o → entry_U U e) ∧
    same_nb (preds_of (out_entries o)) (preds_of (received c es)) ∧ same_nb (succs_of (out_entries o)) (succs_of (received c es))) evs)
    as (outs & E & Houts).
  { intros es Hes. unfold graphs_node.
    destruct (graphs_run "uc4_aggregate_graphs" th U U_inj es Hth) with (st := graph_init) (W := @nil ((uuid * Z) * node_entry))
      (L := λ _ : uuid, @nil node_entry) as (st & W & E & Hh); [intros c' nodes e; by eapply mail_U|apply gholds_init|].
    destruct (graph_get_result "uc4_aggregate_graphs" U U_inj U_print st W _ c Hh) as (st' & o & Eg & Hm & Hn & HUo & Hp & Hs).
    exists o. rewrite E. cbn [mbind res_bind]. rewrite Eg. done. }
  exists outs. split; [exact E|].
  assert (Hent : out_entries (List.concat outs) = List.concat (out_entries <$> outs)).
  { clear. induction outs as [|o outs IH]; [done|]. rewrite fmap_cons. cbn [List.concat]. by rewrite out_entries_app, IH. }
  destruct (preds_concat (out_entries <$> outs)) as [Epo Eso], (preds_concat (received c <$> evs)) as [Epr Esr].
  destruct (same_nb_perm _ _ (all_received k out evs Hk Hfed)) as [Hpr Hsr]. rewrite Epr in Hpr. rewrite Esr in Hsr.
  split; [|split; [|split; [|split]]].
  - intros m (o & Ho & Hm)%elem_concat. destruct (Forall2_elem_r _ _ _ _ Houts Ho) as (es & _ & Hby' & _). by apply Hby'.
  - rewrite Hent, fmap_concat. apply (NoDup_concat_at (λ n, node_affinity n mod k) _ 0). intros i l Hl.
    apply list_lookup_fmap_Some in Hl as (o' & -> & Ho'). apply list_lookup_fmap_Some in Ho' as (o & -> & Ho).
    destruct (Forall2_lookup_r _ _ _ _ _ Houts Ho) as (es & Hes & _ & Hn & _ & Hp & _). split; [done|].
    intros n Hin. assert (Hin' : n ∈ (preds_of (out_entries o)).*1) by (unfold preds_of; by rewrite <- list_fmap_compose).
    apply (proj1 Hp) in Hin'. unfold preds_of in Hin'. rewrite <- list_fmap_compose in Hin'.
    apply list_elem_of_fmap in Hin' as (e & -> & He). by apply (received_place k out evs Hfed node_affinity i es).
  - intros e He. rewrite Hent in He. apply elem_concat in He as (l & Hl & He). apply list_elem_of_fmap in Hl as (o & -> & Ho).
    destruct (Forall2_elem_r _ _ _ _ Houts Ho) as (es & _ & _ & _ & HUo & _). by apply HUo.
  - rewrite Hent, Epo, <- Hpr. apply same_nb_concat2. rewrite <- !list_fmap_compose. apply Forall2_fmap_2, Forall2_flip.
    eapply Forall2_impl; [exact Houts|]. by intros es o (_ & _ & _ & Hp & _).
  - rewrite Hent, Eso, <- Hsr. apply same_nb_concat2. rewrite <- !list_fmap_compose. apply Forall2_fmap_2, Forall2_flip.
    eapply Forall2_impl; [exact Houts|]. by intros es o (_ & _ & _ & _ & Hs).
Qed.
(** ** The nodes of high degree *)

Lemma many_nbr {K} `{!PyKey K} (L : list (K * list K)) n : many L n → ∃ a, nbrs L n a.
Proof.
  intros (s & _ & Hl & Hs). destruct s as [|a s]; [cbn in Hl; unfold MIN_DEGREE in Hl; lia|]. exists a. apply Hs. left.
Qed.

(** The members of one side of the messages of high degree. *)
Definition high (side : pyset Node * pyset Node → pyset Node) (ms : list Body) (n : Node) : Prop :=
  ∃ ho hi, HighDegree c ho hi ∈ ms ∧ n ∈ side (ho, hi).

(** What an instance says of its nodes is said of them by all the graphs. *)
Lemma instance_many k out evs (f : node_entry → Node * pyset Node) n : 0 < k → graphs_by node_affinity c out →
  fed (graph_mail c) k out evs → (∀ e, (f e).1 = e.1) →
  (∃ es, es ∈ evs ∧ many (f <$> received c es) n) ↔ many (f <$> out_entries out) n.
Proof.
  intros Hk Hby Hfed Hf. pose proof (all_received k out evs Hk Hfed) as Hall.
  assert (Hsub : ∀ es m a, es ∈ evs → nbrs (f <$> received c es) m a → nbrs (f <$> out_entries out) m a).
  { intros es m a Hes (l & (e & E & He)%list_elem_of_fmap & Ha). exists l. split; [|done]. apply list_elem_of_fmap. exists e. split; [done|].
    rewrite <- Hall. apply elem_concat. exists (received c es). split; [|done]. apply list_elem_of_fmap. by exists es. }
  assert (Hat : ∀ m a, nbrs (f <$> out_entries out) m a →
    ∃ i es, evs !! i = Some es ∧ Z.of_nat i = node_affinity m mod k ∧ nbrs (f <$> received c es) m a).
  { intros m a (l & (e & E & He)%list_elem_of_fmap & Ha). rewrite <- Hall in He.
    apply elem_concat in He as (l' & Hl' & He). apply list_elem_of_fmap in Hl' as (es & -> & Hes). apply list_elem_of_lookup in Hes as [i Hi].
    exists i, es. split; [done|]. split.
    - rewrite <- (received_place k out evs Hfed node_affinity i es e Hby Hi He). rewrite <- (Hf e), <- E. done.
    - exists l. split; [|done]. apply list_elem_of_fmap. by exists e. }
  split.
  - intros (es & Hes & Hm). eapply many_mono; [|exact Hm]. intros a. by apply Hsub.
  - intros Hm. destruct (many_nbr _ _ Hm) as (a & (i & es & Hi & Ei & _)%Hat). exists es. split; [by eapply list_elem_of_lookup_2|].
    eapply many_mono; [|exact Hm]. intros a' (j & es' & Hj & Ej & Ha')%Hat. assert (j = i) as -> by lia. by simplify_eq.
Qed.

Lemma degrees_stage th k out evs : 0 < k → graphs_by node_affinity c out →
  (∀ e, e ∈ out_entries out → entry_U U e) → fed (graph_mail c) k out evs → (∀ es, es ∈ evs → foreign es) →
  ∃ outs, mapR (degrees_node th c) evs = Ok outs ∧
    (∀ b, b ∈ (List.concat outs).*1 → ∃ ho hi, b = HighDegree c ho hi) ∧
    (∀ n, high fst (List.concat outs).*1 n ↔ many (succs_of (out_entries out)) n) ∧
    (∀ n, high snd (List.concat outs).*1 n ↔ many (preds_of (out_entries out)) n).
Proof.
  intros Hk Hby HU Hfed Hfor.
  destruct (mapR_total (degrees_node th c) (λ es o, ∃ ho hi, o = [(HighDegree c ho hi, 0)] ∧
    (∀ n, n ∈ ho ↔ many (succs_of (received c es)) n) ∧ (∀ n, n ∈ hi ↔ many (preds_of (received c es)) n)) evs)
    as (outs & E & Houts).
  { intros es Hes. unfold degrees_node.
    destruct (degree_report "uc4_degree" th U c es U_inj U_print) as (st & st' & ho & hi & E & Eg & Ho & Hi); [intros c' nodes e; by eapply mail_U|].
    eexists. rewrite E. cbn [mbind res_bind]. rewrite Eg. split; [reflexivity|]. by exists ho, hi. }
  exists outs. split; [exact E|].
  assert (Hb : ∀ b, b ∈ (List.concat outs).*1 ↔ ∃ es ho hi, es ∈ evs ∧ b = HighDegree c ho hi ∧ [(HighDegree c ho hi, 0)] ∈ outs ∧
    (∀ n, n ∈ ho ↔ many (succs_of (received c es)) n) ∧ (∀ n, n ∈ hi ↔ many (preds_of (received c es)) n)).
  { intros b. rewrite list_elem_of_fmap. setoid_rewrite elem_concat. split.
    - intros (m & -> & o & Ho & Hm). destruct (Forall2_elem_r _ _ _ _ Houts Ho) as (es & Hes & ho & hi & -> & H1 & H2).
      apply list_elem_of_singleton in Hm as ->. by exists es, ho, hi.
    - intros (es & ho & hi & _ & -> & Hin & _). eexists. split; [|eexists; split; [exact Hin|by left]]. done. }
  split; [|split].
  - intros b (es & ho & hi & _ & -> & _)%Hb. eauto.
  - intros n. rewrite <- (instance_many k out evs (λ e, (e.1, e.2.2)) n Hk Hby Hfed) by done. split.
    + intros (ho & hi & (es & ho' & hi' & Hes & [= <- <-] & _ & Ho & _)%Hb & Hn). exists es. split; [done|]. by apply Ho.
    + intros (es & Hes & Hm). destruct (Forall2_elem_l _ _ _ _ Houts Hes) as (o & Hino & ho & hi & -> & Ho & Hi).
      exists ho, hi. split; [|by apply Ho]. apply Hb. by exists es, ho, hi.
  - intros n. rewrite <- (instance_many k out evs (λ e, (e.1, e.2.1)) n Hk Hby Hfed) by done. split.
    + intros (ho & hi & (es & ho' & hi' & Hes & [= <- <-] & _ & _ & Hi)%Hb & Hn). exists es. split; [done|]. by apply Hi.
    + intros (es & Hes & Hm). destruct (Forall2_elem_l _ _ _ _ Houts Hes) as (o & Hino & ho & hi & -> & Ho & Hi).
      exists ho, hi. split; [|by apply Hi]. apply Hb. by exists es, ho, hi.
Qed.
(** ** The weight of a path *)

(** A node between the ends of the path. *)
Definition between (p : Path) (e : node_entry) : Prop :=
  path_origin p ≠ path_destination p ∧ path_origin p ∈ e.2.1 ∧ path_destination p ∈ e.2.2.
#[export] Instance between_dec p e : Decision (between p e).
Proof. unfold between. apply _. Defined.
Definition link (p : Path) (e : node_entry) : Z := if decide (between p e) then 1 else 0.

Lemma zsum_one (y : Node) (v : Z) l : NoDup l → zsum ((λ x, if decide (x = y) then v else 0) <$> l) = if decide (y ∈ l) then v else 0.
Proof.
  induction 1 as [|x l Hx _ IH]; [by rewrite decide_False by apply not_elem_of_nil|]. rewrite fmap_cons.
  change (zsum (?a :: ?r)) with (a + zsum r). rewrite IH. destruct (decide (x = y)) as [->|Hne].
  - rewrite (decide_False (P := y ∈ l)) by done. rewrite decide_True by left. lia.
  - destruct (decide (y ∈ l)) as [Hy|Hy]; [by rewrite decide_True by by right|]. rewrite decide_False; [lia|].
    by intros [->|?]%elem_of_cons.
Qed.

Lemma U_pair_weight p a s : in_U p → U a → U s →
  pair_weight p a s = if decide (a = path_origin p) then if decide (s = path_destination p) then
    if decide (path_origin p = path_destination p) then 0 else 1 else 0 else 0.
Proof.
  intros Hp Ha Hs. unfold pair_weight.
  destruct (decide (a = path_origin p)) as [->|Hna]; [destruct (decide (s = path_destination p)) as [->|Hns]|].
  - destruct (decide (pyeq _ _)) as [E|E].
    + by rewrite decide_True by (apply U_inj; [apply Hp..|done]).
    + rewrite (decide_False (P := path_origin p = path_destination p)) by (intros E'; apply E; by rewrite E').
      rewrite decide_True; [done|]. by destruct p.
  - destruct (decide (pyeq _ s)); [done|]. rewrite decide_False; [done|]. intros E. apply Hns.
    assert (mkPath (path_origin p) s = p) as <-; [|done]. apply U_ok; [split; [apply Hp|done]|done|exact E].
  - destruct (decide (pyeq a s)); [done|]. rewrite decide_False; [done|]. intros E. apply Hna.
    assert (mkPath a s = p) as <-; [|done]. apply U_ok; [by split|done|exact E].
Qed.

Lemma U_NoDup (s : pyset Node) : set_wf s → NoDup s.
Proof. apply NoDup_fmap_1. Qed.

Lemma U_block_weight p P S : in_U p → Forall U P → Forall U S → set_wf P → set_wf S →
  block_weight p P S = if decide (path_origin p ≠ path_destination p ∧ path_origin p ∈ P ∧ path_destination p ∈ S) then 1 else 0.
Proof.
  intros Hp HP HS HwP%U_NoDup HwS%U_NoDup. rewrite Forall_forall in HP, HS. unfold block_weight.
  set (v := if decide (path_origin p = path_destination p) then 0 else if decide (path_destination p ∈ S) then 1 else 0).
  rewrite (zsum_fmap_ext _ (λ a, if decide (a = path_origin p) then v else 0)).
  - rewrite zsum_one by done. unfold v.
    destruct (decide (path_origin p = path_destination p)), (decide (path_destination p ∈ S)), (decide (path_origin p ∈ P));
      destruct (decide _); try done; naive_solver.
  - intros a Ha.
    rewrite (zsum_fmap_ext _ (λ s, if decide (s = path_destination p) then
      (if decide (a = path_origin p) then if decide (path_origin p = path_destination p) then 0 else 1 else 0) else 0)).
    + rewrite zsum_one by done. unfold v.
      by destruct (decide (a = path_origin p)), (decide (path_origin p = path_destination p)), (decide (path_destination p ∈ S)).
    + intros s Hs. rewrite U_pair_weight by auto. by destruct (decide (a = _)), (decide (s = _)).
Qed.

Lemma elem_sinter n s t : Forall U s → Forall U t → n ∈ sinter s t ↔ n ∈ s ∧ n ∈ t.
Proof.
  intros Hs Ht. unfold sinter. rewrite list_elem_of_filter. split.
  - intros [Hm Hn]. split; [done|]. rewrite Forall_forall in Hs. by apply (elem_smem_iff U U_inj n t (Hs n Hn)).
  - intros [Hn Hm]. split; [|done]. rewrite Forall_forall in Hs. by apply (elem_smem_iff U U_inj n t (Hs n Hn)).
Qed.

Lemma U_pruned_weight p (ho hi : pyset Node) e : in_U p → entry_U U e → Forall U ho → Forall U hi →
  pruned_weight p ho hi e = if decide (path_origin p ∈ ho ∧ path_destination p ∈ hi) then link p e else 0.
Proof.
  intros Hp (Hn & HP & HS & HwP & HwS) Hho Hhi. unfold pruned_weight.
  assert (Hsub : ∀ s t : pyset Node, Forall U s → Forall U (sinter s t)).
  { intros s t Hs. apply Forall_forall. intros x [_ Hx]%list_elem_of_filter. rewrite Forall_forall in Hs. by apply Hs. }
  rewrite U_block_weight; [|done|by apply Hsub|by apply Hsub|by apply sinter_wf|by apply sinter_wf].
  unfold link, between. pose proof (elem_sinter (path_origin p) _ _ HP Hho) as H1. pose proof (elem_sinter (path_destination p) _ _ HS Hhi) as H2.
  destruct (decide (path_origin p ∈ ho ∧ path_destination p ∈ hi)) as [Hh|Hh].
  - destruct (decide _), (decide _); try done; naive_solver.
  - rewrite decide_False; [done|]. naive_solver.
Qed.
(** ** Pruning *)

Lemma zsum_Forall2 {A B} (f : A → Z) (g : B → Z) l k : Forall2 (λ x y, f x = g y) l k → zsum (f <$> l) = zsum (g <$> k).
Proof. induction 1 as [|x y l k E _ IH]; [done|]. rewrite !fmap_cons. cbn. unfold zsum in IH. by rewrite E, IH. Qed.

Lemma left_members es n :
  (n ∈ left_out c es ↔ high fst (omap (left_mail c) es) n) ∧ (n ∈ left_in c es ↔ high snd (omap (left_mail c) es) n).
Proof.
  assert (Hm : ∀ ho hi, HighDegree c ho hi ∈ omap (left_mail c) es ↔ PruneLeft c ho hi ∈ es).
  { intros ho hi. rewrite list_elem_of_omap. split.
    - intros ([c' ho' hi'| |] & He & E); try done. cbn in E. destruct (decide (c = c')) as [<-|]; [|done]. by injection E as <- <-.
    - intros He. exists (PruneLeft c ho hi). split; [done|]. cbn. by rewrite decide_True. }
  unfold high. setoid_rewrite Hm. unfold left_out, left_in. rewrite !elem_concat. setoid_rewrite list_elem_of_fmap. split; split.
  - intros (l & ([c' ho hi| |] & -> & He) & Hn); try by apply not_elem_of_nil in Hn.
    destruct (decide (c' = c)) as [->|]; [|by apply not_elem_of_nil in Hn]. by exists ho, hi.
  - intros (ho & hi & He & Hn). exists ho. split; [|done]. exists (PruneLeft c ho hi). by rewrite decide_True.
  - intros (l & ([c' ho hi| |] & -> & He) & Hn); try by apply not_elem_of_nil in Hn.
    destruct (decide (c' = c)) as [->|]; [|by apply not_elem_of_nil in Hn]. by exists ho, hi.
  - intros (ho & hi & He & Hn). exists hi. split; [|done]. exists (PruneLeft c ho hi). by rewrite decide_True.
Qed.

Lemma right_nodes_mail es : right_nodes c es = mail_entries (omap (right_mail c) es).
Proof.
  induction es as [|e es IH]; [done|]. unfold right_nodes in *. rewrite fmap_cons. cbn [List.concat]. rewrite IH.
  destruct e as [| c' nodes|]; cbn [omap list_omap right_mail]; [done| |done].
  destruct (decide (c' = c)) as [->|Hne]; [by rewrite decide_True|]. by rewrite decide_False.
Qed.

Lemma NoDup_keys (l : list Node) : (∀ n, n ∈ l → U n) → NoDup l → NoDup (key_of <$> l).
Proof. intros Hl Hnd. apply NoDup_fmap_2_strong; [|done]. intros a b Ha Hb. apply U_inj; auto. Qed.

Lemma NoDup_member {A} (ls : list (list A)) l : NoDup (List.concat ls) → l ∈ ls → NoDup l.
Proof.
  induction ls as [|l0 ls IH]; [by intros _ ?%not_elem_of_nil|]. cbn [List.concat]. rewrite NoDup_app.
  intros (H0 & _ & H1) [->|Hl]%elem_of_cons; auto.
Qed.

Lemma high_perm side ms1 ms2 n : ms1 ≡ₚ ms2 → high side ms1 n ↔ high side ms2 n.
Proof. intros Hp. unfold high. by setoid_rewrite Hp. Qed.

Section prune_fleet.
Context (th chunk k : Z) (lefts : list Body) (rights : list (Body * Z)) (evs : list (list prune_event)).
Hypothesis th_pos : 0 < th.
Hypothesis k_pos : 0 < k.
Hypothesis rights_once : NoDup (out_entries rights).*1.
Hypothesis rights_ok : ∀ e, e ∈ out_entries rights → entry_U U e ∧ sized th e.
Hypothesis lefts_U : ∀ side n, high side lefts n → side = fst ∨ side = snd → U n.
Hypothesis Hfed : fed (right_mail c) k rights evs.
Hypothesis Hleft : ∀ es, es ∈ evs → omap (left_mail c) es ≡ₚ lefts.

Lemma all_right_nodes : List.concat (right_nodes c <$> evs) ≡ₚ out_entries rights.
Proof.
  rewrite out_mail_entries, <- (mail_entries_perm _ _ (fed_all _ _ _ _ k_pos Hfed)), mail_entries_concat, <- list_fmap_compose.
  erewrite list_fmap_ext; [done|]. intros i es _. apply right_nodes_mail.
Qed.

Lemma right_nodes_ok es e : es ∈ evs → e ∈ right_nodes c es → entry_U U e ∧ sized th e.
Proof.
  intros Hes He. apply rights_ok. rewrite <- all_right_nodes. apply elem_concat. exists (right_nodes c es). split; [|done].
  apply list_elem_of_fmap. by exists es.
Qed.

Lemma left_sets es : es ∈ evs →
  (∀ n, n ∈ left_out c es ↔ high fst lefts n) ∧ (∀ n, n ∈ left_in c es ↔ high snd lefts n) ∧
  Forall U (left_out c es) ∧ Forall U (left_in c es).
Proof.
  intros Hes. assert (H1 : ∀ n, n ∈ left_out c es ↔ high fst lefts n).
  { intros n. destruct (left_members es n) as [-> _]. by apply high_perm, Hleft. }
  assert (H2 : ∀ n, n ∈ left_in c es ↔ high snd lefts n).
  { intros n. destruct (left_members es n) as [_ ->]. by apply high_perm, Hleft. }
  split_and!; [done|done|..]; apply Forall_forall; intros n Hn.
  - apply (lefts_U fst n); [by apply H1|by left].
  - apply (lefts_U snd n); [by apply H2|by right].
Qed.

(** One instance: its nodes weigh what they link, when the ends are of high degree. *)
Lemma prune_instance es : es ∈ evs → ∃ o, prune_node th c chunk es = Ok o ∧ (∀ m, m ∈ o → sent_members U c m) ∧
  ∀ p, in_U p → graphs_weight o p =
    zsum ((λ e, if decide (path_origin p ∈ left_out c es ∧ path_destination p ∈ left_in c es) then link p e else 0) <$> right_nodes c es).
Proof.
  intros Hes. destruct (left_sets es Hes) as (_ & _ & Ho & Hi). unfold prune_node.
  destruct (prune_report "uc4_prune" th chunk c es U th_pos) as (st & st' & o & E & Eg & Hm & Hw); [| | |done|done| |].
  - apply NoDup_keys.
    + intros n (e & -> & He)%list_elem_of_fmap. by apply (right_nodes_ok es e).
    + pose proof rights_once as Hnd. rewrite <- all_right_nodes, fmap_concat in Hnd. eapply NoDup_member; [exact Hnd|].
      apply list_elem_of_fmap. eexists. split; [reflexivity|]. apply list_elem_of_fmap. by exists es.
  - apply Forall_forall. intros e He. apply (entry_U_wf U U_print). by apply (right_nodes_ok es e).
  - apply Forall_forall. intros e He. by apply (right_nodes_ok es e).
  - intros e He. destruct (right_nodes_ok es e Hes He) as [(? & ? & ? & _) _]. by split_and!.
  - exists o. rewrite E. cbn [mbind res_bind]. rewrite Eg. split; [done|]. split; [done|]. intros p Hp. rewrite Hw.
    apply zsum_fmap_ext. intros e He.
    rewrite U_pruned_weight; [|done|by apply (right_nodes_ok es e)|by apply set_of_Forall|by apply set_of_Forall].
    assert (Hset : ∀ (l : list Node) n, Forall U l → n ∈ set_of l ↔ n ∈ l).
    { intros l n Hl. unfold set_of. rewrite (elem_supdate U U_inj) by done. split; [by intros [H0%not_elem_of_nil|?]|by right]. }
    apply decide_ext. by rewrite !Hset.
Qed.

Lemma prune_stage :
  ∃ outs, mapR (prune_node th c chunk) evs = Ok outs ∧ (∀ m, m ∈ List.concat outs → sent_members U c m) ∧
    ∀ p, in_U p →
      (high fst lefts (path_origin p) ∧ high snd lefts (path_destination p) →
         graphs_weight (List.concat outs) p = zsum (link p <$> out_entries rights)) ∧
      (¬ (high fst lefts (path_origin p) ∧ high snd lefts (path_destination p)) → graphs_weight (List.concat outs) p = 0).
Proof.
  destruct (mapR_total _ _ evs prune_instance) as (outs & E & Houts). exists outs. split; [exact E|]. split.
  { intros m (o & Ho & Hm)%elem_concat. destruct (Forall2_elem_r _ _ _ _ Houts Ho) as (es & _ & Hs & _). by apply Hs. }
  intros p Hp.
  assert (Hall : graphs_weight (List.concat outs) p = zsum ((λ es, zsum ((λ e,
    if decide (path_origin p ∈ left_out c es ∧ path_destination p ∈ left_in c es) then link p e else 0) <$> right_nodes c es)) <$> evs)).
  { unfold graphs_weight. rewrite zsum_concat. symmetry. apply zsum_Forall2. eapply Forall2_impl; [exact Houts|].
    intros es o [_ Hw]. symmetry. by apply Hw. }
  rewrite Hall. split; intros Hhigh.
  - rewrite (zsum_fmap_ext _ (λ es, zsum (link p <$> right_nodes c es))).
    + rewrite <- (zsum_perm _ _ (fmap_Permutation (link p) _ _ all_right_nodes)), zsum_concat, <- list_fmap_compose. done.
    + intros es Hes. destruct (left_sets es Hes) as (Ho & Hi & _). apply zsum_fmap_ext. intros e He. rewrite decide_True; [done|].
      by rewrite Ho, Hi.
  - rewrite (zsum_fmap_ext _ (λ _, 0)); [by apply zsum_fmap_zero|]. intros es Hes. destruct (left_sets es Hes) as (Ho & Hi & _).
    rewrite (zsum_fmap_ext _ (λ _, 0)); [by apply zsum_fmap_zero|]. intros e He. rewrite decide_False; [done|]. by rewrite Ho, Hi.
Qed.
End prune_fleet.

(** ** Counting *)

Lemma graph_pairs_U (nodes : graph_nodes) q : (∀ e, e ∈ nodes → members U e) → q ∈ (graph_pairs nodes).*1 → in_U q.
Proof.
  intros Hn ([q' n] & -> & Hq)%list_elem_of_fmap. unfold graph_pairs in Hq. apply elem_concat in Hq as (l & Hl & Hq).
  apply list_elem_of_fmap in Hl as (ps & -> & Hps). apply list_elem_of_fmap in Hps as (e & -> & He).
  destruct (Hn e He) as (_ & HP & HS). rewrite Forall_forall in HP, HS. unfold node_pairs in Hq.
  apply elem_concat in Hq as (l & Hl & Hq). apply list_elem_of_fmap in Hl as (a & -> & Ha).
  unfold pairs_of in Hq. apply list_elem_of_fmap in Hq as (s & [= -> ->] & Hs). apply list_elem_of_filter in Hs as [_ Hs].
  split; cbn; auto.
Qed.

Lemma client_pairs_weight es p : total_at (client_pairs c es) p = graphs_weight (omap (graph_mail c) es) p.
Proof.
  induction es as [|e es IH]; [done|]. unfold client_pairs in *. rewrite fmap_cons. cbn [List.concat]. rewrite total_at_app, IH.
  destruct e as [[c' nodes]|]; cbn [omap list_omap graph_mail]; [|done].
  destruct (decide (c' = c)) as [->|Hne]; [by rewrite decide_True by done|]. by rewrite (decide_False (P := c = c')) by congruence.
Qed.

Lemma graphs_weight_perm ms1 ms2 p : ms1 ≡ₚ ms2 → graphs_weight ms1 p = graphs_weight ms2 p.
Proof. intros Hp. unfold graphs_weight. apply zsum_perm. by rewrite Hp. Qed.

Lemma counted_concat outs p : counted (List.concat outs) p = zsum ((λ o, counted o p) <$> outs).
Proof. unfold counted. apply zsum_concat. Qed.

Lemma counts_stage th k out evs : 0 < th → 0 < k → (∀ b, b ∈ out.*1 → sent_members U c b) →
  fed (graph_mail c) k out evs → (∀ es, es ∈ evs → foreign es) →
  ∃ outs, mapR (counts_node th c) evs = Ok outs ∧
    (∀ m, m ∈ List.concat outs → counted_message in_U c m) ∧
    ∀ p, counted (List.concat outs) p = graphs_weight out.*1 p.
Proof.
  intros Hth Hk Hsent Hfed Hfor.
  destruct (mapR_total (counts_node th c) (λ es o, (∀ m, m ∈ o → counted_message in_U c m) ∧
    ∀ p, counted o p = graphs_weight (omap (graph_mail c) es) p) evs) as (outs & E & Houts).
  { intros es Hes. unfold counts_node.
    pose (contents := λ (e : option (uuid * graph_nodes)) (c : uuid), match e with
      | Some (c', nodes) => if decide (c' = c) then graph_pairs nodes else [] | None => [] end).
    destruct (path_events_hold "uc4_count_paths" in_U (UC4CountPaths_aggregate "uc4_count_paths" th) graph_event contents es)
      with (st := paths_init) (W := @nil ((uuid * Z) * (Path * Z))) as (st & W & Er & Hh & Ht); [|apply holds_init|].
    - intros [[c0 nodes]|] He; [|done]. intros st W Hh.
      destruct (count_aggregate_holds "uc4_count_paths" in_U th st W c0 nodes Hth Hh) as (st' & W' & E' & Hh' & Ht').
      + intros q. apply graph_pairs_U. intros e Hin. destruct (decide (c0 = c)) as [->|Hne].
        * assert (Hb : Graph c nodes ∈ omap (graph_mail c) es) by (apply graph_mail_elem; eauto).
          apply list_elem_of_lookup in Hes as [i Hi]. apply (fed_elem _ _ _ _ _ _ _ Hfed Hi) in Hb as (a & Ha & _).
          destruct (Hsent (Graph c nodes)) as (nodes' & [= <-] & Hm); [|by apply Hm]. apply list_elem_of_fmap. by exists (Graph c nodes, a).
        * destruct (Hfor es Hes c0 nodes e He Hne Hin) as (? & ? & ? & _). done.
      + exists st', W'. split_and!; [done..|]. intros c' p. rewrite Ht'. f_equal. unfold contents. by destruct (decide (c0 = c')).
    - destruct (count_paths_get_result "uc4_count_paths" in_U st W c Hh) as (st' & o & Eg & Hm & Hp).
      exists o. rewrite Er. cbn [mbind res_bind]. rewrite Eg. split; [done|]. split; [done|]. intros p.
      rewrite Hp, Ht, total_init, <- client_pairs_weight. done. }
  exists outs. split; [exact E|]. split.
  - intros m (o & Ho & Hm)%elem_concat. destruct (Forall2_elem_r _ _ _ _ Houts Ho) as (es & _ & Hs & _). by apply Hs.
  - intros p. rewrite counted_concat, <- (graphs_weight_perm _ _ p (fed_all _ _ _ _ Hk Hfed)).
    unfold graphs_weight. rewrite zsum_concat, <- list_fmap_compose. symmetry. apply zsum_Forall2.
    eapply Forall2_impl; [exact Houts|]. intros es o [_ Hp]. by rewrite Hp.
Qed.

(** ** Adding up *)

Lemma counts_mail_elem (es : list (option (uuid * pydict Path Z))) b :
  b ∈ omap (counts_mail c) es ↔ ∃ counts, b = PathCounts c counts ∧ Some (c, counts) ∈ es.
Proof.
  rewrite list_elem_of_omap. split.
  - intros ([[c' counts]|] & He & E); [|done]. cbn in E. destruct (decide (c = c')) as [<-|]; [|done]. injection E as <-. by exists counts.
  - intros (counts & -> & He). exists (Some (c, counts)). split; [done|]. cbn. by rewrite decide_True.
Qed.

(** What messages count for a path, message by message. *)
Definition count_in (p : Path) (b : Body) : Z := match b with PathCounts _ counts => total_at counts p | _ => 0 end.

Lemma client_counts_mail es p : total_at (client_counts c es) p = zsum (count_in p <$> omap (counts_mail c) es).
Proof.
  induction es as [|e es IH]; [done|]. unfold client_counts in *. rewrite fmap_cons. cbn [List.concat]. rewrite total_at_app, IH.
  destruct e as [[c' counts]|]; cbn [omap list_omap counts_mail]; [|done].
  destruct (decide (c' = c)) as [->|Hne]; [by rewrite decide_True by done|]. by rewrite (decide_False (P := c = c')) by congruence.
Qed.

(** All the counts of a path go to one instance. *)
Lemma counts_at_instance out k i p : (∀ m, m ∈ out → counted_message in_U c m) → in_U p →
  zsum (count_in p <$> shard_mail k i out) =
    if decide ((hash_path p mod AFFINITY_SHARDS_PATHS) mod k = i) then counted out p else 0.
Proof.
  intros Hout Hp. unfold counted. induction out as [|[b a] out IH]; [by destruct (decide _)|].
  specialize (IH (λ m H, Hout m (list_elem_of_further _ _ _ H))).
  destruct (Hout (b, a)) as (counts & [= ->] & Hwf & Hkeys); [left|]. cbn [snd] in Hkeys.
  assert (Hz : dget_or 0 counts p = if decide (a = hash_path p mod AFFINITY_SHARDS_PATHS) then dget_or 0 counts p else 0).
  { destruct (decide (a = hash_path p mod AFFINITY_SHARDS_PATHS)) as [Ha|Hne]; [reflexivity|]. unfold dget_or. destruct (dget counts p) as [n|] eqn:E; [|done].
    apply dget_Some_elem in E as (q & Hq & Hin). destruct Hne.
    destruct (Hkeys q) as [HU ->]; [by apply list_elem_of_fmap; exists (q, n)|]. by rewrite (proj2 U_ok q p HU Hp Hq). }
  rewrite fmap_cons. change (zsum (?x :: ?r)) with (x + zsum r). cbn [fst]. unfold shard_mail in *. rewrite filter_cons. cbn [snd].
  destruct (decide (a mod k = i)) as [Ha|Ha].
  - rewrite !fmap_cons. change (zsum (?x :: ?r)) with (x + zsum r). rewrite IH. cbn [fst count_in]. rewrite total_at_dict by done.
    destruct (decide ((hash_path p mod AFFINITY_SHARDS_PATHS) mod k = i)) as [|Hne]; [done|]. rewrite Hz, decide_False; [done|]. congruence.
  - rewrite IH. destruct (decide ((hash_path p mod AFFINITY_SHARDS_PATHS) mod k = i)) as [Hi|]; [|done]. rewrite Hz, decide_False; [done|]. congruence.
Qed.

Lemma paths_stage th k out evs : 0 < th → 0 < k → (∀ m, m ∈ out → counted_message in_U c m) →
  fed (counts_mail c) k out evs → (∀ es, es ∈ evs → foreign_counts es) →
  ∃ outs, mapR (paths_node th c) evs = Ok outs ∧
    (∀ m, m ∈ List.concat outs → ∃ counts, m = (PathCounts c counts, 0)) ∧
    ∀ p, (∃ counts n, (PathCounts c counts, 0) ∈ List.concat outs ∧ (p, n) ∈ counts) ↔ in_U p ∧ MIN_PATH_COUNT ≤ counted out p.
Proof.
  intros Hth Hk Hout Hfed Hfor.
  destruct (mapR_total (paths_node th c) (λ es o, (∀ m, m ∈ o → ∃ counts, m = (PathCounts c counts, 0)) ∧
    ∀ p n, (∃ counts, (PathCounts c counts, 0) ∈ o ∧ (p, n) ∈ counts) ↔
      in_U p ∧ n = total_at (client_counts c es) p ∧ MIN_PATH_COUNT ≤ n) evs) as (outs & E & Houts).
  { intros es Hes. unfold paths_node.
    pose (contents := λ (e : option (uuid * pydict Path Z)) (c : uuid), match e with
      | Some (c', counts) => if decide (c' = c) then counts else [] | None => [] end).
    destruct (path_events_hold "uc4_aggregate_paths" in_U (UC4AggregatePaths_aggregate "uc4_aggregate_paths" th) counts_event contents es)
      with (st := paths_init) (W := @nil ((uuid * Z) * (Path * Z))) as (st & W & Er & Hh & Ht); [|apply holds_init|].
    - intros [[c0 counts]|] He; [|done]. intros st W Hh.
      destruct (sum_aggregate_holds "uc4_aggregate_paths" in_U th st W c0 counts Hth Hh) as (st' & W' & E' & Hh' & Ht').
      + intros q Hq. destruct (decide (c0 = c)) as [->|Hne]; [|by eapply Hfor].
        assert (Hb : PathCounts c counts ∈ omap (counts_mail c) es) by (apply counts_mail_elem; eauto).
        apply list_elem_of_lookup in Hes as [i Hi]. apply (fed_elem _ _ _ _ _ _ _ Hfed Hi) in Hb as (a & Ha & _).
        destruct (Hout _ Ha) as (counts' & [= <-] & _ & Hkeys). by apply Hkeys.
      + exists st', W'. split_and!; [done..|]. intros c' p. rewrite Ht'. f_equal. unfold contents. by destruct (decide (c0 = c')).
    - destruct (frequent_get_result "uc4_aggregate_paths" in_U st W c Hh (proj2 U_ok)) as (st' & o & Eg & Hm & Hp).
      exists o. rewrite Er. cbn [mbind res_bind]. rewrite Eg. split; [done|]. split; [done|]. intros p n. rewrite Hp, Ht, total_init. done. }
  exists outs. split; [exact E|]. split.
  - intros m (o & Ho & Hm)%elem_concat. destruct (Forall2_elem_r _ _ _ _ Houts Ho) as (es & _ & Hs & _). by apply Hs.
  - assert (Htot : ∀ i es p, evs !! i = Some es → in_U p → total_at (client_counts c es) p =
      if decide ((hash_path p mod AFFINITY_SHARDS_PATHS) mod k = Z.of_nat i) then counted out p else 0).
    { intros i es p Hi Hp. rewrite client_counts_mail, <- (counts_at_instance out k (Z.of_nat i) p Hout Hp).
      apply zsum_perm, fmap_Permutation, Hfed, Hi. }
    intros p. split.
    + intros (counts & n & (o & Ho & Hin)%elem_concat & Hpn). apply list_elem_of_lookup in Ho as [i Ho].
      destruct (Forall2_lookup_r _ _ _ _ _ Houts Ho) as (es & Hes & _ & Hp).
      destruct (proj1 (Hp p n)) as (HU & En & Hmin); [by exists counts|]. split; [done|].
      rewrite (Htot i es p Hes HU) in En. destruct (decide _); [lia|unfold MIN_PATH_COUNT in Hmin; lia].
    + intros [HU Hmin]. set (idx := (hash_path p mod AFFINITY_SHARDS_PATHS) mod k).
      assert (Hidx : 0 ≤ idx < k) by by apply Z.mod_pos_bound.
      destruct (lookup_lt_is_Some_2 evs (Z.to_nat idx)) as [es Hes]; [destruct Hfed as [-> _]; lia|].
      destruct (Forall2_lookup_l _ _ _ _ _ Houts Hes) as (o & Ho & _ & Hp).
      destruct (proj2 (Hp p (counted out p))) as (counts & Hin & Hpn).
      { split; [done|]. split; [|done]. rewrite (Htot _ es p Hes HU). rewrite decide_True; [done|]. unfold idx. lia. }
      exists counts, (counted out p). split; [|done]. apply elem_concat. exists o. split; [by eapply list_elem_of_lookup_2|done].
Qed.
End stages.
