(* ===== verification/MergeProps.v ===== *)
(** * What the merges of UC2 and UC3 produce

    UC2: the inner join of the maxima of all left messages with the last names of
    all right messages. UC3: the transactions whose format has an average, in
    order and in bounded batches, whatever was on disk or in a buffer. *)

From Stdlib Require Import Floats.SpecFloat.
From S2P Require Import Prelude.
From S2P Require Import PyDict.
From S2P Require Import PyValues.
From S2P Require Import PyText.
From S2P Require Import PyTime.
From S2P Require Import PyFloat.
From S2P Require Import Wire.
From S2P Require Import PyRepr.
From S2P Require Import Messages.
From S2P Require Import GroupBy.
From S2P Require Import Spill.
From S2P Require Import SpillLog.
From S2P Require Import Aggregates.
From S2P Require Import UC4.
From S2P Require Import UC4Paths.
From S2P Require Import MergeFns.
From S2P Require Import UC4Prune.

(** ** UC2 *)

(** The messages of the two sides, in the order of arrival. *)
Inductive bank_event :=
  | BankLeft (c : uuid) (data : pydict string (string * float))
  | BankRight (c : uuid) (data : pydict string string).

Definition bank_step (st : BankMerge) (e : bank_event) : res BankMerge :=
  match e with
  | BankLeft c data => UC2Merge_left st (MaxByBank c data)
  | BankRight c data => UC2Merge_right st (BankNames c data)
  end.

Definition client_maxima (c : uuid) (es : list bank_event) : list (string * (string * float)) :=
  List.concat ((λ e, match e with BankLeft c' d => if decide (c' = c) then d else [] | _ => [] end) <$> es).
Definition client_names (c : uuid) (es : list bank_event) : list (string * string) :=
  List.concat ((λ e, match e with BankRight c' d => if decide (c' = c) then d else [] | _ => [] end) <$> es).

Lemma dget_or_dsetdefault_client {V} (d : pydict uuid (list V)) c c' :
  dget_or [] (dsetdefault d c []) c' = dget_or [] d c'.
Proof.
  unfold dget_or. rewrite dget_dsetdefault. destruct (decide (pyeq c c')) as [E|]; [|done].
  assert (c = c') as <- by exact E. done.
Qed.

Lemma dupdate_app {K V} `{!PyKey K} (d : pydict K V) l1 l2 : dupdate d (l1 ++ l2) = dupdate (dupdate d l1) l2.
Proof. apply foldl_app. Qed.

Lemma bank_run es : ∃ st, foldR bank_step (mkBM [] []) es = Ok st ∧
  ∀ c, dget_or [] (_max_amounts st) c = max_merge [] (client_maxima c es) ∧
       dget_or [] (_bank_names st) c = dict_of (client_names c es).
Proof.
  induction es as [|e es (st & E & Hd)] using rev_ind; [by eexists|].
  assert (Hsnoc : ∀ c, client_maxima c (es ++ [e]) = client_maxima c es ++ client_maxima c [e] ∧
    client_names c (es ++ [e]) = client_names c es ++ client_names c [e]).
  { intros c. unfold client_maxima, client_names. by rewrite !fmap_app, !List.concat_app. }
  rewrite foldR_app, E. cbn [mbind res_bind foldR].
  destruct e as [c data|c data]; cbn [bank_step UC2Merge_left UC2Merge_right mbind res_bind];
    eexists; (split; [reflexivity|]); intros c'; destruct (Hsnoc c') as [-> ->]; destruct (Hd c') as [H1 H2];
    cbn [_max_amounts _bank_names]; rewrite ?dget_or_dset_client, ?dget_or_dsetdefault_client;
    unfold client_maxima at 2, client_names at 2; cbn [fmap list_fmap List.concat];
    rewrite ?app_nil_r; (split; [|]); rewrite ?H1, ?H2; try done.
  - destruct (decide (c = c')) as [<-|]; [|by rewrite app_nil_r]. by rewrite max_merge_app, H1.
  - destruct (decide (c = c')) as [<-|]; [|by rewrite app_nil_r].
    rewrite H2. unfold dict_of. by rewrite dupdate_app.
Qed.

(** The last name given to a bank. *)
Definition last_name (bank name : string) (N : list (string * string)) : Prop :=
  ∃ N1 N2, N = N1 ++ (bank, name) :: N2 ∧ bank ∉ N2.*1.

Lemma dict_of_last (N : list (string * string)) bank name :
  dget (dict_of N) bank = Some name ↔ last_name bank name N.
Proof.
  unfold dict_of. induction N as [|[b n] N IH] using rev_ind.
  - split; [done|]. intros (N1 & N2 & E & _). by destruct N1.
  - rewrite dupdate_app. change (dupdate ?d [(b, n)]) with (dset d b n). rewrite dget_dset.
    destruct (decide (pyeq b bank)) as [Eb|Eb].
    + assert (b = bank) as -> by exact Eb. split.
      * intros [= ->]. exists N, []. split; [done|]. apply not_elem_of_nil.
      * intros (N1 & N2 & E & Hn). destruct N2 as [|x N2 _] using rev_ind.
        { apply app_inj_tail in E as [_ [= ->]]. done. }
        rewrite app_comm_cons, app_assoc in E. apply app_inj_tail in E as [_ <-].
        destruct Hn. rewrite fmap_app, elem_of_app. right. left.
    + rewrite IH. split; intros (N1 & N2 & E & Hn).
      * subst N. exists N1, (N2 ++ [(b, n)]). rewrite <- app_assoc. split; [done|].
        rewrite fmap_app, not_elem_of_app. split; [done|]. intros [= ->]%list_elem_of_singleton. by destruct Eb.
      * destruct N2 as [|x N2 _] using rev_ind.
        { apply app_inj_tail in E as [_ [= <- _]]. by destruct Eb. }
        rewrite app_comm_cons, app_assoc in E. apply app_inj_tail in E as [-> <-]. exists N1, N2. split; [done|].
        intros Hin. apply Hn. rewrite fmap_app, elem_of_app. by left.
Qed.

Lemma last_name_exists bank n (N : list (string * string)) : (bank, n) ∈ N → ∃ name, last_name bank name N.
Proof.
  induction N as [|[b m] N IH] using rev_ind; [by intros ?%not_elem_of_nil|]. intros Hin.
  destruct (decide (b = bank)) as [->|Hne].
  - exists m, N, []. split; [done|]. apply not_elem_of_nil.
  - apply elem_of_app in Hin as [Hin|Hin]; [|by apply list_elem_of_singleton in Hin as [= -> ->]].
    destruct (IH Hin) as (name & N1 & N2 & -> & Hn). exists name, N1, (N2 ++ [(b, m)]).
    rewrite <- app_assoc. split; [done|]. rewrite fmap_app, not_elem_of_app. split; [done|].
    by intros [= ->]%list_elem_of_singleton.
Qed.

Lemma elem_merged_entries m names bank acc amt name : dict_wf m →
  (bank, acc, amt, name) ∈ merged_entries m names ↔
    dget m bank = Some (acc, amt) ∧ dget names bank = Some name.
Proof.
  intros Hm. unfold merged_entries. rewrite list_elem_of_omap. split.
  - intros ([b [a am]] & Hin & Hs). cbn in Hs. destruct (dget names b) as [n|] eqn:En; [|done].
    injection Hs as -> -> -> ->. split; [|done]. by apply elem_dget.
  - intros [Hg Hn]. apply dget_Some_elem in Hg as (b & Hb & Hin). assert (b = bank) as -> by exact Hb.
    exists (bank, (acc, amt)). split; [done|]. cbn. by rewrite Hn.
Qed.

Lemma merged_entries_banks m names : dict_wf m → NoDup ((λ e, e.1.1.1) <$> merged_entries m names).
Proof.
  unfold dict_wf, merged_entries. induction m as [|[b [a am]] m IH]; [intros; apply NoDup_nil_2|].
  unfold dkeys. rewrite !fmap_cons. intros [Hb Hm]%NoDup_cons. specialize (IH Hm). cbn [omap list_omap fst snd].
  destruct (dget names b); [|done]. rewrite fmap_cons. apply NoDup_cons. split; [|done].
  intros (e & He & Hin)%list_elem_of_fmap. apply list_elem_of_omap in Hin as ([b' [a' am']] & Hin & Hs). cbn in Hs.
  destruct (dget names b'); [|done]. injection Hs as <-. cbn in He. subst b'. apply Hb.
  apply list_elem_of_fmap. exists b. split; [done|]. apply list_elem_of_fmap. by exists (b, (a', am')).
Qed.

(** UC2's merge is the inner join: for any interleaving of maxima and bank
    names of any clients, the result is one message, with at most one entry per
    bank; an entry holds a maximum of all the amounts received for its bank and
    the last name received for it, and there is one for every bank that has
    both. *)
Theorem uc2_merge_joins (c : uuid) (es : list bank_event) (Hnan : no_nan (client_maxima c es)) :
  ∃ st st' entries, foldR bank_step (mkBM [] []) es = Ok st ∧
    UC2Merge_get_result st c = Ok (st', [MergedBankData c entries]) ∧
    NoDup ((λ e, e.1.1.1) <$> entries) ∧
    (∀ bank acc amt name, (bank, acc, amt, name) ∈ entries →
       is_max bank (client_maxima c es) (Some (acc, amt)) ∧ last_name bank name (client_names c es)) ∧
    (∀ bank, bank ∈ (client_maxima c es).*1 → bank ∈ (client_names c es).*1 →
       ∃ acc amt name, (bank, acc, amt, name) ∈ entries).
Proof.
  destruct (bank_run es) as (st & E & Hd). destruct (Hd c) as [Hm Hn].
  pose proof (max_merge_wf [] (client_maxima c es) nil_wf) as Hwf.
  eexists st, _, _. split_and!; [done|reflexivity| | |]; rewrite Hm, Hn.
  - by apply merged_entries_banks.
  - intros bank acc amt name [Hg Hl]%elem_merged_entries; [|done]. split; [|by apply dict_of_last].
    rewrite <- Hg. by apply max_merge_is_max.
  - intros bank ((b & m) & -> & Hmax)%list_elem_of_fmap ((b' & n) & Hb & Hname)%list_elem_of_fmap.
    cbn in Hb. subst b'. cbn [fst].
    pose proof (max_merge_is_max (client_maxima c es) b Hnan) as Hi. unfold is_max in Hi.
    destruct (dget (max_merge [] (client_maxima c es)) b) as [[acc amt]|] eqn:Eg; [|by destruct (Hi _ Hmax)].
    destruct (last_name_exists b n _ Hname) as (name & Hl).
    exists acc, amt, name. apply elem_merged_entries; [done|]. split; [done|]. by apply dict_of_last.
Qed.

Lemma uc2_merge_joins_witness :
  let c := uuid_lit 2 in
  let es := [BankLeft c [("1", ("A", f_of_Z 5)); ("2", ("X", f_of_Z 4))]; BankRight c [("1", "Old"); ("3", "None")];
             BankLeft c [("1", ("B", f_of_Z 7))]; BankRight c [("1", "New")]]%string in
  no_nan (client_maxima c es) ∧
  ∃ st st' entries, foldR bank_step (mkBM [] []) es = Ok st ∧
    UC2Merge_get_result st c = Ok (st', [MergedBankData c entries]) ∧
    NoDup ((λ e, e.1.1.1) <$> entries) ∧
    (∀ bank acc amt name, (bank, acc, amt, name) ∈ entries →
       is_max bank (client_maxima c es) (Some (acc, amt)) ∧ last_name bank name (client_names c es)) ∧
    (∀ bank, bank ∈ (client_maxima c es).*1 → bank ∈ (client_names c es).*1 →
       ∃ acc amt name, (bank, acc, amt, name) ∈ entries).
Proof.
  cbv zeta. match goal with |- ?A ∧ _ => assert (HA : A) end.
  { repeat constructor. }
  split; [exact HA|]. apply uc2_merge_joins. exact HA.
Defined.

(** ** UC3 *)

(** *** Dates *)

Definition not_digit (l : chars) : Prop := match l with c :: _ => is_digit c = false | [] => True end.

Lemma span_digits_stop ds rest :
  forallb is_digit ds = true → not_digit rest → span_digits (ds ++ rest) = (ds, rest).
Proof.
  intros Hd Hr. induction ds as [|d ds IH]; cbn in *.
  - destruct rest as [|c rest]; [done|]. cbn in *. by rewrite Hr.
  - apply andb_true_iff in Hd as [-> Hd]. by rewrite IH.
Qed.

(** Do the [n] digits of a printed number read back? *)
Definition digits_ok (n : nat) (z : Z) (l : chars) : bool :=
  forallb is_digit l && (length l =? n)%nat && (digits_value l =? z).

Lemma pad2_digits : forallb (λ z, digits_ok 2 z (pad0 2 z)) (seqZ 0 100) = true.
Proof. by vm_compute. Qed.
Lemma year_digits : forallb (λ z, digits_ok 4 z (chars_of (str_int z))) (seqZ 1000 9000) = true.
Proof. by vm_compute. Qed.

Lemma seqZ_forallb (P : Z → bool) lo n z : forallb P (seqZ lo n) = true → lo ≤ z < lo + n → P z = true.
Proof. intros H Hz. rewrite forallb_forall in H. apply H, list_elem_of_In, elem_of_seqZ. lia. Qed.

Lemma strp_num_digits n a b lo hi z l rest :
  digits_ok n z l = true → (a ≤ n ≤ b)%nat → lo ≤ z ≤ hi → not_digit rest →
  strp_num a b lo hi (l ++ rest) = Some (z, rest).
Proof.
  intros Hd Hn Hz Hr. unfold digits_ok in Hd. apply andb_true_iff in Hd as [Hd Hv].
  apply andb_true_iff in Hd as [Hd Hl]. apply Nat.eqb_eq in Hl. apply Z.eqb_eq in Hv.
  unfold strp_num. rewrite span_digits_stop, Hl, Hv by done.
  rewrite (proj2 (Nat.leb_le a n)), (proj2 (Nat.leb_le n b)) by lia. unfold in_range.
  by rewrite (proj2 (Z.leb_le lo z)), (proj2 (Z.leb_le z hi)) by lia.
Qed.

Lemma strp_pad2 lo hi z rest : lo ≤ z ≤ hi → 0 ≤ z < 100 → not_digit rest →
  strp_num 1 2 lo hi (pad0 2 z ++ rest) = Some (z, rest).
Proof.
  intros Hz Hr Hn. apply (strp_num_digits 2); [|lia|done|done].
  by apply (seqZ_forallb (λ z, digits_ok 2 z (pad0 2 z)) 0 100 z pad2_digits).
Qed.

(** A field of two digits starts with a digit. *)
Lemma pad0_head z : 0 ≤ z < 100 → ∃ c l, pad0 2 z = c :: l ∧ is_digit c = true.
Proof.
  intros Hz. pose proof (seqZ_forallb (λ z, digits_ok 2 z (pad0 2 z)) 0 100 z pad2_digits ltac:(lia)) as H.
  unfold digits_ok in H. destruct (pad0 2 z) as [|c l]; [done|]. exists c, l. split; [done|].
  cbn [forallb] in H. by destruct (is_digit c).
Qed.

Lemma digit_not_space c : is_digit c = true → c ≠ chr 32 ∧ is_space c = false.
Proof. destruct c as [[] [] [] [] [] [] [] []]; try done. Qed.

Lemma strp_char_cons c l : strp_char c (c :: l) = Some l.
Proof. unfold strp_char. by rewrite bool_decide_eq_true_2. Qed.

Lemma strp_space_field z rest : 0 ≤ z < 100 → strp_space (chr 32 :: pad0 2 z ++ rest) = Some (pad0 2 z ++ rest).
Proof.
  intros Hz. destruct (pad0_head z Hz) as (c & l & -> & Hc). destruct (digit_not_space c Hc) as [_ Hs].
  unfold strp_space. change (is_space (chr 32)) with true. cbn [app lstrip_ws]. by rewrite Hs.
Qed.

Lemma strp_day_field z rest : 1 ≤ z ≤ 31 → not_digit rest → strp_day (pad0 2 z ++ rest) = Some (z, rest).
Proof.
  intros Hz Hr. pose proof (strp_pad2 1 31 z rest Hz ltac:(lia) Hr) as Hs.
  destruct (pad0_head z ltac:(lia)) as (c & l & E & Hc). rewrite E in Hs |- *.
  destruct (digit_not_space c Hc) as [Hsp _]. unfold strp_day. cbn [app] in *.
  by rewrite bool_decide_eq_false_2.
Qed.

#[local] Opaque pad0 str_int.

Lemma strptime_strftime d :
  valid_datetime d = true → 1000 ≤ year d → strptime (str_of (strftime d)) = Ok d.
Proof.
  intros Hv Hy0. pose proof (valid_datetime_bounds d Hv) as (Hy & Hm & Hd & Hh & Hmi & Hs).
  unfold strptime. rewrite chars_of_str. unfold strftime.
  rewrite (strp_num_digits 4 4 4 0 9999 (year d));
    [|apply (seqZ_forallb (λ z, digits_ok 4 z (chars_of (str_int z))) 1000 9000 _ year_digits); lia|lia|lia|done].
  cbn [mbind option_bind]. rewrite strp_char_cons. cbn [mbind option_bind].
  rewrite strp_pad2 by (done || lia). cbn [mbind option_bind]. rewrite strp_char_cons. cbn [mbind option_bind].
  rewrite strp_day_field by (done || lia). cbn [mbind option_bind].
  rewrite strp_space_field by lia. cbn [mbind option_bind].
  rewrite strp_pad2 by (done || lia). cbn [mbind option_bind]. rewrite strp_char_cons. cbn [mbind option_bind].
  rewrite strp_pad2 by (done || lia). cbn [mbind option_bind]. rewrite strp_char_cons. cbn [mbind option_bind].
  rewrite <- (app_nil_r (pad0 2 (second d))). rewrite strp_pad2 by (done || lia). cbn [mbind option_bind of_opt res_bind].
  unfold datetime_new. destruct d. cbn in *. by rewrite Hv.
Qed.
#[local] Transparent pad0 str_int.

(** *** A line of the spill *)

Definition tx_text (t : Transaction) : chars := match tx_line t with Ok l => l | Exc _ => [] end.

(** A transaction that prints and parses: a date of four-digit year, and amounts
    whose [repr] reads back. *)
Definition tx_line_ok (t : Transaction) : bool :=
  match timestamp t with
  | TsDate d => valid_datetime d && (1000 <=? year d)
  | TsText _ => false
  end && json_exact (amount_received t) && json_exact (amount_paid t).

Lemma tx_line_shape t : tx_line_ok t = true →
  ∃ d v, timestamp t = TsDate d ∧ valid_datetime d = true ∧ 1000 ≤ year d ∧
    v = PList [PStr (str_of (strftime d)); PStr (from_bank t); PStr (from_account t); PStr (to_bank t);
        PStr (to_account t); PFloat (amount_received t); PStr (receiving_currency t);
        PFloat (amount_paid t); PStr (payment_currency t); PStr (payment_format t)] ∧
    json_ok v = true ∧ json_dumps v = Ok (tx_text t) ∧ tx_line t = Ok (tx_text t).
Proof.
  unfold tx_line_ok. intros H. apply andb_true_iff in H as [H Hp]. apply andb_true_iff in H as [H Hr].
  destruct (timestamp t) as [d|] eqn:Et; [|done]. apply andb_true_iff in H as [Hv Hy]. apply Z.leb_le in Hy.
  exists d. eexists. split_and!; [done..| | |].
  - cbn [json_ok forallb]. by rewrite Hr, Hp.
  - unfold tx_text, tx_line. rewrite Et. by rewrite json_dumps_list.
  - unfold tx_text, tx_line. rewrite Et. by rewrite json_dumps_list.
Qed.

Lemma tx_text_clean t : tx_line_ok t = true → clean (tx_text t).
Proof.
  intros H. destruct (tx_line_shape t H) as (d & v & _ & _ & _ & _ & Hok & Hd & _).
  by eapply json_dumps_clean.
Qed.

Lemma tx_of_line_text t : tx_line_ok t = true → tx_of_line (terminated (tx_text t)) = Ok t.
Proof.
  intros H. pose proof (tx_text_clean t H) as Hc.
  destruct (tx_line_shape t H) as (d & v & Et & Hv & Hy & -> & Hok & Hd & _).
  unfold tx_of_line, json_fields. rewrite rstrip_terminated, (json_loads_dumps _ _ Hok Hd) by done.
  cbn [jnorm fmap list_fmap py_iter mbind res_bind tx_of_row]. unfold ts_strptime. cbn [as_str mbind res_bind].
  rewrite strptime_strftime by done. cbn. destruct t. cbn in *. by subst.
Qed.

(** *** The batches *)

Definition batch_of (m : Body) : list Transaction := match m with MergedTransactions _ l _ => l | _ => [] end.

Definition has_average (averages : pydict string float) (t : Transaction) : bool := dmem averages (payment_format t).

Lemma merge_batches_spec chunk_size c averages ts : 0 < chunk_size → Forall (λ t, tx_line_ok t = true) ts →
  ∀ batch emitted, Z.of_nat (length batch) < chunk_size →
  ∃ out, merge_batches chunk_size c averages batch emitted (terminated <$> (tx_text <$> ts)) = Ok out ∧
    (∀ m, m ∈ out → ∃ l, m = MergedTransactions c l averages ∧ Z.of_nat (length l) ≤ chunk_size) ∧
    List.concat (batch_of <$> out) = batch ++ filter (λ t, has_average averages t = true) ts ∧
    (emitted = false → out ≠ []).
Proof.
  intros Hcs. induction ts as [|t ts IH]; intros Hts batch emitted Hb.
  - cbn [fmap list_fmap merge_batches]. eexists. split; [reflexivity|]. rewrite filter_nil, app_nil_r.
    destruct batch as [|t0 batch]; [rewrite bool_decide_eq_true_2 by done|rewrite bool_decide_eq_false_2 by done].
    + destruct emitted; cbn; (split_and!; [|done|done]); [by intros m ?%not_elem_of_nil|].
      intros m ->%list_elem_of_singleton. exists []. split; [done|cbn; lia].
    + rewrite orb_true_r. split_and!; [|apply concat_one|done].
      intros m ->%list_elem_of_singleton. eexists. split; [done|lia].
  - apply Forall_cons in Hts as [Ht Hts]. specialize (IH Hts). rewrite !fmap_cons. cbn [merge_batches].
    rewrite tx_of_line_text by done. cbn [mbind res_bind]. cbn zeta. rewrite filter_cons.
    fold (has_average averages t).
    destruct (decide (has_average averages t = true)) as [Ha|Ha];
      [rewrite Ha|rewrite (not_true_is_false _ Ha); by apply IH].
    destruct (chunk_size <=? _) eqn:Hc; rewrite length_app in Hc; cbn [length] in Hc.
    + destruct (IH [] true ltac:(cbn; lia)) as (out & E & Hm & Hcat & _). rewrite E. cbn [mbind res_bind].
      eexists. split_and!; [reflexivity| | |done].
      * intros m [->|Hin]%elem_of_cons; [|by apply Hm]. eexists. split; [done|]. rewrite length_app. cbn. lia.
      * rewrite fmap_cons. change (List.concat (?x :: ?r)) with (x ++ List.concat r). rewrite Hcat.
        cbn [batch_of]. by rewrite <- app_assoc.
    + apply Z.leb_gt in Hc. destruct (IH (batch ++ [t]) emitted) as (out & E & Hm & Hcat & Hne).
      { rewrite length_app. cbn. lia. }
      exists out. split_and!; [done..| |done]. rewrite Hcat. by rewrite <- app_assoc.
Qed.

(** *** The merging node of UC3 *)

Inductive avg_event :=
  | AvgLeft (c : uuid) (averages : pydict string float)
  | AvgRight (c : uuid) (l : list Transaction)
  | AvgCheckpoint.

Definition avg_step (tag : string) (st : AvgMerge) (e : avg_event) : res AvgMerge :=
  match e with
  | AvgLeft c averages => UC3Merge_left st (AvgByFormat c averages)
  | AvgRight c l => UC3Merge_right tag st (Transactions c l)
  | AvgCheckpoint => '(st, _) ← UC3Merge_snapshot_state tag st; Ok st
  end.

Definition avg_init : AvgMerge := mkAM [] (spill_init []).

Definition client_averages (c : uuid) (es : list avg_event) : list (string * float) :=
  List.concat ((λ e, match e with AvgLeft c' d => if decide (c' = c) then d else [] | _ => [] end) <$> es).
Definition client_txs (c : uuid) (es : list avg_event) : list Transaction :=
  List.concat ((λ e, match e with AvgRight c' l => if decide (c' = c) then l else [] | _ => [] end) <$> es).

Definition all_lines_ok (es : list avg_event) : Prop :=
  ∀ e, e ∈ es → match e with AvgRight _ l => Forall (λ t, tx_line_ok t = true) l | _ => True end.

Section avg_node.
Context (tag : string).

Record avg_holds (st : AvgMerge) (W : list (uuid * Transaction)) (es : list avg_event) : Prop := {
  a_log : client_log tx_text tag (avg_spill st) W;
  a_avg : ∀ c, dget_or [] (_averages st) c = dict_of (client_averages c es);
  a_txs : ∀ c, (filter (λ e, e.1 = c) W).*2 = client_txs c es
}.

Lemma avg_snoc c es e :
  client_averages c (es ++ [e]) = client_averages c es ++ client_averages c [e] ∧
  client_txs c (es ++ [e]) = client_txs c es ++ client_txs c [e].
Proof. unfold client_averages, client_txs. by rewrite !fmap_app, !List.concat_app. Qed.

Lemma append_tx_ok c s t : tx_line_ok t = true →
  append_tx tag c s t = Ok (ps_append tag s c (terminated (tx_text t))) ∧ clean (tx_text t).
Proof.
  intros Ht. destruct (tx_line_shape t Ht) as (_ & _ & _ & _ & _ & _ & _ & _ & El). unfold append_tx.
  rewrite El. split; [done|by apply tx_text_clean].
Qed.

Lemma avg_step_holds st W es e :
  match e with AvgRight _ l => Forall (λ t, tx_line_ok t = true) l | _ => True end →
  avg_holds st W es → ∃ st' W', avg_step tag st e = Ok st' ∧ avg_holds st' W' (es ++ [e]).
Proof.
  intros Hok [Hl Ha Ht]. destruct e as [c d|c l|]; cbn [avg_step].
  - eexists _, W. split; [reflexivity|]. split; cbn [avg_spill _averages]; [done| |]; intros c';
      destruct (avg_snoc c' es (AvgLeft c d)) as [E1 E2].
    + rewrite E1, dget_or_dset_client. unfold client_averages at 2. cbn [fmap list_fmap]. rewrite concat_one.
      rewrite !dget_or_dsetdefault_client. destruct (decide (c = c')) as [<-|].
      * rewrite Ha. unfold dict_of. by rewrite dupdate_app.
      * by rewrite app_nil_r.
    + by rewrite E2, Ht, app_nil_r.
  - rewrite Forall_forall in Hok.
    destruct (client_log_all tx_text tag (append_tx tag c) c l (λ s t Hin, append_tx_ok c s t (Hok t Hin)) _ _ Hl)
      as (s' & E & Hl'). unfold UC3Merge_right. rewrite E.
    cbn [mbind res_bind]. eexists _, _. split; [reflexivity|]. split; cbn [avg_spill _averages]; [exact Hl'| |];
      intros c'; destruct (avg_snoc c' es (AvgRight c l)) as [E1 E2].
    + by rewrite E1, Ha, app_nil_r.
    + rewrite E2, filter_app, fmap_app, Ht, filter_client. unfold client_txs at 3. cbn [fmap list_fmap].
      by rewrite concat_one.
  - destruct (logged_ps_snapshot tag _ _ Hl) as (s' & sn & E & Hl'). unfold UC3Merge_snapshot_state. rewrite E.
    cbn [mbind res_bind]. eexists _, W. split; [reflexivity|].
    split; cbn [avg_spill _averages]; [done| |]; intros c'; destruct (avg_snoc c' es AvgCheckpoint) as [E1 E2].
    + by rewrite E1, Ha, app_nil_r.
    + by rewrite E2, Ht, app_nil_r.
Qed.

Lemma avg_run_holds es : all_lines_ok es → ∃ st W, foldR (avg_step tag) avg_init es = Ok st ∧ avg_holds st W es.
Proof.
  induction es as [|e es IH] using rev_ind; intros Hok.
  - exists avg_init, []. split; [done|]. split; [apply client_log_init|done..].
  - destruct IH as (st & W & E & Hp); [intros e' He'; apply Hok, elem_of_app; by left|].
    destruct (avg_step_holds st W es e) as (st' & W' & E' & Hp'); [|done|].
    { apply Hok, elem_of_app. right. left. }
    exists st', W'. split; [|done]. by rewrite foldR_app, E; cbn [mbind res_bind foldR]; rewrite E'.
Qed.

Lemma client_txs_ok c es : all_lines_ok es → Forall (λ t, tx_line_ok t = true) (client_txs c es).
Proof.
  intros Hok. apply Forall_forall. intros t Ht. unfold client_txs in Ht.
  apply elem_concat in Ht as (l & Hl & Ht). apply list_elem_of_fmap in Hl as (e & -> & He).
  specialize (Hok e He). destruct e as [|c' l|]; try by apply not_elem_of_nil in Ht.
  destruct (decide _); [|by apply not_elem_of_nil in Ht]. rewrite Forall_forall in Hok. by apply Hok.
Qed.
End avg_node.

(** UC3's merge pairs every transaction with the averages: for any
    interleaving of the two sides' messages and of checkpoints, and any chunk
    size, the result is at least one message; every message carries the same
    averages (the last one received for each format) and at most a chunk of
    transactions; and the transactions of all of them are those received whose
    format has an average, in the order of arrival, none lost or repeated. *)
Theorem uc3_merge_streams (tag : string) (chunk_size : Z) (c : uuid) (es : list avg_event)
    (Hcs : 0 < chunk_size) (Hok : all_lines_ok es) :
  ∃ st st' out, foldR (avg_step tag) avg_init es = Ok st ∧
    UC3Merge_get_result tag chunk_size st c = Ok (st', out) ∧ out ≠ [] ∧
    (∀ m, m ∈ out → ∃ l, m = MergedTransactions c l (dict_of (client_averages c es)) ∧
       Z.of_nat (length l) ≤ chunk_size) ∧
    List.concat (batch_of <$> out) =
      filter (λ t, has_average (dict_of (client_averages c es)) t = true) (client_txs c es).
Proof.
  destruct (avg_run_holds tag es Hok) as (st & W & E & [Hl Ha Ht]).
  destruct (client_log_iter tx_text tag (avg_spill st) W c Hl) as (s' & Es & _). rewrite Ht in Es.
  destruct (merge_batches_spec chunk_size c (dict_of (client_averages c es)) (client_txs c es) Hcs
    (client_txs_ok c es Hok) [] false) as (out & Eo & Hm & Hcat & Hne); [cbn; lia|].
  eexists st, _, out. split_and!; [done| |by apply Hne|done|done].
  unfold UC3Merge_get_result. cbn zeta. rewrite Es, Ha, Eo. reflexivity.
Qed.

Definition demo_wire (account format : string) : Transaction :=
  mkTx (TsDate (mkDT 2022 9 1 0 20 7)) "1" account "2" "B" (f_of_dec 369734 (-2)) "Euro" (f_of_dec 369734 (-2)) "Euro" format.

(** Chunks of two, with an average that arrives last and one that is replaced. *)
Lemma uc3_merge_streams_witness :
  let c := uuid_lit 3 in
  let es := [AvgRight c [demo_wire "A" "Wire"; demo_wire "B" "Cash"; demo_wire "C" "Wire"]; AvgCheckpoint;
             AvgLeft c [("Wire", f_of_Z 1)]; AvgRight c [demo_wire "D" "Wire"]; AvgLeft c [("Wire", f_of_Z 2)]]%string in
  (0 < 2 ∧ all_lines_ok es) ∧
  ∃ st st' out, foldR (avg_step "uc3") avg_init es = Ok st ∧
    UC3Merge_get_result "uc3" 2 st c = Ok (st', out) ∧ out ≠ [] ∧
    (∀ m, m ∈ out → ∃ l, m = MergedTransactions c l (dict_of (client_averages c es)) ∧ Z.of_nat (length l) ≤ 2) ∧
    List.concat (batch_of <$> out) =
      filter (λ t, has_average (dict_of (client_averages c es)) t = true) (client_txs c es).
Proof.
  cbv zeta. match goal with |- (_ ∧ ?A) ∧ _ => assert (HA : A) end.
  { intros e He. rewrite list_elem_of_In in He.
    destruct He as [<-|[<-|[<-|[<-|[<-|[]]]]]]; [repeat constructor|done|done|repeat constructor|done]. }
  split; [split; [lia|exact HA]|]. apply (uc3_merge_streams "uc3" 2); [lia|exact HA].
Defined.
