(* ===== verification/RingMerge.v ===== *)
(** * Merge nodes: [merge/ring_merge.py]

    A ring node with two inputs, whose end of file is the sum of the two sides'.
    Its routes share one stamping counter; its checkpoint holds the merge
    function's state, the completion and the two sides' expected counts. *)

From S2P Require Import Prelude.
From S2P Require Import PyDict.
From S2P Require Import PyValues.
From S2P Require Import PyText.
From S2P Require Import PyFloat.
From S2P Require Import Wire.
From S2P Require Import Messages.
From S2P Require Import Stamping.
From S2P Require Import Dedup.
From S2P Require Import RingCompletion.
From S2P Require Import Checkpoint.
From S2P Require Import RingNode.
From S2P Require Import Aggregates.
From S2P Require Import MergeFns.

(** ** [MergeEofCounts] *)

Record MergeEofCounts := mkMEC { mec_left : pydict uuid Z; mec_right : pydict uuid Z }.

Definition mec_init : MergeEofCounts := mkMEC [] [].

(** The source reads the two tables with [snapshot.get(.., {})]. *)
Definition mec_blob : Type := option (pydict string Z) * option (pydict string Z).
Definition mec_snapshot_state (m : MergeEofCounts) : mec_blob :=
  (Some (clients_out id (mec_left m)), Some (clients_out id (mec_right m))).
Definition mec_restore_state (b : mec_blob) : res MergeEofCounts :=
  l ← clients_in id (default [] b.1); r ← clients_in id (default [] b.2); Ok (mkMEC l r).

Definition mec_drop (m : MergeEofCounts) (c : uuid) : MergeEofCounts :=
  mkMEC (ddel (mec_left m) c) (ddel (mec_right m) c).

Definition mec_wf (m : MergeEofCounts) : Prop := dict_wf (mec_left m) ∧ dict_wf (mec_right m).

#[export, refine] Instance MergeEofCounts_Snapshotable : Snapshotable MergeEofCounts := {|
  snap := mec_blob;
  snapshot_state := mec_snapshot_state;
  restore_state _ := mec_restore_state;
  clear_stale_spill m := m;
  snap_wf _ m := mec_wf m
|}.
Proof.
  intros s0 [l r] [Hl Hr]. unfold mec_restore_state, mec_snapshot_state. cbn [fst snd mec_left mec_right] in *.
  change (default [] (Some (clients_out id l))) with (clients_out id l).
  change (default [] (Some (clients_out id r))) with (clients_out id r).
  by rewrite (clients_roundtrip (id : Z → Z) id l), (clients_roundtrip (id : Z → Z) id r) by done.
Defined.

(** ** The completion of two inputs *)

Inductive side := LeftSide | RightSide.

#[export] Instance side_eq_dec : EqDecision side.
Proof. solve_decision. Defined.

(** [self.counts.left[client_id] = expected_count], or right *)
Definition set_side (m : MergeEofCounts) (s : side) (c : uuid) (k : Z) : MergeEofCounts :=
  match s with
  | LeftSide => mkMEC (dset (mec_left m) c k) (mec_right m)
  | RightSide => mkMEC (mec_left m) (dset (mec_right m) c k)
  end.

(** [if client_id in left and client_id in right: left[c] + right[c]] *)
Definition combined (m : MergeEofCounts) (c : uuid) : option Z :=
  match dget (mec_left m) c, dget (mec_right m) c with
  | Some l, Some r => Some (l + r)
  | _, _ => None
  end.

Inductive merge_event :=
  | MData (s : side) (c : uuid)
  | MEof (s : side) (c : uuid) (k : Z)
  | MDrop (c : uuid).

(** What a message does to the counts and the completion, and the actions of the
    latter: the common part of the handlers. *)
Definition merge_step (x : MergeEofCounts * RingCompletion) (e : merge_event)
    : (MergeEofCounts * RingCompletion) * list Action :=
  let '(m, rc) := x in
  match e with
  | MData _ c => let '(rc, actions) := on_data rc c in ((m, rc), actions)
  | MEof s c k =>
      let m := set_side m s c k in
      match combined m c with
      | Some n => let '(rc, actions) := on_upstream_eof rc c n in ((m, rc), actions)
      | None => ((m, rc), [])
      end
  | MDrop c => ((mec_drop m c, drop_client rc c), [])
  end.

(** ** The node *)

Record MergeState (F : Type) := mkMS {
  mg_rc : RingCompletion;
  mg_counts : MergeEofCounts;
  mg_tx : StampingMOM;      (* the counter all routes share *)
  mg_routes : nat;          (* [len(external_txs)] *)
  mg_fn : F
}.
Arguments mkMS {F}. Arguments mg_rc {F}. Arguments mg_counts {F}. Arguments mg_tx {F}.
Arguments mg_routes {F}. Arguments mg_fn {F}.

Section merge_node.
Context `{MP : MsgPack} {F : Type} `{!Snapshotable F} (fn : MergeFn F).
Implicit Types (n : MergeState F) (m : Message) (c : uuid).

Abbreviation extra := (RingCompletion + MergeEofCounts)%type.
Abbreviation meffect := (effect F extra NOut nat).
Abbreviation mcpt := (option (Checkpointer nat)).

Definition merge_world n : World F extra :=
  mkWorld (mg_fn n) [mg_tx n] [("completion"%string, inl (mg_rc n)); ("merge_eof"%string, inr (mg_counts n))].

Definition mg_set_rc n rc := mkMS rc (mg_counts n) (mg_tx n) (mg_routes n) (mg_fn n).
Definition mg_set_fn n (f : F) := mkMS (mg_rc n) (mg_counts n) (mg_tx n) (mg_routes n) f.
Definition mg_set_core n (x : MergeEofCounts * RingCompletion) := mkMS x.2 x.1 (mg_tx n) (mg_routes n) (mg_fn n).

(** [self.external_txs[i].send(message)] *)
Definition merge_send n (i : nat) (message : bytes) : res (MergeState F * list NOut) :=
  _ ← guard_exc IndexError (i <? mg_routes n)%nat;
  let '(tx, r) := sm_send (mg_tx n) message in
  raw ← r;
  Ok (mkMS (mg_rc n) (mg_counts n) tx (mg_routes n) (mg_fn n), [ToTx i raw]).

(** One message to every route. *)
Fixpoint merge_send_each n (l : list (nat * Message)) : res (MergeState F * list NOut) :=
  match l with
  | [] => Ok (n, [])
  | (i, m) :: l =>
      raw ← serialize m;
      '(n, o1) ← merge_send n i raw;
      '(n, o2) ← merge_send_each n l; Ok (n, o1 ++ o2)
  end.

Definition merge_downstream_eof n c (per_shard : shard_counts) : res (MergeState F * list NOut) :=
  merge_send_each n ((λ i, (i, shard_eof c (dget_or 0 per_shard (Z.of_nat i)))) <$> List.seq 0 (mg_routes n)).

Definition merge_downstream_abort n c : res (MergeState F * list NOut) :=
  merge_send_each n ((λ i, (i, new_msg (Abort c))) <$> List.seq 0 (mg_routes n)).

Definition merge_leaf n (a : Action) : res (MergeState F * list NOut) :=
  match a with
  | Emit _ => Ok (n, [])
  | Forward t => o ← forward t; Ok (n, o)
  | DownstreamEOF c per_shard => merge_downstream_eof n c per_shard
  end.

Fixpoint merge_leaves n (l : list Action) : res (MergeState F * list NOut) :=
  match l with
  | [] => Ok (n, [])
  | a :: l => '(n, o1) ← merge_leaf n a; '(n, o2) ← merge_leaves n l; Ok (n, o1 ++ o2)
  end.

(** The results round robin over the routes, counted per route. *)
Fixpoint send_merged n (i : nat) (sent : shard_counts) (l : list Body)
    : res (MergeState F * list NOut * shard_counts) :=
  match l with
  | [] => Ok (n, [], sent)
  | b :: l =>
      _ ← guard_exc ZeroDivisionError (negb (mg_routes n =? 0)%nat);
      let shard := (i mod mg_routes n)%nat in
      raw ← serialize (new_msg b);
      '(n, o1) ← merge_send n shard raw;
      '(n, o2, sent) ← send_merged n (S i) (dadd sent (Z.of_nat shard) 1) l;
      Ok (n, o1 ++ o2, sent)
  end.

Definition merge_emit n c : res (MergeState F * list NOut) :=
  '(f, l) ← merge_result fn (mg_fn n) c;
  '(n, o1, sent) ← send_merged (mg_set_fn n f) 0 [] l;
  let '(rc, actions) := report_sent (mg_rc n) c sent in
  '(n, o2) ← merge_leaves (mg_set_rc n rc) actions;
  Ok (n, o1 ++ o2).

Fixpoint merge_run n (l : list Action) : res (MergeState F * list NOut) :=
  match l with
  | [] => Ok (n, [])
  | a :: l =>
      '(n, o1) ← (match a with Emit c => merge_emit n c | _ => merge_leaf n a end);
      '(n, o2) ← merge_run n l; Ok (n, o1 ++ o2)
  end.

Definition merge_flush (cp : mcpt) n : mcpt * list meffect :=
  match cp with
  | Some cp => let '(cp, e) := flush cp (merge_world n) true in (Some cp, e)
  | None => (None, [])
  end.

(** [_free], [_discard] *)
Definition merge_free n c : MergeState F :=
  mkMS (mg_rc n) (mec_drop (mg_counts n) c) (mg_tx n) (mg_routes n) (merge_discard fn (mg_fn n) c).

(** [_on_left_data], [_on_right_data] *)
Definition on_side_data (s : side) n m : res (MergeState F * list NOut) :=
  f ← (match s with LeftSide => left fn | RightSide => right fn end) (mg_fn n) (body_ m);
  c ← of_opt AttributeError (body_client (body_ m));
  let '(x, actions) := merge_step (mg_counts n, mg_rc n) (MData s c) in
  merge_run (mg_set_core (mg_set_fn n f) x) actions.

(** [_on_left_eof], [_on_right_eof] with [_maybe_complete] *)
Definition on_side_eof (s : side) (cp : mcpt) n m : res (mcpt * MergeState F * list meffect) :=
  match body_ m with
  | EOF c _ expected_count _ _ _ =>
      let '(x, actions) := merge_step (mg_counts n, mg_rc n) (MEof s c expected_count) in
      let n := mg_set_core n x in
      let '(cp, e1) := match actions with [] => (cp, []) | _ => merge_flush cp n end in
      '(n, o) ← merge_run n actions;
      let '(cp, e2) := merge_flush cp n in
      let n := foldl merge_free n (emitted actions) in
      Ok (cp, n, e1 ++ (Send <$> o) ++ e2)
  | _ => Exc AttributeError
  end.

Definition on_merge_abort (cp : mcpt) n m : res (mcpt * MergeState F * list meffect) :=
  c ← of_opt AttributeError (body_client (body_ m));
  let '(x, _) := merge_step (mg_counts n, mg_rc n) (MDrop c) in
  let n := mg_set_core (mg_set_fn n (merge_discard fn (mg_fn n) c)) x in
  let '(cp, e) :=
    match cp with
    | Some cp => merge_flush (Some (mark_aborted cp c)) n
    | None => (None, [])
    end in
  '(n, o) ← merge_downstream_abort n c;
  Ok (cp, n, e ++ (Send <$> o)).

(** [_on_left_msg], [_on_right_msg] *)
Definition on_side_msg (s : side) (cp : mcpt) n (body : bytes) (ack : nat)
    : res (mcpt * MergeState F * list meffect) :=
  m ← deserialize_message body;
  dispatch merge_world (λ m n, on_side_data s n m) cp n m ack (on_side_eof s) (Some on_merge_abort).

Inductive merge_ring_result :=
  | MergeAcked (cp : mcpt) (n : MergeState F) (effs : list meffect)
  | MergeNacked.

Definition on_merge_ring_msg (cp : mcpt) n (body : bytes) (ack : nat) : res merge_ring_result :=
  m ← deserialize_message body;
  match body_ m with
  | RingBarrier c o sb =>
      let '(rc, actions) := on_token (mg_rc n) (mkToken c o sb) in
      Ok (match merge_run (mg_set_rc n rc) actions with
          | Exc _ => MergeNacked
          | Ok (n, out) =>
              let '(cp, e) := merge_flush cp n in
              let n := foldl merge_free n (emitted actions) in
              MergeAcked cp n ((Send <$> out) ++ e ++ [Ack ack])
          end)
  | _ => Exc AttributeError
  end.

(** [start], before consuming *)
Definition merge_start (cp : mcpt) n (file : option (Blob F extra)) : res (mcpt * MergeState F * list meffect) :=
  match cp with
  | None => Ok (None, n, [])
  | Some cp =>
      '(restored, (cp, w)) ← cp_restore cp (merge_world n) file;
      n ← match w_extra w, w_seqs w with
          | [(_, inl rc); (_, inr counts)], [tx] => Ok (mkMS rc counts tx (mg_routes n) (w_fn w))
          | _, _ => Exc TypeError
          end;
      if negb restored then Ok (Some cp, n, [])
      else
        let '(rc, actions) := recheck (mg_rc n) in
        '(n, o) ← merge_run (mg_set_rc n rc) actions;
        let n := foldl merge_free n (resolved_clients (mg_rc n)) in
        let '(cp, e) := merge_flush (Some cp) n in
        Ok (cp, n, (Send <$> o) ++ e)
  end.
End merge_node.

(** ** Completion of both sides *)

Definition mev_client (e : merge_event) : uuid := match e with MData _ c | MEof _ c _ | MDrop c => c end.

(** The calls a list of events makes on the completion of one client; [m] is what
    is known of its two sides. *)
Fixpoint side_calls (m : option Z * option Z) (c : uuid) (es : list merge_event) : list rc_event :=
  match es with
  | [] => []
  | MData _ _ :: es => EvData c :: side_calls m c es
  | MEof s _ k :: es =>
      let m := match s with LeftSide => (Some k, m.2) | RightSide => (m.1, Some k) end in
      match m with
      | (Some l, Some r) => EvEof c (l + r) :: side_calls m c es
      | _ => side_calls m c es
      end
  | MDrop _ :: es => EvDrop c :: side_calls (None, None) c es
  end.

Definition sides (m : MergeEofCounts) (c : uuid) : option Z * option Z := (dget (mec_left m) c, dget (mec_right m) c).

Lemma combined_sides m c : combined m c = match sides m c with (Some l, Some r) => Some (l + r) | _ => None end.
Proof. unfold combined, sides. by destruct (dget (mec_left m) c), (dget (mec_right m) c). Qed.

Lemma sides_set m s c k c' :
  sides (set_side m s c k) c' =
    if decide (c = c') then match s with LeftSide => (Some k, (sides m c').2) | RightSide => ((sides m c').1, Some k) end
    else sides m c'.
Proof.
  unfold sides. destruct s; cbn [set_side mec_left mec_right]; rewrite dget_dset;
    by destruct (decide (pyeq c c')) as [E|E], (decide (c = c')) as [E'|E'].
Qed.

Lemma sides_drop m c c' : mec_wf m →
  sides (mec_drop m c) c' = if decide (c = c') then (None, None) else sides m c'.
Proof.
  intros [Hl Hr]. unfold sides, mec_drop. cbn [mec_left mec_right]. rewrite !dget_ddel by done.
  by destruct (decide (pyeq c c')) as [E|E], (decide (c = c')) as [E'|E'].
Qed.

(** The calls of all clients together. *)
Fixpoint rc_calls (m : MergeEofCounts) (es : list merge_event) : list rc_event :=
  match es with
  | [] => []
  | MData _ c :: es => EvData c :: rc_calls m es
  | MEof s c k :: es =>
      let m := set_side m s c k in
      match combined m c with
      | Some n => EvEof c n :: rc_calls m es
      | None => rc_calls m es
      end
  | MDrop c :: es => EvDrop c :: rc_calls (mec_drop m c) es
  end.

Lemma merge_steps_calls es m rc :
  (run_steps merge_step (m, rc) es).2 = (run_steps rc_step rc (rc_calls m es)).2.
Proof.
  revert m rc. induction es as [|e es IH]; intros m rc; [done|].
  destruct e as [s c|s c k|c]; cbn [run_steps merge_step rc_calls].
  - cbn [run_steps rc_step]. destruct (on_data rc c) as [rc1 o1]. specialize (IH m rc1).
    destruct (run_steps merge_step _ es), (run_steps rc_step _ _). cbn in *. by subst.
  - destruct (combined _ c) as [n|].
    + cbn [run_steps rc_step]. destruct (on_upstream_eof rc c n) as [rc1 o1]. specialize (IH (set_side m s c k) rc1).
      destruct (run_steps merge_step _ es), (run_steps rc_step _ _). cbn in *. by subst.
    + specialize (IH (set_side m s c k) rc).
      destruct (run_steps merge_step _ es). cbn in *. by subst.
  - cbn [run_steps rc_step]. specialize (IH (mec_drop m c) (drop_client rc c)).
    destruct (run_steps merge_step _ es), (run_steps rc_step _ _). cbn in *. by subst.
Qed.

Lemma set_side_wf m s c k : mec_wf m → mec_wf (set_side m s c k).
Proof. intros [Hl Hr]. destruct s; split; cbn; by try apply dset_wf. Qed.

Lemma mec_drop_wf m c : mec_wf m → mec_wf (mec_drop m c).
Proof. intros [Hl Hr]. split; by apply ddel_wf. Qed.

Lemma rc_calls_wf m es : Forall ev_wf (rc_calls m es).
Proof.
  revert m. induction es as [|[s c|s c k|c] es IH]; intros m; cbn [rc_calls]; [done|by constructor| |by constructor].
  destruct (combined _ c); [by constructor|done].
Qed.

(** Only the events of a client make calls on that client. *)
Lemma rc_calls_of es m c :
  mec_wf m →
  filter (λ e, ev_client e = c) (rc_calls m es) = side_calls (sides m c) c (filter (λ e, mev_client e = c) es).
Proof.
  revert m. induction es as [|e es IH]; intros m Hm; [done|].
  destruct e as [s c0|s c0 k|c0]; cbn [rc_calls]; destruct (decide (c0 = c)) as [->|Hc].
  - rewrite !filter_cons_True by done. cbn [side_calls]. by rewrite IH.
  - rewrite !filter_cons_False by done. by apply IH.
  - rewrite (filter_cons_True _ (MEof s c k)) by done. cbn [side_calls].
    rewrite combined_sides, sides_set, decide_True by done.
    pose proof (set_side_wf m s c k Hm) as Hm'. specialize (IH _ Hm'). rewrite sides_set, decide_True in IH by done.
    destruct s, (sides m c) as [[l|] [r|]]; cbn [fst snd] in *; try exact IH;
      rewrite filter_cons_True by done; by f_equal.
  - rewrite (filter_cons_False _ (MEof s c0 k)) by done.
    specialize (IH _ (set_side_wf m s c0 k Hm)). rewrite sides_set, decide_False in IH by done.
    destruct (combined _ c0); [rewrite filter_cons_False by done|]; exact IH.
  - rewrite !filter_cons_True by done. cbn [side_calls].
    rewrite (IH _ (mec_drop_wf m c Hm)), sides_drop, decide_True by done. done.
  - rewrite !filter_cons_False by done.
    rewrite (IH _ (mec_drop_wf m c0 Hm)), sides_drop, decide_False by done. done.
Qed.

(** One client's whole input: [l] data on the left, [r] on the right, and the two
    ends of file. *)
Definition merge_input (c : uuid) (l r : nat) : list merge_event :=
  MEof LeftSide c (Z.of_nat l) :: MEof RightSide c (Z.of_nat r) ::
  replicate l (MData LeftSide c) ++ replicate r (MData RightSide c).

Definition is_data (e : merge_event) : bool := match e with MData _ _ => true | _ => false end.
Definition is_eof_of (s : side) (e : merge_event) : bool :=
  match e with MEof s' _ _ => bool_decide (s' = s) | _ => false end.

Section one_client.
Variables (c : uuid) (l r : Z).

Definition input_of (e : merge_event) : Prop :=
  (∃ s, e = MData s c) ∨ e = MEof LeftSide c l ∨ e = MEof RightSide c r.

Definition n_of (f : merge_event → bool) (es : list merge_event) : nat := length (filter (λ e, f e = true) es).

Definition known (bl br : bool) : option Z * option Z :=
  (if bl then Some l else None, if br then Some r else None).

(** The data in any order, and one combined end of file when the second side ends. *)
Lemma side_calls_input es bl br :
  Forall input_of es →
  (n_of (is_eof_of LeftSide) es + Nat.b2n bl ≤ 1)%nat → (n_of (is_eof_of RightSide) es + Nat.b2n br ≤ 1)%nat →
  side_calls (known bl br) c es ≡ₚ
    (if (1 <=? n_of (is_eof_of LeftSide) es + Nat.b2n bl)%nat && (1 <=? n_of (is_eof_of RightSide) es + Nat.b2n br)%nat
        && negb (bl && br) then [EvEof c (l + r)] else [])
    ++ replicate (n_of is_data es) (EvData c).
Proof.
  intros Hes. revert bl br. unfold n_of. induction Hes as [|e es He Hes IH]; intros bl br Hl Hr.
  { by destruct bl, br. }
  rewrite !filter_bool_cons in *. destruct He as [[s ->]|[-> | ->]]; cbn [side_calls is_eof_of is_data] in *.
  - rewrite (IH bl br) by lia. cbn [replicate Nat.add]. apply Permutation_middle.
  - rewrite bool_decide_eq_true_2, bool_decide_eq_false_2 in * by done. destruct bl; [cbn in Hl; lia|].
    specialize (IH true br ltac:(cbn in *; lia) Hr). unfold known in *. cbn [fst snd] in *.
    replace (length (filter (λ e, is_eof_of LeftSide e = true) es)) with 0%nat in * by (cbn in *; lia).
    destruct br; cbn in Hr, IH |- *; rewrite IH.
    + by replace (length (filter (λ e, is_eof_of RightSide e = true) es)) with 0%nat by lia.
    + by rewrite andb_true_r.
  - rewrite bool_decide_eq_true_2, bool_decide_eq_false_2 in * by done. destruct br; [cbn in Hr; lia|].
    specialize (IH bl true Hl ltac:(cbn in *; lia)). unfold known in *. cbn [fst snd] in *.
    replace (length (filter (λ e, is_eof_of RightSide e = true) es)) with 0%nat in * by (cbn in *; lia).
    destruct bl; cbn in Hl, IH |- *; rewrite IH.
    + by replace (length (filter (λ e, is_eof_of LeftSide e = true) es)) with 0%nat by lia.
    + by rewrite !andb_true_r.
Qed.

Lemma count_events es : Forall input_of es →
  length es = (n_of is_data es + n_of (is_eof_of LeftSide) es + n_of (is_eof_of RightSide) es)%nat.
Proof.
  unfold n_of. induction 1 as [|e es He Hes IH]; [done|]. rewrite !filter_bool_cons. cbn [length].
  rewrite IH.
  destruct He as [[s ->]|[-> | ->]]; cbn [is_data is_eof_of].
  - lia.
  - rewrite bool_decide_eq_true_2, bool_decide_eq_false_2 by done. lia.
  - rewrite bool_decide_eq_false_2, bool_decide_eq_true_2 by done. lia.
Qed.
End one_client.

Lemma merge_input_counts c (l r : nat) es : es ≡ₚ merge_input c l r →
  Forall (input_of c (Z.of_nat l) (Z.of_nat r)) es ∧ n_of is_data es = (l + r)%nat ∧
  n_of (is_eof_of LeftSide) es = 1%nat ∧ n_of (is_eof_of RightSide) es = 1%nat.
Proof.
  intros Hp. unfold n_of, merge_input in *. split.
  { rewrite Hp. constructor; [right; by left|]. constructor; [right; by right|].
    apply Forall_app. split; apply Forall_replicate; left; eauto. }
  rewrite Hp, !filter_bool_cons, !filter_app, !length_app. cbn.
  rewrite !(filter_Forall_all (λ e, is_data e = true)), !length_replicate by by apply Forall_replicate.
  rewrite !(filter_Forall_none (λ e, is_eof_of _ e = true)) by (apply Forall_replicate; done). done.
Qed.

Lemma side_calls_app c es1 es2 m :
  ∃ m', side_calls m c (es1 ++ es2) = side_calls m c es1 ++ side_calls m' c es2.
Proof.
  revert m. induction es1 as [|e es1 IH]; intros m; [by exists m|]. cbn [app side_calls].
  destruct e as [s c'|s c' k|c'].
  - destruct (IH m) as [m' ->]. by exists m'.
  - destruct s, m as [[a|] [b|]]; cbn; edestruct IH as [m' ->]; by exists m'.
  - destruct (IH (None, None)) as [m' ->]. by exists m'.
Qed.

(** ** The claim *)

(** C21: a merge peer completes a client exactly once and not early: when the input of
    a client is [l] messages and an end of file announcing [l] on the left, [r] and
    an end of file announcing [r] on the right, in any order and interleaved with
    the messages of any other clients, the peer emits its result once, and not
    before the last of the [l + r + 2]. *)
Theorem merge_emits_once (node : Z) (peers : list Z) (c : uuid) (l r : nat) (es : list merge_event) :
  filter (λ e, mev_client e = c) es ≡ₚ merge_input c l r →
  let start := (mec_init, rc_init node peers) in
  filter (λ a, act_client a = c) (run_steps merge_step start es).2 = [Emit c] ∧
  ∀ es1 es2, es = es1 ++ es2 → Exists (λ e, mev_client e = c) es2 →
    filter (λ a, act_client a = c) (run_steps merge_step start es1).2 = [].
Proof.
  intros Hp. cbv zeta.
  assert (Hm : mec_wf mec_init) by (split; apply nil_wf).
  assert (Hproj : ∀ es', filter (λ a, act_client a = c) (run_steps merge_step (mec_init, rc_init node peers) es').2
    = (run_steps (astep (rc_config (rc_init node peers))) (false, fresh_client)
         (side_calls (None, None) c (filter (λ e, mev_client e = c) es'))).2).
  { intros es'. rewrite merge_steps_calls.
    destruct (rc_run_abs (rc_init node peers) (rc_calls mec_init es') c (rc_init_wf _ _) (rc_calls_wf _ _)) as [_ ->].
    by rewrite rc_calls_of. }
  destruct (merge_input_counts _ _ _ _ Hp) as (Hin & Hd & Hl & Hr).
  assert (Hall : side_calls (None, None) c (filter (λ e, mev_client e = c) es)
      ≡ₚ EvEof c (Z.of_nat (l + r)) :: replicate (l + r) (EvData c)).
  { rewrite (side_calls_input c (Z.of_nat l) (Z.of_nat r) _ false false), Hd, Hl, Hr by (done || cbn; lia).
    by rewrite Nat2Z.inj_add. }
  destruct (run_input_all (rc_config (rc_init node peers)) c (l + r) _ Hall) as [H1 H2].
  split; [by rewrite Hproj|]. intros es1 es2 -> Hes2. rewrite Hproj. rewrite filter_app in *.
  destruct (side_calls_app c (filter (λ e, mev_client e = c) es1) (filter (λ e, mev_client e = c) es2) (None, None)) as [m' E].
  eapply H2; [exact E|]. intros E2. rewrite E2, app_nil_r in E. rewrite E in Hall.
  apply Permutation_length in Hall. cbn [length] in Hall. rewrite length_replicate in Hall.
  apply Forall_app in Hin as [Hin1 Hin2].
  pose proof (count_events _ _ _ _ Hin2) as Hc2. unfold n_of in *. rewrite !filter_app, !length_app in *.
  assert (0 < length (filter (λ e, mev_client e = c) es2))%nat.
  { apply Exists_exists in Hes2 as (e & He1 & He2).
    destruct (filter _ es2) eqn:E3; [|cbn; lia]. exfalso. apply (not_elem_of_nil e). rewrite <- E3. by apply list_elem_of_filter. }
  rewrite (side_calls_input c (Z.of_nat l) (Z.of_nat r) _ false false) in Hall by (done || unfold n_of; cbn; lia).
  rewrite length_app, length_replicate in Hall. unfold n_of in Hall. revert Hall.
  destruct (_ && _ && _) eqn:Hb; cbn [length]; [|lia]. intros Hall.
  apply andb_true_iff in Hb as [[Hb1%Nat.leb_le Hb2%Nat.leb_le]%andb_true_iff _]. cbn in Hb1, Hb2. lia.
Qed.

Definition demo_left_client : uuid := uuid_lit 7.
Definition demo_other : uuid := uuid_lit 9.
Definition demo_events : list merge_event :=
  let c := demo_left_client in
  [MData RightSide c; MEof LeftSide demo_other 0; MEof RightSide c 2; MData LeftSide c; MEof LeftSide c 1;
   MData LeftSide demo_other; MData RightSide c].

Lemma merge_emits_once_witness :
  filter (λ a, act_client a = demo_left_client)
    (run_steps merge_step (mec_init, rc_init 0 [1]) demo_events).2 = [Emit demo_left_client].
Proof.
  refine (proj1 (merge_emits_once 0 [1] demo_left_client 1 2 demo_events _)).
  change (filter _ _) with (let c := demo_left_client in
    [MData RightSide c; MEof RightSide c 2; MData LeftSide c; MEof LeftSide c 1; MData RightSide c]).
  change (merge_input _ _ _) with (let c := demo_left_client in
    [MEof LeftSide c 1; MEof RightSide c 2; MData LeftSide c; MData RightSide c; MData RightSide c]).
  cbv zeta. solve_Permutation.
Defined.
