(* ===== verification/Joins.v ===== *)
(** * Join functions: [join/join_fns]

    What each use case does with the messages that reach the join node, and the
    text of its response. UC1 and UC3 write a row per transaction to a spill and
    stream it back in chunks; UC2, UC4 and UC5 keep their results in memory. The
    number of lines of a chunk is an argument of the streaming definitions. *)

From S2P Require Import Prelude.
From S2P Require Import PyDict.
From S2P Require Import PyValues.
From S2P Require Import PyText.
From S2P Require Import PyTime.
From S2P Require Import PyFloat.
From S2P Require Import PyRepr.
From S2P Require Import Wire.
From S2P Require Import Messages.
From S2P Require Import Checkpoint.
From S2P Require Import Spill.
From S2P Require Import Aggregates.

(** A newline *)
Definition nl : string := str_of [c_newline].

(** ** [JoinFn] *)

Record JoinFn (F : Type) := {
  join : F → Body → res F;
  get_responses : F → uuid → res (F * list Body);
  join_discard : F → uuid → F
}.
Arguments join {F}. Arguments get_responses {F}. Arguments join_discard {F}.

(** [Response(client_id, body)], [Response(client_id, body, last)] *)
Definition response (c : uuid) (body : string) (last : bool) : Body := Response c body last 0.

(** The default [get_responses] wraps the single response. *)
Definition one_response {F} (get_response : F → uuid → F * Body) (st : F) (c : uuid) : res (F * list Body) :=
  let '(st, r) := get_response st c in Ok (st, [r]).

(** ** [Spill]: what the join functions ask of a spill *)

Class LineStore (St : Type) := {
  store_append : St → uuid → chars → St;
  store_iter_chunks : St → uuid → Z → St * list chars;
  store_clear : St → uuid → St
}.

(** *** [LineSpill]: temporary files

    The name [tempfile.mkstemp] gives to the file of a new client is an argument. *)

Record LineSpill := mkLS {
  ls_handles : pydict uuid chars;
  ls_paths : pydict uuid string;
  ls_files : pydict string chars
}.

Section line_spill.
Context (mkstemp : LineSpill → uuid → string).
Implicit Types (s : LineSpill) (c : uuid).

Definition ls_open s c : LineSpill :=
  match dget (ls_handles s) c with
  | Some _ => s
  | None =>
      let path := mkstemp s c in
      mkLS (dset (ls_handles s) c []) (dset (ls_paths s) c path) (dset (ls_files s) path [])
  end.

Definition ls_append s c (line : chars) : LineSpill :=
  let s := ls_open s c in
  mkLS (dset (ls_handles s) c (dget_or [] (ls_handles s) c ++ line)) (ls_paths s) (ls_files s).

(** [handle.flush()], the handle kept *)
Definition ls_flush s c : LineSpill :=
  match dget (ls_handles s) c, dget (ls_paths s) c with
  | Some pending, Some path =>
      mkLS (dset (ls_handles s) c []) (ls_paths s) (write_file (ls_files s) path pending)
  | _, _ => s
  end.

(** Both entries popped and the handle closed. *)
Definition ls_close s c : LineSpill :=
  let s := ls_flush s c in mkLS (ddel (ls_handles s) c) (ddel (ls_paths s) c) (ls_files s).

Definition ls_unlink s (path : string) : LineSpill :=
  mkLS (ls_handles s) (ls_paths s) (ddel (ls_files s) path).

Definition ls_clear s c : LineSpill :=
  match dget (ls_paths s) c with
  | Some path => ls_unlink (ls_close s c) path
  | None => ls_close s c
  end.

Definition ls_lines s path : list chars := file_lines (dget_or [] (ls_files s) path).

Definition ls_read_and_clear s c : LineSpill * chars :=
  match dget (ls_handles s) c, dget (ls_paths s) c with
  | Some _, Some path =>
      let s := ls_close s c in (ls_unlink s path, universal_newlines (dget_or [] (ls_files s) path))
  | _, _ => (ls_close s c, [])
  end.

Definition ls_iter_chunks s c (batch_lines : Z) : LineSpill * list chars :=
  match dget (ls_handles s) c, dget (ls_paths s) c with
  | Some _, Some path => let s := ls_flush s c in (s, batch_loop batch_lines [] (ls_lines s path))
  | _, _ => (s, [])
  end.

Definition ls_iter_chunks_and_clear s c (batch_lines : Z) : LineSpill * list chars :=
  match dget (ls_handles s) c, dget (ls_paths s) c with
  | Some _, Some path =>
      let s := ls_close s c in (ls_unlink s path, batch_loop batch_lines [] (ls_lines s path))
  | _, _ => (ls_close s c, [])
  end.

Definition LineSpill_store : LineStore LineSpill := {|
  store_append := ls_append;
  store_iter_chunks := ls_iter_chunks;
  store_clear := ls_clear
|}.
End line_spill.

Definition PersistentSpill_store (tag : string) : LineStore PersistentSpill := {|
  store_append := ps_append tag;
  store_iter_chunks := ps_iter_chunks tag;
  store_clear := ps_clear tag
|}.

(** ** [stream_responses] *)

Definition BATCH_LINES : Z := 200000.

(** One chunk is held back, so that the last one can be told. *)
Fixpoint stream_chunks (c : uuid) (prev : string) (chunks : list chars) : list Body :=
  match chunks with
  | [] => [response c (prev +:+ nl) true]
  | nxt :: chunks => response c prev false :: stream_chunks c (str_of nxt) chunks
  end.

Definition stream_responses {St} `{!LineStore St} (s : St) (c : uuid) (header : string) (batch_lines : Z) : St * list Body :=
  let '(s, chunks) := store_iter_chunks s c batch_lines in
  (s, match chunks with
      | [] => [response c (header +:+ nl) true]
      | prev :: chunks => stream_chunks c (header +:+ str_of prev) chunks
      end).

(** ** UC1 and UC3: one row per transaction *)

Definition uc1_row (t : Transaction) : string :=
  let origin := from_bank t +:+ "-" +:+ from_account t in
  let destination := to_bank t +:+ "-" +:+ to_account t in
  nl +:+ "origin: " +:+ pad_right 20 origin +:+ " destination: " +:+ pad_right 20 destination +:+
  " amount: " +:+ float_repr (amount_paid t).

Definition uc3_row (t : Transaction) : string :=
  nl +:+ "bank_id: " +:+ pad_right 20 (from_bank t) +:+ " account: " +:+ pad_right 20 (from_account t) +:+
  " payment_format: " +:+ pad_right 20 (payment_format t) +:+ " amount: " +:+ float_repr (amount_paid t).

Section rows.
Context {St : Type} `{!LineStore St} (row : Transaction → string) (header : string) (batch_lines : Z).

Definition rows_join (s : St) (el : Body) : res St :=
  match el with
  | Transactions c l | MergedTransactions c l _ =>
      Ok (foldl (λ s t, store_append s c (chars_of (row t))) s l)
  | _ => Exc AttributeError
  end.

Definition RowsJoin : JoinFn St := {|
  join := rows_join;
  get_responses s c := Ok (stream_responses s c header batch_lines);
  join_discard := store_clear
|}.
End rows.

Definition UC1Join {St} `{!LineStore St} : JoinFn St := RowsJoin uc1_row "--- UC1 ---" BATCH_LINES.
Definition UC3Join {St} `{!LineStore St} : JoinFn St := RowsJoin uc3_row "--- UC3 ---" BATCH_LINES.

(** [snapshot_state], [restore_state], [clear_stale_spill] of both: those of the
    spill, under a key that may be missing from a snapshot. *)
Definition rows_snapshot_state (tag : string) (s : PersistentSpill)
    : PersistentSpill * res (option (pydict string Z)) :=
  let '(s, r) := ps_snapshot_state tag s in (s, Some <$> r).
Definition rows_restore_state (tag : string) (s : PersistentSpill) (sn : option (pydict string Z))
    : res PersistentSpill := ps_restore_state tag s (default [] sn).
Definition rows_clear_stale_spill (tag : string) (s : PersistentSpill) : PersistentSpill := ps_clear_all tag s.

(** ** UC2: the banks, their maximum and their name *)

Definition merged_row : Type := string * string * float * string.

Definition uc2_row (e : merged_row) : string :=
  let '(bank_id, account, max_amount, bank_name) := e in
  nl +:+ "bank_id: " +:+ pad_right 20 bank_id +:+ " account: " +:+ pad_right 20 account +:+
  " bank_name: " +:+ pad_right 30 bank_name +:+ " amount: " +:+ float_repr max_amount.

(** [body += ..] in a loop *)
Definition text_body {A} (header : string) (row : A → string) (l : list A) : string :=
  foldl (λ body e, body +:+ row e) header l.

Definition uc2_join (st : pydict uuid (list merged_row)) (el : Body) : res (pydict uuid (list merged_row)) :=
  match el with
  | MergedBankData c entries =>
      let st := dsetdefault st c [] in Ok (dset st c (dget_or [] st c ++ entries))
  | _ => Exc AttributeError
  end.

Definition uc2_get_response (st : pydict uuid (list merged_row)) (c : uuid) : pydict uuid (list merged_row) * Body :=
  (ddel st c, response c (text_body "--- UC2 ---" uc2_row (dget_or [] st c) +:+ nl) true).

Definition UC2Join : JoinFn (pydict uuid (list merged_row)) := {|
  join := uc2_join;
  get_responses := one_response uc2_get_response;
  join_discard := ddel
|}.

(** ** UC4: the accounts of the frequent paths *)

Definition uc4_join (st : pydict uuid (pydict Path Z)) (el : Body) : res (pydict uuid (pydict Path Z)) :=
  match el with
  | PathCounts c counts =>
      let st := dsetdefault st c [] in Ok (dset st c (dupdate (dget_or [] st c) counts))
  | _ => Exc AttributeError
  end.

#[export] Instance account_key : PyKey (string * string) := structural_key (string * string).

Definition path_accounts (paths : list Path) : pyset (string * string) :=
  foldl (λ accounts p,
    let accounts := sadd accounts (node_bank (path_origin p), node_account (path_origin p)) in
    sadd accounts (node_bank (path_destination p), node_account (path_destination p))) [] paths.

Definition uc4_row (e : string * string) : string :=
  nl +:+ "bank: " +:+ pad_right 20 e.1 +:+ " account: " +:+ e.2.

Definition uc4_get_response (st : pydict uuid (pydict Path Z)) (c : uuid) : pydict uuid (pydict Path Z) * Body :=
  (ddel st c, response c (text_body "--- UC4 ---" uc4_row (path_accounts (dkeys (dget_or [] st c))) +:+ nl) true).

Definition UC4Join : JoinFn (pydict uuid (pydict Path Z)) := {|
  join := uc4_join;
  get_responses := one_response uc4_get_response;
  join_discard := ddel
|}.

(** ** UC5: the number of transactions *)

Definition uc5_join (st : pydict uuid Z) (el : Body) : res (pydict uuid Z) :=
  match el with
  | TransactionCount c count =>
      let st := dsetdefault st c 0 in Ok (dset st c (dget_or 0 st c + count))
  | _ => Exc AttributeError
  end.

Definition uc5_get_response (st : pydict uuid Z) (c : uuid) : pydict uuid Z * Body :=
  (ddel st c, response c ("--- UC5 ---" +:+ nl +:+ "count: " +:+ str_int (dget_or 0 st c) +:+ nl) true).

Definition UC5Join : JoinFn (pydict uuid Z) := {|
  join := uc5_join;
  get_responses := one_response uc5_get_response;
  join_discard := ddel
|}.

(** ** Snapshots of the states in memory: a serialized message per client *)

Section message_states.
Context `{MP : MsgPack} {V : Type} (mk : uuid → V → Body) (un : Body → res V) (t : MessageType).

Definition messages_out (st : pydict uuid V) : res (pydict string bytes) :=
  l ← mapR (λ e, raw ← serialize (new_msg (mk e.1 e.2)); Ok (uuid_str e.1, raw)) st; Ok (dict_of l).

Definition messages_in (sn : pydict string bytes) : res (pydict uuid V) :=
  l ← mapR (λ e, c ← uuid_of_str e.1; m ← deserialize t e.2; v ← un (body_ m); Ok (c, v)) sn; Ok (dict_of l).
End message_states.

Definition un_merged (b : Body) : res (list merged_row) :=
  match b with MergedBankData _ l => Ok l | _ => Exc AttributeError end.
Definition un_paths (b : Body) : res (pydict Path Z) :=
  match b with PathCounts _ d => Ok d | _ => Exc AttributeError end.
Definition un_count (b : Body) : res Z :=
  match b with TransactionCount _ n => Ok n | _ => Exc AttributeError end.

Section message_snapshots.
Context `{MP : MsgPack}.
Definition uc2_snapshot_state := messages_out MergedBankData.
Definition uc2_restore_state := messages_in un_merged T_MERGED_BANK_DATA.
Definition uc4_snapshot_state := messages_out PathCounts.
Definition uc4_restore_state := messages_in un_paths T_PATH_COUNTS.
Definition uc5_snapshot_state := messages_out TransactionCount.
Definition uc5_restore_state := messages_in un_count T_COUNT.
End message_snapshots.

(** ** [DummyJoin]: the Python text of the attributes *)

(** [repr] of a text in ASCII: single quotes unless only double ones are free. *)
Definition repr_char (quote c : char) : chars :=
  if bool_decide (c = c_backslash) || bool_decide (c = quote) then [c_backslash; c]
  else if bool_decide (c = c_newline) then [c_backslash; chr 110]
  else if bool_decide (c = chr 13) then [c_backslash; chr 114]
  else if bool_decide (c = chr 9) then [c_backslash; chr 116]
  else
    let n := Z.of_nat (Ascii.nat_of_ascii c) in
    if (n <? 32) || (n =? 127) then c_backslash :: chr 120 :: hex_split 2 n else [c].

Definition repr_str (s : string) : string :=
  let l := chars_of s in
  let quote := if bool_decide (chr 39 ∈ l) && negb (bool_decide (c_quote ∈ l)) then c_quote else chr 39 in
  str_of (quote :: List.concat (repr_char quote <$> l) ++ [quote]).

(** [sep.join(l)] *)
Fixpoint join_with (sep : string) (l : list string) : string :=
  match l with
  | [] => ""
  | [x] => x
  | x :: l => x +:+ sep +:+ join_with sep l
  end.

Definition repr_datetime (d : datetime) : string :=
  "datetime.datetime(" +:+ join_with ", " (str_int <$>
    [year d; month d; day d; hour d; minute d] ++ (if second d =? 0 then [] else [second d])) +:+ ")".

Definition repr_timestamp (t : Timestamp) : string :=
  match t with TsDate d => repr_datetime d | TsText s => repr_str s end.

(** [t.__dict__] *)
Definition repr_transaction (t : Transaction) : string :=
  "{" +:+ join_with ", " ((λ kv, repr_str kv.1 +:+ ": " +:+ kv.2) <$>
    [("timestamp"%string, repr_timestamp (timestamp t));
     ("from_bank", repr_str (from_bank t)); ("from_account", repr_str (from_account t));
     ("to_bank", repr_str (to_bank t)); ("to_account", repr_str (to_account t));
     ("amount_received", float_repr (amount_received t));
     ("receiving_currency", repr_str (receiving_currency t));
     ("amount_paid", float_repr (amount_paid t)); ("payment_currency", repr_str (payment_currency t));
     ("payment_format", repr_str (payment_format t))]%string) +:+ "}".

Definition dummy_join (st : pydict uuid (list Transaction)) (el : Body) : res (pydict uuid (list Transaction)) :=
  match el with
  | Transactions c l | MergedTransactions c l _ =>
      let st := dsetdefault st c [] in Ok (dset st c (dget_or [] st c ++ l))
  | _ => Exc AttributeError
  end.

Definition dummy_get_response (st : pydict uuid (list Transaction)) (c : uuid)
    : pydict uuid (list Transaction) * Body :=
  let st := dsetdefault st c [] in
  (st, response c ("[" +:+ join_with ", " (repr_transaction <$> dget_or [] st c) +:+ "]") true).

Definition DummyJoin : JoinFn (pydict uuid (list Transaction)) := {|
  join := dummy_join;
  get_responses := one_response dummy_get_response;
  join_discard := ddel
|}.

Example dummy_response_ex :
  repr_transaction (mkTx (TsDate (mkDT 2022 9 1 0 20 0)) "10" "80'0" "10" "8001" (f_of_dec 5 (-1)) "Euro"
    (f_of_dec 12 0) "Euro" "Wire") = str_of (chars_of
  "{'timestamp': datetime.datetime(2022, 9, 1, 0, 20), 'from_bank': '10', 'from_account': Q80'0Q, 'to_bank': '10', 'to_account': '8001', 'amount_received': 0.5, 'receiving_currency': 'Euro', 'amount_paid': 12.0, 'payment_currency': 'Euro', 'payment_format': 'Wire'}"
    ≫= λ c, [if bool_decide (c = chr 81) then c_quote else c]).
Proof. by vm_compute. Qed.
