(* ===== verification/JoinProps.v ===== *)
(** * The responses of the join functions

    UC1 and UC3 stream every row they were given, in order and in bounded responses;
    UC2, UC4 and UC5 answer with what is in memory. *)

From S2P Require Import Prelude.
From S2P Require Import PyDict.
From S2P Require Import PyValues.
From S2P Require Import PyText.
From S2P Require Import PyTime.
From S2P Require Import PyFloat.
From S2P Require Import PyRepr.
From S2P Require Import Wire.
From S2P Require Import Messages.
From S2P Require Import Checkpoint.
From S2P Require Import Spill.
From S2P Require Import SpillLog.
From S2P Require Import Joins.

(** ** Reading back a text in batches of lines *)

Lemma batch_loop_concat n lines batch :
  List.concat (batch_loop n batch lines) = List.concat batch ++ List.concat lines.
Proof.
  revert batch. induction lines as [|x lines IH]; intros batch; cbn.
  - destruct batch; [done|]. cbn. by rewrite !app_nil_r.
  - destruct (n <=? _); cbn; rewrite IH, List.concat_app; cbn; by rewrite ?app_nil_r, <- ?app_assoc.
Qed.

(** How many newlines a text has. *)
Definition newlines (l : chars) : nat := length (filter (λ c, c = c_newline) l).
Arguments newlines : simpl never.

Lemma newlines_app l1 l2 : newlines (l1 ++ l2) = (newlines l1 + newlines l2)%nat.
Proof. unfold newlines. by rewrite filter_app, length_app. Qed.

Lemma newlines_concat ls : Forall (λ l, (newlines l ≤ 1)%nat) ls → (newlines (List.concat ls) ≤ length ls)%nat.
Proof. induction 1; cbn [List.concat length]; [vm_compute; lia|]. rewrite newlines_app. lia. Qed.

Lemma lines_of_newlines l : Forall (λ w, (newlines w ≤ 1)%nat) (lines_of l).
Proof.
  induction l as [|c l IH]; [done|]. cbn. case_bool_decide as Hc; [constructor; [rewrite Hc; vm_compute; lia|done]|].
  assert (Hn : ∀ w, newlines (c :: w) = newlines w) by (intros w; unfold newlines; by rewrite filter_cons_False).
  destruct (lines_of l) as [|w ws]; [constructor; [rewrite Hn; vm_compute; lia|done]|].
  inversion_clear IH. constructor; [by rewrite Hn|done].
Qed.

Lemma batch_loop_bound n lines batch :
  1 ≤ n → Z.of_nat (length batch) < n →
  Forall (λ w, (newlines w ≤ 1)%nat) batch → Forall (λ w, (newlines w ≤ 1)%nat) lines →
  Forall (λ b, Z.of_nat (newlines b) ≤ n) (batch_loop n batch lines).
Proof.
  intros Hn Hb Hbs Hls. revert batch Hb Hbs. induction Hls as [|x lines Hx Hls IH]; intros batch Hb Hbs; cbn.
  - destruct batch as [|b batch]; [done|]. constructor; [|done].
    apply newlines_concat in Hbs. lia.
  - assert (Hbx : Forall (λ w, (newlines w ≤ 1)%nat) (batch ++ [x]))
      by (apply Forall_app; split; [done|by constructor]).
    destruct (n <=? Z.of_nat (length (batch ++ [x]))) eqn:E.
    + constructor; [|apply IH; [cbn; lia|constructor]].
      apply newlines_concat in Hbx. rewrite length_app in *. cbn in *. lia.
    + apply IH; [|done]. by apply Z.leb_gt in E.
Qed.

(** ** The stream of responses *)

Definition response_body (b : Body) : string := match b with Response _ body _ _ => body | _ => "" end.
Definition is_last (b : Body) : bool := match b with Response _ _ last _ => last | _ => false end.

(** The parts of a text, the last one marked. *)
Definition streams (c : uuid) (n : Z) (text : chars) (rs : list Body) : Prop :=
  List.concat ((λ b, chars_of (response_body b)) <$> rs) = text ∧
  (∃ front r, rs = front ++ [r] ∧ is_last r = true ∧ Forall (λ b, is_last b = false) front) ∧
  Forall (λ b, b = Response c (response_body b) (is_last b) 0 ∧
               Z.of_nat (newlines (chars_of (response_body b))) ≤ n + 1) rs.

Lemma newlines_nl : newlines (chars_of nl) = 1%nat.
Proof. done. Qed.

Lemma stream_chunks_spec c n prev chunks :
  Z.of_nat (newlines (chars_of prev)) ≤ n → Forall (λ b, Z.of_nat (newlines b) ≤ n) chunks →
  streams c n (chars_of prev ++ List.concat chunks ++ [c_newline]) (stream_chunks c prev chunks).
Proof.
  intros Hp Hc. revert prev Hp. induction Hc as [|x chunks Hx Hc IH]; intros prev Hp.
  - split_and!.
    + cbn. by rewrite chars_of_app, app_nil_r.
    + by eexists [], _.
    + constructor; [|done]. split; [done|].
      change (response_body _) with (prev +:+ nl). rewrite chars_of_app, newlines_app, newlines_nl. lia.
  - rewrite <- (chars_of_str x) in Hx. destruct (IH (str_of x) Hx) as (H1 & (front & r & H2 & H3 & H4) & H5).
    rewrite chars_of_str in H1. cbn [stream_chunks]. split_and!.
    + cbn. by rewrite H1, <- app_assoc.
    + rewrite H2. eexists (_ :: front), r. split_and!; [done..|]. by constructor.
    + constructor; [|done]. split; [done|].
      change (response_body _) with prev. lia.
Qed.

(** ** The rows of a client in its spill *)

(** What reaches the join function between two restarts. *)
Inductive row_op := OJoin (el : Body) | OCheckpoint.

(** The client's transactions in a message. *)
Definition txs_for (c : uuid) (o : row_op) : list Transaction :=
  match o with
  | OJoin (Transactions c' l) | OJoin (MergedTransactions c' l _) => if decide (c' = c) then l else []
  | _ => []
  end.

Definition joinable (o : row_op) : Prop :=
  match o with OJoin (Transactions _ _) | OJoin (MergedTransactions _ _ _) | OCheckpoint => True | _ => False end.

Section row_log.
Context (tag : string) (row : Transaction → string) (header : string) (n : Z).
Implicit Types (s : PersistentSpill) (c : uuid).

Abbreviation fn := (@RowsJoin PersistentSpill (PersistentSpill_store tag) row header n).

Definition rows_text (l : list Transaction) : chars := List.concat ((λ t, chars_of (row t)) <$> l).

Fixpoint rows_run s (ops : list row_op) : res PersistentSpill :=
  match ops with
  | [] => Ok s
  | OJoin el :: ops => s ← join fn s el; rows_run s ops
  | OCheckpoint :: ops => rows_run (rows_snapshot_state tag s).1 ops
  end.

Definition row_log s (W : uuid → chars) : Prop :=
  spill_wf (ps_path tag) s ∧ ∀ c, content (ps_path tag) s c = W c.

Lemma rows_text_app l1 l2 : rows_text (l1 ++ l2) = rows_text l1 ++ rows_text l2.
Proof. unfold rows_text. by rewrite fmap_app, List.concat_app. Qed.

Lemma row_log_append s W c l :
  row_log s W →
  row_log (foldl (λ s t, ps_append tag s c (chars_of (row t))) s l)
    (λ c', W c' ++ rows_text (if decide (c = c') then l else [])).
Proof.
  revert s W. induction l as [|t l IH]; intros s W [Hwf HW].
  - split; [done|]. intros c'. rewrite HW. destruct (decide _); by rewrite app_nil_r.
  - assert (Hl : row_log (ps_append tag s c (chars_of (row t)))
                   (λ c', W c' ++ if decide (c = c') then chars_of (row t) else [])).
    { split; [by apply append_wf, Hwf; apply ps_path_inj|]. intros c'.
      unfold ps_append. rewrite (append_content _ (ps_path_inj tag)), HW by done.
      by destruct (decide (pyeq c c')) as [E|E], (decide (c = c')) as [E'|E']. }
    apply IH in Hl. destruct Hl as [H1 H2]. split; [done|]. intros c'. cbn [foldl]. rewrite H2.
    destruct (decide (c = c')); [by rewrite <- app_assoc|by rewrite !app_nil_r].
Qed.

Lemma row_log_run ops s W :
  Forall joinable ops → row_log s W →
  ∃ s', rows_run s ops = Ok s' ∧ row_log s' (λ c, W c ++ rows_text (ops ≫= txs_for c)).
Proof.
  intros Hops. revert s W. induction Hops as [|o ops Ho Hops IH]; intros s W Hs.
  { exists s. split; [done|]. destruct Hs as [H1 H2]. split; [done|]. intros c. rewrite H2. cbn. by rewrite app_nil_r. }
  assert (∃ s1, rows_run s (o :: ops) = rows_run s1 ops ∧ row_log s1 (λ c, W c ++ rows_text (txs_for c o)))
    as (s1 & E & Hs1).
  { destruct o as [[]|]; try done; try (eexists; split; [reflexivity|by apply row_log_append]).
    eexists. split; [reflexivity|]. destruct Hs as [Hwf HW].
    destruct (flush_all_spec (ps_path tag) (ps_path_inj tag) (dkeys (handles s)) s Hwf) as (H1 & H2 & _).
    split; [exact H1|]. intros c. cbn [txs_for]. rewrite app_nil_r, <- HW. apply H2. }
  destruct (IH s1 _ Hs1) as (s' & E' & Hwf' & HW'). exists s'. rewrite E. split; [done|]. split; [done|].
  intros c. rewrite HW'. cbn [mbind list_bind]. by rewrite rows_text_app, app_assoc.
Qed.
End row_log.

(** UC1 and UC3 answer with every row once, in order: for any interleaving of the
    messages of any clients and of checkpoints, the responses of a client put end
    to end are the header, the row of each of its transactions in the order they
    came, and a newline; the last response, and only that one, is marked; and no
    response holds more than a batch of lines. *)
Theorem rows_streamed (tag : string) (row : Transaction → string) (header : string) (n : Z)
    (ops : list row_op) (c : uuid) :
  1 ≤ n → newlines (chars_of header) = 0%nat → Forall joinable ops →
  (∀ t, t ∈ ops ≫= txs_for c → chr 13 ∉ chars_of (row t)) →
  let fn := @RowsJoin PersistentSpill (PersistentSpill_store tag) row header n in
  ∃ s s' rs,
    rows_run tag row header n (spill_init []) ops = Ok s ∧ get_responses fn s c = Ok (s', rs) ∧
    streams c n (chars_of header ++ rows_text row (ops ≫= txs_for c) ++ [c_newline]) rs.
Proof.
  intros Hn Hh Hops Hcr. cbv zeta.
  destruct (row_log_run tag row header n ops (spill_init []) (λ _, []) Hops) as (s & E & Hwf & Hs).
  { split; [|done]. split; [apply nil_wf|by intros k H; destruct H]. }
  specialize (Hs c). cbn [app] in Hs.
  pose proof (iter_lines_content tag s c Hwf) as Hl. rewrite Hs in Hl.
  set (text := rows_text row (ops ≫= txs_for c)) in *.
  assert (Ht : chr 13 ∉ text).
  { unfold text, rows_text. rewrite elem_concat. intros (l & (t & -> & Hin)%list_elem_of_fmap & H). by apply (Hcr t). }
  destruct (ps_iter_lines tag s c) as [s' lines] eqn:Ei. cbn [snd] in Hl.
  set (chunks := batch_loop n [] lines).
  assert (Hc : List.concat chunks = text).
  { unfold chunks. rewrite batch_loop_concat, Hl. by apply concat_file_lines. }
  assert (Hb : Forall (λ b, Z.of_nat (newlines b) ≤ n) chunks).
  { apply batch_loop_bound; [done|cbn; lia|constructor|]. rewrite Hl. apply lines_of_newlines. }
  eexists s, s', _. split; [done|]. split.
  - unfold RowsJoin, get_responses, stream_responses, store_iter_chunks, PersistentSpill_store, ps_iter_chunks.
    rewrite Ei. reflexivity.
  - fold chunks. rewrite <- Hc. destruct Hb as [|x chunks' Hx Hb].
    + apply (stream_chunks_spec c n header []); [lia|constructor].
    + cbn [List.concat]. rewrite <- app_assoc. rewrite (app_assoc (chars_of header)).
      rewrite <- (chars_of_str x) at 1. rewrite <- chars_of_app. apply stream_chunks_spec; [|done].
      rewrite chars_of_app, chars_of_str, newlines_app, Hh. lia.
Qed.

(** ** The joins in memory *)

Fixpoint join_run {F} (fn : JoinFn F) (st : F) (els : list Body) : res F :=
  match els with
  | [] => Ok st
  | el :: els => st ← join fn st el; join_run fn st els
  end.

(** What a message of the expected type brings to a client. *)
Definition entries_for (c : uuid) (el : Body) : list merged_row :=
  match el with MergedBankData c' l => if decide (c' = c) then l else [] | _ => [] end.
Definition paths_for (c : uuid) (el : Body) : list (Path * Z) :=
  match el with PathCounts c' d => if decide (c' = c) then d else [] | _ => [] end.
Definition count_for (c : uuid) (el : Body) : Z :=
  match el with TransactionCount c' n => if decide (c' = c) then n else 0 | _ => 0 end.

Definition is_merged (el : Body) : Prop := match el with MergedBankData _ _ => True | _ => False end.
Definition is_paths (el : Body) : Prop := match el with PathCounts _ _ => True | _ => False end.
Definition is_count (el : Body) : Prop := match el with TransactionCount _ _ => True | _ => False end.

(** The shape the three functions share: each client's value takes in the message. *)
Lemma join_run_values {V M} (dflt : V) (step : V → M → V) (of_c : uuid → Body → M) (idle : M)
    (fn : JoinFn (pydict uuid V)) (good : Body → Prop) els st c :
  (∀ v, step v idle = v) →
  (∀ st el, good el → ∃ c0, (∀ c, of_c c el = if decide (c0 = c) then of_c c0 el else idle) ∧
     join fn st el = Ok (dset (dsetdefault st c0 dflt) c0 (step (dget_or dflt (dsetdefault st c0 dflt) c0) (of_c c0 el)))) →
  Forall good els →
  ∃ st', join_run fn st els = Ok st' ∧
    dget_or dflt st' c = foldl step (dget_or dflt st c) (of_c c <$> els).
Proof.
  intros Hidle Hjoin Hels. revert st. induction Hels as [|el els Hel Hels IH]; intros st; [by exists st|].
  destruct (Hjoin st el Hel) as (c0 & Hof & E). cbn [join_run]. rewrite E. cbn [mbind res_bind].
  edestruct IH as (st' & E' & H). exists st'. split; [exact E'|]. rewrite H. cbn [fmap list_fmap foldl]. f_equal.
  assert (Hd : ∀ c', dget_or dflt (dsetdefault st c0 dflt) c' = dget_or dflt st c').
  { intros c'. unfold dget_or. rewrite dget_dsetdefault. destruct (decide (pyeq c0 c')) as [Hp|]; [|done].
    rewrite <- (dget_pyeq st c0 c') by done. unfold dget_or. by destruct (dget st c0). }
  rewrite dget_or_dset, (Hof c), !Hd. destruct (decide (pyeq c0 c)) as [Hc|Hc].
  - assert (c0 = c) as -> by exact Hc. by rewrite decide_True.
  - rewrite decide_False; [by rewrite Hidle|]. intros ->. by apply Hc.
Qed.

Lemma uc2_run els st c : Forall is_merged els →
  ∃ st', join_run UC2Join st els = Ok st' ∧ dget_or [] st' c = dget_or [] st c ++ els ≫= entries_for c.
Proof.
  intros Hels. destruct (join_run_values [] (λ v l, v ++ l) entries_for [] UC2Join is_merged els st c) as (st' & E & H).
  - intros v. apply app_nil_r.
  - intros st0 [] Hel; try done. eexists. split; [|unfold entries_for at 1; cbn; by rewrite decide_True].
    intros c'. unfold entries_for. by destruct (decide (client_id = c')); [rewrite decide_True|].
  - done.
  - exists st'. split; [done|]. rewrite H. clear. generalize (dget_or [] st c). induction els as [|el els IH]; intros v; cbn.
    + by rewrite app_nil_r.
    + by rewrite IH, <- app_assoc.
Qed.

Lemma uc5_run els st c : Forall is_count els →
  ∃ st', join_run UC5Join st els = Ok st' ∧ dget_or 0 st' c = dget_or 0 st c + zsum (count_for c <$> els).
Proof.
  intros Hels. destruct (join_run_values 0 Z.add count_for 0 UC5Join is_count els st c) as (st' & E & H).
  - intros v. lia.
  - intros st0 [] Hel; try done. eexists. split; [|unfold count_for at 1; cbn; by rewrite decide_True].
    intros c'. unfold count_for. by destruct (decide (client_id = c')); [rewrite decide_True|].
  - done.
  - exists st'. split; [done|]. rewrite H. clear. unfold zsum. generalize (dget_or 0 st c).
    induction els as [|el els IH]; intros v; cbn; [lia|]. rewrite IH. cbn. lia.
Qed.

Lemma uc4_run els st c : Forall is_paths els →
  ∃ st', join_run UC4Join st els = Ok st' ∧ dget_or [] st' c = dupdate (dget_or [] st c) (els ≫= paths_for c).
Proof.
  intros Hels. destruct (join_run_values [] dupdate paths_for [] UC4Join is_paths els st c) as (st' & E & H).
  - done.
  - intros st0 [] Hel; try done. eexists. split; [|unfold paths_for at 1; cbn; by rewrite decide_True].
    intros c'. unfold paths_for. by destruct (decide (client_id = c')); [rewrite decide_True|].
  - done.
  - exists st'. split; [done|]. rewrite H. clear. generalize (dget_or [] st c).
    induction els as [|el els IH]; intros v; cbn [fmap list_fmap foldl mbind list_bind]; [done|].
    rewrite IH. unfold dupdate. by rewrite foldl_app.
Qed.

Lemma dkeys_dset_sub {K V} `{!PyKey K} (d : pydict K V) k v k' : k' ∈ dkeys (dset d k v) → k' ∈ dkeys d ∨ k' = k.
Proof.
  induction d as [|[k0 v0] d IH]; csimpl.
  - intros Hin. right. by apply list_elem_of_singleton in Hin.
  - case_decide; csimpl; [by left|]. intros [->|Hin]%elem_of_cons; [left; by left|].
    destruct (IH Hin); [left; by right|by right].
Qed.

Lemma dkeys_dupdate_sub {K V} `{!PyKey K} (d : pydict K V) e k :
  k ∈ dkeys (dupdate d e) → k ∈ dkeys d ∨ k ∈ e.*1.
Proof.
  revert d. induction e as [|[k0 v0] e IH]; intros d; [by left|].
  change (dupdate d ((k0, v0) :: e)) with (dupdate (dset d k0 v0) e).
  intros [Hin|Hin]%IH; [|right; by right]. apply dkeys_dset_sub in Hin as [Hin|Hin]; [by left|].
  right. rewrite Hin. by left.
Qed.

(** The keys of a dict built from a list, when equal keys are the same. *)
Lemma dkeys_dict_of {K V} `{!PyKey K} (l : list (K * V)) k :
  (∀ a b, a ∈ l.*1 → b ∈ l.*1 → pyeq a b → a = b) → k ∈ dkeys (dict_of l) ↔ k ∈ l.*1.
Proof.
  intros Hl. split.
  { intros [Hin|Hin]%dkeys_dupdate_sub; [by apply not_elem_of_nil in Hin|done]. }
  intros Hk. destruct (dget (dict_of l) k) as [v|] eqn:E.
  - apply dget_Some_elem in E as (k' & Hp & Hin).
    assert (Hk' : k' ∈ dkeys (dict_of l)) by (apply list_elem_of_fmap; by exists (k', v)).
    pose proof Hk' as [Hx|Hx]%dkeys_dupdate_sub; [by apply not_elem_of_nil in Hx|].
    by rewrite <- (Hl k' k).
  - exfalso. unfold dict_of in E. rewrite dget_dupdate in E. destruct (dget (reverse l) k) eqn:E1; [done|].
    apply dget_None in E1. apply E1. apply list_elem_of_fmap. exists k. split; [done|].
    apply list_elem_of_fmap in Hk as (x & -> & Hx). apply list_elem_of_fmap. exists x. split; [done|]. by apply elem_of_reverse.
Qed.

(** ** The accounts of the paths *)

Lemma smem_account (s : pyset (string * string)) x : smem x s = true ↔ x ∈ s.
Proof.
  rewrite smem_spec. cbn. split.
  - intros (y & E & Hy)%list_elem_of_fmap. unfold id in E. by subst.
  - intros Hx. apply list_elem_of_fmap. by exists x.
Qed.

Lemma path_accounts_spec ps x :
  x ∈ path_accounts ps ↔
    ∃ p, p ∈ ps ∧ (x = (node_bank (path_origin p), node_account (path_origin p))
                 ∨ x = (node_bank (path_destination p), node_account (path_destination p))).
Proof.
  unfold path_accounts. rewrite <- smem_account. induction ps as [|p ps IH] using rev_ind.
  { split; [done|]. intros (p & Hp & _). by apply not_elem_of_nil in Hp. }
  rewrite foldl_snoc, !smem_sadd, IH. setoid_rewrite elem_of_app. setoid_rewrite list_elem_of_singleton.
  split; [intros [[(q & Hq & H)|H]|H]; eauto|].
  intros (q & [Hq| ->] & H); [left; left; eauto|]. destruct H as [->| ->]; [left; by right|by right].
Qed.

Lemma path_accounts_NoDup ps : NoDup (path_accounts ps).
Proof.
  assert (H : set_wf (path_accounts ps)).
  { unfold path_accounts. apply foldl_invariant; [apply NoDup_nil_2|]. intros a p Ha _. by apply sadd_wf, sadd_wf. }
  unfold set_wf in H. cbn in H. by rewrite list_fmap_id in H.
Qed.

(** C24: UC2, UC4 and UC5 answer with all that arrived, whatever other clients'
    messages come in between: UC2 lists every merged entry in order; UC4 lists
    once each account at an end of a frequent path, and no other, where different
    paths have different keys; UC5 gives the sum of the counts. The response is one
    message, and the client's state is dropped with it. *)
Theorem memory_joins_exact (c : uuid) (els2 els4 els5 : list Body) :
  Forall is_merged els2 → Forall is_paths els4 → Forall is_count els5 →
  (∀ p q, p ∈ (els4 ≫= paths_for c).*1 → q ∈ (els4 ≫= paths_for c).*1 → path_key p = path_key q → p = q) →
  (∃ st, join_run UC2Join [] els2 = Ok st ∧
     get_responses UC2Join st c = Ok (ddel st c, [response c (text_body "--- UC2 ---" uc2_row (els2 ≫= entries_for c) +:+ nl) true])) ∧
  (∃ st accounts, join_run UC4Join [] els4 = Ok st ∧
     get_responses UC4Join st c = Ok (ddel st c, [response c (text_body "--- UC4 ---" uc4_row accounts +:+ nl) true]) ∧
     NoDup accounts ∧
     ∀ n, (node_bank n, node_account n) ∈ accounts ↔
          ∃ p, p ∈ (els4 ≫= paths_for c).*1 ∧ (n = path_origin p ∨ n = path_destination p)) ∧
  (∃ st, join_run UC5Join [] els5 = Ok st ∧
     get_responses UC5Join st c = Ok (ddel st c,
       [response c ("--- UC5 ---" +:+ nl +:+ "count: " +:+ str_int (zsum (count_for c <$> els5)) +:+ nl) true])).
Proof.
  intros H2 H4 H5 Hk. split_and!.
  - destruct (uc2_run els2 [] c H2) as (st & E & H). exists st. split; [done|].
    cbn [get_responses UC2Join]. unfold one_response, uc2_get_response. by rewrite H.
  - destruct (uc4_run els4 [] c H4) as (st & E & H). exists st, (path_accounts (dkeys (dget_or [] st c))).
    split_and!; [done|done|apply path_accounts_NoDup|]. intros n. rewrite path_accounts_spec, H.
    change (dupdate (dget_or [] [] c) (els4 ≫= paths_for c)) with (dict_of (els4 ≫= paths_for c)).
    setoid_rewrite dkeys_dict_of; [|exact Hk].
    assert (Hn : ∀ a b : Node, (node_bank a, node_account a) = (node_bank b, node_account b) ↔ a = b)
      by (intros [] []; cbn; naive_solver).
    by setoid_rewrite Hn.
  - destruct (uc5_run els5 [] c H5) as (st & E & H). exists st. split; [done|].
    cbn [get_responses UC5Join]. unfold one_response, uc5_get_response. by rewrite H.
Qed.

(** ** Concrete inputs *)

Definition demo_tx (a : string) : Transaction :=
  mkTx (TsDate (mkDT 2022 9 1 0 20 0)) "10" a "20" "B" (f_of_dec 5 (-1)) "Euro" (f_of_dec 12 0) "Euro" "Wire".
Definition demo_rows : list row_op :=
  [OJoin (Transactions (uuid_lit 7) [demo_tx "A"; demo_tx "B"]); OCheckpoint;
   OJoin (Transactions (uuid_lit 9) [demo_tx "X"]); OJoin (MergedTransactions (uuid_lit 7) [demo_tx "C"] [])].

Lemma rows_streamed_witness :
  let fn := @RowsJoin PersistentSpill (PersistentSpill_store "uc1_join") uc1_row "--- UC1 ---" 2 in
  ∃ s s' rs,
    rows_run "uc1_join" uc1_row "--- UC1 ---" 2 (spill_init []) demo_rows = Ok s ∧
    get_responses fn s (uuid_lit 7) = Ok (s', rs) ∧
    streams (uuid_lit 7) 2 (chars_of "--- UC1 ---" ++
      rows_text uc1_row [demo_tx "A"; demo_tx "B"; demo_tx "C"] ++ [c_newline]) rs.
Proof.
  apply (rows_streamed "uc1_join" uc1_row "--- UC1 ---" 2 demo_rows (uuid_lit 7)); [lia|done|by repeat constructor|].
  apply Forall_forall. change (demo_rows ≫= _) with [demo_tx "A"; demo_tx "B"; demo_tx "C"].
  apply (bool_decide_unpack _). vm_compute. exact I.
Defined.

Definition demo_path : Path := mkPath (mkNode "1" "A") (mkNode "2" "B").

Lemma memory_joins_exact_witness :
  ∃ st, join_run UC5Join [] [TransactionCount (uuid_lit 7) 2; TransactionCount (uuid_lit 9) 5;
                             TransactionCount (uuid_lit 7) 3] = Ok st ∧
    get_responses UC5Join st (uuid_lit 7) =
      Ok (ddel st (uuid_lit 7), [response (uuid_lit 7) ("--- UC5 ---" +:+ nl +:+ "count: 5" +:+ nl) true]).
Proof.
  refine (proj2 (proj2 (memory_joins_exact (uuid_lit 7)
    [MergedBankData (uuid_lit 7) [("1", "A", f_of_dec 5 0, "Bank")]%string] [PathCounts (uuid_lit 7) [(demo_path, 5)]]
    [TransactionCount (uuid_lit 7) 2; TransactionCount (uuid_lit 9) 5; TransactionCount (uuid_lit 7) 3] _ _ _ _)));
    [by repeat constructor..|].
  intros p q. change ((_ ≫= _).*1) with [demo_path]. by intros ->%list_elem_of_singleton ->%list_elem_of_singleton.
Defined.
