(* ===== verification/UC4System.v ===== *)
(** * UC4 from the transactions to the answer

    The network of UC4 as it is deployed ([scripts/gen_compose/src/gen_uc4.py]): the
    filter and the group-by, the two aggregates of the graph, the pruning merge, the
    counting and the adding up of paths, and the join; every stage a fleet. *)

From S2P Require Import Prelude.
From S2P Require Import PyDict.
From S2P Require Import PyValues.
From S2P Require Import PyText.
From S2P Require Import PyTime.
From S2P Require Import PyFloat.
From S2P Require Import Wire.
From S2P Require Import Messages.
From S2P Require Import Filters.
From S2P Require Import GroupBy.
From S2P Require Import Spill.
From S2P Require Import SpillLog.
From S2P Require Import UC4.
From S2P Require Import UC4Paths.
From S2P Require Import MergeFns.
From S2P Require Import UC4Prune.
From S2P Require Import ShardLog.
From S2P Require Import UC4Graphs.
From S2P Require Import UC4Degrees.
From S2P Require Import UC4Build.
From S2P Require Import Fleet.
From S2P Require Import UC4Stages.
From S2P Require Import Joins.
From S2P Require Import JoinProps.

(** ** The network *)

(** The sizes of the fleets, and the thresholds of the nodes. *)
Record Config := mkCfg {
  n_graphs : Z;
  n_degrees : Z;
  n_prunes : Z;
  n_counts : Z;
  n_paths : Z;
  aggregate_threshold : Z;
  count_threshold : Z;
  split_threshold : Z;
  prune_chunk : Z
}.

Definition deployed : Config :=
  mkCfg 2 2 2 2 2 AGGREGATE_THRESHOLD COUNT_PATHS_THRESHOLD SPLIT_THRESHOLD PRUNE_CHUNK_SIZE.

Definition cfg_ok (cf : Config) : Prop :=
  (0 < n_graphs cf ∧ 0 < n_degrees cf ∧ 0 < n_prunes cf ∧ 0 < n_counts cf ∧ 0 < n_paths cf) ∧
  0 < aggregate_threshold cf ∧ 0 < count_threshold cf ∧ 0 < split_threshold cf.

(** The route of UC4 of the default filter, then the group-by: a batch at a time. *)
Definition group_node `{PyHash} (c : uuid) (l : list Transaction) : res (list (Body * Z)) :=
  b ← FilterFn_filter UC4Filter_keep (Transactions c l); UC4ComputeGraph_group_by b.

(** The merge deals its messages out one after the other ([RingMerge._emit]). *)
Definition dealt (l : list Body) : list (Body * Z) := imap (λ i b, (b, Z.of_nat i)) l.

Section network.
Context `{PyHash} (cf : Config) (c : uuid) (U : Node → Prop).

(** The answer to a client who sent [batches]: whatever way the messages are spread
    over the batches, whatever order each instance takes its messages in, whenever
    the checkpoints come, and whatever other clients send in between. *)
Inductive uc4_answer (batches : list (list Transaction)) (responses : list Body) : Prop :=
  | uc4_answered built gevs graphs devs degrees pevs pruned cevs counts qevs paths els st st' :
      mapR (group_node c) batches = Ok built →
      fed (graph_mail c) (n_graphs cf) (List.concat built) gevs → (∀ es, es ∈ gevs → foreign c U es) →
      mapR (graphs_node (aggregate_threshold cf) c) gevs = Ok graphs →
      fed (graph_mail c) (n_degrees cf) (List.concat built) devs → (∀ es, es ∈ devs → foreign c U es) →
      mapR (degrees_node (aggregate_threshold cf) c) devs = Ok degrees →
      fed (right_mail c) (n_prunes cf) (List.concat graphs) pevs →
      (∀ es, es ∈ pevs → omap (left_mail c) es ≡ₚ (List.concat degrees).*1) →
      mapR (prune_node (split_threshold cf) c (prune_chunk cf)) pevs = Ok pruned →
      fed (graph_mail c) (n_counts cf) (List.concat (dealt <$> pruned)) cevs → (∀ es, es ∈ cevs → foreign c U es) →
      mapR (counts_node (count_threshold cf) c) cevs = Ok counts →
      fed (counts_mail c) (n_paths cf) (List.concat counts) qevs → (∀ es, es ∈ qevs → foreign_counts c U es) →
      mapR (paths_node (aggregate_threshold cf) c) qevs = Ok paths →
      Forall is_paths els → filter (λ b, body_client b = Some c) els ≡ₚ (List.concat paths).*1 →
      join_run UC4Join [] els = Ok st → get_responses UC4Join st c = Ok (st', responses) →
      uc4_answer batches responses.

(** The same run when nodes may raise: a stage in which one does is the end of it, and
    its exception the outcome. *)
Definition proceeds {A B} (x : res A) (next : A → res B → Prop) (r : res B) : Prop :=
  match x with Ok a => next a r | Exc e => r = Exc e end.

Definition uc4_outcome (batches : list (list Transaction)) : res (list Body) → Prop :=
  proceeds (mapR (group_node c) batches) (λ built r,
  ∃ gevs devs, (fed (graph_mail c) (n_graphs cf) (List.concat built) gevs ∧ ∀ es, es ∈ gevs → foreign c U es) ∧
    (fed (graph_mail c) (n_degrees cf) (List.concat built) devs ∧ ∀ es, es ∈ devs → foreign c U es) ∧
  proceeds (mapR (graphs_node (aggregate_threshold cf) c) gevs) (λ graphs,
  proceeds (mapR (degrees_node (aggregate_threshold cf) c) devs) (λ degrees r,
  ∃ pevs, (fed (right_mail c) (n_prunes cf) (List.concat graphs) pevs ∧ ∀ es, es ∈ pevs → omap (left_mail c) es ≡ₚ (List.concat degrees).*1) ∧
  proceeds (mapR (prune_node (split_threshold cf) c (prune_chunk cf)) pevs) (λ pruned r,
  ∃ cevs, (fed (graph_mail c) (n_counts cf) (List.concat (dealt <$> pruned)) cevs ∧ ∀ es, es ∈ cevs → foreign c U es) ∧
  proceeds (mapR (counts_node (count_threshold cf) c) cevs) (λ counts r,
  ∃ qevs, (fed (counts_mail c) (n_paths cf) (List.concat counts) qevs ∧ ∀ es, es ∈ qevs → foreign_counts c U es) ∧
  proceeds (mapR (paths_node (aggregate_threshold cf) c) qevs) (λ paths r,
  ∃ els, (Forall is_paths els ∧ filter (λ b, body_client b = Some c) els ≡ₚ (List.concat paths).*1) ∧
  proceeds (join_run UC4Join [] els) (λ st,
  proceeds (get_responses UC4Join st c) (λ sr r, r = Ok sr.2)) r) r) r) r)) r).

Lemma proceeds_Ok {A B} (x : res A) (next : A → res B → Prop) a r : x = Ok a → next a r → proceeds x next r.
Proof. by intros ->. Qed.

(** ** What the answer means *)

(** A transfer UC4 looks at: dollars, sent between 1 and 5 September 2022. *)
Definition moved (batches : list (list Transaction)) (a b : Node) : Prop :=
  ∃ l t, l ∈ batches ∧ t ∈ l ∧ selects 3 t ∧ origin_of t = a ∧ destination_of t = b.

(** Money scattered from one account and gathered at another: through five accounts
    at least. *)
Definition scatter_gather (batches : list (list Transaction)) (a b : Node) : Prop :=
  a ≠ b ∧ ∃ s, NoDup s ∧ 5 ≤ Z.of_nat (length s) ∧ ∀ m, m ∈ s → moved batches a m ∧ moved batches m b.

Context (batches : list (list Transaction)).
Hypothesis cf_ok : cfg_ok cf.
Hypothesis U_ok : nodes_ok U.
Hypothesis batches_ok : ∀ l t, l ∈ batches → t ∈ l → tx_wf t ∧ U (origin_of t) ∧ U (destination_of t).
Hypothesis batches_sized : split_threshold cf * Z.of_nat (length (List.concat batches)) < 2 ^ 53.

(** *** The graph *)

Lemma moved_nbrs (sel : list Transaction) a b : (∀ t, t ∈ sel ↔ ∃ l, l ∈ batches ∧ t ∈ l ∧ selects 3 t) →
  (nbrs (transfer_preds sel) b a ↔ moved batches a b) ∧ (nbrs (transfer_succs sel) a b ↔ moved batches a b).
Proof.
  intros Hsel. destruct (transfer_nbrs sel b a) as [H1 _], (transfer_nbrs sel a b) as [_ H2]. rewrite H1, H2.
  unfold moved. setoid_rewrite Hsel. split; naive_solver.
Qed.

Lemma group_stage : ∃ built sel, mapR (group_node c) batches = Ok built ∧
  (∀ t, t ∈ sel ↔ ∃ l, l ∈ batches ∧ t ∈ l ∧ selects 3 t) ∧ (length sel ≤ length (List.concat batches))%nat ∧
  graphs_by node_affinity c (List.concat built) ∧ (∀ e, e ∈ out_entries (List.concat built) → entry_U U e) ∧
  same_nb (preds_of (out_entries (List.concat built))) (transfer_preds sel) ∧
  same_nb (succs_of (out_entries (List.concat built))) (transfer_succs sel).
Proof.
  clear batches_sized. revert batches_ok. induction batches as [|l bs IH]; intros Hok.
  { exists [], []. split_and!; try done; [|by intros m ?%not_elem_of_nil|by intros e ?%not_elem_of_nil].
    intros t. split; [by intros ?%not_elem_of_nil|by intros (l & ?%not_elem_of_nil & _)]. }
  destruct IH as (built & sel & E & Hsel & Hlen & Hby & HU & Hp & Hs); [intros l' t Hl; apply Hok; by right|].
  destruct (FilterFn_filter_exact UC4Filter_keep (selects 3) c l) as (l1 & E1 & Hsub & Hl1).
  { intros t Ht. apply and_then_exact; [apply usd_exact|]. apply in_window_exact. by apply (Hok l t); [left|]. }
  destruct (graph_group_by_spec U (U_inj U U_ok) c l1) as (out & E2 & Hby1 & HU1 & Hp1 & Hs1).
  { intros t [Ht _]%Hl1. by apply (Hok l t); [left|]. }
  assert (Eg : group_node c l = Ok out).
  { unfold group_node. refine (eq_trans (f_equal (λ r, r ≫= UC4ComputeGraph_group_by) E1) _). exact E2. }
  exists (out :: built), (l1 ++ sel). destruct (transfers_app l1 sel) as [-> ->]. cbn [List.concat]. rewrite out_entries_app.
  unfold preds_of, succs_of in *. rewrite !fmap_app. split_and!.
  - cbn [mapR]. rewrite Eg. cbn [mbind res_bind]. by rewrite E.
  - intros t. rewrite elem_of_app, Hl1, Hsel. setoid_rewrite elem_of_cons. naive_solver.
  - rewrite !length_app. apply sublist_length in Hsub. lia.
  - intros m [Hm|Hm]%elem_of_app; [by apply Hby1|by apply Hby].
  - intros e [He|He]%elem_of_app; auto.
  - by rewrite Hp1, Hp.
  - by rewrite Hs1, Hs.
Qed.
(** *** Nodes in between *)

(** Entries that have the neighbours of the transfers, each node once. *)
Definition exact_entries (entries : list node_entry) : Prop :=
  NoDup entries.*1 ∧ (∀ e, e ∈ entries → entry_U U e) ∧
  ∀ a b, (nbrs (preds_of entries) b a ↔ moved batches a b) ∧ (nbrs (succs_of entries) a b ↔ moved batches a b).

Lemma entry_nbrs entries e a : exact_entries entries → e ∈ entries →
  (a ∈ e.2.1 ↔ moved batches a e.1) ∧ (a ∈ e.2.2 ↔ moved batches e.1 a).
Proof.
  intros (Hnd & _ & Hm) He.
  assert (Heq : ∀ e', e' ∈ entries → e'.1 = e.1 → e' = e).
  { intros e' He' E. apply list_elem_of_lookup in He as [i Hi], He' as [j Hj].
    assert (j = i) as ->; [|by rewrite Hi in Hj; injection Hj].
    apply (NoDup_lookup _ j i e.1 Hnd); rewrite list_lookup_fmap; [by rewrite Hj; cbn; rewrite E|by rewrite Hi]. }
  destruct (Hm a e.1) as [<- _], (Hm e.1 a) as [_ <-]. unfold nbrs, preds_of, succs_of. setoid_rewrite list_elem_of_fmap. split; split.
  - intros Ha. exists e.2.1. split; [by exists e|done].
  - intros (l & (e' & [= E ->] & He') & Ha). by rewrite (Heq e' He' (eq_sym E)) in Ha.
  - intros Ha. exists e.2.2. split; [by exists e|done].
  - intros (l & (e' & [= E ->] & He') & Ha). by rewrite (Heq e' He' (eq_sym E)) in Ha.
Qed.

Lemma entry_of_moved entries a b : exact_entries entries → moved batches a b → ∃ e, e ∈ entries ∧ e.1 = b.
Proof. intros (_ & _ & Hm) Hab. apply (proj1 (Hm a b)) in Hab as (l & (e & [= -> _] & He)%list_elem_of_fmap & _). by exists e. Qed.

Lemma zsum_links p (entries : list node_entry) : zsum (link p <$> entries) = Z.of_nat (length (filter (between p) entries)).
Proof.
  induction entries as [|e entries IH]; [done|]. rewrite fmap_cons, filter_cons. change (zsum (?x :: ?r)) with (x + zsum r).
  rewrite IH. unfold link. destruct (decide (between p e)); cbn [length]; lia.
Qed.

(** Five nodes between two ends or more: the money is scattered and gathered. *)
Lemma links_scatter p entries : exact_entries entries →
  MIN_PATH_COUNT ≤ zsum (link p <$> entries) ↔ scatter_gather batches (path_origin p) (path_destination p).
Proof.
  intros Hent. rewrite zsum_links. unfold MIN_PATH_COUNT, scatter_gather. set (es := filter (between p) entries).
  assert (Hes : ∀ e, e ∈ es ↔ e ∈ entries ∧ path_origin p ≠ path_destination p ∧
    moved batches (path_origin p) e.1 ∧ moved batches e.1 (path_destination p)).
  { intros e. unfold es. rewrite list_elem_of_filter. unfold between. split.
    - intros [(Hne & H1 & H2) He]. destruct (entry_nbrs entries e (path_origin p) Hent He) as [E1 _].
      destruct (entry_nbrs entries e (path_destination p) Hent He) as [_ E2]. split_and!; [done|done|by apply E1|by apply E2].
    - intros (He & Hne & H1 & H2). destruct (entry_nbrs entries e (path_origin p) Hent He) as [E1 _].
      destruct (entry_nbrs entries e (path_destination p) Hent He) as [_ E2]. split; [|done]. split_and!; [done|by apply E1|by apply E2]. }
  split.
  - intros Hl. assert (Hne : path_origin p ≠ path_destination p).
    { destruct es as [|e es']; [cbn in Hl; lia|]. apply (Hes e). left. }
    split; [done|]. exists es.*1. rewrite length_fmap. split_and!; [|done|].
    + eapply sublist_NoDup; [apply (proj1 Hent)|]. apply fmap_sublist, sublist_filter.
    + intros m (e & -> & He)%list_elem_of_fmap. by apply Hes in He as (_ & _ & ? & ?).
  - intros (Hne & s & Hnd & Hl & Hs). assert (Hsub : s ⊆ es.*1).
    { intros m Hm. destruct (Hs m Hm) as [H1 H2]. destruct (entry_of_moved entries _ _ Hent H1) as (e & He & <-).
      apply list_elem_of_fmap. exists e. split; [done|]. by apply Hes. }
    apply (NoDup_submseteq s) in Hsub; [|done]. apply submseteq_length in Hsub. rewrite length_fmap in Hsub. lia.
Qed.

(** The ends of such a path have high degree. *)
Lemma scatter_high (succs preds : list (Node * list Node)) a b : scatter_gather batches a b →
  (∀ x y, moved batches x y → nbrs succs x y) → (∀ x y, moved batches x y → nbrs preds y x) → many succs a ∧ many preds b.
Proof. intros (_ & s & Hnd & Hl & Hs) H1 H2. split; exists s; split_and!; try done; intros m Hm; destruct (Hs m Hm); auto. Qed.

Lemma moved_U a b : moved batches a b → U a ∧ U b.
Proof. intros (l & t & Hl & Ht & _ & <- & <-). by apply (batches_ok l t). Qed.

Lemma scatter_U a b : scatter_gather batches a b → U a ∧ U b.
Proof.
  intros (_ & s & _ & Hl & Hs). destruct s as [|m s]; [cbn in Hl; lia|]. destruct (Hs m) as [[Ha _]%moved_U [_ Hb]%moved_U]; [left|].
  by split.
Qed.

(** No node has more neighbours than there are transactions. *)
Lemma entries_sized sel entries e : exact_entries entries → (∀ t, t ∈ sel ↔ ∃ l, l ∈ batches ∧ t ∈ l ∧ selects 3 t) →
  (length sel ≤ length (List.concat batches))%nat → e ∈ entries → sized (split_threshold cf) e.
Proof.
  intros Hent Hsel Hlen He. destruct Hent as (Hnd & HU & Hm). destruct (HU e He) as (_ & _ & _ & HwP%U_NoDup & HwS%U_NoDup).
  assert (Hbound : ∀ (l : list Node) (end_of : Transaction → Node), NoDup l → (∀ n, n ∈ l → ∃ t, t ∈ sel ∧ end_of t = n) →
    split_threshold cf * Z.of_nat (length l) < 2 ^ 53).
  { intros l end_of Hl Hin. assert (Hsub : l ⊆ end_of <$> sel).
    { intros n (t & Ht & <-)%Hin. by apply list_elem_of_fmap_2. }
    apply (NoDup_submseteq l) in Hsub; [|done]. apply submseteq_length in Hsub. rewrite length_fmap in Hsub.
    destruct cf_ok as (_ & _ & _ & Hth). nia. }
  assert (Hsel' : ∀ a b, moved batches a b → ∃ t, t ∈ sel ∧ origin_of t = a ∧ destination_of t = b).
  { intros a b (l & t & Hl & Ht & Hs & <- & <-). exists t. split; [|done]. apply Hsel. by exists l. }
  split.
  - apply (Hbound _ origin_of HwP). intros n Hn. destruct (Hsel' n e.1) as (t & Ht & Ho & _); [|by exists t].
    by apply (entry_nbrs entries e n (conj Hnd (conj HU Hm)) He).
  - apply (Hbound _ destination_of HwS). intros n Hn. destruct (Hsel' e.1 n) as (t & Ht & _ & Hd); [|by exists t].
    by apply (entry_nbrs entries e n (conj Hnd (conj HU Hm)) He).
Qed.
(** *** Stage by stage *)

Record built_ok (out : list (Body * Z)) (sel : list Transaction) : Prop := {
  b_sel : ∀ t, t ∈ sel ↔ ∃ l, l ∈ batches ∧ t ∈ l ∧ selects 3 t;
  b_len : (length sel ≤ length (List.concat batches))%nat;
  b_by : graphs_by node_affinity c out;
  b_U : ∀ e, e ∈ out_entries out → entry_U U e;
  b_preds : same_nb (preds_of (out_entries out)) (transfer_preds sel);
  b_succs : same_nb (succs_of (out_entries out)) (transfer_succs sel)
}.

Lemma built_nbrs out sel a b : built_ok out sel →
  (nbrs (preds_of (out_entries out)) b a ↔ moved batches a b) ∧ (nbrs (succs_of (out_entries out)) a b ↔ moved batches a b).
Proof.
  intros Hb. destruct (moved_nbrs sel a b (b_sel _ _ Hb)) as [H1 H2]. split.
  - rewrite <- H1. apply (b_preds _ _ Hb).
  - rewrite <- H2. apply (b_succs _ _ Hb).
Qed.

Lemma graphs_fact out sel gevs : built_ok out sel → fed (graph_mail c) (n_graphs cf) out gevs → (∀ es, es ∈ gevs → foreign c U es) →
  ∃ graphs, mapR (graphs_node (aggregate_threshold cf) c) gevs = Ok graphs ∧ exact_entries (out_entries (List.concat graphs)) ∧
    (∀ e, e ∈ out_entries (List.concat graphs) → sized (split_threshold cf) e) ∧
    graphs_by (λ n, hash_node n mod AFFINITY_SHARDS_GRAPH) c (List.concat graphs).
Proof.
  intros Hb Hfed Hfor. destruct cf_ok as ((Hk & _) & Hth & _).
  destruct (graphs_stage c U U_ok (aggregate_threshold cf) (n_graphs cf) out gevs Hth Hk (b_by _ _ Hb) (b_U _ _ Hb) Hfed Hfor)
    as (graphs & E & Hby & Hnd & HU & [_ Hp] & [_ Hs]).
  assert (Hex : exact_entries (out_entries (List.concat graphs))).
  { split; [done|]. split; [done|]. intros a b. destruct (built_nbrs out sel a b Hb) as [H1 H2]. by rewrite Hp, Hs, H1, H2. }
  exists graphs. split; [exact E|]. split; [exact Hex|]. split; [|exact Hby]. intros e He. by apply (entries_sized sel _ e Hex (b_sel _ _ Hb) (b_len _ _ Hb)).
Qed.

(** The messages of high degree name accounts, among them the ends we look for. *)
Definition high_ok (lefts : list Body) : Prop :=
  (∀ b, b ∈ lefts → ∃ ho hi, b = HighDegree c ho hi) ∧
  (∀ side n, high c side lefts n → side = fst ∨ side = snd → U n) ∧
  ∀ a b, scatter_gather batches a b → high c fst lefts a ∧ high c snd lefts b.

Lemma degrees_fact out sel devs : built_ok out sel → fed (graph_mail c) (n_degrees cf) out devs → (∀ es, es ∈ devs → foreign c U es) →
  ∃ degrees, mapR (degrees_node (aggregate_threshold cf) c) devs = Ok degrees ∧ high_ok (List.concat degrees).*1.
Proof.
  intros Hb Hfed Hfor. destruct cf_ok as ((_ & Hk & _) & _).
  destruct (degrees_stage c U U_ok (aggregate_threshold cf) (n_degrees cf) out devs Hk (b_by _ _ Hb) (b_U _ _ Hb) Hfed Hfor)
    as (degrees & E & Hform & Ho & Hi).
  exists degrees. split; [exact E|]. split; [exact Hform|]. split.
  - intros side n Hn [-> | ->].
    + apply Ho, many_nbr in Hn as (a & Ha). apply (built_nbrs out sel n a Hb), moved_U in Ha. by destruct Ha.
    + apply Hi, many_nbr in Hn as (a & Ha). apply (built_nbrs out sel a n Hb), moved_U in Ha. by destruct Ha.
  - intros a b Hab. rewrite Ho, Hi. apply (scatter_high _ _ a b Hab); intros x y; by apply (built_nbrs out sel).
Qed.

Lemma high_or side ms n : high c side ms n ∨ ¬ high c side ms n.
Proof.
  induction ms as [|b ms IH]; [right; by intros (ho & hi & ?%not_elem_of_nil & _)|].
  assert (Hb : (∃ ho hi, b = HighDegree c ho hi ∧ n ∈ side (ho, hi)) ∨ ¬ ∃ ho hi, b = HighDegree c ho hi ∧ n ∈ side (ho, hi)).
  { destruct b; try (right; naive_solver). destruct (decide (client_id = c)) as [->|]; [|right; naive_solver].
    destruct (decide (n ∈ side (hi_out, hi_in))); [left; naive_solver|right; naive_solver]. }
  destruct Hb as [(ho & hi & -> & Hn)|Hb]; [left; exists ho, hi; split; [left|done]|].
  destruct IH as [(ho & hi & Hin & Hn)|IH]; [left; exists ho, hi; split; [by right|done]|].
  right. intros (ho & hi & [E|Hin]%elem_of_cons & Hn); [apply Hb; by exists ho, hi|apply IH; by exists ho, hi].
Qed.

Lemma prune_fact graphs lefts pevs : exact_entries (out_entries graphs) →
  (∀ e, e ∈ out_entries graphs → sized (split_threshold cf) e) → high_ok lefts →
  fed (right_mail c) (n_prunes cf) graphs pevs → (∀ es, es ∈ pevs → omap (left_mail c) es ≡ₚ lefts) →
  ∃ pruned, mapR (prune_node (split_threshold cf) c (prune_chunk cf)) pevs = Ok pruned ∧
    (∀ m, m ∈ List.concat pruned → sent_members U c m) ∧
    ∀ p, in_U U p → MIN_PATH_COUNT ≤ graphs_weight (List.concat pruned) p ↔ scatter_gather batches (path_origin p) (path_destination p).
Proof.
  intros Hex Hsz (Hform & HhU & Hhigh) Hfed Hleft. destruct cf_ok as ((_ & _ & Hk & _) & _ & _ & Hth).
  destruct (prune_stage c U U_ok (split_threshold cf) (prune_chunk cf) (n_prunes cf) lefts graphs pevs Hth Hk) as (pruned & E & Hm & Hw);
    [apply Hex|intros e He; split; [by apply Hex|by apply Hsz]|done|done|done|].
  exists pruned. split; [exact E|]. split; [exact Hm|]. intros p Hp. destruct (Hw p Hp) as [H1 H2].
  rewrite <- (links_scatter p _ Hex).
  destruct (high_or fst lefts (path_origin p)) as [Ho|Ho], (high_or snd lefts (path_destination p)) as [Hi|Hi]; [by rewrite H1|..].
  all: rewrite H2 by tauto; split; [unfold MIN_PATH_COUNT; lia|]; intros Hl%(links_scatter p _ Hex)%Hhigh; tauto.
Qed.

Lemma dealt_messages (ls : list (list Body)) : (List.concat (dealt <$> ls)).*1 = List.concat ls.
Proof.
  assert (H1 : ∀ (l : list Body) (g : nat → Z), (imap (λ i b, (b, g i)) l).*1 = l).
  { induction l as [|b l IH]; intros g; [done|]. rewrite imap_cons, fmap_cons. f_equal. apply (IH (g ∘ S)). }
  induction ls as [|l ls IH]; [done|]. rewrite fmap_cons. cbn [List.concat]. rewrite fmap_app, IH. f_equal. apply H1.
Qed.
Lemma counts_fact pruned cevs : (∀ m, m ∈ List.concat pruned → sent_members U c m) →
  (∀ p, in_U U p → MIN_PATH_COUNT ≤ graphs_weight (List.concat pruned) p ↔ scatter_gather batches (path_origin p) (path_destination p)) →
  fed (graph_mail c) (n_counts cf) (List.concat (dealt <$> pruned)) cevs → (∀ es, es ∈ cevs → foreign c U es) →
  ∃ counts, mapR (counts_node (count_threshold cf) c) cevs = Ok counts ∧
    (∀ m, m ∈ List.concat counts → counted_message (in_U U) c m) ∧
    ∀ p, in_U U p → MIN_PATH_COUNT ≤ counted (List.concat counts) p ↔ scatter_gather batches (path_origin p) (path_destination p).
Proof.
  intros Hsent Hw Hfed Hfor. destruct cf_ok as ((_ & _ & _ & Hk & _) & _ & Hth & _).
  destruct (counts_stage c U (count_threshold cf) (n_counts cf) (List.concat (dealt <$> pruned)) cevs Hth Hk)
    as (counts & E & Hm & Hc); [by rewrite dealt_messages|done|done|].
  rewrite dealt_messages in Hc. exists counts. split; [exact E|]. split; [exact Hm|]. intros p Hp. rewrite Hc. by apply Hw.
Qed.

Lemma paths_fact counts qevs : (∀ m, m ∈ counts → counted_message (in_U U) c m) →
  (∀ p, in_U U p → MIN_PATH_COUNT ≤ counted counts p ↔ scatter_gather batches (path_origin p) (path_destination p)) →
  fed (counts_mail c) (n_paths cf) counts qevs → (∀ es, es ∈ qevs → foreign_counts c U es) →
  ∃ paths, mapR (paths_node (aggregate_threshold cf) c) qevs = Ok paths ∧
    (∀ m, m ∈ List.concat paths → ∃ d, m = (PathCounts c d, 0)) ∧
    ∀ p, (∃ d n, (PathCounts c d, 0) ∈ List.concat paths ∧ (p, n) ∈ d) ↔
      in_U U p ∧ scatter_gather batches (path_origin p) (path_destination p).
Proof.
  intros Hm Hw Hfed Hfor. destruct cf_ok as ((_ & _ & _ & _ & Hk) & Hth & _).
  destruct (paths_stage c U U_ok (aggregate_threshold cf) (n_paths cf) counts qevs Hth Hk Hm Hfed Hfor) as (paths & E & Hform & Hp).
  exists paths. split; [exact E|]. split; [exact Hform|]. intros p. rewrite Hp. split; intros [HU Hs]; (split; [done|]); by apply Hw.
Qed.

(** *** The join *)

Lemma paths_for_elem (els : list Body) p n :
  (p, n) ∈ els ≫= paths_for c ↔ ∃ counts, PathCounts c counts ∈ els ∧ (p, n) ∈ counts.
Proof.
  rewrite list_elem_of_bind. split.
  - intros (b & Hin & Hb). destruct b; try by apply not_elem_of_nil in Hin. cbn in Hin.
    destruct (decide (client_id = c)) as [->|]; [|by apply not_elem_of_nil in Hin]. by eexists.
  - intros (counts & Hb & Hin). exists (PathCounts c counts). split; [|done]. cbn. by rewrite decide_True.
Qed.

(** The accounts of an answer: the ends of the paths looked for. *)
Definition accounts_exact (accounts : list (string * string)) : Prop :=
  NoDup accounts ∧ ∀ n, (node_bank n, node_account n) ∈ accounts ↔ ∃ a b, scatter_gather batches a b ∧ (n = a ∨ n = b).

Lemma join_fact (paths : list (Body * Z)) els : (∀ m, m ∈ paths → ∃ counts, m = (PathCounts c counts, 0)) →
  (∀ p, (∃ counts n, (PathCounts c counts, 0) ∈ paths ∧ (p, n) ∈ counts) ↔
    in_U U p ∧ scatter_gather batches (path_origin p) (path_destination p)) →
  Forall is_paths els → filter (λ b, body_client b = Some c) els ≡ₚ paths.*1 →
  ∃ st accounts, join_run UC4Join [] els = Ok st ∧
    get_responses UC4Join st c = Ok (ddel st c, [response c (text_body "--- UC4 ---" uc4_row accounts +:+ nl) true]) ∧
    accounts_exact accounts.
Proof.
  intros Hform Hpaths Hels Hmail. destruct (uc4_run els [] c Hels) as (st & E & Hst).
  exists st, (path_accounts (dkeys (dget_or [] st c))). split; [exact E|]. split; [reflexivity|].
  assert (Hkeys : ∀ p, p ∈ (els ≫= paths_for c).*1 ↔ in_U U p ∧ scatter_gather batches (path_origin p) (path_destination p)).
  { intros p. rewrite <- Hpaths, list_elem_of_fmap.
    assert (Hb : ∀ counts, PathCounts c counts ∈ els ↔ (PathCounts c counts, 0) ∈ paths).
    { intros counts. transitivity (PathCounts c counts ∈ paths.*1).
      - rewrite <- Hmail, list_elem_of_filter. cbn. tauto.
      - rewrite list_elem_of_fmap. split; [|by exists (PathCounts c counts, 0)].
        intros (m & E' & Hm). destruct (Hform m Hm) as (counts' & ->). cbn in E'. by injection E' as ->. }
    setoid_rewrite <- Hb. split.
    - intros ([q n] & -> & Hin). apply paths_for_elem in Hin as (counts & Hc & Hin). by exists counts, n.
    - intros (counts & n & Hc & Hin). exists (p, n). split; [done|]. apply paths_for_elem. by exists counts. }
  split; [apply path_accounts_NoDup|]. intros n. rewrite path_accounts_spec, Hst.
  change (dupdate (dget_or [] [] c) (els ≫= paths_for c)) with (dict_of (els ≫= paths_for c)).
  assert (Hd : ∀ p, p ∈ dkeys (dict_of (els ≫= paths_for c)) ↔ in_U U p ∧ scatter_gather batches (path_origin p) (path_destination p)).
  { intros p. rewrite <- Hkeys. apply dkeys_dict_of. intros a b [Ha _]%Hkeys [Hb _]%Hkeys. by apply U_ok. }
  setoid_rewrite Hd.
  assert (Hn : ∀ a b : Node, (node_bank a, node_account a) = (node_bank b, node_account b) ↔ a = b) by (intros [] []; cbn; naive_solver).
  setoid_rewrite Hn. split.
  - intros (p & (_ & Hs) & Hp). by exists (path_origin p), (path_destination p).
  - intros (a & b & Hs & Hab). exists (mkPath a b). split; [|done]. split; [|done]. by apply (scatter_U a b).
Qed.

(** *** Every answer is right *)

Lemma answer_exact responses : uc4_answer batches responses →
  ∃ accounts, responses = [response c (text_body "--- UC4 ---" uc4_row accounts +:+ nl) true] ∧ accounts_exact accounts.
Proof.
  intros [built gevs graphs devs degrees pevs pruned cevs counts qevs paths els st st'
    Eb Hg Hgf Eg Hd Hdf Ed Hp Hpl Ep Hc Hcf Ec Hq Hqf Eq Hels Hmail Ej Er].
  destruct group_stage as (built' & sel & Eb' & H1 & H2 & H3 & H4 & H5 & H6). rewrite Eb in Eb'. injection Eb' as <-.
  assert (Hb : built_ok (List.concat built) sel) by done. clear H1 H2 H3 H4 H5 H6.
  destruct (graphs_fact _ sel gevs Hb Hg Hgf) as (graphs' & Eg' & Hex & Hsz & _). rewrite Eg in Eg'. injection Eg' as <-.
  destruct (degrees_fact _ sel devs Hb Hd Hdf) as (degrees' & Ed' & Hhigh). rewrite Ed in Ed'. injection Ed' as <-.
  destruct (prune_fact _ _ pevs Hex Hsz Hhigh Hp Hpl) as (pruned' & Ep' & Hsent & Hw). rewrite Ep in Ep'. injection Ep' as <-.
  destruct (counts_fact pruned cevs Hsent Hw Hc Hcf) as (counts' & Ec' & Hcm & Hcw). rewrite Ec in Ec'. injection Ec' as <-.
  destruct (paths_fact _ qevs Hcm Hcw Hq Hqf) as (paths' & Eq' & Hform & Hpaths). rewrite Eq in Eq'. injection Eq' as <-.
  destruct (join_fact (List.concat paths) els Hform Hpaths Hels Hmail) as (st2 & accounts & Ej' & Er' & Hacc).
  rewrite Ej in Ej'. injection Ej' as <-. rewrite Er in Er'. injection Er' as _ ->. by exists accounts.
Qed.

(** *** No node fails *)

Lemma outcome_answer r : uc4_outcome batches r → ∃ responses, r = Ok responses ∧ uc4_answer batches responses.
Proof.
  unfold uc4_outcome. destruct group_stage as (built & sel & Eb & H1 & H2 & H3 & H4 & H5 & H6).
  assert (Hb : built_ok (List.concat built) sel) by done. clear H1 H2 H3 H4 H5 H6. rewrite Eb. cbn [proceeds].
  intros (gevs & devs & (Hg & Hgf) & (Hd & Hdf) & Hr).
  destruct (graphs_fact _ sel gevs Hb Hg Hgf) as (graphs & Eg & Hex & Hsz & _). rewrite Eg in Hr. cbn [proceeds] in Hr.
  destruct (degrees_fact _ sel devs Hb Hd Hdf) as (degrees & Ed & Hhigh). rewrite Ed in Hr. cbn [proceeds] in Hr.
  destruct Hr as (pevs & (Hp & Hpl) & Hr). destruct (prune_fact _ _ pevs Hex Hsz Hhigh Hp Hpl) as (pruned & Ep & Hsent & Hw).
  rewrite Ep in Hr. cbn [proceeds] in Hr. destruct Hr as (cevs & (Hc & Hcf) & Hr).
  destruct (counts_fact pruned cevs Hsent Hw Hc Hcf) as (counts & Ec & Hcm & Hcw). rewrite Ec in Hr. cbn [proceeds] in Hr.
  destruct Hr as (qevs & (Hq & Hqf) & Hr). destruct (paths_fact _ qevs Hcm Hcw Hq Hqf) as (paths & Eq & Hform & Hpaths).
  rewrite Eq in Hr. cbn [proceeds] in Hr. destruct Hr as (els & (Hels & Hmail) & Hr).
  destruct (join_fact (List.concat paths) els Hform Hpaths Hels Hmail) as (st & accounts & Ej & Er & _).
  rewrite Ej in Hr. cbn [proceeds] in Hr. rewrite Er in Hr. cbn [proceeds snd] in Hr. subst r. eexists. split; [reflexivity|].
  by eapply (uc4_answered _ _ built gevs graphs devs degrees pevs pruned cevs counts qevs paths els).
Qed.

Lemma answer_outcome responses : uc4_answer batches responses → uc4_outcome batches (Ok responses).
Proof.
  intros [built gevs graphs devs degrees pevs pruned cevs counts qevs paths els st st'
    Eb Hg Hgf Eg Hd Hdf Ed Hp Hpl Ep Hc Hcf Ec Hq Hqf Eq Hels Hmail Ej Er].
  eapply proceeds_Ok; [exact Eb|]. exists gevs, devs. split; [done|]. split; [done|].
  eapply proceeds_Ok; [exact Eg|]. eapply proceeds_Ok; [exact Ed|]. exists pevs. split; [done|].
  eapply proceeds_Ok; [exact Ep|]. exists cevs. split; [done|]. eapply proceeds_Ok; [exact Ec|]. exists qevs. split; [done|].
  eapply proceeds_Ok; [exact Eq|]. exists els. split; [done|]. eapply proceeds_Ok; [exact Ej|]. by eapply proceeds_Ok; [exact Er|].
Qed.

(** *** There is an answer *)

Definition graph_conv (b : Body) : option (uuid * graph_nodes) := match b with Graph c' nodes => Some (c', nodes) | _ => None end.
Definition counts_conv (b : Body) : option (uuid * pydict Path Z) := match b with PathCounts c' counts => Some (c', counts) | _ => None end.
Definition prune_conv (b : Body) : prune_event :=
  match b with HighDegree c' ho hi => PruneLeft c' ho hi | Graph c' nodes => PruneRight c' nodes | _ => PruneCheckpoint end.

Lemma feed_graphs k out : (∀ b, b ∈ out.*1 → ∃ nodes, b = Graph c nodes) →
  ∃ evs, fed (graph_mail c) k out evs ∧ ∀ es, es ∈ evs → foreign c U es.
Proof.
  intros Hout. eexists. split; [apply (feed_exists (graph_mail c) k out graph_conv)|].
  - intros b Hb. destruct (Hout b Hb) as (nodes & ->). cbn. by rewrite decide_True.
  - intros es Hes c' nodes e He Hne. destruct (feed_events k out graph_conv es _ Hes He) as (b & Hb & E).
    destruct (Hout b Hb) as (nodes' & ->). cbn in E. congruence.
Qed.

Lemma feed_counts k out : (∀ b, b ∈ out.*1 → ∃ counts, b = PathCounts c counts) →
  ∃ evs, fed (counts_mail c) k out evs ∧ ∀ es, es ∈ evs → foreign_counts c U es.
Proof.
  intros Hout. eexists. split; [apply (feed_exists (counts_mail c) k out counts_conv)|].
  - intros b Hb. destruct (Hout b Hb) as (counts & ->). cbn. by rewrite decide_True.
  - intros es Hes c' counts p He Hne. destruct (feed_events k out counts_conv es _ Hes He) as (b & Hb & E).
    destruct (Hout b Hb) as (counts' & ->). cbn in E. congruence.
Qed.

Lemma feed_prune k lefts rights : (∀ b, b ∈ lefts → ∃ ho hi, b = HighDegree c ho hi) →
  (∀ b, b ∈ rights.*1 → ∃ nodes, b = Graph c nodes) →
  ∃ evs, fed (right_mail c) k rights evs ∧ ∀ es, es ∈ evs → omap (left_mail c) es ≡ₚ lefts.
Proof.
  intros Hl Hr. destruct (feed_exists (right_mail c) k rights prune_conv) as [Hlen Hfed].
  { intros b Hb. destruct (Hr b Hb) as (nodes & ->). cbn. by rewrite decide_True. }
  assert (Hleft : omap (left_mail c) (prune_conv <$> lefts) = lefts ∧ omap (right_mail c) (prune_conv <$> lefts) = []).
  { clear Hfed Hlen. induction lefts as [|b lefts IH]; [done|]. destruct IH as [IH1 IH2]; [intros b' Hb'; apply Hl; by right|].
    destruct (Hl b) as (ho & hi & ->); [left|]. rewrite fmap_cons. cbn [omap list_omap prune_conv left_mail right_mail].
    rewrite decide_True by done. split; [by f_equal|done]. }
  destruct Hleft as [Hl1 Hl2].
  exists ((λ es, (prune_conv <$> lefts) ++ es) <$> ((λ i, prune_conv <$> shard_mail k (Z.of_nat i) rights) <$> List.seq 0 (Z.to_nat k))).
  split; [split|].
  - by rewrite length_fmap.
  - intros i es Hes. apply list_lookup_fmap_Some in Hes as (es' & -> & Hes'). rewrite omap_app, Hl2. by apply Hfed.
  - intros es (es' & -> & (i & -> & _)%list_elem_of_fmap)%list_elem_of_fmap. rewrite omap_app, Hl1.
    assert (Hnil : omap (left_mail c) (prune_conv <$> shard_mail k (Z.of_nat i) rights) = []); [|by rewrite Hnil, app_nil_r].
    assert (Hsub : ∀ b, b ∈ shard_mail k (Z.of_nat i) rights → ∃ nodes, b = Graph c nodes).
    { intros b (a & Hin & _)%shard_mail_elem. apply Hr, list_elem_of_fmap. by exists (b, a). }
    induction (shard_mail k (Z.of_nat i) rights) as [|b ms IH]; [done|]. destruct (Hsub b) as (nodes & ->); [left|].
    cbn. apply IH. intros b' Hb'. apply Hsub. by right.
Qed.

Lemma answer_exists : ∃ responses, uc4_answer batches responses.
Proof.
  destruct group_stage as (built & sel & Eb & H1 & H2 & H3 & H4 & H5 & H6).
  assert (Hb : built_ok (List.concat built) sel) by done. clear H1 H2 H3 H4 H5 H6.
  assert (Hform : ∀ aff out, graphs_by aff c out → ∀ b, b ∈ out.*1 → ∃ nodes, b = Graph c nodes).
  { intros aff out Hby b (m & -> & Hm)%list_elem_of_fmap. destruct (Hby m Hm) as (nodes & E & _). by exists nodes. }
  destruct (feed_graphs (n_graphs cf) _ (Hform _ _ (b_by _ _ Hb))) as (gevs & Hg & Hgf).
  destruct (feed_graphs (n_degrees cf) _ (Hform _ _ (b_by _ _ Hb))) as (devs & Hd & Hdf).
  destruct (graphs_fact _ sel gevs Hb Hg Hgf) as (graphs & Eg & Hex & Hsz & Hby).
  destruct (degrees_fact _ sel devs Hb Hd Hdf) as (degrees & Ed & Hhigh).
  destruct (feed_prune (n_prunes cf) _ _ (proj1 Hhigh) (Hform _ _ Hby)) as (pevs & Hp & Hpl).
  destruct (prune_fact _ _ pevs Hex Hsz Hhigh Hp Hpl) as (pruned & Ep & Hsent & Hw).
  destruct (feed_graphs (n_counts cf) (List.concat (dealt <$> pruned))) as (cevs & Hc & Hcf).
  { rewrite dealt_messages. intros b (nodes & -> & _)%Hsent. by exists nodes. }
  destruct (counts_fact pruned cevs Hsent Hw Hc Hcf) as (counts & Ec & Hcm & Hcw).
  destruct (feed_counts (n_paths cf) (List.concat counts)) as (qevs & Hq & Hqf).
  { intros b (m & -> & Hm)%list_elem_of_fmap. destruct (Hcm m Hm) as (d & E & _). by exists d. }
  destruct (paths_fact _ qevs Hcm Hcw Hq Hqf) as (paths & Eq & Hpf & Hpaths).
  assert (Hels : Forall is_paths (List.concat paths).*1 ∧ filter (λ b, body_client b = Some c) (List.concat paths).*1 = (List.concat paths).*1).
  { clear -Hpf. induction (List.concat paths) as [|m l IH]; [done|]. destruct (Hpf m) as (d & ->); [left|].
    destruct IH as [IH1 IH2]; [intros m' Hm'; apply Hpf; by right|]. rewrite fmap_cons. split; [by constructor|].
    rewrite filter_cons_True by done. by f_equal. }
  destruct Hels as [Hels Hmail].
  destruct (join_fact (List.concat paths) (List.concat paths).*1 Hpf Hpaths Hels) as (st & accounts & Ej & Er & _); [by rewrite Hmail|].
  eexists. eapply (uc4_answered _ _ built gevs graphs devs degrees pevs pruned cevs counts qevs paths); try done. by rewrite Hmail.
Qed.
End network.

(** C2: the answer of UC4 is right, end to end. Whatever batches a client's transactions
    come in, however the messages of each stage are spread over the instances of the
    next by their affinity, ordered there, and interleaved with other clients'
    messages and with checkpoints, whatever is spilled when, and however pruning and
    tiling cut the graph: no node of any stage raises an exception, so that every such
    run comes to an answer, there is one, and every answer is one message that lists, once each, the accounts at the two ends of a scatter-gather
    pattern: two different accounts with at least five accounts in between, counting
    the dollar transfers of 1 to 5 September 2022, and no other account. The accounts
    print and parse, a pair of them is told apart by its key, and their number is
    within what the tile sizes are computed for. *)
Theorem uc4_end_to_end `{PyHash} (cf : Config) (c : uuid) (U : Node → Prop) (batches : list (list Transaction)) :
  cfg_ok cf → nodes_ok U →
  (∀ l t, l ∈ batches → t ∈ l → tx_wf t ∧ U (origin_of t) ∧ U (destination_of t)) →
  split_threshold cf * Z.of_nat (length (List.concat batches)) < 2 ^ 53 →
  (∃ responses, uc4_answer cf c U batches responses) ∧
  (∀ r, uc4_outcome cf c U batches r ↔ ∃ responses, r = Ok responses ∧ uc4_answer cf c U batches responses) ∧
  ∀ responses, uc4_answer cf c U batches responses →
    ∃ accounts, responses = [response c (text_body "--- UC4 ---" uc4_row accounts +:+ nl) true] ∧ NoDup accounts ∧
      ∀ n, (node_bank n, node_account n) ∈ accounts ↔ ∃ a b, scatter_gather batches a b ∧ (n = a ∨ n = b).
Proof.
  intros Hcf HU Hb Hs. split; [by apply answer_exists|]. split.
  - intros r. split; [by apply outcome_answer|]. intros (responses & -> & Hr). by apply answer_outcome.
  - intros responses Hr. by apply (answer_exact cf c U batches Hcf HU Hb Hs).
Qed.

(** ** A concrete run *)

(** Accounts given by a list, where the conditions are decided. *)
Definition listed (ns : list Node) (n : Node) : Prop := n ∈ ns.

Lemma listed_ok ns :
  bool_decide (Forall (λ n, node_wf n) ns ∧
    Forall (λ ab, Forall (λ xy, path_key (mkPath ab.1 ab.2) = path_key (mkPath xy.1 xy.2) → ab = xy)
      (a ← ns; b ← ns; [(a, b)])) (a ← ns; b ← ns; [(a, b)])) = true → nodes_ok (listed ns).
Proof.
  intros [Hwf Hall]%bool_decide_eq_true. rewrite Forall_forall in Hwf. rewrite Forall_forall in Hall. split; [exact Hwf|].
  assert (Hin : ∀ p, in_U (listed ns) p → (path_origin p, path_destination p) ∈ (a ← ns; b ← ns; [(a, b)])).
  { intros p [Ho Hd]. apply list_elem_of_bind. exists (path_origin p). split; [|exact Ho].
    apply list_elem_of_bind. exists (path_destination p). split; [|exact Hd]. by apply list_elem_of_singleton. }
  intros [a b] [x y] Hp%Hin Hq%Hin E. specialize (Hall _ Hp). cbn beta in Hall. rewrite Forall_forall in Hall. specialize (Hall _ Hq). cbn in Hall.
  by injection (Hall E) as -> ->.
Qed.

#[local] Instance system_demo_hash : PyHash :=
  {| hash_str s := Z.of_nat (String.length s); hash_uuid _ := 0; hash_identity _ _ := 0 |}.

Definition demo_account (a : string) : Node := mkNode "1" a.
Definition demo_middle : list Node := demo_account <$> ["M1"; "M2"; "M3"; "M4"; "M5"]%string.

Definition demo_transfer (a b : Node) : Transaction :=
  mkTx (TsDate (midnight 2022 9 2)) (node_bank a) (node_account a) (node_bank b) (node_account b)
    (f_of_Z 10) "US Dollar" (f_of_Z 10) "US Dollar" "Wire".

(** Money from X to Y through five accounts, the two legs in different batches. *)
Definition demo_scatter : list (list Transaction) :=
  [(λ m, demo_transfer (demo_account "X1") m) <$> demo_middle; (λ m, demo_transfer m (demo_account "Y1")) <$> demo_middle].

Definition demo_accounts : list Node := demo_account "X1" :: demo_account "Y1" :: demo_middle.

Lemma demo_transfer_ok a b : a ∈ demo_accounts → b ∈ demo_accounts →
  tx_wf (demo_transfer a b) ∧ listed demo_accounts (origin_of (demo_transfer a b)) ∧ listed demo_accounts (destination_of (demo_transfer a b)).
Proof. destruct a, b. by split. Qed.

Lemma demo_scatter_ok l t : l ∈ demo_scatter → t ∈ l → tx_wf t ∧ listed demo_accounts (origin_of t) ∧ listed demo_accounts (destination_of t).
Proof.
  unfold demo_scatter. rewrite !elem_of_cons. intros [->|[->|?%not_elem_of_nil]]; [..|done];
    intros (m & -> & Hm)%list_elem_of_fmap; apply demo_transfer_ok; unfold demo_accounts;
    first [by left|by (right; left)|by do 2 right].
Qed.

Lemma uc4_end_to_end_witness :
  let c := uuid_lit 4 in let U := listed demo_accounts in
  ∃ responses accounts, uc4_answer deployed c U demo_scatter responses ∧
    responses = [response c (text_body "--- UC4 ---" uc4_row accounts +:+ nl) true] ∧
    ("1", "X1")%string ∈ accounts.
Proof.
  cbv zeta. destruct (uc4_end_to_end deployed (uuid_lit 4) (listed demo_accounts) demo_scatter)
    as [[responses Hr] [_ Hall]].
  - repeat split.
  - apply listed_ok. vm_compute. reflexivity.
  - exact demo_scatter_ok.
  - vm_compute. reflexivity.
  - destruct (Hall responses Hr) as (accounts & Er & _ & Hacc). exists responses, accounts. split; [exact Hr|]. split; [exact Er|].
    apply (Hacc (demo_account "X1")). exists (demo_account "X1"), (demo_account "Y1"). split; [|by left]. split; [done|].
    exists demo_middle. split; [apply (bool_decide_unpack _); vm_compute; exact I|]. split; [vm_compute; discriminate|].
    intros m Hm. split.
    + exists ((λ m, demo_transfer (demo_account "X1") m) <$> demo_middle), (demo_transfer (demo_account "X1") m).
      split; [left|]. split; [by apply list_elem_of_fmap_2|]. split; [by repeat split|]. split; [done|by destruct m].
    + exists ((λ m, demo_transfer m (demo_account "Y1")) <$> demo_middle), (demo_transfer m (demo_account "Y1")).
      split; [right; left|]. split; [by apply (list_elem_of_fmap_2 (λ m, demo_transfer m (demo_account "Y1")))|]. split; [by repeat split|].
      split; [by destruct m|done].
Defined.
