(* ===== verification/JoinRoute.v ===== *)
(** * The join node: [join/join_route_handler.py]

    A route handler counts what it has received of each client, answers when the
    announced number has arrived, and marks the client finalized. Its messages go
    through the shared dispatch, which processes data while it holds the
    checkpointer's lock. The lock is not reentrant: a handler that asks for it
    again never returns, which is an outcome of its own here. *)

From S2P Require Import Prelude.
From S2P Require Import PyDict.
From S2P Require Import PyValues.
From S2P Require Import PyText.
From S2P Require Import PyFloat.
From S2P Require Import Wire.
From S2P Require Import Messages.
From S2P Require Import Stamping.
From S2P Require Import Dedup.
From S2P Require Import Checkpoint.
From S2P Require Import Aggregates.
From S2P Require Import Joins.

(** ** [_JoinCounts] *)

Record JoinCounts := mkJC {
  jc_received : pydict uuid Z;
  jc_expected : pydict uuid Z;
  jc_finalized : pyset uuid
}.

Definition jc_init : JoinCounts := mkJC [] [] [].

Definition inc_received (j : JoinCounts) (c : uuid) : JoinCounts :=
  mkJC (dset (jc_received j) c (dget_or 0 (jc_received j) c + 1)) (jc_expected j) (jc_finalized j).
Definition set_expected (j : JoinCounts) (c : uuid) (n : Z) : JoinCounts :=
  mkJC (jc_received j) (dset (jc_expected j) c n) (jc_finalized j).
Definition is_complete (j : JoinCounts) (c : uuid) : bool :=
  match dget (jc_expected j) c with
  | Some n => n <=? dget_or 0 (jc_received j) c
  | None => false
  end.
Definition is_finalized (j : JoinCounts) (c : uuid) : bool := smem c (jc_finalized j).
Definition finalized_clients (j : JoinCounts) : list uuid := jc_finalized j.
Definition mark_finalized (j : JoinCounts) (c : uuid) : JoinCounts :=
  mkJC (ddel (jc_received j) c) (ddel (jc_expected j) c) (sadd (jc_finalized j) c).
Definition jc_drop (j : JoinCounts) (c : uuid) : JoinCounts :=
  mkJC (ddel (jc_received j) c) (ddel (jc_expected j) c) (sdiscard (jc_finalized j) c).

(** Each of the three tables may be missing from a snapshot. *)
Definition jc_blob : Type := option (pydict string Z) * option (pydict string Z) * option (list string).
Definition jc_snapshot_state (j : JoinCounts) : jc_blob :=
  (Some (clients_out id (jc_received j)), Some (clients_out id (jc_expected j)), Some (uuid_str <$> jc_finalized j)).
Definition jc_restore_state (b : jc_blob) : res JoinCounts :=
  r ← clients_in id (default [] b.1.1); e ← clients_in id (default [] b.1.2);
  f ← mapR uuid_of_str (default [] b.2); Ok (mkJC r e (set_of f)).

Definition jc_wf (j : JoinCounts) : Prop :=
  dict_wf (jc_received j) ∧ dict_wf (jc_expected j) ∧ set_wf (jc_finalized j).

Lemma jc_restore_snapshot j : jc_wf j → jc_restore_state (jc_snapshot_state j) = Ok j.
Proof.
  destruct j as [r e f]. intros (Hr & He & Hf). unfold jc_restore_state, jc_snapshot_state.
  cbn [fst snd jc_received jc_expected jc_finalized] in *.
  change (default [] (Some ?x)) with x.
  rewrite (clients_roundtrip (id : Z → Z) id r), (clients_roundtrip (id : Z → Z) id e) by done.
  cbn [mbind res_bind]. rewrite (mapR_map _ _ id) by (intros; apply uuid_of_str_str).
  cbn [mbind res_bind]. rewrite list_fmap_id, set_of_id by done. done.
Qed.

#[export] Instance JoinCounts_Snapshotable : Snapshotable JoinCounts := {|
  snap := jc_blob;
  snapshot_state := jc_snapshot_state;
  restore_state _ := jc_restore_state;
  clear_stale_spill j := j;
  snap_wf _ := jc_wf;
  restore_snapshot _ := jc_restore_snapshot
|}.

(** ** [JoinRouteHandler] *)

Record JoinState (F : Type) := mkJS { j_counts : JoinCounts; j_fn : F }.
Arguments mkJS {F}. Arguments j_counts {F}. Arguments j_fn {F}.

(** A response on the exchange: its routing key and its bytes. *)
Record JOut := mkJOut { routing_key : string; raw_response : bytes }.
#[export] Instance JOut_eq_dec : EqDecision JOut.
Proof. solve_decision. Defined.

Section join_route.
Context `{MP : MsgPack} {F : Type} `{!Snapshotable F} (fn : JoinFn F) (uc_id : Z).
Implicit Types (j : JoinState F) (c : uuid) (m : Message).

Abbreviation jeffect := (effect F JoinCounts JOut nat).
Abbreviation jcpt := (option (Checkpointer nat)).

Definition join_world j : World F JoinCounts := mkWorld (j_fn j) [] [("counts"%string, j_counts j)].

(** The handler returned, or it waits forever for a lock it holds itself. *)
Inductive outcome :=
  | Returned (cp : jcpt) (j : JoinState F) (effs : list jeffect)
  | Deadlocked (effs : list jeffect).

(** [response.uc_id = self._uc_id] *)
Definition set_uc_id (r : Body) : Body :=
  match r with Response c body last _ => Response c body last uc_id | b => b end.

Definition send_response c (r : Body) : res JOut :=
  raw ← serialize (new_msg (set_uc_id r)); Ok (mkJOut (uuid_str c) raw).

Definition discard_client j c : JoinState F := mkJS (j_counts j) (join_discard fn (j_fn j) c).

(** [_maybe_finalize]; [locked]: the caller holds the checkpointer's lock. *)
Definition maybe_finalize (locked : bool) (cp : jcpt) j c : res outcome :=
  if is_finalized (j_counts j) c then Ok (Returned cp j [])
  else if negb (is_complete (j_counts j) c) then Ok (Returned cp j [])
  else
    '(f, responses) ← get_responses fn (j_fn j) c;
    outs ← mapR (send_response c) responses;
    let j := mkJS (mark_finalized (j_counts j) c) f in
    Ok (match cp with
        | None => Returned None (discard_client j c) (Send <$> outs)
        | Some cp =>
            if locked then Deadlocked (Send <$> outs)
            else let '(cp, e) := flush cp (join_world j) true in
                 Returned (Some cp) (discard_client j c) ((Send <$> outs) ++ e)
        end).

Definition join_on_eof (cp : jcpt) j m : res outcome :=
  match body_ m with
  | EOF c _ expected_count _ _ _ =>
      maybe_finalize false cp (mkJS (set_expected (j_counts j) c expected_count) (j_fn j)) c
  | _ => Exc AttributeError
  end.

Definition join_on_data (locked : bool) (cp : jcpt) j m : res outcome :=
  f ← join fn (j_fn j) (body_ m);
  c ← of_opt AttributeError (body_client (body_ m));
  maybe_finalize locked cp (mkJS (inc_received (j_counts j) c) f) c.

Definition join_on_abort (cp : jcpt) j m : res outcome :=
  c ← of_opt AttributeError (body_client (body_ m));
  let j := mkJS (jc_drop (j_counts j) c) (join_discard fn (j_fn j) c) in
  Ok (match cp with
      | None => Returned None j []
      | Some cp => let '(cp, e) := flush (mark_aborted cp c) (join_world j) true in Returned (Some cp) j e
      end).

(** The effects of a handler before and after those of the outcome. *)
Definition around (before : list jeffect) (o : outcome) (after : list jeffect) : outcome :=
  match o with
  | Returned cp j e => Returned cp j (before ++ e ++ after)
  | Deadlocked e => Deadlocked (before ++ e)
  end.

(** [Checkpointer.handle_data], with the lock *)
Definition locked_handle_data (cp : Checkpointer nat) j m (ack : nat) : res outcome :=
  c ← of_opt AttributeError (body_client (body_ m));
  if smem c (cp_aborted cp) then Ok (Returned (Some cp) j [Ack ack])
  else if is_duplicate (cp_dedup cp) (producer_id m) (seq m) then Ok (Returned (Some cp) j [Ack ack])
  else
    o ← join_on_data true (Some cp) j m;
    Ok (match o with
        | Deadlocked e => Deadlocked e
        | Returned _ j outs =>
            let cp := mkCP (record (cp_dedup cp) (producer_id m) (seq m)) (cp_every cp)
                        (cp_pending cp ++ [ack]) (cp_aborted cp) true in
            if Z.of_nat (length (cp_pending cp)) >=? cp_every cp
            then let '(cp, effs) := checkpoint_and_flush cp (join_world j) false in
                 Returned (Some cp) j (outs ++ effs)
            else Returned (Some cp) j outs
        end).

(** [_handle_message] through [dispatch] *)
Definition join_handle (cp : jcpt) j m (ack : nat) : res outcome :=
  match body_type (body_ m) with
  | T_EOF =>
      let '(cp, e1) :=
        match cp with
        | Some cp => let '(cp, e) := flush cp (join_world j) false in (Some cp, e)
        | None => (None, [])
        end in
      o ← join_on_eof cp j m; Ok (around e1 o [Ack ack])
  | T_ABORT => o ← join_on_abort cp j m; Ok (around [] o [Ack ack])
  | _ =>
      match cp with
      | None => o ← join_on_data false None j m; Ok (around [] o [Ack ack])
      | Some cp => locked_handle_data cp j m ack
      end
  end.

Definition join_handle_message (cp : jcpt) j (body : bytes) (ack : nat) : res outcome :=
  m ← deserialize_message body; join_handle cp j m ack.

(** [start], before consuming *)
Definition join_start (cp : jcpt) j (file : option (Blob F JoinCounts)) : res (jcpt * JoinState F * list jeffect) :=
  match cp with
  | None => Ok (None, j, [])
  | Some cp =>
      '(restored, (cp, w)) ← cp_restore cp (join_world j) file;
      j ← match w_extra w with
          | [(_, counts)] => Ok (mkJS counts (w_fn w))
          | _ => Exc TypeError
          end;
      if negb restored then Ok (Some cp, j, [])
      else
        let j := foldl discard_client j (finalized_clients (j_counts j)) in
        let '(cp, e) := flush cp (join_world j) true in Ok (Some cp, j, e)
  end.
End join_route.

Arguments outcome F {_}.
Arguments Returned {F _}.
Arguments Deadlocked {F _}.

(** ** What a message does to the answers of a client *)

Definition is_data_msg (m : Message) : Prop := body_type (body_ m) ≠ T_EOF ∧ body_type (body_ m) ≠ T_ABORT.

(** The next data message of the client is the last one it waits for. *)
Definition one_short (k : JoinCounts) (c : uuid) : Prop :=
  is_finalized k c = false ∧
  ∃ n, dget (jc_expected k) c = Some n ∧ n ≤ dget_or 0 (jc_received k) c + 1.

Lemma is_complete_inc (k : JoinCounts) (c c' : uuid) :
  is_complete (inc_received k c) c' =
    if decide (c = c') then
      match dget (jc_expected k) c' with Some n => n <=? dget_or 0 (jc_received k) c' + 1 | None => false end
    else is_complete k c'.
Proof.
  unfold is_complete, inc_received. cbn [jc_expected jc_received]. rewrite dget_or_dset.
  destruct (decide (pyeq c c')) as [E|E], (decide (c = c')) as [E'|E']; [|done..].
  assert (c = c') as -> by exact E. done.
Qed.

(** C23: a join node that checkpoints stops forever when the last message of a client
    comes after its end of file: it sends the responses, then asks for the lock it
    is holding. Nothing it did is checkpointed, and the message is not
    acknowledged. *)
Theorem late_data_deadlocks `{MP : MsgPack} {F : Type} `{!Snapshotable F} (fn : JoinFn F) (uc_id : Z)
    (cp : Checkpointer nat) (j : JoinState F) (m : Message) (ack : nat) (c : uuid)
    (f f' : F) (responses : list Body) (outs : list JOut) :
  is_data_msg m → body_client (body_ m) = Some c →
  smem c (cp_aborted cp) = false → is_duplicate (cp_dedup cp) (producer_id m) (seq m) = false →
  one_short (j_counts j) c →
  join fn (j_fn j) (body_ m) = Ok f → get_responses fn f c = Ok (f', responses) →
  mapR (send_response uc_id c) responses = Ok outs →
  join_handle fn uc_id (Some cp) j m ack = Ok (Deadlocked (Send <$> outs)).
Proof.
  intros [He Ha] Hc Hab Hd (Hf & n & Hn & Hle) Hj Hr Ho.
  assert (E : locked_handle_data fn uc_id cp j m ack = Ok (Deadlocked (Send <$> outs))).
  { unfold locked_handle_data. rewrite Hc. cbn [of_opt mbind res_bind]. rewrite Hab, Hd.
    unfold join_on_data. rewrite Hj, Hc. cbn [of_opt mbind res_bind].
    unfold maybe_finalize. cbn [j_counts j_fn]. change (is_finalized (inc_received _ c) c) with (is_finalized (j_counts j) c).
    rewrite Hf, is_complete_inc, decide_True, Hn by done.
    rewrite (proj2 (Z.leb_le _ _) Hle). cbn [negb]. rewrite Hr. cbn [mbind res_bind]. by rewrite Ho. }
  unfold join_handle. by destruct (body_type (body_ m)).
Qed.

(** An end of file that comes before the last data is acknowledged and forgotten:
    whatever checkpoint is written while it is handled is one of the state before
    it, so that after a crash the number it announced is lost, and the broker will
    not deliver it again. *)
Theorem early_eof_not_durable `{MP : MsgPack} {F : Type} `{!Snapshotable F} (fn : JoinFn F) (uc_id : Z)
    (cp : Checkpointer nat) (j : JoinState F) (m : Message) (ack : nat) (c : uuid) (p n k o : Z) (d : pydict Z Z) :
  body_ m = EOF c p n k o d → dget_or 0 (jc_received (j_counts j)) c < n →
  ∃ cp' j' saved,
    join_handle fn uc_id (Some cp) j m ack = Ok (Returned (Some cp') j' (saved ++ [Ack ack])) ∧
    dget (jc_expected (j_counts j')) c = Some n ∧ cp_dirty cp' = false ∧
    ∀ b, Save b ∈ saved → b = blob_of cp (join_world j).
Proof.
  intros Hm Hlt. unfold join_handle, join_on_eof. rewrite Hm. cbn [body_type].
  unfold flush. destruct (checkpoint_and_flush cp (join_world j) false) as [cp' e1] eqn:E.
  assert (H : maybe_finalize fn uc_id false (Some cp') (mkJS (set_expected (j_counts j) c n) (j_fn j)) c =
    Ok (Returned (Some cp') (mkJS (set_expected (j_counts j) c n) (j_fn j)) [])).
  { unfold maybe_finalize. destruct (is_finalized _ c); [done|].
    unfold is_complete, set_expected. cbn [j_counts jc_expected jc_received]. rewrite dget_dset_eq.
    by rewrite (proj2 (Z.leb_gt _ _) Hlt). }
  rewrite H. cbn [mbind res_bind around app]. eexists cp', _, e1. split; [done|].
  split; [apply dget_dset_eq|]. unfold checkpoint_and_flush in E. injection E as <- <-.
  split; [cbn; by destruct (cp_dirty cp)|]. intros b [Hb|Hb]%elem_of_app.
  - destruct (cp_dirty cp || false); [|by apply not_elem_of_nil in Hb].
    apply list_elem_of_singleton in Hb. congruence.
  - apply list_elem_of_fmap in Hb as (? & ? & _). done.
Qed.

(** ** One client among many *)

(** What the counts know of a client: received, announced, answered. *)
Definition view (k : JoinCounts) (c : uuid) : Z * option Z * bool :=
  (dget_or 0 (jc_received k) c, dget (jc_expected k) c, is_finalized k c).

Lemma inc_received_wf k c : jc_wf k → jc_wf (inc_received k c).
Proof. intros (H1 & H2 & H3). split_and!; [by apply dset_wf|done..]. Qed.
Lemma set_expected_wf k c n : jc_wf k → jc_wf (set_expected k c n).
Proof. intros (H1 & H2 & H3). split_and!; [done|by apply dset_wf|done]. Qed.
Lemma mark_finalized_wf k c : jc_wf k → jc_wf (mark_finalized k c).
Proof. intros (H1 & H2 & H3). split_and!; [by apply ddel_wf..|by apply sadd_wf]. Qed.
Lemma jc_drop_wf k c : jc_wf k → jc_wf (jc_drop k c).
Proof.
  intros (H1 & H2 & H3). split_and!; [by apply ddel_wf..|]. unfold set_wf, sdiscard, jc_drop. cbn [jc_finalized].
  eapply sublist_NoDup; [exact H3|]. apply fmap_sublist, sublist_filter.
Qed.
#[export] Hint Resolve inc_received_wf set_expected_wf mark_finalized_wf jc_drop_wf : py.

(** Bookkeeping of one client does not show in another's view. *)
Lemma view_other k c c' : c ≠ c' → jc_wf k →
  view (inc_received k c) c' = view k c' ∧ (∀ n, view (set_expected k c n) c' = view k c') ∧
  view (mark_finalized k c) c' = view k c' ∧ view (jc_drop k c) c' = view k c'.
Proof.
  intros Hc (H1 & H2 & H3). unfold view, is_finalized, dget_or.
  assert (Hp : ¬ pyeq c c') by (intros E; by apply Hc).
  assert (Hn : ∀ s : pyset uuid, smem c' (sadd s c) = smem c' s).
  { intros s. apply eq_true_iff_eq. rewrite smem_sadd. split; [intros [?|E]; [done|]|by left].
    by destruct Hp. }
  assert (Hd : ∀ s : pyset uuid, smem c' (sdiscard s c) = smem c' s).
  { intros s. unfold smem. apply bool_decide_ext. unfold sdiscard. rewrite !list_elem_of_fmap.
    setoid_rewrite list_elem_of_filter. split; intros (y & Hy & Hin); exists y; [by destruct Hin|].
    split_and!; [done| |done]. intros E. apply Hp. unfold pyeq in *. congruence. }
  cbn. rewrite !dget_ddel, !dget_dset by done. rewrite !(decide_False (P := pyeq c c')) by done.
  rewrite Hn, Hd. split_and!; [done| |done..]. intros n. rewrite dget_dset. by rewrite (decide_False (P := pyeq c c')).
Qed.

Section answers.
Context `{MP : MsgPack} {F : Type} `{!Snapshotable F} (fn : JoinFn F) (uc_id : Z).
Implicit Types (j : JoinState F) (c : uuid) (m : Message).

Definition sends (effs : list (effect F JoinCounts JOut nat)) : list JOut :=
  omap (λ e, match e with Send o => Some o | _ => None end) effs.

(** A handler without a checkpoint, over a list of messages. *)
Fixpoint answer_run j (ms : list Message) : res (JoinState F * list JOut) :=
  match ms with
  | [] => Ok (j, [])
  | m :: ms =>
      o ← join_handle fn uc_id None j m 0%nat;
      match o with
      | Returned _ j e => '(j, outs) ← answer_run j ms; Ok (j, sends e ++ outs)
      | Deadlocked _ => Exc RuntimeError
      end
  end.

Definition for_client c (outs : list JOut) : list JOut := filter (λ o, routing_key o = uuid_str c) outs.

Lemma answer_run_app j ms1 ms2 j' outs :
  answer_run j (ms1 ++ ms2) = Ok (j', outs) →
  ∃ j1 o1 o2, answer_run j ms1 = Ok (j1, o1) ∧ answer_run j1 ms2 = Ok (j', o2) ∧ outs = o1 ++ o2.
Proof.
  revert j outs. induction ms1 as [|m ms1 IH]; intros j outs H; cbn [app answer_run] in *.
  { by eexists j, [], outs. }
  apply bind_Ok in H as (o & Ho & H). rewrite Ho. cbn [mbind res_bind]. destruct o as [cp j0 e|e]; [|done].
  apply bind_Ok in H as ([j2 outs2] & H & [= <- <-]). apply IH in H as (j1 & o1 & o2 & H1 & H2 & ->).
  rewrite H1. cbn [mbind res_bind]. eexists _, _, _. split; [done|]. split; [done|]. by rewrite app_assoc.
Qed.

Lemma sends_app e1 e2 : sends (e1 ++ e2) = sends e1 ++ sends e2.
Proof. unfold sends. by rewrite omap_app. Qed.

Lemma sends_Send outs : sends (Send <$> outs) = outs.
Proof. unfold sends. induction outs as [|o outs IH]; [done|]. cbn. by rewrite IH. Qed.

Lemma sends_acked e n : sends ([] ++ e ++ [Ack n]) = sends e.
Proof. cbn [app]. rewrite sends_app. apply app_nil_r. Qed.

Lemma send_response_key c r o : send_response uc_id c r = Ok o → routing_key o = uuid_str c.
Proof. unfold send_response. intros H. res_inv. done. Qed.

Lemma responses_keys c rs outs :
  mapR (send_response uc_id c) rs = Ok outs → Forall (λ o, routing_key o = uuid_str c) outs.
Proof.
  revert outs. induction rs as [|r rs IH]; intros outs H; cbn in H; res_inv; [constructor|].
  constructor; [by eapply send_response_key|by apply IH].
Qed.

(** Without a checkpoint the handler never waits. *)
Lemma finalize_spec j c o :
  maybe_finalize fn uc_id false None j c = Ok o →
  (o = Returned None j [] ∧ (is_finalized (j_counts j) c = true ∨ is_complete (j_counts j) c = false)) ∨
  ∃ f rs outs, is_finalized (j_counts j) c = false ∧ is_complete (j_counts j) c = true ∧
    get_responses fn (j_fn j) c = Ok (f, rs) ∧ mapR (send_response uc_id c) rs = Ok outs ∧
    o = Returned None (mkJS (mark_finalized (j_counts j) c) (join_discard fn f c)) (Send <$> outs).
Proof.
  unfold maybe_finalize. destruct (is_finalized _ c); [intros [= <-]; left; auto|].
  destruct (is_complete _ c) eqn:E; cbn [negb]; [|intros [= <-]; left; auto].
  intros H. right. apply bind_Ok in H as ([f rs] & Hr & H). apply bind_Ok in H as (outs & Ho & [= <-]).
  by exists f, rs, outs.
Qed.

(** What handling a message does to the join function while [c] is not answered: data
    are joined, an abort discards its client, and a client other than [c] whose input
    is complete is answered and discarded. *)
Definition answered_others c (f : F) m (f2 : F) : Prop :=
  f2 = f ∨ ∃ c0 f1 rs, body_client (body_ m) = Some c0 ∧ c0 ≠ c ∧ get_responses fn f c0 = Ok (f1, rs) ∧ f2 = join_discard fn f1 c0.

Definition fn_step c (f : F) m (f2 : F) : Prop :=
  match body_type (body_ m) with
  | T_EOF => answered_others c f m f2
  | T_ABORT => ∃ c0, body_client (body_ m) = Some c0 ∧ c0 ≠ c ∧ f2 = join_discard fn f c0
  | _ => ∃ f1, join fn f (body_ m) = Ok f1 ∧ answered_others c f1 m f2
  end.

Inductive fn_run c : F → list Message → F → Prop :=
  | fn_done f : fn_run c f [] f
  | fn_more f m f1 ms f2 : fn_step c f m f1 → fn_run c f1 ms f2 → fn_run c f (m :: ms) f2.

(** The join function after a message of [c] itself. *)
Definition fn_own (f : F) m : res F :=
  match body_type (body_ m) with T_EOF => Ok f | _ => join fn f (body_ m) end.

(** The answer to [c]: after its last message the responses of the join function, whose
    state is what [f0] has become by joining every data message so far; and nothing
    else for [c]. *)
Definition answers c (f0 : F) (ms : list Message) (outs : list JOut) : Prop :=
  ∃ pre m post f f1 f' rs, ms = pre ++ m :: post ∧ body_client (body_ m) = Some c ∧ filter (λ m, body_client (body_ m) = Some c) post = [] ∧
    fn_run c f0 pre f ∧ fn_own f m = Ok f1 ∧ get_responses fn f1 c = Ok (f', rs) ∧ mapR (send_response uc_id c) rs = Ok (for_client c outs).

Lemma for_client_own c outs : Forall (λ o, routing_key o = uuid_str c) outs → for_client c outs = outs.
Proof. apply filter_Forall_all. Qed.

Lemma for_client_other c c' outs :
  c ≠ c' → Forall (λ o, routing_key o = uuid_str c) outs → for_client c' outs = [].
Proof.
  intros Hc H. apply filter_Forall_none. eapply Forall_impl; [exact H|]. intros o Ho E. apply Hc.
  apply uuid_str_pyeq. unfold pyeq. cbn. unfold id. congruence.
Qed.

Lemma finalize_other j c c' o :
  c ≠ c' → jc_wf (j_counts j) → maybe_finalize fn uc_id false None j c = Ok o →
  ∃ j' e, o = Returned None j' e ∧ jc_wf (j_counts j') ∧ view (j_counts j') c' = view (j_counts j) c' ∧
    for_client c' (sends e) = [] ∧ ∀ m, body_client (body_ m) = Some c → answered_others c' (j_fn j) m (j_fn j').
Proof.
  intros Hc Hwf [[-> _]|(f & rs & outs & _ & _ & Hg & Hs & ->)]%finalize_spec; [exists j, []; split_and!; try done; by left|].
  eexists _, _. split; [done|]. cbn [j_counts j_fn]. split; [by eauto with py|].
  split; [by apply (view_other _ c)|]. rewrite sends_Send. split; [eapply for_client_other, responses_keys; done|].
  intros m Hm. right. by exists c, f, rs.
Qed.

(** A message of another client. *)
Lemma handle_other j m c o :
  body_client (body_ m) ≠ Some c → jc_wf (j_counts j) → join_handle fn uc_id None j m 0%nat = Ok o →
  ∃ j' e, o = Returned None j' e ∧ jc_wf (j_counts j') ∧ view (j_counts j') c = view (j_counts j) c ∧
    for_client c (sends e) = [] ∧ fn_step c (j_fn j) m (j_fn j').
Proof.
  intros Hc Hwf H.
  assert (Hfin : ∀ j0 c0 o1, c0 ≠ c → jc_wf (j_counts j0) → view (j_counts j0) c = view (j_counts j) c → body_client (body_ m) = Some c0 →
    maybe_finalize fn uc_id false None j0 c0 = Ok o1 →
    ∃ j' e, around [] o1 [Ack 0%nat] = Returned None j' e ∧ jc_wf (j_counts j') ∧
      view (j_counts j') c = view (j_counts j) c ∧ for_client c (sends e) = [] ∧ answered_others c (j_fn j0) m (j_fn j')).
  { intros j0 c0 o1 Hc0 Hwf0 Hv Hm0 Ho. apply (finalize_other _ _ c) in Ho as (j' & e & -> & Hw & Hv' & He & Hf); [|done..].
    eexists j', _. split; [done|]. split; [done|]. split; [congruence|].
    rewrite sends_acked. split; [done|]. by apply Hf. }
  assert (Hdata : is_data_msg m → ∃ o1, join_on_data fn uc_id false None j m = Ok o1 ∧ o = around [] o1 [Ack 0%nat]).
  { intros [He Ha]. unfold join_handle in H. destruct (body_type (body_ m)); try done; apply bind_Ok in H as (o1 & H & [= <-]); eauto. }
  destruct (decide (body_type (body_ m) = T_EOF)) as [E|E]; [|destruct (decide (body_type (body_ m) = T_ABORT)) as [E'|E']].
  - unfold join_handle in H. rewrite E in H. apply bind_Ok in H as (o1 & H & [= <-]). unfold join_on_eof in H.
    destruct (body_ m) as [c0| | | | | | | | | | | | | | | | | | | | | | | | |] eqn:Em; try done.
    assert (c0 ≠ c) by (intros ->; by apply Hc). unfold fn_step. rewrite Em. cbn [body_type].
    eapply (Hfin (mkJS _ _)) in H; [exact H|done| | |done]; [by apply set_expected_wf|by apply (view_other _ c0)].
  - unfold join_handle in H. rewrite E' in H. cbn in H. apply bind_Ok in H as (o1 & H & [= <-]).
    unfold join_on_abort in H. apply bind_Ok in H as (c0 & H0%of_opt_Ok & [= <-]).
    assert (c0 ≠ c) by congruence. eexists _, _. split; [done|]. cbn [j_counts].
    split; [by apply jc_drop_wf|]. split; [by apply (view_other _ c0)|]. split; [done|]. unfold fn_step. rewrite E'. by exists c0.
  - destruct (Hdata (conj E E')) as (o1 & H1 & ->). unfold join_on_data in H1.
    apply bind_Ok in H1 as (f & Hf & H1). apply bind_Ok in H1 as (c0 & H0%of_opt_Ok & H1).
    assert (c0 ≠ c) by congruence.
    eapply (Hfin (mkJS _ _)) in H1 as (j' & e & ? & ? & ? & ? & ?); [|done| | |done]; [|by apply inc_received_wf|by apply (view_other _ c0)].
    exists j', e. split_and!; try done. unfold fn_step. destruct (body_type (body_ m)); try done; by exists f.
Qed.

(** The messages of one client: data, and an end of file that announces [n]. *)
Definition own_input c (n : Z) m : Prop :=
  (is_data_msg m ∧ body_client (body_ m) = Some c) ∨ ∃ p k o d, body_ m = EOF c p n k o d.
Definition is_eof m : bool := bool_decide (body_type (body_ m) = T_EOF).

Definition progress (k : Z) (eof : bool) (n : Z) : Z * option Z * bool :=
  (k, if eof then Some n else None, false).

(** A message of the client itself: it is answered when the count is reached. *)
Lemma handle_own j m c n k (eof : bool) o :
  own_input c n m → jc_wf (j_counts j) → view (j_counts j) c = progress k eof n →
  join_handle fn uc_id None j m 0%nat = Ok o →
  let k' := k + (if is_eof m then 0 else 1) in
  let eof' := is_eof m || eof in
  ∃ j' e, o = Returned None j' e ∧ jc_wf (j_counts j') ∧
    if eof' && (n <=? k') then ∃ f1 f' rs, fn_own (j_fn j) m = Ok f1 ∧ get_responses fn f1 c = Ok (f', rs) ∧
      mapR (send_response uc_id c) rs = Ok (for_client c (sends e))
    else view (j_counts j') c = progress k' eof' n ∧ for_client c (sends e) = [] ∧ fn_step c (j_fn j) m (j_fn j').
Proof.
  intros Hin Hwf Hv H. cbv zeta.
  assert (∃ j1 o1, jc_wf (j_counts j1) ∧ fn_own (j_fn j) m = Ok (j_fn j1) ∧ fn_step c (j_fn j) m (j_fn j1) ∧
    view (j_counts j1) c = progress (k + (if is_eof m then 0 else 1)) (is_eof m || eof) n ∧
    maybe_finalize fn uc_id false None j1 c = Ok o1 ∧ o = around [] o1 [Ack 0%nat]) as (j1 & o1 & Hwf1 & Hfo & Hfs & Hv1 & H1 & ->).
  { unfold view, progress in Hv. injection Hv as Hk He Hf. destruct Hin as [[[He' Ha] Hc]|(p & k0 & og & d & Hm)].
    - assert (∃ o1, join_on_data fn uc_id false None j m = Ok o1 ∧ o = around [] o1 [Ack 0%nat]) as (o1 & H1 & ->).
      { unfold join_handle in H. destruct (body_type (body_ m)); try done; apply bind_Ok in H as (o1 & H & [= <-]); eauto. }
      unfold join_on_data in H1. apply bind_Ok in H1 as (f & Hj & H1). rewrite Hc in H1.
      eexists _, o1. split_and!; [| | | |exact H1|done]; cbn [j_counts j_fn]; [by apply inc_received_wf| | |].
      { unfold fn_own. by destruct (body_type (body_ m)). }
      { unfold fn_step. destruct (body_type (body_ m)); try done; exists f; (split; [done|by left]). }
      unfold is_eof. rewrite bool_decide_eq_false_2 by done. unfold view, progress, inc_received.
      cbn [jc_received jc_expected orb]. rewrite dget_or_dset, decide_True by done. by rewrite Hk, He, <- Hf.
    - unfold join_handle, join_on_eof in H. rewrite Hm in H. cbn [body_type] in H.
      apply bind_Ok in H as (o1 & H & [= <-]). eexists _, o1. split_and!; [| | | |exact H|done]; cbn [j_counts j_fn].
      { by apply set_expected_wf. }
      { unfold fn_own. by rewrite Hm. }
      { unfold fn_step. rewrite Hm. by left. }
      unfold is_eof. rewrite Hm, bool_decide_eq_true_2 by done. unfold view, progress, set_expected.
      cbn [jc_received jc_expected orb]. rewrite dget_dset_eq, Hk, <- Hf. by rewrite Z.add_0_r. }
  unfold view, progress in Hv1. injection Hv1 as Hk He Hf.
  assert (Hcomp : is_complete (j_counts j1) c =
    (is_eof m || eof) && (n <=? k + (if is_eof m then 0 else 1))).
  { unfold is_complete. rewrite He, Hk. by destruct (is_eof m || eof). }
  rewrite <- Hcomp. apply finalize_spec in H1 as [[-> [H1|H1]]|(f & rs & outs & Hf1 & Hc1 & Hr & Ho & ->)].
  - congruence.
  - eexists j1, _. split; [done|]. split; [done|]. rewrite H1. split; [|done]. unfold view, progress. congruence.
  - eexists _, _. split; [done|]. cbn [j_counts]. split; [by eauto with py|]. rewrite Hc1.
    exists (j_fn j1), f, rs. split; [done|]. split; [done|]. rewrite sends_acked, sends_Send.
    rewrite for_client_own; [done|]. by eapply responses_keys.
Qed.

Definition own c (ms : list Message) : list Message := filter (λ m, body_client (body_ m) = Some c) ms.
Definition n_data (ms : list Message) : nat := length (filter (λ m, is_eof m = false) ms).

Lemma n_data_cons m ms : Z.of_nat (n_data (m :: ms)) = (if is_eof m then 0 else 1) + Z.of_nat (n_data ms).
Proof.
  unfold n_data. destruct (is_eof m) eqn:E.
  - rewrite filter_cons_False by congruence. lia.
  - rewrite filter_cons_True by done. cbn [length]. lia.
Qed.

Lemma run_other j c ms j' outs :
  own c ms = [] → jc_wf (j_counts j) → answer_run j ms = Ok (j', outs) → for_client c outs = [].
Proof.
  revert j outs. induction ms as [|m ms IH]; intros j outs Hown Hwf H; cbn [answer_run] in H.
  { by injection H as _ <-. }
  unfold own in Hown. destruct (decide (body_client (body_ m) = Some c)) as [Hc|Hc].
  { by rewrite filter_cons_True in Hown. }
  rewrite filter_cons_False in Hown by done.
  apply bind_Ok in H as (o & Ho & H). destruct (handle_other _ _ _ _ Hc Hwf Ho) as (j1 & e & -> & Hwf1 & _ & He & _).
  apply bind_Ok in H as ([j2 outs2] & H & [= <- <-]).
  unfold for_client in *. rewrite filter_app, He. by eapply IH.
Qed.

(** Until its input is complete a client gets no answer. *)
Lemma run_quiet ms c n : ∀ j k (eof : bool) j' outs,
  Forall (own_input c n) (own c ms) → jc_wf (j_counts j) → view (j_counts j) c = progress k eof n →
  (existsb is_eof (own c ms) || eof = true → k + Z.of_nat (n_data (own c ms)) < n) →
  answer_run j ms = Ok (j', outs) →
  jc_wf (j_counts j') ∧ for_client c outs = [] ∧ fn_run c (j_fn j) ms (j_fn j') ∧
  view (j_counts j') c = progress (k + Z.of_nat (n_data (own c ms))) (existsb is_eof (own c ms) || eof) n.
Proof.
  induction ms as [|m ms IH]; intros j k eof j' outs Hin Hwf Hv Hq H; cbn [answer_run] in H.
  { injection H as <- <-. cbn. rewrite Z.add_0_r. split_and!; [done..|constructor|done]. }
  apply bind_Ok in H as (o & Ho & H). unfold own in *. destruct (decide (body_client (body_ m) = Some c)) as [Hc|Hc].
  - rewrite filter_cons_True in * by done. rewrite n_data_cons in Hq |- *. cbn [existsb] in Hq |- *.
    inversion_clear Hin as [|? ? Hm Hms].
    destruct (handle_own _ _ _ _ _ _ _ Hm Hwf Hv Ho) as (j1 & e & -> & Hwf1 & Hcase).
    apply bind_Ok in H as ([j2 outs2] & H & [= <- <-]).
    set (E := existsb is_eof (filter _ ms)) in *. set (D := Z.of_nat (n_data _)) in *.
    assert (HD : 0 ≤ D) by (unfold D; lia).
    assert (Hnot : (is_eof m || eof) && (n <=? k + (if is_eof m then 0 else 1)) = false).
    { destruct (is_eof m || eof) eqn:E1; [|done]. cbn [andb]. apply Z.leb_gt.
      assert (is_eof m || E || eof = true) as Ht by (destruct (is_eof m), E, eof; done).
      specialize (Hq Ht). lia. }
    rewrite Hnot in Hcase. destruct Hcase as (Hv1 & He & Hfs).
    destruct (IH j1 (k + (if is_eof m then 0 else 1)) (is_eof m || eof) j2 outs2 Hms Hwf1 Hv1) as (H1 & H2 & Hfr & H3); [|done|].
    { fold E D. intros Ht. apply Z.lt_le_trans with (k + ((if is_eof m then 0 else 1) + D) + 1); [lia|].
      assert (is_eof m || E || eof = true) as Ht' by (destruct (is_eof m), E, eof; done). specialize (Hq Ht'). lia. }
    split; [done|]. split; [unfold for_client in *; by rewrite filter_app, He, H2|].
    split; [by econstructor|]. rewrite H3. fold E D. f_equal; [lia|]. destruct (is_eof m), E, eof; done.
  - rewrite filter_cons_False in * by done.
    destruct (handle_other _ _ _ _ Hc Hwf Ho) as (j1 & e & -> & Hwf1 & Hv1 & He & Hfs).
    apply bind_Ok in H as ([j2 outs2] & H & [= <- <-]).
    destruct (IH j1 k eof j2 outs2 Hin Hwf1) as (H1 & H2 & Hfr & H3); [congruence|done..|].
    split; [done|]. split; [unfold for_client in *; by rewrite filter_app, He, H2|]. split; [by econstructor|done].
Qed.

(** The last message of a client in a list. *)
Lemma last_own c ms : own c ms ≠ [] →
  ∃ pre m post, ms = pre ++ m :: post ∧ body_client (body_ m) = Some c ∧ own c post = [].
Proof.
  unfold own. induction ms as [|m ms IH] using rev_ind; [done|]. rewrite filter_app, filter_cons.
  destruct (decide (body_client (body_ m) = Some c)) as [Hc|Hc].
  - intros _. by exists ms, m, [].
  - rewrite filter_nil, app_nil_r. intros (pre & m' & post & -> & Hm & Hp)%IH.
    exists pre, m', (post ++ [m]). split; [by rewrite <- app_assoc|]. split; [done|].
    rewrite filter_app, Hp. by rewrite filter_cons_False.
Qed.

(** A client's whole input: [n] data messages and one end of file. *)
Definition whole_input c (n : nat) (l : list Message) : Prop :=
  Forall (own_input c (Z.of_nat n)) l ∧ n_data l = n ∧ length l = S n.

Definition start_state (f0 : F) : JoinState F := mkJS jc_init f0.

Lemma start_state_wf f0 : jc_wf (j_counts (start_state f0)).
Proof. split_and!; [apply nil_wf..|apply NoDup_nil_2]. Qed.

(** A proper part of it is not complete. *)
Lemma part_incomplete c n l1 l2 :
  whole_input c n (l1 ++ l2) → l2 ≠ [] → existsb is_eof l1 = true → Z.of_nat (n_data l1) < Z.of_nat n.
Proof.
  intros (_ & Hd & Hl) Hne. rewrite existsb_count. intros He%bool_decide_eq_true. unfold n_data in *.
  pose proof (filter_bool_split is_eof l1). pose proof (filter_bool_split is_eof l2).
  rewrite filter_app, length_app in Hd. rewrite length_app in Hl. destruct l2; [done|]. cbn [length] in *. lia.
Qed.

(** With its last message it is. *)
Lemma whole_complete c n l m :
  whole_input c n (l ++ [m]) →
  (is_eof m || existsb is_eof l) && (Z.of_nat n <=? Z.of_nat (n_data l) + (if is_eof m then 0 else 1)) = true.
Proof.
  intros (_ & Hd & Hl). rewrite existsb_count. unfold n_data in *.
  pose proof (filter_bool_split is_eof l). rewrite filter_app, length_app in Hd. rewrite length_app in Hl. cbn in Hl.
  destruct (is_eof m) eqn:Em; cbn [orb].
  - rewrite filter_cons_False in Hd by congruence. cbn in Hd. apply andb_true_iff. split; [done|]. apply Z.leb_le. lia.
  - rewrite filter_cons_True in Hd by done. cbn in Hd. apply andb_true_iff.
    split; [apply bool_decide_eq_true; lia|apply Z.leb_le; lia].
Qed.

Lemma prefix_quiet f0 c n ms1 ms2 j1 outs1 :
  whole_input c n (own c (ms1 ++ ms2)) → own c ms2 ≠ [] →
  answer_run (start_state f0) ms1 = Ok (j1, outs1) →
  jc_wf (j_counts j1) ∧ for_client c outs1 = [] ∧ fn_run c f0 ms1 (j_fn j1) ∧
  view (j_counts j1) c = progress (Z.of_nat (n_data (own c ms1))) (existsb is_eof (own c ms1)) (Z.of_nat n).
Proof.
  unfold own at 1. rewrite filter_app. fold (own c ms1) (own c ms2). intros Hin Hne Hr.
  pose proof Hin as [Hall _]. apply Forall_app in Hall as [Hall _].
  destruct (run_quiet ms1 c (Z.of_nat n) _ 0 false j1 outs1 Hall (start_state_wf f0) eq_refl) as (H1 & H2 & Hfr & H3); [|done|].
  { rewrite orb_false_r. intros Ht. by apply (part_incomplete c n _ _ Hin Hne). }
  by rewrite orb_false_r in H3.
Qed.
End answers.

(** C22: a join node without a checkpoint answers each client exactly once and not
    early: when the input of a client is [n] data messages and one end of file
    announcing [n], in any order and interleaved with any messages of other
    clients, nothing is sent to it before the last of the [n + 1], and what is sent to
    it then, once, is the responses of the join function after every data message so
    far was joined, in order, the client's [n] among them, and nothing of the client
    was discarded. *)
Theorem join_answers_once `{MP : MsgPack} {F : Type} `{!Snapshotable F} (fn : JoinFn F) (uc_id : Z)
    (f0 : F) (c : uuid) (n : nat) (ms : list Message) (j : JoinState F) (outs : list JOut) :
  whole_input c n (own c ms) →
  answer_run fn uc_id (start_state f0) ms = Ok (j, outs) →
  answers fn uc_id c f0 ms outs ∧
  ∀ ms1 ms2 j1 outs1, ms = ms1 ++ ms2 → own c ms2 ≠ [] →
    answer_run fn uc_id (start_state f0) ms1 = Ok (j1, outs1) → for_client c outs1 = [].
Proof.
  intros Hin Hrun. split; [|intros ms1 ms2 j1 outs1 -> Hne Hr; exact (proj1 (proj2 (prefix_quiet fn uc_id f0 c n ms1 ms2 j1 outs1 Hin Hne Hr)))].
  destruct (last_own c ms) as (pre & m & post & -> & Hm & Hpost); [by destruct Hin as (_ & _ & Hl); destruct (own c ms)|].
  apply answer_run_app in Hrun as (j1 & o1 & o2 & H1 & H2 & ->).
  assert (Hown : own c (m :: post) = [m]) by (unfold own in *; by rewrite filter_cons_True, Hpost).
  destruct (prefix_quiet fn uc_id f0 c n pre (m :: post) j1 o1 Hin) as (Hwf1 & Ho1 & Hfr & Hv1); [by rewrite Hown|done|].
  unfold own at 1 in Hin. rewrite filter_app in Hin. fold (own c pre) (own c (m :: post)) in Hin. rewrite Hown in Hin.
  assert (Hmin : own_input c (Z.of_nat n) m).
  { destruct Hin as [Hall _]. apply Forall_app in Hall as [_ Hall]. by inversion_clear Hall. }
  cbn [answer_run] in H2. apply bind_Ok in H2 as (o & Ho & H2).
  destruct (handle_own fn uc_id j1 m c _ _ _ o Hmin Hwf1 Hv1 Ho) as (j2 & e & -> & Hwf2 & Hcase).
  apply bind_Ok in H2 as ([j3 outs3] & H2 & [= _ <-]).
  pose proof (run_other fn uc_id _ _ _ _ _ Hpost Hwf2 H2) as Ho3.
  rewrite (whole_complete c n _ _ Hin) in Hcase. destruct Hcase as (f & f' & rs & Hfo & Hr & Hout).
  exists pre, m, post, (j_fn j1), f, f', rs. split_and!; try done. unfold for_client in *. by rewrite filter_app, Ho1, filter_app, Ho3, app_nil_r.
Qed.

Section finalizing.
Context `{MP : MsgPack} {F : Type} `{!Snapshotable F} (fn : JoinFn F) (uc_id : Z).

(** A flush sends nothing. *)
Lemma flush_silent (cp : Checkpointer nat) (w : World F JoinCounts) :
  sends (checkpoint_and_flush cp w false).2 = [].
Proof.
  unfold checkpoint_and_flush. cbn [snd]. rewrite sends_app.
  destruct (cp_dirty cp || false); cbn [sends omap list_omap app]; by induction (cp_pending cp).
Qed.

Lemma finalize_now (cp : Checkpointer nat) (j : JoinState F) (c : uuid) f responses outs :
  is_finalized (j_counts j) c = false → is_complete (j_counts j) c = true →
  get_responses fn (j_fn j) c = Ok (f, responses) → mapR (send_response uc_id c) responses = Ok outs →
  cp_pending cp = [] →
  let j' := mkJS (mark_finalized (j_counts j) c) f in
  maybe_finalize fn uc_id false (Some cp) j c =
    Ok (Returned (Some (mkCP (cp_dedup cp) (cp_every cp) [] (cp_aborted cp) false)) (discard_client fn j' c)
          ((Send <$> outs) ++ [Save (blob_of cp (join_world j'))])).
Proof.
  intros Hf Hc Hr Ho Hp. unfold maybe_finalize. rewrite Hf, Hc. cbn [negb]. rewrite Hr. cbn [mbind res_bind].
  rewrite Ho. cbn [mbind res_bind]. unfold flush, checkpoint_and_flush. by rewrite Hp, orb_true_r.
Qed.

Lemma finalize_done locked (cp : option (Checkpointer nat)) (j : JoinState F) (c : uuid) :
  is_finalized (j_counts j) c = true → maybe_finalize fn uc_id locked cp j c = Ok (Returned cp j []).
Proof. intros Hf. unfold maybe_finalize. by rewrite Hf. Qed.
End finalizing.

(** The end of file that completes a client is answered durably: the responses go
    out, then the finalized mark is checkpointed, and only then is the end of file
    acknowledged; delivered again, also to a node that restarts from that
    checkpoint, it is acknowledged and sends nothing. *)
Theorem join_eof_finalizes `{MP : MsgPack} {F : Type} `{!Snapshotable F} (fn : JoinFn F) (uc_id : Z)
    (cp : Checkpointer nat) (j : JoinState F) (m : Message) (ack : nat) (c : uuid) (p n k o : Z) (d : pydict Z Z)
    (f : F) (responses : list Body) (outs : list JOut) :
  jc_wf (j_counts j) → body_ m = EOF c p n k o d → is_finalized (j_counts j) c = false →
  n ≤ dget_or 0 (jc_received (j_counts j)) c →
  get_responses fn (j_fn j) c = Ok (f, responses) → mapR (send_response uc_id c) responses = Ok outs →
  ∃ cp' j' before blob kf,
    join_handle fn uc_id (Some cp) j m ack =
      Ok (Returned (Some cp') j' (before ++ (Send <$> outs) ++ [Save blob] ++ [Ack ack])) ∧
    sends before = [] ∧
    restore_extra (default [] (b_extra blob)) [("counts"%string, jc_init)] = Ok [("counts"%string, kf)] ∧
    ∀ cp2 f2 ack2, ∃ cp3 j3 e, join_handle fn uc_id (Some cp2) (mkJS kf f2) m ack2 = Ok (Returned (Some cp3) j3 e) ∧ sends e = [].
Proof.
  intros Hwf Hm Hf Hle Hr Ho. set (kf := mark_finalized (set_expected (j_counts j) c n) c).
  unfold join_handle at 1, join_on_eof at 1. rewrite Hm. cbn [body_type]. unfold flush at 1.
  pose proof (flush_silent cp (join_world j)) as Hs1.
  destruct (checkpoint_and_flush cp (join_world j) false) as [cp1 e1] eqn:E1. cbn [snd] in Hs1.
  assert (Hp : cp_pending cp1 = []) by (unfold checkpoint_and_flush in E1; by injection E1 as <- _).
  rewrite (finalize_now fn uc_id cp1 _ c f responses outs); [|done| |done..].
  2: { unfold is_complete, set_expected. cbn [j_counts jc_expected jc_received]. rewrite dget_dset_eq. by apply Z.leb_le. }
  cbn [mbind res_bind around].
  eexists _, _, e1, _, kf. split; [by rewrite <- app_assoc|]. split; [done|]. split.
  - apply (restore_extra_spec [("counts"%string, jc_init)] [("counts"%string, kf)]); [|by apply (bool_decide_unpack (NoDup ["counts"%string]))].
    constructor; [|constructor]. split; [done|]. apply mark_finalized_wf, set_expected_wf, Hwf.
  - intros cp2 f2 ack2. unfold join_handle, join_on_eof. rewrite Hm. cbn [body_type]. unfold flush.
    pose proof (flush_silent cp2 (join_world (mkJS kf f2))) as Hs2.
    destruct (checkpoint_and_flush cp2 (join_world (mkJS kf f2)) false) as [cp3 e3]. cbn [snd] in Hs2.
    rewrite finalize_done by (apply smem_sadd; by right).
    cbn [mbind res_bind around]. eexists _, _, _. split; [done|]. by rewrite sends_app, Hs2.
Qed.

(** ** The handler and the shared dispatch *)

Section as_dispatch.
Context `{MP : MsgPack} {F : Type} `{!Snapshotable F} (fn : JoinFn F) (uc_id : Z).
Implicit Types (j : JoinState F) (m : Message).

(** The outcome of a handler, for a caller that does not expect it to wait. *)
Definition returned (o : outcome F)
    : res (option (Checkpointer nat) * JoinState F * list (effect F JoinCounts JOut nat)) :=
  match o with Returned cp j e => Ok (cp, j, e) | Deadlocked _ => Exc RuntimeError end.

Definition join_apply m j : res (JoinState F * list JOut) :=
  o ← join_on_data fn uc_id false None j m; '(_, j, e) ← returned o; Ok (j, sends e).

(** A data message that does not complete its client. *)
Definition not_last j m : Prop :=
  ∀ c, body_client (body_ m) = Some c →
    is_finalized (j_counts j) c = true ∨ is_complete (inc_received (j_counts j) c) c = false.

Lemma on_data_quiet locked cp j m :
  not_last j m →
  join_on_data fn uc_id locked cp j m =
    (f ← join fn (j_fn j) (body_ m); c ← of_opt AttributeError (body_client (body_ m));
     Ok (Returned cp (mkJS (inc_received (j_counts j) c) f) [])).
Proof.
  intros Hq. unfold join_on_data. destruct (join fn (j_fn j) (body_ m)) as [f|]; [|done]. cbn [mbind res_bind].
  destruct (body_client (body_ m)) as [c|] eqn:Hc; [|done]. cbn [of_opt mbind res_bind].
  unfold maybe_finalize. cbn [j_counts]. destruct (Hq c Hc) as [H|H].
  - change (is_finalized (inc_received (j_counts j) c) c) with (is_finalized (j_counts j) c). by rewrite H.
  - rewrite H. by destruct (is_finalized _ c).
Qed.

Lemma on_data_sends j m o : join_on_data fn uc_id false None j m = Ok o →
  ∃ j' outs, o = Returned None j' (Send <$> outs).
Proof.
  unfold join_on_data. intros H. apply bind_Ok in H as (f & _ & H). apply bind_Ok in H as (c & _ & H).
  apply finalize_spec in H as [[-> _]|(f' & rs & outs & _ & _ & _ & _ & ->)]; [by eexists _, []|by eexists _, outs].
Qed.

Lemma unlocked_data_as_dispatch j m ack :
  ((o ← join_on_data fn uc_id false None j m; Ok (around [] o [Ack ack])) ≫= returned) =
  ('(n, outs) ← join_apply m j; Ok (None, n, (Send <$> outs) ++ [Ack ack])).
Proof.
  unfold join_apply. destruct (join_on_data fn uc_id false None j m) as [o|] eqn:E; [|done].
  apply on_data_sends in E as (j' & outs & ->). cbn. by rewrite sends_Send.
Qed.

Lemma locked_data_as_dispatch cp j m ack :
  not_last j m →
  (locked_handle_data fn uc_id cp j m ack ≫= returned) =
  ('(cp, n, e) ← handle_data join_world join_apply cp j m ack; Ok (Some cp, n, e)).
Proof.
  intros Hq. unfold locked_handle_data, handle_data.
  destruct (body_client (body_ m)) as [c|] eqn:Hc; [|done]. cbn [of_opt mbind res_bind].
  destruct (smem c (cp_aborted cp)); [done|]. destruct (is_duplicate _ _ _); [done|].
  unfold join_apply. rewrite !on_data_quiet, Hc by done.
  destruct (join fn (j_fn j) (body_ m)) as [f|]; [|done]. cbn [of_opt mbind res_bind returned sends omap list_omap].
  destruct (_ >=? _); [|done]. by destruct (checkpoint_and_flush _ _ _).
Qed.
End as_dispatch.

(** The lock changes nothing but the deadlock: whenever a data message does not
    complete its client, or the node has no checkpoint, the handler does with a
    message of any kind what the dispatch shared by all the nodes does. *)
Theorem join_handle_is_dispatch `{MP : MsgPack} {F : Type} `{!Snapshotable F} (fn : JoinFn F) (uc_id : Z)
    (cp : option (Checkpointer nat)) (j : JoinState F) (m : Message) (ack : nat) :
  cp = None ∨ not_last j m →
  (o ← join_handle fn uc_id cp j m ack; returned o) =
  dispatch join_world (join_apply fn uc_id) cp j m ack
    (λ cp j m, o ← join_on_eof fn uc_id cp j m; returned o)
    (Some (λ cp j m, o ← join_on_abort fn cp j m; returned o)).
Proof.
  intros Hq. unfold join_handle, dispatch.
  destruct (body_type (body_ m));
    try (destruct cp as [cp|]; [destruct Hq as [?|Hq]; [done|]; by apply locked_data_as_dispatch
                               |apply unlocked_data_as_dispatch]).
  - destruct cp as [cp|]; cbn [flush].
    + unfold flush. destruct (checkpoint_and_flush cp _ false) as [cp1 e1].
      destruct (join_on_eof fn uc_id (Some cp1) j m) as [[]|]; done.
    + by destruct (join_on_eof fn uc_id None j m) as [[]|].
  - by destruct (join_on_abort fn cp j m) as [[]|].
Qed.

(** ** Concrete inputs *)

#[local] Existing Instance msgpack_model.

(** A join function that answers with one empty response. *)
Definition demo_join : JoinFn unit := {|
  join st _ := Ok st;
  get_responses st c := Ok (st, [response c "" true]);
  join_discard st _ := st
|}.
Definition demo_join_data (sq : Z) : Message := mkMsg (TransactionCount (uuid_lit 7) 3) (uuid_bytes (uuid_lit 2)) sq.
Definition demo_join_eof (n : Z) : Message := new_msg (EOF (uuid_lit 7) 0 n 0 0 []).

(** From a fresh node: one message, the end of file, and the last message. *)
Definition demo_waiting : res (outcome unit) :=
  o ← join_handle demo_join 5 (Some (cp_new 5)) (start_state tt) (demo_join_data 1) 1;
  match o with
  | Returned cp j _ => join_handle demo_join 5 cp j (demo_join_eof 2) 2
  | Deadlocked _ => Exc RuntimeError
  end.

Lemma late_data_deadlocks_witness :
  ∃ cp j e outs, demo_waiting = Ok (Returned (Some cp) j e) ∧
    join_handle demo_join 5 (Some cp) j (demo_join_data 2) 3 = Ok (Deadlocked (Send <$> outs)).
Proof.
  do 4 eexists. split; [vm_compute; reflexivity|].
  eapply (late_data_deadlocks demo_join 5 _ _ (demo_join_data 2) 3 (uuid_lit 7) tt tt); [done..| | | |].
  - split; [done|]. eexists. split; [reflexivity|]. done.
  - reflexivity.
  - reflexivity.
  - vm_compute. reflexivity.
Defined.

Lemma early_eof_not_durable_witness :
  ∃ cp' j' saved,
    join_handle demo_join 5 (Some (cp_new 5)) (start_state tt) (demo_join_eof 2) 1 =
      Ok (Returned (Some cp') j' (saved ++ [Ack 1%nat])) ∧
    dget (jc_expected (j_counts j')) (uuid_lit 7) = Some 2.
Proof.
  destruct (early_eof_not_durable demo_join 5 (cp_new 5) (start_state tt) (demo_join_eof 2) 1 (uuid_lit 7) 0 2 0 0 [])
    as (cp' & j' & saved & H1 & H2 & _); [reflexivity|done|]. by exists cp', j', saved.
Defined.

Lemma join_answers_once_witness :
  ∃ j outs, answer_run demo_join 5 (start_state tt) [demo_join_eof 2; demo_join_data 1; demo_join_data 2] = Ok (j, outs) ∧
    answers demo_join 5 (uuid_lit 7) tt [demo_join_eof 2; demo_join_data 1; demo_join_data 2] outs.
Proof.
  do 2 eexists. split; [vm_compute; reflexivity|].
  refine (proj1 (join_answers_once demo_join 5 tt (uuid_lit 7) 2
    [demo_join_eof 2; demo_join_data 1; demo_join_data 2] _ _ _ _)); [|vm_compute; reflexivity].
  split; [|done]. constructor; [right; by exists 0, 0, 0, []|].
  constructor; [left; by split; [split|]|]. constructor; [left; by split; [split|]|constructor].
Defined.

Lemma join_eof_finalizes_witness :
  ∃ cp' j' before blob outs,
    join_handle demo_join 5 (Some (cp_new 5)) (start_state tt) (demo_join_eof 0) 1 =
      Ok (Returned (Some cp') j' (before ++ (Send <$> outs) ++ [Save blob] ++ [Ack 1%nat])) ∧ sends (F := unit) before = [].
Proof.
  edestruct (join_eof_finalizes demo_join 5 (cp_new 5) (start_state tt) (demo_join_eof 0) 1 (uuid_lit 7) 0 0 0 0 [] tt)
    as (cp' & j' & before & blob & kf & H1 & H2 & _);
    [apply start_state_wf|reflexivity|reflexivity|done|reflexivity|vm_compute; reflexivity|].
  by eexists cp', j', before, blob, _.
Defined.
