(* ===== verification/Ring.v ===== *)
(** * The ring and its barrier: [common/comms/middleware/ring_rabbitmq.py] with
    [common/comms/eof_handler/ring_completion.py]

    The neighbours of a node, and the ring of completion components that pass the
    barrier tokens round: the composition that ends with one downstream end of
    file per client. *)

From S2P Require Import Prelude.
From S2P Require Import PyDict.
From S2P Require Import PyValues.
From S2P Require Import PyText.
From S2P Require Import RingCompletion.

(** ** [RingRabbitMQ] *)

(** [sorted] on ids *)
Definition sorted_ids (ids : list Z) : list Z := merge_sort Z.le ids.

Definition QUEUE_NAME_SUFFIX : string := "_queue".

Definition front_idx (self_id : Z) (peer_ids : list Z) : nat :=
  match list_find (λ p, self_id < p) peer_ids with Some (idx, _) => idx | None => 0%nat end.

Definition get_front_back_ids (self_id : Z) (peer_ids : list Z) : res (Z * Z) :=
  if bool_decide (self_id ∈ peer_ids) then Exc MOMRingError
  else
    let peer_ids := sorted_ids peer_ids in
    let npeers := length peer_ids in
    match peer_ids with
    | [] => Ok (self_id, self_id)
    | [p] => Ok (p, p)
    | _ =>
        let front_idx := front_idx self_id peer_ids in
        let back_idx := ((npeers + front_idx - 1) mod npeers)%nat in
        front_id ← of_opt IndexError (peer_ids !! front_idx);
        back_id ← of_opt IndexError (peer_ids !! back_idx);
        Ok (front_id, back_id)
    end.

Record RingMOM := mkRingMOM {
  rm_name : string;
  rm_id : Z;
  rm_peers : list Z;
  rm_front : Z;
  rm_back : Z
}.

Definition ring_mom_init (ring_name : string) (self_id : Z) (peer_ids : list Z) : res RingMOM :=
  '(front_id, back_id) ← get_front_back_ids self_id peer_ids;
  Ok (mkRingMOM ring_name self_id peer_ids front_id back_id).

Definition nnodes (r : RingMOM) : Z := 1 + Z.of_nat (length (rm_peers r)).

(** The queue a node consumes from, and the one the messages it sends reach. *)
Definition ring_queue_name (r : RingMOM) (i : Z) : string := rm_name r +:+ QUEUE_NAME_SUFFIX +:+ str_int i.
Definition self_queue_name (r : RingMOM) : string := ring_queue_name r (rm_id r).
Definition front_queue_name (r : RingMOM) : string := ring_queue_name r (rm_front r).

(** ** The shape of the ring *)

(** The peers node [i] is configured with, and its front. *)
Definition peers_of (ids : list Z) (i : Z) : list Z := filter (λ j, j ≠ i) ids.
Definition next_id (ids : list Z) (i : Z) : Z :=
  match get_front_back_ids i (peers_of ids i) with Ok (f, _) => f | Exc _ => i end.

Lemma sorted_ids_unique l l' : StronglySorted Z.le l → l ≡ₚ l' → sorted_ids l' = l.
Proof.
  intros Hs Hp. apply (StronglySorted_unique Z.le); [|done|].
  - apply StronglySorted_merge_sort; apply _.
  - unfold sorted_ids. by rewrite merge_sort_Permutation.
Qed.

(** The order in which the peers are listed does not matter. *)
Lemma get_front_back_ids_perm j js js' : js ≡ₚ js' → get_front_back_ids j js = get_front_back_ids j js'.
Proof.
  intros Hp. unfold get_front_back_ids. assert (sorted_ids js = sorted_ids js') as ->.
  { apply sorted_ids_unique; [apply StronglySorted_merge_sort; apply _|]. etransitivity; [apply merge_sort_Permutation|by symmetry]. }
  rewrite (bool_decide_ext (j ∈ js) (j ∈ js')); [done|]. by rewrite Hp.
Qed.

(** What sorting makes of the ids. *)
Lemma sorted_ids_spec ids : NoDup ids →
  NoDup (sorted_ids ids) ∧ StronglySorted Z.le (sorted_ids ids) ∧ sorted_ids ids ≡ₚ ids.
Proof.
  intros Hn. assert (Hp : sorted_ids ids ≡ₚ ids) by apply merge_sort_Permutation.
  split_and!; [by rewrite Hp|apply StronglySorted_merge_sort; apply _|done].
Qed.

Lemma StronglySorted_app_le (l1 l2 : list Z) x :
  StronglySorted Z.le (l1 ++ x :: l2) → NoDup (l1 ++ x :: l2) →
  StronglySorted Z.le (l1 ++ l2) ∧ Forall (λ y, y < x) l1 ∧ Forall (λ y, x < y) l2 ∧ x ∉ l1 ++ l2.
Proof.
  induction l1 as [|a l1 IH]; cbn [app].
  - intros Hs Hn. apply NoDup_cons in Hn as [Hx Hn]. inversion_clear Hs as [|? ? H1 H2].
    split_and!; [done|done| |done]. rewrite Forall_forall in H2 |- *. intros y Hy. specialize (H2 y Hy).
    destruct (decide (x = y)) as [->|]; [done|lia].
  - intros Hs Hn. apply NoDup_cons in Hn as [Ha Hn]. inversion_clear Hs as [|? ? H1 H2].
    destruct (IH H1 Hn) as (I1 & I2 & I3 & I4). rewrite Forall_app, Forall_cons in H2. destruct H2 as (Ha1 & Hax & Ha2).
    assert (a ≠ x) as Hne by (intros ->; apply Ha; apply elem_of_app; right; apply elem_of_cons; by left).
    split_and!; [constructor; [done|by apply Forall_app]|constructor; [lia|done]|done|].
    intros [<-|H]%elem_of_cons; done.
Qed.

(** The neighbours of the id between [l1] and [l2] in the sorted ring. *)
Lemma get_front_back_ids_spec (ids l1 l2 : list Z) (i : Z) :
  NoDup ids → sorted_ids ids = l1 ++ i :: l2 →
  get_front_back_ids i (peers_of ids i) =
    Ok (default i (head (l2 ++ l1)), default i (last (l2 ++ l1))).
Proof.
  intros Hn Hs. destruct (sorted_ids_spec ids Hn) as (Hn' & Hss & Hp). rewrite Hs in *.
  destruct (StronglySorted_app_le _ _ _ Hss Hn') as (Hs12 & H1 & H2 & Hi).
  assert (Hpeers : sorted_ids (peers_of ids i) = l1 ++ l2).
  { apply sorted_ids_unique; [done|]. unfold peers_of. rewrite <- Hp. rewrite filter_app, filter_cons_False by (intros []; done).
    rewrite !filter_Forall_all; [done|..]; eapply Forall_impl; try eassumption; cbn; lia. }
  unfold get_front_back_ids. rewrite bool_decide_eq_false_2; cycle 1.
  { unfold peers_of. rewrite list_elem_of_filter. by intros [? _]. }
  rewrite Hpeers. cbv zeta.
  assert (Hf1 : list_find (λ p, i < p) l1 = None).
  { apply list_find_None. eapply Forall_impl; [exact H1|]. cbn. lia. }
  destruct l2 as [|b l2].
  - rewrite app_nil_r. cbn [app]. destruct l1 as [|a [|a' l1]]; [done..|].
    set (l := a :: a' :: l1) in *. unfold front_idx. rewrite Hf1.
    change (l !! 0%nat) with (Some a). rewrite (Nat.mod_small (length l + 0 - 1)) by (cbn; lia).
    cbn [of_opt mbind res_bind head]. rewrite last_lookup. replace (length l + 0 - 1)%nat with (pred (length l)) by lia.
    destruct (l !! pred (length l)) eqn:E; [done|]. apply lookup_ge_None in E. cbn in E. lia.
  - assert (Hfind : front_idx i (l1 ++ b :: l2) = length l1).
    { unfold front_idx. inversion_clear H2 as [|? ? Hb _].
      rewrite (proj2 (list_find_app_Some _ l1 (b :: l2) (length l1) b)); [done|]. right.
      split; [done|]. split; [done|]. rewrite Nat.sub_diag. cbn. by rewrite decide_True. }
    rewrite Hfind. rewrite (list_lookup_middle l1 l2 b (length l1) eq_refl). destruct l1 as [|a l1].
    + cbn [app length]. rewrite app_nil_r. destruct l2 as [|b' l2]; [done|]. set (l := b :: b' :: l2) in *.
      rewrite (Nat.mod_small (length l + 0 - 1)) by (cbn; lia). cbn [of_opt mbind res_bind head].
      rewrite last_lookup. replace (length l + 0 - 1)%nat with (pred (length l)) by lia.
      destruct (l !! pred (length l)) eqn:E; [done|]. apply lookup_ge_None in E. cbn in E. lia.
    + set (m := a :: l1) in *. assert (Hm : ∃ x, last m = Some x) by (by apply last_is_Some).
      destruct Hm as [x Hx]. destruct (m ++ b :: l2) as [|y [|y' l']] eqn:E; [by destruct m|..].
      { destruct l1; cbn in E; by destruct m as [|? [|]]. }
      rewrite <- E, length_app.
      replace ((length m + length (b :: l2) + length m - 1) mod (length m + length (b :: l2)))%nat with (pred (length m)).
      2: { replace (length m + length (b :: l2) + length m - 1)%nat with (pred (length m) + 1 * (length m + length (b :: l2)))%nat by (subst m; cbn; lia).
           rewrite Nat.Div0.mod_add, Nat.mod_small; [done|subst m; cbn; lia]. }
      rewrite lookup_app_l by (subst m; cbn; lia). rewrite <- last_lookup, Hx.
      cbn [of_opt mbind res_bind head app default]. rewrite last_cons. by rewrite last_app, Hx.
Qed.

(** The ids in ring order; the front of a node is the next one, round the ring. *)
Definition succ_pos (n k : nat) : nat := if decide (S k < n)%nat then S k else 0%nat.

Lemma next_id_lookup ids k i : NoDup ids → sorted_ids ids !! k = Some i →
  sorted_ids ids !! succ_pos (length ids) k = Some (next_id ids i).
Proof.
  intros Hn Hk. pose proof (take_drop_middle _ _ _ Hk) as Hs. symmetry in Hs.
  unfold next_id. rewrite (get_front_back_ids_spec ids _ _ i Hn Hs).
  destruct (sorted_ids_spec ids Hn) as (_ & _ & Hp). apply Permutation_length in Hp.
  pose proof (lookup_lt_Some _ _ _ Hk) as Hlt. rewrite Hp in Hlt. unfold succ_pos. case_decide as Hd.
  - destruct (sorted_ids ids !! S k) as [j|] eqn:E; [|apply lookup_ge_None in E; lia].
    by rewrite (drop_S _ j _ E).
  - rewrite drop_ge by lia. cbn [app]. destruct (sorted_ids ids) as [|a s] eqn:E; [done|].
    destruct k as [|k]; [|done]. cbn in Hk |- *. congruence.
Qed.

Lemma prev_id_lookup ids k i : NoDup ids → sorted_ids ids !! k = Some i →
  ∃ b, get_front_back_ids (next_id ids i) (peers_of ids (next_id ids i)) = Ok (next_id ids (next_id ids i), b) ∧ b = i.
Proof.
  intros Hn Hk. pose proof (next_id_lookup ids k i Hn Hk) as Hj. set (j := next_id ids i) in *.
  destruct (sorted_ids_spec ids Hn) as (_ & _ & Hp). apply Permutation_length in Hp.
  pose proof (lookup_lt_Some _ _ _ Hk) as Hlt. rewrite Hp in Hlt.
  pose proof (take_drop_middle _ _ _ Hj) as Hs. symmetry in Hs.
  unfold next_id. rewrite (get_front_back_ids_spec ids _ _ j Hn Hs). eexists. split; [done|].
  unfold succ_pos in *. case_decide as Hd.
  - rewrite (take_S_r _ _ _ Hk), app_assoc, last_app. done.
  - cbn [take]. rewrite app_nil_r. destruct k as [|k].
    + replace (length ids) with 1%nat in * by lia. destruct (sorted_ids ids) as [|a [|a' s]]; [done| |done].
      cbn in *. congruence.
    + assert (last (drop 1 (sorted_ids ids)) = last (sorted_ids ids)) as ->.
      { destruct (sorted_ids ids) as [|a [|a' s]]; cbn in Hp; [lia|lia|done]. }
      rewrite last_lookup, Hp. replace (pred (length ids)) with (S k) by lia. by rewrite Hk.
Qed.

(** ** The ring of completion components

    A node handles its own input ([Local]) and the tokens of the queue it
    consumes from; a token it forwards goes to its front. [Deliver k] takes the
    [k]-th token under way, whatever the order; [Redeliver k] is a delivery
    whose acknowledgement was lost. *)

Record RingSystem := mkRing {
  ring_ids : list Z;
  ring_nodes : gmap Z RingCompletion;
  ring_flight : list (Z * BarrierToken)     (* the node it is for *)
}.

Inductive ring_event := Local (i : Z) (e : rc_event) | Deliver (k : nat) | Redeliver (k : nat).

Definition ring_init (ids : list Z) : RingSystem :=
  mkRing ids (list_to_map ((λ i, (i, rc_init i (peers_of ids i))) <$> ids)) [].

Definition forwards (ids : list Z) (i : Z) (acts : list Action) : list (Z * BarrierToken) :=
  omap (λ a, match a with Forward t => Some (next_id ids i, t) | _ => None end) acts.

(** What node [i] tells its controller, besides forwarding. *)
Definition upcalls (i : Z) (acts : list Action) : list (Z * Action) :=
  omap (λ a, match a with Forward _ => None | _ => Some (i, a) end) acts.

Definition node_step (r : RingSystem) (i : Z) (e : rc_event) : RingSystem * list (Z * Action) :=
  match ring_nodes r !! i with
  | None => (r, [])
  | Some rc =>
      let '(rc, acts) := rc_step rc e in
      (mkRing (ring_ids r) (<[i := rc]> (ring_nodes r)) (ring_flight r ++ forwards (ring_ids r) i acts), upcalls i acts)
  end.

Definition take_token (r : RingSystem) (k : nat) : RingSystem :=
  mkRing (ring_ids r) (ring_nodes r) (delete k (ring_flight r)).

Definition ring_step (r : RingSystem) (e : ring_event) : RingSystem * list (Z * Action) :=
  match e with
  | Local i e => node_step r i e
  | Deliver k =>
      match ring_flight r !! k with
      | Some (i, t) => node_step (take_token r k) i (EvToken t)
      | None => (r, [])
      end
  | Redeliver k =>
      match ring_flight r !! k with
      | Some (i, t) => node_step r i (EvToken t)
      | None => (r, [])
      end
  end.

Definition ring_run : RingSystem → list ring_event → RingSystem * list (Z * Action) := run_steps ring_step.

(** ** The configuration of the nodes *)

(** The node with the least id closes the barriers. *)
Definition leader_id (ids : list Z) : Z := default 0 (head (sorted_ids ids)).
Definition ring_config (ids : list Z) (i : Z) : Z * Z * Z := (i, Z.of_nat (length ids), leader_id ids).

Lemma foldl_min_spec l : ∀ a, foldl Z.min a l ∈ a :: l ∧ Forall (λ x, foldl Z.min a l ≤ x) (a :: l).
Proof.
  induction l as [|b l IH]; intros a; cbn [foldl]; [split; [by apply list_elem_of_singleton|by constructor]|].
  destruct (IH (Z.min a b)) as [H1 H2]. rewrite Forall_cons in H2. destruct H2 as [Hm H2]. split.
  - apply elem_of_cons in H1 as [->|H1]; [|by do 2 (apply elem_of_cons; right)].
    destruct (Z.min_spec a b) as [[_ ->]|[_ ->]]; apply elem_of_cons; [by left|right; apply elem_of_cons; by left].
  - constructor; [lia|]. constructor; [lia|done].
Qed.

Lemma sorted_ids_head ids i : NoDup ids → i ∈ ids → sorted_ids ids !! 0%nat = Some (leader_id ids) ∧ leader_id ids ≤ i.
Proof.
  intros Hn Hi. destruct (sorted_ids_spec ids Hn) as (_ & Hs & Hp). unfold leader_id.
  rewrite <- Hp in Hi. destruct (sorted_ids ids) as [|a s]; [by apply not_elem_of_nil in Hi|]. split; [done|].
  cbn. apply elem_of_cons in Hi as [->|Hi]; [done|]. inversion_clear Hs as [|? ? _ Hf]. rewrite Forall_forall in Hf. by apply Hf.
Qed.

Lemma leader_in ids i : NoDup ids → i ∈ ids → leader_id ids ∈ ids.
Proof.
  intros Hn Hi. destruct (sorted_ids_head ids i Hn Hi) as [H%list_elem_of_lookup_2 _].
  destruct (sorted_ids_spec ids Hn) as (_ & _ & Hp). by rewrite Hp in H.
Qed.

Lemma peers_of_perm ids i : NoDup ids → i ∈ ids → i :: peers_of ids i ≡ₚ ids.
Proof.
  intros Hn (l1 & l2 & ->)%list_elem_of_split. unfold peers_of. rewrite filter_app, filter_cons_False by (intros []; done).
  apply NoDup_app in Hn as (_ & Hd & Hn). apply NoDup_cons in Hn as [Hi2 _].
  rewrite !filter_Forall_all; [apply Permutation_middle|..]; apply Forall_forall; intros x Hx ->; [done|].
  apply (Hd i Hx). apply elem_of_cons. by left.
Qed.

Lemma rc_init_config ids i : NoDup ids → i ∈ ids → rc_config (rc_init i (peers_of ids i)) = ring_config ids i.
Proof.
  intros Hn Hi. pose proof (peers_of_perm ids i Hn Hi) as Hp. unfold rc_config, ring_config, rc_init. cbn [node_id n_nodes leader].
  destruct (foldl_min_spec (peers_of ids i) i) as [H1 H2]. rewrite Hp in H1, H2.
  destruct (sorted_ids_head ids _ Hn H1) as [_ Hle]. rewrite Forall_forall in H2.
  specialize (H2 _ (leader_in ids i Hn Hi)). rewrite <- (Permutation_length Hp). cbn [length]. f_equal; [f_equal|]; lia.
Qed.

Lemma next_in ids i : NoDup ids → i ∈ ids → next_id ids i ∈ ids.
Proof.
  intros Hn Hi. destruct (sorted_ids_spec ids Hn) as (_ & _ & Hp). rewrite <- Hp in Hi.
  apply list_elem_of_lookup in Hi as [k Hk]. apply next_id_lookup, list_elem_of_lookup_2 in Hk; [|done]. by rewrite Hp in Hk.
Qed.

(** The ring of a cluster is one cycle: whatever the order in which each node lists
    its peers, the node of rank [k] is built, its front is the node of the next
    rank (the least id after the greatest), the back of that front is the node
    itself, and what it sends reaches the queue its front consumes from; a node
    whose list of peers holds its own id is refused. *)
Theorem ring_is_one_cycle (ring_name : string) (ids peers : list Z) (k : nat) (i : Z) :
  NoDup ids → sorted_ids ids !! k = Some i → i :: peers ≡ₚ ids →
  (∃ r, ring_mom_init ring_name i peers = Ok r ∧ nnodes r = Z.of_nat (length ids) ∧
     sorted_ids ids !! succ_pos (length ids) k = Some (rm_front r) ∧
     ∀ peers', rm_front r :: peers' ≡ₚ ids →
       ∃ f, ring_mom_init ring_name (rm_front r) peers' = Ok f ∧ rm_back f = i ∧ front_queue_name r = self_queue_name f) ∧
  ring_mom_init ring_name i (i :: peers) = Exc MOMRingError.
Proof.
  intros Hn Hk Hp.
  assert (Hperm : ∀ j js, j :: js ≡ₚ ids → get_front_back_ids j js = get_front_back_ids j (peers_of ids j)).
  { intros j js Hj. assert (j ∈ ids) as Hj' by (rewrite <- Hj; apply elem_of_cons; by left).
    rewrite <- (peers_of_perm ids j Hn Hj') in Hj. apply Permutation_cons_inv in Hj.
    by apply get_front_back_ids_perm. }
  destruct (prev_id_lookup ids k i Hn Hk) as (b & Eb & ->). pose proof (next_id_lookup ids k i Hn Hk) as Hnext.
  split.
  - unfold ring_mom_init. rewrite (Hperm i peers Hp).
    pose proof (take_drop_middle _ _ _ Hk) as Hs. symmetry in Hs.
    unfold next_id in *. rewrite (get_front_back_ids_spec ids _ _ i Hn Hs) in *. cbn [mbind res_bind] in *.
    eexists. split; [done|]. split; [rewrite <- (Permutation_length Hp); unfold nnodes; cbn; lia|]. split; [done|].
    intros peers' Hp'. rewrite (Hperm _ _ Hp'). cbn [rm_front] in *. rewrite Eb. cbn [mbind res_bind]. eexists. split_and!; done.
  - unfold ring_mom_init, get_front_back_ids. rewrite bool_decide_eq_true_2; [done|]. apply elem_of_cons. by left.
Qed.

(** ** Concrete inputs: a ring of three *)

Definition demo_client : uuid := uuid_lit 7.
Definition demo_ids : list Z := [5; 1; 3].

Lemma ring_is_one_cycle_witness :
  ∃ r, ring_mom_init "r" 5 [3; 1] = Ok r ∧ rm_front r = 1 ∧ front_queue_name r = "r_queue1"%string.
Proof.
  destruct (ring_is_one_cycle "r" demo_ids [3; 1] 2 5) as [(r & H1 & _ & H2 & _) _].
  - apply (bool_decide_unpack _). vm_compute. exact I.
  - reflexivity.
  - unfold demo_ids. constructor. apply perm_swap.
  - exists r. vm_compute in H2. split; [exact H1|]. vm_compute in H1. injection H1 as <-. split; reflexivity.
Defined.
