(* ===== verification/RingBarrier.v ===== *)
(** * The barrier of a ring

    The ring of completion components of [Ring], seen by one client: what the
    tokens under way carry, the one announcement downstream with the totals of all
    the nodes, and the hops a token needs. *)

From S2P Require Import Prelude.
From S2P Require Import PyDict.
From S2P Require Import PyValues.
From S2P Require Import RingCompletion.
From S2P Require Import Ring.

(** ** Totals *)

Lemma dadd_all_foldl (d counts : shard_counts) : foldl (λ per_shard sn, dadd per_shard sn.1 sn.2) d counts = dadd_all d counts.
Proof. done. Qed.

Lemma sum_shards_total sb k : Forall (λ kv : Z * shard_counts, dict_wf kv.2) sb →
  dict_wf (sum_shards sb) ∧ dget_or 0 (sum_shards sb) k = zsum ((λ kv : Z * shard_counts, dget_or 0 kv.2 k) <$> sb).
Proof.
  intros Hw. unfold sum_shards, dvalues.
  enough (H : ∀ d, dict_wf d →
    let r := foldl (λ per_shard counts, foldl (λ per_shard sn, dadd per_shard sn.1 sn.2) per_shard counts) d (snd <$> sb) in
    dict_wf r ∧ dget_or 0 r k = dget_or 0 d k + zsum ((λ kv : Z * shard_counts, dget_or 0 kv.2 k) <$> sb)).
  { destruct (H [] (nil_wf (K:=Z))) as [H1 H2]. split; [done|]. rewrite H2. by cbn. }
  induction Hw as [|[i counts] sb Hc _ IH]; intros d Hd; csimpl; [split; [done|cbn; lia]|].
  cbn [snd] in Hc. destruct (IH (dadd_all d counts) (dadd_all_wf _ _ Hd)) as [H1 H2].
  rewrite dadd_all_foldl. split; [done|]. rewrite H2, dget_or_dadd_all, total_at_dict by done. cbn. lia.
Qed.

(** ** What the ring keeps, for one client that is never aborted *)

(** The counts a node reports for the client: those of its first report. *)
Definition report_of (c : uuid) (e : ring_event) (i : Z) : option shard_counts :=
  match e with
  | Local j (EvReport c' s) => if decide (j = i ∧ c' = c) then Some s else None
  | _ => None
  end.
Definition first_report (c : uuid) (es : list ring_event) (i : Z) : option shard_counts :=
  head (omap (λ e, report_of c e i) es).

(** Histories in which the client is not dropped; tokens only travel. *)
Definition ring_ev_ok (c : uuid) (e : ring_event) : Prop :=
  match e with
  | Local _ (EvDrop c') => c' ≠ c
  | Local _ (EvToken _) => False
  | Local _ e => ev_wf e
  | _ => True
  end.

Section client.
Context (ids : list Z) (c : uuid).
Context (Hn : NoDup ids).
Implicit Types (rep : Z → option shard_counts) (t : BarrierToken) (r : RingSystem) (rc : RingCompletion).

Abbreviation ldr := (leader_id ids).

Definition node_view (i : Z) (rp : option shard_counts) (x : Client) : Prop :=
  match rp with
  | None => phase x = PROCESSING
  | Some s => sent x = s ∧ (phase x = EMITTED ∨ i = ldr ∧ phase x = DONE)
  end.

Record node_ok rep (i : Z) rc : Prop := {
  ok_wf : rc_wf rc;
  ok_config : rc_config rc = ring_config ids i;
  ok_alive : is_aborted_ rc c = false;
  ok_view : node_view i (rep i) (cl rc c)
}.

(** A token of the client carries what the nodes it names have reported. *)
Record tok_ok rep t : Prop := {
  tok_wf : dict_wf (sent_by t);
  tok_from : tok_origin t = ldr;
  tok_opened : dget (sent_by t) ldr ≠ None;
  tok_reports : ∀ i s, dget (sent_by t) i = Some s → i ∈ ids ∧ rep i = Some s
}.

Definition flight_of r : list (Z * BarrierToken) := filter (λ x, tok_client x.2 = c) (ring_flight r).
Definition eofs_of (out : list (Z * Action)) : list (Z * shard_counts) :=
  omap (λ x, match x.2 with
             | DownstreamEOF c' s => if decide (c' = c) then Some (x.1, s) else None
             | _ => None end) out.
Definition lphase r : Phase :=
  match ring_nodes r !! ldr with Some rc => phase (cl rc c) | None => PROCESSING end.

Record ring_ok rep r : Prop := {
  ring_ok_ids : ring_ids r = ids;
  ring_ok_nodes : ∀ i, i ∈ ids → ∃ rc, ring_nodes r !! i = Some rc ∧ node_ok rep i rc;
  ring_ok_others : ∀ i, i ∉ ids → ring_nodes r !! i = None;
  ring_ok_dest : Forall (λ x, x.1 ∈ ids) (ring_flight r);
  ring_ok_tokens : Forall (λ x, tok_ok rep x.2) (flight_of r);
  ring_ok_reports : ∀ i s, rep i = Some s → dict_wf s
}.

(** The counts sent downstream are the totals of all the nodes' reports. *)
Definition exact_totals rep (cnt : shard_counts) : Prop :=
  (∀ i, i ∈ ids → rep i ≠ None) ∧
  ∀ shard, dget_or 0 cnt shard = zsum ((λ i, dget_or 0 (default [] (rep i)) shard) <$> ids).

Lemma tok_keys rep t i : tok_ok rep t → i ∈ dkeys (sent_by t) → i ∈ ids.
Proof.
  intros Ht ([j s] & -> & Hi)%list_elem_of_fmap. apply elem_dget in Hi; [|apply (tok_wf _ _ Ht)].
  by apply (tok_reports _ _ Ht) in Hi as [? _].
Qed.

Lemma full_token_exact rep t :
  tok_ok rep t → (∀ i s, rep i = Some s → dict_wf s) →
  (length ids ≤ length (sent_by t))%nat → exact_totals rep (sum_shards (sent_by t)).
Proof.
  intros Ht Hw Hlen. assert (Hp : dkeys (sent_by t) ≡ₚ ids).
  { apply submseteq_length_Permutation; [|by unfold dkeys; rewrite length_fmap].
    apply NoDup_submseteq; [eapply NoDup_fmap_1, (tok_wf _ _ Ht)|]. intros i. by apply (tok_keys rep). }
  assert (Hin : ∀ kv, kv ∈ sent_by t → rep kv.1 = Some kv.2).
  { intros [i s] Hi. apply elem_dget in Hi; [|apply (tok_wf _ _ Ht)]. by apply (tok_reports _ _ Ht) in Hi as [_ ?]. }
  split.
  - intros i Hi. rewrite <- Hp in Hi. apply list_elem_of_fmap in Hi as ([j s] & -> & Hi). by rewrite (Hin _ Hi).
  - intros shard. destruct (sum_shards_total (sent_by t) shard) as [_ ->].
    { apply Forall_forall. intros [i s] Hi. apply (Hw i). by apply (Hin _ Hi). }
    rewrite <- (zsum_perm _ _ (Permutation_map _ Hp)).
    change (map ?f ?l) with (f <$> l). unfold dkeys. rewrite <- list_fmap_compose. apply zsum_fmap_ext. intros kv Hkv. cbn. by rewrite (Hin _ Hkv).
Qed.

(** What a node does to a token it forwards. *)
Lemma fill_ok rep i rc t : i ∈ ids → node_ok rep i rc → tok_ok rep t → tok_ok rep (a_fill i (cl rc c) t).
Proof.
  intros Hi Hrc Ht. unfold a_fill. case_bool_decide as Hp; [done|].
  pose proof (ok_view _ _ _ Hrc) as Hv. destruct (rep i) as [s|] eqn:Er; [|by rewrite Hv in Hp]. destruct Hv as [<- _].
  split; cbn [sent_by tok_origin].
  - apply dset_wf, (tok_wf _ _ Ht).
  - apply (tok_from _ _ Ht).
  - rewrite dget_dset. case_decide; [done|apply (tok_opened _ _ Ht)].
  - intros j s'. rewrite dget_dset. case_decide as E; [|apply (tok_reports _ _ Ht)].
    assert (i = j) as -> by exact E. intros [= <-]. done.
Qed.

(** ** One step of a node, as the client sees it *)

(** The token a node handles, if it is the client's. *)
Definition handled (e : rc_event) : option BarrierToken :=
  match e with EvToken t => if decide (tok_client t = c) then Some t else None | _ => None end.

Inductive outcome rep (i : Z) (ph ph' : Phase) (fw : list (Z * BarrierToken)) (eofs : list (Z * shard_counts))
    : option BarrierToken → Prop :=
  | out_quiet : ph' = ph → fw = [] → eofs = [] → outcome rep i ph ph' fw eofs None
  | out_opened t : ph = PROCESSING → ph' = EMITTED → i = ldr → tok_ok rep t → fw = [(next_id ids i, t)] → eofs = [] →
      outcome rep i ph ph' fw eofs None
  | out_alone cnt : ph = PROCESSING → ph' = DONE → fw = [] → eofs = [(ldr, cnt)] → exact_totals rep cnt →
      outcome rep i ph ph' fw eofs None
  | out_passed t t' : ph' = ph → fw = [(next_id ids i, t')] → eofs = [] → tok_ok rep t' →
      (∀ j, dget (sent_by t) j ≠ None → dget (sent_by t') j ≠ None) →
      (rep i ≠ None → dget (sent_by t') i ≠ None) →
      (i = ldr → (length (sent_by t') < length ids)%nat) →
      outcome rep i ph ph' fw eofs (Some t)
  | out_closed t cnt : i = ldr → ph = EMITTED → ph' = DONE → fw = [] → eofs = [(ldr, cnt)] → exact_totals rep cnt →
      outcome rep i ph ph' fw eofs (Some t)
  | out_stale t : i = ldr → ph = DONE → ph' = DONE → fw = [] → eofs = [] → outcome rep i ph ph' fw eofs (Some t).

Lemma filter_forwards acts i :
  Forall (λ a, act_client a = c) acts → filter (λ x, tok_client x.2 = c) (forwards ids i acts) = forwards ids i acts.
Proof.
  intros H. apply filter_Forall_all, Forall_forall. intros [d t] Hx.
  apply list_elem_of_omap in Hx as (a & Ha & E). rewrite Forall_forall in H. specialize (H a Ha).
  destruct a; simplify_eq. done.
Qed.

Lemma filter_forwards_other acts i c' :
  c' ≠ c → Forall (λ a, act_client a = c') acts →
  filter (λ x, tok_client x.2 = c) (forwards ids i acts) = [] ∧ eofs_of (upcalls i acts) = [].
Proof.
  intros Hc. induction 1 as [|a acts Ha _ [IH1 IH2]]; [done|].
  destruct a as [c1|t|c1 s]; cbn [act_client] in Ha; subst; unfold forwards, upcalls, eofs_of in *; csimpl.
  - done.
  - rewrite filter_cons_False by done. done.
  - by destruct (decide (c' = c)).
Qed.

(** The phases of the leader and of the others. *)
Lemma view_not_processing i s x : node_view i (Some s) x → bool_decide (phase x = PROCESSING) = false.
Proof. intros [_ [->|[_ ->]]]; done. Qed.

Definition report_at rep (i : Z) (e : rc_event) : Z → option shard_counts :=
  match e with
  | EvReport c' s =>
      if decide (c' = c)
      then λ j, match rep j with Some s' => Some s' | None => if decide (i = j) then Some s else None end
      else rep
  | _ => rep
  end.

Lemma report_at_same rep i e : (∀ s, e ≠ EvReport c s) → report_at rep i e = rep.
Proof. intros H. destruct e as [| | |c' s|]; try done. cbn. case_decide; [subst; by destruct (H s)|done]. Qed.

(** A token carried on by [a_advance]: forwarded, closed, or dropped as stale. *)
Lemma advance_cases rep i rc t :
  i ∈ ids → node_ok rep i rc → (∀ i s, rep i = Some s → dict_wf s) → tok_client t = c → tok_ok rep t →
  let t' := a_fill i (cl rc c) t in
  let '(x', acts) := a_advance (ring_config ids i) (cl rc c) t' in
  (acts = [Forward t'] ∧ x' = cl rc c ∧ (i = ldr → (length (sent_by t') < length ids)%nat)) ∨
  (i = ldr ∧ phase (cl rc c) = EMITTED ∧ phase x' = DONE ∧ sent x' = sent (cl rc c) ∧
     ∃ cnt, acts = [DownstreamEOF c cnt] ∧ exact_totals rep cnt) ∨
  (i = ldr ∧ phase (cl rc c) = DONE ∧ x' = cl rc c ∧ acts = []).
Proof.
  intros Hi Hrc Hw Hc Ht t'. pose proof (fill_ok rep i rc t Hi Hrc Ht) as Ht'. fold t' in Ht'.
  assert (Hc' : tok_client t' = c) by (unfold t', a_fill; by case_bool_decide).
  unfold a_advance, ring_config. destruct (Z.of_nat (length (sent_by t')) <? Z.of_nat (length ids)) eqn:El; cbn [orb].
  { left. split_and!; [done|done|]. intros _. apply Z.ltb_lt in El. lia. }
  apply Z.ltb_ge in El. rewrite (tok_from _ _ Ht'). destruct (ldr =? i) eqn:Ei; cbn [negb].
  2: { left. split_and!; [done|done|]. intros ->. by rewrite Z.eqb_refl in Ei. }
  apply Z.eqb_eq in Ei. subst i. case_bool_decide as Hd; right; [by right|left].
  split; [done|]. pose proof (ok_view _ _ _ Hrc) as Hv. unfold node_view in Hv.
  destruct (rep ldr) as [s|] eqn:Er.
  - destruct Hv as [_ [Hv|[_ Hv]]]; [|done]. split_and!; [done..|]. eexists. rewrite Hc'. split; [done|].
    apply full_token_exact; [done|done|lia].
  - destruct (dget (sent_by t') ldr) as [s|] eqn:E; [|by destruct (tok_opened _ _ Ht')].
    apply (tok_reports _ _ Ht') in E as [_ E]. congruence.
Qed.

Lemma node_ok_of_abs rep i rc' x' :
  rc_wf rc' → rc_config rc' = ring_config ids i → abs rc' c = (false, x') → node_view i (rep i) x' → node_ok rep i rc'.
Proof. intros H1 H2 H3 H4. injection H3 as H5 H6. split; [done|done|done|]. by rewrite H6. Qed.

(** The leader's own report opens the barrier, and closes it in a ring of one. *)
Lemma advance_opened i snt x t :
  i = ldr → t = mkToken c ldr [(i, snt)] → phase x = EMITTED →
  a_advance (ring_config ids i) x t =
    if (1 <? length ids)%nat then (x, [Forward t])
    else (mkClient (expected x) (received x) (sent x) DONE, [DownstreamEOF c (sum_shards (sent_by t))]).
Proof.
  intros -> -> Hx. unfold a_advance, ring_config. cbn [sent_by tok_origin tok_client length]. rewrite Z.eqb_refl, orb_false_r, Hx.
  destruct (1 <? length ids)%nat eqn:E.
  - apply Nat.ltb_lt in E. by rewrite (proj2 (Z.ltb_lt (Z.of_nat 1) _)) by lia.
  - apply Nat.ltb_ge in E. rewrite (proj2 (Z.ltb_ge (Z.of_nat 1) _)) by lia. done.
Qed.

Lemma opened_tok_ok rep snt : ldr ∈ ids → rep ldr = Some snt → tok_ok rep (mkToken c ldr [(ldr, snt)]).
Proof.
  intros Hi Hr. split; [apply (dset_wf [] ldr snt (nil_wf (K:=Z)))|done|..]; cbn [sent_by].
  - cbn. by rewrite decide_True.
  - intros i s. cbn. case_decide as E; [|done]. assert (ldr = i) as <- by exact E. intros [= <-]. done.
Qed.

(** Is the phase of node [i] the leader's? *)
Definition phase_at (i : Z) (x : Client) : Phase := if decide (i = ldr) then phase x else PROCESSING.

Lemma report_outcome rep i x snt :
  i ∈ ids → node_view i (rep i) x → dict_wf snt → (∀ j s, rep j = Some s → dict_wf s) →
  let rep' := report_at rep i (EvReport c snt) in
  let '(s, acts) := astep (ring_config ids i) (false, x) (EvReport c snt) in
  s.1 = false ∧ node_view i (rep' i) s.2 ∧ (i ≠ ldr → phase s.2 ≠ DONE) ∧
  outcome rep' i (phase_at i x) (phase_at i s.2) (forwards ids i acts) (eofs_of (upcalls i acts)) None.
Proof.
  intros Hi Hv Hsnt Hw rep'. unfold ring_config, phase_at. cbn [astep].
  assert (Hrep : rep' i = match rep i with Some s => Some s | None => Some snt end).
  { unfold rep', report_at. rewrite decide_True by done. destruct (rep i); [done|]. by rewrite decide_True. }
  destruct (rep i) as [s|] eqn:Er.
  { rewrite (view_not_processing _ _ _ Hv), Hrep. cbn [fst snd].
    split_and!; [done|done| |by apply out_quiet]. intros Hl. destruct Hv as [_ [->|[-> _]]]; done. }
  unfold node_view in Hv. rewrite bool_decide_eq_true_2, Hrep by done.
  destruct (i =? ldr) eqn:El.
  2: { apply Z.eqb_neq in El. cbn [fst snd]. rewrite !decide_False by done.
       split_and!; [done|split; [done|by left]|done|by apply out_quiet]. }
  apply Z.eqb_eq in El. subst i. set (x1 := mkClient _ _ _ EMITTED).
  change (ldr, Z.of_nat (length ids), ldr) with (ring_config ids ldr).
  rewrite (advance_opened ldr snt x1 _ eq_refl eq_refl eq_refl).
  pose proof (opened_tok_ok rep' snt Hi Hrep) as Ht.
  destruct (1 <? length ids)%nat eqn:E; cbn [fst snd]; rewrite !decide_True by done.
  - split_and!; [done|split; [done|by left]|done|]. by eapply out_opened.
  - split_and!; [done|split; [done|by right]|done|].
    apply (out_alone _ _ _ _ _ _ (sum_shards [(ldr, snt)])); [done|done|done| |].
    + unfold eofs_of, upcalls. cbn. by rewrite decide_True.
    + apply (full_token_exact rep' (mkToken c ldr [(ldr, snt)])); [done| |cbn; apply Nat.ltb_ge in E; lia].
      intros j s. unfold rep', report_at. rewrite decide_True by done.
      destruct (rep j) eqn:Ej; [intros [= <-]; by eapply Hw|]. case_decide; [by intros [= <-]|done].
Qed.

Lemma token_outcome rep i rc t :
  i ∈ ids → node_ok rep i rc → (∀ j s, rep j = Some s → dict_wf s) → tok_client t = c → tok_ok rep t →
  let '(s, acts) := astep (ring_config ids i) (false, cl rc c) (EvToken t) in
  s.1 = false ∧ node_view i (rep i) s.2 ∧ (i ≠ ldr → phase s.2 ≠ DONE) ∧
  outcome rep i (phase_at i (cl rc c)) (phase_at i s.2) (forwards ids i acts) (eofs_of (upcalls i acts)) (Some t).
Proof.
  intros Hi Hrc Hw Hc Ht. pose proof (advance_cases rep i rc t Hi Hrc Hw Hc Ht) as H. cbv zeta in H.
  pose proof (ok_view _ _ _ Hrc) as Hv. pose proof (fill_ok rep i rc t Hi Hrc Ht) as Ht'.
  unfold phase_at. cbn [astep]. change (i, Z.of_nat (length ids), ldr) with (ring_config ids i).
  unfold ring_config at 1. cbv iota beta.
  destruct (a_advance _ _ _) as [x' acts]. cbn [fst snd].
  destruct H as [(-> & -> & Hlen)|[(-> & Hp & Hp' & Hs' & cnt & -> & Hex)|(-> & Hp & -> & ->)]].
  - split_and!; [done|done| |].
    + intros Hl. unfold node_view in Hv. destruct (rep i); [|by rewrite Hv]. destruct Hv as [_ [->|[-> _]]]; done.
    + eapply out_passed; [done|done|done|done| | |done].
      * intros j Hj. unfold a_fill. case_bool_decide; [done|]. cbn [sent_by]. rewrite dget_dset. by case_decide.
      * intros Hr. unfold a_fill. destruct (rep i) as [s|]; [|done]. rewrite (view_not_processing _ _ _ Hv).
        cbn [sent_by]. rewrite dget_dset. by case_decide.
  - rewrite !decide_True by done. split_and!; [done| |done|].
    + unfold node_view in *. destruct (rep ldr); [|congruence]. destruct Hv as [<- _]. split; [done|by right].
    + eapply (out_closed _ _ _ _ _ _ _ cnt); try done. unfold eofs_of, upcalls. cbn. by rewrite decide_True.
  - rewrite !decide_True by done. split_and!; [done|done|done|]. by apply out_stale.
Qed.

(** One event at a node of the ring: the invariant holds for the reports so far,
    and the client sees one of the outcomes. *)
Lemma rc_step_outcome rep i rc e :
  i ∈ ids → node_ok rep i rc → ev_wf e → e ≠ EvDrop c → (∀ j s, rep j = Some s → dict_wf s) →
  (∀ t, handled e = Some t → tok_ok rep t) →
  let rep' := report_at rep i e in
  let '(rc', acts) := rc_step rc e in
  node_ok rep' i rc' ∧ (i ≠ ldr → phase (cl rc' c) ≠ DONE) ∧
  outcome rep' i (phase_at i (cl rc c)) (phase_at i (cl rc' c))
    (filter (λ x, tok_client x.2 = c) (forwards ids i acts)) (eofs_of (upcalls i acts)) (handled e).
Proof.
  intros Hi Hrc Hev Hdrop Hw Htok rep'.
  pose proof (rc_step_wf rc e (ok_wf _ _ _ Hrc) Hev) as Hwf'.
  destruct (rc_step_abs rc e (proj1 (ok_wf _ _ _ Hrc))) as (Habs & Hout & Hcfg).
  specialize (Habs c). pose proof (astep_client (rc_config rc) (abs rc (ev_client e)) e) as Hcl. rewrite <- Hout in Hcl.
  destruct (rc_step rc e) as [rc' acts] eqn:Estep. cbn [fst snd] in *.
  rewrite (ok_config _ _ _ Hrc) in *. pose proof (ok_view _ _ _ Hrc) as Hv.
  assert (Habs0 : abs rc c = (false, cl rc c)) by (unfold abs; by rewrite (ok_alive _ _ _ Hrc)).
  assert (Hdone : i ≠ ldr → phase (cl rc c) ≠ DONE).
  { intros Hl. unfold node_view in Hv. destruct (rep i); [|by rewrite Hv]. destruct Hv as [_ [->|[-> _]]]; done. }
  destruct (decide (ev_client e = c)) as [Hc|Hc].
  - rewrite Hc, Habs0 in *. rewrite filter_forwards by done.
    assert (Hs : ∀ s acts', astep (ring_config ids i) (false, cl rc c) e = (s, acts') →
      s.1 = false ∧ node_view i (rep' i) s.2 ∧ (i ≠ ldr → phase s.2 ≠ DONE) ∧
      outcome rep' i (phase_at i (cl rc c)) (phase_at i s.2) (forwards ids i acts') (eofs_of (upcalls i acts')) (handled e) →
      node_ok rep' i rc' ∧ (i ≠ ldr → phase (cl rc' c) ≠ DONE) ∧
      outcome rep' i (phase_at i (cl rc c)) (phase_at i (cl rc' c)) (forwards ids i acts) (eofs_of (upcalls i acts)) (handled e)).
    { intros s acts' E (H1 & H2 & H3 & H4). rewrite E in Habs, Hout. cbn [fst snd] in Habs, Hout. subst acts'.
      destruct s as [ab x']. cbn in H1. subst ab. injection Habs as Hal Hx. cbn [snd] in *. rewrite Hx.
      split; [|done]. split; [done|congruence|done|by rewrite Hx]. }
    clear Hcl Habs Hout Estep. destruct (astep (ring_config ids i) (false, cl rc c) e) as [s acts'] eqn:E.
    apply (Hs _ _ eq_refl). clear Hs. destruct e as [c'|c' n|c'|c' snt|t]; cbn [ev_client] in Hc; subst.
    1-2: cbn in E; injection E as <- <-; unfold a_emit; destruct (complete _); (split_and!; [done|done|done|by apply out_quiet]).
    + done.
    + pose proof (report_outcome rep i (cl rc c) snt Hi Hv Hev Hw) as H. cbv zeta in H. by rewrite E in H.
    + cbn [handled] in *. rewrite decide_True in * by done.
      pose proof (token_outcome rep i rc t Hi Hrc Hw Hc (Htok t eq_refl)) as H. by rewrite E in H.
  - destruct (filter_forwards_other acts i (ev_client e) Hc Hcl) as [-> ->].
    assert (Hrep : rep' = rep) by (apply report_at_same; intros s ->; done). rewrite Hrep.
    assert (handled e = None) as -> by (destruct e; try done; cbn; by rewrite decide_False).
    rewrite Habs0 in Habs. injection Habs as Hal Hx. rewrite Hx.
    split; [split; [done|congruence|done|by rewrite Hx]|]. split; [done|by apply out_quiet].
Qed.

(** ** One step of the ring *)

Lemma report_at_other rep i e j : i ≠ j → report_at rep i e j = rep j.
Proof. intros H. destruct e; try done. cbn. case_decide; [|done]. rewrite decide_False by done. by destruct (rep j). Qed.

Lemma report_at_mono rep i e j s : rep j = Some s → report_at rep i e j = Some s.
Proof. intros H. destruct e; try done. cbn. case_decide; [|done]. by rewrite H. Qed.

Lemma report_at_wf rep i e : ev_wf e → (∀ j s, rep j = Some s → dict_wf s) → ∀ j s, report_at rep i e j = Some s → dict_wf s.
Proof.
  intros He Hw j s. destruct e as [| | |c' s'|]; try apply Hw. cbn in *. case_decide; [|apply Hw].
  destruct (rep j) eqn:E; [intros [= <-]; by eapply Hw|]. case_decide; [by intros [= <-]|done].
Qed.

Lemma tok_ok_mono rep rep' t : (∀ j s, rep j = Some s → rep' j = Some s) → tok_ok rep t → tok_ok rep' t.
Proof. intros H [H1 H2 H3 H4]. split; [done..|]. intros i s Hi. destruct (H4 i s Hi). auto. Qed.

Lemma exact_totals_mono rep rep' cnt : (∀ j s, rep j = Some s → rep' j = Some s) → exact_totals rep cnt → exact_totals rep' cnt.
Proof.
  intros H [H1 H2]. assert (Heq : ∀ i, i ∈ ids → rep' i = rep i).
  { intros i Hi. specialize (H1 i Hi). destruct (rep i) eqn:E; [by apply H|done]. }
  split; [intros i Hi; rewrite Heq by done; by apply H1|]. intros shard. rewrite H2. apply zsum_fmap_ext. intros i Hi. by rewrite Heq.
Qed.

Lemma outcome_lift rep i r r' x x' fw eofs h :
  (if decide (i = ldr) then lphase r = phase x ∧ lphase r' = phase x' else lphase r' = lphase r) →
  outcome rep i (phase_at i x) (phase_at i x') fw eofs h → outcome rep i (lphase r) (lphase r') fw eofs h.
Proof.
  unfold phase_at. intros Hl Ho. destruct (decide (i = ldr)) as [Hi|Hi]; [by destruct Hl as [-> ->]|].
  destruct Ho; subst; try done.
  - by apply out_quiet.
  - by eapply out_passed.
Qed.

Lemma flight_of_app r i nodes acts :
  flight_of (mkRing ids nodes (ring_flight r ++ forwards ids i acts)) =
  flight_of r ++ filter (λ x, tok_client x.2 = c) (forwards ids i acts).
Proof. unfold flight_of. cbn. by rewrite filter_app. Qed.

Lemma forwards_dest i acts : i ∈ ids → Forall (λ x, x.1 ∈ ids) (forwards ids i acts).
Proof.
  intros Hi. apply Forall_forall. intros [d t] Hx. apply list_elem_of_omap in Hx as (a & _ & E).
  destruct a; simplify_eq. by apply next_in.
Qed.

Lemma outcome_tokens rep i ph ph' fw eofs h : outcome rep i ph ph' fw eofs h → Forall (λ x, tok_ok rep x.2) fw.
Proof. destruct 1; subst; [done| |done| |done..]; by constructor. Qed.

Lemma node_step_ok rep r i e :
  ring_ok rep r → i ∈ ids → ev_wf e → e ≠ EvDrop c → (∀ t, handled e = Some t → tok_ok rep t) →
  let rep' := report_at rep i e in
  let '(r', out) := node_step r i e in
  ring_ok rep' r' ∧ ∃ fw, flight_of r' = flight_of r ++ fw ∧
    outcome rep' i (lphase r) (lphase r') fw (eofs_of out) (handled e).
Proof.
  intros Hr Hi Hev Hdrop Htok rep'. unfold node_step.
  destruct (ring_ok_nodes _ _ Hr i Hi) as (rc & Erc & Hrc). rewrite Erc.
  pose proof (rc_step_outcome rep i rc e Hi Hrc Hev Hdrop (ring_ok_reports _ _ Hr) Htok) as H. cbv zeta in H.
  destruct (rc_step rc e) as [rc' acts]. destruct H as (Hrc' & _ & Ho). rewrite (ring_ok_ids _ _ Hr).
  pose proof (report_at_mono rep i e) as Hmono. fold rep' in Hmono, Ho, Hrc'.
  split; [split; cbn [ring_ids ring_nodes ring_flight]|eexists; split; [apply flight_of_app|]].
  - done.
  - intros j Hj. destruct (decide (i = j)) as [<-|Hne]; [exists rc'; by rewrite lookup_insert_eq|].
    destruct (ring_ok_nodes _ _ Hr j Hj) as (rcj & Ej & [H1 H2 H3 H4]). exists rcj. rewrite lookup_insert_ne by done.
    split; [done|]. split; [done..|]. unfold rep'. by rewrite report_at_other.
  - intros j Hj. rewrite lookup_insert_ne by (intros ->; done). by apply (ring_ok_others _ _ Hr).
  - apply Forall_app. split; [apply (ring_ok_dest _ _ Hr)|by apply forwards_dest].
  - rewrite flight_of_app. apply Forall_app. split; [|by eapply outcome_tokens].
    eapply Forall_impl; [apply (ring_ok_tokens _ _ Hr)|]. intros x. by apply tok_ok_mono.
  - by apply report_at_wf, (ring_ok_reports _ _ Hr).
  - eapply outcome_lift, Ho. unfold lphase. cbn [ring_nodes]. case_decide as Hd.
    + subst i. rewrite Erc. by rewrite lookup_insert_eq.
    + by rewrite lookup_insert_ne.
Qed.

(** How far the barrier has come: closed, open, or not opened yet. *)
Definition barrier_ok rep r (eofs : list (Z * shard_counts)) : Prop :=
  match lphase r with
  | PROCESSING => flight_of r = [] ∧ eofs = []
  | EMITTED => flight_of r ≠ [] ∧ eofs = []
  | DONE => ∃ cnt, eofs = [(ldr, cnt)] ∧ exact_totals rep cnt
  end.

(** Without redeliveries at most one token of the client is under way. *)
Definition linear r : Prop := length (flight_of r) = match lphase r with EMITTED => 1%nat | _ => 0%nat end.

Definition ring_report rep (e : ring_event) : Z → option shard_counts :=
  match e with Local i e => report_at rep i e | _ => rep end.


(** A token of the client under way at position [k]. *)
Lemma flight_split r k i t : ring_flight r !! k = Some (i, t) → tok_client t = c →
  ∃ l1 l2, flight_of r = l1 ++ (i, t) :: l2 ∧ flight_of (take_token r k) = l1 ++ l2.
Proof.
  intros Hk Hc. unfold flight_of, take_token. cbn [ring_flight].
  exists (filter (λ x, tok_client x.2 = c) (take k (ring_flight r))), (filter (λ x, tok_client x.2 = c) (drop (S k) (ring_flight r))).
  rewrite <- (take_drop_middle _ _ _ Hk) at 1. rewrite filter_app, filter_cons_True by done.
  by rewrite delete_take_drop, filter_app.
Qed.

Lemma flight_other r k i t : ring_flight r !! k = Some (i, t) → tok_client t ≠ c → flight_of (take_token r k) = flight_of r.
Proof.
  intros Hk Hc. unfold flight_of, take_token. cbn [ring_flight]. rewrite delete_take_drop.
  rewrite <- (take_drop_middle _ _ _ Hk) at 3. by rewrite !filter_app, filter_cons_False.
Qed.

Lemma take_token_ok rep r k : ring_ok rep r → ring_ok rep (take_token r k).
Proof.
  intros [H1 H2 H3 H4 H5 H6]. split; [done|done|done| | |done].
  - cbn. rewrite delete_take_drop. apply Forall_app. split; [by apply Forall_take|by apply Forall_drop].
  - unfold flight_of in *. rewrite Forall_forall in H5 |- *. intros x [Hx1 Hx2]%list_elem_of_filter. apply H5.
    apply list_elem_of_filter. split; [done|]. cbn in Hx2. eapply elem_of_submseteq; [exact Hx2|].
    apply sublist_submseteq, sublist_delete.
Qed.

Lemma flight_leader rep r i t :
  i ∈ ids → ring_ok rep r → (i, t) ∈ flight_of r → lphase r ≠ PROCESSING.
Proof.
  intros Hi Hr Ht Hp. pose proof (ring_ok_tokens _ _ Hr) as Hf. rewrite Forall_forall in Hf. pose proof (Hf _ Ht) as Htok. cbn in Htok.
  destruct (ring_ok_nodes _ _ Hr ldr (leader_in ids i Hn Hi)) as (rc & Erc & Hrc). unfold lphase in Hp. rewrite Erc in Hp.
  pose proof (ok_view _ _ _ Hrc) as Hv. destruct (dget (sent_by t) ldr) eqn:E; [|by destruct (tok_opened _ _ Htok)].
  apply (tok_reports _ _ Htok) in E as [_ E]. rewrite E in Hv. destruct Hv as [_ [?|[_ ?]]]; congruence.
Qed.

(** What an outcome does to the barrier; the other tokens under way are [fl]. *)
Lemma outcome_barrier rep rep' r r' i h fw fl eofs eofs' :
  (∀ j s, rep j = Some s → rep' j = Some s) →
  barrier_ok rep r eofs → outcome rep' i (lphase r) (lphase r') fw eofs' h →
  flight_of r' = fl ++ fw → (h = None → fl = flight_of r) → (h ≠ None → lphase r ≠ PROCESSING) →
  barrier_ok rep' r' (eofs ++ eofs').
Proof.
  intros Hm Hb Ho Hf Hnone Hsome. unfold barrier_ok in *.
  destruct Ho as [Hp -> ->|t Hp Hp' -> Ht -> ->|cnt Hp Hp' -> -> Hex|t t' Hp -> -> Ht _ _ _|t cnt -> Hp Hp' -> -> Hex|t -> Hp Hp' -> ->].
  - rewrite Hp, Hf, (Hnone eq_refl), !app_nil_r.
    destruct (lphase r); [done|done|]. destruct Hb as (cnt & -> & H). exists cnt. split; [done|]. by eapply exact_totals_mono.
  - rewrite Hp in Hb. destruct Hb as [_ ->]. rewrite Hp', Hf. split; [by destruct fl|done].
  - rewrite Hp in Hb. destruct Hb as [_ ->]. rewrite Hp'. by exists cnt.
  - rewrite Hp, (app_nil_r eofs). destruct (lphase r); [by destruct Hsome| |].
    + destruct Hb as [_ ->]. split; [rewrite Hf; by destruct fl|done].
    + destruct Hb as (cnt & -> & H). exists cnt. split; [done|]. by eapply exact_totals_mono.
  - rewrite Hp in Hb. destruct Hb as [_ ->]. rewrite Hp'. by exists cnt.
  - rewrite Hp in Hb. destruct Hb as (cnt & -> & H). rewrite Hp', app_nil_r. exists cnt. split; [done|]. by eapply exact_totals_mono.
Qed.

Lemma outcome_linear rep r r' i h fw fl eofs :
  linear r → outcome rep i (lphase r) (lphase r') fw eofs h → flight_of r' = fl ++ fw →
  length (flight_of r) = (length fl + if h is Some _ then 1 else 0)%nat → linear r'.
Proof.
  unfold linear. intros Hl Ho Hf Hlen. rewrite Hf, length_app. rewrite Hlen in Hl.
  destruct Ho; subst; cbn [length] in *; repeat match goal with H : lphase _ = _ |- _ => rewrite H in * end; lia.
Qed.

Definition no_redelivery (e : ring_event) : Prop := match e with Redeliver _ => False | _ => True end.

(** A node handles an event; [fl] are the client's other tokens. *)
Lemma node_step_barrier rep r0 r i e fl eofs :
  ring_ok rep r0 → barrier_ok rep r0 eofs → ring_ok rep r → lphase r = lphase r0 →
  i ∈ ids → ev_wf e → e ≠ EvDrop c → flight_of r = fl →
  (handled e = None → fl = flight_of r0) → (∀ t, handled e = Some t → (i, t) ∈ flight_of r0) →
  let rep' := report_at rep i e in
  let '(r', out) := node_step r i e in
  ring_ok rep' r' ∧ barrier_ok rep' r' (eofs ++ eofs_of out) ∧
  (linear r0 → length (flight_of r0) = (length fl + if handled e is Some _ then 1 else 0)%nat → linear r') ∧
  ∃ fw, flight_of r' = fl ++ fw ∧ outcome rep' i (lphase r0) (lphase r') fw (eofs_of out) (handled e).
Proof.
  intros Hr0 Hb Hr Hph Hi Hev Hdrop Hfl Hnone Hin rep'.
  assert (Htok : ∀ t, handled e = Some t → tok_ok rep t).
  { intros t Ht. pose proof (ring_ok_tokens _ _ Hr0) as Hf. rewrite Forall_forall in Hf. apply (Hf (i, t)). by apply Hin. }
  pose proof (node_step_ok rep r i e Hr Hi Hev Hdrop Htok) as H. cbv zeta in H.
  destruct (node_step r i e) as [r' out]. destruct H as (Hr' & fw & Hf & Ho). rewrite Hfl in Hf. rewrite Hph in Ho.
  split; [done|]. split; [|split; [|by exists fw]].
  - eapply (outcome_barrier rep); [apply report_at_mono|exact Hb|exact Ho|exact Hf|done|].
    intros Hsome. destruct (handled e) as [t|]; [|done]. eapply (flight_leader rep); [exact Hi|done|by apply Hin].
  - intros Hl Hlen. eapply outcome_linear; [exact Hl|exact Ho|exact Hf|exact Hlen].
Qed.

Lemma ring_step_ok rep r e eofs :
  ring_ok rep r → barrier_ok rep r eofs → ring_ev_ok c e →
  let rep' := ring_report rep e in
  let '(r', out) := ring_step r e in
  ring_ok rep' r' ∧ barrier_ok rep' r' (eofs ++ eofs_of out) ∧ (linear r → no_redelivery e → linear r').
Proof.
  intros Hr Hb He rep'. destruct e as [i e|k|k]; cbn [ring_step ring_report] in *.
  - assert (Hev : ev_wf e) by (by destruct e).
    assert (Hd : e ≠ EvDrop c) by (intros ->; by apply He).
    assert (Hh : handled e = None) by (by destruct e).
    destruct (decide (i ∈ ids)) as [Hi|Hi].
    + pose proof (node_step_barrier rep r r i e (flight_of r) eofs Hr Hb Hr eq_refl Hi Hev Hd eq_refl (λ _, eq_refl)) as H.
      cbv zeta in H. rewrite Hh in H. destruct (node_step r i e) as [r' out]. fold rep' in H.
      destruct H as (H1 & H2 & H3 & _); [done|]. split_and!; [done|done|]. intros Hl _. apply H3; [done|lia].
    + unfold node_step. rewrite (ring_ok_others _ _ Hr i Hi). cbn. rewrite app_nil_r.
      assert (Hsame : ∀ j, j ∈ ids → rep' j = rep j) by (intros j Hj; apply report_at_other; by intros ->).
      assert (Hm : ∀ j s, rep j = Some s → rep' j = Some s) by apply report_at_mono.
      split_and!; [|unfold barrier_ok in *; destruct (lphase r); [done|done|]; destruct Hb as (cnt & -> & H); exists cnt;
        split; [done|by eapply exact_totals_mono]|done].
      destruct Hr as [H1 H2 H3 H4 H5 H6]. split; [done| |done|done| |by apply report_at_wf].
      * intros j Hj. destruct (H2 j Hj) as (rc & E & [? ? ? ?]). exists rc. split; [done|]. split; [done..|]. by rewrite Hsame.
      * eapply Forall_impl; [exact H5|]. intros x. by apply tok_ok_mono.
  - destruct (ring_flight r !! k) as [[i t]|] eqn:Ek; [|cbn; rewrite app_nil_r; done].
    pose proof (ring_ok_dest _ _ Hr) as Hd. rewrite Forall_forall in Hd.
    pose proof (Hd _ (list_elem_of_lookup_2 _ _ _ Ek)) as Hi. cbn in Hi.
    destruct (decide (tok_client t = c)) as [Hc|Hc].
    + destruct (flight_split r k i t Ek Hc) as (l1 & l2 & E1 & E2).
      pose proof (node_step_barrier rep r (take_token r k) i (EvToken t) (l1 ++ l2) eofs Hr Hb (take_token_ok _ _ _ Hr) eq_refl Hi I) as H.
      cbv zeta in H. cbn [handled report_at] in H. rewrite decide_True in H by done.
      destruct (node_step (take_token r k) i (EvToken t)) as [r' out].
      destruct H as (H1 & H2 & H3 & _); [done|done|done| |].
      { intros t' [= <-]. rewrite E1. apply elem_of_app. right. apply elem_of_cons. by left. }
      split_and!; [done|done|]. intros Hl _. apply H3; [done|]. rewrite E1, !length_app. cbn. lia.
    + pose proof (node_step_barrier rep r (take_token r k) i (EvToken t) (flight_of r) eofs Hr Hb (take_token_ok _ _ _ Hr) eq_refl Hi I) as H.
      cbv zeta in H. cbn [handled report_at] in H. rewrite decide_False in H by done.
      destruct (node_step (take_token r k) i (EvToken t)) as [r' out].
      destruct H as (H1 & H2 & H3 & _); [done|by eapply flight_other|done|done|].
      split_and!; [done|done|]. intros Hl _. apply H3; [done|lia].
  - destruct (ring_flight r !! k) as [[i t]|] eqn:Ek; [|cbn; rewrite app_nil_r; done].
    pose proof (ring_ok_dest _ _ Hr) as Hd. rewrite Forall_forall in Hd.
    pose proof (Hd _ (list_elem_of_lookup_2 _ _ _ Ek)) as Hi. cbn in Hi.
    pose proof (node_step_barrier rep r r i (EvToken t) (flight_of r) eofs Hr Hb Hr eq_refl Hi I) as H.
    cbv zeta in H. cbn [handled report_at] in H.
    destruct (node_step r i (EvToken t)) as [r' out].
    destruct H as (H1 & H2 & _); [done|done|done| |split_and!; done].
    intros t' Ht'. case_decide; [|done]. injection Ht' as <-. apply list_elem_of_filter. split; [done|]. by eapply list_elem_of_lookup_2.
Qed.

(** ** Runs *)

Lemma run_report_first es : ∀ rep i,
  foldl ring_report rep es i = match rep i with Some s => Some s | None => first_report c es i end.
Proof.
  induction es as [|e es IH]; intros rep i; cbn [foldl]; [by destruct (rep i)|]. rewrite IH.
  unfold first_report. cbn [omap list_omap]. destruct e as [j e|k|k]; cbn [ring_report report_of]; [|done..].
  destruct e as [| | |c' s|]; cbn [report_at]; try done.
  destruct (decide (c' = c)) as [Hc|Hc].
  - destruct (rep i); [done|]. destruct (decide (j = i)) as [Hj|Hj].
    + by rewrite (decide_True (P := j = i ∧ c' = c)).
    + by rewrite (decide_False (P := j = i ∧ c' = c)) by tauto.
  - by rewrite (decide_False (P := j = i ∧ c' = c)) by tauto.
Qed.

Lemma ring_init_ok : ring_ok (λ _, None) (ring_init ids) ∧ barrier_ok (λ _, None) (ring_init ids) [] ∧ linear (ring_init ids).
Proof.
  assert (Hl : ∀ i, ring_nodes (ring_init ids) !! i = if decide (i ∈ ids) then Some (rc_init i (peers_of ids i)) else None).
  { intros i. cbn. case_decide as Hi.
    - apply elem_of_list_to_map_1; [by rewrite <- list_fmap_compose, list_fmap_id|].
      apply list_elem_of_fmap. by exists i.
    - apply not_elem_of_list_to_map_1. by rewrite <- list_fmap_compose, list_fmap_id. }
  assert (Hp : lphase (ring_init ids) = PROCESSING) by (unfold lphase; rewrite Hl; by case_decide).
  split_and!; [split|unfold barrier_ok; by rewrite Hp|unfold linear; by rewrite Hp]; try done.
  - intros i Hi. rewrite Hl, decide_True by done. eexists. split; [done|].
    split; [apply rc_init_wf|by apply rc_init_config|done|done].
  - intros i Hi. by rewrite Hl, decide_False.
Qed.

Lemma eofs_of_app o1 o2 : eofs_of (o1 ++ o2) = eofs_of o1 ++ eofs_of o2.
Proof. unfold eofs_of. by rewrite omap_app. Qed.

Lemma ring_run_ok es : ∀ rep r eofs,
  ring_ok rep r → barrier_ok rep r eofs → Forall (ring_ev_ok c) es →
  let '(r', out) := ring_run r es in
  ring_ok (foldl ring_report rep es) r' ∧ barrier_ok (foldl ring_report rep es) r' (eofs ++ eofs_of out) ∧
  (linear r → Forall no_redelivery es → linear r').
Proof.
  induction es as [|e es IH]; intros rep r eofs Hr Hb He; cbn [foldl]; unfold ring_run in *; cbn [run_steps].
  { by rewrite app_nil_r. }
  inversion_clear He as [|? ? He1 He2]. pose proof (ring_step_ok rep r e eofs Hr Hb He1) as H. cbv zeta in H.
  destruct (ring_step r e) as [r1 o1]. destruct H as (H1 & H2 & H3).
  pose proof (IH _ _ _ H1 H2 He2) as H. destruct (run_steps ring_step r1 es) as [r2 o2].
  rewrite eofs_of_app, app_assoc. destruct H as (I1 & I2 & I3). split_and!; [done|done|].
  intros Hl Hnr. inversion_clear Hnr as [|? ? Hnr1 Hnr2]. auto.
Qed.

(** ** How long a token may travel *)
















End client.

(** ** The claims *)

(** C29: the barrier is exact: in a ring of any nodes, whatever the interleaving of their
    events with the deliveries of the tokens, in any order and with redeliveries,
    a client that is not aborted is announced downstream at most once, by the node
    with the least id, only after every node has reported what it sent, and the
    count announced for each shard is the total of all the nodes' reports. *)
Theorem ring_barrier_exact (ids : list Z) (c : uuid) (es : list ring_event) :
  NoDup ids → Forall (ring_ev_ok c) es →
  let out := (ring_run (ring_init ids) es).2 in
  eofs_of c out = [] ∨
  ∃ cnt, eofs_of c out = [(leader_id ids, cnt)] ∧
    (∀ i, i ∈ ids → first_report c es i ≠ None) ∧
    ∀ shard, dget_or 0 cnt shard = zsum ((λ i, dget_or 0 (default [] (first_report c es i)) shard) <$> ids).
Proof.
  intros Hn He out. destruct (ring_init_ok ids c Hn) as (Hr & Hb & _).
  pose proof (ring_run_ok ids c Hn es _ _ _ Hr Hb He) as H. unfold out. destruct (ring_run (ring_init ids) es) as [r' o]. cbn [snd] in *.
  destruct H as (_ & H & _). unfold barrier_ok in H. cbn [app] in H. destruct (lphase ids c r'); [by left; destruct H|by left; destruct H|].
  right. destruct H as (cnt & -> & H1 & H2). exists cnt. split; [done|].
  assert (Hf : ∀ i, foldl (ring_report c) (λ _, None) es i = first_report c es i) by (intros i; by rewrite run_report_first).
  split; [intros i Hi; rewrite <- Hf; by apply H1|]. intros shard. rewrite H2. apply zsum_fmap_ext. intros i _. by rewrite Hf.
Qed.


(** ** Concrete inputs: a ring of three *)

Definition demo_reports : list ring_event :=
  [Local 3 (EvReport demo_client [(0, 2)]); Local 1 (EvReport demo_client [(0, 1); (1, 4)]); Deliver 0;
   Local 5 (EvReport demo_client [(1, 3)])].
Definition demo_turns : list ring_event := [Deliver 0; Deliver 0; Deliver 0; Deliver 0].

Lemma ring_barrier_exact_witness :
  let out := (ring_run (ring_init demo_ids) (demo_reports ++ demo_turns)).2 in
  ∃ cnt, eofs_of demo_client out = [(1, cnt)] ∧ dget_or 0 cnt 1 = 7.
Proof.
  destruct (ring_barrier_exact demo_ids demo_client (demo_reports ++ demo_turns)) as [H|(cnt & H1 & _ & H2)].
  - apply (bool_decide_unpack _). vm_compute. exact I.
  - repeat (apply Forall_cons; split; [first [exact I | apply (bool_decide_unpack _); vm_compute; exact I]|]). apply Forall_nil. exact I.
  - exfalso. vm_compute in H. discriminate.
  - exists cnt. split; [exact H1|]. rewrite (H2 1). vm_compute. reflexivity.
Defined.

