(* ===== verification/Connection.v ===== *)
(** * Framing: [common/comms/transport/connection.py]

    Messages over a TCP stream, each preceded by its length in four bytes. What a
    socket delivers is a list of chunks, one per [recv] that would take it whole;
    an empty chunk, or the end of the list, is the peer that closed. *)

From S2P Require Import Prelude.
From S2P Require Import PyDict.
From S2P Require Import PyValues.

Definition LEN_SIZE : nat := 4.

Record Connection := mkConn {
  conn_keep_running : bool;
  conn_in : list bytes;       (* what the socket has yet to deliver *)
  conn_out : bytes            (* what has been written to it *)
}.

Definition conn_open (chunks : list bytes) : Connection := mkConn true chunks [].

(** [send] *)
Definition conn_send (s : Connection) (bytes2 : bytes) : res Connection :=
  len_bytes ← to_bytes_be LEN_SIZE (Z.of_nat (length bytes2));
  Ok (mkConn (conn_keep_running s) (conn_in s) (conn_out s ++ len_bytes ++ bytes2)).

(** [__recv_exact]: one chunk per turn of the loop, the rest of a longer chunk
    left for the next call. *)
Fixpoint recv_exact (missing : nat) (buf : bytes) (chunks : list bytes) : res (bytes * list bytes) :=
  match missing with
  | O => Ok (buf, chunks)
  | _ =>
      match chunks with
      | [] | [] :: _ => Exc OSError
      | chunk :: chunks =>
          if (length chunk <=? missing)%nat
          then recv_exact (missing - length chunk) (buf ++ chunk) chunks
          else Ok (buf ++ take missing chunk, drop missing chunk :: chunks)
      end
  end.

(** [recv]: an error is an empty message when the connection was closed here. *)
Definition conn_recv (s : Connection) : res (bytes * Connection) :=
  let r :=
    '(len_bytes, chunks) ← recv_exact LEN_SIZE [] (conn_in s);
    recv_exact (Z.to_nat (be_combine len_bytes)) [] chunks in
  match r with
  | Ok (bytes2, chunks) => Ok (bytes2, mkConn (conn_keep_running s) chunks (conn_out s))
  | Exc OSError => if conn_keep_running s then Exc OSError else Ok ([], s)
  | Exc e => Exc e
  end.

(** [close]: shutting down a socket that is no longer connected is an error. *)
Definition conn_close (connected : bool) (s : Connection) : Connection * res unit :=
  (mkConn false [] (conn_out s), guard_exc OSError connected).

(** ** Lemmas *)

Definition solid (chunks : list bytes) : Prop := Forall (λ c, c ≠ []) chunks.

Lemma recv_exact_enough chunks : ∀ missing buf data rest,
  solid chunks → List.concat chunks = data ++ rest → length data = missing →
  ∃ chunks', recv_exact missing buf chunks = Ok (buf ++ data, chunks') ∧ solid chunks' ∧ List.concat chunks' = rest.
Proof.
  induction chunks as [|c chunks IH]; intros missing buf data rest Hs Hc Hl.
  { cbn in Hc. symmetry in Hc. apply app_eq_nil in Hc as [-> ->]. cbn in Hl. subst. exists []. cbn. by rewrite app_nil_r. }
  destruct missing as [|n].
  { apply length_zero_iff_nil in Hl. subst. cbn. exists (c :: chunks). by rewrite app_nil_r. }
  inversion_clear Hs as [|? ? Hne Hs']. cbn [recv_exact]. destruct c as [|b c]; [done|].
  set (ch := b :: c) in *. destruct (length ch <=? S n)%nat eqn:E; cbn [List.concat] in Hc.
  - apply Nat.leb_le in E. assert (Hd : data = ch ++ drop (length ch) data).
    { rewrite <- (take_drop (length ch) data) at 1. f_equal.
      apply (f_equal (take (length ch))) in Hc. rewrite take_app_length, take_app_le in Hc by lia. done. }
    rewrite Hd in Hc. rewrite <- app_assoc in Hc. apply app_inv_head in Hc.
    destruct (IH (S n - length ch)%nat (buf ++ ch) (drop (length ch) data) rest Hs' Hc) as (chunks' & H1 & H2 & H3).
    { rewrite length_drop. lia. }
    exists chunks'. rewrite H1. split; [|done]. rewrite <- app_assoc. by rewrite <- Hd.
  - apply Nat.leb_gt in E. exists (drop (S n) ch :: chunks).
    assert (Hd : take (S n) ch = data).
    { apply (f_equal (take (S n))) in Hc. rewrite take_app_le in Hc by lia. rewrite Hc, <- Hl. apply take_app_length. }
    split; [by rewrite Hd|]. split.
    + constructor; [|done]. intros H. apply (f_equal length) in H. rewrite length_drop in H. cbn in H, E. lia.
    + cbn. rewrite <- (take_drop (S n) ch), <- app_assoc, Hd in Hc. by apply app_inv_head in Hc.
Qed.

Lemma recv_exact_short chunks : ∀ missing buf,
  (length (List.concat chunks) < missing)%nat → recv_exact missing buf chunks = Exc OSError.
Proof.
  induction chunks as [|c chunks IH]; intros [|n] buf Hl; cbn in Hl; try lia; [done|].
  cbn [recv_exact]. destruct c as [|b c]; [done|]. rewrite length_app in Hl.
  rewrite (proj2 (Nat.leb_le _ _)) by lia. apply IH. lia.
Qed.

(** A frame: the length and the message. *)
Definition frame (m : bytes) : bytes := be_split LEN_SIZE (Z.of_nat (length m)) ++ m.
Definition frameable (m : bytes) : Prop := Z.of_nat (length m) < 256 ^ 4.

Lemma conn_send_frame s m : frameable m →
  conn_send s m = Ok (mkConn (conn_keep_running s) (conn_in s) (conn_out s ++ frame m)).
Proof.
  intros Hm. unfold conn_send. rewrite to_bytes_be_range; [done|]. unfold frameable in Hm.
  change (256 ^ Z.of_nat LEN_SIZE) with (256 ^ 4). lia.
Qed.

Lemma conn_recv_frame s m rest :
  solid (conn_in s) → frameable m → List.concat (conn_in s) = frame m ++ rest →
  ∃ chunks, conn_recv s = Ok (m, mkConn (conn_keep_running s) chunks (conn_out s)) ∧ solid chunks ∧
    List.concat chunks = rest.
Proof.
  intros Hs Hm Hc. unfold frame in Hc. rewrite <- app_assoc in Hc.
  destruct (recv_exact_enough _ LEN_SIZE [] _ _ Hs Hc) as (c1 & H1 & Hs1 & Hc1); [by rewrite length_be_split|].
  assert (Hlen : Z.to_nat (be_combine (be_split LEN_SIZE (Z.of_nat (length m)))) = length m).
  { rewrite be_combine_split, Z.mod_small, Nat2Z.id; [done|]. unfold frameable in Hm.
    change (256 ^ Z.of_nat LEN_SIZE) with (256 ^ 4). lia. }
  destruct (recv_exact_enough c1 (length m) [] m rest Hs1 Hc1 eq_refl) as (c2 & H2 & Hs2 & Hc2).
  exists c2. unfold conn_recv. rewrite H1. cbn [mbind res_bind app]. rewrite Hlen, H2. done.
Qed.

(** ** Whole conversations *)

Fixpoint send_all (s : Connection) (ms : list bytes) : res Connection :=
  match ms with
  | [] => Ok s
  | m :: ms => s ← conn_send s m; send_all s ms
  end.

Fixpoint recv_n (n : nat) (s : Connection) : res (list bytes * Connection) :=
  match n with
  | O => Ok ([], s)
  | S n => '(m, s) ← conn_recv s; '(ms, s) ← recv_n n s; Ok (m :: ms, s)
  end.

Lemma send_all_frames ms s : Forall frameable ms →
  send_all s ms = Ok (mkConn (conn_keep_running s) (conn_in s) (conn_out s ++ List.concat (frame <$> ms))).
Proof.
  intros H. revert s. induction H as [|m ms Hm Hms IH]; intros s; cbn [send_all].
  { cbn. rewrite app_nil_r. by destruct s. }
  rewrite conn_send_frame by done. cbn [mbind res_bind]. rewrite IH. cbn. by rewrite <- app_assoc.
Qed.

Lemma recv_n_frames ms s rest :
  Forall frameable ms → solid (conn_in s) → List.concat (conn_in s) = List.concat (frame <$> ms) ++ rest →
  ∃ chunks, recv_n (length ms) s = Ok (ms, mkConn (conn_keep_running s) chunks (conn_out s)) ∧ solid chunks ∧
    List.concat chunks = rest.
Proof.
  intros H. revert s. induction H as [|m ms Hm Hms IH]; intros s Hs Hc; cbn [length recv_n].
  { exists (conn_in s). by destruct s. }
  cbn in Hc. rewrite <- app_assoc in Hc. destruct (conn_recv_frame s m _ Hs Hm Hc) as (c1 & E1 & Hs1 & Hc1).
  destruct (IH (mkConn (conn_keep_running s) c1 (conn_out s)) Hs1 Hc1) as (c2 & E2 & Hs2 & Hc2).
  exists c2. rewrite E1. cbn [mbind res_bind]. by rewrite E2.
Qed.

(** A stream that ends inside a frame. *)
Lemma conn_recv_cut s m n :
  conn_keep_running s = true → solid (conn_in s) → frameable m →
  (n < length (frame m))%nat → List.concat (conn_in s) = take n (frame m) → conn_recv s = Exc OSError.
Proof.
  intros Hk Hs Hm Hn Hc. unfold conn_recv. unfold frame in *. rewrite length_app, length_be_split in Hn.
  assert (Hlc : length (List.concat (conn_in s)) = n).
  { rewrite Hc, length_take, length_app, length_be_split. lia. }
  destruct (decide (n < LEN_SIZE)%nat) as [Hlt|Hge].
  { rewrite recv_exact_short by lia. cbn. by rewrite Hk. }
  rewrite take_app_ge in Hc by (rewrite length_be_split; lia). rewrite length_be_split in Hc.
  destruct (recv_exact_enough _ LEN_SIZE [] _ _ Hs Hc) as (c1 & H1 & Hs1 & Hc1); [by rewrite length_be_split|].
  rewrite H1. cbn [mbind res_bind app].
  rewrite be_combine_split, Z.mod_small, Nat2Z.id.
  - rewrite recv_exact_short; [by rewrite Hk|]. rewrite Hc1, length_take. lia.
  - unfold frameable in Hm. change (256 ^ Z.of_nat LEN_SIZE) with (256 ^ 4). lia.
Qed.

(** C25: framing loses and mixes nothing: whatever sequence of messages below 4 GiB is
    sent, and however the network cuts the bytes into chunks, the receiver gets
    these messages in order and stops where the last one ends; a stream that
    ends inside a frame is an error, and so is sending a longer message. *)
Theorem framing_roundtrip (ms : list bytes) (chunks : list bytes) (m : bytes) (n : nat) :
  Forall frameable ms → frameable m → solid chunks → (n < length (frame m))%nat →
  List.concat chunks = List.concat (frame <$> ms) ++ take n (frame m) →
  (∃ s, send_all (conn_open []) ms = Ok s ∧ conn_out s = List.concat (frame <$> ms)) ∧
  (∃ s, recv_n (length ms) (conn_open chunks) = Ok (ms, s) ∧ conn_recv s = Exc OSError) ∧
  (∀ big s, ¬ frameable big → conn_send s big = Exc OverflowError).
Proof.
  intros Hms Hm Hs Hn Hc. split_and!.
  - eexists. split; [by apply send_all_frames|done].
  - destruct (recv_n_frames ms (conn_open chunks) _ Hms Hs Hc) as (c1 & E & Hs1 & Hc1).
    eexists. split; [exact E|]. by eapply (conn_recv_cut _ m n).
  - intros big s Hb. unfold conn_send, to_bytes_be. rewrite bool_decide_eq_false_2; [done|].
    intros [_ H]. by apply Hb.
Qed.

Lemma framing_roundtrip_witness :
  let a := [Byte.x61; Byte.x62] in
  ∃ s, recv_n 2 (conn_open [[Byte.x00; Byte.x00]; [Byte.x00; Byte.x02; Byte.x61]; Byte.x62 :: frame [] ++ [Byte.x00]])
    = Ok ([a; []], s) ∧ conn_recv s = Exc OSError.
Proof.
  intros a. refine (proj1 (proj2 (framing_roundtrip [a; []]
    [[Byte.x00; Byte.x00]; [Byte.x00; Byte.x02; Byte.x61]; Byte.x62 :: frame [] ++ [Byte.x00]] a 1 _ _ _ _ _)));
    [by repeat constructor|done|by repeat constructor|cbn; lia|reflexivity].
Defined.
