(* ===== verification/Registry.v ===== *)
(** * Liveness of the nodes: [supervisor/registry.py], [supervisor/reviver.py],
    [common/comms/supervisor/protocol.py]

    The leader's table of nodes, driven by heartbeats and by a sweep, the reviver
    that starts the containers of the dead, and the messages of the nodes to the
    supervisor. Times are floats, as the clocks return them; the wall clock only
    labels the events. *)

From Stdlib Require Import Floats.SpecFloat.
From S2P Require Import Prelude.
From S2P Require Import PyDict.
From S2P Require Import PyValues.
From S2P Require Import PyText.
From S2P Require Import PyFloat.
From S2P Require Import Wire.

Definition fsub : float → float → float := SFsub 53 1024.

(** ** [registry.py] *)

Inductive Status := UNKNOWN | ALIVE | DEAD.

#[export] Instance Status_eq_dec : EqDecision Status.
Proof. solve_decision. Defined.

Definition status_value (s : Status) : string :=
  match s with UNKNOWN => "unknown" | ALIVE => "alive" | DEAD => "dead" end.

Record NodeHealth := mkNH {
  nh_id : string;
  nh_kind : string;
  nh_status : Status;
  nh_last : option float      (* last_heartbeat *)
}.

Record RegEvent := mkRE { re_at : float; re_node : string; re_message : string }.

Record NodeRegistry := mkReg {
  rg_timeout : float;
  rg_max_events : Z;
  rg_nodes : pydict string NodeHealth;
  rg_events : list RegEvent;
  rg_started : option float
}.

(** [NodeState(node_id)] *)
Definition new_node (node_id : string) : NodeHealth := mkNH node_id "node" UNKNOWN None.

Definition registry_init (timeout : float) (expected : list string) (max_events : Z) : NodeRegistry :=
  mkReg timeout max_events (dict_of ((λ n, (n, new_node n)) <$> expected)) [] None.

(** The event log keeps the last [max_events]. *)
Definition log_event (r : NodeRegistry) (e : RegEvent) : NodeRegistry :=
  let events := rg_events r ++ [e] in
  mkReg (rg_timeout r) (rg_max_events r) (rg_nodes r)
    (if rg_max_events r <? Z.of_nat (length events) then drop 1 events else events) (rg_started r).

Definition put_node (r : NodeRegistry) (n : NodeHealth) : NodeRegistry :=
  mkReg (rg_timeout r) (rg_max_events r) (dset (rg_nodes r) (nh_id n) n) (rg_events r) (rg_started r).

(** [_transition], the node written back; [wall] is [time.time()]. *)
Definition transition (r : NodeRegistry) (n : NodeHealth) (status : Status) (reason : string) (wall : float) : NodeRegistry :=
  if decide (nh_status n = status) then put_node r n
  else log_event (put_node r (mkNH (nh_id n) (nh_kind n) status (nh_last n)))
         (mkRE wall (nh_id n) (reason +:+ " -> " +:+ status_value status)).

Definition registry_node (r : NodeRegistry) (node_id : string) : NodeHealth :=
  dget_or (new_node node_id) (rg_nodes r) node_id.

Definition register (r : NodeRegistry) (node_id kind : string) (now wall : float) : NodeRegistry :=
  let n := registry_node r node_id in
  transition r (mkNH (nh_id n) kind (nh_status n) (Some now)) ALIVE "registered" wall.

Definition heartbeat (r : NodeRegistry) (node_id : string) (now wall : float) : NodeRegistry :=
  let n := registry_node r node_id in
  transition r (mkNH (nh_id n) (nh_kind n) (nh_status n) (Some now)) ALIVE "recovered" wall.

(** [now - since > timeout] *)
Definition overdue (r : NodeRegistry) (now since : float) : bool := flt (rg_timeout r) (fsub now since).

(** One node of the sweep. *)
Definition check_node (now : float) (wall : string → float) (r : NodeRegistry) (node_id : string) : NodeRegistry :=
  match dget (rg_nodes r) node_id with
  | None => r
  | Some n =>
      match nh_status n, nh_last n with
      | ALIVE, Some last =>
          if overdue r now last then transition r n DEAD "heartbeat lost" (wall node_id) else r
      | UNKNOWN, None =>
          if overdue r now (default now (rg_started r)) then transition r n DEAD "never seen" (wall node_id) else r
      | _, _ => r
      end
  end.

Definition check_timeouts (r : NodeRegistry) (now : float) (wall : string → float) : NodeRegistry :=
  let r := mkReg (rg_timeout r) (rg_max_events r) (rg_nodes r) (rg_events r)
             (match rg_started r with None => Some now | s => s end) in
  foldl (check_node now wall) r (dkeys (rg_nodes r)).

Definition note (r : NodeRegistry) (node_id message : string) (wall : float) : NodeRegistry :=
  log_event r (mkRE wall node_id message).

Definition registry_snapshot (r : NodeRegistry) : list NodeHealth * list RegEvent :=
  (dvalues (rg_nodes r), rg_events r).

(** ** [reviver.py] *)

Record Reviver := mkRv { rv_cooldown : float; rv_last_attempt : pydict string float }.

(** [start_fn], which asks docker to start a container: a parameter that may raise. The
    attempt is recorded before the call, whose exception is swallowed; the result is
    the call made, with its outcome. *)
Definition revive (start_fn : string → res unit) (r : NodeRegistry) (v : Reviver) (node_id : string) (now wall : float)
    : NodeRegistry * Reviver * (string * res unit) :=
  (note r node_id "reviving (docker start)" wall, mkRv (rv_cooldown v) (dset (rv_last_attempt v) node_id now),
   (node_id, start_fn node_id)).

(** [now - self._last_attempt.get(node_id, float("-inf")) <= self._cooldown] *)
Definition cooling (v : Reviver) (node_id : string) (now : float) : bool :=
  fle (fsub now (dget_or (S754_infinity true) (rv_last_attempt v) node_id)) (rv_cooldown v).

Definition sweep_node (start_fn : string → res unit) (now : float) (wall : string → float)
    (st : NodeRegistry * Reviver * list (string * res unit)) (n : NodeHealth) : NodeRegistry * Reviver * list (string * res unit) :=
  let '(r, v, calls) := st in
  if negb (bool_decide (nh_status n = DEAD)) || cooling v (nh_id n) now then st
  else let '(r, v, call) := revive start_fn r v (nh_id n) now (wall (nh_id n)) in (r, v, calls ++ [call]).

(** [sweep]: the calls of [start_fn], in order, and what became of each. *)
Definition sweep (start_fn : string → res unit) (r : NodeRegistry) (v : Reviver) (now : float) (wall : string → float)
    : NodeRegistry * Reviver * list (string * res unit) :=
  foldl (sweep_node start_fn now wall) (r, v, []) (registry_snapshot r).1.

(** ** [protocol.py] *)

Inductive SupMessage := Register (node_id kind : string) | Heartbeat (node_id : string).

Definition TAG_REGISTER : Z := 0.
Definition TAG_HEARTBEAT : Z := 1.

Definition sup_fields (m : SupMessage) : pyval :=
  match m with
  | Register n k => PList [PInt TAG_REGISTER; PStr n; PStr k]
  | Heartbeat n => PList [PInt TAG_HEARTBEAT; PStr n]
  end.

Section protocol.
Context `{MP : MsgPack}.

(** No hook for values of other types. *)
Definition encode (m : SupMessage) : res bytes := packb (λ _, Exc TypeError) (sup_fields m).

(** [tag == z] *)
Definition tag_is (tag : pyval) (z : Z) : bool :=
  match tag with
  | PInt t => t =? z
  | PBool b => (if b then 1 else 0) =? z
  | PFloat f => SFeqb f (f_of_Z z)
  | _ => false
  end.

Definition decode (data : bytes) : res SupMessage :=
  v ← unpackb data;
  l ← py_iter v;
  match l with
  | [] => Exc ValueError
  | tag :: rest =>
      if tag_is tag TAG_REGISTER then
        match rest with
        | [n; k] => n ← as_str n; k ← as_str k; Ok (Register n k)
        | _ => Exc TypeError
        end
      else if tag_is tag TAG_HEARTBEAT then
        match rest with
        | [n] => n ← as_str n; Ok (Heartbeat n)
        | _ => Exc TypeError
        end
      else Exc ValueError
  end.

(** What the leader does with a message of a node, and its reply
    ([LeaderRuntime._handle_clients]). *)
Definition client_message (r : NodeRegistry) (data : bytes) (now wall : float) : res (NodeRegistry * bytes) :=
  m ← decode data;
  let r := match m with
           | Register n k => register r n k now wall
           | Heartbeat n => heartbeat r n now wall
           end in
  reply ← encode (Heartbeat "supervisor"); Ok (r, reply).

Lemma decode_encode m : ∃ data, encode m = Ok data ∧ decode data = Ok m.
Proof.
  destruct (unpackb_packb (λ _, Exc TypeError) (sup_fields m) (sup_fields m)) as (data & H1 & H2); [by destruct m..|].
  exists data. split; [done|]. unfold decode. rewrite H2. by destruct m.
Qed.
End protocol.

(** ** The invariant of the table *)

(** Every node is filed under its name, an alive one has been heard of, one of
    unknown status never, and the log is bounded. *)
Definition health_ok (n : NodeHealth) : Prop :=
  (nh_status n = ALIVE → nh_last n ≠ None) ∧ (nh_status n = UNKNOWN → nh_last n = None).

Definition registry_ok (r : NodeRegistry) : Prop :=
  dict_wf (rg_nodes r) ∧
  (∀ k n, (k, n) ∈ rg_nodes r → nh_id n = k ∧ health_ok n) ∧
  Z.of_nat (length (rg_events r)) ≤ Z.max 0 (rg_max_events r).

Inductive reg_op :=
  | RegRegister (node_id kind : string) (now wall : float)
  | RegHeartbeat (node_id : string) (now wall : float)
  | RegSweep (now : float) (wall : string → float)
  | RegNote (node_id message : string) (wall : float).

Definition reg_step (r : NodeRegistry) (o : reg_op) : NodeRegistry :=
  match o with
  | RegRegister n k now wall => register r n k now wall
  | RegHeartbeat n now wall => heartbeat r n now wall
  | RegSweep now wall => check_timeouts r now wall
  | RegNote n m wall => note r n m wall
  end.

Lemma elem_dset_str {V} (d : pydict string V) k v k' v' :
  (k', v') ∈ dset d k v → (k' = k ∧ v' = v) ∨ (k', v') ∈ d.
Proof.
  induction d as [|[k0 v0] d IH]; cbn.
  - intros H%list_elem_of_singleton. left. by simplify_eq.
  - case_decide as Hk; intros [H|H]%elem_of_cons; simplify_eq.
    + left. by assert (k0 = k) as -> by exact Hk.
    + right. by right.
    + right. by left.
    + destruct (IH H) as [?|?]; [by left|right; by right].
Qed.

Lemma put_node_ok r n : registry_ok r → health_ok n → registry_ok (put_node r n).
Proof.
  intros (H1 & H2 & H3) Hn. split_and!; [by apply dset_wf| |done].
  intros k m [[-> ->]|H]%elem_dset_str; [done|]. by apply H2.
Qed.

Lemma log_event_ok r e : registry_ok r → registry_ok (log_event r e).
Proof.
  intros (H1 & H2 & H3). split_and!; [done..|]. cbn [rg_events rg_max_events log_event].
  destruct (_ <? _) eqn:E.
  - rewrite length_drop, length_app in *. cbn in *. lia.
  - apply Z.ltb_ge in E. lia.
Qed.

Lemma transition_ok r n status reason wall :
  registry_ok r → health_ok (mkNH (nh_id n) (nh_kind n) status (nh_last n)) →
  registry_ok (transition r n status reason wall).
Proof.
  intros Hr Hn. unfold transition. destruct (decide (nh_status n = status)) as [E|E].
  - apply put_node_ok; [done|]. destruct n. cbn in *. by subst.
  - by apply log_event_ok, put_node_ok.
Qed.

Lemma registry_node_id r node_id : registry_ok r → nh_id (registry_node r node_id) = node_id.
Proof.
  intros (_ & H & _). unfold registry_node, dget_or. destruct (dget _ node_id) as [n|] eqn:E; [|done].
  apply dget_Some_elem in E as (k & Hk & Hin). assert (k = node_id) as -> by exact Hk. by apply H in Hin as [? _].
Qed.

Lemma signal_ok n kind now : health_ok (mkNH (nh_id n) kind ALIVE (Some now)).
Proof. by split. Qed.
#[export] Hint Resolve put_node_ok log_event_ok transition_ok signal_ok : py.

Lemma check_node_ok now wall r node_id : registry_ok r → registry_ok (check_node now wall r node_id).
Proof.
  intros Hr. unfold check_node. destruct (dget (rg_nodes r) node_id) as [n|]; [|done].
  destruct (nh_status n), (nh_last n) eqn:El; try done; destruct (overdue _ _ _); try done;
    apply transition_ok; try done; by split.
Qed.

Lemma reg_step_ok r o : registry_ok r → registry_ok (reg_step r o).
Proof.
  intros Hr. destruct o; cbn [reg_step]; unfold register, heartbeat, note; eauto with py.
  unfold check_timeouts. apply foldl_invariant; [exact Hr|]. intros. by apply check_node_ok.
Qed.

Lemma registry_init_ok timeout expected max_events : registry_ok (registry_init timeout expected max_events).
Proof.
  split_and!; [apply dict_of_wf| |cbn; lia]. cbn [rg_nodes registry_init].
  intros k n. unfold dict_of, dupdate.
  assert (H : ∀ (l : list string) d, (∀ k n, (k, n) ∈ d → nh_id n = k ∧ health_ok n) →
    ∀ k n, (k, n) ∈ foldl (λ d e, dset d e.1 e.2) d ((λ n, (n, new_node n)) <$> l) → nh_id n = k ∧ health_ok n).
  { induction l as [|x l IH]; intros d Hd; [exact Hd|]. apply IH. intros k' n' [[-> ->]|H]%elem_dset_str; [|by apply Hd].
    by split; [|split]. }
  apply H. intros k' n' Hin. by apply not_elem_of_nil in Hin.
Qed.

(** ** The sweep of the registry *)

(** What a sweep makes of a node. *)
Definition swept (r : NodeRegistry) (now : float) (n : NodeHealth) : NodeHealth :=
  let dead := mkNH (nh_id n) (nh_kind n) DEAD (nh_last n) in
  match nh_status n, nh_last n with
  | ALIVE, Some last => if overdue r now last then dead else n
  | UNKNOWN, None => if overdue r now (default now (rg_started r)) then dead else n
  | _, _ => n
  end.

(** The part of the registry a sweep does not change. *)
Definition same_clock (r r' : NodeRegistry) : Prop := rg_timeout r = rg_timeout r' ∧ rg_started r = rg_started r'.

Lemma swept_clock r r' now n : same_clock r r' → swept r now n = swept r' now n.
Proof. intros [H1 H2]. unfold swept, overdue. by rewrite H1, H2. Qed.

Lemma transition_node r n status reason wall k :
  dget (rg_nodes (transition r n status reason wall)) k =
    if decide (nh_id n = k) then Some (mkNH (nh_id n) (nh_kind n) status (nh_last n)) else dget (rg_nodes r) k.
Proof.
  unfold transition. destruct (decide (nh_status n = status)) as [E|E]; cbn [log_event put_node rg_nodes nh_id];
    rewrite dget_dset; destruct (decide (pyeq (nh_id n) k)) as [H|H], (decide (nh_id n = k)) as [H'|H']; try done.
  destruct n. cbn in *. by subst.
Qed.

Lemma transition_clock r n status reason wall : same_clock (transition r n status reason wall) r.
Proof. unfold transition. by destruct (decide _). Qed.

Lemma check_node_spec now wall r node_id k :
  registry_ok r →
  dget (rg_nodes (check_node now wall r node_id)) k =
    (if decide (node_id = k) then swept r now <$> dget (rg_nodes r) k else dget (rg_nodes r) k) ∧
  same_clock (check_node now wall r node_id) r.
Proof.
  intros Hr. unfold check_node. destruct (dget (rg_nodes r) node_id) as [n|] eqn:E.
  2: { split; [|done]. destruct (decide (node_id = k)) as [<-|]; [by rewrite E|done]. }
  assert (Hid : nh_id n = node_id).
  { destruct Hr as (_ & H & _). apply dget_Some_elem in E as (k' & Hk & Hin).
    assert (k' = node_id) as -> by exact Hk. by apply H in Hin as [? _]. }
  assert (Hkeep : dget (rg_nodes r) k = if decide (node_id = k) then Some n else dget (rg_nodes r) k)
    by (destruct (decide (node_id = k)) as [<-|]; done).
  assert (Hsome : (if decide (node_id = k) then swept r now <$> dget (rg_nodes r) k else dget (rg_nodes r) k) =
    if decide (node_id = k) then Some (swept r now n) else dget (rg_nodes r) k).
  { destruct (decide (node_id = k)) as [<-|]; [|done]. by rewrite E. }
  rewrite Hsome. unfold swept. destruct (nh_status n), (nh_last n) as [last|] eqn:El; try (split; [exact Hkeep|done]);
    destruct (overdue _ _ _); try (split; [exact Hkeep|done]);
    (split; [rewrite transition_node, Hid, El; done|apply transition_clock]).
Qed.

Lemma check_nodes_spec now wall ks : ∀ r k,
  NoDup ks → registry_ok r →
  dget (rg_nodes (foldl (check_node now wall) r ks)) k =
    (if decide (k ∈ ks) then swept r now <$> dget (rg_nodes r) k else dget (rg_nodes r) k).
Proof.
  induction ks as [|x ks IH]; intros r k Hnd Hr; [done|]. apply NoDup_cons in Hnd as [Hx Hnd]. cbn [foldl].
  rewrite IH; [|done|by apply check_node_ok]. destruct (check_node_spec now wall r x k Hr) as [E Hc]. rewrite E.
  destruct (decide (x = k)) as [->|Hne].
  - rewrite decide_False by done. rewrite decide_True; [done|by left].
  - destruct (decide (k ∈ ks)) as [Hk|Hk].
    + rewrite decide_True by (by apply elem_of_cons; right).
      destruct (dget (rg_nodes r) k) as [n|]; cbn; [|done]. by rewrite (swept_clock _ r).
    + rewrite decide_False; [done|]. intros [->|?]%elem_of_cons; done.
Qed.

Lemma check_timeouts_spec r now wall k : registry_ok r →
  let r0 := mkReg (rg_timeout r) (rg_max_events r) (rg_nodes r) (rg_events r) (Some (default now (rg_started r))) in
  dget (rg_nodes (check_timeouts r now wall)) k = swept r0 now <$> dget (rg_nodes r) k.
Proof.
  intros Hr. unfold check_timeouts. cbv zeta. rewrite check_nodes_spec.
  - cbn [rg_nodes]. destruct (dget (rg_nodes r) k) as [n|] eqn:E; [|by destruct (decide _)].
    rewrite decide_True; [cbn; f_equal; by destruct (rg_started r)|].
    apply dget_Some_elem in E as (k' & Hk & Hin). assert (k' = k) as -> by exact Hk.
    apply list_elem_of_fmap. by exists (k, n).
  - destruct Hr as (H & _). unfold dict_wf in H. cbn in H. by rewrite list_fmap_id in H.
  - exact Hr.
Qed.

(** The status of the nodes is exact. In every reachable state of the registry a
    sweep declares dead the alive nodes whose last signal is older than the
    timeout and the expected nodes never heard of when the timeout has passed since
    the first sweep, and changes no other; a signal makes its node alive, and no
    other; the table stays well-formed and the log within its bound. *)
Theorem registry_status_exact (timeout : float) (expected : list string) (max_events : Z) (ops : list reg_op) :
  let r := foldl reg_step (registry_init timeout expected max_events) ops in
  registry_ok r ∧
  (∀ now wall k,
     let r0 := mkReg (rg_timeout r) (rg_max_events r) (rg_nodes r) (rg_events r) (Some (default now (rg_started r))) in
     dget (rg_nodes (check_timeouts r now wall)) k = swept r0 now <$> dget (rg_nodes r) k) ∧
  (∀ n kind now wall k,
     dget (rg_nodes (register r n kind now wall)) k =
       if decide (n = k) then Some (mkNH n kind ALIVE (Some now)) else dget (rg_nodes r) k) ∧
  (∀ n now wall k,
     dget (rg_nodes (heartbeat r n now wall)) k =
       if decide (n = k) then Some (mkNH n (nh_kind (registry_node r n)) ALIVE (Some now)) else dget (rg_nodes r) k).
Proof.
  cbv zeta. set (r := foldl reg_step _ ops).
  assert (Hr : registry_ok r).
  { apply foldl_invariant; [apply registry_init_ok|]. intros. by apply reg_step_ok. }
  split; [done|]. split; [intros; by apply check_timeouts_spec|].
  split; intros; unfold register, heartbeat; rewrite transition_node; cbn [nh_id nh_kind nh_last];
    by rewrite registry_node_id.
Qed.

(** ** The reviver *)

Definition due (v : Reviver) (now : float) (n : NodeHealth) : Prop :=
  nh_status n = DEAD ∧ cooling v (nh_id n) now = false.

#[export] Instance due_dec v now n : Decision (due v now n).
Proof. unfold due. apply _. Defined.

(** Recording a list of attempts. *)
Definition attempted (v : Reviver) (ids : list string) (now : float) : Reviver :=
  foldl (λ v i, mkRv (rv_cooldown v) (dset (rv_last_attempt v) i now)) v ids.

Lemma cooling_other v i j now t : i ≠ j → cooling (mkRv (rv_cooldown v) (dset (rv_last_attempt v) i t)) j now = cooling v j now.
Proof. intros H. unfold cooling, dget_or. cbn. by rewrite dget_dset_ne by (intros E; by apply H). Qed.

(** The call a sweep makes for a node. *)
Definition call_for (start_fn : string → res unit) (n : NodeHealth) : string * res unit := (nh_id n, start_fn (nh_id n)).

Lemma sweep_nodes_spec start_fn now wall ns : ∀ r v calls,
  NoDup (nh_id <$> ns) →
  let '(r', v', calls') := foldl (sweep_node start_fn now wall) (r, v, calls) ns in
  calls' = calls ++ (call_for start_fn <$> filter (due v now) ns) ∧
  v' = attempted v (nh_id <$> filter (due v now) ns) now ∧
  (registry_ok r → registry_ok r') ∧ rg_nodes r' = rg_nodes r.
Proof.
  induction ns as [|n ns IH]; intros r v calls Hnd; cbn [foldl].
  { rewrite filter_nil. cbn. by rewrite app_nil_r. }
  apply NoDup_cons in Hnd as [Hn Hnd]. unfold sweep_node at 2.
  destruct (decide (due v now n)) as [Hd|Hd].
  - rewrite filter_cons_True by done. destruct Hd as [Hd1 Hd2]. rewrite bool_decide_eq_true_2, Hd2 by done. cbn [negb orb revive].
    set (v1 := mkRv (rv_cooldown v) (dset (rv_last_attempt v) (nh_id n) now)). set (r1 := note r _ _ _).
    specialize (IH r1 v1 (calls ++ [(nh_id n, start_fn (nh_id n))]) Hnd).
    assert (E : filter (due v1 now) ns = filter (due v now) ns).
    { apply filter_ext_elem. intros x Hx. unfold due, v1. rewrite cooling_other; [done|].
      intros Hx'. apply Hn. rewrite Hx'. apply list_elem_of_fmap. by exists x. }
    destruct (foldl _ _ ns) as [[r' v'] calls']. rewrite E in IH. destruct IH as (-> & -> & Hok & Hnodes).
    split; [by rewrite <- app_assoc|]. split; [done|]. split; [|by rewrite Hnodes]. intros Hr. by apply Hok, log_event_ok.
  - rewrite filter_cons_False by done.
    replace (negb (bool_decide (nh_status n = DEAD)) || cooling v (nh_id n) now) with true; [by apply IH|].
    unfold due in Hd. case_bool_decide; [|done]. destruct (cooling _ _ _) eqn:E; [done|]. by destruct Hd.
Qed.

(** Attempts over time: each sweep finds whatever registry the heartbeats left. *)
Fixpoint revive_run (start_fn : string → res unit) (v : Reviver) (l : list (NodeRegistry * float)) : list (string * float) :=
  match l with
  | [] => []
  | (r, now) :: l =>
      let '(_, v', calls) := sweep start_fn r v now (λ _, now) in
      ((λ call, (call.1, now)) <$> calls) ++ revive_run start_fn v' l
  end.

(** The times of the attempts of one container. *)
Definition attempts_of (i : string) (l : list (string * float)) : list float := (filter (λ a, a.1 = i) l).*2.

(** Successive times are further apart than the cooldown. *)
Fixpoint spaced (cooldown : float) (last : float) (l : list float) : Prop :=
  match l with
  | [] => True
  | t :: l => fle (fsub t last) cooldown = false ∧ spaced cooldown t l
  end.

Lemma registry_ids r : registry_ok r → NoDup (nh_id <$> dvalues (rg_nodes r)).
Proof.
  intros (Hd & Hn & _). unfold dict_wf in Hd. cbn in Hd. rewrite list_fmap_id in Hd.
  replace (nh_id <$> dvalues (rg_nodes r)) with (dkeys (rg_nodes r)); [done|].
  unfold dkeys, dvalues. rewrite <- list_fmap_compose. apply list_fmap_ext. intros i [k n] H. cbn.
  by destruct (Hn k n) as [-> _]; [eapply list_elem_of_lookup_2|].
Qed.

Lemma attempted_spec v ids now i :
  dget_or (S754_infinity true) (rv_last_attempt (attempted v ids now)) i =
    if decide (i ∈ ids) then now else dget_or (S754_infinity true) (rv_last_attempt v) i.
Proof.
  unfold attempted. revert v. induction ids as [|x ids IH]; intros v; cbn [foldl]; [done|].
  rewrite IH. cbn [rv_last_attempt]. destruct (decide (i ∈ ids)) as [H|H].
  - by rewrite decide_True by (by apply elem_of_cons; right).
  - rewrite dget_or_dset. destruct (decide (pyeq x i)) as [E|E].
    + assert (x = i) as -> by exact E. by rewrite decide_True by (by apply elem_of_cons; left).
    + rewrite decide_False; [done|]. intros [->|?]%elem_of_cons; [by apply E|done].
Qed.

Lemma attempted_cooldown v ids now : rv_cooldown (attempted v ids now) = rv_cooldown v.
Proof. unfold attempted. revert v. induction ids; intros v; cbn; [done|]. by rewrite IHids. Qed.

Lemma sweep_spec start_fn r v now wall : registry_ok r →
  (sweep start_fn r v now wall).2 = call_for start_fn <$> filter (due v now) (dvalues (rg_nodes r)) ∧
  (sweep start_fn r v now wall).1.2 = attempted v (nh_id <$> filter (due v now) (dvalues (rg_nodes r))) now ∧
  registry_ok (sweep start_fn r v now wall).1.1 ∧ rg_nodes (sweep start_fn r v now wall).1.1 = rg_nodes r.
Proof.
  intros Hr. pose proof (sweep_nodes_spec start_fn now wall _ r v [] (registry_ids r Hr)) as H.
  unfold sweep. cbn [registry_snapshot fst] in *. destruct (foldl _ _ _) as [[r' v'] calls']. cbn [fst snd].
  destruct H as (-> & -> & Hok & ->). split_and!; try done. by apply Hok.
Qed.

Lemma revive_run_spaced start_fn i l : ∀ v, Forall (λ x, registry_ok x.1) l →
  spaced (rv_cooldown v) (dget_or (S754_infinity true) (rv_last_attempt v) i) (attempts_of i (revive_run start_fn v l)).
Proof.
  induction l as [|[r now] l IH]; intros v Hl; [done|]. inversion_clear Hl as [|? ? Hr Hl']. cbn [fst] in Hr.
  cbn [revive_run]. destruct (sweep_spec start_fn r v now (λ _, now) Hr) as (H1 & H2 & _).
  pose proof (sublist_NoDup _ _ (registry_ids r Hr)
    (fmap_sublist nh_id _ _ (sublist_filter (due v now) (dvalues (rg_nodes r))))) as Hnd.
  assert (Hin : ∀ i, i ∈ nh_id <$> filter (due v now) (dvalues (rg_nodes r)) → cooling v i now = false).
  { intros i' (n & -> & [[_ Hc] _]%list_elem_of_filter)%list_elem_of_fmap. done. }
  assert (E1 : (λ call : string * res unit, (call.1, now)) <$> (sweep start_fn r v now (λ _, now)).2 =
    (λ j : string, (j, now)) <$> (nh_id <$> filter (due v now) (dvalues (rg_nodes r)))) by (by rewrite H1, <- !list_fmap_compose).
  set (ids := nh_id <$> filter _ _) in *. destruct (sweep start_fn r v now _) as [[r' v'] calls]. cbn [fst snd] in *. rewrite E1. subst v'.
  specialize (IH (attempted v ids now) Hl'). rewrite attempted_cooldown, attempted_spec in IH.
  unfold attempts_of in *. rewrite filter_app, fmap_app.
  assert (E : (filter (λ a, a.1 = i) ((λ j : string, (j, now)) <$> ids)).*2 = if decide (i ∈ ids) then [now] else []).
  { clear -Hnd. induction ids as [|x ids IH]; [done|]. apply NoDup_cons in Hnd as [Hx Hnd].
    rewrite fmap_cons, filter_cons. cbn [fst]. specialize (IH Hnd).
    destruct (decide (x = i)) as [->|Hne].
    - rewrite fmap_cons, IH, decide_False, decide_True by (done || by left). done.
    - rewrite IH. destruct (decide (i ∈ ids)); [by rewrite decide_True by (by right)|].
      rewrite decide_False; [done|]. intros [->|?]%elem_of_cons; done. }
  rewrite E. destruct (decide (i ∈ ids)) as [Hi|Hi]; cbn [app]; [|done].
  split; [by apply Hin in Hi|done].
Qed.

(** The reviver asks docker to start the dead and only the dead, and does not hammer
    them: whatever the registry holds at each sweep and whichever calls fail, a sweep
    makes one call for each of the nodes that are dead and not cooling down, in the
    order of the table; and however often it sweeps, two successive attempts of the
    same container are further apart than the cooldown. *)
Theorem reviver_starts_the_dead (start_fn : string → res unit) (v : Reviver) (sweeps : list (NodeRegistry * float)) (i : string) :
  Forall (λ x, registry_ok x.1) sweeps →
  (∀ r now wall, registry_ok r →
     (sweep start_fn r v now wall).2 = call_for start_fn <$> filter (due v now) (dvalues (rg_nodes r))) ∧
  spaced (rv_cooldown v) (dget_or (S754_infinity true) (rv_last_attempt v) i) (attempts_of i (revive_run start_fn v sweeps)).
Proof.
  intros Hs. split; [intros; by apply sweep_spec|]. by apply revive_run_spaced.
Qed.

(** ** Concrete inputs *)

Definition demo_registry : NodeRegistry :=
  foldl reg_step (registry_init (f_of_Z 6) ["filter_0"; "join_0"]%string 200)
    [RegSweep (f_of_Z 1) (λ _, f_of_Z 0); RegRegister "join_0" "join" (f_of_Z 2) (f_of_Z 0);
     RegSweep (f_of_Z 8) (λ _, f_of_Z 0)].

Example demo_statuses : nh_status <$> dvalues (rg_nodes demo_registry) = [DEAD; ALIVE].
Proof. by vm_compute. Qed.

Lemma reviver_starts_the_dead_witness :
  let v := mkRv (f_of_Z 15) [] in
  (sweep (λ _, Exc OSError) demo_registry v (f_of_Z 9) (λ _, f_of_Z 0)).2 = [("filter_0"%string, Exc OSError)] ∧
  spaced (f_of_Z 15) (S754_infinity true)
    (attempts_of "filter_0" (revive_run (λ _, Exc OSError) v [(demo_registry, f_of_Z 9); (demo_registry, f_of_Z 14); (demo_registry, f_of_Z 25)])).
Proof.
  intros v. assert (Hok : registry_ok demo_registry).
  { unfold demo_registry. apply foldl_invariant; [apply registry_init_ok|]. intros. by apply reg_step_ok. }
  pose proof (reviver_starts_the_dead (λ _, Exc OSError) v [(demo_registry, f_of_Z 9); (demo_registry, f_of_Z 14); (demo_registry, f_of_Z 25)]
    "filter_0") as H.
  destruct H as [H1 H2]; [do 3 (constructor; [exact Hok|]); constructor|].
  split; [rewrite (H1 _ _ _ Hok); vm_compute; reflexivity|exact H2].
Defined.

Example demo_attempts : attempts_of "filter_0" (revive_run (λ _, Ok tt) (mkRv (f_of_Z 15) [])
    [(demo_registry, f_of_Z 9); (demo_registry, f_of_Z 14); (demo_registry, f_of_Z 25)]) = [f_of_Z 9; f_of_Z 25].
Proof. by vm_compute. Qed.
