(* ===== verification/Election.v ===== *)
(** * The supervisors' election: [supervisor/server.py], [supervisor/peer.py],
    [supervisor/event], [supervisor/runtime]

    A supervisor handles one event at a time: the leader is down, or a peer has
    sent a message. Which peers a broadcast reaches is an argument of the
    handlers. The two runtimes are loops over what the network answers. *)

From S2P Require Import Prelude.
From S2P Require Import PyDict.
From S2P Require Import PyValues.
From S2P Require Import PyText.
From S2P Require Import PyFloat.
From S2P Require Import Wire.
From S2P Require Import Messages.
From S2P Require Import Connection.
From S2P Require Import Registry.

(** ** [SupervisorNode] *)

Record Peer := mkPeer { peer_idx : Z; peer_host : string }.

#[export] Instance Peer_eq_dec : EqDecision Peer.
Proof. solve_decision. Defined.

(** [Peer.__gt__] with a number *)
Definition peer_gt (p : Peer) (i : Z) : bool := i <? peer_idx p.

Inductive SupRuntime := LeaderRuntime | ReplicaRuntime (leader_host : string).

#[export] Instance SupRuntime_eq_dec : EqDecision SupRuntime.
Proof. solve_decision. Defined.

Record SupervisorNode := mkSup {
  su_idx : Z;
  su_peers : list Peer;
  su_leader : option Peer;
  su_runtime : option SupRuntime;
  su_on_election : bool
}.

Definition supervisor_init (idx : Z) (peers : list Peer) : SupervisorNode := mkSup idx peers None None false.

(** The peers of supervisor [idx] among [nnodes] ([main.py]). *)
Definition make_peers (node_prefix : string) (idx : Z) (nnodes : nat) : list Peer :=
  (λ i : nat, mkPeer (Z.of_nat i) (node_prefix +:+ str_int (Z.of_nat i))) <$>
    filter (λ i, Z.of_nat i ≠ idx) (List.seq 0 nnodes).

(** [not self._leader and self._runtime] *)
Definition is_leader (s : SupervisorNode) : bool :=
  match su_leader s, su_runtime s with None, Some _ => true | _, _ => false end.

Definition set_leader (s : SupervisorNode) (l : option Peer) : SupervisorNode :=
  mkSup (su_idx s) (su_peers s) l (su_runtime s) (su_on_election s).
Definition set_on_election (s : SupervisorNode) (b : bool) : SupervisorNode :=
  mkSup (su_idx s) (su_peers s) (su_leader s) (su_runtime s) b.
(** [_change_runtime] *)
Definition change_runtime (s : SupervisorNode) (r : SupRuntime) : SupervisorNode :=
  mkSup (su_idx s) (su_peers s) (su_leader s) (Some r) (su_on_election s).

(** A message and the peer it is delivered to. *)
Abbreviation delivery := (Peer * Body)%type.

(** [_broadcast_message]: the peers reached, and how many. *)
Definition broadcast_message (reach : Peer → bool) (msg : Body) (peers : list Peer) : list delivery * Z :=
  let reached := filter (λ p, reach p = true) peers in
  ((λ p, (p, msg)) <$> reached, Z.of_nat (length reached)).

(** [_promote], [_downgrade] *)
Definition promote (s : SupervisorNode) : SupervisorNode := change_runtime s LeaderRuntime.
Definition downgrade (s : SupervisorNode) (leader_host : string) : SupervisorNode :=
  change_runtime s (ReplicaRuntime leader_host).

(** [_handle_leader_down] *)
Definition handle_leader_down (reach : Peer → bool) (s : SupervisorNode) : SupervisorNode * list delivery :=
  if su_on_election s then (s, [])
  else if is_leader s then (s, (broadcast_message reach (SupervisorLeader (su_idx s)) (su_peers s)).1)
  else
    let s := set_on_election s true in
    let greater_peers := filter (λ p, peer_gt p (su_idx s) = true) (su_peers s) in
    let '(sent, acks) := broadcast_message reach SupervisorElection greater_peers in
    if 0 <? acks then (set_on_election (set_leader s None) false, sent)
    else
      let '(announced, _) := broadcast_message reach (SupervisorLeader (su_idx s)) (su_peers s) in
      (set_on_election (set_leader (promote s) None) false, sent ++ announced).

(** [_handle_new_leader] *)
Definition handle_new_leader (reach : Peer → bool) (s : SupervisorNode) (claim : Z) : res (SupervisorNode * list delivery) :=
  if claim <=? su_idx s then
    Ok (s, if (claim <? su_idx s) && is_leader s
           then (broadcast_message reach (SupervisorLeader (su_idx s)) (su_peers s)).1 else [])
  else if match su_leader s with Some l => claim <=? peer_idx l | None => false end then Ok (s, [])
  else
    leader ← of_opt StopIteration (head (filter (λ p, peer_idx p = claim) (su_peers s)));
    let s := set_leader s (Some (mkPeer claim (peer_host leader))) in
    Ok (set_on_election (downgrade s (peer_host leader)) false, []).

(** The events a supervisor handles, a peer's message decoded. *)
Inductive SupEvent := LeaderDown | PeerMessage (msg : Body).

(** One event: the new state, what is delivered to the peers, and the events put
    on its own queue. *)
Definition sup_step (reach : Peer → bool) (s : SupervisorNode) (e : SupEvent)
    : res (SupervisorNode * list delivery * list SupEvent) :=
  match e with
  | LeaderDown => let '(s, out) := handle_leader_down reach s in Ok (s, out, [])
  | PeerMessage SupervisorElection => Ok (s, [], [LeaderDown])
  | PeerMessage (SupervisorLeader i) => '(s, out) ← handle_new_leader reach s i; Ok (s, out, [])
  | PeerMessage _ => Ok (s, [], [])
  end.

(** [handle_peer_connection]: one message is read and the connection closed. *)
Definition handle_peer_connection `{MP : MsgPack} (reach : Peer → bool) (s : SupervisorNode)
    (conn : Connection) (connected : bool) : res (SupervisorNode * list delivery * list SupEvent) :=
  '(raw, conn) ← conn_recv conn;
  m ← deserialize_message raw;
  r ← sup_step reach s (PeerMessage (body_ m));
  _ ← (conn_close connected conn).2;
  Ok r.

(** [_announce_worker], one turn *)
Definition announce (reach : Peer → bool) (s : SupervisorNode) : list delivery :=
  if is_leader s then (broadcast_message reach (SupervisorLeader (su_idx s)) (su_peers s)).1 else [].

(** [_runtime_worker]: a runtime that ends with [LeaderDownError] puts the event. *)
Definition runtime_ended (r : res unit) : list SupEvent :=
  match r with Exc LeaderDownError => [LeaderDown] | _ => [] end.

(** [_event_worker] over a queue of events, each with the peers it can reach. *)
Fixpoint sup_run (s : SupervisorNode) (es : list ((Peer → bool) * SupEvent)) : res (SupervisorNode * list delivery) :=
  match es with
  | [] => Ok (s, [])
  | (reach, e) :: es =>
      '(s, out, _) ← sup_step reach s e;
      '(s, outs) ← sup_run s es; Ok (s, out ++ outs)
  end.

(** ** [ReplicaRuntime], [LeaderLink] *)

Definition CONNECTION_RETRIES : nat := 5.

(** What an attempt to reach the leader, or a ping, meets. *)
Inductive attempt := AttemptFails | AttemptConnects.
Inductive pong := PongError | PongEmpty | PongData.

(** [_connect]: the first attempt that succeeds among the retries. *)
Fixpoint link_connect (retries : nat) (attempts : list attempt) : res (list attempt) :=
  match retries with
  | O => Exc LeaderDownError
  | S retries =>
      match attempts with
      | AttemptConnects :: rest => Ok rest
      | AttemptFails :: rest => link_connect retries rest
      | [] => Exc LeaderDownError
      end
  end.

(** [ping_pong] on an open link *)
Definition ping_pong (p : pong) : res unit :=
  match p with PongData => Ok tt | PongEmpty | PongError => Exc LeaderDownError end.

(** [_run]: connect, then ping until the leader stops answering; the list ends
    when the runtime is stopped. *)
Fixpoint ping_loop (pongs : list pong) : res unit :=
  match pongs with
  | [] => Ok tt
  | p :: pongs => _ ← ping_pong p; ping_loop pongs
  end.
Definition replica_run (attempts : list attempt) (pongs : list pong) : res unit :=
  _ ← link_connect CONNECTION_RETRIES attempts; ping_loop pongs.

(** ** [LeaderRuntime]: what it does with a replica's link *)

(** [b"pong"] *)
Definition PONG : bytes := [Byte.x70; Byte.x6f; Byte.x6e; Byte.x67].

(** [pong_ping]: one pong per ping, until the link is lost. *)
Fixpoint pong_ping (pings : list (res bytes)) : list bytes * res unit :=
  match pings with
  | [] => ([], Ok tt)
  | Ok (_ :: _) :: pings => let '(out, r) := pong_ping pings in (PONG :: out, r)
  | Ok [] :: _ | Exc _ :: _ => ([], Exc ReplicaDownError)
  end.

(** [handle_replica]: the container of a lost replica is started. *)
Definition handle_replica (rep_id : string) (pings : list (res bytes)) : list string :=
  match (pong_ping pings).2 with Exc ReplicaDownError => [rep_id] | _ => [] end.

(** [_revive_supervisors] *)
Definition revive_supervisors (nsupervisors : nat) : list string :=
  (λ i : nat, "supervisor_" +:+ str_int (Z.of_nat i)) <$> List.seq 0 nsupervisors.

(** ** The invariant of a supervisor *)

(** The leader it follows is a peer with a greater number, and its runtime pings
    that peer; a supervisor that leads follows nobody. *)
Record sup_inv (s : SupervisorNode) : Prop := {
  inv_follows : ∀ l, su_leader s = Some l →
    su_idx s < peer_idx l ∧ l ∈ su_peers s ∧ su_runtime s = Some (ReplicaRuntime (peer_host l));
  inv_leads : su_runtime s = Some LeaderRuntime → su_leader s = None;
  inv_idle : su_on_election s = false
}.

Lemma supervisor_init_inv i ps : sup_inv (supervisor_init i ps).
Proof. by split. Qed.

(** The two things a lost leader can lead to. *)
Lemma handle_leader_down_cases reach s : sup_inv s →
  let s' := (handle_leader_down reach s).1 in
  (is_leader s = true ∧ s' = s) ∨
  (is_leader s = false ∧ Exists (λ p, peer_gt p (su_idx s) = true ∧ reach p = true) (su_peers s) ∧ s' = set_leader s None) ∨
  (is_leader s = false ∧ Forall (λ p, peer_gt p (su_idx s) = true → reach p = false) (su_peers s) ∧
   s' = set_leader (promote s) None).
Proof.
  intros [_ _ Hi]. unfold handle_leader_down. rewrite Hi. destruct (is_leader s) eqn:El; [left; by split|right].
  unfold broadcast_message. cbn [set_on_election su_idx su_peers].
  set (greater := filter _ (su_peers s)). destruct (filter (λ p, reach p = true) greater) as [|p l] eqn:E.
  - right. split; [done|]. split; [|by destruct s; cbn in *; subst].
    apply Forall_forall. intros p Hp Hg. destruct (reach p) eqn:Er; [|done].
    assert (Hin : p ∈ filter (λ p, reach p = true) greater).
    { apply list_elem_of_filter. split; [done|]. by apply list_elem_of_filter. }
    rewrite E in Hin. by apply not_elem_of_nil in Hin.
  - left. split; [done|]. split; [|by destruct s; cbn in *; subst].
    apply Exists_exists. exists p.
    assert (Hin : p ∈ filter (λ p, reach p = true) greater) by (rewrite E; left).
    apply list_elem_of_filter in Hin as [Hr Hin]. by apply list_elem_of_filter in Hin as [Hg Hin].
Qed.

Lemma handle_leader_down_inv reach s : sup_inv s → sup_inv (handle_leader_down reach s).1.
Proof.
  intros Hs. pose proof Hs as [H1 H2 H3].
  destruct (handle_leader_down_cases reach s Hs) as [[_ ->]|[(_ & _ & ->)|(_ & _ & ->)]]; [done|by split..].
Qed.

(** What a claim does: nothing, or the claimant is followed. *)
Lemma handle_new_leader_cases reach s claim s' out :
  handle_new_leader reach s claim = Ok (s', out) →
  if (su_idx s <? claim) && (match su_leader s with Some l => peer_idx l <? claim | None => true end)
  then ∃ l, l ∈ su_peers s ∧ peer_idx l = claim ∧
       s' = mkSup (su_idx s) (su_peers s) (Some l) (Some (ReplicaRuntime (peer_host l))) false
  else s' = s.
Proof.
  unfold handle_new_leader. destruct (claim <=? su_idx s) eqn:E1.
  { intros [= <- _]. apply Z.leb_le in E1. by rewrite (proj2 (Z.ltb_ge _ _)) by done. }
  apply Z.leb_gt in E1. rewrite (proj2 (Z.ltb_lt _ _)) by done. cbn [andb].
  assert (Hadopt : (leader ← of_opt StopIteration (head (filter (λ p, peer_idx p = claim) (su_peers s)));
      Ok (set_on_election (downgrade (set_leader s (Some (mkPeer claim (peer_host leader)))) (peer_host leader)) false,
          @nil delivery)) = Ok (s', out) →
    ∃ l, l ∈ su_peers s ∧ peer_idx l = claim ∧
      s' = mkSup (su_idx s) (su_peers s) (Some l) (Some (ReplicaRuntime (peer_host l))) false).
  { intros H. apply bind_Ok in H as (l & Hl%of_opt_Ok & [= <- _]).
    destruct (filter _ (su_peers s)) as [|x xs] eqn:E; [done|]. injection Hl as ->.
    assert (Hin : l ∈ filter (λ p, peer_idx p = claim) (su_peers s)) by (rewrite E; left).
    apply list_elem_of_filter in Hin as [Hc Hin]. exists l. split; [done|]. split; [done|]. subst claim. by destruct l. }
  destruct (su_leader s) as [l|]; [|exact Hadopt]. destruct (claim <=? peer_idx l) eqn:E2.
  - intros [= <- _]. apply Z.leb_le in E2. by rewrite (proj2 (Z.ltb_ge _ _)) by done.
  - apply Z.leb_gt in E2. by rewrite (proj2 (Z.ltb_lt _ _)) by done.
Qed.

Lemma handle_new_leader_inv reach s claim s' out :
  sup_inv s → handle_new_leader reach s claim = Ok (s', out) → sup_inv s'.
Proof.
  intros Hs H. apply handle_new_leader_cases in H. destruct (_ && _) eqn:E; [|by subst].
  destruct H as (l & Hl & Hc & ->). apply andb_true_iff in E as [E _]. apply Z.ltb_lt in E.
  split; cbn; [|done|done]. intros l' [= <-]. split; [lia|done].
Qed.

Lemma sup_step_inv reach s e s' out q : sup_inv s → sup_step reach s e = Ok (s', out, q) → sup_inv s'.
Proof.
  intros Hs H. destruct e as [|msg]; cbn in H.
  - pose proof (handle_leader_down_inv reach s Hs). destruct (handle_leader_down reach s). by simplify_eq.
  - destruct msg; try by simplify_eq. apply bind_Ok in H as ([s1 o1] & H & [= <- <- <-]). by eapply handle_new_leader_inv.
Qed.

Lemma sup_run_inv es : ∀ s s' out, sup_inv s → sup_run s es = Ok (s', out) → sup_inv s'.
Proof.
  induction es as [|[reach e] es IH]; intros s s' out Hs H; cbn in H; [by simplify_eq|].
  apply bind_Ok in H as ([[s1 o1] q1] & H1 & H). apply bind_Ok in H as ([s2 o2] & H2 & [= <- _]).
  eapply IH; [|exact H2]. by eapply sup_step_inv.
Qed.

(** The configuration never changes. *)
Lemma sup_step_config reach s e s' out q : sup_step reach s e = Ok (s', out, q) →
  su_idx s' = su_idx s ∧ su_peers s' = su_peers s.
Proof.
  intros H. destruct e as [|msg]; cbn in H.
  - unfold handle_leader_down in H. destruct (su_on_election s); [by simplify_eq|]. destruct (is_leader s); [by simplify_eq|].
    destruct (broadcast_message _ _ _) as [o a]. destruct (0 <? a); [by simplify_eq|].
    destruct (broadcast_message _ _ _). by simplify_eq.
  - destruct msg; try by simplify_eq. apply bind_Ok in H as ([s1 o1] & H & [= <- <- <-]).
    apply handle_new_leader_cases in H. destruct (_ && _); [|by subst]. by destruct H as (l & _ & _ & ->).
Qed.

(** ** Sequences of events *)

Abbreviation occasion := ((Peer → bool) * SupEvent)%type.

(** Every claim is of a peer the supervisor knows, or of a lower number, and none
    is above [h]. *)
Definition claim_ok (s : SupervisorNode) (h : Z) (e : SupEvent) : Prop :=
  match e with
  | PeerMessage (SupervisorLeader i) => i ≤ h ∧ (i ≤ su_idx s ∨ ∃ p, p ∈ su_peers s ∧ peer_idx p = i)
  | _ => True
  end.

(** The supervisors it can follow without following one above [h]. *)
Definition follows_below (h : Z) (s : SupervisorNode) : Prop :=
  match su_leader s with Some l => peer_idx l ≤ h | None => True end.

Lemma new_leader_total reach s h i : claim_ok s h (PeerMessage (SupervisorLeader i)) →
  ∃ s' out, handle_new_leader reach s i = Ok (s', out).
Proof.
  intros [_ Hk]. unfold handle_new_leader. destruct (i <=? su_idx s) eqn:E; [by eexists _, _|].
  destruct (match su_leader s with Some l => i <=? peer_idx l | None => false end); [by eexists _, _|].
  destruct Hk as [Hk|(p & Hp & <-)]; [apply Z.leb_gt in E; lia|].
  destruct (filter _ (su_peers s)) as [|x xs] eqn:Ef; [|by eexists _, _].
  exfalso. apply (not_elem_of_nil p). rewrite <- Ef. by apply list_elem_of_filter.
Qed.

Lemma sup_step_total reach s h e : claim_ok s h e → ∃ s' out q, sup_step reach s e = Ok (s', out, q).
Proof.
  intros Hc. destruct e as [|msg]; cbn.
  - destruct (handle_leader_down reach s). by eexists _, _, _.
  - destruct msg; try by eexists _, _, _. destruct (new_leader_total reach s h idx Hc) as (s' & out & ->). by eexists _, _, _.
Qed.

Lemma claim_ok_config s s' h e : su_idx s' = su_idx s → su_peers s' = su_peers s → claim_ok s h e → claim_ok s' h e.
Proof. unfold claim_ok. intros -> ->. done. Qed.

(** A property kept by every step on allowed events holds at the end of a run. *)
Lemma sup_run_keeps (P : SupervisorNode → Prop) (ok : occasion → Prop) h es : ∀ s,
  (∀ s reach e s' out q, sup_inv s → P s → ok (reach, e) → claim_ok s h e →
     sup_step reach s e = Ok (s', out, q) → P s') →
  sup_inv s → P s → Forall ok es → Forall (λ x, claim_ok s h x.2) es →
  ∃ s' out, sup_run s es = Ok (s', out) ∧ sup_inv s' ∧ P s' ∧ su_idx s' = su_idx s ∧ su_peers s' = su_peers s.
Proof.
  induction es as [|[reach e] es IH]; intros s Hstep Hs HP Hok Hc; cbn [sup_run]; [by eexists s, []|].
  inversion_clear Hok as [|? ? Ho Hok']. inversion_clear Hc as [|? ? Hc1 Hc']. cbn [snd] in Hc1.
  destruct (sup_step_total reach s h e Hc1) as (s1 & o1 & q1 & E1). rewrite E1. cbn [mbind res_bind].
  destruct (sup_step_config _ _ _ _ _ _ E1) as [Hi Hp].
  destruct (IH s1 Hstep) as (s' & out & E & H1 & H2 & H3 & H4).
  - by eapply sup_step_inv.
  - by eapply Hstep.
  - done.
  - eapply Forall_impl; [exact Hc'|]. intros x. by apply claim_ok_config.
  - rewrite E. eexists s', _. split; [done|]. split; [done|]. split; [done|]. split; congruence.
Qed.

Lemma sup_run_app es1 es2 s s1 o1 :
  sup_run s es1 = Ok (s1, o1) →
  sup_run s (es1 ++ es2) = ('(s', o2) ← sup_run s1 es2; Ok (s', o1 ++ o2)).
Proof.
  revert s o1. induction es1 as [|[reach e] es1 IH]; intros s o1 H; cbn [app sup_run] in *.
  { injection H as -> <-. by destruct (sup_run s1 es2) as [[]|]. }
  destruct (sup_step reach s e) as [[[s0 o0] q0]|]; [|done]. cbn [mbind res_bind] in *.
  apply bind_Ok in H as ([s2 o2] & H & [= <- <-]). rewrite (IH _ _ H).
  destruct (sup_run s2 es2) as [[]|]; cbn; [by rewrite app_assoc|done].
Qed.

(** It follows the peer [h], and pings it. *)
Definition follows (s : SupervisorNode) (h : Z) : Prop :=
  ∃ l, su_leader s = Some l ∧ peer_idx l = h ∧ su_runtime s = Some (ReplicaRuntime (peer_host l)).

Lemma follows_stays h s reach e s' out q :
  follows s h → e ≠ LeaderDown → claim_ok s h e → sup_step reach s e = Ok (s', out, q) → follows s' h.
Proof.
  intros (l & H1 & H2 & H3) He Hc H. destruct e as [|msg]; [done|]. cbn in H.
  destruct msg; try (simplify_eq; by exists l). apply bind_Ok in H as ([s1 o1] & H & [= <- <- <-]).
  apply handle_new_leader_cases in H. rewrite H1 in H. destruct Hc as [Hc _].
  rewrite (proj2 (Z.ltb_ge (peer_idx l) _)), andb_false_r in H by lia. subst. by exists l.
Qed.

Lemma below_stays h s reach e s' out q :
  sup_inv s → follows_below h s → claim_ok s h e → sup_step reach s e = Ok (s', out, q) → follows_below h s'.
Proof.
  intros Hs Hb Hc H. destruct e as [|msg]; cbn in H.
  - destruct (handle_leader_down_cases reach s Hs) as [[_ E]|[(_ & _ & E)|(_ & _ & E)]];
      destruct (handle_leader_down reach s); cbn in E; simplify_eq; done.
  - destruct msg; try by simplify_eq. apply bind_Ok in H as ([s1 o1] & H & [= <- <- <-]).
    apply handle_new_leader_cases in H. destruct (_ && _); [|by subst].
    destruct H as (l & _ & <- & ->). unfold follows_below. cbn. by destruct Hc.
Qed.

(** After a lost leader nobody is followed, or the leader was lost before. *)
Lemma leader_down_below h reach s : sup_inv s → follows_below h (handle_leader_down reach s).1.
Proof.
  intros Hs. destruct (handle_leader_down_cases reach s Hs) as [[El ->]|[(_ & _ & ->)|(_ & _ & ->)]]; [|done..].
  unfold follows_below. unfold is_leader in El. by destruct (su_leader s).
Qed.

Lemma run_below h es : ∀ s,
  sup_inv s → (follows_below h s ∨ LeaderDown ∈ es.*2) → Forall (λ x, claim_ok s h x.2) es →
  ∃ s' out, sup_run s es = Ok (s', out) ∧ sup_inv s' ∧ follows_below h s' ∧ su_idx s' = su_idx s ∧ su_peers s' = su_peers s.
Proof.
  induction es as [|[reach e] es IH]; intros s Hs Hb Hc.
  { destruct Hb as [Hb|Hb]; [by eexists s, []|by apply not_elem_of_nil in Hb]. }
  inversion_clear Hc as [|? ? Hc1 Hc']. cbn [snd] in Hc1. cbn [sup_run].
  destruct (sup_step_total reach s h e Hc1) as (s1 & o1 & q1 & E1). rewrite E1. cbn [mbind res_bind].
  destruct (sup_step_config _ _ _ _ _ _ E1) as [Hi Hp].
  destruct (IH s1) as (s' & out & E & H1 & H2 & H3 & H4).
  - by eapply sup_step_inv.
  - destruct Hb as [Hb|[E|Hb]%elem_of_cons]; [left; by eapply below_stays| |by right].
    left. cbn in E. subst e. cbn in E1. pose proof (leader_down_below h reach s Hs) as Hd.
    destruct (handle_leader_down reach s). by simplify_eq.
  - eapply Forall_impl; [exact Hc'|]. intros x. by apply claim_ok_config.
  - rewrite E. eexists s', _. split; [done|]. split; [done|]. split; [done|]. split; congruence.
Qed.

(** ** Who leads in the end *)

(** No greater peer can be reached. *)
Definition highest (s : SupervisorNode) (x : occasion) : Prop :=
  Forall (λ p, peer_gt p (su_idx s) = true → x.1 p = false) (su_peers s).

Definition leads (s : SupervisorNode) : Prop := su_leader s = None ∧ su_runtime s = Some LeaderRuntime.

(** A replica that has forgotten its leader. *)
Definition stale_replica (s : SupervisorNode) : Prop :=
  su_leader s = None ∧ ∃ host, su_runtime s = Some (ReplicaRuntime host).

Lemma low_claim_ignored s reach e s' out q :
  claim_ok s (su_idx s) e → e ≠ LeaderDown → sup_step reach s e = Ok (s', out, q) → s' = s.
Proof.
  intros Hc He H. destruct e as [|msg]; [done|]. cbn in H. destruct msg; try by simplify_eq.
  apply bind_Ok in H as ([s1 o1] & H & [= <- <- <-]). apply handle_new_leader_cases in H.
  destruct Hc as [Hc _]. rewrite (proj2 (Z.ltb_ge (su_idx s) _)) in H by lia. done.
Qed.

Lemma highest_promotes s reach :
  sup_inv s → ¬ stale_replica s → highest s (reach, LeaderDown) → leads (handle_leader_down reach s).1.
Proof.
  intros Hs Hn Hh. destruct (handle_leader_down_cases reach s Hs) as [[El ->]|[(_ & Hx & _)|(_ & _ & ->)]]; [| |done].
  - unfold is_leader in El. split; [by destruct (su_leader s)|].
    destruct (su_leader s) eqn:E1; [done|]. destruct (su_runtime s) as [[|host]|] eqn:E2; [done| |done].
    destruct Hn. split; [done|]. by exists host.
  - apply Exists_exists in Hx as (p & Hp & Hg & Hr). unfold highest in Hh. rewrite Forall_forall in Hh.
    cbn in Hh. by rewrite (Hh p Hp Hg) in Hr.
Qed.

#[export] Instance SupEvent_leader_down_dec (e : SupEvent) : Decision (e = LeaderDown).
Proof. destruct e; [by left|by right]. Defined.

Lemma highest_leads es : ∀ s,
  sup_inv s → (leads s ∨ ¬ stale_replica s ∧ LeaderDown ∈ es.*2) →
  Forall (highest s) es → Forall (λ x, claim_ok s (su_idx s) x.2) es →
  ∃ s' out, sup_run s es = Ok (s', out) ∧ leads s'.
Proof.
  induction es as [|[reach e] es IH]; intros s Hs Hl Hh Hc; cbn [sup_run].
  { destruct Hl as [Hl|[_ Hl]]; [by eexists s, []|by apply not_elem_of_nil in Hl]. }
  inversion_clear Hh as [|? ? Hh1 Hh']. inversion_clear Hc as [|? ? Hc1 Hc']. cbn [snd] in Hc1.
  destruct (sup_step_total reach s _ e Hc1) as (s1 & o1 & q1 & E1). rewrite E1. cbn [mbind res_bind].
  destruct (sup_step_config _ _ _ _ _ _ E1) as [Hi Hp].
  destruct (IH s1) as (s' & out & E & H).
  - by eapply sup_step_inv.
  - destruct (decide (e = LeaderDown)) as [->|He].
    + left. assert (Hs1 : s1 = (handle_leader_down reach s).1)
        by (cbn in E1; destruct (handle_leader_down reach s); by simplify_eq).
      rewrite Hs1. apply highest_promotes; [done| |done]. destruct Hl as [[H1 H2]|[Hn _]]; [|done].
      intros [_ [host Hx]]. congruence.
    + rewrite (low_claim_ignored _ _ _ _ _ _ Hc1 He E1). destruct Hl as [Hl|[Hn [El|Hl]%elem_of_cons]]; [by left| |by right].
      cbn in El. by destruct He.
  - eapply Forall_impl; [exact Hh'|]. intros x. unfold highest. by rewrite Hi, Hp.
  - rewrite Hi. eapply Forall_impl; [exact Hc'|]. intros x. by apply claim_ok_config.
  - rewrite E. by eexists s', _.
Qed.

(** C27: a supervisor follows only a peer with a greater number, which its runtime
    pings, and one that leads follows nobody: in every state it can reach, whatever
    events it handles and whichever peers it reaches at each of them. *)
Theorem supervisor_invariant (idx : Z) (peers : list Peer) (es : list occasion) (s : SupervisorNode) (out : list delivery) :
  sup_run (supervisor_init idx peers) es = Ok (s, out) → sup_inv s ∧ su_idx s = idx ∧ su_peers s = peers.
Proof.
  intros H. split; [eapply sup_run_inv; [apply supervisor_init_inv|exact H]|].
  assert (Hc : ∀ es s0 out0, sup_run s0 es = Ok (s, out0) → su_idx s = su_idx s0 ∧ su_peers s = su_peers s0).
  { clear. induction es as [|[reach e] es IH]; intros s0 out0 H; cbn in H; [by simplify_eq|].
    apply bind_Ok in H as ([[s1 o1] q1] & H1 & H). apply bind_Ok in H as ([s2 o2] & H2 & [= <- _]).
    destruct (sup_step_config _ _ _ _ _ _ H1) as [<- <-]. by eapply IH. }
  by apply (Hc _ _ _ H).
Qed.

(** C26: elections converge. Let [h] be the greatest number alive. Whatever the
    supervisors have been through and however their events interleave, the
    supervisor [h], once it handles a lost leader and is not a replica that has
    forgotten its leader, leads and stays the leader; and every other one, once
    it has given up a leader above [h], follows [h] from the next announcement of
    [h] on, until it handles a lost leader again. *)
Theorem election_converges (s0 : SupervisorNode) (h : Z) :
  sup_inv s0 →
  (∀ es, h = su_idx s0 → ¬ stale_replica s0 → LeaderDown ∈ es.*2 →
     Forall (highest s0) es → Forall (λ x, claim_ok s0 h x.2) es →
     ∃ s out, sup_run s0 es = Ok (s, out) ∧ leads s) ∧
  (∀ es1 reach es2, su_idx s0 < h → (∃ p, p ∈ su_peers s0 ∧ peer_idx p = h) →
     follows_below h s0 ∨ LeaderDown ∈ es1.*2 → LeaderDown ∉ es2.*2 →
     Forall (λ x, claim_ok s0 h x.2) (es1 ++ es2) →
     ∃ s out, sup_run s0 (es1 ++ (reach, PeerMessage (SupervisorLeader h)) :: es2) = Ok (s, out) ∧ follows s h).
Proof.
  intros Hs. split.
  { intros es -> Hn Hd Hh Hc. apply highest_leads; [done|by right|done..]. }
  intros es1 reach es2 Hlt Hpeer Hb Hd [Hc1 Hc2]%Forall_app.
  destruct (run_below h es1 s0 Hs Hb Hc1) as (s1 & o1 & E1 & Hs1 & Hb1 & Hi1 & Hp1).
  assert (Hclaim : claim_ok s1 h (PeerMessage (SupervisorLeader h))).
  { cbn. split; [lia|]. right. by rewrite Hp1. }
  destruct (sup_step_total reach s1 h _ Hclaim) as (s2 & o2 & q2 & E2).
  assert (Hf : follows s2 h).
  { pose proof E2 as E2'. cbn in E2'. apply bind_Ok in E2' as ([s3 o3] & H & [= <- <- <-]). apply handle_new_leader_cases in H.
    rewrite Hi1, (proj2 (Z.ltb_lt (su_idx s0) h)) in H by done. cbn [andb] in H.
    destruct (su_leader s1) as [l|] eqn:El.
    - unfold follows_below in Hb1. rewrite El in Hb1. destruct (peer_idx l <? h) eqn:Elt.
      + destruct H as (l' & _ & <- & ->). by exists l'.
      + apply Z.ltb_ge in Elt. subst s3. exists l. split; [done|]. split; [lia|]. by apply (inv_follows _ Hs1).
    - destruct H as (l' & _ & <- & ->). by exists l'. }
  destruct (sup_step_config _ _ _ _ _ _ E2) as [Hi2 Hp2].
  destruct (sup_run_keeps (λ s, follows s h) (λ x, x.2 ≠ LeaderDown) h es2 s2) as (s & out & E & _ & Hfin & _ & _).
  - intros s reach' e s' out q _ Hfo He Hc Hst. by eapply follows_stays.
  - by eapply sup_step_inv.
  - done.
  - apply Forall_forall. intros x Hx Ex. apply Hd. apply list_elem_of_fmap. by exists x.
  - eapply Forall_impl; [exact Hc2|]. intros x. apply claim_ok_config; congruence.
  - eexists s, _. split; [|exact Hfin]. rewrite (sup_run_app _ _ _ _ _ E1). cbn [sup_run].
    rewrite E2. cbn [mbind res_bind]. by rewrite E.
Qed.

Lemma stale_stuck es : ∀ s, sup_inv s → stale_replica s → Forall (λ x, claim_ok s (su_idx s) x.2) es →
  ∃ out, sup_run s es = Ok (s, out).
Proof.
  induction es as [|[reach e] es IH]; intros s Hs Hst Hc; cbn [sup_run]; [by exists []|].
  inversion_clear Hc as [|? ? Hc1 Hc']. cbn [snd] in Hc1.
  destruct (sup_step_total reach s _ e Hc1) as (s1 & o1 & q1 & E1). rewrite E1. cbn [mbind res_bind].
  assert (s1 = s) as ->.
  { destruct (decide (e = LeaderDown)) as [->|He]; [|by eapply low_claim_ignored].
    cbn in E1. unfold handle_leader_down in E1. rewrite (inv_idle _ Hs) in E1.
    destruct Hst as [Hl [host Hr]]. unfold is_leader in E1. rewrite Hl, Hr in E1. by simplify_eq. }
  destruct (IH s Hs Hst Hc') as (out & ->). by eexists.
Qed.

(** C28: a replica that hands an election over believes it leads: when it handles a lost
    leader (its own, or the request of a peer that has just started) and a greater
    peer accepts the connection, it forgets its leader and keeps its replica's
    runtime; it then announces itself to every peer it reaches, and if no greater
    supervisor announces itself it never leads, however often the leader is lost
    and even when it is the only one alive. *)
Theorem handed_over_election_stalls (s : SupervisorNode) (l : Peer) (reach : Peer → bool) :
  sup_inv s → su_leader s = Some l →
  Exists (λ p, peer_gt p (su_idx s) = true ∧ reach p = true) (su_peers s) →
  let s' := (handle_leader_down reach s).1 in
  is_leader s' = true ∧ su_runtime s' = Some (ReplicaRuntime (peer_host l)) ∧
  (∀ reach', announce reach' s' = (λ p, (p, SupervisorLeader (su_idx s))) <$> filter (λ p, reach' p = true) (su_peers s)) ∧
  ∀ es, Forall (λ x, claim_ok s (su_idx s) x.2) es → ∃ out, sup_run s' es = Ok (s', out).
Proof.
  intros Hs Hl Hx. destruct (inv_follows _ Hs l Hl) as (Hgt & Hin & Hr).
  assert (Hnl : is_leader s = false) by (unfold is_leader; by rewrite Hl).
  cbv zeta. pose proof (handle_leader_down_inv reach s Hs) as Hs'.
  destruct (handle_leader_down_cases reach s Hs) as [[El _]|[(_ & _ & E)|(_ & Hf & _)]]; [congruence| |].
  - rewrite E in *. assert (Hlead : is_leader (set_leader s None) = true) by (unfold is_leader; cbn; by rewrite Hr).
    split; [done|]. split; [done|]. split; [intros reach'; unfold announce; by rewrite Hlead|].
    intros es Hes. apply stale_stuck; [done| |exact Hes]. split; [done|]. by exists (peer_host l).
  - apply Exists_exists in Hx as (p & Hp & Hg & Hre). rewrite Forall_forall in Hf. by rewrite (Hf p Hp Hg) in Hre.
Qed.

(** ** Concrete inputs: three supervisors *)

Definition demo_all (p : Peer) : bool := true.
Definition demo_none (p : Peer) : bool := false.
Definition demo_s1 : SupervisorNode := supervisor_init 1 (make_peers "supervisor_" 1 3).
(** The second supervisor after an election won by the third. *)
Definition demo_following : SupervisorNode :=
  match sup_run demo_s1 [(demo_all, LeaderDown); (demo_all, PeerMessage (SupervisorLeader 2))] with
  | Ok (s, _) => s | Exc _ => demo_s1 end.

Definition demo_events : list occasion := [(demo_all, LeaderDown); (demo_all, PeerMessage (SupervisorLeader 2))].

Lemma demo_following_inv : sup_inv demo_following.
Proof.
  destruct (sup_run demo_s1 demo_events) as [[s out]|] eqn:E; [|vm_compute in E; discriminate].
  assert (demo_following = s) as -> by (unfold demo_following; fold demo_events; by rewrite E).
  eapply sup_run_inv; [apply supervisor_init_inv|exact E].
Qed.

Lemma supervisor_invariant_witness :
  ∃ s out, sup_run (supervisor_init 1 (make_peers "supervisor_" 1 3)) demo_events = Ok (s, out) ∧ sup_inv s.
Proof.
  do 2 eexists. split; [vm_compute; reflexivity|].
  eapply (supervisor_invariant 1 (make_peers "supervisor_" 1 3) demo_events). vm_compute. reflexivity.
Defined.

Lemma election_converges_witness :
  ∃ s out, sup_run demo_s1 ([(demo_all, LeaderDown)] ++ (demo_none, PeerMessage (SupervisorLeader 2)) ::
    [(demo_all, PeerMessage (SupervisorLeader 0))]) = Ok (s, out) ∧ follows s 2.
Proof.
  refine (proj2 (election_converges demo_s1 2 _) [(demo_all, LeaderDown)] demo_none
    [(demo_all, PeerMessage (SupervisorLeader 0))] _ _ _ _ _).
  - apply supervisor_init_inv.
  - done.
  - exists (mkPeer 2 "supervisor_2"). split; [|done]. right. left.
  - by left.
  - intros [H|H]%elem_of_cons; [done|by apply not_elem_of_nil in H].
  - constructor; [done|]. constructor; [|done]. split; [done|by left].
Defined.

Lemma handed_over_election_stalls_witness :
  let s' := (handle_leader_down demo_all demo_following).1 in
  is_leader s' = true ∧ su_runtime s' = Some (ReplicaRuntime "supervisor_2") ∧
  ∃ out, sup_run s' [(demo_none, LeaderDown); (demo_none, LeaderDown)] = Ok (s', out).
Proof.
  destruct (handed_over_election_stalls demo_following (mkPeer 2 "supervisor_2") demo_all) as (H1 & H2 & _ & H3).
  - exact demo_following_inv.
  - reflexivity.
  - apply (bool_decide_unpack _). vm_compute. exact I.
  - split; [exact H1|]. split; [exact H2|]. apply H3. by repeat constructor.
Defined.
