(* ===== verification/Dashboard.v ===== *)
(** * The operator's screen: [supervisor/tui.py]

    One frame of [Dashboard]: the table of the nodes in the order of their names, beside
    the newest events. The local time of an event is a function of its wall clock, an
    argument. The lines are UTF-8; only cells of ASCII are measured. *)

From Stdlib Require Import Floats.SpecFloat Numbers.DecimalString.
From S2P Require Import Prelude.
From S2P Require Import PyDict.
From S2P Require Import PyValues.
From S2P Require Import PyText.
From S2P Require Import PyTime.
From S2P Require Import PyFloat.
From S2P Require Import PyRepr.
From S2P Require Import Wire.
From S2P Require Import Registry.

Definition esc : string := str_of [chr 27].
Definition newline : string := str_of [c_newline].

Definition RESET : string := esc +:+ "[0m".
Definition CLEAR : string := esc +:+ "[2J" +:+ esc +:+ "[3J" +:+ esc +:+ "[H".
Definition COLORS (s : Status) : string :=
  esc +:+ match s with ALIVE => "[32m" | DEAD => "[31m" | UNKNOWN => "[33m" end.
Definition NODE_W : nat := 56.

(** The characters of the match of [\033\[[0-9;]*m] that starts here, if one does. *)
Fixpoint params_len (l : chars) : option nat :=
  match l with
  | [] => None
  | c :: l => if bool_decide (c = chr 109) then Some 1%nat
              else if is_digit c || bool_decide (c = chr 59) then S <$> params_len l else None
  end.
Definition ansi_len (l : chars) : option nat :=
  match l with
  | c :: d :: l => if bool_decide (c = chr 27) && bool_decide (d = chr 91) then (λ n, 2 + n)%nat <$> params_len l else None
  | _ => None
  end.

(** [_ANSI.sub("", s)]; [skip] is what is left of a match. *)
Fixpoint strip_ansi (skip : nat) (l : chars) : chars :=
  match l with
  | [] => []
  | c :: l' =>
      match skip with
      | S k => strip_ansi k l'
      | O => match ansi_len l with Some n => strip_ansi (n - 1) l' | None => c :: strip_ansi 0 l' end
      end
  end.

Definition vis_len (s : string) : nat := length (strip_ansi 0 (chars_of s)).
Definition pad_visible (s : string) (width : nat) : string := s +:+ str_of (replicate (width - vis_len s) c_space).

(** [f"{x:.1f}"]: the exact value, rounded to the nearest, a tie to the even digit. *)
Definition round_tenths (m e : Z) : Z :=
  let num := 10 * m in
  if 0 <=? e then num * 2 ^ e
  else
    let d := 2 ^ (- e) in
    let q := num / d in
    let r := num mod d in
    if 2 * r <? d then q else if d <? 2 * r then q + 1 else if Z.even q then q else q + 1.
Definition tenths_text (n : Z) : string := str_int (n / 10) +:+ "." +:+ str_int (n mod 10).
Definition sign_text (s : bool) : string := if s then "-" else "".
Definition fixed1 (f : float) : string :=
  match f with
  | S754_zero s => sign_text s +:+ "0.0"
  | S754_infinity s => sign_text s +:+ "inf"
  | S754_nan => "nan"
  | S754_finite s m e => sign_text s +:+ tenths_text (round_tenths (Zpos m) e)
  end.

Definition age (last_hb : option float) (now : float) : string :=
  match last_hb with None => "-" | Some hb => fixed1 (fsub now hb) +:+ "s" end.

(** [f"{s:<n.n}"] *)
Definition cell (n : nat) (s : string) : string := pad_right n (str_slice 0 n s).

Definition node_cell (n : NodeHealth) (now : float) : string :=
  let status := COLORS (nh_status n) +:+ pad_right 8 (status_value (nh_status n)) +:+ RESET in
  cell 30 (nh_id n) +:+ cell 11 (nh_kind n) +:+ status +:+ pad_right 7 (age (nh_last n) now).

Section frame.
(** [time.strftime("%H:%M:%S", time.localtime(at))] *)
Context (local_time : float → string).

Definition event_cell (e : RegEvent) : string :=
  str_slice 0 46 ("[" +:+ local_time (re_at e) +:+ "] " +:+ re_node e +:+ ": " +:+ re_message e).

Definition by_id (a b : NodeHealth) : Prop := Is_true (str_leb (nh_id a) (nh_id b)).
#[export] Instance by_id_dec a b : Decision (by_id a b) := _.

Definition count_status (s : Status) (nodes : list NodeHealth) : Z :=
  Z.of_nat (length (filter (λ n, nh_status n = s) nodes)).

Definition dashboard_rows (r : NodeRegistry) (now : float) : list string :=
  let '(nodes, events) := registry_snapshot r in
  let nodes := merge_sort by_id nodes in
  let node_cells := (λ n, node_cell n now) <$> nodes in
  let event_cells := take (length node_cells) (event_cell <$> reverse events) in
  [ "SUPERVISOR — node liveness (heartbeat-driven)   total=" +:+ str_int (Z.of_nat (length nodes)) +:+
      "  alive=" +:+ str_int (count_status ALIVE nodes) +:+ "  dead=" +:+ str_int (count_status DEAD nodes);
    "";
    pad_visible (pad_right 30 "NODE" +:+ pad_right 11 "KIND" +:+ pad_right 8 "STATUS" +:+ pad_right 7 "HB") NODE_W +:+ " │ EVENTS (newest first)";
    str_of (replicate NODE_W (chr 45)) +:+ "-┼-" +:+ str_of (replicate 40 (chr 45)) ] ++
  imap (λ i left, pad_visible left NODE_W +:+ " │ " +:+ default "" (event_cells !! i)) node_cells.

Definition render (r : NodeRegistry) (now : float) : string :=
  CLEAR +:+ String.concat newline (dashboard_rows r now).
End frame.

(** ** Ages *)

Example fixed1_ties : fixed1 <$> [f_of_dec 25 (-2); f_of_dec 35 (-2); f_of_dec 5 (-2); f_of_dec 149 (-1)] = ["0.2"; "0.3"; "0.1"; "14.9"].
Proof. vm_compute. reflexivity. Qed.

Lemma chars_lt_asym a : ∀ b, chars_lt a b = true → chars_lt b a = false.
Proof.
  induction a as [|x a IH]; intros [|y b]; cbn [chars_lt]; try done. intros [H|[H1 H2]%andb_true_iff]%orb_true_iff.
  - apply Nat.ltb_lt in H. apply orb_false_iff. split; [apply Nat.ltb_ge; lia|]. apply andb_false_iff. left. apply Nat.eqb_neq. lia.
  - apply Nat.eqb_eq in H1. apply orb_false_iff. split; [apply Nat.ltb_ge; lia|]. apply andb_false_iff. right. by apply IH.
Qed.

#[export] Instance by_id_total : Total by_id.
Proof.
  intros a b. unfold by_id, str_leb, str_ltb. destruct (chars_lt (chars_of (nh_id b)) (chars_of (nh_id a))) eqn:E; [right|by left].
  by rewrite (chars_lt_asym _ _ E).
Qed.

Definition plain (l : chars) : Prop := Forall (λ c, c ≠ chr 27) l.

Lemma str_int_plain z : plain (chars_of (str_int z)).
Proof.
  assert (Hd : ∀ d, plain (chars_of (NilEmpty.string_of_uint d))).
  { intros d. eapply Forall_impl; [apply uint_digits|]. by intros c Hc ->. }
  unfold str_int, NilZero.string_of_int. destruct (Z.to_int z) as [d|d]; [|cbn; constructor; [done|]];
    (destruct d; [repeat constructor; done|apply Hd..]).
Qed.

Lemma age_plain last now : plain (chars_of (age last now)).
Proof.
  assert (Hs : ∀ s, plain (chars_of (sign_text s))) by (intros []; repeat constructor; done).
  destruct last as [hb|]; [|repeat constructor; done]. unfold age, plain in *. rewrite chars_of_app. apply Forall_app.
  split; [|repeat constructor; done].
  destruct (fsub now hb) as [s|s| |s m e]; cbn [fixed1]; [..|unfold tenths_text]; rewrite ?chars_of_app, ?Forall_app; split_and?;
    try apply Hs; try apply str_int_plain; repeat constructor; done.
Qed.

Lemma pad_right_length n s : length (chars_of (pad_right n s)) = Nat.max n (length (chars_of s)).
Proof. unfold pad_right. rewrite chars_of_str, length_app, length_replicate. lia. Qed.

Lemma pad_right_plain n s : plain (chars_of s) → plain (chars_of (pad_right n s)).
Proof.
  intros Hs. unfold pad_right, plain. rewrite chars_of_str. apply Forall_app. split; [done|]. by apply Forall_replicate.
Qed.

Lemma cell_length n s : length (chars_of (cell n s)) = n.
Proof. unfold cell. rewrite pad_right_length. unfold str_slice, slice. rewrite chars_of_str, length_take. lia. Qed.

Lemma cell_plain n s : plain (chars_of s) → plain (chars_of (cell n s)).
Proof. intros Hs. apply pad_right_plain. unfold str_slice, slice. rewrite chars_of_str. by apply Forall_take, Forall_drop. Qed.

(** ** What the screen shows *)

Lemma strip_plain_app a b : plain a → strip_ansi 0 (a ++ b) = a ++ strip_ansi 0 b.
Proof.
  induction 1 as [|c a Hc _ IH]; [done|]. cbn [app strip_ansi].
  assert (ansi_len (c :: a ++ b) = None) as ->; [|by rewrite IH]. cbn [ansi_len]. rewrite bool_decide_false by done. by destruct (a ++ b).
Qed.

Lemma strip_color s l : strip_ansi 0 (chars_of (COLORS s) ++ l) = strip_ansi 0 l.
Proof. by destruct s. Qed.
Lemma strip_reset l : strip_ansi 0 (chars_of RESET ++ l) = strip_ansi 0 l.
Proof. done. Qed.

(** A node whose cells are text: an age of at most seven characters, to 9999.9 s. *)
Definition readable (now : float) (n : NodeHealth) : Prop :=
  plain (chars_of (nh_id n)) ∧ plain (chars_of (nh_kind n)) ∧ (length (chars_of (age (nh_last n) now)) ≤ 7)%nat.

Lemma node_cell_width now n : readable now n → vis_len (node_cell n now) = NODE_W.
Proof.
  intros (Hi & Hk & Ha). unfold vis_len, node_cell. rewrite !chars_of_app, <- !app_assoc.
  rewrite strip_plain_app by (by apply cell_plain). rewrite strip_plain_app by (by apply cell_plain).
  rewrite strip_color, strip_plain_app by (destruct (nh_status n); repeat constructor; done). rewrite strip_reset.
  rewrite <- (app_nil_r (chars_of (pad_right 7 _))), strip_plain_app by apply pad_right_plain, age_plain. cbn [strip_ansi].
  rewrite !length_app, !cell_length, !pad_right_length. cbn [length]. unfold NODE_W. destruct (nh_status n); cbn [status_value chars_of String.list_ascii_of_string length]; lia.
Qed.

Lemma pad_visible_full s : vis_len s = NODE_W → pad_visible s NODE_W = s.
Proof. intros E. unfold pad_visible. rewrite E, Nat.sub_diag. cbn [replicate]. apply chars_of_inj. by rewrite chars_of_app, chars_of_str, app_nil_r. Qed.

Lemma statuses_counted nodes : count_status ALIVE nodes + count_status DEAD nodes + count_status UNKNOWN nodes = Z.of_nat (length nodes).
Proof.
  unfold count_status. induction nodes as [|n nodes IH]; [done|]. rewrite !filter_cons.
  destruct (nh_status n) eqn:E; repeat (first [rewrite decide_True by done|rewrite decide_False by done]); cbn [length]; lia.
Qed.

(** A frame shows the nodes of the table, each once, in the order of their names, and
    beside them the newest events, newest first, at most one a node: every divider is at
    the same column of the terminal, whatever the colours, while the text of every age
    fits its column. *)
Theorem dashboard_frame local_time r now (nodes := merge_sort by_id (dvalues (rg_nodes r))) :
  Forall (readable now) (dvalues (rg_nodes r)) →
  nodes ≡ₚ dvalues (rg_nodes r) ∧ Sorted by_id nodes ∧
  count_status ALIVE nodes + count_status DEAD nodes + count_status UNKNOWN nodes = Z.of_nat (length nodes) ∧
  ∃ head body, dashboard_rows local_time r now = head ++ body ∧ length head = 4%nat ∧ length body = length nodes ∧
    ∀ i n, nodes !! i = Some n → ∃ left right, body !! i = Some (left +:+ " │ " +:+ right) ∧ left = node_cell n now ∧ vis_len left = NODE_W ∧
      right = match reverse (rg_events r) !! i with Some e => event_cell local_time e | None => "" end ∧ (length (chars_of right) ≤ 46)%nat.
Proof.
  intros Hr. assert (Hp : nodes ≡ₚ dvalues (rg_nodes r)) by apply merge_sort_Permutation. split; [done|]. split; [by apply Sorted_merge_sort; apply _|]. split; [apply statuses_counted|].
  unfold dashboard_rows. cbn [registry_snapshot]. fold nodes. eexists _, _. split; [reflexivity|]. split; [done|].
  split; [by rewrite length_imap, length_fmap|]. intros i n Hn. eexists (node_cell n now), _.
  assert (Hw : vis_len (node_cell n now) = NODE_W).
  { apply node_cell_width. rewrite <- Hp in Hr. by apply (Forall_lookup_1 _ _ _ _ Hr Hn). }
  rewrite list_lookup_imap, list_lookup_fmap, Hn. cbn [fmap option_fmap option_map]. rewrite pad_visible_full by done.
  split; [reflexivity|]. split; [done|]. split; [done|]. rewrite length_fmap, lookup_take_lt by (by eapply lookup_lt_Some). rewrite list_lookup_fmap.
  destruct (reverse (rg_events r) !! i) as [e|]; (split; [reflexivity|]); [|cbn; lia]. cbn [fmap option_fmap option_map default from_option id].
  unfold event_cell, str_slice, slice. rewrite chars_of_str, length_take. lia.
Qed.

(** A frame of two nodes, one never seen. *)
Lemma dashboard_frame_witness :
  let r := register (registry_init (f_of_Z 5) ["n2"] 10) "n1" "filter" (f_of_Z 0) (f_of_Z 0) in
  length (dashboard_rows (λ _, "00:00:00") r (f_of_Z 1)) = 6%nat ∧
  ∃ line, dashboard_rows (λ _, "00:00:00") r (f_of_Z 1) !! 4%nat = Some (line +:+ " │ [00:00:00] n1: registered -> alive") ∧ vis_len line = NODE_W.
Proof.
  intros r. assert (Hr : Forall (readable (f_of_Z 1)) (dvalues (rg_nodes r))).
  { apply (bool_decide_unpack _). vm_compute. exact I. }
  destruct (dashboard_frame (λ _, "00:00:00") r (f_of_Z 1) Hr) as (_ & _ & _ & head & body & E & Hh & Hb & H). split.
  - rewrite E, length_app, Hh, Hb. vm_compute. reflexivity.
  - edestruct (H 0%nat) as (left & right & Hl & -> & Hw & Er & _); [vm_compute; reflexivity|]. eexists. split; [|exact Hw].
    rewrite E, lookup_app_r by (rewrite Hh; lia). rewrite Hh. change (4 - 4)%nat with 0%nat. rewrite Hl, Er. vm_compute. reflexivity.
Defined.
