(* ===== verification/Heartbeat.v ===== *)
(** * Heartbeats: [common/heartbeat/client.py] and the leader's side of them

    The thread of a node that registers with the supervisor and signals that the
    node is alive, as a state machine over what happens to it, and the loop of the
    leader that serves one such connection ([LeaderRuntime._handle_clients]). The
    waits between two signals and between two attempts to connect are not
    modelled: the order of the events is what they leave. *)

From S2P Require Import Prelude.
From S2P Require Import PyDict.
From S2P Require Import PyValues.
From S2P Require Import PyFloat.
From S2P Require Import Wire.
From S2P Require Import Connection.
From S2P Require Import Registry.

(** ** [HeartbeatClient] *)

Record HeartbeatClient := mkHB {
  hb_node_id : string;
  hb_kind : string;
  hb_stop : bool;
  hb_conn : option Connection
}.

Definition hb_init (node_id kind : string) : HeartbeatClient := mkHB node_id kind false None.

Definition hb_set_conn (h : HeartbeatClient) (conn : option Connection) : HeartbeatClient :=
  mkHB (hb_node_id h) (hb_kind h) (hb_stop h) conn.

(** [stop]: an error of the close is ignored. *)
Definition hb_stopped (connected : bool) (h : HeartbeatClient) : HeartbeatClient :=
  mkHB (hb_node_id h) (hb_kind h) true ((λ conn, (conn_close connected conn).1) <$> hb_conn h).

(** Where the thread is: in [_connect_to_server], in the loop of [_run], or at
    its end. *)
Inductive HbPhase := Connecting | Beating | Ended (r : res unit).

(** What happens to the thread: an attempt to connect fails, or yields a
    connection over which the registration is sent or not; a turn of the loop
    whose send succeeds or not; and the stop, from another thread. *)
Inductive HbEvent :=
  | Unreachable
  | Reached (conn : Connection) (sendable : bool)
  | Beat (sendable : bool)
  | StopSet (connected : bool).

Section client.
Context `{MP : MsgPack}.

(** One attempt of [_connect_to_server]: whether it connects. *)
Definition hb_connect (h : HeartbeatClient) (conn : Connection) (sendable : bool) : HeartbeatClient * res unit :=
  match (data ← encode (Register (hb_node_id h) (hb_kind h)); conn ← conn_send conn data; guard_exc OSError sendable;; Ok conn) with
  | Ok conn => (hb_set_conn h (Some conn), Ok tt)
  | Exc e => (h, Exc e)
  end.

(** [_heartbeat]; the connection is as the send and the receive leave it. *)
Definition hb_heartbeat (h : HeartbeatClient) (sendable : bool) : HeartbeatClient * res unit :=
  match hb_conn h with
  | None => (h, Exc RuntimeError)
  | Some conn =>
      match (data ← encode (Registry.Heartbeat (hb_node_id h)); conn ← conn_send conn data; guard_exc OSError sendable;; conn_recv conn) with
      | Exc e => (h, Exc e)
      | Ok (raw, conn) =>
          (hb_set_conn h (Some conn),
           msg ← decode raw;
           match msg with Registry.Heartbeat _ => Ok tt | Register _ _ => Exc OSError end)
      end
  end.

(** [_run], one event at a time; each loop looks at the flag before its turn. *)
Definition hb_step (st : HeartbeatClient * HbPhase) (ev : HbEvent) : HeartbeatClient * HbPhase :=
  let '(h, phase) := st in
  match ev, phase with
  | StopSet connected, _ => (hb_stopped connected h, phase)
  | _, Ended _ => st
  | _, _ =>
      if hb_stop h then (h, Ended (Ok tt))
      else
        match phase, ev with
        | Connecting, Reached conn sendable =>
            match hb_connect h conn sendable with
            | (h, Ok _) => (h, Beating)
            | (h, Exc OSError) => (h, Connecting)
            | (h, Exc e) => (h, Ended (Exc e))
            end
        | Beating, Beat sendable =>
            match hb_heartbeat h sendable with
            | (h, Ok _) => (h, Beating)
            | (h, Exc OSError) => (h, Connecting)
            | (h, Exc e) => (h, Ended (Exc e))
            end
        | _, _ => st
        end
  end.

Definition hb_run (h : HeartbeatClient) (evs : list HbEvent) : HeartbeatClient * HbPhase :=
  foldl hb_step (h, Connecting) evs.

(** ** The leader *)

(** [handle_client], a turn for every two readings of the clocks, with whether
    the reply can be sent; [None] while the connection is served. *)
Fixpoint handle_client (connected : bool) (r : NodeRegistry) (conn : Connection) (turns : list (float * float * bool))
    : NodeRegistry * Connection * option (res unit) :=
  match turns with
  | [] => (r, conn, None)
  | (now, wall, sendable) :: turns =>
      match conn_recv conn with
      | Exc OSError => (r, (conn_close connected conn).1, Some (Ok tt))
      | Exc e => (r, (conn_close connected conn).1, Some (Exc e))
      | Ok ([], conn) => (r, (conn_close connected conn).1, Some (Ok tt))
      | Ok (data, conn) =>
          match client_message r data now wall with
          | Exc ValueError | Exc OSError => (r, (conn_close connected conn).1, Some (Ok tt))
          | Exc e => (r, (conn_close connected conn).1, Some (Exc e))
          | Ok (r, reply) =>
              match conn_send conn reply with
              | Exc e => (r, (conn_close connected conn).1, Some (Exc e))
              | Ok conn =>
                  if sendable then handle_client connected r conn turns
                  else (r, (conn_close connected conn).1, Some (Ok tt))
              end
          end
      end
  end.

(** ** A session *)

Section session.
Context (node_id kind : string) (reg beat reply : bytes).

(** The messages of a session on the wire: none is empty or too long. *)
Definition signal_of (m : SupMessage) (data : bytes) : Prop := encode m = Ok data ∧ data ≠ [] ∧ frameable data.

Record signals : Prop := {
  sig_reg : signal_of (Register node_id kind) reg;
  sig_beat : signal_of (Registry.Heartbeat node_id) beat;
  sig_reply : signal_of (Registry.Heartbeat "supervisor") reply
}.

Lemma signal_decodes m data : signal_of m data → decode data = Ok m.
Proof. intros [E _]. destruct (decode_encode m) as (data' & E' & D). assert (data' = data) as -> by congruence. done. Qed.

Hypothesis sent : signals.

(** One signal and its reply. *)
Lemma hb_heartbeat_ok h conn tail :
  hb_node_id h = node_id → hb_conn h = Some conn → solid (conn_in conn) → List.concat (conn_in conn) = frame reply ++ tail →
  ∃ conn', hb_heartbeat h true = (hb_set_conn h (Some conn'), Ok tt) ∧ solid (conn_in conn') ∧
    List.concat (conn_in conn') = tail ∧ conn_out conn' = conn_out conn ++ frame beat ∧ conn_keep_running conn' = conn_keep_running conn.
Proof.
  intros Hid Hc Hs Ht. destruct sent as [_ (Eb & _ & Hb) Hrep]. pose proof Hrep as (_ & _ & Hr). unfold hb_heartbeat. rewrite Hc, Hid, Eb. cbn [mbind res_bind].
  rewrite conn_send_frame by done. cbn [mbind res_bind guard_exc].
  destruct (conn_recv_frame (mkConn (conn_keep_running conn) (conn_in conn) (conn_out conn ++ frame beat)) reply tail Hs Hr Ht)
    as (chunks & E & Hs' & Hc'). rewrite E, (signal_decodes _ _ Hrep).
  eexists. split; [reflexivity|]. done.
Qed.

Lemma hb_beats n : ∀ h conn tail,
  hb_node_id h = node_id → hb_conn h = Some conn → hb_stop h = false → solid (conn_in conn) →
  List.concat (conn_in conn) = List.concat (replicate n (frame reply)) ++ tail →
  ∃ h' conn', foldl hb_step (h, Beating) (replicate n (Beat true)) = (h', Beating) ∧ hb_node_id h' = node_id ∧ hb_conn h' = Some conn' ∧
    hb_stop h' = false ∧ solid (conn_in conn') ∧ List.concat (conn_in conn') = tail ∧
    conn_out conn' = conn_out conn ++ List.concat (replicate n (frame beat)) ∧ conn_keep_running conn' = conn_keep_running conn.
Proof.
  induction n as [|n IH]; intros h conn tail Hid Hc Hstop Hs Ht.
  { exists h, conn. cbn. rewrite app_nil_r. done. }
  cbn [replicate List.concat foldl] in *. rewrite <- app_assoc in Ht.
  destruct (hb_heartbeat_ok h conn _ Hid Hc Hs Ht) as (conn1 & E & Hs1 & Ht1 & Ho1 & Hk1). cbn [hb_step]. rewrite Hstop, E.
  destruct (IH (hb_set_conn h (Some conn1)) conn1 tail Hid eq_refl Hstop Hs1 Ht1) as (h' & conn' & E' & H0 & H1 & H2 & H3 & H4 & H5 & H6).
  exists h', conn'. split_and!; try done; [by rewrite H5, Ho1, app_assoc|congruence].
Qed.

Lemma hb_registered chunks : ∃ h conn,
  hb_step (hb_init node_id kind, Connecting) (Reached (conn_open chunks) true) = (h, Beating) ∧ hb_node_id h = node_id ∧ hb_conn h = Some conn ∧
  hb_stop h = false ∧ conn = mkConn true chunks (frame reg).
Proof.
  destruct sent as [(Er & _ & Hf) _ _]. cbn [hb_step hb_stop hb_init]. unfold hb_connect. cbn [hb_node_id hb_kind hb_init].
  rewrite Er. cbn [mbind res_bind]. rewrite conn_send_frame by done. cbn [mbind res_bind guard_exc].
  eexists _, _. split; [reflexivity|]. done.
Qed.

(** The leader answers every message it can decode. *)
Lemma handle_client_message connected r conn data msg tail now wall turns :
  signal_of msg data → solid (conn_in conn) → List.concat (conn_in conn) = frame data ++ tail →
  ∃ conn', handle_client connected r conn ((now, wall, true) :: turns) =
    handle_client connected (match msg with Register n k => register r n k now wall | Registry.Heartbeat n => heartbeat r n now wall end) conn' turns ∧
    solid (conn_in conn') ∧ List.concat (conn_in conn') = tail ∧ conn_out conn' = conn_out conn ++ frame reply.
Proof.
  intros Hm Hs Ht. destruct sent as [_ _ (Er & _ & Hr)]. pose proof Hm as (_ & Hne & Hd). destruct (conn_recv_frame conn data tail Hs Hd Ht) as (chunks & E1 & Hs1 & Ht1).
  cbn [handle_client]. rewrite E1. destruct data as [|b data]; [done|].
  unfold client_message. rewrite (signal_decodes _ _ Hm). cbn [mbind res_bind]. rewrite Er. cbn [mbind res_bind].
  rewrite conn_send_frame by done. eexists. split; [reflexivity|]. done.
Qed.

Lemma handle_client_beats connected turns : ∀ r conn,
  solid (conn_in conn) → List.concat (conn_in conn) = List.concat (replicate (length turns) (frame beat)) →
  ∃ conn', handle_client connected r conn ((λ t : float * float, (t.1, t.2, true)) <$> turns) =
    (foldl (λ r t, heartbeat r node_id t.1 t.2) r turns, conn', None) ∧
    conn_out conn' = conn_out conn ++ List.concat (replicate (length turns) (frame reply)).
Proof.
  destruct sent as [_ Hb _]. induction turns as [|[now wall] turns IH]; intros r conn Hs Ht.
  { exists conn. cbn. by rewrite app_nil_r. }
  cbn [length replicate List.concat] in *. rewrite fmap_cons. cbn [fst snd foldl].
  destruct (handle_client_message connected r conn beat _ _ now wall ((λ t : float * float, (t.1, t.2, true)) <$> turns) Hb Hs Ht)
    as (conn1 & -> & Hs1 & Ht1 & Ho1).
  destruct (IH (heartbeat r node_id now wall) conn1 Hs1 Ht1) as (conn' & E & Ho). exists conn'. split; [exact E|].
  by rewrite Ho, Ho1, app_assoc.
Qed.
End session.

Lemma last_cons_default {A} (l : list A) : ∀ x d, List.last (x :: l) d = List.last l x.
Proof. induction l as [|y l IH]; intros x d; [done|]. change (List.last (x :: y :: l) d) with (List.last (y :: l) d). by rewrite !IH. Qed.

(** Signals leave a node alive, with the time of the last. *)
Lemma heartbeats_node node_id kind turns : ∀ r t,
  registry_ok r → dget (rg_nodes r) node_id = Some (mkNH node_id kind ALIVE (Some t)) →
  dget (rg_nodes (foldl (λ r t, heartbeat r node_id t.1 t.2) r turns)) node_id =
    Some (mkNH node_id kind ALIVE (Some (List.last (turns.*1) t))).
Proof.
  induction turns as [|[now wall] turns IH]; intros r t Hr Hn; [done|]. cbn [foldl fst snd].
  rewrite (IH _ now).
  - cbn [fmap list_fmap fst]. do 3 f_equal. by rewrite last_cons_default.
  - apply (reg_step_ok r (RegHeartbeat node_id now wall) Hr).
  - unfold heartbeat. rewrite transition_node. cbn [nh_id]. rewrite registry_node_id, decide_True by done.
    unfold registry_node, dget_or. by rewrite Hn.
Qed.
End client.

(** C34: heartbeats keep a node alive, and tell the node when its leader is gone. Over
    one connection, however the network cuts the bytes into chunks: the leader takes
    the registration and every signal, has the node alive with the time of the last
    one, and answers each message; the node sends them all without an error. The
    answer to the registration is never read for itself, so the node is always one
    answer behind: one stays unread. If the leader answers some of the messages and
    goes away, in the middle of an answer or between two, the signals that find an
    answer succeed and the next one sends the node back to connect. *)
Theorem heartbeats_keep_alive `{MP : MsgPack} (node_id kind : string) (reg beat reply : bytes) (r : NodeRegistry) (connected : bool)
    (now wall : float) (turns : list (float * float)) (to_leader to_node : list bytes) :
  signals node_id kind reg beat reply → registry_ok r → solid to_leader → solid to_node →
  List.concat to_leader = frame reg ++ List.concat (replicate (length turns) (frame beat)) →
  (∃ r' conn, handle_client connected r (conn_open to_leader) ((now, wall, true) :: ((λ t, (t.1, t.2, true)) <$> turns)) = (r', conn, None) ∧
     conn_out conn = List.concat (replicate (S (length turns)) (frame reply)) ∧
     r' = foldl (λ r t, heartbeat r node_id t.1 t.2) (register r node_id kind now wall) turns ∧
     dget (rg_nodes r') node_id = Some (mkNH node_id kind ALIVE (Some (List.last (turns.*1) now)))) ∧
  (List.concat to_node = List.concat (replicate (S (length turns)) (frame reply)) →
   ∃ h conn, hb_run (hb_init node_id kind) (Reached (conn_open to_node) true :: replicate (length turns) (Beat true)) = (h, Beating) ∧
     hb_conn h = Some conn ∧ conn_out conn = List.concat to_leader ∧ List.concat (conn_in conn) = frame reply) ∧
  (∀ k, (k < length (frame reply))%nat → List.concat to_node = List.concat (replicate (length turns) (frame reply)) ++ take k (frame reply) →
   (hb_run (hb_init node_id kind) (Reached (conn_open to_node) true :: replicate (length turns) (Beat true))).2 = Beating ∧
   (hb_run (hb_init node_id kind) (Reached (conn_open to_node) true :: replicate (S (length turns)) (Beat true))).2 = Connecting).
Proof.
  intros Hsig Hr Hsl Hsn Hl. pose proof Hsig as [Hreg Hbeat Hrep]. split_and!.
  - destruct (handle_client_message node_id kind reg beat reply Hsig connected r (conn_open to_leader) reg _ _ now wall
      ((λ t, (t.1, t.2, true)) <$> turns) Hreg Hsl Hl) as (conn1 & -> & Hs1 & Ht1 & Ho1).
    destruct (handle_client_beats node_id kind reg beat reply Hsig connected turns (register r node_id kind now wall) conn1 Hs1 Ht1)
      as (conn2 & -> & Ho2).
    eexists _, conn2. split; [reflexivity|]. split; [by rewrite Ho2, Ho1|]. split; [done|]. apply heartbeats_node.
    + apply (reg_step_ok r (RegRegister node_id kind now wall) Hr).
    + unfold register. rewrite transition_node. cbn [nh_id]. by rewrite registry_node_id, decide_True by done.
  - intros Hn. destruct (hb_registered node_id kind reg beat reply Hsig to_node) as (h1 & conn1 & E1 & Hid & Hc1 & Hst & ->).
    change (S (length turns)) with (1 + length turns)%nat in Hn. rewrite Nat.add_comm, replicate_add, concat_app in Hn.
    destruct (hb_beats node_id kind reg beat reply Hsig (length turns) h1 _ _ Hid Hc1 Hst Hsn Hn)
      as (h2 & conn2 & E2 & _ & Hc2 & _ & _ & Ht2 & Ho2 & _).
    exists h2, conn2. unfold hb_run. cbn [foldl]. rewrite E1. split; [exact E2|]. split; [done|].
    split; [by rewrite Ho2, Hl|]. rewrite Ht2. apply app_nil_r.
  - intros k Hk Hn. destruct (hb_registered node_id kind reg beat reply Hsig to_node) as (h1 & conn1 & E1 & Hid & Hc1 & Hst & ->).
    destruct (hb_beats node_id kind reg beat reply Hsig (length turns) h1 _ _ Hid Hc1 Hst Hsn Hn)
      as (h2 & conn2 & E2 & Hid2 & Hc2 & Hst2 & Hs2 & Ht2 & Ho2 & Hk2).
    unfold hb_run. cbn [foldl]. rewrite E1, E2. split; [done|].
    change (S (length turns)) with (1 + length turns)%nat. rewrite Nat.add_comm, replicate_add, foldl_app, E2.
    cbn [replicate foldl hb_step]. rewrite Hst2. unfold hb_heartbeat. rewrite Hc2. destruct Hbeat as (Eb & _ & Hfb), Hrep as (_ & _ & Hfr).
    rewrite Hid2, Eb. cbn [mbind res_bind]. rewrite conn_send_frame by done. cbn [mbind res_bind guard_exc].
    rewrite (conn_recv_cut _ reply k); done.
Qed.

Section demo.
#[local] Existing Instance msgpack_model.

Definition sup_raw (m : SupMessage) : bytes := match encode m with Ok b => b | Exc _ => [] end.
Definition demo_reg : bytes := sup_raw (Register "n1" "filter").
Definition demo_beat : bytes := sup_raw (Registry.Heartbeat "n1").
Definition demo_reply : bytes := sup_raw (Registry.Heartbeat "supervisor").

(** The leader goes away in the middle of its second answer. *)
Lemma heartbeats_keep_alive_witness :
  (hb_run (hb_init "n1" "filter") (Reached (conn_open [frame demo_reply; take 3 (frame demo_reply)]) true :: replicate 1 (Beat true))).2 = Beating ∧
  (hb_run (hb_init "n1" "filter") (Reached (conn_open [frame demo_reply; take 3 (frame demo_reply)]) true :: replicate 2 (Beat true))).2 = Connecting.
Proof.
  destruct (heartbeats_keep_alive "n1" "filter" demo_reg demo_beat demo_reply (registry_init (f_of_Z 5) [] 10) true
    (f_of_Z 1) (f_of_Z 1) [(f_of_Z 2, f_of_Z 2)] [frame demo_reg; frame demo_beat] [frame demo_reply; take 3 (frame demo_reply)])
    as (_ & _ & H).
  - split; (split; [vm_compute; reflexivity|split; [vm_compute; discriminate|vm_compute; reflexivity]]).
  - apply registry_init_ok.
  - repeat (apply Forall_cons; split; [vm_compute; discriminate|]). by apply Forall_nil.
  - repeat (apply Forall_cons; split; [vm_compute; discriminate|]). by apply Forall_nil.
  - reflexivity.
  - apply (H 3%nat); [vm_compute; lia|reflexivity].
Defined.
End demo.
