(* ===== verification/Gateway.v ===== *)
(** * The gateway: [gateway/client_stream_handler.py], [gateway/client_stream_monitor.py]

    The session of one client: the handshake, the forwarding of its upload to the
    durable shards of the pipeline, the delivery of its responses, and what becomes
    of the session when the client goes away. A publication to the broker is an
    element of the list of outputs; whether a write to the client's socket succeeds
    is an argument, since the network decides it. *)

From S2P Require Import Prelude.
From S2P Require Import PyDict.
From S2P Require Import PyValues.
From S2P Require Import PyText.
From S2P Require Import Wire.
From S2P Require Import Messages.
From S2P Require Import Stamping.
From S2P Require Import Connection.

(** ** [ClientStreamMonitor] *)

Abbreviation ClientStreamMonitor := (pyset uuid).

Definition monitor_add (m : ClientStreamMonitor) (client_id : uuid) : ClientStreamMonitor := sadd m client_id.
Definition monitor_remove (m : ClientStreamMonitor) (client_id : uuid) : ClientStreamMonitor := sdiscard m client_id.

(** The clients to stop, once the table has been emptied. *)
Definition monitor_stop_all (m : ClientStreamMonitor) : ClientStreamMonitor * list uuid := ([], m).

(** ** [ClientStreamHandler] *)

Record ClientStreamHandler := mkCSH {
  gw_id : uuid;
  gw_conn : Connection;
  gw_closed : bool;
  gw_rx : option bool;              (* the response consumer: consuming or stopped *)
  gw_monitor : ClientStreamMonitor  (* shared by the handlers *)
}.

Definition gw_init (id : uuid) (conn : Connection) (m : ClientStreamMonitor) : ClientStreamHandler :=
  mkCSH id conn false None m.

Definition set_conn (s : ClientStreamHandler) (conn : Connection) : ClientStreamHandler :=
  mkCSH (gw_id s) conn (gw_closed s) (gw_rx s) (gw_monitor s).

(** [_close]: closing twice is harmless, and so is closing a lost connection. *)
Definition gw_close (connected : bool) (s : ClientStreamHandler) : ClientStreamHandler :=
  if gw_closed s then s
  else mkCSH (gw_id s) (conn_close connected (gw_conn s)).1 true (gw_rx s) (gw_monitor s).

Definition stop_rx (s : ClientStreamHandler) : ClientStreamHandler :=
  mkCSH (gw_id s) (gw_conn s) (gw_closed s) ((λ _, false) <$> gw_rx s) (gw_monitor s).

(** [stop] *)
Definition gw_stop (connected : bool) (s : ClientStreamHandler) : ClientStreamHandler := stop_rx (gw_close connected s).

(** [_teardown] *)
Definition gw_teardown (connected : bool) (s : ClientStreamHandler) : ClientStreamHandler :=
  let s := mkCSH (gw_id s) (gw_conn s) (gw_closed s) (gw_rx s) (monitor_remove (gw_monitor s) (gw_id s)) in
  gw_close connected (stop_rx s).

(** [_stamp_id] *)
Definition stamp_id (id : uuid) (raw : bytes) : bytes := TYPE_RANGE raw ++ uuid_bytes id ++ drop 17 raw.

(** The two uploads of a client. *)
Inductive GwRoute := TransRoute | AccsRoute.

(** The shard of a route a message is published to, and its bytes. *)
Abbreviation publication := (GwRoute * nat * bytes)%type.

(** What a forwarding loop changes: the connection, the stamping state its shards
    share (one producer and one counter for all of them), and the publications. *)
Record Upload := mkUpload { up_conn : Connection; up_stamp : StampingMOM; up_out : list publication }.

Section handler.
Context `{MP : MsgPack}.
Implicit Types (s : ClientStreamHandler) (u : Upload) (id : uuid).

(** [tx.send(message.serialize())] to the shards [is_] in turn. *)
Fixpoint send_control (r : GwRoute) (message : nat → Message) (is_ : list nat) u : Upload * res unit :=
  match is_ with
  | [] => (u, Ok tt)
  | i :: is_ =>
      match serialize (message i) with
      | Exc e => (u, Exc e)
      | Ok raw =>
          let '(st, sent) := sm_send (up_stamp u) raw in
          match sent with
          | Exc e => (mkUpload (up_conn u) st (up_out u), Exc e)
          | Ok raw => send_control r message is_ (mkUpload (up_conn u) st (up_out u ++ [(r, i, raw)]))
          end
      end
  end.

Definition eof_of (id : uuid) (counts : list Z) (i : nat) : Message :=
  new_msg (EOF id (-1) (nth i counts 0) (-1) (-1) []).

(** [_forward_sharded], the loop: [None] only when the fuel runs out. *)
Fixpoint forward_loop (fuel n : nat) (r : GwRoute) id (data_type : MessageType) (counts : list Z) (rr : nat) u
    : Upload * option (res bool) :=
  match fuel with
  | O => (u, None)
  | S fuel =>
      match conn_recv (up_conn u) with
      | Exc e => (u, Some (Exc e))
      | Ok (raw, conn) =>
          let u := mkUpload conn (up_stamp u) (up_out u) in
          match raw with
          | [] => (u, Some (Ok false))
          | t :: _ =>
              if byte_to_Z t =? type_int T_EOF then
                let '(u, sent) := send_control r (eof_of id counts) (List.seq 0 n) u in
                (u, Some (_ ← sent; Ok true))
              else if byte_to_Z t =? type_int data_type then
                match n with
                | O => (u, Some (Exc ZeroDivisionError))
                | _ =>
                    let i := (rr mod n)%nat in
                    let '(st, sent) := sm_send (up_stamp u) (stamp_id id raw) in
                    match sent with
                    | Exc e => (mkUpload (up_conn u) st (up_out u), Some (Exc e))
                    | Ok raw =>
                        forward_loop fuel n r id data_type (<[i := nth i counts 0 + 1]> counts) (S rr)
                          (mkUpload (up_conn u) st (up_out u ++ [(r, i, raw)]))
                    end
                end
              else (u, Some (Ok false))
          end
      end
  end.

(** Every frame takes four bytes at least. *)
Definition forward_fuel u : nat := S (length (List.concat (conn_in (up_conn u)))).

Definition forward_sharded (n : nat) (r : GwRoute) id (data_type : MessageType) u : Upload * option (res bool) :=
  forward_loop (forward_fuel u) n r id data_type (replicate n 0) 0 u.

(** [_abort] *)
Definition gw_abort (connected : bool) (nt na : nat) s u : ClientStreamHandler * Upload * res unit :=
  let abort := new_msg (Abort (gw_id s)) in
  let '(u, r1) := send_control TransRoute (λ _, abort) (List.seq 0 nt) u in
  match r1 with
  | Exc e => (s, u, Exc e)
  | Ok _ =>
      let '(u, r2) := send_control AccsRoute (λ _, abort) (List.seq 0 na) u in
      match r2 with
      | Exc e => (s, u, Exc e)
      | Ok _ => (gw_teardown connected s, u, Ok tt)
      end
  end.

Context (uuid5 : uuid → string → uuid).

(** The stamping state of a route: its producer, and a fresh counter. *)
Definition route_stamp id (r : GwRoute) : StampingMOM :=
  mkSM (derive_producer_id uuid5 (uuid_str id) 0 (match r with TransRoute => 0 | AccsRoute => 1 end)) seq_init.

(** [_run], the handshake: whether the session goes on to forward the upload;
    [ack_sent] is whether the acknowledgement reaches the socket. *)
Definition handshake (connected ack_sent : bool) s : ClientStreamHandler * res bool :=
  match conn_recv (gw_conn s) with
  | Exc OSError => (gw_teardown connected s, Ok false)
  | Exc e => (s, Exc e)
  | Ok ([], conn) => (gw_close connected (set_conn s conn), Ok false)
  | Ok (raw, conn) =>
      let s := set_conn s conn in
      match deserialize T_HELLO raw with
      | Exc e => (s, Exc e)
      | Ok _ =>
          let s := mkCSH (gw_id s) (gw_conn s) (gw_closed s) (gw_rx s) (monitor_add (gw_monitor s) (gw_id s)) in
          match ack ← serialize (new_msg (HelloAck (gw_id s))); conn_send (gw_conn s) ack with
          | Exc e => (s, Exc e)
          | Ok conn =>
              if ack_sent
              then (mkCSH (gw_id s) conn (gw_closed s) (Some true) (gw_monitor s), Ok true)
              else (gw_teardown connected s, Ok false)
          end
      end
  end.

(** [_run], the forwarding: both uploads in turn; an [OSError] ends the reader,
    anything but an end of file aborts the client. *)
Definition forward_uploads (connected : bool) (nt na : nat) s : ClientStreamHandler * list publication * option (res unit) :=
  let '(u, r1) := forward_sharded nt TransRoute (gw_id s) T_TRANSACTIONS (mkUpload (gw_conn s) (route_stamp (gw_id s) TransRoute) []) in
  let '(u, done) :=
    match r1 with
    | Some (Ok true) =>
        forward_sharded na AccsRoute (gw_id s) T_ACCOUNTS (mkUpload (up_conn u) (route_stamp (gw_id s) AccsRoute) (up_out u))
    | _ => (u, r1)
    end in
  let s := set_conn s (up_conn u) in
  match done with
  | None => (s, up_out u, None)
  | Some (Exc OSError) => (s, up_out u, Some (Ok tt))
  | Some (Exc e) => (s, up_out u, Some (Exc e))
  | Some (Ok true) => (s, up_out u, Some (Ok tt))
  | Some (Ok false) => let '(s, u, r) := gw_abort connected nt na s u in (s, up_out u, Some r)
  end.

Definition gw_run (connected ack_sent : bool) (nt na : nat) s : ClientStreamHandler * list publication * option (res unit) :=
  match handshake connected ack_sent s with
  | (s, Exc e) => (s, [], Some (Exc e))
  | (s, Ok false) => (s, [], Some (Ok tt))
  | (s, Ok true) => forward_uploads connected nt na s
  end.

(** ** The responses *)

(** What the delivery of a response does outside: the write, then the ack. *)
Inductive RespOut := Written (raw : bytes) | RespAcked (tag : nat).

(** [_deliver_response] *)
Definition deliver_response (connected : bool) s (raw : bytes) (sent : bool) (tag : nat) : ClientStreamHandler * list RespOut :=
  if sent then (s, [Written raw; RespAcked tag]) else (gw_teardown connected s, []).

(** [_consume_responses]: the messages of the queue while it is consumed, each
    with whether its write succeeds. *)
Fixpoint consume_responses (connected : bool) s (queue : list (bytes * bool * nat)) : ClientStreamHandler * list RespOut :=
  match queue with
  | [] => (s, [])
  | (raw, sent, tag) :: queue =>
      match gw_rx s with
      | Some true =>
          let '(s, o1) := deliver_response connected s raw sent tag in
          let '(s, o2) := consume_responses connected s queue in (s, o1 ++ o2)
      | _ => (s, [])
      end
  end.
End handler.

(** ** What is uploaded and what is published *)

Inductive Batch := TransBatch (l : list Transaction) | AccBatch (l : list Account).

Definition batch_route (b : Batch) : GwRoute := match b with TransBatch _ => TransRoute | AccBatch _ => AccsRoute end.
Definition batch_body (c : uuid) (b : Batch) : Body :=
  match b with TransBatch l => Transactions c l | AccBatch l => Accounts c l end.
Definition route_type (r : GwRoute) : MessageType := match r with TransRoute => T_TRANSACTIONS | AccsRoute => T_ACCOUNTS end.

(** The indexes below [k] that round robin gives to shard [i] of [n]. *)
Definition shard_share (n from k i : nat) : Z := Z.of_nat (length (filter (λ j, (j mod n)%nat = i) (List.seq from k))).

Section plan.
Context `{MP : MsgPack}.
Context (uuid5 : uuid → string → uuid).

(** The messages of an upload, as the client sends them: its own id is not known
    to it, the gateway writes the real one. *)
Definition raw_batches (c0 : uuid) (bs : list Batch) : res (list bytes) := mapR (λ b, serialize (new_msg (batch_body c0 b))) bs.

Definition publish (p : GwRoute * nat * Message) : res publication := raw ← serialize p.2; Ok (p.1, raw).

Definition planned_batch (id : uuid) (n : nat) (r : GwRoute) (j : nat) (b : Batch) : GwRoute * nat * Message :=
  (r, (j mod n)%nat, mkMsg (batch_body id b) (sm_producer (route_stamp uuid5 id r)) (Z.of_nat j + 1)).
Definition planned_batches (id : uuid) (n : nat) (r : GwRoute) (from : nat) (bs : list Batch) : list (GwRoute * nat * Message) :=
  imap (λ j b, planned_batch id n r (from + j) b) bs.
Definition planned_eofs (id : uuid) (n : nat) (r : GwRoute) (k : nat) : list (GwRoute * nat * Message) :=
  (λ i, (r, i, new_msg (EOF id (-1) (shard_share n 0 k i) (-1) (-1) []))) <$> List.seq 0 n.

(** The batches go to the shards in turn with the client's id and the numbers 1,
    2, ...; then each shard gets its own end of file. *)
Definition upload_plan (id : uuid) (n : nat) (r : GwRoute) (bs : list Batch) : list (GwRoute * nat * Message) :=
  planned_batches id n r 0 bs ++ planned_eofs id n r (length bs).

Definition batch_ok (r : GwRoute) (b : Batch) : Prop := batch_route b = r ∧ ∀ c, body_wf (batch_body c b).

Lemma route_producer_length id r : length (sm_producer (route_stamp uuid5 id r)) = 16%nat.
Proof. apply length_uuid_bytes. Qed.

Lemma stamp_id_layout id t (pre rest : bytes) : length pre = 16%nat → stamp_id id (t :: pre ++ rest) = t :: uuid_bytes id ++ rest.
Proof.
  intros Hp. unfold stamp_id. change (drop 17 (t :: pre ++ rest)) with (drop 16 (pre ++ rest)).
  by rewrite (drop_app_length' pre rest 16).
Qed.

(** Writing the client id over the prefix is serializing with that id. *)
Lemma stamp_id_batch c0 id b raw :
  body_wf (batch_body c0 b) → serialize (new_msg (batch_body c0 b)) = Ok raw →
  serialize (new_msg (batch_body id b)) = Ok (stamp_id id raw) ∧
  peek_type raw = Ok (type_int (route_type (batch_route b))).
Proof.
  intros Hwf Hr. split; [|rewrite (peek_serialize _ _ Hr); by destruct b].
  unfold serialize in *. destruct b as [l|l]; cbn [batch_body new_msg body_ body_client body_type fields producer_id seq] in *.
  all: autounfold with message_fields in *; cbn [drop] in *.
  all: rewrite to_bytes_be_range in * by (by vm_compute); cbn [mbind res_bind] in *.
  all: apply bind_Ok in Hr as (payload & Hp & [= <-]); rewrite Hp; cbn [mbind res_bind].
  all: by rewrite stamp_id_layout by apply length_uuid_bytes.
Qed.

Lemma batch_stampable c b : stampable (new_msg (batch_body c b)).
Proof. by destruct b. Qed.

Lemma route_not_eof r : (type_int (route_type r) =? type_int T_EOF) = false.
Proof. by destruct r. Qed.

(** A batch as the gateway sends it on. *)
Lemma send_batch c0 id r n j b raw st :
  batch_ok r b → serialize (new_msg (batch_body c0 b)) = Ok raw →
  st = mkSM (sm_producer (route_stamp uuid5 id r)) (mkSeq (Z.of_nat j)) → seq_ok (Z.of_nat j + 1) →
  ∃ raw', sm_send st (stamp_id id raw) =
    (mkSM (sm_producer (route_stamp uuid5 id r)) (mkSeq (Z.of_nat (S j))), Ok raw') ∧
    publish (planned_batch id n r j b) = Ok (r, (j mod n)%nat, raw').
Proof.
  intros [Hr Hwf] Hraw -> Hs. destruct (stamp_id_batch c0 id b raw (Hwf c0) Hraw) as [Hser _].
  set (p := sm_producer (route_stamp uuid5 id r)). assert (Hp : length p = 16%nat) by apply route_producer_length.
  assert (H0 : seq_ok 0) by done.
  rewrite (sm_send_message (mkSM p (mkSeq (Z.of_nat j))) (new_msg (batch_body id b)) _ (Hwf id) eq_refl H0 (batch_stampable id b) Hs Hser).
  unfold restore_seq, seq_restore, seq_value. cbn [sm_counter seq_ sm_producer body_ new_msg] in *.
  destruct (deserialize_serialize (mkMsg (batch_body id b) p (Z.of_nat j + 1)) (Hwf id) Hp Hs) as (raw' & H1 & _).
  exists raw'. unfold publish, planned_batch. cbn [fst snd]. fold p. rewrite H1. split; [|done].
  do 3 f_equal. lia.
Qed.

(** ** The forwarding loop *)

Implicit Types (u : Upload).

(** The stream still to be read. *)
Definition pending (u : Upload) : bytes := List.concat (conn_in (up_conn u)).

(** A frame is read: the message, and the loop's state after it. *)
Lemma forward_recv fuel n r id data_type counts rr u raw tail :
  solid (conn_in (up_conn u)) → frameable raw → pending u = frame raw ++ tail → (length (pending u) < fuel)%nat →
  ∃ fuel' conn, fuel = S fuel' ∧ conn_recv (up_conn u) = Ok (raw, conn) ∧ solid (conn_in conn) ∧
    List.concat (conn_in conn) = tail ∧ (length tail < fuel')%nat ∧
    conn_keep_running conn = conn_keep_running (up_conn u) ∧ conn_out conn = conn_out (up_conn u) ∧
    forward_loop fuel n r id data_type counts rr u = forward_loop (S fuel') n r id data_type counts rr u.
Proof.
  intros Hs Hf Hp Hfuel. destruct (conn_recv_frame (up_conn u) raw tail Hs Hf Hp) as (chunks & E & Hs' & Hc).
  destruct fuel as [|fuel]; [lia|]. exists fuel. eexists. split; [done|]. split; [exact E|].
  split_and!; try done. rewrite Hp, length_app in Hfuel. unfold frame in Hfuel. rewrite length_app, length_be_split in Hfuel.
  unfold LEN_SIZE in Hfuel. lia.
Qed.

(** One batch. *)
Lemma forward_batch fuel n r id c0 counts rr u b raw tail :
  (0 < n)%nat → batch_ok r b → serialize (new_msg (batch_body c0 b)) = Ok raw → frameable raw →
  solid (conn_in (up_conn u)) → pending u = frame raw ++ tail → (length (pending u) < fuel)%nat →
  up_stamp u = mkSM (sm_producer (route_stamp uuid5 id r)) (mkSeq (Z.of_nat rr)) → seq_ok (Z.of_nat rr + 1) →
  ∃ fuel' u' p, publish (planned_batch id n r rr b) = Ok p ∧
    forward_loop fuel n r id (route_type r) counts rr u =
      forward_loop fuel' n r id (route_type r) (<[(rr mod n)%nat := nth (rr mod n)%nat counts 0 + 1]> counts) (S rr) u' ∧
    up_stamp u' = mkSM (sm_producer (route_stamp uuid5 id r)) (mkSeq (Z.of_nat (S rr))) ∧ up_out u' = up_out u ++ [p] ∧
    solid (conn_in (up_conn u')) ∧ pending u' = tail ∧ (length tail < fuel')%nat ∧
    conn_keep_running (up_conn u') = conn_keep_running (up_conn u) ∧ conn_out (up_conn u') = conn_out (up_conn u).
Proof.
  intros Hn Hb Hraw Hf Hs Hp Hfuel Hst Hsq.
  destruct (forward_recv fuel n r id (route_type r) counts rr u raw tail Hs Hf Hp Hfuel)
    as (fuel' & conn & -> & E & Hs' & Hc & Hl & Hk & Ho & _).
  destruct (send_batch c0 id r n rr b raw _ Hb Hraw Hst Hsq) as (raw' & Hsend & Hpub).
  destruct Hb as [Hbr Hwf]. destruct (stamp_id_batch c0 id b raw (Hwf c0) Hraw) as [_ Hpeek]. rewrite Hbr in Hpeek.
  eexists fuel', (mkUpload conn _ (up_out u ++ [_])), _. split; [exact Hpub|].
  cbn [forward_loop]. rewrite E. destruct raw as [|t raw]; [done|]. cbn [peek_type] in Hpeek. injection Hpeek as Ht.
  rewrite Ht, route_not_eof, Z.eqb_refl. destruct n as [|n]; [lia|]. cbn [up_stamp up_conn up_out].
  rewrite Hsend. split; [reflexivity|]. split_and!; done.
Qed.

Lemma shard_share_S n from k i :
  shard_share n from (S k) i = (if decide ((from mod n)%nat = i) then 1 else 0) + shard_share n (S from) k i.
Proof. unfold shard_share. cbn [List.seq]. rewrite filter_cons. case_decide; cbn [length]; lia. Qed.

(** The batches of an upload, and the counts they leave. *)
Lemma forward_batches c0 id n r bs : ∀ fuel counts rr u raws tail,
  (0 < n)%nat → Forall (batch_ok r) bs → raw_batches c0 bs = Ok raws → Forall frameable raws →
  solid (conn_in (up_conn u)) → pending u = List.concat (frame <$> raws) ++ tail → (length (pending u) < fuel)%nat →
  up_stamp u = mkSM (sm_producer (route_stamp uuid5 id r)) (mkSeq (Z.of_nat rr)) → Z.of_nat (rr + length bs) < 256 ^ 8 →
  length counts = n →
  ∃ fuel' counts' u' pubs, mapR publish (planned_batches id n r rr bs) = Ok pubs ∧
    forward_loop fuel n r id (route_type r) counts rr u =
      forward_loop fuel' n r id (route_type r) counts' (rr + length bs) u' ∧
    up_out u' = up_out u ++ pubs ∧ solid (conn_in (up_conn u')) ∧ pending u' = tail ∧ (length tail < fuel')%nat ∧
    conn_keep_running (up_conn u') = conn_keep_running (up_conn u) ∧ conn_out (up_conn u') = conn_out (up_conn u) ∧
    length counts' = n ∧ ∀ i, (i < n)%nat → nth i counts' 0 = nth i counts 0 + shard_share n rr (length bs) i.
Proof.
  induction bs as [|b bs IH]; intros fuel counts rr u raws tail Hn Hbs Hraws Hf Hs Hp Hfuel Hst Hsq Hlen.
  { cbn in Hraws. injection Hraws as <-. exists fuel, counts, u, []. cbn. rewrite app_nil_r, Nat.add_0_r.
    cbn in Hp. split_and!; try done; [by rewrite <- Hp|]. intros i Hi. unfold shard_share. cbn. lia. }
  inversion_clear Hbs as [|? ? Hb Hbs']. unfold raw_batches in Hraws. cbn [mapR] in Hraws.
  apply bind_Ok in Hraws as (raw & Hraw & Hraws). apply bind_Ok in Hraws as (raws' & Hraws & [= <-]).
  inversion_clear Hf as [|? ? Hf1 Hf']. rewrite fmap_cons in Hp. cbn [List.concat] in Hp. rewrite <- app_assoc in Hp.
  cbn [length] in Hsq. assert (Hsq1 : seq_ok (Z.of_nat rr + 1)) by (unfold seq_ok; lia).
  destruct (forward_batch fuel n r id c0 counts rr u b raw _ Hn Hb Hraw Hf1 Hs Hp Hfuel Hst Hsq1)
    as (f1 & u1 & p & Hpub & E1 & Hst1 & Ho1 & Hs1 & Hp1 & Hl1 & Hk1 & Hc1).
  rewrite <- Hp1 in Hl1.
  destruct (IH f1 (<[(rr mod n)%nat := nth (rr mod n)%nat counts 0 + 1]> counts) (S rr) u1 raws' tail Hn Hbs' Hraws Hf' Hs1 Hp1 Hl1 Hst1)
    as (f2 & counts' & u2 & pubs & Hpubs & E2 & Ho2 & Hs2 & Hp2 & Hl2 & Hk2 & Hc2 & Hlc & Hcnt); [lia|by rewrite length_insert|].
  exists f2, counts', u2, (p :: pubs). split.
  { unfold planned_batches in *. rewrite imap_cons, Nat.add_0_r. cbn [mapR]. rewrite Hpub. cbn [mbind res_bind].
    erewrite imap_ext; [rewrite Hpubs; done|]. intros j b' _. cbn. by rewrite Nat.add_succ_r. }
  split; [rewrite E1, E2; cbn [length]; by rewrite Nat.add_succ_r|].
  split; [rewrite Ho2, Ho1; by rewrite <- app_assoc|]. split_and!; try done; [congruence|congruence|].
  intros i Hi. rewrite Hcnt by done. cbn [length]. rewrite shard_share_S.
  assert (Hm : (rr mod n < n)%nat) by (apply Nat.mod_upper_bound; lia).
  rewrite !nth_lookup. case_decide as Hd.
  - subst i. rewrite list_lookup_insert_eq by lia. cbn. rewrite <- nth_lookup. lia.
  - rewrite list_lookup_insert_ne by done. lia.
Qed.

(** Control messages pass the stamping unchanged. *)
Lemma send_control_ok r (message : nat → Message) is_ u raws :
  (∀ i, unstamped (type_int (body_type (body_ (message i)))) = true) →
  mapR publish ((λ i, (r, i, message i)) <$> is_) = Ok raws →
  send_control r message is_ u = (mkUpload (up_conn u) (up_stamp u) (up_out u ++ raws), Ok tt).
Proof.
  intros Hu. revert u raws. induction is_ as [|i is_ IH]; intros u raws Hm.
  { cbn in Hm. injection Hm as <-. cbn. rewrite app_nil_r. by destruct u. }
  rewrite fmap_cons in Hm. cbn [mapR] in Hm. apply bind_Ok in Hm as (p & Hp & Hm). apply bind_Ok in Hm as (ps & Hps & [= <-]).
  unfold publish in Hp. cbn [fst snd] in Hp. apply bind_Ok in Hp as (raw & Hser & [= <-]).
  cbn [send_control]. rewrite Hser. unfold sm_send. rewrite (peek_serialize _ _ Hser), Hu.
  rewrite (IH _ ps Hps). cbn [up_conn up_stamp up_out]. by rewrite <- app_assoc.
Qed.

(** A message the client sends by itself: not a batch. *)
Lemma eof_serializes id k : int64_ok k = true → ∃ raw, serialize (new_msg (EOF id (-1) k (-1) (-1) [])) = Ok raw.
Proof.
  intros Hk. destruct (serialize_layout (new_msg (EOF id (-1) k (-1) (-1) []))) as (payload & E & _); [|done|done|by eexists].
  cbn. split_and!; [done|done|done|done|]. split; [|done]. split; [apply nil_wf|done].
Qed.

Lemma publish_all {A} (f : A → GwRoute * nat * Message) l :
  (∀ x, x ∈ l → ∃ raw, serialize (f x).2 = Ok raw) → ∃ pubs, mapR publish (f <$> l) = Ok pubs.
Proof.
  induction l as [|x l IH]; intros H; [by eexists|]. rewrite fmap_cons. cbn [mapR].
  destruct (H x) as [raw Hr]; [apply elem_of_cons; by left|]. 
  assert (publish (f x) = Ok ((f x).1, raw)) as -> by (unfold publish; by rewrite Hr). cbn [mbind res_bind].
  destruct IH as [pubs ->]; [intros y Hy; apply H; apply elem_of_cons; by right|]. by eexists.
Qed.

Lemma shard_share_bound n from k i : 0 ≤ shard_share n from k i ≤ Z.of_nat k.
Proof.
  unfold shard_share. pose proof (length_filter (λ j, (j mod n)%nat = i) (List.seq from k)) as H.
  rewrite length_seq in H. lia.
Qed.

Lemma planned_eofs_publish id n r k : Z.of_nat k < 2 ^ 63 → ∃ pubs, mapR publish (planned_eofs id n r k) = Ok pubs.
Proof.
  intros Hk. unfold planned_eofs. apply publish_all. intros i _. cbn [snd]. apply eof_serializes.
  pose proof (shard_share_bound n 0 k i). unfold int64_ok.
  apply andb_true_intro. split; [apply Z.leb_le|apply Z.ltb_lt]; lia.
Qed.

(** A whole upload, the end of file included. *)
Lemma forward_upload c0 id n r bs u raws eof tail :
  (0 < n)%nat → Forall (batch_ok r) bs → raw_batches c0 bs = Ok raws → Forall frameable raws →
  frameable eof → peek_type eof = Ok (type_int T_EOF) →
  solid (conn_in (up_conn u)) → pending u = List.concat (frame <$> raws) ++ frame eof ++ tail →
  up_stamp u = route_stamp uuid5 id r → Z.of_nat (length bs) < 2 ^ 63 →
  ∃ u' pubs, mapR publish (upload_plan id n r bs) = Ok pubs ∧
    forward_sharded n r id (route_type r) u = (u', Some (Ok true)) ∧
    up_out u' = up_out u ++ pubs ∧ solid (conn_in (up_conn u')) ∧ pending u' = tail ∧
    conn_keep_running (up_conn u') = conn_keep_running (up_conn u) ∧ conn_out (up_conn u') = conn_out (up_conn u).
Proof.
  intros Hn Hbs Hraws Hf Hfe Heof Hs Hp Hst Hlen. unfold forward_sharded.
  destruct (forward_batches c0 id n r bs (forward_fuel u) (replicate n 0) 0 u raws (frame eof ++ tail))
    as (fuel & counts & u1 & pubs & Hpubs & E & Ho & Hs1 & Hp1 & Hl1 & Hk1 & Hc1 & Hlc & Hcnt); try done.
  { unfold forward_fuel, pending. lia. }
  { cbn. lia. }
  { by rewrite length_replicate. }
  destruct (planned_eofs_publish id n r (length bs) Hlen) as [eofs Heofs].
  destruct (forward_recv fuel n r id (route_type r) counts (length bs) u1 eof tail Hs1 Hfe Hp1) as (f2 & conn & -> & Er & Hs2 & Hc2 & _ & Hk2 & Ho2 & _).
  { by rewrite Hp1. }
  rewrite E. cbn [Nat.add forward_loop]. rewrite Er. destruct eof as [|t eof]; [done|]. cbn [peek_type] in Heof. injection Heof as Ht.
  rewrite Ht, Z.eqb_refl.
  rewrite (send_control_ok r (eof_of id counts) (List.seq 0 n) _ eofs); [|done|].
  - eexists _, (pubs ++ eofs). split.
    { by apply mapR_app. }
    split; [reflexivity|]. cbn [up_out up_conn pending]. split_and!; [rewrite Ho; by rewrite <- app_assoc|done|done|congruence|congruence].
  - rewrite <- Heofs. unfold planned_eofs. f_equal. apply list_fmap_ext. intros j i Hi.
    apply lookup_seq in Hi as [-> Hi]. unfold eof_of. rewrite Hcnt by (cbn; lia).
    rewrite nth_lookup, lookup_replicate_2 by (cbn; lia). done.
Qed.

(** ** The loop ends *)

Lemma recv_exact_conserves chunks : ∀ m buf b chunks',
  recv_exact m buf chunks = Ok (b, chunks') → length (List.concat chunks) = (m + length (List.concat chunks'))%nat ∧ length b = (length buf + m)%nat.
Proof.
  induction chunks as [|c chunks IH]; intros [|m] buf b chunks' H; cbn [recv_exact] in H; try (injection H as <- <-; cbn; lia); [done|].
  destruct c as [|x c]; [done|]. generalize dependent (x :: c). intros ch H. destruct (length ch <=? S m)%nat eqn:E.
  - apply Nat.leb_le in E. apply IH in H as [H1 H2]. rewrite length_app in H2. cbn [List.concat]. rewrite length_app. lia.
  - apply Nat.leb_gt in E. injection H as <- <-. cbn [List.concat]. rewrite !length_app, length_drop, length_take. lia.
Qed.

Lemma conn_recv_shrinks s raw conn : conn_recv s = Ok (raw, conn) → raw ≠ [] →
  (length (List.concat (conn_in conn)) < length (List.concat (conn_in s)))%nat.
Proof.
  unfold conn_recv. intros H Hne. destruct (recv_exact LEN_SIZE [] (conn_in s)) as [[lb chunks]|e] eqn:E1; cbn [mbind res_bind] in H.
  - destruct (recv_exact _ [] chunks) as [[b chunks']|e] eqn:E2.
    + injection H as <- <-. apply recv_exact_conserves in E1 as [H1 _]. apply recv_exact_conserves in E2 as [H2 _].
      cbn [conn_in]. unfold LEN_SIZE in H1. lia.
    + destruct e; try done. destruct (conn_keep_running s); [done|]. injection H as <- <-. done.
  - destruct e; try done. destruct (conn_keep_running s); [done|]. injection H as <- <-. done.
Qed.

(** One frame per turn: the fuel is enough. *)
Lemma forward_loop_total fuel n r id data_type : ∀ counts rr u,
  (length (pending u) < fuel)%nat → (forward_loop fuel n r id data_type counts rr u).2 ≠ None.
Proof.
  induction fuel as [|fuel IH]; intros counts rr u Hl; [lia|]. cbn [forward_loop].
  destruct (conn_recv (up_conn u)) as [[raw conn]|e] eqn:E; [|done]. destruct raw as [|t raw]; [done|].
  apply conn_recv_shrinks in E; [|done]. destruct (_ =? type_int T_EOF).
  { by destruct (send_control _ _ _ _). }
  destruct (_ =? type_int data_type); [|done]. destruct n as [|n]; [done|].
  destruct (sm_send _ _) as [st [raw'|e]]; [|done]. apply IH. unfold pending in *. cbn [up_conn]. lia.
Qed.

Lemma forward_sharded_total n r id data_type u : (forward_sharded n r id data_type u).2 ≠ None.
Proof. apply forward_loop_total. unfold forward_fuel, pending. lia. Qed.

(** ** The handshake *)

Lemma handshake_ok connected id m chunks hello ack msg tail :
  solid chunks → frameable hello → List.concat chunks = frame hello ++ tail → deserialize T_HELLO hello = Ok msg →
  serialize (new_msg (HelloAck id)) = Ok ack → frameable ack →
  ∃ conn, handshake connected true (gw_init id (conn_open chunks) m) = (mkCSH id conn false (Some true) (sadd m id), Ok true) ∧
    solid (conn_in conn) ∧ List.concat (conn_in conn) = tail ∧ conn_out conn = frame ack ∧ conn_keep_running conn = true.
Proof.
  intros Hs Hf Hc Hmsg Hack Hfa. destruct (conn_recv_frame (conn_open chunks) hello tail Hs Hf Hc) as (chunks' & E & Hs' & Hc').
  unfold handshake. cbn [gw_conn gw_init]. rewrite E. destruct hello as [|b hello]; [done|].
  cbn [set_conn gw_conn gw_id gw_closed gw_rx gw_monitor gw_init]. rewrite Hmsg, Hack. cbn [mbind res_bind].
  rewrite conn_send_frame by done. cbn [conn_open conn_keep_running conn_out conn_in]. by eexists.
Qed.

(** *** The two ways an upload breaks off *)

(** The connection is lost in the middle of a frame, or between two. *)
Lemma forward_lost c0 id n r bs u raws m k :
  (0 < n)%nat → Forall (batch_ok r) bs → raw_batches c0 bs = Ok raws → Forall frameable raws →
  frameable m → (k < length (frame m))%nat →
  solid (conn_in (up_conn u)) → pending u = List.concat (frame <$> raws) ++ take k (frame m) →
  up_stamp u = route_stamp uuid5 id r → Z.of_nat (length bs) < 2 ^ 63 → conn_keep_running (up_conn u) = true →
  ∃ u' pubs, mapR publish (planned_batches id n r 0 bs) = Ok pubs ∧
    forward_sharded n r id (route_type r) u = (u', Some (Exc OSError)) ∧ up_out u' = up_out u ++ pubs.
Proof.
  intros Hn Hbs Hraws Hf Hfm Hk Hs Hp Hst Hlen Hkeep. unfold forward_sharded.
  destruct (forward_batches c0 id n r bs (forward_fuel u) (replicate n 0) 0 u raws (take k (frame m)))
    as (fuel & counts & u1 & pubs & Hpubs & E & Ho & Hs1 & Hp1 & Hl1 & Hk1 & _); try done.
  { unfold forward_fuel, pending. lia. }
  { cbn. lia. }
  { by rewrite length_replicate. }
  exists u1, pubs. split; [done|]. split; [|done]. rewrite E. destruct fuel as [|fuel]; [lia|]. cbn [forward_loop].
  rewrite (conn_recv_cut (up_conn u1) m k); [done|congruence|done|done|done|done].
Qed.

(** A message of a type that has no place in the upload. *)
Lemma forward_refused c0 id n r bs u raws m t tail :
  (0 < n)%nat → Forall (batch_ok r) bs → raw_batches c0 bs = Ok raws → Forall frameable raws →
  frameable m → peek_type m = Ok t → t ≠ type_int T_EOF → t ≠ type_int (route_type r) →
  solid (conn_in (up_conn u)) → pending u = List.concat (frame <$> raws) ++ frame m ++ tail →
  up_stamp u = route_stamp uuid5 id r → Z.of_nat (length bs) < 2 ^ 63 →
  ∃ u' pubs, mapR publish (planned_batches id n r 0 bs) = Ok pubs ∧
    forward_sharded n r id (route_type r) u = (u', Some (Ok false)) ∧ up_out u' = up_out u ++ pubs.
Proof.
  intros Hn Hbs Hraws Hf Hfm Ht H1 H2 Hs Hp Hst Hlen. unfold forward_sharded.
  destruct (forward_batches c0 id n r bs (forward_fuel u) (replicate n 0) 0 u raws (frame m ++ tail))
    as (fuel & counts & u1 & pubs & Hpubs & E & Ho & Hs1 & Hp1 & Hl1 & Hk1 & _); try done.
  { unfold forward_fuel, pending. lia. }
  { cbn. lia. }
  { by rewrite length_replicate. }
  destruct (forward_recv fuel n r id (route_type r) counts (length bs) u1 m tail Hs1 Hfm Hp1) as (f2 & conn & -> & Er & _).
  { by rewrite Hp1. }
  exists (mkUpload conn (up_stamp u1) (up_out u1)), pubs. split; [done|]. split; [|exact Ho]. rewrite E. cbn [Nat.add forward_loop]. rewrite Er.
  destruct m as [|b m]; [done|]. cbn [peek_type] in Ht. injection Ht as <-.
  rewrite (proj2 (Z.eqb_neq _ _) H1), (proj2 (Z.eqb_neq _ _) H2). reflexivity.
Qed.
End plan.

(** ** The claims *)

(** The number an end of file announces to a shard is what the shard was sent. *)
Lemma shard_share_published uuid5 id n r i bs : ∀ from,
  shard_share n from (length bs) i = Z.of_nat (length (filter (λ p, p.1.2 = i) (planned_batches uuid5 id n r from bs))).
Proof.
  induction bs as [|b bs IH]; intros from; [done|]. cbn [length]. rewrite shard_share_S.
  unfold planned_batches in *. rewrite imap_cons, filter_cons. cbn [planned_batch fst snd]. rewrite Nat.add_0_r.
  rewrite (imap_ext _ (λ j b, planned_batch uuid5 id n r (S from + j) b)); [|intros j b' _; cbn; by rewrite Nat.add_succ_r].
  rewrite IH. case_decide; cbn [length]; lia.
Qed.

Section claims.
Context `{MP : MsgPack} (uuid5 : uuid → string → uuid).

(** What a session needs before its upload: the client's greeting, and the
    acknowledgement the gateway can send. *)
Record greeting (id : uuid) (hello ack : bytes) : Prop := {
  greet_hello : ∃ msg, deserialize T_HELLO hello = Ok msg;
  greet_ack : serialize (new_msg (HelloAck id)) = Ok ack;
  greet_frames : frameable hello ∧ frameable ack
}.

(** The messages of one upload on the wire. *)
Record uploaded (c0 : uuid) (r : GwRoute) (bs : list Batch) (raws : list bytes) : Prop := {
  upl_batches : Forall (batch_ok r) bs;
  upl_raws : raw_batches c0 bs = Ok raws;
  upl_frames : Forall frameable raws;
  upl_number : Z.of_nat (length bs) < 2 ^ 63
}.

Definition is_eof (raw : bytes) : Prop := frameable raw ∧ peek_type raw = Ok (type_int T_EOF).

(** The gateway forwards an upload exactly: whatever the chunks in which the network
    delivers it, a client that greets, sends its transactions, an end of file, its
    accounts and an end of file gets its id acknowledged and ends registered, its
    responses consumed, with precisely these messages published: every batch once,
    in order, to the shards in turn, under the id of the gateway and numbered from
    1, then to each shard an end of file that announces the number of batches that
    shard was sent. *)
Lemma gateway_forwards_upload (id c0 : uuid) (m : ClientStreamMonitor) (connected : bool) (nt na : nat)
    (hello ack e1 e2 tail : bytes) (txs accs : list Batch) (raw_txs raw_accs chunks : list bytes) :
  (0 < nt)%nat → (0 < na)%nat → greeting id hello ack →
  uploaded c0 TransRoute txs raw_txs → uploaded c0 AccsRoute accs raw_accs → is_eof e1 → is_eof e2 → solid chunks →
  List.concat chunks = List.concat (frame <$> hello :: raw_txs ++ e1 :: raw_accs ++ [e2]) ++ tail →
  ∃ s pubs, gw_run uuid5 connected true nt na (gw_init id (conn_open chunks) m) = (s, pubs, Some (Ok tt)) ∧
    mapR publish (upload_plan uuid5 id nt TransRoute txs ++ upload_plan uuid5 id na AccsRoute accs) = Ok pubs ∧
    (∀ i, shard_share nt 0 (length txs) i =
       Z.of_nat (length (filter (λ p, p.1.2 = i) (planned_batches uuid5 id nt TransRoute 0 txs)))) ∧
    gw_monitor s = sadd m id ∧ gw_rx s = Some true ∧ gw_closed s = false ∧
    conn_out (gw_conn s) = frame ack ∧ List.concat (conn_in (gw_conn s)) = tail.
Proof.
  intros Hnt Hna [[msg Hmsg] Hack [Hfh Hfa]] Ht Ha [Hf1 He1] [Hf2 He2] Hs Hc.
  rewrite fmap_cons, fmap_app, fmap_cons, fmap_app in Hc. cbn [List.concat] in Hc.
  rewrite concat_app in Hc. cbn [List.concat] in Hc. rewrite concat_app in Hc. cbn [List.concat fmap list_fmap] in Hc.
  rewrite app_nil_r, <- !app_assoc in Hc.
  destruct (handshake_ok connected id m chunks hello ack msg _ Hs Hfh Hc Hmsg Hack Hfa) as (conn & Eh & Hs1 & Hc1 & Ho1 & Hk1).
  unfold gw_run. rewrite Eh. unfold forward_uploads. cbn [gw_id gw_conn].
  destruct (forward_upload uuid5 c0 id nt TransRoute txs (mkUpload conn (route_stamp uuid5 id TransRoute) []) raw_txs e1
    (List.concat (frame <$> raw_accs) ++ frame e2 ++ tail)) as (u1 & p1 & Hp1 & E1 & Hout1 & Hs2 & Hpend1 & _ & Hco1); try apply Ht; try done.
  cbn [route_type] in E1. rewrite E1.
  destruct (forward_upload uuid5 c0 id na AccsRoute accs (mkUpload (up_conn u1) (route_stamp uuid5 id AccsRoute) (up_out u1)) raw_accs e2 tail)
    as (u2 & p2 & Hp2 & E2 & Hout2 & Hs3 & Hpend2 & _ & Hco2); try apply Ha; try done.
  cbn [route_type] in E2. rewrite E2. cbn [up_out up_conn] in *.
  eexists _, _. split; [reflexivity|]. cbn [set_conn gw_monitor gw_rx gw_closed gw_conn].
  split_and!; [|intros i; by rewrite shard_share_published with (uuid5 := uuid5) (id := id) (r := TransRoute)|done|done|done|congruence|done].
  rewrite Hout2, Hout1. by apply mapR_app.
Qed.

(** C31: what becomes of a client that goes away or misbehaves before the end of its
    upload. If its connection is lost, in the middle of a message or between two,
    the reader ends quietly: the batches received are already published, nothing
    is aborted, and the client stays registered, its connection open and its
    responses consumed; so it is when the second upload breaks off. If it sends a
    message that has no place in the upload, an [Abort] goes to every shard of both
    routes and the client is torn down. *)
Theorem gateway_broken_upload (id c0 : uuid) (m : ClientStreamMonitor) (connected : bool) (nt na : nat)
    (hello ack e1 : bytes) (txs accs : list Batch) (raw_txs raw_accs chunks : list bytes) (x : bytes) (k : nat) :
  (0 < nt)%nat → (0 < na)%nat → greeting id hello ack →
  uploaded c0 TransRoute txs raw_txs → uploaded c0 AccsRoute accs raw_accs → is_eof e1 → frameable x → solid chunks →
  let batches := planned_batches uuid5 id nt TransRoute 0 txs in
  (* lost during the transactions *)
  ((k < length (frame x))%nat → List.concat chunks = List.concat (frame <$> hello :: raw_txs) ++ take k (frame x) →
   ∃ s pubs, gw_run uuid5 connected true nt na (gw_init id (conn_open chunks) m) = (s, pubs, Some (Ok tt)) ∧
     mapR publish batches = Ok pubs ∧ gw_monitor s = sadd m id ∧ gw_rx s = Some true ∧ gw_closed s = false) ∧
  (* lost during the accounts *)
  ((k < length (frame x))%nat → List.concat chunks = List.concat (frame <$> hello :: raw_txs ++ e1 :: raw_accs) ++ take k (frame x) →
   ∃ s pubs, gw_run uuid5 connected true nt na (gw_init id (conn_open chunks) m) = (s, pubs, Some (Ok tt)) ∧
     mapR publish (upload_plan uuid5 id nt TransRoute txs ++ planned_batches uuid5 id na AccsRoute 0 accs) = Ok pubs ∧
     gw_monitor s = sadd m id ∧ gw_rx s = Some true ∧ gw_closed s = false) ∧
  (* refused *)
  (∀ t tail, peek_type x = Ok t → t ≠ type_int T_EOF → t ≠ type_int T_TRANSACTIONS →
   List.concat chunks = List.concat (frame <$> hello :: raw_txs) ++ frame x ++ tail →
   ∃ s pubs, gw_run uuid5 connected true nt na (gw_init id (conn_open chunks) m) = (s, pubs, Some (Ok tt)) ∧
     mapR publish (batches ++ ((λ i, (TransRoute, i, new_msg (Abort id))) <$> List.seq 0 nt) ++
                   ((λ i, (AccsRoute, i, new_msg (Abort id))) <$> List.seq 0 na)) = Ok pubs ∧
     gw_monitor s = sdiscard (sadd m id) id ∧ gw_rx s = Some false ∧ gw_closed s = true).
Proof.
  intros Hnt Hna [[msg Hmsg] Hack [Hfh Hfa]] Ht Ha [Hf1 He1] Hfx Hs batches. split_and!.
  - intros Hk Hc. rewrite fmap_cons in Hc. cbn [List.concat] in Hc. rewrite <- !app_assoc in Hc.
    destruct (handshake_ok connected id m chunks hello ack msg _ Hs Hfh Hc Hmsg Hack Hfa) as (conn & Eh & Hs1 & Hc1 & Ho1 & Hk1).
    unfold gw_run. rewrite Eh. unfold forward_uploads. cbn [gw_id gw_conn].
    destruct (forward_lost uuid5 c0 id nt TransRoute txs (mkUpload conn (route_stamp uuid5 id TransRoute) []) raw_txs x k)
      as (u1 & p1 & Hp1 & E1 & Hout1); try apply Ht; try done.
    cbn [route_type] in E1. rewrite E1. eexists _, _. split; [reflexivity|]. by rewrite Hout1.
  - intros Hk Hc. rewrite fmap_cons, fmap_app, fmap_cons in Hc. cbn [List.concat] in Hc.
    rewrite concat_app in Hc. cbn [List.concat] in Hc. rewrite <- !app_assoc in Hc.
    destruct (handshake_ok connected id m chunks hello ack msg _ Hs Hfh Hc Hmsg Hack Hfa) as (conn & Eh & Hs1 & Hc1 & Ho1 & Hk1).
    unfold gw_run. rewrite Eh. unfold forward_uploads. cbn [gw_id gw_conn].
    destruct (forward_upload uuid5 c0 id nt TransRoute txs (mkUpload conn (route_stamp uuid5 id TransRoute) []) raw_txs e1
      (List.concat (frame <$> raw_accs) ++ take k (frame x))) as (u1 & p1 & Hp1 & E1 & Hout1 & Hs2 & Hpend1 & Hkeep1 & _); try apply Ht; try done.
    cbn [route_type] in E1. rewrite E1.
    destruct (forward_lost uuid5 c0 id na AccsRoute accs (mkUpload (up_conn u1) (route_stamp uuid5 id AccsRoute) (up_out u1)) raw_accs x k)
      as (u2 & p2 & Hp2 & E2 & Hout2); try apply Ha; try done.
    { cbn [up_conn] in *. congruence. }
    cbn [route_type] in E2. rewrite E2. eexists _, _. split; [reflexivity|]. rewrite Hout2. cbn [up_out]. rewrite Hout1.
    split; [by apply mapR_app|done].
  - intros t tail Htx H1 H2 Hc. rewrite fmap_cons in Hc. cbn [List.concat] in Hc. rewrite <- !app_assoc in Hc.
    destruct (handshake_ok connected id m chunks hello ack msg _ Hs Hfh Hc Hmsg Hack Hfa) as (conn & Eh & Hs1 & Hc1 & Ho1 & Hk1).
    unfold gw_run. rewrite Eh. unfold forward_uploads. cbn [gw_id gw_conn].
    destruct (forward_refused uuid5 c0 id nt TransRoute txs (mkUpload conn (route_stamp uuid5 id TransRoute) []) raw_txs x t tail)
      as (u1 & p1 & Hp1 & E1 & Hout1); try apply Ht; try done.
    cbn [route_type] in E1. rewrite E1.
    assert (Habort : ∀ r is_, ∃ pubs, mapR publish ((λ i : nat, (r, i, new_msg (Abort id))) <$> is_) = Ok pubs).
    { intros r is_. apply publish_all. intros i _. cbn [snd].
      destruct (serialize_layout (new_msg (Abort id))) as (payload & E & _); [done..|]. by eexists. }
    destruct (Habort TransRoute (List.seq 0 nt)) as [a1 Ha1]. destruct (Habort AccsRoute (List.seq 0 na)) as [a2 Ha2].
    unfold gw_abort. cbn [set_conn gw_id].
    rewrite (send_control_ok TransRoute (λ _, new_msg (Abort id)) _ u1 a1 (λ _, eq_refl) Ha1).
    rewrite (send_control_ok AccsRoute (λ _, new_msg (Abort id)) _ _ a2 (λ _, eq_refl) Ha2).
    eexists _, _. split; [reflexivity|]. cbn [up_out]. rewrite Hout1. cbn [app].
    split; [|done]. rewrite <- app_assoc. apply mapR_app; [done|by apply mapR_app].
Qed.

(** A response is acknowledged only once it has been written, and in the order of
    the queue: the consumer writes and acknowledges the responses up to the first
    one the socket refuses; that one and all after it stay unacknowledged, and the
    client is torn down. *)
Theorem responses_acked_once_written (connected : bool) (s : ClientStreamHandler) (queue : list (bytes * bool * nat)) :
  gw_rx s = Some true →
  let '(s', out) := consume_responses connected s queue in
  ∃ n, out = List.concat ((λ x, [Written x.1.1; RespAcked x.2]) <$> take n queue) ∧
    Forall (λ x, x.1.2 = true) (take n queue) ∧
    (n = length queue ∧ s' = s ∨
     (∃ raw tag, queue !! n = Some (raw, false, tag)) ∧ gw_rx s' = Some false ∧ gw_closed s' = true ∧
       smem (gw_id s) (gw_monitor s') = false).
Proof.
  induction queue as [|[[raw sent] tag] queue IH]; intros Hrx; cbn [consume_responses].
  { exists 0%nat. split; [done|]. split; [done|]. by left. }
  rewrite Hrx. unfold deliver_response. destruct sent.
  - specialize (IH Hrx). destruct (consume_responses connected s queue) as [s' out]. destruct IH as (n & -> & Hf & Hn).
    exists (S n). cbn [take fmap list_fmap List.concat fst snd]. split; [done|]. split; [by constructor|].
    destruct Hn as [[-> ->]|Hn]; [by left|by right].
  - assert (Hq : consume_responses connected (gw_teardown connected s) queue = (gw_teardown connected s, [])).
    { destruct queue as [|[[? ?] ?] ?]; [done|]. cbn [consume_responses]. unfold gw_teardown, gw_close, stop_rx. cbn.
      rewrite Hrx. by destruct (gw_closed s). }
    rewrite Hq. exists 0%nat. split; [done|]. split; [done|]. right. split; [by exists raw, tag|].
    unfold gw_teardown, gw_close, stop_rx. cbn. rewrite Hrx.
    assert (Hm : smem (gw_id s) (sdiscard (gw_monitor s) (gw_id s)) = false).
    { apply smem_false. intros (y & Hy & Hin)%list_elem_of_fmap. apply list_elem_of_filter in Hin as [Hne _]. by apply Hne. }
    destruct (gw_closed s) eqn:E; cbn; rewrite ?E; done.
Qed.
End claims.

(** ** Concrete inputs *)

Section demo.
#[local] Existing Instance msgpack_model.

Definition demo_uuid5 (u : uuid) (name : string) : uuid := uuid_lit (Z.of_nat (String.length name)).
Definition demo_session : uuid := uuid_lit 42.
Definition raw_of (b : Body) : bytes := match serialize (new_msg b) with Ok raw => raw | Exc _ => [] end.
Definition demo_txs : list Batch := [TransBatch []; TransBatch []; TransBatch []].
Definition demo_accs : list Batch := [AccBatch []].
Definition demo_raw_txs : list bytes := match raw_batches (uuid_lit 0) demo_txs with Ok l => l | Exc _ => [] end.
Definition demo_raw_accs : list bytes := match raw_batches (uuid_lit 0) demo_accs with Ok l => l | Exc _ => [] end.
Definition demo_eof : bytes := raw_of (EOF (uuid_lit 0) (-1) 3 (-1) (-1) []).
Definition demo_stream : list bytes :=
  frame <$> raw_of Hello :: demo_raw_txs ++ demo_eof :: demo_raw_accs ++ [demo_eof].
(** The connection lost in the middle of a second batch. *)
Definition demo_cut : list bytes := (frame <$> raw_of Hello :: demo_raw_txs) ++ [take 20 (frame (raw_of Hello))].

Lemma demo_greeting : greeting demo_session (raw_of Hello) (raw_of (HelloAck demo_session)).
Proof. split; [eexists; vm_compute; reflexivity|vm_compute; reflexivity|split; vm_compute; reflexivity]. Qed.

Lemma demo_txs_uploaded : uploaded (uuid_lit 0) TransRoute demo_txs demo_raw_txs.
Proof.
  split; [|vm_compute; reflexivity|repeat (apply Forall_cons; split; [vm_compute; reflexivity|]); by apply Forall_nil|vm_compute; reflexivity].
  repeat (apply Forall_cons; split; [split; [reflexivity|intros c; cbn; by apply Forall_nil]|]). by apply Forall_nil.
Qed.

Lemma demo_accs_uploaded : uploaded (uuid_lit 0) AccsRoute demo_accs demo_raw_accs.
Proof.
  split; [|vm_compute; reflexivity|repeat (apply Forall_cons; split; [vm_compute; reflexivity|]); by apply Forall_nil|vm_compute; reflexivity].
  repeat (apply Forall_cons; split; [split; [reflexivity|intros c; exact I]|]). by apply Forall_nil.
Qed.

Lemma gateway_forwards_upload_witness :
  ∃ s pubs, gw_run demo_uuid5 true true 2 1 (gw_init demo_session (conn_open demo_stream) []) = (s, pubs, Some (Ok tt)) ∧
    length pubs = 7%nat ∧ gw_rx s = Some true.
Proof.
  destruct (gateway_forwards_upload demo_uuid5 demo_session (uuid_lit 0) [] true 2 1 (raw_of Hello) (raw_of (HelloAck demo_session))
    demo_eof demo_eof [] demo_txs demo_accs demo_raw_txs demo_raw_accs demo_stream) as (s & pubs & H1 & H2 & _ & _ & H3 & _).
  - lia.
  - lia.
  - exact demo_greeting.
  - exact demo_txs_uploaded.
  - exact demo_accs_uploaded.
  - split; vm_compute; reflexivity.
  - split; vm_compute; reflexivity.
  - repeat (apply Forall_cons; split; [vm_compute; discriminate|]). by apply Forall_nil.
  - vm_compute. reflexivity.
  - exists s, pubs. split; [exact H1|]. split; [|exact H3]. apply mapR_length in H2. exact H2.
Defined.

Lemma gateway_broken_upload_witness :
  ∃ s pubs, gw_run demo_uuid5 true true 2 1 (gw_init demo_session (conn_open demo_cut) []) = (s, pubs, Some (Ok tt)) ∧
    length pubs = 3%nat ∧ gw_monitor s = [demo_session] ∧ gw_closed s = false.
Proof.
  destruct (gateway_broken_upload demo_uuid5 demo_session (uuid_lit 0) [] true 2 1 (raw_of Hello) (raw_of (HelloAck demo_session))
    demo_eof demo_txs demo_accs demo_raw_txs demo_raw_accs demo_cut (raw_of Hello) 20) as (H & _ & _).
  - lia.
  - lia.
  - exact demo_greeting.
  - exact demo_txs_uploaded.
  - exact demo_accs_uploaded.
  - split; vm_compute; reflexivity.
  - vm_compute. reflexivity.
  - repeat (apply Forall_cons; split; [vm_compute; discriminate|]). by apply Forall_nil.
  - destruct H as (s & pubs & H1 & H2 & H3 & _ & H4).
    + vm_compute. lia.
    + vm_compute. reflexivity.
    + exists s, pubs. split; [exact H1|]. split; [apply mapR_length in H2; exact H2|]. split; [exact H3|exact H4].
Defined.

Lemma responses_acked_once_written_witness :
  let s := mkCSH demo_session (conn_open []) false (Some true) [demo_session] in
  ∃ n, (consume_responses true s [([Byte.x61], true, 1%nat); ([Byte.x62], false, 2%nat)]).2 =
    List.concat ((λ x : bytes * bool * nat, [Written x.1.1; RespAcked x.2]) <$> take n [([Byte.x61], true, 1%nat); ([Byte.x62], false, 2%nat)]).
Proof.
  intros s. pose proof (responses_acked_once_written true s [([Byte.x61], true, 1%nat); ([Byte.x62], false, 2%nat)] eq_refl) as H.
  destruct (consume_responses true s _) as [s' out]. destruct H as (n & H & _). exists n. exact H.
Defined.
End demo.
