(* ===== verification/Client.v ===== *)
(** * The client: [client/client.py], [client/parser/*.py]

    The files of a client are read by several processes, each over a range of
    bytes; the batches they parse reach the connection through a queue. A file is a
    list of characters, one byte each (the text is ASCII). When the operating
    system asks for a shutdown, and whether a send succeeds, are arguments. *)

From S2P Require Import Prelude.
From S2P Require Import PyDict.
From S2P Require Import PyValues.
From S2P Require Import PyText.
From S2P Require Import PyTime.
From S2P Require Import PyFloat.
From S2P Require Import Wire.
From S2P Require Import Messages.
From S2P Require Import Spill.
From S2P Require Import MergeFns.

(** [self.client_id], until the gateway writes the real one. *)
Definition placeholder : uuid := uuid_lit 0.

(** ** The parsers *)

(** [TransactionParser.parse] *)
Definition parse_transaction (line : chars) : res Transaction :=
  match str_split c_comma (str_of (rstrip_nl line)) with
  | [timestamp; from_bank; from_account; to_bank; to_account; amount_received; receiving_currency;
     amount_paid; payment_currency; payment_format; _] =>
      d ← fast_datetime timestamp;
      fb ← int_str from_bank;
      tb ← int_str to_bank;
      received ← float_str amount_received;
      paid ← float_str amount_paid;
      Ok (mkTx (TsDate d) (str_int fb) from_account (str_int tb) to_account received receiving_currency
            paid payment_currency payment_format)
  | _ => Exc ValueError
  end.

(** [AccountParser.parse] *)
Definition parse_account (line : chars) : res Account :=
  match str_split c_comma (str_of (rstrip_nl line)) with
  | [bank_name; bank_id; account_number; entity_id; entity_name] =>
      b ← int_str bank_id;
      Ok (mkAccount bank_name (str_int b) account_number entity_id entity_name)
  | _ => Exc ValueError
  end.

(** ** Reading a file *)

(** A file opened for reading: the lines ahead, and [tell()]. *)
Record Reader := mkReader { rd_lines : list chars; rd_tell : nat }.

(** [f.seek(start)] *)
Definition seek (content : chars) (start : nat) : Reader := mkReader (lines_of (drop start content)) start.

Definition readline (f : Reader) : chars * Reader :=
  match rd_lines f with
  | [] => ([], f)
  | line :: lines => (line, mkReader lines (rd_tell f + length line)%nat)
  end.

(** [_DONE] *)
Definition DONE_ITEM : bytes := [].

Section client.
Context `{MP : MsgPack} (batch_size : Z).

(** ** [_transactions_worker]: the items put on the queue, and how it ends *)

Definition put_batch (c : uuid) (batch : list Transaction) (rest : list bytes * res unit) : list bytes * res unit :=
  match serialize (new_msg (Transactions c batch)) with
  | Exc e => ([], Exc e)
  | Ok raw => (raw :: rest.1, rest.2)
  end.

(** After the loop; [shut] is whether a shutdown was asked for. *)
Definition worker_end (c : uuid) (shut : bool) (batch : list Transaction) : list bytes * res unit :=
  if shut then ([], Ok tt)
  else match batch with [] => ([DONE_ITEM], Ok tt) | _ => put_batch c batch ([DONE_ITEM], Ok tt) end.

(** [while f.tell() < end]; [shut k] is the flag at the [k]-th look at it. *)
Fixpoint worker_loop (c : uuid) (shut : nat → bool) (stop tell : nat) (lines : list chars) (k : nat) (batch : list Transaction)
    : list bytes * res unit :=
  if (tell <? stop)%nat then
    if shut k then ([], Ok tt)
    else
      match lines with
      | [] => worker_end c (shut (S k)) batch
      | line :: lines =>
          match parse_transaction line with
          | Exc e => ([], Exc e)
          | Ok t =>
              let batch := batch ++ [t] in
              if batch_size <=? Z.of_nat (length batch)
              then put_batch c batch (worker_loop c shut stop (tell + length line) lines (S k) [])
              else worker_loop c shut stop (tell + length line) lines (S k) batch
          end
      end
  else worker_end c (shut k) batch.

Definition transactions_worker (content : chars) (start stop : nat) (c : uuid) (shut : nat → bool) : list bytes * res unit :=
  let '(_, f) := readline (seek content start) in
  worker_loop c shut stop (rd_tell f) (rd_lines f) 0 [].

(** ** [_send_transactions_parallel] *)

(** The ranges of the workers. *)
Definition bounds (size n : nat) : list (nat * nat) := (λ i, (i * size / n, (i + 1) * size / n)%nat) <$> List.seq 0 n.

(** The loop that drains the queue: [None] is a [get] that times out, [sendable]
    whether the send of the message numbered so succeeds, [shut] the flag at the
    successive looks at it. The messages sent, and their number. *)
Fixpoint drain (sendable : Z → bool) (shut : nat → bool) (n finished k : nat) (count : Z) (items : list (option bytes))
    : list bytes * Z :=
  if (finished <? n)%nat && negb (shut k) then
    match items with
    | [] | None :: _ => ([], count)
    | Some item :: items =>
        if bool_decide (item = DONE_ITEM) then drain sendable shut n (S finished) (S k) count items
        else if sendable count
        then let '(sent, count) := drain sendable shut n finished (S k) (count + 1) items in (item :: sent, count)
        else ([], count)
    end
  else ([], count).

(** ** [_send_accounts_batched] *)

(** The [try] around a send catches a failure to serialize too. *)
Definition send_accounts (sendable : Z → bool) (c : uuid) (batch : list Account) (count : Z)
    (next : Z → list bytes * res Z) : list bytes * res Z :=
  match serialize (new_msg (Accounts c batch)) with
  | Exc _ => ([], Ok count)
  | Ok raw =>
      if sendable count then let '(sent, r) := next (count + 1) in (raw :: sent, r)
      else ([], Ok count)
  end.

Fixpoint accounts_loop (sendable : Z → bool) (c : uuid) (lines : list chars) (batch : list Account) (count : Z) : list bytes * res Z :=
  match lines with
  | [] =>
      match batch with
      | [] => ([], Ok count)
      | _ => send_accounts sendable c batch count (λ count, ([], Ok count))
      end
  | line :: lines =>
      match parse_account line with
      | Exc e => ([], Exc e)
      | Ok a =>
          let batch := batch ++ [a] in
          if batch_size <=? Z.of_nat (length batch)
          then send_accounts sendable c batch count (accounts_loop sendable c lines [])
          else accounts_loop sendable c lines batch count
      end
  end.

(** The header is skipped; the file is read in text mode. *)
Definition send_accounts_batched (sendable : Z → bool) (content : chars) (c : uuid) : list bytes * res Z :=
  accounts_loop sendable c (drop 1 (file_lines content)) [] 0.

(** ** [_receive_and_write_responses] *)

(** What is received: a response, or an error that ends the connection. *)
Record Collected := mkCollected { co_texts : pydict Z chars; co_completed : pyset Z }.

Definition collect_one (co : Collected) (body : string) (last : bool) (uc : Z) : Collected :=
  mkCollected (dset (co_texts co) uc (dget_or [] (co_texts co) uc ++ chars_of body))
    (if last then sadd (co_completed co) uc else co_completed co).

(** The temporary files are read back in text mode, in the order of the numbers. *)
Definition responses_text (co : Collected) : chars :=
  List.concat ((λ uc, universal_newlines (dget_or [] (co_texts co) uc)) <$> merge_sort Z.le (dkeys (co_texts co))).

(** The text of the output file, or [None] when the connection ends first. *)
Fixpoint receive_responses (nresponses : nat) (co : Collected) (rs : list (res Body)) : option chars :=
  if (length (co_completed co) <? nresponses)%nat then
    match rs with
    | Ok (Response _ body last uc) :: rs => receive_responses nresponses (collect_one co body last uc) rs
    | _ => None
    end
  else Some (responses_text co).

Definition receive_and_write_responses (nresponses : nat) (rs : list (res Body)) : option chars :=
  receive_responses nresponses (mkCollected [] []) rs.

End client.
