(* ===== verification/ClientProps.v ===== *)
(** * What the client sends and writes

    Which lines of a file the workers read, the batches that reach the connection
    whatever the order in which the workers are scheduled, and the file of
    responses. *)

From S2P Require Import Prelude.
From S2P Require Import PyDict.
From S2P Require Import PyValues.
From S2P Require Import PyText.
From S2P Require Import PyTime.
From S2P Require Import Wire.
From S2P Require Import Messages.
From S2P Require Import MessageTypes.
From S2P Require Import Spill.
From S2P Require Import Stamping.
From S2P Require Import Gateway.
From S2P Require Import Client.

(** ** The lines of a file and where they start *)

Fixpoint numbered (p : nat) (ls : list chars) : list (nat * chars) :=
  match ls with
  | [] => []
  | l :: ls => (p, l) :: numbered (p + length l) ls
  end.

Lemma lines_of_nonempty l : Forall (λ w, w ≠ []) (lines_of l).
Proof.
  induction l as [|c l IH]; [done|]. cbn. case_bool_decide; [by constructor|].
  destruct (lines_of l); [by constructor|]. inversion_clear IH. by constructor.
Qed.

Lemma numbered_from p ls : Forall (λ x, (p ≤ x.1)%nat) (numbered p ls).
Proof.
  revert p. induction ls as [|l ls IH]; intros p; [done|]. cbn. constructor; [cbn; lia|].
  eapply Forall_impl; [apply IH|]. cbn. intros; lia.
Qed.

Lemma numbered_ge p q ls : (q ≤ p)%nat → filter (λ x : nat * chars, (q ≤ x.1)%nat) (numbered p ls) = numbered p ls.
Proof. intros H. apply filter_Forall_all. eapply Forall_impl; [apply numbered_from|]. cbn. intros; lia. Qed.

Lemma numbered_none p q ls : (q ≤ p)%nat → filter (λ x : nat * chars, (x.1 < q)%nat) (numbered p ls) = [].
Proof. intros H. apply filter_Forall_none. eapply Forall_impl; [apply numbered_from|]. cbn. intros; lia. Qed.

(** After a seek and a dropped line the lines ahead are those that start after
    the position sought. *)
Lemma seek_readline l : ∀ s p,
  let f := (readline (seek l s)).2 in
  numbered (p + rd_tell f) (rd_lines f) = filter (λ x : nat * chars, (p + s < x.1)%nat) (numbered p (lines_of l)).
Proof.
  induction l as [|c l IH]; intros s p.
  { unfold readline, seek. rewrite drop_nil. done. }
  destruct s as [|s].
  - unfold readline, seek. cbn [drop rd_lines].
    pose proof (lines_of_nonempty (c :: l)) as Hne. destruct (lines_of (c :: l)) as [|w ws]; [done|].
    inversion_clear Hne as [|? ? Hw _]. cbn [snd rd_tell rd_lines numbered]. rewrite filter_cons_False by (cbn; lia).
    cbn [Nat.add]. symmetry. apply filter_Forall_all. eapply Forall_impl; [apply numbered_from|].
    intros x. destruct w; [done|]. cbn. lia.
  - specialize (IH s (S p)). cbv zeta in *. unfold seek in *. cbn [drop].
    assert (E : rd_tell (readline (mkReader (lines_of (drop s l)) (S s))).2 = S (rd_tell (readline (mkReader (lines_of (drop s l)) s)).2)
      ∧ rd_lines (readline (mkReader (lines_of (drop s l)) (S s))).2 = rd_lines (readline (mkReader (lines_of (drop s l)) s)).2).
    { unfold readline. cbn [rd_lines]. by destruct (lines_of (drop s l)). }
    destruct E as [-> ->]. rewrite Nat.add_succ_r, <- Nat.add_succ_l. rewrite IH. clear IH. cbn [lines_of].
    case_bool_decide.
    + cbn [numbered length]. rewrite (filter_cons_False _ (p, [c])) by (cbn; lia). rewrite Nat.add_1_r.
      apply filter_ext_elem. intros x _. lia.
    + destruct (lines_of l) as [|w ws]; cbn [numbered length].
      { by rewrite filter_cons_False by (cbn; lia). }
      rewrite !filter_cons_False by (cbn; lia). replace (p + S (length w))%nat with (S p + length w)%nat by lia.
      apply filter_ext_elem. intros x _. lia.
Qed.

(** ** Batches *)

Section batches.
Context {A : Type}.
Implicit Types (batch l : list A).

Fixpoint split_batches (n : Z) batch l : list (list A) :=
  match l with
  | [] => match batch with [] => [] | _ => [batch] end
  | x :: l =>
      if n <=? Z.of_nat (length (batch ++ [x])) then (batch ++ [x]) :: split_batches n [] l
      else split_batches n (batch ++ [x]) l
  end.

Lemma split_batches_concat n batch l : List.concat (split_batches n batch l) = batch ++ l.
Proof.
  revert batch. induction l as [|x l IH]; intros batch; cbn.
  - destruct batch; [done|]. cbn. by rewrite !app_nil_r.
  - destruct (n <=? _); cbn; rewrite IH; by rewrite <- app_assoc.
Qed.

Lemma split_batches_sizes n batch l : 1 ≤ n → Z.of_nat (length batch) < n →
  Forall (λ b, b ≠ [] ∧ Z.of_nat (length b) ≤ n) (split_batches n batch l).
Proof.
  intros Hn. revert batch. induction l as [|x l IH]; intros batch Hb; cbn.
  - destruct batch as [|a batch]; [done|]. constructor; [|done]. split; [done|lia].
  - destruct (n <=? _) eqn:E.
    + constructor; [|apply IH; cbn; lia]. rewrite length_app in *. cbn in *. split; [by destruct batch|lia].
    + apply IH. by apply Z.leb_gt in E.
Qed.
End batches.

Lemma parse_transaction_wf line t : parse_transaction line = Ok t → tx_wf t.
Proof.
  unfold parse_transaction. intros Hq. repeat (case_match; try discriminate). res_inv. unfold tx_wf. cbn [timestamp].
  by eapply fast_datetime_valid.
Qed.

Section worker.
Context `{MP : MsgPack} (n : Z) (c : uuid).

Definition never (k : nat) : bool := false.

(** The serialized batches of the transactions. *)
Definition raw_txs (bs : list (list Transaction)) : res (list bytes) := raw_batches c (TransBatch <$> bs).

Lemma raw_txs_cons b bs raw raws :
  serialize (new_msg (Transactions c b)) = Ok raw → raw_txs bs = Ok raws → raw_txs (b :: bs) = Ok (raw :: raws).
Proof. intros E H. unfold raw_txs, raw_batches in *. rewrite fmap_cons. cbn [mapR batch_body]. rewrite E. cbn [mbind res_bind]. by rewrite H. Qed.

Lemma put_batch_ok batch rest : Forall tx_wf batch →
  ∃ raw, serialize (new_msg (Transactions c batch)) = Ok raw ∧ put_batch c batch rest = (raw :: rest.1, rest.2).
Proof.
  intros Hb. destruct (serialize_layout (new_msg (Transactions c batch))) as (payload & E & _); [exact Hb|done|done|].
  unfold put_batch. rewrite E. by eexists.
Qed.

Lemma worker_end_spec batch : Forall tx_wf batch →
  ∃ raws, raw_txs (match batch with [] => [] | _ => [batch] end) = Ok raws ∧
    worker_end c false batch = (raws ++ [DONE_ITEM], Ok tt).
Proof.
  intros Hb. destruct batch as [|t batch]; [by exists []|].
  destruct (put_batch_ok (t :: batch) ([DONE_ITEM], Ok tt) Hb) as (raw & E & Hp). exists [raw].
  unfold worker_end. rewrite Hp. split; [|done]. by apply raw_txs_cons.
Qed.

Lemma worker_loop_spec stop lines : ∀ tell k batch txs,
  Forall tx_wf batch →
  mapR parse_transaction (filter (λ x : nat * chars, (x.1 < stop)%nat) (numbered tell lines)).*2 = Ok txs →
  ∃ raws, raw_txs (split_batches n batch txs) = Ok raws ∧
    worker_loop n c never stop tell lines k batch = (raws ++ [DONE_ITEM], Ok tt).
Proof.
  induction lines as [|line lines IH]; intros tell k batch txs Hb Hm; cbn [worker_loop numbered] in *.
  { cbn in Hm. injection Hm as <-. cbn [split_batches].
    destruct (worker_end_spec batch Hb) as (raws & E1 & E2). exists raws. split; [done|]. unfold never. by destruct (tell <? stop)%nat. }
  destruct (tell <? stop)%nat eqn:Et.
  - apply Nat.ltb_lt in Et. rewrite filter_cons_True in Hm by done. rewrite fmap_cons in Hm. cbn [mapR snd] in Hm.
    apply bind_Ok in Hm as (t & Ht & Hm). apply bind_Ok in Hm as (txs' & Hm & [= <-]).
    unfold never at 1. rewrite Ht. cbn [split_batches].
    assert (Hbt : Forall tx_wf (batch ++ [t])) by (apply Forall_app; split; [done|constructor; [by eapply parse_transaction_wf|done]]).
    destruct (n <=? Z.of_nat (length (batch ++ [t]))).
    + destruct (IH (tell + length line)%nat (S k) [] txs' (Forall_nil_2 _) Hm) as (raws & E1 & E2). rewrite E2.
      destruct (put_batch_ok (batch ++ [t]) (raws ++ [DONE_ITEM], Ok tt) Hbt) as (raw & E & ->).
      exists (raw :: raws). split; [|done]. by apply raw_txs_cons.
    + by apply IH.
  - apply Nat.ltb_ge in Et. rewrite filter_cons_False, numbered_none in Hm by (cbn; lia). cbn in Hm. injection Hm as <-.
    cbn [split_batches]. apply (worker_end_spec batch Hb).
Qed.

(** A worker reads the lines that start strictly inside its range. *)
Definition range_lines (content : chars) (b : nat * nat) : list (nat * chars) :=
  filter (λ x : nat * chars, (b.1 < x.1 < b.2)%nat) (numbered 0 (lines_of content)).

Lemma transactions_worker_spec content b txs :
  mapR parse_transaction (range_lines content b).*2 = Ok txs →
  ∃ raws, raw_txs (split_batches n [] txs) = Ok raws ∧
    transactions_worker n content b.1 b.2 c never = (raws ++ [DONE_ITEM], Ok tt).
Proof.
  intros Hm. unfold transactions_worker. pose proof (seek_readline content b.1 0) as Hs. cbv zeta in Hs. cbn [Nat.add] in Hs.
  destruct (readline (seek content b.1)) as [first f]. cbn [snd] in Hs. apply worker_loop_spec; [done|].
  rewrite Hs, list_filter_filter. rewrite <- Hm. f_equal. f_equal. apply filter_ext_elem. intros x _. lia.
Qed.
End worker.

(** ** The ranges of all the workers *)

Lemma numbered_split t ls : ∀ p,
  filter (λ x : nat * chars, (x.1 < t)%nat) (numbered p ls) ++ filter (λ x : nat * chars, (t ≤ x.1)%nat) (numbered p ls) = numbered p ls.
Proof.
  induction ls as [|l ls IH]; intros p; [done|]. cbn [numbered]. destruct (decide (p < t)%nat) as [Hp|Hp].
  - rewrite filter_cons_True, filter_cons_False by (cbn; lia). cbn [app]. by rewrite IH.
  - rewrite filter_cons_False, filter_cons_True, numbered_none, numbered_ge by (cbn; lia). done.
Qed.

Lemma numbered_lt ls : ∀ p, Forall (λ w, w ≠ []) ls → Forall (λ x, (x.1 < p + length (List.concat ls))%nat) (numbered p ls).
Proof.
  induction ls as [|l ls IH]; intros p H; [done|]. inversion_clear H as [|? ? Hl H']. cbn [numbered List.concat]. rewrite length_app.
  constructor; [destruct l; [done|cbn; lia]|]. eapply Forall_impl; [by apply IH|]. cbn. intros; lia.
Qed.

(** Successive ranges read the lines that start inside the whole and not at one
    of the boundaries. *)
Lemma ranges_concat (b : nat → nat) ls n : (∀ i, (b i ≤ b (S i))%nat) →
  List.concat ((λ i, filter (λ x : nat * chars, (b i < x.1 < b (S i))%nat) (numbered 0 ls)) <$> List.seq 0 n) =
  filter (λ x : nat * chars, (b 0%nat ≤ x.1 < b n)%nat ∧ x.1 ∉ b <$> List.seq 0 n) (numbered 0 ls).
Proof.
  intros Hb. induction n as [|n IH].
  { cbn. rewrite filter_Forall_none; [done|]. apply Forall_forall. intros x _. lia. }
  assert (Hmono : ∀ i j, (i ≤ j)%nat → (b i ≤ b j)%nat) by (induction 1; [done|]; etransitivity; [|apply Hb]; done).
  rewrite List.seq_S, fmap_app, concat_app. cbn [fmap list_fmap List.concat Nat.add]. rewrite app_nil_r, IH.
  rewrite <- (numbered_split (b n) ls 0) at 3. rewrite filter_app, !list_filter_filter. f_equal.
  - apply filter_ext_elem. intros x _. rewrite fmap_app, not_elem_of_app. cbn [fmap list_fmap].
    rewrite list_elem_of_singleton. specialize (Hb n). intuition lia.
  - apply filter_ext_elem. intros x _. rewrite fmap_app, not_elem_of_app. cbn [fmap list_fmap].
    rewrite list_elem_of_singleton. split.
    + intros H. split; [|lia]. split; [pose proof (Hmono 0%nat n); lia|]. split; [|lia].
      intros (i & Hx & Hi)%list_elem_of_fmap. apply elem_of_seq in Hi. pose proof (Hmono i n). lia.
    + intros [[H1 [H2 H3]] H4]. lia.
Qed.

(** The boundaries of [n] workers; the first is the start of the header. *)
Definition boundaries (size n : nat) : list nat := (λ i, i * size / n)%nat <$> List.seq 0 n.

Lemma workers_lines content n : (0 < n)%nat →
  List.concat (range_lines content <$> bounds (length content) n) =
  filter (λ x : nat * chars, x.1 ∉ boundaries (length content) n) (numbered 0 (lines_of content)).
Proof.
  intros Hn. set (size := length content). set (b := λ i, (i * size / n)%nat).
  assert (Hb : ∀ i, (b i ≤ b (S i))%nat) by (intros i; unfold b; apply Nat.Div0.div_le_mono; lia).
  pose proof (ranges_concat b (lines_of content) n Hb) as H. unfold bounds. rewrite <- list_fmap_compose.
  erewrite list_fmap_ext; [rewrite H|].
  - apply filter_ext_elem. intros x Hx. unfold boundaries.
    pose proof (numbered_lt (lines_of content) 0 (lines_of_nonempty content)) as Hlt. rewrite Forall_forall in Hlt. specialize (Hlt x Hx).
    rewrite concat_lines in Hlt. assert (b n = size) as ->.
    { unfold b. by rewrite Nat.mul_comm, Nat.div_mul by lia. }
    assert (b 0%nat = 0%nat) as -> by (unfold b; cbn; apply Nat.Div0.div_0_l). change (λ i, (i * size / n)%nat) with b.
    fold size in Hlt. intuition lia.
  - intros j i _. cbn. unfold range_lines. cbn [fst snd]. unfold b. apply filter_ext_elem. intros x _.
    by rewrite Nat.add_1_r.
Qed.

(** ** The queue *)

(** One item at a time from the heads of the lists, in any order. *)
Inductive interleaving {A} : list (list A) → list A → Prop :=
  | il_done ls : Forall (λ l, l = []) ls → interleaving ls []
  | il_next ls1 x l ls2 xs : interleaving (ls1 ++ l :: ls2) xs → interleaving (ls1 ++ (x :: l) :: ls2) (x :: xs).

Lemma interleaving_perm {A} (ls : list (list A)) xs : interleaving ls xs → xs ≡ₚ List.concat ls.
Proof.
  induction 1 as [ls H|ls1 x l ls2 xs _ IH].
  - induction H as [|l ls -> _ IH]; [done|]. exact IH.
  - rewrite IH, !concat_app. cbn [List.concat app]. apply Permutation_middle.
Qed.

(** What is left of a worker's items: nothing, or batches and the mark. *)
Definition worker_items (l : list bytes) : Prop := l = [] ∨ ∃ raws, l = raws ++ [DONE_ITEM] ∧ DONE_ITEM ∉ raws.

Definition unfinished (ls : list (list bytes)) : nat := length (filter (λ l, l ≠ []) ls).

Lemma unfinished_app ls1 ls2 : unfinished (ls1 ++ ls2) = (unfinished ls1 + unfinished ls2)%nat.
Proof. unfold unfinished. by rewrite filter_app, length_app. Qed.

Definition always (k : Z) : bool := true.

Lemma drain_all ls items : interleaving ls items → ∀ n finished k count,
  Forall worker_items ls → n = (finished + unfinished ls)%nat →
  drain always never n finished k count (Some <$> items) =
    (filter (λ x, x ≠ DONE_ITEM) items, count + Z.of_nat (length (filter (λ x, x ≠ DONE_ITEM) items))).
Proof.
  induction 1 as [ls H|ls1 x l ls2 xs _ IH]; intros n finished k count Hw Hn; cbn [fmap list_fmap drain]; unfold never at 1; rewrite andb_true_r.
  { assert (unfinished ls = 0%nat) as Hu.
    { unfold unfinished. rewrite filter_Forall_none; [done|]. eapply Forall_impl; [exact H|]. cbn. intros l ->. by intros []. }
    rewrite (proj2 (Nat.ltb_ge finished n)) by lia. cbn. f_equal. lia. }
  rewrite unfinished_app in Hn. unfold unfinished at 2 in Hn. rewrite filter_cons_True in Hn by done. cbn [length] in Hn.
  fold (unfinished ls2) in Hn. rewrite (proj2 (Nat.ltb_lt finished n)) by lia.
  apply Forall_app in Hw as [Hw1 Hw2]. apply Forall_cons in Hw2 as [Hx Hw2].
  destruct Hx as [Hx|([|y raws] & Hx & Hraws)]; [done|..].
  - injection Hx as -> ->. rewrite bool_decide_eq_true_2 by done. rewrite filter_cons_False by (intros []; done).
    apply IH; [apply Forall_app; split; [done|constructor; [by left|done]]|].
    rewrite unfinished_app. unfold unfinished at 2. rewrite filter_cons_False by (intros []; done). fold (unfinished ls2). lia.
  - injection Hx as -> ->. apply not_elem_of_cons in Hraws as [Hy Hraws].
    rewrite bool_decide_eq_false_2 by congruence. unfold always at 1. rewrite filter_cons_True by congruence.
    rewrite IH.
    + cbn [length]. f_equal. lia.
    + apply Forall_app. split; [done|]. constructor; [|done]. right. by exists raws.
    + rewrite unfinished_app. unfold unfinished at 2. rewrite filter_cons_True by (by destruct raws). cbn [length]. fold (unfinished ls2). lia.
Qed.

(** ** All the workers *)

Lemma mapR_app_inv {A B} (f : A → res B) l1 l2 r :
  mapR f (l1 ++ l2) = Ok r → ∃ r1 r2, mapR f l1 = Ok r1 ∧ mapR f l2 = Ok r2 ∧ r = r1 ++ r2.
Proof.
  revert r. induction l1 as [|x l1 IH]; intros r H; cbn [app mapR] in *; [by exists [], r|].
  apply bind_Ok in H as (y & E & H). apply bind_Ok in H as (ys & H & [= <-]).
  destruct (IH ys H) as (r1 & r2 & E1 & E2 & ->). exists (y :: r1), r2. rewrite E, E1. done.
Qed.

Lemma mapR_cons_inv {A B} (f : A → res B) l y ys :
  mapR f l = Ok (y :: ys) → ∃ x l', l = x :: l' ∧ f x = Ok y ∧ mapR f l' = Ok ys.
Proof.
  destruct l as [|x l]; cbn; [done|]. intros H. apply bind_Ok in H as (y' & E & H).
  apply bind_Ok in H as (ys' & H & H'). simplify_eq. by exists x, l.
Qed.

Lemma mapR_perm {A B} (f : A → res B) l r r' : mapR f l = Ok r → r ≡ₚ r' → ∃ l', l ≡ₚ l' ∧ mapR f l' = Ok r'.
Proof.
  intros H Hp. revert l H. induction Hp as [|x r r' _ IH|x y r|r1 r2 r3 _ IH1 _ IH2]; intros l H.
  - exists l. done.
  - apply mapR_cons_inv in H as (a & l' & -> & E & H). destruct (IH l' H) as (l'' & Hl & E').
    exists (a :: l''). split; [by constructor|]. cbn. rewrite E. cbn. by rewrite E'.
  - apply mapR_cons_inv in H as (a & l' & -> & E1 & H). apply mapR_cons_inv in H as (b & l'' & -> & E2 & H).
    exists (b :: a :: l''). split; [constructor|]. cbn. rewrite E2. cbn. rewrite E1. cbn. by rewrite H.
  - destruct (IH1 l H) as (l' & H1 & E1). destruct (IH2 l' E1) as (l'' & H2 & E2). exists l''. split; [by etransitivity|done].
Qed.

Section workers.
Context `{MP : MsgPack} (n : Z) (c : uuid).

Lemma raw_not_done bs raws : raw_txs c bs = Ok raws → DONE_ITEM ∉ raws.
Proof.
  unfold raw_txs, raw_batches. revert raws. induction bs as [|b bs IH]; intros raws H; cbn [fmap list_fmap mapR] in H.
  { injection H as <-. apply not_elem_of_nil. }
  apply bind_Ok in H as (raw & E & H). apply bind_Ok in H as (raws' & H & [= <-]).
  apply not_elem_of_cons. split; [|by apply IH]. intros <-. by apply peek_serialize in E.
Qed.

(** What the workers of all the ranges put on the queue. *)
Definition workers (content : chars) (nworkers : nat) : list (list bytes * res unit) :=
  (λ b, transactions_worker n content b.1 b.2 c never) <$> bounds (length content) nworkers.

Lemma ranges_spec content rs : ∀ txs,
  mapR parse_transaction (List.concat (range_lines content <$> rs)).*2 = Ok txs →
  ∃ bs rawss, (λ b, transactions_worker n content b.1 b.2 c never) <$> rs = (λ raws, (raws ++ [DONE_ITEM], Ok tt)) <$> rawss ∧
    raw_txs c bs = Ok (List.concat rawss) ∧ List.concat bs = txs ∧ Forall (λ raws, DONE_ITEM ∉ raws) rawss ∧
    (1 ≤ n → Forall (λ b, b ≠ [] ∧ Z.of_nat (length b) ≤ n) bs).
Proof.
  induction rs as [|b rs IH]; intros txs H; cbn [fmap list_fmap List.concat] in H.
  { cbn in H. injection H as <-. by exists [], []. }
  rewrite fmap_app in H. apply mapR_app_inv in H as (t1 & t2 & H1 & H2 & ->).
  destruct (IH t2 H2) as (bs & rawss & E1 & E2 & <- & Hd & Hs).
  destruct (transactions_worker_spec n c content b t1 H1) as (raws & Er & Ew).
  exists (split_batches n [] t1 ++ bs), (raws :: rawss). rewrite !fmap_cons, Ew, E1. split; [done|]. split.
  { unfold raw_txs, raw_batches in *. rewrite fmap_app. by apply mapR_app. }
  split; [by rewrite concat_app, split_batches_concat|].
  split; [constructor; [by eapply raw_not_done|done]|]. intros Hn. apply Forall_app. split; [|by apply Hs].
  apply split_batches_sizes; [done|cbn; lia].
Qed.
End workers.

(** ** The accounts *)

Section accounts.
Context `{MP : MsgPack} (n : Z) (c : uuid).

Definition raw_accs (bs : list (list Account)) : res (list bytes) := raw_batches c (AccBatch <$> bs).

Lemma send_accounts_ok batch count next : ∃ raw, serialize (new_msg (Accounts c batch)) = Ok raw ∧
  send_accounts always c batch count next = (raw :: (next (count + 1)).1, (next (count + 1)).2).
Proof.
  destruct (serialize_layout (new_msg (Accounts c batch))) as (payload & E & _); [done..|].
  unfold send_accounts. rewrite E. eexists. split; [done|]. cbn [always]. by destruct (next (count + 1)).
Qed.

Lemma raw_accs_cons b bs raw raws :
  serialize (new_msg (Accounts c b)) = Ok raw → raw_accs bs = Ok raws → raw_accs (b :: bs) = Ok (raw :: raws).
Proof. intros E H. unfold raw_accs, raw_batches in *. rewrite fmap_cons. cbn [mapR batch_body]. rewrite E. cbn [mbind res_bind]. by rewrite H. Qed.

Lemma accounts_loop_spec lines : ∀ batch count accs, mapR parse_account lines = Ok accs →
  ∃ raws, raw_accs (split_batches n batch accs) = Ok raws ∧
    accounts_loop n always c lines batch count = (raws, Ok (count + Z.of_nat (length raws))).
Proof.
  induction lines as [|line lines IH]; intros batch count accs H; cbn [mapR] in H; cbn [accounts_loop].
  { injection H as <-. cbn [split_batches]. destruct batch as [|a batch].
    - exists []. split; [done|]. cbn. do 2 f_equal. lia.
    - destruct (send_accounts_ok (a :: batch) count (λ count, ([], Ok count))) as (raw & E & ->).
      exists [raw]. split; [by apply raw_accs_cons|done]. }
  apply bind_Ok in H as (a & Ha & H). apply bind_Ok in H as (accs' & H & [= <-]). rewrite Ha. cbn [split_batches].
  destruct (n <=? Z.of_nat (length (batch ++ [a]))); [|by apply IH].
  destruct (send_accounts_ok (batch ++ [a]) count (accounts_loop n always c lines [])) as (raw & E & ->).
  destruct (IH [] (count + 1) accs' H) as (raws & E1 & ->). exists (raw :: raws). split; [by apply raw_accs_cons|].
  cbn [fst snd length]. do 2 f_equal. lia.
Qed.
End accounts.

(** ** The upload *)

(** The transactions the workers read: of the lines that do not start at a boundary. *)
Definition readable (content : chars) (nworkers : nat) (txs : list Transaction) : Prop :=
  mapR parse_transaction
    (filter (λ x : nat * chars, x.1 ∉ boundaries (length content) nworkers) (numbered 0 (lines_of content))).*2 = Ok txs.

Lemma transactions_sent `{MP : MsgPack} (n : Z) (c : uuid) (nworkers : nat) (content : chars)
    (txs : list Transaction) (items : list bytes) :
  (0 < nworkers)%nat → 1 ≤ n → readable content nworkers txs →
  Forall (λ w, w.2 = Ok tt) (workers n c content nworkers) ∧
  (interleaving (workers n c content nworkers).*1 items →
   ∃ batches sent, drain always never nworkers 0 0 0 (Some <$> items) = (sent, Z.of_nat (length sent)) ∧
     raw_batches c (TransBatch <$> batches) = Ok sent ∧ List.concat batches ≡ₚ txs ∧
     Forall (λ b, b ≠ [] ∧ Z.of_nat (length b) ≤ n) batches).
Proof.
  intros Hw Hn Hm. unfold readable in Hm. rewrite <- (workers_lines content nworkers Hw) in Hm.
  destruct (ranges_spec n c content _ txs Hm) as (bs & rawss & Ews & Eraws & Hbs & Hd & Hsz).
  unfold workers. rewrite Ews. split.
  { apply Forall_forall. intros w (raws & -> & _)%list_elem_of_fmap. done. }
  intros Hil. rewrite <- list_fmap_compose in Hil. cbn [fst] in Hil.
  assert (Hlen : length rawss = nworkers).
  { apply (f_equal length) in Ews. unfold bounds in Ews. rewrite !length_fmap, length_seq in Ews. done. }
  pose proof (drain_all _ _ Hil nworkers 0 0 0) as Hdr.
  pose proof (interleaving_perm _ _ Hil) as Hperm.
  assert (Hfilter : filter (λ x, x ≠ DONE_ITEM) items ≡ₚ List.concat rawss).
  { rewrite Hperm. clear -Hd. induction Hd as [|raws rawss Hr _ IH]; [done|]. cbn [fmap list_fmap List.concat]. cbn.
    rewrite !filter_app, IH. rewrite filter_Forall_all by (apply Forall_forall; intros x Hx ->; done).
    rewrite filter_cons_False by (intros []; done). by rewrite app_nil_r. }
  symmetry in Hfilter. unfold raw_txs, raw_batches in Eraws.
  destruct (mapR_perm _ _ _ _ Eraws Hfilter) as (l' & Hl & El).
  assert (∃ batches, l' = TransBatch <$> batches ∧ bs ≡ₚ batches) as (batches & -> & Hb).
  { apply Permutation_map_inv in Hl as (batches & -> & Hb) || (symmetry in Hl; apply Permutation_map_inv in Hl as (batches & E & Hb)).
    by exists batches. }
  exists batches, (filter (λ x, x ≠ DONE_ITEM) items). split.
  { rewrite Hdr; [do 2 f_equal; lia|..].
    - apply Forall_forall. intros l (raws & -> & Hin)%list_elem_of_fmap. right. exists raws. split; [done|].
      rewrite Forall_forall in Hd. by apply Hd.
    - cbn. unfold unfinished. rewrite filter_Forall_all, length_fmap; [done|].
      apply Forall_forall. intros l (raws & -> & _)%list_elem_of_fmap. cbn. by destruct raws. }
  split; [exact El|]. rewrite <- Hb. split; [by rewrite Hbs|]. by apply Hsz.
Qed.

(** ** The responses *)

(** A response of use case [uc]: its text and whether it is the last one. *)
Record Reply := mkReply { reply_uc : Z; reply_text : string; reply_last : bool }.

Definition reply_body (c : uuid) (r : Reply) : Body := Response c (reply_text r) (reply_last r) (reply_uc r).
Definition collect_all (rs : list Reply) : Collected :=
  foldl (λ co r, collect_one co (reply_text r) (reply_last r) (reply_uc r)) (mkCollected [] []) rs.

(** The responses of one use case, in order, and the text they make up. *)
Definition replies_of (rs : list Reply) (uc : Z) : list Reply := filter (λ r, reply_uc r = uc) rs.
Definition replies_text (rs : list Reply) (uc : Z) : chars := List.concat ((λ r, chars_of (reply_text r)) <$> replies_of rs uc).

(** The stream of a use case ends with its only last response. *)
Definition ends_last (rs : list Reply) : Prop :=
  ∃ front r, rs = front ++ [r] ∧ reply_last r = true ∧ Forall (λ r, reply_last r = false) front.

Lemma smem_uc (x : Z) (s : pyset Z) : smem x s = true ↔ x ∈ s.
Proof.
  rewrite smem_spec. cbn. unfold id. split; [intros (y & -> & Hy)%list_elem_of_fmap; done|].
  intros H. apply list_elem_of_fmap. by exists x.
Qed.

Lemma collect_all_snoc rs r :
  collect_all (rs ++ [r]) = collect_one (collect_all rs) (reply_text r) (reply_last r) (reply_uc r).
Proof. unfold collect_all. by rewrite foldl_snoc. Qed.

Lemma collect_texts rs uc : dget_or [] (co_texts (collect_all rs)) uc = replies_text rs uc.
Proof.
  induction rs as [|r rs IH] using rev_ind; [done|]. rewrite collect_all_snoc. cbn [collect_one co_texts].
  rewrite dget_or_dset. unfold replies_text, replies_of in *. rewrite filter_app, filter_cons, filter_nil.
  destruct (decide (pyeq (reply_uc r) uc)) as [E|E]; cbn in E; unfold pyeq, id in E; cbn in E.
  - rewrite (decide_True (P := reply_uc r = uc)) by exact E. rewrite fmap_app, concat_app. cbn.
    rewrite app_nil_r. f_equal. rewrite <- IH. by rewrite E.
  - rewrite (decide_False (P := reply_uc r = uc)) by exact E. by rewrite app_nil_r.
Qed.

Lemma collect_completed rs uc : uc ∈ co_completed (collect_all rs) ↔ ∃ r, r ∈ replies_of rs uc ∧ reply_last r = true.
Proof.
  induction rs as [|r rs IH] using rev_ind; [split; [intros []%not_elem_of_nil|intros (r & []%not_elem_of_nil & _)]|].
  rewrite collect_all_snoc. cbn [collect_one co_completed]. unfold replies_of in *. rewrite filter_app, filter_cons, filter_nil.
  setoid_rewrite elem_of_app.
  assert (Hadd : uc ∈ (if reply_last r then sadd (co_completed (collect_all rs)) (reply_uc r) else co_completed (collect_all rs)) ↔
    uc ∈ co_completed (collect_all rs) ∨ uc = reply_uc r ∧ reply_last r = true).
  { destruct (reply_last r); [rewrite <- !smem_uc, smem_sadd|]; unfold pyeq; cbn; unfold id; intuition congruence. }
  rewrite Hadd, IH. case_decide as E.
  - split.
    + intros [(r' & H1 & H2)|[_ H]]; [exists r'; by split; [left|]|exists r; split; [right; by apply list_elem_of_singleton|done]].
    + intros (r' & [H1|H1%list_elem_of_singleton] & H2); [left; by exists r'|subst; by right].
  - split.
    + intros [(r' & H1 & H2)|[H _]]; [exists r'; by split; [left|]|by rewrite H in E].
    + intros (r' & [H1|H1%not_elem_of_nil] & H2); [left; by exists r'|done].
Qed.

Lemma collect_nodup rs : NoDup (co_completed (collect_all rs)) ∧ NoDup (dkeys (co_texts (collect_all rs))).
Proof.
  assert (H : set_wf (co_completed (collect_all rs)) ∧ dict_wf (co_texts (collect_all rs))).
  { induction rs as [|r rs [IH1 IH2]] using rev_ind; [split; apply NoDup_nil_2|]. rewrite collect_all_snoc.
    cbn [collect_one co_completed co_texts]. split; [destruct (reply_last r); [by apply sadd_wf|done]|by apply dset_wf]. }
  destruct H as [H1 H2]. split; by eapply NoDup_fmap_1.
Qed.

Lemma collect_keys rs uc : uc ∈ dkeys (co_texts (collect_all rs)) ↔ replies_of rs uc ≠ [].
Proof.
  assert (H : ∀ d : pydict Z chars, uc ∈ dkeys d ↔ dget d uc ≠ None).
  { intros d. split.
    - intros Hin Hnone. apply dget_None in Hnone. apply Hnone. apply list_elem_of_fmap. by exists uc.
    - intros Hs. destruct (dget d uc) eqn:E; [|done]. apply dget_Some_elem in E as (k & Hk & Hin).
      assert (k = uc) as -> by exact Hk. apply list_elem_of_fmap. by eexists (uc, _). }
  rewrite H. clear H. induction rs as [|r rs IH] using rev_ind; [done|]. rewrite collect_all_snoc.
  cbn [collect_one co_texts]. rewrite dget_dset. unfold replies_of in *. rewrite filter_app, filter_cons, filter_nil.
  destruct (decide (pyeq (reply_uc r) uc)) as [E|E]; unfold pyeq in E; cbn in E; unfold id in E.
  - rewrite (decide_True (P := reply_uc r = uc)) by exact E. split; [intros _ Hn|done]. by apply app_nil in Hn as [_ ?].
  - rewrite (decide_False (P := reply_uc r = uc)) by exact E. by rewrite app_nil_r.
Qed.

(** Before the end of the streams some use case is not complete. *)
Lemma incomplete_before ucs pre r suf :
  NoDup ucs → (∀ uc, uc ∈ ucs → ends_last (replies_of (pre ++ r :: suf) uc)) →
  Forall (λ r, reply_uc r ∈ ucs) (pre ++ r :: suf) → (length (co_completed (collect_all pre)) < length ucs)%nat.
Proof.
  intros Hn He Hin. destruct (collect_nodup pre) as [Hc _]. set (cs := co_completed (collect_all pre)) in *.
  assert (Hr : reply_uc r ∉ cs).
  { intros (r' & Hr' & Hl)%collect_completed.
    assert (Hru : reply_uc r ∈ ucs) by (rewrite Forall_forall in Hin; apply Hin; apply elem_of_app; right; apply elem_of_cons; by left).
    destruct (He _ Hru) as (front & z & E & _ & Hf). unfold replies_of in *. rewrite filter_app, filter_cons_True in E by done.
    assert (Hx : r' ∈ front).
    { assert (∃ l, front = filter (λ r0, reply_uc r0 = reply_uc r) pre ++ l) as [l ->].
      { destruct (filter (λ r0, reply_uc r0 = reply_uc r) suf) as [|y l _] using rev_ind.
        - exists []. apply app_inj_tail in E as [<- _]. by rewrite app_nil_r.
        - rewrite app_comm_cons, app_assoc in E. apply app_inj_tail in E as [<- _]. by exists (r :: l). }
      apply elem_of_app. by left. }
    rewrite Forall_forall in Hf. specialize (Hf _ Hx). congruence. }
  assert (Hsub : reply_uc r :: cs ⊆+ ucs).
  { apply NoDup_submseteq; [by constructor|]. intros uc [->|Huc]%elem_of_cons.
    - rewrite Forall_forall in Hin. apply Hin. apply elem_of_app. right. apply elem_of_cons. by left.
    - apply collect_completed in Huc as (r' & [<- Hr']%list_elem_of_filter & _). rewrite Forall_forall in Hin. apply Hin.
      apply elem_of_app. by left. }
  apply submseteq_length in Hsub. cbn in Hsub. lia.
Qed.

Lemma receive_all c ucs rs : NoDup ucs →
  (∀ uc, uc ∈ ucs → ends_last (replies_of rs uc)) → Forall (λ r, reply_uc r ∈ ucs) rs →
  ∀ suf pre, rs = pre ++ suf →
  receive_responses (length ucs) (collect_all pre) ((λ r, Ok (reply_body c r)) <$> suf) = Some (responses_text (collect_all rs)).
Proof.
  intros Hn He Hin. induction suf as [|r suf IH]; intros pre E.
  - rewrite app_nil_r in E. subst pre. cbn [fmap list_fmap receive_responses].
    rewrite (proj2 (Nat.ltb_ge _ _)); [done|]. apply submseteq_length, NoDup_submseteq; [done|].
    intros uc Huc. apply collect_completed. destruct (He uc Huc) as (front & r & -> & Hl & _).
    exists r. split; [|done]. apply elem_of_app. right. by apply list_elem_of_singleton.
  - rewrite fmap_cons. cbn [receive_responses]. subst rs.
    rewrite (proj2 (Nat.ltb_lt _ _)) by (by eapply incomplete_before).
    cbn [reply_body]. rewrite <- collect_all_snoc. apply IH. by rewrite <- app_assoc.
Qed.

(** C33: the client writes every response. If each of its use cases sends a stream whose
    last response, and no other, is marked, then however the streams are
    interleaved the client reads all of them, no more and no less, and the file
    it writes holds the text of each use case, in the order of their numbers, with
    line endings in text mode. *)
Theorem client_writes_responses (c : uuid) (ucs : list Z) (rs : list Reply) (rest : list (res Body)) :
  NoDup ucs → (∀ uc, uc ∈ ucs → ends_last (replies_of rs uc)) → Forall (λ r, reply_uc r ∈ ucs) rs →
  receive_and_write_responses (length ucs) ((λ r, Ok (reply_body c r)) <$> rs) =
    Some (List.concat ((λ uc, universal_newlines (replies_text rs uc)) <$> merge_sort Z.le ucs)) ∧
  ∀ pre suf, rs = pre ++ suf → suf ≠ [] →
    receive_and_write_responses (length ucs) (((λ r, Ok (reply_body c r)) <$> pre) ++ Exc OSError :: rest) = None.
Proof.
  intros Hn He Hin. split.
  - unfold receive_and_write_responses. change (mkCollected [] []) with (collect_all []).
    rewrite (receive_all c ucs rs Hn He Hin rs []) by done. f_equal. unfold responses_text.
    assert (Hp : dkeys (co_texts (collect_all rs)) ≡ₚ ucs).
    { apply NoDup_Permutation; [apply collect_nodup|done|]. intros uc. rewrite collect_keys. split.
      - intros Hne. destruct (replies_of rs uc) as [|r l] eqn:E; [done|].
        assert (Hr : r ∈ replies_of rs uc) by (rewrite E; apply elem_of_cons; by left).
        apply list_elem_of_filter in Hr as [<- Hr]. rewrite Forall_forall in Hin. by apply Hin.
      - intros Huc Hnil. destruct (He uc Huc) as (front & r & E & _). rewrite Hnil in E. by destruct front. }
    assert (merge_sort Z.le (dkeys (co_texts (collect_all rs))) = merge_sort Z.le ucs) as ->.
    { apply (StronglySorted_unique Z.le); [apply StronglySorted_merge_sort; apply _..|]. by rewrite !merge_sort_Permutation. }
    f_equal. apply list_fmap_ext. intros _ uc _. by rewrite collect_texts.
  - intros pre suf -> Hne. unfold receive_and_write_responses. change (mkCollected [] []) with (collect_all []).
    assert (H : ∀ l2 l1, pre = l1 ++ l2 → receive_responses (length ucs) (collect_all l1) (((λ r, Ok (reply_body c r)) <$> l2) ++ Exc OSError :: rest) = None).
    { induction l2 as [|r l2 IH]; intros l1 ->; cbn [fmap list_fmap app receive_responses].
      - destruct suf as [|r suf]; [done|]. rewrite app_nil_r in *. rewrite (proj2 (Nat.ltb_lt _ _)) by (by eapply incomplete_before). done.
      - rewrite <- app_assoc in *. cbn [app] in *. rewrite (proj2 (Nat.ltb_lt _ _)) by (by eapply incomplete_before).
        cbn [reply_body]. rewrite <- collect_all_snoc. apply IH. by rewrite <- app_assoc. }
    by apply (H pre []).
Qed.

(** Two use cases, interleaved; one text has a carriage return. *)
Definition demo_replies : list Reply :=
  [mkReply 2 "b1" false; mkReply 1 (str_of [chr 13] +:+ "a1") true; mkReply 2 "b2" true].

Lemma client_writes_responses_witness :
  receive_and_write_responses 2 ((λ r, Ok (reply_body placeholder r)) <$> demo_replies) =
    Some ([c_newline] ++ chars_of "a1b1b2").
Proof.
  destruct (client_writes_responses placeholder [1; 2] demo_replies []) as [H _].
  - apply (bool_decide_unpack _). vm_compute. exact I.
  - intros uc [->|[->|[]%not_elem_of_nil]%elem_of_cons]%elem_of_cons.
    + eexists [], _. split; [vm_compute; reflexivity|]. split; [reflexivity|by apply Forall_nil].
    + eexists [_], _. split; [vm_compute; reflexivity|]. split; [reflexivity|].
      apply Forall_cons. split; [reflexivity|by apply Forall_nil].
  - apply (bool_decide_unpack _). vm_compute. exact I.
  - refine (eq_trans H _). vm_compute. reflexivity.
Defined.
