(* ===== verification/ClientSession.v ===== *)
(** * A client and its gateway

    The whole upload of a client ([Client._run]) over the connection to its handler
    at the gateway ([ClientStreamHandler._run]), and the file of responses. *)

From S2P Require Import Prelude.
From S2P Require Import PyDict.
From S2P Require Import PyValues.
From S2P Require Import PyText.
From S2P Require Import PyTime.
From S2P Require Import Wire.
From S2P Require Import Messages.
From S2P Require Import Spill.
From S2P Require Import Stamping.
From S2P Require Import Connection.
From S2P Require Import Gateway.
From S2P Require Import Client.
From S2P Require Import ClientProps.

Section run.
Context `{MP : MsgPack} (n : Z).

(** ** [_run] *)

(** The end of one of the uploads: the message sent, if it is. *)
Definition send_eof (sendable : bool) (count : Z) : option bytes :=
  match serialize (new_msg (EOF placeholder (-1) count (-1) (-1) [])) with
  | Ok raw => if sendable then Some raw else None
  | Exc _ => None
  end.

(** [sendable phase k] is whether the [k]-th send of a phase succeeds, [shut_main]
    the flag at the three looks at it; [ack] and [rs] are what is received, [items]
    what comes out of the queue. The messages sent, and how the session ends: the
    output file, if it is written, and whether the connection is closed. *)
Definition client_run (nworkers nresponses : nat) (accounts : chars) (sendable : nat → Z → bool) (shut shut_main : nat → bool)
    (ack : res Body) (items : list (option bytes)) (rs : list (res Body)) : list bytes * res (option chars * bool) :=
  match serialize (new_msg Hello) with
  | Exc _ => ([], Ok (None, false))
  | Ok hello =>
      if sendable 0%nat 0 then
        match ack with
        | Ok (HelloAck _) =>
            let '(txs, count) := drain (sendable 1%nat) shut nworkers 0 0 0 items in
            if shut_main 0%nat then (hello :: txs, Ok (None, false))
            else
              match send_eof (sendable 2%nat 0) count with
              | None => (hello :: txs, Ok (None, false))
              | Some eof =>
                  let sent := hello :: txs ++ [eof] in
                  let '(accs, r) := send_accounts_batched n (sendable 3%nat) accounts placeholder in
                  let sent := sent ++ accs in
                  match r with
                  | Exc e => (sent, Exc e)
                  | Ok acc_count =>
                      if shut_main 1%nat then (sent, Ok (None, false))
                      else
                        match send_eof (sendable 4%nat 0) acc_count with
                        | None => (sent, Ok (None, false))
                        | Some eof => (sent ++ [eof], Ok (receive_and_write_responses nresponses rs, negb (shut_main 2%nat)))
                        end
                  end
              end
        | _ => ([hello], Ok (None, false))
        end
      else ([], Ok (None, false))
  end.
End run.

(** ** A run that nothing disturbs *)

Section session.
Context `{MP : MsgPack}.

Lemma hello_sent : ∃ hello msg, serialize (new_msg Hello) = Ok hello ∧ deserialize T_HELLO hello = Ok msg.
Proof.
  destruct (deserialize_serialize (new_msg Hello)) as (hello & E & D); [done..|].
  pose proof (peek_serialize _ _ E) as Hp. exists hello. unfold deserialize_message in D. rewrite Hp in D. cbn in D. by eexists.
Qed.

Lemma send_eof_ok count : 0 ≤ count < 2 ^ 63 → ∃ raw, send_eof true count = Some raw ∧ peek_type raw = Ok (type_int T_EOF).
Proof.
  intros Hc. assert (int64_ok count = true) as Hi.
  { unfold int64_ok. apply andb_true_intro. split; [apply Z.leb_le|apply Z.ltb_lt]; lia. }
  unfold send_eof. destruct (eof_serializes placeholder count Hi) as [raw E]. cbn [snd] in *.
  pose proof (peek_serialize _ _ E) as Hp. rewrite E. by eexists.
Qed.

(** A run that nothing disturbs. *)
Lemma client_run_ok n nworkers nresponses accounts items rs id txs count raws accs :
  drain always never nworkers 0 0 0 items = (txs, count) →
  mapR parse_account (drop 1 (file_lines accounts)) = Ok accs →
  raw_accs placeholder (split_batches n [] accs) = Ok raws → 0 ≤ count < 2 ^ 63 → Z.of_nat (length raws) < 2 ^ 63 →
  ∃ hello msg e1 e2, deserialize T_HELLO hello = Ok msg ∧ peek_type e1 = Ok (type_int T_EOF) ∧ peek_type e2 = Ok (type_int T_EOF) ∧
    client_run n nworkers nresponses accounts (λ _, always) never never (Ok (HelloAck id)) items rs =
      (hello :: txs ++ e1 :: raws ++ [e2], Ok (receive_and_write_responses nresponses rs, true)).
Proof.
  intros Hd Ha Hr Hc Hl. destruct hello_sent as (hello & msg & Eh & Dh).
  destruct (send_eof_ok count Hc) as (e1 & E1 & P1). destruct (send_eof_ok (Z.of_nat (length raws)) ltac:(lia)) as (e2 & E2 & P2).
  exists hello, msg, e1, e2. split_and!; [done..|]. unfold client_run. rewrite Eh. cbn [always]. rewrite Hd. unfold never at 1. change (always 0) with true. cbv beta iota. rewrite E1.
  destruct (accounts_loop_spec n placeholder (drop 1 (file_lines accounts)) [] 0 accs Ha) as (raws' & Er & Ew).
  assert (raws' = raws) as -> by congruence. unfold send_accounts_batched. rewrite Ew. change (always 0) with true. unfold never. cbv beta iota. rewrite Z.add_0_l, E2.
  cbn [negb app]. by rewrite <- !app_assoc.
Qed.

(** A batch of transactions that were parsed can be sent. *)
Lemma parsed_batches_ok lines txs tb :
  mapR parse_transaction lines = Ok txs → List.concat tb ≡ₚ txs → Forall (batch_ok TransRoute) (TransBatch <$> tb).
Proof.
  intros Hm Hp. assert (Forall tx_wf (List.concat tb)) as Hwf.
  { rewrite Hp. clear -Hm. revert txs Hm. induction lines as [|l lines IH]; intros txs Hm; cbn in Hm; [by injection Hm as <-|].
    apply bind_Ok in Hm as (t & Ht & Hm). apply bind_Ok in Hm as (ts & Hts & [= <-]).
    constructor; [by eapply parse_transaction_wf|by apply IH]. }
  clear Hm Hp. induction tb as [|b tb IH]; [done|]. cbn [List.concat] in Hwf. apply Forall_app in Hwf as [Hb Hwf].
  rewrite fmap_cons. constructor; [by split|by apply IH].
Qed.

Lemma batches_length {A} (P : list A → Prop) bs : Forall (λ b, b ≠ [] ∧ P b) bs → (length bs ≤ length (List.concat bs))%nat.
Proof.
  induction 1 as [|b bs [Hb _] _ IH]; [done|]. cbn [List.concat length]. rewrite length_app. destruct b; [done|]. cbn [length]. lia.
Qed.

Lemma account_batches_ok ab : Forall (batch_ok AccsRoute) (AccBatch <$> ab).
Proof. apply Forall_forall. intros b (l & -> & _)%list_elem_of_fmap. by split. Qed.
End session.

(** C32: an upload passes from the files of a client to the shards of the pipeline
    without loss. Let the lines of the transactions that do not start at a boundary
    of the workers' ranges, and the lines of the accounts, parse, and let nothing
    disturb the session. Then whatever the order in which the items of the workers
    come out of the queue, and whatever the chunks in which the network delivers the
    client's messages, the gateway publishes batches that hold exactly these
    transactions, each once, and exactly these accounts in the order of the file, no
    batch empty or larger than the batch size; to the shards in turn, under the id
    it gave the client, with an end of file for each shard; and it has read all the
    client sent. The lines that do start at a boundary are the header (the boundary
    0) and, with several workers, any line that happens to start at an interior
    boundary: no worker sends those. *)
Theorem client_upload_forwarded `{MP : MsgPack} (uuid5 : uuid → string → uuid) (n : Z) (nworkers nresponses nt na : nat)
    (connected : bool) (id : uuid) (m : ClientStreamMonitor) (content accounts : chars) (txs : list Transaction) (accs : list Account)
    (items sent chunks : list bytes) (rs : list (res Body)) (ack : bytes) (r : res (option chars * bool)) :
  (0 < nworkers)%nat → 1 ≤ n → (0 < nt)%nat → (0 < na)%nat →
  readable content nworkers txs → mapR parse_account (drop 1 (file_lines accounts)) = Ok accs →
  interleaving (workers n placeholder content nworkers).*1 items →
  client_run n nworkers nresponses accounts (λ _, always) never never (Ok (HelloAck id)) (Some <$> items) rs = (sent, r) →
  serialize (new_msg (HelloAck id)) = Ok ack → Forall frameable (ack :: sent) → Z.of_nat (length txs) < 2 ^ 63 → Z.of_nat (length accs) < 2 ^ 63 →
  solid chunks → List.concat chunks = List.concat (frame <$> sent) →
  r = Ok (receive_and_write_responses nresponses rs, true) ∧
  ∃ tb ab s pubs,
    List.concat tb ≡ₚ txs ∧ List.concat ab = accs ∧
    Forall (λ b, b ≠ [] ∧ Z.of_nat (length b) ≤ n) tb ∧ Forall (λ b, b ≠ [] ∧ Z.of_nat (length b) ≤ n) ab ∧
    gw_run uuid5 connected true nt na (gw_init id (conn_open chunks) m) = (s, pubs, Some (Ok tt)) ∧
    mapR publish (upload_plan uuid5 id nt TransRoute (TransBatch <$> tb) ++ upload_plan uuid5 id na AccsRoute (AccBatch <$> ab)) = Ok pubs ∧
    gw_monitor s = sadd m id ∧ List.concat (conn_in (gw_conn s)) = [].
Proof.
  intros Hw Hn Hnt Hna Hread Hacc Hil Hrun Hack Hf Hlt Hla Hs Hc.
  destruct (transactions_sent n placeholder nworkers content txs items Hw Hn Hread) as [_ H].
  destruct (H Hil) as (tb & rt & Hd & Hrt & Htb & Hsz). clear H.
  destruct (accounts_loop_spec n placeholder (drop 1 (file_lines accounts)) [] 0 accs Hacc) as (ra & Hra & _).
  assert (Hl : length rt = length tb ∧ length ra = length (split_batches n [] accs)).
  { split; [apply mapR_length in Hrt|apply mapR_length in Hra]; by rewrite length_fmap in *. }
  assert (Hsza : Forall (λ b, b ≠ [] ∧ Z.of_nat (length b) ≤ n) (split_batches n [] accs)) by (apply split_batches_sizes; [done|cbn; lia]).
  pose proof (batches_length _ _ Hsz) as Hbt. pose proof (batches_length _ _ Hsza) as Hba.
  rewrite Htb in Hbt. rewrite split_batches_concat in Hba. cbn [app] in Hba.
  destruct (client_run_ok n nworkers nresponses accounts (Some <$> items) rs id rt _ ra accs Hd Hacc Hra ltac:(lia) ltac:(lia))
    as (hello & msg & e1 & e2 & Dh & P1 & P2 & E).
  rewrite E in Hrun. injection Hrun as <- <-. split; [done|].
  apply Forall_cons in Hf as [Hfack Hf]. apply Forall_cons in Hf as [Hfh Hf]. apply Forall_app in Hf as [Hft Hf].
  apply Forall_cons in Hf as [Hf1 Hf]. apply Forall_app in Hf as [Hfa Hf]. apply Forall_cons in Hf as [Hf2 _].
  edestruct (gateway_forwards_upload uuid5 id placeholder m connected nt na hello ack e1 e2 [] (TransBatch <$> tb) (AccBatch <$> split_batches n [] accs) rt ra chunks)
    as (s & pubs & H1 & H2 & _ & H3 & _ & _ & _ & H4).
  all: try done.
  - by split; [eexists|..].
  - split; [by eapply parsed_batches_ok|done..|]. rewrite length_fmap. lia.
  - split; [apply account_batches_ok|done..|]. rewrite length_fmap. lia.
  - by rewrite app_nil_r.
  - exists tb, (split_batches n [] accs), s, pubs. split_and!; try done.
    + by rewrite split_batches_concat.
Qed.

(** ** Concrete inputs *)

(** Three transactions, each line as long as the header; of two workers the second
    starts where the second transaction does. *)
Section demo.
#[local] Existing Instance msgpack_model.

Definition demo_header : string := "Timestamp,From,Account,To,Account,Amount,C,Amount,C,Format,Is
".
Definition demo_line (account : string) : string := "2022/09/01 00:20,10," +:+ account +:+ ",20,8000B,35.50,Euro,35.50,Euro,Wire,0
".
Definition demo_file : chars := chars_of (demo_header +:+ demo_line "80A" +:+ demo_line "80B" +:+ demo_line "80C").
Definition demo_accounts : chars := chars_of "Bank Name,Bank ID,Account Number,Entity ID,Entity Name
First Bank,010,80A,E1,Corporation
".
Definition demo_parsed (line : string) : list Transaction :=
  match parse_transaction (chars_of line) with Ok t => [t] | Exc _ => [] end.
Definition demo_accs_parsed : list Account :=
  match mapR parse_account (drop 1 (file_lines demo_accounts)) with Ok l => l | Exc _ => [] end.

Definition demo_raw (line : string) : bytes := raw_of (Transactions placeholder (demo_parsed line)).
Definition demo_items : list bytes := [demo_raw (demo_line "80C"); DONE_ITEM; demo_raw (demo_line "80A"); DONE_ITEM].
Definition demo_run : list bytes * res (option chars * bool) :=
  client_run 10 2 1 demo_accounts (λ _, always) never never (Ok (HelloAck (uuid_lit 42))) (Some <$> demo_items)
    [Ok (Response (uuid_lit 42) "done" true 1)].

Lemma demo_workers : (workers 10 placeholder demo_file 2).*1 =
  [[demo_raw (demo_line "80A"); DONE_ITEM]; [demo_raw (demo_line "80C"); DONE_ITEM]].
Proof. vm_compute. reflexivity. Qed.

Lemma demo_interleaved : interleaving (workers 10 placeholder demo_file 2).*1 demo_items.
Proof.
  rewrite demo_workers. apply (il_next [_] _ _ []), (il_next [_] _ _ []), (il_next [] _ _ [_]), (il_next [] _ _ [_]), il_done.
  by repeat constructor.
Qed.

Definition demo_chunks : list bytes := [take 7 (List.concat (frame <$> demo_run.1)); drop 7 (List.concat (frame <$> demo_run.1))].

Lemma client_upload_forwarded_witness :
  ∃ tb s pubs, List.concat tb ≡ₚ demo_parsed (demo_line "80A") ++ demo_parsed (demo_line "80C") ∧
    gw_run demo_uuid5 true true 2 1 (gw_init (uuid_lit 42) (conn_open demo_chunks) []) = (s, pubs, Some (Ok tt)) ∧
    gw_monitor s = [uuid_lit 42].
Proof.
  destruct (client_upload_forwarded demo_uuid5 10 2 1 2 1 true (uuid_lit 42) [] demo_file demo_accounts
    (demo_parsed (demo_line "80A") ++ demo_parsed (demo_line "80C")) demo_accs_parsed demo_items demo_run.1 demo_chunks
    [Ok (Response (uuid_lit 42) "done" true 1)] (raw_of (HelloAck (uuid_lit 42))) demo_run.2)
    as (_ & tb & ab & s & pubs & H1 & _ & _ & _ & H2 & _ & H3 & _).
  - lia.
  - lia.
  - lia.
  - lia.
  - vm_compute. reflexivity.
  - vm_compute. reflexivity.
  - exact demo_interleaved.
  - apply surjective_pairing.
  - vm_compute. reflexivity.
  - change (Forall (λ m : bytes, Z.of_nat (length m) < 256 ^ 4) (raw_of (HelloAck (uuid_lit 42)) :: demo_run.1)).
    apply (bool_decide_unpack _). vm_compute. exact I.
  - vm_compute. reflexivity.
  - vm_compute. reflexivity.
  - repeat (apply Forall_cons; split; [vm_compute; discriminate|]). by apply Forall_nil.
  - cbn [demo_chunks List.concat]. rewrite app_nil_r. apply take_drop.
  - exists tb, s, pubs. split; [exact H1|]. split; [exact H2|]. rewrite H3. vm_compute. reflexivity.
Defined.
End demo.
