(* ===== verification/Oracle.v ===== *)
(** * The reference answers: [scripts/gen_input_output.py]

    The script that computes the answers the system is tested against reads the whole
    file of transactions. For UC1 it copies the rows that qualify, for UC5 it counts
    those whose amount in dollars is small, for UC4 it numbers the accounts, builds the
    two adjacency maps in memory and counts the pairs in a table on disk. pandas'
    [drop_duplicates] and the conversion service are arguments; a file arrives in
    chunks of rows, as [read_csv] gives it. *)

From S2P Require Import Prelude.
From S2P Require Import PyDict.
From S2P Require Import PyValues.
From S2P Require Import PyText.
From S2P Require Import PyTime.
From S2P Require Import PyFloat.
From S2P Require Import Wire.
From S2P Require Import Messages.
From S2P Require Import Filters.
From S2P Require Import GroupBy.

(** The columns of a row the answer depends on; bank ids are read as integers. *)
Record Row := mkRow {
  r_timestamp : string;
  r_from_bank : Z;
  r_account : string;
  r_to_bank : Z;
  r_account_1 : string;
  r_amount_paid : float;
  r_payment_currency : string;
  r_payment_format : string
}.

(** ** [_CsvSink] *)

(** The rows written so far, each with its index, and the lines of the file. *)
Record CsvSink (A : Type) := mkSink { sk_offset : Z; sk_first : bool; sk_lines : list (Z * A) }.
Arguments mkSink {A}.
Arguments sk_offset {A}.
Arguments sk_first {A}.
Arguments sk_lines {A}.

(** The file may exist; the first write replaces it. *)
Definition sink_init {A} (file : list (Z * A)) : CsvSink A := mkSink 0 true file.

Definition sink_write {A} (s : CsvSink A) (df : list A) : CsvSink A :=
  match df with
  | [] => s
  | _ => mkSink (sk_offset s + Z.of_nat (length df)) false
           ((if sk_first s then [] else sk_lines s) ++ imap (λ i r, (sk_offset s + Z.of_nat i, r)) df)
  end.

(** The number of rows, and the lines of the file under its header. *)
Definition sink_close {A} (s : CsvSink A) : Z * list (Z * A) := (sk_offset s, if sk_first s then [] else sk_lines s).

(** ** [_uc1_streaming] *)

Definition uc1_columns (r : Row) : Z * string * Z * string * float :=
  (r_from_bank r, r_account r, r_to_bank r, r_account_1 r, r_amount_paid r).
Definition uc1_mask (r : Row) : bool :=
  bool_decide (r_payment_currency r = "US Dollar"%string) && flt (r_amount_paid r) (f_of_Z 50).

Definition uc1_streaming (file : list (Z * (Z * string * Z * string * float))) (chunks : list (list Row)) :=
  sink_close (foldl (λ s chunk, sink_write s (uc1_columns <$> filter (λ r, uc1_mask r = true) chunk)) (sink_init file) chunks).

(** ** [_uc5_streaming] *)

(** [date.fromisoformat] of a text of ten characters; of the other forms it takes none
    reaches it. *)
Definition date_fromisoformat (s : string) : res date :=
  let l := chars_of s in
  let digits n m := forallb is_digit (slice n m l) in
  if bool_decide (length l = 10%nat) && digits 0%nat 4%nat && bool_decide (slice 4 5 l = [chr 45]) && digits 5%nat 7%nat
     && bool_decide (slice 7 8 l = [chr 45]) && digits 8%nat 10%nat
  then
    y ← int_str (str_of (slice 0 4 l)); m ← int_str (str_of (slice 5 7 l)); d ← int_str (str_of (slice 8 10 l));
    dt ← datetime_new y m d 0 0 0; Ok (date_of dt)
  else Exc ValueError.

(** [s.replace("/", "-")] *)
Definition dashed (s : string) : string := str_of ((λ c, if bool_decide (c = chr 47) then chr 45 else c) <$> chars_of s).

Definition SCRIPT_BITCOIN_RATES_USD : pydict date float :=
  [((2022, 9, 1), f_of_dec 2013146 (-2)); ((2022, 9, 2), f_of_dec 1995186 (-2)); ((2022, 9, 3), f_of_dec 1983190 (-2));
   ((2022, 9, 4), f_of_dec 2000030 (-2)); ((2022, 9, 5), f_of_dec 1979684 (-2))].

Section rates.
(** [FrankfurterConversionAPI.get_rates] *)
Context (api_get_rates : date → res (pydict string float)).

Abbreviation rate_cache := (pydict date (pydict string float)).

(** [_get_rates] *)
Definition get_rates (cache : rate_cache) (date_slash : string) : res (rate_cache * pydict string float) :=
  day ← date_fromisoformat (dashed date_slash);
  match dget cache day with
  | Some rates => Ok (cache, rates)
  | None =>
      rates ← api_get_rates day;
      let rates := match dget SCRIPT_BITCOIN_RATES_USD day with Some b => dset rates "Bitcoin"%string b | None => rates end in
      Ok (dset cache day rates, rates)
  end.

Definition uc5_period (r : Row) : bool :=
  str_leb "2022/09/01" (r_timestamp r) && str_ltb (r_timestamp r) "2022/09/06".
Definition wire_ach (r : Row) : bool := bool_decide (r_payment_format r = "Wire"%string ∨ r_payment_format r = "ACH"%string).

(** The column of the amounts in dollars. *)
Fixpoint usd_amounts (cache : rate_cache) (rows : list Row) : res (rate_cache * list float) :=
  match rows with
  | [] => Ok (cache, [])
  | r :: rows =>
      '(cache, rates) ← get_rates cache (str_slice 0 10 (r_timestamp r));
      let usd := fmul (r_amount_paid r) (dget_or (f_of_Z 1) rates (r_payment_currency r)) in
      '(cache, l) ← usd_amounts cache rows; Ok (cache, usd :: l)
  end.

Definition uc5_chunk (st : rate_cache * Z) (chunk : list Row) : res (rate_cache * Z) :=
  match filter (λ r, wire_ach r = true) (filter (λ r, uc5_period r = true) chunk) with
  | [] => Ok st
  | rows =>
      '(cache, l) ← usd_amounts st.1 rows;
      Ok (cache, st.2 + Z.of_nat (length (filter (λ x, flt x (f_of_Z 1) = true) l)))
  end.

Definition uc5_streaming (cache : rate_cache) (chunks : list (list Row)) : res Z :=
  st ← foldR uc5_chunk (cache, 0) chunks; Ok st.2.
End rates.

(** A key of [node_to_id]: bank and account. *)
Abbreviation bank_account := (Z * string)%type.
#[export] Instance bank_account_key : PyKey bank_account := structural_key bank_account.
#[export] Instance id_pair_key : PyKey (Z * Z) := structural_key (Z * Z).

(** ** [_uc4_streaming] *)

(** The dollar rows of the period, and the columns kept. *)
Definition in_period (r : Row) : bool :=
  str_leb "2022/09/01" (r_timestamp r) && str_leb (r_timestamp r) "2022/09/06".
Definition edge_columns (r : Row) : bank_account * bank_account :=
  ((r_from_bank r, r_account r), (r_to_bank r, r_account_1 r)).
Definition edges_of_chunk (chunk : list Row) : list (bank_account * bank_account) :=
  let usd := filter (λ r, r_payment_currency r = "US Dollar"%string) chunk in
  edge_columns <$> filter (λ r, in_period r = true) usd.

Definition edge_chunks (chunks : list (list Row)) : list (list (bank_account * bank_account)) :=
  omap (λ chunk, match edges_of_chunk chunk with [] => None | es => Some es end) chunks.

(** [node_id]: the number of an account, given out in order. *)
Definition node_id (st : pydict bank_account Z * list bank_account) (k : bank_account)
    : Z * (pydict bank_account Z * list bank_account) :=
  let '(node_to_id, id_to_node) := st in
  match dget node_to_id k with
  | Some i => (i, st)
  | None => let i := Z.of_nat (length id_to_node) in (i, (dset node_to_id k i, id_to_node ++ [k]))
  end.

(** The comprehension that numbers the ends of every edge. *)
Fixpoint number_edges (st : pydict bank_account Z * list bank_account) (rows : list (bank_account * bank_account))
    : list (Z * Z) * (pydict bank_account Z * list bank_account) :=
  match rows with
  | [] => ([], st)
  | (u, v) :: rows =>
      let '(a, st) := node_id st u in
      let '(b, st) := node_id st v in
      let '(es, st) := number_edges st rows in ((a, b) :: es, st)
  end.

(** [succs_of[a].add(b); preds_of[b].add(a)] *)
Definition adjacency (edges : list (Z * Z)) : pydict Z (pyset Z) * pydict Z (pyset Z) :=
  foldl (λ st e, (dset st.1 e.1 (sadd (dget_or [] st.1 e.1) e.2), dset st.2 e.2 (sadd (dget_or [] st.2 e.2) e.1)))
    ([], []) edges.

(** ** [_uc4_pairs_to_accounts] *)

(** [INSERT ... ON CONFLICT(a,c) DO UPDATE SET cnt=cnt+1] *)
Definition upsert (pc : pydict (Z * Z) Z) (k : Z * Z) : pydict (Z * Z) Z :=
  match dget pc k with Some n => dset pc k (n + 1) | None => dset pc k 1 end.

(** The table and the batch not yet written to it. *)
Abbreviation pair_state := (pydict (Z * Z) Z * list (Z * Z))%type.
Definition flush_pairs (st : pair_state) : pair_state := (foldl upsert st.1 st.2, []).

Section pairs.
Context (PAIR_BATCH : Z).

Definition pairs_from (cs : pyset Z) (st : pair_state) (a : Z) : pair_state :=
  let batch := st.2 ++ ((λ c, (a, c)) <$> filter (λ c, a ≠ c) cs) in
  if PAIR_BATCH <=? Z.of_nat (length batch) then flush_pairs (st.1, batch) else (st.1, batch).

Definition pairs_around (preds_of : pydict Z (pyset Z)) (st : pair_state) (bcs : Z * pyset Z) : pair_state :=
  match dget preds_of bcs.1 with
  | None => st
  | Some preds => foldl (pairs_from bcs.2) st preds
  end.

Definition add_accounts (id_to_node : list bank_account) (accounts : pyset bank_account) (ac : Z * Z)
    : res (pyset bank_account) :=
  u ← of_opt IndexError (id_to_node !! Z.to_nat ac.1);
  v ← of_opt IndexError (id_to_node !! Z.to_nat ac.2);
  Ok (sadd (sadd accounts u) v).

Fixpoint accounts_of_pairs (id_to_node : list bank_account) (accounts : pyset bank_account) (l : list (Z * Z))
    : res (pyset bank_account) :=
  match l with
  | [] => Ok accounts
  | ac :: l => accounts ← add_accounts id_to_node accounts ac; accounts_of_pairs id_to_node accounts l
  end.

Definition uc4_pairs_to_accounts (succs_of preds_of : pydict Z (pyset Z)) (id_to_node : list bank_account)
    : res (pyset bank_account) :=
  let pc := (flush_pairs (foldl (pairs_around preds_of) ([], []) succs_of)).1 in
  let qualifying := dkeys (dfilter (λ e, 5 <=? e.2) pc) in
  accounts_of_pairs id_to_node [] qualifying.

Definition uc4_streaming (drop_duplicates : list (bank_account * bank_account) → list (bank_account * bank_account))
    (chunks : list (list Row)) : res (pyset bank_account) :=
  match edge_chunks chunks with
  | [] => Ok []
  | es =>
      let '(edges, (_, id_to_node)) := number_edges ([], []) (drop_duplicates (List.concat es)) in
      let '(succs_of, preds_of) := adjacency edges in
      uc4_pairs_to_accounts succs_of preds_of id_to_node
  end.
End pairs.
