(* ===== verification/OracleProps.v ===== *)
(** * The reference answer, and that the system gives it

    What the script reports as the accounts of UC4, from its numbering, its adjacency
    maps and its table of pairs; and that the answer of the network of UC4 to the
    same transactions lists the same accounts. *)

From S2P Require Import Prelude.
From S2P Require Import PyDict.
From S2P Require Import PyValues.
From S2P Require Import PyText.
From S2P Require Import PyTime.
From S2P Require Import PyFloat.
From S2P Require Import Wire.
From S2P Require Import Messages.
From S2P Require Import Filters.
From S2P Require Import GroupBy.
From S2P Require Import Spill.
From S2P Require Import SpillLog.
From S2P Require Import UC4.
From S2P Require Import UC4Paths.
From S2P Require Import MergeFns.
From S2P Require Import UC4Prune.
From S2P Require Import ShardLog.
From S2P Require Import UC4Graphs.
From S2P Require Import UC4Degrees.
From S2P Require Import UC4Build.
From S2P Require Import Fleet.
From S2P Require Import UC4Stages.
From S2P Require Import Joins.
From S2P Require Import JoinProps.
From S2P Require Import UC4System.
From S2P Require Import Oracle.

(** ** The table of pairs *)

Section count.
Context (PAIR_BATCH : Z).
Implicit Types (st : pair_state) (k : Z * Z).

Definition ones (l : list (Z * Z)) : list ((Z * Z) * Z) := (λ k, (k, 1)) <$> l.

(** What the table will say of a pair once the batch is written. *)
Definition written st k : Z := dget_or 0 st.1 k + total_at (ones st.2) k.

Lemma upsert_dadd pc k : upsert pc k = dadd pc k 1.
Proof. unfold upsert, dadd, dget_or. by destruct (dget pc k). Qed.

Lemma upsert_all (pc : pydict (Z * Z) Z) l : foldl upsert pc l = dadd_all pc (ones l).
Proof. revert pc. induction l as [|k l IH]; intros pc; [done|]. cbn [foldl]. by rewrite IH, upsert_dadd. Qed.

Lemma flush_written st k : dict_wf st.1 → dict_wf (flush_pairs st).1 ∧ written (flush_pairs st) k = written st k.
Proof.
  intros Hwf. unfold flush_pairs, written. cbn [fst snd]. rewrite upsert_all. split; [by apply dadd_all_wf|].
  rewrite dget_or_dadd_all. change (total_at (ones []) k) with 0. lia.
Qed.

(** One for the pair itself, when it is among those of [a] and the members of [cs]. *)
Lemma ones_pairs a (cs : pyset Z) k : NoDup cs →
  total_at (ones ((λ c, (a, c)) <$> filter (λ c, a ≠ c) cs)) k = if decide (a = k.1 ∧ k.1 ≠ k.2 ∧ k.2 ∈ cs) then 1 else 0.
Proof.
  intros Hcs. destruct k as [x y]. cbn [fst snd]. unfold ones. induction Hcs as [|c cs Hc Hcs IH].
  - rewrite decide_False by (intros (_ & _ & ?%not_elem_of_nil); done). done.
  - rewrite filter_cons. destruct (decide (a ≠ c)) as [Hac|Hac].
    + rewrite !fmap_cons, total_at_cons, IH. cbn [fst snd]. 
      destruct (decide (pyeq (a, c) (x, y))) as [E|E].
      * injection E as <- <-. rewrite decide_False by naive_solver. rewrite decide_True; [done|]. split_and!; [done..|left].
      * destruct (decide (a = x ∧ x ≠ y ∧ y ∈ cs)) as [H1|H1], (decide (a = x ∧ x ≠ y ∧ y ∈ c :: cs)) as [H2|H2]; try done.
        -- destruct H2. destruct H1 as (? & ? & ?). split_and!; [done..|by right].
        -- destruct H1. destruct H2 as (-> & ? & [->|?]%elem_of_cons); [by destruct E|done].
    + rewrite IH. assert (a = c) as -> by (destruct (decide (a = c)); tauto).
      destruct (decide (c = x ∧ x ≠ y ∧ y ∈ cs)) as [H1|H1], (decide (c = x ∧ x ≠ y ∧ y ∈ c :: cs)) as [H2|H2]; try done.
      * destruct H2. destruct H1 as (? & ? & ?). split_and!; [done..|by right].
      * destruct H1. destruct H2 as (-> & ? & [->|?]%elem_of_cons); done.
Qed.

Lemma pairs_from_written cs st a k : NoDup cs → dict_wf st.1 →
  dict_wf (pairs_from PAIR_BATCH cs st a).1 ∧
  written (pairs_from PAIR_BATCH cs st a) k = written st k + if decide (a = k.1 ∧ k.1 ≠ k.2 ∧ k.2 ∈ cs) then 1 else 0.
Proof.
  intros Hcs Hwf. unfold pairs_from. set (new := (λ c, (a, c)) <$> filter (λ c, a ≠ c) cs).
  assert (E : written (st.1, st.2 ++ new) k = written st k + if decide (a = k.1 ∧ k.1 ≠ k.2 ∧ k.2 ∈ cs) then 1 else 0).
  { unfold written. cbn [fst snd]. unfold ones. rewrite fmap_app, total_at_app. fold (ones st.2) (ones new).
    unfold new. rewrite ones_pairs by done. lia. }
  cbn zeta. destruct (PAIR_BATCH <=? _); [|by split].
  destruct (flush_written (st.1, st.2 ++ new) k Hwf) as [H1 H2]. by rewrite H2.
Qed.

Definition around_weight (preds_of : pydict Z (pyset Z)) k (bcs : Z * pyset Z) : Z :=
  if decide (k.1 ≠ k.2 ∧ k.1 ∈ dget_or [] preds_of bcs.1 ∧ k.2 ∈ bcs.2) then 1 else 0.

Lemma pairs_around_written preds_of st bcs k : NoDup bcs.2 → NoDup (dget_or [] preds_of bcs.1) → dict_wf st.1 →
  dict_wf (pairs_around PAIR_BATCH preds_of st bcs).1 ∧
  written (pairs_around PAIR_BATCH preds_of st bcs) k = written st k + around_weight preds_of k bcs.
Proof.
  intros Hcs Hps Hwf. unfold pairs_around, around_weight. revert Hps. unfold dget_or.
  destruct (dget preds_of bcs.1) as [ps|]; cbn [from_option default]; unfold id; intros Hps.
  2: { rewrite decide_False by (intros (_ & ?%not_elem_of_nil & _); done). split; [done|lia]. }
  revert st Hwf. induction Hps as [|a qs Ha Hqs IH]; intros st Hwf.
  - rewrite decide_False by (intros (_ & ?%not_elem_of_nil & _); done). split; [done|cbn; lia].
  - cbn [foldl]. destruct (pairs_from_written bcs.2 st a k Hcs Hwf) as [H1 H2].
    destruct (IH _ H1) as [H3 H4]. split; [done|]. rewrite H4, H2.
    destruct (decide (a = k.1 ∧ k.1 ≠ k.2 ∧ k.2 ∈ bcs.2)) as [(-> & Hk & Hin)|Hno].
    + rewrite decide_False by tauto. rewrite decide_True; [lia|]. split_and!; [done|left|done].
    + destruct (decide (k.1 ≠ k.2 ∧ k.1 ∈ qs ∧ k.2 ∈ bcs.2)) as [H5|H5], (decide (k.1 ≠ k.2 ∧ k.1 ∈ a :: qs ∧ k.2 ∈ bcs.2)) as [H6|H6]; try lia.
      * destruct H6. destruct H5 as (? & ? & ?). split_and!; [done|by right|done].
      * destruct H5. destruct H6 as (? & [<-|?]%elem_of_cons & ?); [|done]. by destruct Hno.
Qed.

(** The table counts, for every pair, the accounts in between. *)
Lemma pairs_counted succs_of preds_of k : (∀ b cs, (b, cs) ∈ succs_of → NoDup cs) → (∀ b, NoDup (dget_or [] preds_of b)) →
  dict_wf (flush_pairs (foldl (pairs_around PAIR_BATCH preds_of) ([], []) succs_of)).1 ∧
  dget_or 0 (flush_pairs (foldl (pairs_around PAIR_BATCH preds_of) ([], []) succs_of)).1 k =
    Z.of_nat (length (filter (λ bcs : Z * pyset Z, k.1 ≠ k.2 ∧ k.1 ∈ dget_or [] preds_of bcs.1 ∧ k.2 ∈ bcs.2) succs_of)).
Proof.
  intros Hs Hp. assert (H : ∀ st, dict_wf st.1 → dict_wf (foldl (pairs_around PAIR_BATCH preds_of) st succs_of).1 ∧
    written (foldl (pairs_around PAIR_BATCH preds_of) st succs_of) k = written st k + Z.of_nat (length
      (filter (λ bcs : Z * pyset Z, k.1 ≠ k.2 ∧ k.1 ∈ dget_or [] preds_of bcs.1 ∧ k.2 ∈ bcs.2) succs_of))).
  { induction succs_of as [|[b cs] succs IH]; intros st Hwf; [split; [done|cbn; lia]|]. cbn [foldl].
    destruct (pairs_around_written preds_of st (b, cs) k (Hs b cs (list_elem_of_here _ _)) (Hp b) Hwf) as [H1 H2].
    destruct (IH (λ b cs H, Hs b cs (list_elem_of_further _ _ _ H)) _ H1) as [H3 H4]. split; [done|]. rewrite H4, H2.
    rewrite filter_cons. unfold around_weight. cbn [fst snd].
    destruct (decide (k.1 ≠ k.2 ∧ k.1 ∈ dget_or [] preds_of b ∧ k.2 ∈ cs)); cbn [length]; lia. }
  destruct (H ([], []) nil_wf) as [H1 H2]. destruct (flush_written (foldl (pairs_around PAIR_BATCH preds_of) ([], []) succs_of) k H1) as [H3 H4].
  split; [done|]. rewrite H2 in H4. unfold written in H4. cbn [fst snd flush_pairs] in H4. change (total_at (ones []) k) with 0 in H4.
  change (dget_or 0 ([] : pydict (Z * Z) Z) k) with 0 in H4. unfold flush_pairs. cbn [fst]. lia.
Qed.
End count.

(** ** Numbering the accounts *)

Implicit Types (st : pydict bank_account Z * list bank_account).

(** The number of an account: where it is in the list. *)
Definition named (names : list bank_account) (z : Z) (k : bank_account) : Prop := 0 ≤ z ∧ names !! Z.to_nat z = Some k.
Definition numbered st : Prop := ∀ k z, dget st.1 k = Some z ↔ named st.2 z k.

Lemma named_inj st z1 z2 k : numbered st → named st.2 z1 k → named st.2 z2 k → z1 = z2.
Proof. intros Hst H1%Hst H2%Hst. congruence. Qed.
Lemma named_fun names z k1 k2 : named names z k1 → named names z k2 → k1 = k2.
Proof. intros [_ H1] [_ H2]. congruence. Qed.
Lemma named_prefix names names' z k : names `prefix_of` names' → named names z k → named names' z k.
Proof. intros [l ->] [Hz H]. split; [done|by apply lookup_app_l_Some]. Qed.

Lemma node_id_spec st k : numbered st → let '(z, st') := node_id st k in
  numbered st' ∧ st.2 `prefix_of` st'.2 ∧ named st'.2 z k.
Proof.
  intros Hst. unfold node_id. destruct st as [m names]. destruct (dget m k) as [i|] eqn:E.
  - split; [done|]. split; [done|]. by apply Hst.
  - cbn [fst snd]. split; [|split; [by apply prefix_app_r|]].
    + intros k' z. cbn [fst snd]. rewrite dget_dset. unfold named. destruct (decide (pyeq k k')) as [Hk|Hk].
      * assert (k = k') as <- by exact Hk. split.
        -- intros [= <-]. split; [lia|]. rewrite Nat2Z.id, lookup_app_r, Nat.sub_diag by done. done.
        -- intros [Hz Hl]. destruct (decide (Z.to_nat z < length names)%nat) as [Hlt|Hge].
           ++ rewrite lookup_app_l in Hl by done. assert (dget m k = Some z) by (by apply (Hst k z)). congruence.
           ++ apply lookup_lt_Some in Hl. rewrite length_app in Hl. cbn in Hl. f_equal. lia.
      * rewrite (Hst k' z). unfold named. cbn [fst snd]. split; intros [Hz Hl]; (split; [done|]).
        -- by apply lookup_app_l_Some.
        -- apply lookup_app_Some in Hl as [Hl|[Hge Hl]]; [done|]. destruct (Z.to_nat z - length names)%nat; [|done].
           cbn in Hl. injection Hl as ->. by destruct Hk.
    + split; [lia|]. rewrite Nat2Z.id, lookup_app_r, Nat.sub_diag by done. done.
Qed.

(** Every row becomes an edge between the numbers of its ends. *)
Definition edge_of (names : list bank_account) (e : Z * Z) (r : bank_account * bank_account) : Prop :=
  named names e.1 r.1 ∧ named names e.2 r.2.

Lemma number_edges_spec rows : ∀ st, numbered st → let '(es, st') := number_edges st rows in
  numbered st' ∧ st.2 `prefix_of` st'.2 ∧ Forall2 (edge_of st'.2) es rows.
Proof.
  induction rows as [|[u v] rows IH]; intros st Hst; [done|]. cbn [number_edges].
  pose proof (node_id_spec st u Hst) as Hu. destruct (node_id st u) as [a st1]. destruct Hu as (Hst1 & Hp1 & Ha).
  pose proof (node_id_spec st1 v Hst1) as Hv. destruct (node_id st1 v) as [b st2]. destruct Hv as (Hst2 & Hp2 & Hb).
  specialize (IH st2 Hst2). destruct (number_edges st2 rows) as [es st3]. destruct IH as (Hst3 & Hp3 & Hes).
  split; [done|]. split; [by etrans; [|etrans]|]. constructor; [|done]. split; cbn [fst snd].
  - apply (named_prefix st1.2); [by etrans|done].
  - by apply (named_prefix st2.2).
Qed.

Lemma number_empty : numbered ([], []).
Proof. intros k z. split; [done|]. intros [_ H%list_elem_of_lookup_2]. by apply not_elem_of_nil in H. Qed.

(** ** The adjacency maps *)

Definition any_id {A} (z : A) : Prop := True.
Lemma any_inj {A} `{EqDecision A} (a b : A) : any_id a → any_id b → @pyeq A (structural_key A) a b → a = b.
Proof. intros _ _ E. exact E. Qed.

Lemma adjacency_ok (edges : list (Z * Z)) : nd_ok any_id (adjacency edges).1 ∧ nd_ok any_id (adjacency edges).2 ∧
  ∀ a b, (nbrs (adjacency edges).1 a b ↔ (a, b) ∈ edges) ∧ (nbrs (adjacency edges).2 b a ↔ (a, b) ∈ edges).
Proof.
  assert (E : ∀ (es : list (Z * Z)) (sp : pydict Z (pyset Z) * pydict Z (pyset Z)),
    foldl (λ sp e, (dset sp.1 e.1 (sadd (dget_or [] sp.1 e.1) e.2), dset sp.2 e.2 (sadd (dget_or [] sp.2 e.2) e.1))) sp es
    = (foldl (λ d e, update_nbrs d e.1 e.2) sp.1 ((λ e, (e.1, [e.2])) <$> es),
       foldl (λ d e, update_nbrs d e.1 e.2) sp.2 ((λ e, (e.2, [e.1])) <$> es))).
  { induction es as [|e es IH]; intros [s p]; [done|]. cbn [foldl]. rewrite IH. done. }
  unfold adjacency. rewrite E. cbn [fst snd].
  assert (Hall : ∀ (L : list (Z * pyset Z)) n l, (n, l) ∈ L → any_id n ∧ Forall any_id l) by (intros; split; [done|by apply Forall_true]).
  destruct (nd_updates any_id any_inj ((λ e : Z * Z, (e.1, [e.2])) <$> edges) [] (nd_ok_nil any_id) (Hall _)) as [Hok1 [_ H1]].
  destruct (nd_updates any_id any_inj ((λ e : Z * Z, (e.2, [e.1])) <$> edges) [] (nd_ok_nil any_id) (Hall _)) as [Hok2 [_ H2]].
  split; [done|]. split; [done|]. intros a b. rewrite H1, H2. cbn [app]. unfold nbrs. setoid_rewrite list_elem_of_fmap. split; split.
  - intros (l & ([x y] & [= -> ->] & Hin) & ->%list_elem_of_singleton). done.
  - intros Hin. exists [b]. split; [by exists (a, b)|left].
  - intros (l & ([x y] & [= -> ->] & Hin) & ->%list_elem_of_singleton). done.
  - intros Hin. exists [a]. split; [by exists (a, b)|left].
Qed.

(** ** The accounts of the pairs *)

(** Five or more between [a] and [c], in a graph. *)
Definition gathered {A} (E : A → A → Prop) (a c : A) : Prop :=
  a ≠ c ∧ ∃ s, NoDup s ∧ 5 ≤ Z.of_nat (length s) ∧ ∀ m, m ∈ s → E a m ∧ E m c.
Definition edge_in {A} (edges : list (A * A)) (a c : A) : Prop := (a, c) ∈ edges.

(** A set of plain keys has no duplicates. *)
Lemma plain_set {A} `{EqDecision A} (s : list A) : NoDup ((@key_of A (structural_key A)) <$> s) ↔ NoDup s.
Proof. change ((@key_of A (structural_key A)) <$> s) with (id <$> s). by rewrite list_fmap_id. Qed.

(** The accounts between the two of a pair are the keys the loop stops at. *)
Lemma between_keys (edges : list (Z * Z)) a c : let L := (filter (λ bcs : Z * pyset Z,
    a ≠ c ∧ a ∈ dget_or [] (adjacency edges).2 bcs.1 ∧ c ∈ bcs.2) (adjacency edges).1).*1 in
  NoDup L ∧ ∀ b, b ∈ L ↔ a ≠ c ∧ (a, b) ∈ edges ∧ (b, c) ∈ edges.
Proof.
  cbv zeta. destruct (adjacency_ok edges) as (Hs & Hp & He). split.
  - destruct Hs as [Hs _]. apply (proj1 (plain_set _)) in Hs. eapply sublist_NoDup; [exact Hs|]. apply fmap_sublist, sublist_filter.
  - intros b. destruct (He a b) as [_ <-], (He b c) as [<- _]. rewrite (nd_nbrs any_id any_inj (adjacency edges).2 b a Hp I).
    unfold nbrs. rewrite list_elem_of_fmap. setoid_rewrite list_elem_of_filter. split.
    + intros ([b' cs] & -> & (Hac & Ha & Hc) & Hin). split; [done|]. split; [done|]. by exists cs.
    + intros (Hac & Ha & cs & Hin & Hc). by exists (b, cs).
Qed.

Lemma qualifying_spec PAIR_BATCH (edges : list (Z * Z)) k :
  k ∈ dkeys (dfilter (λ e, 5 <=? e.2) (flush_pairs (foldl (pairs_around PAIR_BATCH (adjacency edges).2) ([], []) (adjacency edges).1)).1)
    ↔ gathered (edge_in edges) k.1 k.2.
Proof.
  destruct (adjacency_ok edges) as (Hs & Hp & _). destruct (between_keys edges k.1 k.2) as [Hnd HL].
  destruct (pairs_counted PAIR_BATCH (adjacency edges).1 (adjacency edges).2 k) as [Hwf Hn].
  { intros b cs Hin. apply (proj1 (plain_set _)). by apply Hs in Hin as (_ & _ & ?). }
  { intros b. apply (proj1 (plain_set _)). exact (proj2 (nd_ok_get any_id _ b Hp)). }
  set (pc := (flush_pairs _).1) in *. set (L := filter _ (adjacency edges).1) in *.
  assert (Hq : k ∈ dkeys (dfilter (λ e, 5 <=? e.2) pc) ↔ 5 ≤ dget_or 0 pc k).
  { unfold dkeys, dfilter. rewrite list_elem_of_fmap. split.
    - intros ([k' n] & -> & [Hle Hin]%list_elem_of_filter). cbn [fst snd] in *. apply Z.leb_le in Hle.
      apply (elem_dget _ _ _ Hwf) in Hin. unfold dget_or. rewrite Hin. done.
    - unfold dget_or. destruct (dget pc k) as [n|] eqn:E; cbn [from_option default]; [|lia]. unfold id. intros Hle.
      apply dget_Some_elem in E as (k' & Hk & Hin). assert (k' = k) as -> by exact Hk.
      exists (k, n). split; [done|]. apply list_elem_of_filter. split; [by apply Z.leb_le|done]. }
  rewrite Hq, Hn. split.
  - intros Hle. split; [|exists L.*1; split; [done|]; split; [by rewrite length_fmap|]; intros m Hm%HL; tauto].
    destruct L as [|x l] eqn:El; [cbn in Hle; lia|]. apply (HL x.1). left.
  - intros (Hac & s & Hs' & Hle & Hm). assert (s ⊆+ L.*1) as Hsub%submseteq_length; [|rewrite length_fmap in Hsub; lia].
    apply NoDup_submseteq; [done|]. intros m Hin%Hm. apply HL. tauto.
Qed.

Lemma accounts_of_pairs_spec names l : ∀ accounts, NoDup accounts →
  (∀ ac, ac ∈ l → ∃ u v, names !! Z.to_nat ac.1 = Some u ∧ names !! Z.to_nat ac.2 = Some v) →
  ∃ accounts', accounts_of_pairs names accounts l = Ok accounts' ∧ NoDup accounts' ∧
    ∀ x, x ∈ accounts' ↔ x ∈ accounts ∨ ∃ ac, ac ∈ l ∧ (names !! Z.to_nat ac.1 = Some x ∨ names !! Z.to_nat ac.2 = Some x).
Proof.
  induction l as [|ac l IH]; intros accounts Hnd Hl.
  { exists accounts. split; [done|]. split; [done|]. intros x. split; [by left|]. by intros [?|(ac & ?%not_elem_of_nil & _)]. }
  destruct (Hl ac) as (u & v & Eu & Ev); [left|]. cbn [accounts_of_pairs]. unfold add_accounts. rewrite Eu, Ev. cbn [of_opt mbind res_bind].
  assert (Hadd : ∀ (s : pyset bank_account) y, NoDup s → NoDup (sadd s y) ∧ ∀ x, x ∈ sadd s y ↔ x ∈ s ∨ x = y).
  { intros s y Hs. apply (proj2 (plain_set _)) in Hs. split; [by apply (proj1 (plain_set _)), (sadd_wf s y)|]. intros x. rewrite <- list_elem_of_singleton.
    apply (elem_supdate any_id any_inj s [y]); by apply Forall_true. }
  destruct (Hadd accounts u Hnd) as [H1 H2], (Hadd (sadd accounts u) v H1) as [H3 H4].
  destruct (IH (sadd (sadd accounts u) v) H3) as (accounts' & E & Hnd' & Hin); [intros; apply Hl; by right|].
  exists accounts'. split; [done|]. split; [done|]. intros x. rewrite Hin, H4, H2. setoid_rewrite elem_of_cons. split.
  - intros [[[H|H]|H]|(ac' & H & Hx)]; [by left|right; exists ac; subst; by auto..|right; exists ac'; by auto].
  - intros [H|(ac' & [->|H] & Hx)]; [by auto| |right; by exists ac']. left. destruct Hx; [left; right|right]; congruence.
Qed.

Lemma gathered_between {A} (E : A → A → Prop) a c : gathered E a c → ∃ m, E a m ∧ E m c.
Proof. intros (_ & s & _ & Hlen & Hs). destruct s as [|m s]; [cbn in Hlen; lia|]. exists m. apply Hs. left. Qed.

(** Names for the nodes of a graph, each node of one name and each name of one node,
    that keep the edges. *)
Lemma gathered_along {A B} (R : A → B → Prop) (E : A → A → Prop) (F : B → B → Prop) a c u v :
  (∀ x y p, R x p → R y p → x = y) → (∀ x p q, R x p → R x q → p = q) →
  (∀ x y, E x y → ∃ p q, R x p ∧ R y q ∧ F p q) → R a u → R c v → gathered E a c → gathered F u v.
Proof.
  intros Hinj Hfun HE Ha Hc (Hne & s & Hnd & Hlen & Hs).
  assert (HF : ∀ x y p q, R x p → R y q → E x y → F p q).
  { intros x y p q Hx Hy (p' & q' & Hx' & Hy' & H)%HE. by rewrite (Hfun x p p' Hx Hx'), (Hfun y q q' Hy Hy'). }
  split; [intros ->; by destruct Hne; apply (Hinj a c v)|].
  assert (∃ s', Forall2 R s s') as [s' Hs'].
  { clear Hnd Hlen. induction s as [|m s IH]; [by exists []|]. destruct IH as [s' IH]; [intros; apply Hs; by right|].
    destruct (Hs m) as [Hm _]; [left|]. destruct (HE _ _ Hm) as (_ & q & _ & Hq & _). exists (q :: s'). by constructor. }
  exists s'. split; [|split; [by rewrite <- (Forall2_length _ _ _ Hs')|]].
  - clear Hlen Hs. induction Hs' as [|m q s s' Hm Hs' IH]; [constructor|]. apply NoDup_cons in Hnd as [Hin Hnd]. constructor; [|by apply IH].
    intros (i & Hi)%list_elem_of_lookup. destruct (Forall2_lookup_r _ _ _ _ _ Hs' Hi) as (m' & Hm' & Hq).
    apply Hin. rewrite (Hinj m m' q Hm Hq). by eapply list_elem_of_lookup_2.
  - intros q (i & Hi)%list_elem_of_lookup. destruct (Forall2_lookup_r _ _ _ _ _ Hs' Hi) as (m & Hm & Hq).
    destruct (Hs m) as [H1 H2]; [by eapply list_elem_of_lookup_2|]. by split; [apply (HF a m)|apply (HF m c)].
Qed.

(** What the numbered edges say of the rows they come from. *)
Lemma gathered_rows (st : pydict bank_account Z * list bank_account) (es : list (Z * Z)) (rows : list (bank_account * bank_account)) a c u v :
  numbered st → Forall2 (edge_of st.2) es rows → named st.2 a u → named st.2 c v →
  gathered (edge_in es) a c ↔ gathered (edge_in rows) u v.
Proof.
  intros Hst Hes Ha Hc.
  assert (Hinj : ∀ x y p, named st.2 x p → named st.2 y p → x = y) by (intros; by eapply named_inj).
  assert (Hfun : ∀ x p q, named st.2 x p → named st.2 x q → p = q) by (intros; by eapply named_fun).
  split.
  - apply (gathered_along (named st.2)); try done.
    intros x y (i & Hi)%list_elem_of_lookup. destruct (Forall2_lookup_l _ _ _ _ _ Hes Hi) as ([p q] & Hr & [H1 H2]).
    exists p, q. split; [done|]. split; [done|]. by eapply list_elem_of_lookup_2.
  - apply (gathered_along (λ p x, named st.2 x p)); eauto.
    intros p q (i & Hi)%list_elem_of_lookup. destruct (Forall2_lookup_r _ _ _ _ _ Hes Hi) as ([x y] & Hr & [H1 H2]).
    exists x, y. split; [done|]. split; [done|]. by eapply list_elem_of_lookup_2.
Qed.

(** ** The script's answer *)

Lemma pairs_to_accounts_spec PAIR_BATCH rows (st : pydict bank_account Z * list bank_account) (es : list (Z * Z)) :
  numbered st → Forall2 (edge_of st.2) es rows →
  ∃ accounts, uc4_pairs_to_accounts PAIR_BATCH (adjacency es).1 (adjacency es).2 st.2 = Ok accounts ∧ NoDup accounts ∧
    ∀ x, x ∈ accounts ↔ ∃ u v, gathered (edge_in rows) u v ∧ (x = u ∨ x = v).
Proof.
  intros Hst Hes. unfold uc4_pairs_to_accounts. cbv zeta. set (l := dkeys _).
  assert (Hl : ∀ ac, ac ∈ l ↔ gathered (edge_in es) ac.1 ac.2) by apply qualifying_spec.
  assert (Hname : ∀ a c, gathered (edge_in es) a c → ∃ u v, named st.2 a u ∧ named st.2 c v).
  { intros a c (m & H1 & H2)%gathered_between.
    apply list_elem_of_lookup in H1 as [i Hi], H2 as [j Hj].
    destruct (Forall2_lookup_l _ _ _ _ _ Hes Hi) as ([u ?] & _ & [Hu _]), (Forall2_lookup_l _ _ _ _ _ Hes Hj) as ([? v] & _ & [_ Hv]).
    by exists u, v. }
  destruct (accounts_of_pairs_spec st.2 l [] NoDup_nil_2) as (accounts & E & Hnd & Hin).
  { intros ac Hac%Hl. destruct (Hname _ _ Hac) as (u & v & [_ Hu] & [_ Hv]). by exists u, v. }
  exists accounts. split; [done|]. split; [done|]. intros x. rewrite Hin. split.
  - intros [?%not_elem_of_nil|([a c] & Hac%Hl & Hx)]; [done|]. cbn [fst snd] in *. destruct (Hname _ _ Hac) as (u & v & Hu & Hv).
    exists u, v. split; [by apply (gathered_rows st es rows a c)|].
    destruct Hu as [_ Hu], Hv as [_ Hv]. destruct Hx; [left|right]; congruence.
  - intros (u & v & Hg & Hx). right.
    assert (∃ a c, named st.2 a u ∧ named st.2 c v) as (a & c & Ha & Hc).
    { destruct (gathered_between _ _ _ Hg) as (m & H1 & H2).
      apply list_elem_of_lookup in H1 as [i Hi], H2 as [j Hj].
      destruct (Forall2_lookup_r _ _ _ _ _ Hes Hi) as ([a ?] & _ & [Ha _]), (Forall2_lookup_r _ _ _ _ _ Hes Hj) as ([? c] & _ & [_ Hc]).
      by exists a, c. }
    exists (a, c). split; [apply Hl; by apply (gathered_rows st es rows a c u v)|].
    destruct Ha as [_ Ha], Hc as [_ Hc]. destruct Hx as [->| ->]; [by left|by right].
Qed.

(** The rows the script keeps, whatever the chunks. *)
Lemma edge_chunks_concat chunks : List.concat (edge_chunks chunks) = edges_of_chunk (List.concat chunks).
Proof.
  unfold edge_chunks. induction chunks as [|chunk chunks IH]; [done|]. cbn [omap list_omap List.concat].
  assert (E : edges_of_chunk (chunk ++ List.concat chunks) = edges_of_chunk chunk ++ edges_of_chunk (List.concat chunks)).
  { unfold edges_of_chunk. by rewrite !filter_app, fmap_app. }
  rewrite E, <- IH. by destruct (edges_of_chunk chunk).
Qed.

Lemma streaming_spec PAIR_BATCH drop_duplicates chunks : (∀ l x, x ∈ drop_duplicates l ↔ x ∈ l) →
  ∃ accounts, uc4_streaming PAIR_BATCH drop_duplicates chunks = Ok accounts ∧ NoDup accounts ∧
    ∀ x, x ∈ accounts ↔ ∃ u v, gathered (edge_in (edges_of_chunk (List.concat chunks))) u v ∧ (x = u ∨ x = v).
Proof.
  intros Hdrop. unfold uc4_streaming. pose proof (edge_chunks_concat chunks) as Hc.
  destruct (edge_chunks chunks) as [|es0 es1] eqn:E.
  { exists []. split; [done|]. split; [constructor|]. intros x. split; [by intros ?%not_elem_of_nil|]. cbn in Hc. rewrite <- Hc.
    intros (u & v & (m & H & _)%gathered_between & _). by apply not_elem_of_nil in H. }
  rewrite Hc. pose proof (number_edges_spec (drop_duplicates (edges_of_chunk (List.concat chunks))) _ number_empty) as Hn.
  destruct (number_edges _ _) as [es [m names]]. destruct Hn as (Hst & _ & Hes).
  destruct (pairs_to_accounts_spec PAIR_BATCH _ (m, names) es Hst Hes) as (accounts & Ea & Hnd & Hx).
  exists accounts. destruct (adjacency es) as [succs preds]. split; [done|]. split; [done|]. intros x. rewrite Hx.
  unfold gathered, edge_in. by setoid_rewrite Hdrop.
Qed.
