(* ===== verification/OracleTables.v ===== *)
(** * The tables of the script: UC2 and UC3

    The rest of [src/scripts/gen_input_output.py]: the largest payment of each bank with
    its name, and the payments below a hundredth of the average of their format. What the
    script asks of pandas - the row of the largest amount of a group, the first row of
    each bank, an inner join, the groups of a column, the sum of a column - are
    arguments. *)

From S2P Require Import Prelude.
From S2P Require Import PyDict.
From S2P Require Import PyValues.
From S2P Require Import PyText.
From S2P Require Import PyTime.
From S2P Require Import PyFloat.
From S2P Require Import GroupBy.
From S2P Require Import Oracle.

(** The columns of [accounts_df] the answer depends on. *)
Record AccountRow := mkARow { a_bank_id : Z; a_bank_name : string }.

Definition usd_row (r : Row) : bool := bool_decide (r_payment_currency r = "US Dollar"%string).

(** ** [_uc2_streaming] *)

Section uc2.
(** [usd.loc[usd.groupby("From Bank")["Amount Paid"].idxmax().values]] *)
Context (rows_of_maxima : list Row → list Row).
(** [accounts_df.drop_duplicates("Bank ID")] *)
Context (drop_duplicate_banks : list AccountRow → list AccountRow).
(** [result_df.merge(bank_names, left_on="From Bank", right_on="Bank ID")] *)
Context (merge_on_bank : list (Z * string * float) → list AccountRow → list ((Z * string * float) * AccountRow)).

(** [if bank not in best or amt > best[bank]["Amount Paid"]] *)
Definition best_row (best : pydict Z (string * float)) (row : Row) : pydict Z (string * float) :=
  let take := dset best (r_from_bank row) (r_account row, r_amount_paid row) in
  match dget best (r_from_bank row) with
  | Some current => if flt current.2 (r_amount_paid row) then take else best
  | None => take
  end.

Definition uc2_chunk (best : pydict Z (string * float)) (chunk : list Row) : pydict Z (string * float) :=
  match filter (λ r, usd_row r = true) chunk with
  | [] => best
  | usd => foldl best_row best (rows_of_maxima usd)
  end.

Definition uc2_streaming (accounts_df : list AccountRow) (chunks : list (list Row)) : list (Z * string * string * float) :=
  let best := foldl uc2_chunk [] chunks in
  match best with
  | [] => []
  | _ =>
      let result_df := (λ e, (e.1, e.2.1, e.2.2)) <$> best in
      let merged := merge_on_bank result_df (drop_duplicate_banks accounts_df) in
      (λ m, let '((from_bank, account, paid), a) := m in (from_bank, account, a_bank_name a, paid)) <$> merged
  end.
End uc2.

(** ** [_uc3_pass1], [_uc3_pass2] *)

(** [period_a] is [in_period], as in UC4. *)
Definition uc3_period_b (r : Row) : bool :=
  str_leb "2022/09/06" (r_timestamp r) && str_ltb (r_timestamp r) "2022/09/16".

Definition uc3_columns (r : Row) : Z * string * string * float :=
  (r_from_bank r, r_account r, r_payment_format r, r_amount_paid r).

Section uc3.
(** [period_a.groupby("Payment Format")] *)
Context (groupby_format : list Row → list (string * list Row)).
(** [float(grp["Amount Paid"].sum())] *)
Context (column_sum : list float → float).

Abbreviation totals := (pydict string float * pydict string Z)%type.

Definition add_group (st : totals) (g : string * list Row) : totals :=
  let '(total, count) := st in let '(k, grp) := g in
  (dset total k (fadd (dget_or (f_of_Z 0) total k) (column_sum (r_amount_paid <$> grp))),
   dset count k (dget_or 0 count k + Z.of_nat (length grp))).

Definition uc3_chunk_a (st : totals) (chunk : list Row) : totals :=
  match filter (λ r, in_period r = true) (filter (λ r, usd_row r = true) chunk) with
  | [] => st
  | period_a => foldl add_group st (groupby_format period_a)
  end.

Definition uc3_pass1 (chunks : list (list Row)) : res (pydict string float) :=
  let '(total, count) := foldl uc3_chunk_a ([], []) chunks in
  averages ← mapR (λ e, n ← of_opt KeyError (dget count e.1); avg ← py_fdiv e.2 (f_of_Z n); Ok (e.1, avg)) total;
  Ok (dict_of averages).

(** The column [_avg] is not a number where the format has no average. *)
Definition uc3_matches (avg_per_fmt : pydict string float) (r : Row) : bool :=
  match dget avg_per_fmt (r_payment_format r) with
  | Some avg => negb (is_nan avg) && flt (r_amount_paid r) (fmul avg (f_of_dec 1 (-2)))
  | None => false
  end.

Definition uc3_chunk_b (avg_per_fmt : pydict string float) (s : CsvSink (Z * string * string * float)) (chunk : list Row) :=
  match filter (λ r, uc3_period_b r = true) (filter (λ r, usd_row r = true) chunk) with
  | [] => s
  | period_b => sink_write s (uc3_columns <$> filter (λ r, uc3_matches avg_per_fmt r = true) period_b)
  end.

Definition uc3_pass2 (avg_per_fmt : pydict string float) (file : list (Z * (Z * string * string * float))) (chunks : list (list Row)) :=
  sink_close (foldl (uc3_chunk_b avg_per_fmt) (sink_init file) chunks).

(** Both passes, as [gen_results_streaming] makes them. *)
Definition uc3_streaming (file : list (Z * (Z * string * string * float))) (chunks : list (list Row)) :=
  avg_per_fmt ← uc3_pass1 chunks; Ok (uc3_pass2 avg_per_fmt file chunks).
End uc3.
