(* ===== verification/Sampled.v ===== *)
(** * The two modes of the script

    The rest of [src/scripts/gen_input_output.py]: with more than one client each gets a
    random sample of the rows ([_chunked_sample]) and its answers are computed from the
    whole table in memory ([gen_results]); with one the answers are computed chunk by
    chunk ([gen_results_streaming]). A table is the list of its rows: the column of
    indices that [to_csv] writes is left out. Here are the definitions and what the
    sample is. *)

From S2P Require Import Prelude.
From S2P Require Import PyDict.
From S2P Require Import PyValues.
From S2P Require Import PyText.
From S2P Require Import PyTime.
From S2P Require Import PyFloat.
From S2P Require Import Wire.
From S2P Require Import GroupBy.
From S2P Require Import Oracle.
From S2P Require Import OracleTables.

(** ** [_chunked_sample] *)

(** [[i - global_row for i in range(global_row, global_row + chunk_len) if i in chosen]] *)
Definition local_indices (chosen : pyset Z) (global_row chunk_len : Z) : list Z :=
  (λ i, i - global_row) <$> filter (λ i, smem i chosen = true) (seqZ global_row chunk_len).

(** [chunk.iloc[indices]], of indices that are not negative. *)
Definition iloc {A} (chunk : list A) (indices : list Z) : res (list A) :=
  mapR (λ i, of_opt IndexError (chunk !! Z.to_nat i)) indices.

Definition sample_chunk {A} (chosen : pyset Z) (st : list (list A) * Z) (chunk : list A) : res (list (list A) * Z) :=
  let '(chunks, global_row) := st in
  let chunk_len := Z.of_nat (length chunk) in
  chunks ← match local_indices chosen global_row chunk_len with
           | [] => Ok chunks
           | indices => rows ← iloc chunk indices; Ok (chunks ++ [rows])
           end;
  Ok (chunks, global_row + chunk_len).

(** [pd.concat(chunks) if chunks else pd.DataFrame()]: a table without columns is [None]. *)
Definition concat_frames {A} (chunks : list (list A)) : option (list A) :=
  match chunks with [] => None | _ => Some (List.concat chunks) end.

Section sampling.
(** [rng.choice(n_total, size=n, replace=False)] *)
Context (choice : Z → Z → list Z).
Context {A : Type}.

(** [lines] is the number of lines of the file, with its header. *)
Definition chunked_sample (lines : Z) (chunks : list (list A)) (n : Z) (n_total : option Z) : res (option (list A)) :=
  let n_total := default (lines - 1) n_total in
  if n_total <=? n then Ok (concat_frames chunks)
  else
    let chosen := set_of (choice n_total n) in
    st ← foldR (sample_chunk chosen) ([], 0) chunks; Ok (concat_frames st.1).

Definition gen_sampled_dataframe (lines : Z) (chunks : list (list A)) (sample_size n_total : option Z) : res (option (list A)) :=
  match sample_size with
  | None => Ok (Some (List.concat chunks))
  | Some n => chunked_sample lines chunks n n_total
  end.
End sampling.

(** [max(1, int(n_total * TRANSACTIONS_SAMPLE_FRAC))] *)
Definition per_client_size (n_total : Z) (frac : float) : res Z :=
  k ← f_trunc (fmul (f_of_Z n_total) frac); Ok (Z.max 1 k).

(** ** The answers *)

Record Expected := mkExpected {
  ex_uc1 : list (Z * string * Z * string * float);
  ex_uc2 : list (Z * string * string * float);
  ex_uc3 : list (Z * string * string * float);
  ex_uc4 : pyset bank_account;
  ex_uc5 : Z
}.

Definition gen_uc1_results (trans_df : list Row) : list (Z * string * Z * string * float) :=
  let trans_usd_df := filter (λ r, usd_row r = true) trans_df in
  uc1_columns <$> filter (λ r, flt (r_amount_paid r) (f_of_Z 50) = true) trans_usd_df.

Section results.
Context (rows_of_maxima : list Row → list Row) (drop_duplicate_banks : list AccountRow → list AccountRow).
(** [merge(bank_names, left_on="From Bank", right_on="Bank ID")] *)
Context (merge_names : list Row → list AccountRow → list (Row * AccountRow)).
(** [groupby(["Payment Format"])["Amount Paid"].mean()] *)
Context (mean_by_format : list Row → list (string * float)).
(** [merge(avg_amounts_per_type, left_on=["Payment Format"], right_on=["Payment Format"])] *)
Context (merge_means : list Row → list (string * float) → list (Row * (string * float))).
Context (PAIR_BATCH : Z) (drop_duplicates : list (bank_account * bank_account) → list (bank_account * bank_account)).
Context (api_get_rates : date → res (pydict string float)).

Definition gen_uc2_results (trans_df : list Row) (accounts_df : list AccountRow) : list (Z * string * string * float) :=
  let trans_usd_df := filter (λ r, usd_row r = true) trans_df in
  let max_amount_bank := merge_names (rows_of_maxima trans_usd_df) (drop_duplicate_banks accounts_df) in
  (λ m, (r_from_bank m.1, r_account m.1, a_bank_name m.2, r_amount_paid m.1)) <$> max_amount_bank.

Definition gen_uc3_results (trans_df : list Row) : list (Z * string * string * float) :=
  let trans_usd_df := filter (λ r, usd_row r = true) trans_df in
  let avg_amounts_per_type := mean_by_format (filter (λ r, in_period r = true) trans_usd_df) in
  let with_avg := merge_means (filter (λ r, uc3_period_b r = true) trans_usd_df) avg_amounts_per_type in
  (λ m, uc3_columns m.1) <$> filter (λ m : Row * (string * float), flt (r_amount_paid m.1) (fmul m.2.2 (f_of_dec 1 (-2))) = true) with_avg.

Definition gen_uc4_results (trans_df : list Row) : res (pyset bank_account) :=
  let '(edges, (_, id_to_node)) := number_edges ([], []) (drop_duplicates (edges_of_chunk trans_df)) in
  let '(succs_of, preds_of) := adjacency edges in
  uc4_pairs_to_accounts PAIR_BATCH succs_of preds_of id_to_node.

Definition gen_uc5_results (rate_cache : pydict date (pydict string float)) (trans_df : list Row) : res Z :=
  let rows := filter (λ r, wire_ach r = true) (filter (λ r, uc5_period r = true) trans_df) in
  '(_, l) ← usd_amounts api_get_rates rate_cache rows;
  Ok (Z.of_nat (length (filter (λ x, flt x (f_of_Z 1) = true) l))).

(** The columns a table without any does not have. *)
Definition gen_results (rate_cache : pydict date (pydict string float)) (trans_df : option (list Row)) (accounts_df : list AccountRow) : res Expected :=
  df ← of_opt KeyError trans_df;
  uc4 ← gen_uc4_results df; uc5 ← gen_uc5_results rate_cache df;
  Ok (mkExpected (gen_uc1_results df) (gen_uc2_results df accounts_df) (gen_uc3_results df) uc4 uc5).

(** [merge_on_bank], [groupby_format], [column_sum]: what the other mode asks of pandas. *)
Context (merge_on_bank : list (Z * string * float) → list AccountRow → list ((Z * string * float) * AccountRow)).
Context (groupby_format : list Row → list (string * list Row)) (column_sum : list float → float).

Definition gen_results_streaming (rate_cache : pydict date (pydict string float)) (chunks : list (list Row)) (accounts_df : list AccountRow) : res Expected :=
  let uc1 := (uc1_streaming [] chunks).2 in
  let uc2 := uc2_streaming rows_of_maxima drop_duplicate_banks merge_on_bank accounts_df chunks in
  uc3 ← uc3_streaming groupby_format column_sum [] chunks;
  uc4 ← uc4_streaming PAIR_BATCH drop_duplicates chunks;
  uc5 ← uc5_streaming api_get_rates rate_cache chunks;
  Ok (mkExpected uc1.*2 uc2 uc3.2.*2 uc4 uc5).
End results.

(** ** What a sample is *)

(** The rows at the positions a test picks, from position [i] on. *)
Fixpoint picked {A} (P : Z → bool) (i : Z) (l : list A) : list A :=
  match l with [] => [] | x :: l => (if P i then [x] else []) ++ picked P (i + 1) l end.

Lemma picked_app {A} P i (l1 l2 : list A) : picked P i (l1 ++ l2) = picked P i l1 ++ picked P (i + Z.of_nat (length l1)) l2.
Proof.
  revert i. induction l1 as [|x l1 IH]; intros i; cbn [app picked length]; [by rewrite Z.add_0_r|]. rewrite IH, app_assoc.
  by replace (i + 1 + Z.of_nat (length l1)) with (i + Z.of_nat (S (length l1))) by lia.
Qed.

Lemma picked_sublist {A} P i (l : list A) : picked P i l `sublist_of` l.
Proof. revert i. induction l as [|x l IH]; intros i; [constructor|]. cbn [picked]. destruct (P i); cbn [app]; [apply sublist_skip|apply sublist_cons]; apply IH. Qed.

Lemma picked_length {A} P i (l : list A) : length (picked P i l) = length (filter (λ k, P k = true) (seqZ i (Z.of_nat (length l)))).
Proof.
  revert i. induction l as [|x l IH]; intros i; [done|]. cbn [picked length]. rewrite length_app, IH.
  rewrite (seqZ_cons i) by lia. rewrite filter_cons. replace (Z.pred (Z.of_nat (S (length l)))) with (Z.of_nat (length l)) by lia.
  rewrite <- Z.add_1_r. by destruct (P i), (decide _).
Qed.

Lemma iloc_picked {A} (chosen : pyset Z) g (l : list A) : ∀ pre,
  mapR (λ i, of_opt IndexError ((pre ++ l) !! Z.to_nat i))
    ((λ i, i - g) <$> filter (λ i, smem i chosen = true) (seqZ (g + Z.of_nat (length pre)) (Z.of_nat (length l)))) =
  Ok (picked (λ i, smem i chosen) (g + Z.of_nat (length pre)) l).
Proof.
  induction l as [|x l IH]; intros pre; [done|]. cbn [length]. rewrite seqZ_cons by lia. rewrite filter_cons.
  specialize (IH (pre ++ [x])). rewrite <- app_assoc, length_app in IH. cbn [app length] in IH.
  replace (g + Z.of_nat (length pre + 1)) with (Z.succ (g + Z.of_nat (length pre))) in IH by lia.
  replace (Z.pred (Z.of_nat (S (length l)))) with (Z.of_nat (length l)) by lia. cbn [picked]. rewrite Z.add_1_r.
  destruct (decide _) as [E|E]; [|destruct (smem _ chosen); [done|exact IH]]. rewrite E, fmap_cons. cbn [mapR app].
  replace (Z.to_nat (g + Z.of_nat (length pre) - g)) with (length pre) by lia. rewrite list_lookup_middle by done. cbn [of_opt mbind res_bind].
  by rewrite IH.
Qed.

Lemma chunk_indices {A} (chosen : pyset Z) g (chunk : list A) : iloc chunk (local_indices chosen g (Z.of_nat (length chunk))) = Ok (picked (λ i, smem i chosen) g chunk).
Proof. pose proof (iloc_picked chosen g chunk []) as E. cbn [app length] in E. rewrite Z.add_0_r in E. exact E. Qed.

Lemma sample_chunk_spec {A} (chosen : pyset Z) acc g (chunk : list A) :
  sample_chunk chosen (acc, g) chunk =
    Ok (match picked (λ i, smem i chosen) g chunk with [] => acc | rows => acc ++ [rows] end, g + Z.of_nat (length chunk)).
Proof.
  unfold sample_chunk. pose proof (chunk_indices chosen g chunk) as E.
  destruct (local_indices chosen g (Z.of_nat (length chunk))) as [|i l] eqn:El; [by injection E as <-|].
  pose proof (mapR_length _ _ _ E) as Hlen. rewrite E. cbn [mbind res_bind]. by destruct (picked _ g chunk).
Qed.

Lemma sample_chunks {A} (chosen : pyset Z) (chunks : list (list A)) : ∀ acc g, ∃ acc' g',
  foldR (sample_chunk chosen) (acc, g) chunks = Ok (acc', g') ∧
  List.concat acc' = List.concat acc ++ picked (λ i, smem i chosen) g (List.concat chunks) ∧
  (acc' = [] → picked (λ i, smem i chosen) g (List.concat chunks) = []).
Proof.
  induction chunks as [|chunk chunks IH]; intros acc g; cbn [foldR List.concat].
  - exists acc, g. cbn [picked]. by rewrite app_nil_r.
  - rewrite sample_chunk_spec, picked_app. cbn [mbind res_bind]. destruct (picked (λ i, smem i chosen) g chunk) as [|r rows] eqn:Ep; [apply IH|].
    destruct (IH (acc ++ [r :: rows]) (g + Z.of_nat (length chunk))) as (acc' & g' & E & Hc & Hn). exists acc', g'. split; [done|].
    rewrite Hc, concat_app. cbn [List.concat]. rewrite app_nil_r, <- app_assoc. split; [done|]. intros ->. rewrite concat_app in Hc. cbn in Hc.
    by destruct (List.concat acc).
Qed.

(** A sample of positions, each in the file and each once. *)
Definition draws (choice : Z → Z → list Z) : Prop :=
  ∀ total n, 0 ≤ n ≤ total → NoDup (choice total n) ∧ length (choice total n) = Z.to_nat n ∧ ∀ i, i ∈ choice total n → 0 ≤ i < total.

Lemma chosen_count choice total n : draws choice → 0 ≤ n ≤ total →
  length (filter (λ k, smem k (set_of (choice total n)) = true) (seqZ 0 total)) = Z.to_nat n.
Proof.
  intros Hd Hn. destruct (Hd total n Hn) as (Hnd & <- & Hin). apply Permutation_length, NoDup_Permutation; [apply NoDup_filter, NoDup_seqZ|done|].
  assert (Hs : ∀ k, smem k (set_of (choice total n)) = true ↔ k ∈ choice total n).
  { intros k. rewrite smem_set_of, smem_spec. change (key_of <$> choice total n) with (id <$> choice total n). by rewrite list_fmap_id. }
  intros k. rewrite list_elem_of_filter, elem_of_seqZ, Hs. split; [by intros [? _]|]. intros Hk. split; [done|]. apply Hin in Hk. lia.
Qed.

Lemma chunked_sample_spec {A} choice lines (chunks : list (list A)) n (total := Z.of_nat (length (List.concat chunks))) (n_total : option Z) :
  draws choice → default (lines - 1) n_total = total → 0 < n < total →
  chunked_sample choice lines chunks n n_total = Ok (Some (picked (λ i, smem i (set_of (choice total n))) 0 (List.concat chunks))) ∧
  length (picked (λ i, smem i (set_of (choice total n))) 0 (List.concat chunks)) = Z.to_nat n.
Proof.
  intros Hd Et Hn. assert (Hlen : length (picked (λ i, smem i (set_of (choice total n))) 0 (List.concat chunks)) = Z.to_nat n).
  { rewrite picked_length. apply chosen_count; [done|lia]. }
  split; [|done]. unfold chunked_sample. rewrite Et, (proj2 (Z.leb_gt _ _)) by lia.
  destruct (sample_chunks (set_of (choice total n)) chunks [] 0) as (acc & g & -> & Hc & Hnil). cbn [mbind res_bind fst]. cbn [List.concat app] in Hc.
  rewrite <- Hc. unfold concat_frames. destruct acc; [|done]. specialize (Hnil eq_refl). rewrite Hnil in Hlen. cbn [length] in Hlen. lia.
Qed.
