(* ===== verification/OracleLines.v ===== *)
(** * The lines of a file of transactions

    A line as the client parses it and as the script reads it: the same bank ids,
    accounts and amounts; and what the script's comparisons of dates as texts mean for
    the dates. *)

From S2P Require Import Prelude.
From S2P Require Import PyDict.
From S2P Require Import PyValues.
From S2P Require Import PyText.
From S2P Require Import PyTime.
From S2P Require Import PyFloat.
From S2P Require Import Wire.
From S2P Require Import Messages.
From S2P Require Import Filters.
From S2P Require Import MergeFns.
From S2P Require Import Client.
From S2P Require Import Oracle.
From S2P Require Import OracleTables.

(** ** The period, compared as text *)

(** How a file writes a date and time: [2022/09/01 00:08]. *)
Definition slash_date (d : datetime) : string :=
  str_of (pad0 4 (year d) ++ chr 47 :: pad0 2 (month d) ++ chr 47 :: pad0 2 (day d)
    ++ chr 32 :: pad0 2 (hour d) ++ chr 58 :: pad0 2 (minute d)).

Lemma chars_lt_app (a b x y : chars) : length a = length b →
  chars_lt (a ++ x) (b ++ y) = chars_lt a b || (bool_decide (a = b) && chars_lt x y).
Proof.
  revert b. induction a as [|c a IH]; intros [|c' b] Hlen; try done. cbn [chars_lt app].
  rewrite IH by (cbn in Hlen; lia).
  destruct (decide (c = c')) as [->|Hc].
  - rewrite Nat.ltb_irrefl, Nat.eqb_refl. cbn [orb andb].
    by rewrite (bool_decide_ext (c' :: a = c' :: b) (a = b)) by (split; congruence).
  - assert ((Ascii.nat_of_ascii c =? Ascii.nat_of_ascii c')%nat = false) as ->.
    { apply Nat.eqb_neq. intros E. apply Hc. rewrite <- (Ascii.ascii_nat_embedding c), <- (Ascii.ascii_nat_embedding c'). by rewrite E. }
    rewrite (bool_decide_eq_false_2 (c :: a = c' :: b)) by congruence. cbn. by rewrite !orb_false_r.
Qed.

(** Padded numbers compare as numbers. *)
Definition pad_cmp (n : nat) (k z : Z) : bool :=
  eqb (chars_lt (pad0 n z) (pad0 n k)) (z <? k) && eqb (chars_lt (pad0 n k) (pad0 n z)) (k <? z)
  && eqb (bool_decide (pad0 n z = pad0 n k)) (z =? k).

Lemma pad_cmp_spec n lim k z : forallb (pad_cmp n k) (seqZ 0 lim) = true → 0 ≤ z < lim →
  chars_lt (pad0 n z) (pad0 n k) = (z <? k) ∧ chars_lt (pad0 n k) (pad0 n z) = (k <? z) ∧
  bool_decide (pad0 n z = pad0 n k) = (z =? k) ∧ bool_decide (pad0 n k = pad0 n z) = (z =? k).
Proof.
  intros H Hz. rewrite forallb_forall in H. specialize (H z). rewrite <- list_elem_of_In, elem_of_seqZ in H.
  specialize (H ltac:(lia)). unfold pad_cmp in H. rewrite !andb_true_iff, !eqb_true_iff in H.
  destruct H as [[H1 H2] H3]. split_and!; [done..|]. rewrite <- H3. by apply bool_decide_ext.
Qed.

Lemma pads : forallb (pad_cmp 4 2022) (seqZ 0 10000) = true ∧
  forallb (pad_cmp 2 9) (seqZ 0 100) = true ∧ forallb (pad_cmp 2 1) (seqZ 0 100) = true ∧ forallb (pad_cmp 2 6) (seqZ 0 100) = true ∧
  forallb (pad_cmp 2 16) (seqZ 0 100) = true.
Proof. by vm_compute. Qed.

(** A day written with slashes, then what follows it. *)
Definition day_text (y m d : Z) (rest : chars) : chars := pad0 4 y ++ chr 47 :: pad0 2 m ++ chr 47 :: pad0 2 d ++ rest.

#[local] Opaque pad0 int_str.

Lemma length_pad n lim z : forallb (pad_ok n) (seqZ 0 lim) = true → 0 ≤ z < lim → length (pad0 n z) = n.
Proof. intros H Hz. by apply (pad0_spec n lim z). Qed.

Lemma same_day y m d k : bool_decide ([y; m; d] = [2022; 9; k]) = (y =? 2022) && (m =? 9) && (d =? k).
Proof.
  apply eq_true_iff_eq. rewrite bool_decide_eq_true, !andb_true_iff, !Z.eqb_eq.
  split; [by intros [= -> -> ->]|by intros [[-> ->] ->]].
Qed.

Lemma day_text_lt y m d k rest rest' : 0 ≤ y < 10000 → 0 ≤ m < 100 → 0 ≤ d < 100 → k = 1 ∨ k = 6 ∨ k = 16 →
  chars_lt (day_text y m d rest) (day_text 2022 9 k rest') = lex_lt [y; m; d] [2022; 9; k] || bool_decide ([y; m; d] = [2022; 9; k]) && chars_lt rest rest' ∧
  chars_lt (day_text 2022 9 k rest') (day_text y m d rest) = lex_lt [2022; 9; k] [y; m; d] || bool_decide ([y; m; d] = [2022; 9; k]) && chars_lt rest' rest.
Proof.
  intros Hy Hm Hd Hk. pose proof (same_day y m d k) as E. destruct pads as (P1 & P2 & P3 & P4 & P5).
  destruct (pad_cmp_spec 4 10000 2022 y P1 Hy) as (Y1 & Y2 & Y3 & Y4), (pad_cmp_spec 2 100 9 m P2 Hm) as (M1 & M2 & M3 & M4).
  assert (∃ P : forallb (pad_cmp 2 k) (seqZ 0 100) = true, True) as [P _] by (destruct Hk as [-> |[-> | ->]]; by eexists).
  destruct (pad_cmp_spec 2 100 k d P Hd) as (D1 & D2 & D3 & D4). clear P P1 P2 P3 P4 P5.
  assert (length (pad0 4 y) = length (pad0 4 2022)) as Ly by (rewrite !(length_pad 4 10000) by first [exact pad_ok_4|lia]; done).
  assert (length (pad0 2 m) = length (pad0 2 9)) as Lm by (rewrite !(length_pad 2 100) by first [exact pad_ok_2|lia]; done).
  assert (length (pad0 2 d) = length (pad0 2 k)) as Ld by (rewrite !(length_pad 2 100) by first [exact pad_ok_2|lia]; done).
  assert (S : ∀ a b, chars_lt (chr 47 :: a) (chr 47 :: b) = chars_lt a b) by done.
  unfold day_text. rewrite !chars_lt_app, !S, !chars_lt_app, !S, !chars_lt_app by done.
  rewrite Y1, Y2, Y3, Y4, M1, M2, M3, M4, D1, D2, D3, D4, E. cbn [lex_lt].
  clear. split; [destruct (chars_lt rest rest')|destruct (chars_lt rest' rest)]; rewrite ?andb_true_r, ?andb_false_r, ?orb_false_r; lia.
Qed.

Lemma period_day d (v := slash_date d) : valid_datetime d = true →
  (str_ltb v "2022/09/01" = false ↔ lex_lt (date_fields d) [2022; 9; 1] = false) ∧
  (str_ltb "2022/09/06" v = false ↔ str_ltb v "2022/09/06" = true) ∧
  (str_ltb v "2022/09/06" = true ↔ lex_lt (date_fields d) [2022; 9; 6] = true).
Proof.
  intros Hv. destruct (valid_datetime_bounds d Hv) as (Hy & Hm & Hd & _). subst v.
  unfold str_ltb, slash_date, date_fields. rewrite chars_of_str.
  set (rest := chr 32 :: _). fold (day_text (year d) (month d) (day d) rest).
  change (chars_of "2022/09/01") with (day_text 2022 9 1 []). change (chars_of "2022/09/06") with (day_text 2022 9 6 []).
  destruct (day_text_lt (year d) (month d) (day d) 1 rest []) as [-> _]; [lia..|by left|].
  destruct (day_text_lt (year d) (month d) (day d) 6 rest []) as [-> ->]; [lia..|by right; left|].
  rewrite !same_day. unfold rest. cbn [chars_lt lex_lt]. lia.
Qed.

(** Both ways the script bounds the period select the first five days of September. *)
Lemma in_period_exact r d : r_timestamp r = slash_date d → valid_datetime d = true →
  (in_period r = true ↔ year d = 2022 ∧ month d = 9 ∧ 1 ≤ day d ≤ 5) ∧ uc5_period r = in_period r.
Proof.
  intros Hr Hv. destruct (period_day d Hv) as (H1 & H2 & H3). unfold in_period, uc5_period, str_leb. rewrite Hr.
  assert (E : str_ltb (slash_date d) "2022/09/06" = negb (str_ltb "2022/09/06" (slash_date d))).
  { destruct (str_ltb "2022/09/06" _), (str_ltb _ "2022/09/06"); naive_solver. }
  split; [|by rewrite E]. rewrite <- E, andb_true_iff, negb_true_iff, H1, H3. unfold date_fields. cbn [lex_lt]. lia.
Qed.

(** The second period of UC3 is the ten days after. *)
Lemma period_b_exact r d : r_timestamp r = slash_date d → valid_datetime d = true →
  uc3_period_b r = true ↔ year d = 2022 ∧ month d = 9 ∧ 6 ≤ day d ≤ 15.
Proof.
  intros Hr Hv. destruct (valid_datetime_bounds d Hv) as (Hy & Hm & Hd & _). unfold uc3_period_b, str_leb. rewrite Hr.
  unfold str_ltb, slash_date. rewrite chars_of_str. set (rest := chr 32 :: _). fold (day_text (year d) (month d) (day d) rest).
  change (chars_of "2022/09/06") with (day_text 2022 9 6 []). change (chars_of "2022/09/16") with (day_text 2022 9 16 []).
  destruct (day_text_lt (year d) (month d) (day d) 6 rest []) as [-> _]; [lia..|by right; left|].
  destruct (day_text_lt (year d) (month d) (day d) 16 rest []) as [-> _]; [lia..|by right; right|].
  rewrite !same_day. unfold rest. cbn [chars_lt lex_lt]. lia.
Qed.

Lemma fast_datetime_slash d : valid_datetime d = true → second d = 0 → fast_datetime (slash_date d) = Ok d.
Proof.
  intros Hv Hs. pose proof (valid_datetime_bounds d Hv) as (Hy & Hm & Hd & Hh & Hmi & _).
  unfold fast_datetime, slash_date, str_slice, slice. rewrite !chars_of_str.
  destruct (pad4_spec (year d)) as (y1 & y2 & y3 & y4 & -> & Ey); [lia|].
  destruct (pad2_spec (month d)) as (m1 & m2 & -> & Em); [lia|].
  destruct (pad2_spec (day d)) as (d1 & d2 & -> & Ed); [lia|].
  destruct (pad2_spec (hour d)) as (h1 & h2 & -> & Eh); [lia|].
  destruct (pad2_spec (minute d)) as (i1 & i2 & -> & Ei); [lia|].
  cbn -[str_of]. rewrite Ey, Em, Ed, Eh, Ei. cbn. unfold datetime_new.
  destruct d. cbn in *. subst. by rewrite Hv.
Qed.

(** ** The lines of a file *)

(** What [read_csv] gives for a line: the text of the columns, the bank ids as
    integers, the amount as the float its text reads as. *)
Inductive line_row (line : chars) (r : Row) : Prop :=
  | line_read d from to received receiving paid flag :
      str_split c_comma (str_of (rstrip_nl line)) =
        [slash_date d; from; r_account r; to; r_account_1 r; received; receiving; paid; r_payment_currency r; r_payment_format r; flag] →
      valid_datetime d = true → second d = 0 → r_timestamp r = slash_date d →
      int_str from = Ok (r_from_bank r) → int_str to = Ok (r_to_bank r) →
      float_str paid = Ok (r_amount_paid r) → line_row line r.

(** The transaction of a line has what the row of the line has. *)
Record same_transfer (r : Row) (t : Transaction) : Prop := {
  st_wf : tx_wf t;
  st_date : ∃ d, timestamp t = TsDate d ∧ valid_datetime d = true ∧ r_timestamp r = slash_date d;
  st_from : from_bank t = str_int (r_from_bank r) ∧ from_account t = r_account r;
  st_to : to_bank t = str_int (r_to_bank r) ∧ to_account t = r_account_1 r;
  st_amount : amount_paid t = r_amount_paid r;
  st_currency : payment_currency t = r_payment_currency r;
  st_format : payment_format t = r_payment_format r
}.

Lemma parsed_transfer line r t : line_row line r → parse_transaction line = Ok t → same_transfer r t.
Proof.
  intros [d fb tb ar rc ap il Hs Hv Hsec Ht Hfb Htb Hap]. unfold parse_transaction. rewrite Hs.
  rewrite fast_datetime_slash by done. cbn [mbind res_bind]. rewrite Hfb, Htb. cbn [mbind res_bind].
  destruct (float_str ar) as [x|]; [|done]. rewrite Hap. cbn [mbind res_bind]. intros [= <-].
  split; cbn; try done. by exists d.
Qed.

Lemma parsed_transfers lines rows ts :
  Forall2 line_row lines rows → Forall2 (λ line t, parse_transaction line = Ok t) lines ts → Forall2 same_transfer rows ts.
Proof.
  intros H. revert ts. induction H as [|line r lines rows Hr _ IH]; intros ts Hts; inversion_clear Hts; constructor; [|by apply IH].
  by eapply parsed_transfer.
Qed.

(** The days of UC4 and UC5. *)
Lemma same_period r t : same_transfer r t → (in_period r = true ↔ dated 1 5 t) ∧ uc5_period r = in_period r.
Proof. intros []. destruct st_date0 as (d & E & Hv & Hr). unfold dated. rewrite E. by apply in_period_exact. Qed.

(** A filter whose test never raises, and batch by batch. *)
Lemma filter_batch keep (P : Transaction → bool) c (l : list Transaction) : (∀ t, t ∈ l → keep t = Ok (P t)) →
  FilterFn_filter keep (Transactions c l) = Ok (Transactions c (filter (λ t, P t = true) l)).
Proof. intros Hk. unfold FilterFn_filter. cbn [transactions_of mbind res_bind]. by rewrite (filterR_Ok _ P). Qed.

Lemma filter_batches keep (P : Transaction → bool) c (batches : list (list Transaction)) :
  (∀ l t, l ∈ batches → t ∈ l → keep t = Ok (P t)) →
  mapR (λ l, FilterFn_filter keep (Transactions c l)) batches = Ok ((λ l, Transactions c (filter (λ t, P t = true) l)) <$> batches).
Proof.
  induction batches as [|l batches IH]; intros Hk; [done|]. cbn [mapR]. rewrite (filter_batch keep P) by (intros t; apply Hk; left).
  cbn [mbind res_bind]. rewrite IH; [done|]. intros l' t Hl'. apply Hk. by right.
Qed.
