(* ===== verification/OracleMatch.v ===== *)
(** * The system and the script give the same answer

    The network of UC4 lists the accounts the script computes from the same file. *)

From S2P Require Import Prelude.
From S2P Require Import PyDict.
From S2P Require Import PyValues.
From S2P Require Import PyText.
From S2P Require Import PyTime.
From S2P Require Import PyFloat.
From S2P Require Import Wire.
From S2P Require Import Messages.
From S2P Require Import Filters.
From S2P Require Import GroupBy.
From S2P Require Import Spill.
From S2P Require Import SpillLog.
From S2P Require Import UC4.
From S2P Require Import UC4Paths.
From S2P Require Import MergeFns.
From S2P Require Import UC4Prune.
From S2P Require Import ShardLog.
From S2P Require Import UC4Graphs.
From S2P Require Import UC4Degrees.
From S2P Require Import UC4Build.
From S2P Require Import Fleet.
From S2P Require Import UC4Stages.
From S2P Require Import Joins.
From S2P Require Import JoinProps.
From S2P Require Import UC4System.
From S2P Require Import Client.
From S2P Require Import Oracle.
From S2P Require Import OracleLines.
From S2P Require Import OracleProps.

(** An account as the system writes it. *)
Definition account_text (k : bank_account) : string * string := (str_int k.1, k.2).
Definition node_of (k : bank_account) : Node := mkNode (str_int k.1) k.2.

Lemma node_of_inj k k' : node_of k = node_of k' → k = k'.
Proof. destruct k as [b a], k' as [b' a']. intros E. injection E as Hb ->. by rewrite (str_int_inj b b' Hb). Qed.

Lemma parsed_row line r t : line_row line r → parse_transaction line = Ok t →
  tx_wf t ∧ origin_of t = node_of (edge_columns r).1 ∧ destination_of t = node_of (edge_columns r).2 ∧
  (selects 3 t ↔ r_payment_currency r = "US Dollar"%string ∧ in_period r = true).
Proof.
  intros Hr Ht. pose proof (parsed_transfer line r t Hr Ht) as Hs. destruct (same_period r t Hs) as [Hp _]. destruct Hs as [Hwf _ [Hf Hfa] [Ht' Hta] _ Hc _].
  split; [done|]. unfold origin_of, destination_of, node_of, edge_columns. cbn [fst snd]. rewrite Hf, Hfa, Ht', Hta.
  split; [done|]. split; [done|]. cbn [selects]. unfold usd. by rewrite Hc, Hp.
Qed.

(** The transfers of the batches are the edges the script keeps. *)
Lemma moved_edges lines rows ts batches a b :
  Forall2 line_row lines rows → Forall2 (λ line t, parse_transaction line = Ok t) lines ts → List.concat batches ≡ₚ ts →
  moved batches a b ↔ ∃ u v, a = node_of u ∧ b = node_of v ∧ edge_in (edges_of_chunk rows) u v.
Proof.
  intros Hrows Hts Hb.
  assert (Hin : ∀ t, (∃ l, l ∈ batches ∧ t ∈ l) ↔ t ∈ ts) by (intros t; rewrite <- Hb, elem_concat; naive_solver).
  assert (Hpair : ∀ i r t, rows !! i = Some r → ts !! i = Some t → tx_wf t ∧ origin_of t = node_of (edge_columns r).1 ∧
    destination_of t = node_of (edge_columns r).2 ∧ (selects 3 t ↔ r_payment_currency r = "US Dollar"%string ∧ in_period r = true)).
  { intros i r t Hr Ht. destruct (Forall2_lookup_r _ _ _ _ _ Hrows Hr) as (line & Hl & Hlr).
    apply (parsed_row line); [done|]. exact (Forall2_lookup_lr _ _ _ _ _ _ Hts Hl Ht). }
  assert (Hlen : length ts = length rows) by (by rewrite <- (Forall2_length _ _ _ Hts), (Forall2_length _ _ _ Hrows)).
  unfold edge_in, edges_of_chunk. split.
  - intros (l & t & Hl & Ht & Hsel & <- & <-). assert (t ∈ ts) as [i Hi]%list_elem_of_lookup by (apply Hin; by exists l).
    destruct (lookup_lt_is_Some_2 rows i) as [r Hr]; [rewrite <- Hlen; by eapply lookup_lt_Some|].
    destruct (Hpair i r t Hr Hi) as (_ & -> & -> & Hiff). exists (edge_columns r).1, (edge_columns r).2. split; [done|]. split; [done|].
    apply list_elem_of_fmap. exists r. split; [by destruct (edge_columns r)|]. rewrite !list_elem_of_filter.
    apply Hiff in Hsel as [H1 H2]. split; [done|]. split; [done|]. by eapply list_elem_of_lookup_2.
  - intros (u & v & -> & -> & (r & E & Hr)%list_elem_of_fmap). rewrite !list_elem_of_filter in Hr. destruct Hr as (H2 & H1 & [i Hi]%list_elem_of_lookup).
    destruct (lookup_lt_is_Some_2 ts i) as [t Ht]; [rewrite Hlen; by eapply lookup_lt_Some|].
    destruct (Hpair i r t Hi Ht) as (_ & Ho & Hd & Hiff). assert (t ∈ ts) as (l & Hl & Htl)%Hin by (by eapply list_elem_of_lookup_2).
    exists l, t. rewrite Ho, Hd, <- E. split; [done|]. split; [done|]. split; [by apply Hiff|]. done.
Qed.

Lemma scatter_edges lines rows ts batches a b :
  Forall2 line_row lines rows → Forall2 (λ line t, parse_transaction line = Ok t) lines ts → List.concat batches ≡ₚ ts →
  scatter_gather batches a b ↔ ∃ u v, a = node_of u ∧ b = node_of v ∧ gathered (edge_in (edges_of_chunk rows)) u v.
Proof.
  intros Hrows Hts Hb. change (scatter_gather batches a b) with (gathered (moved batches) a b).
  assert (Hm : ∀ a b, moved batches a b ↔ ∃ u v, a = node_of u ∧ b = node_of v ∧ edge_in (edges_of_chunk rows) u v)
    by (intros; by eapply moved_edges).
  split.
  - intros Hg. destruct (gathered_between _ _ _ Hg) as (m & (u & u' & Ha & _)%Hm & (v' & v & _ & Hv & _)%Hm). exists u, v.
    split; [done|]. split; [done|]. apply (gathered_along (λ n k, n = node_of k) (moved batches) _ a b); try done.
    + intros x y p -> ->. done.
    + intros x p q -> E. by apply node_of_inj.
    + intros x y (p & q & Hp & Hq & Hpq)%Hm. by exists p, q.
  - intros (u & v & -> & -> & Hg). apply (gathered_along (λ k n, n = node_of k) (edge_in (edges_of_chunk rows)) _ u v); try done.
    + intros x y p -> E. by apply node_of_inj.
    + intros x p q -> ->. done.
    + intros p q Hpq. exists (node_of p), (node_of q). split; [done|]. split; [done|]. apply Hm. by exists p, q.
Qed.

(** C3: the system agrees with the script that computes the expected answers
    ([_uc4_streaming]). For a file whose lines the client parses into the transactions
    of its batches, in any order, and the script reads in chunks of any size: the
    script's numbering, adjacency maps and table of pairs, whatever the size of its
    batch, give a set of accounts without an error; there is an answer of the network
    of UC4; and every answer lists exactly the accounts of that set, once each, with
    the bank as the system writes it. pandas' [drop_duplicates] is any function that
    keeps what occurs in a list. *)
Theorem uc4_matches_oracle `{PyHash} (cf : Config) (c : uuid) (U : Node → Prop) (PAIR_BATCH : Z)
    (drop_duplicates : list (bank_account * bank_account) → list (bank_account * bank_account))
    (lines : list chars) (chunks : list (list Row)) (ts : list Transaction) (batches : list (list Transaction)) :
  cfg_ok cf → nodes_ok U → (∀ t, t ∈ ts → U (origin_of t) ∧ U (destination_of t)) →
  split_threshold cf * Z.of_nat (length ts) < 2 ^ 53 →
  (∀ l x, x ∈ drop_duplicates l ↔ x ∈ l) →
  Forall2 line_row lines (List.concat chunks) → Forall2 (λ line t, parse_transaction line = Ok t) lines ts →
  List.concat batches ≡ₚ ts →
  ∃ expected, uc4_streaming PAIR_BATCH drop_duplicates chunks = Ok expected ∧
    (∃ responses, uc4_answer cf c U batches responses) ∧
    ∀ responses, uc4_answer cf c U batches responses →
      ∃ accounts, responses = [response c (text_body "--- UC4 ---" uc4_row accounts +:+ nl) true] ∧
        accounts ≡ₚ account_text <$> expected.
Proof.
  intros Hcf HU HUt Hsize Hdrop Hrows Hts Hb.
  destruct (streaming_spec PAIR_BATCH drop_duplicates chunks Hdrop) as (expected & E & Hnd & Hx). exists expected. split; [exact E|].
  assert (Hok : ∀ l t, l ∈ batches → t ∈ l → tx_wf t ∧ U (origin_of t) ∧ U (destination_of t)).
  { intros l t Hl Ht. assert (t ∈ ts) as Hin by (rewrite <- Hb; apply elem_concat; by exists l).
    split; [|by apply HUt]. apply list_elem_of_lookup in Hin as [i Hi].
    destruct (Forall2_lookup_r _ _ _ _ _ Hts Hi) as (line & Hline & Ep). destruct (Forall2_lookup_l _ _ _ _ _ Hrows Hline) as (r & _ & Hr).
    by apply (parsed_row line r t Hr Ep). }
  assert (Hsize' : split_threshold cf * Z.of_nat (length (List.concat batches)) < 2 ^ 53) by (by rewrite (Permutation_length Hb)).
  split; [by apply answer_exists|]. intros responses Hr. destruct (answer_exact cf c U batches Hcf HU Hok Hsize' responses Hr) as (accounts & -> & Hnd' & Hacc).
  exists accounts. split; [done|]. apply NoDup_Permutation; [done| |].
  - apply NoDup_fmap_2; [|done]. intros [b a] [b' a'] Ek. apply node_of_inj. unfold node_of. cbn in *. by injection Ek as -> ->.
  - intros [bank account]. rewrite (Hacc (mkNode bank account)), list_elem_of_fmap. setoid_rewrite (scatter_edges lines _ ts batches _ _ Hrows Hts Hb).
    setoid_rewrite Hx. split.
    + intros (a & b & (u & v & -> & -> & Hg) & [E'|E']); [exists u|exists v]; (split; [by injection E' as -> ->|]); exists u, v; by auto.
    + intros (k & [= -> ->] & u & v & Hg & Hk). exists (node_of u), (node_of v). split; [by exists u, v|]. destruct Hk as [->| ->]; [by left|by right].
Qed.

(** ** A concrete file *)

#[local] Transparent pad0 int_str.
#[local] Instance match_demo_hash : PyHash :=
  {| hash_str s := Z.of_nat (String.length s); hash_uuid _ := 0; hash_identity _ _ := 0 |}.

Definition demo_line (a b : Node) : chars :=
  chars_of ("2022/09/02 00:00," +:+ node_bank a +:+ "," +:+ node_account a +:+ "," +:+ node_bank b +:+ "," +:+ node_account b +:+
    ",10,US Dollar,10,US Dollar,Wire,0").
Definition demo_row (a b : Node) : Row := mkRow "2022/09/02 00:00" 1 (node_account a) 1 (node_account b) (f_of_Z 10) "US Dollar" "Wire".

(** The two legs of every middle account, one after the other; read in chunks of three. *)
Definition demo_legs : list (Node * Node) :=
  demo_middle ≫= λ m, [(demo_account "X1", m); (m, demo_account "Y1")].
Definition demo_chunks : list (list Row) :=
  let rows := (λ e, demo_row e.1 e.2) <$> demo_legs in [take 3 rows; take 3 (drop 3 rows); drop 6 rows].

Lemma demo_line_row e : e ∈ demo_legs →
  line_row (demo_line e.1 e.2) (demo_row e.1 e.2) ∧ parse_transaction (demo_line e.1 e.2) = Ok (demo_transfer e.1 e.2) ∧
  listed demo_accounts (origin_of (demo_transfer e.1 e.2)) ∧ listed demo_accounts (destination_of (demo_transfer e.1 e.2)).
Proof.
  revert e. apply Forall_forall. repeat constructor; cbn [fst snd].
  all: first [by apply (line_read _ _ (mkDT 2022 9 2 0 0 0) "1" "1" "10" "US Dollar" "10" "0")
             |by vm_compute|apply (bool_decide_unpack _); vm_compute; exact I].
Qed.

Lemma uc4_matches_oracle_witness :
  let c := uuid_lit 4 in let U := listed demo_accounts in let ts := (λ e, demo_transfer e.1 e.2) <$> demo_legs in
  ∃ expected, uc4_streaming 2 (λ l, l) demo_chunks = Ok expected ∧
    ∃ responses accounts, uc4_answer deployed c U [ts] responses ∧
      responses = [response c (text_body "--- UC4 ---" uc4_row accounts +:+ nl) true] ∧
      accounts ≡ₚ [("1", "X1"); ("1", "Y1")]%string.
Proof.
  cbv zeta. destruct (uc4_matches_oracle deployed (uuid_lit 4) (listed demo_accounts) 2 (λ l, l)
    ((λ e, demo_line e.1 e.2) <$> demo_legs) demo_chunks ((λ e, demo_transfer e.1 e.2) <$> demo_legs)
    [(λ e, demo_transfer e.1 e.2) <$> demo_legs]) as (expected & E & [responses Hr] & Hall).
  - repeat split.
  - apply listed_ok. vm_compute. reflexivity.
  - intros t (e & -> & He)%list_elem_of_fmap. by apply demo_line_row.
  - vm_compute. reflexivity.
  - done.
  - change (List.concat demo_chunks) with ((λ e, demo_row e.1 e.2) <$> demo_legs).
    apply Forall2_fmap_2, Forall_Forall2_diag, Forall_forall. by intros e [He _]%demo_line_row.
  - apply Forall2_fmap_2, Forall_Forall2_diag, Forall_forall. by intros e (_ & He & _)%demo_line_row.
  - cbn [List.concat]. by rewrite app_nil_r.
  - exists expected. split; [exact E|]. destruct (Hall responses Hr) as (accounts & Er & Hacc).
    exists responses, accounts. split; [exact Hr|]. split; [exact Er|]. rewrite Hacc.
    assert (E' : uc4_streaming 2 (λ l, l) demo_chunks = Ok [(1, "X1"); (1, "Y1")]%string) by (vm_compute; reflexivity).
    rewrite E in E'. injection E' as ->. reflexivity.
Defined.
