(* ===== verification/UC1Match.v ===== *)
(** * UC1 answers as the script does

    The network of UC1 is one route of the default filters and one join. Whatever way a
    file is cut into batches, and whatever order they arrive in, its responses list the
    rows the script writes. *)

From S2P Require Import Prelude.
From S2P Require Import PyDict.
From S2P Require Import PyValues.
From S2P Require Import PyText.
From S2P Require Import PyTime.
From S2P Require Import PyFloat.
From S2P Require Import PyRepr.
From S2P Require Import Wire.
From S2P Require Import Messages.
From S2P Require Import Filters.
From S2P Require Import Checkpoint.
From S2P Require Import Spill.
From S2P Require Import SpillLog.
From S2P Require Import Fleet.
From S2P Require Import MergeFns.
From S2P Require Import Joins.
From S2P Require Import JoinProps.
From S2P Require Import Client.
From S2P Require Import Oracle.
From S2P Require Import OracleLines.

(** ** The file of the script *)

(** The file holds the rows of all the data frames, numbered from 0. *)
Lemma sink_spec {A} (file : list (Z * A)) (dfs : list (list A)) :
  sink_close (foldl sink_write (sink_init file) dfs) =
    (Z.of_nat (length (List.concat dfs)), imap (λ i r, (Z.of_nat i, r)) (List.concat dfs)).
Proof.
  assert (H : ∀ dfs, let s := foldl sink_write (sink_init file) dfs in
    sk_offset s = Z.of_nat (length (List.concat dfs)) ∧
    (if sk_first s then [] else sk_lines s) = imap (λ i r, (Z.of_nat i, r)) (List.concat dfs)).
  { clear dfs. intros dfs. cbv zeta. induction dfs as [|df dfs IH] using rev_ind; [done|]. destruct IH as [H1 H2].
    rewrite foldl_app, List.concat_app. cbn [foldl List.concat]. rewrite app_nil_r. set (s := foldl _ _ _) in *.
    destruct df as [|x df]; [by rewrite app_nil_r|]. unfold sink_write. cbn [sk_offset sk_first sk_lines]. split.
    - rewrite H1, length_app. lia.
    - rewrite H2, H1, imap_app. f_equal. apply imap_ext. intros i r _. unfold compose. f_equal. lia. }
  destruct (H dfs) as [H1 H2]. unfold sink_close. by rewrite H1, H2.
Qed.

Lemma numbered {A} (l : list A) :
  (imap (λ i r, (Z.of_nat i, r)) l).*1 = seqZ 0 (Z.of_nat (length l)) ∧ (imap (λ i r, (Z.of_nat i, r)) l).*2 = l.
Proof.
  induction l as [|x l [IH1 IH2]] using rev_ind; [done|]. rewrite imap_app, !fmap_app, IH1, IH2, length_app.
  cbn [imap fmap list_fmap length fst snd]. split; [|done]. rewrite !Nat2Z.inj_add, seqZ_app by lia. cbn. by rewrite !Z.add_0_r.
Qed.

Lemma uc1_streaming_spec file chunks :
  uc1_streaming file chunks =
    let rows := uc1_columns <$> filter (λ r, uc1_mask r = true) (List.concat chunks) in
    (Z.of_nat (length rows), imap (λ i r, (Z.of_nat i, r)) rows).
Proof.
  cbv zeta. unfold uc1_streaming. set (cols := λ chunk : list Row, uc1_columns <$> filter (λ r, uc1_mask r = true) chunk).
  assert (E : ∀ s, foldl (λ s chunk, sink_write s (cols chunk)) s chunks = foldl sink_write s (cols <$> chunks)).
  { induction chunks as [|chunk chunks' IH]; intros s; [done|]. apply IH. }
  rewrite E, sink_spec. assert (List.concat (cols <$> chunks) = cols (List.concat chunks)) as ->; [|done].
  clear E. induction chunks as [|chunk chunks' IH]; [done|]. rewrite fmap_cons. cbn [List.concat]. rewrite IH. unfold cols. by rewrite filter_app, fmap_app.
Qed.

(** ** The network *)

(** A message of the client, if the event brings one. *)
Definition row_mail (c : uuid) (o : row_op) : option Body :=
  match o with OJoin el => if decide (body_client el = Some c) then Some el else None | OCheckpoint => None end.

(** The answer to a client who sent [batches]: the batches pass the filters in any
    order, other clients' messages and checkpoints come in between. *)
Inductive uc1_answer (c : uuid) (n : Z) (batches : list (list Transaction)) (responses : list Body) : Prop :=
  | uc1_answered filtered ops s s' :
      mapR (λ l, FilterFn_filter UC1Filter_keep (Transactions c l)) batches = Ok filtered →
      Forall joinable ops → omap (row_mail c) ops ≡ₚ filtered →
      rows_run "uc1_join" uc1_row "--- UC1 ---" n (spill_init []) ops = Ok s →
      get_responses (@RowsJoin PersistentSpill (PersistentSpill_store "uc1_join") uc1_row "--- UC1 ---" n) s c = Ok (s', responses) →
      uc1_answer c n batches responses.

Definition uc1_selects (t : Transaction) : bool :=
  bool_decide (payment_currency t = TARGET_CURRENCY) && flt (amount_paid t) MIN_AMOUNT.

Definition uc1_messages (c : uuid) (batches : list (list Transaction)) : list Body :=
  (λ l, Transactions c (filter (λ t, uc1_selects t = true) l)) <$> batches.

Lemma uc1_filtered c (batches : list (list Transaction)) :
  mapR (λ l, FilterFn_filter UC1Filter_keep (Transactions c l)) batches = Ok (uc1_messages c batches).
Proof. by apply filter_batches. Qed.

(** The transactions of the client are those of its messages. *)
Lemma mail_transactions c (ops : list row_op) : Forall joinable ops →
  ops ≫= txs_for c = omap (row_mail c) ops ≫= (λ b, txs_for c (OJoin b)).
Proof.
  induction 1 as [|o ops Ho _ IH]; [done|]. cbn [mbind list_bind]. rewrite IH.
  assert (E : txs_for c o = match row_mail c o with Some b => txs_for c (OJoin b) | None => [] end); [|rewrite E; by cbn [omap list_omap]; destruct (row_mail c o)].
  destruct o as [el|]; [|done]. cbn [row_mail]. destruct (decide (body_client el = Some c)) as [|Hn]; [done|].
  destruct el; try done; cbn [body_client txs_for] in *; (rewrite decide_False; [done|congruence]).
Qed.

Lemma answer_transactions c (batches : list (list Transaction)) ops : Forall joinable ops →
  omap (row_mail c) ops ≡ₚ uc1_messages c batches →
  ops ≫= txs_for c ≡ₚ filter (λ t, uc1_selects t = true) (List.concat batches).
Proof.
  intros Hops Hp. rewrite mail_transactions by done. rewrite Hp. clear. unfold uc1_messages. apply reflexive_eq.
  induction batches as [|l batches IH]; [done|]. rewrite fmap_cons. cbn [mbind list_bind List.concat]. rewrite IH, filter_app. cbn [txs_for].
  by rewrite decide_True.
Qed.

(** ** The same rows *)

(** A row of the script, as the response shows it. *)
Definition uc1_text (k : Z * string * Z * string * float) : chars :=
  let '(from_bank, account, to_bank, account_1, paid) := k in
  chars_of (nl +:+ "origin: " +:+ pad_right 20 (str_int from_bank +:+ "-" +:+ account) +:+
    " destination: " +:+ pad_right 20 (str_int to_bank +:+ "-" +:+ account_1) +:+ " amount: " +:+ float_repr paid).

Lemma same_row r t : same_transfer r t → chars_of (uc1_row t) = uc1_text (uc1_columns r) ∧ uc1_selects t = uc1_mask r.
Proof.
  intros [_ _ [Hf Hfa] [Ht Hta] Ha Hc _]. unfold uc1_row, uc1_text, uc1_columns, uc1_selects, uc1_mask. rewrite Hf, Hfa, Ht, Hta, Ha, Hc. done.
Qed.

Lemma same_rows rows ts : Forall2 same_transfer rows ts →
  Forall2 (λ t r, chars_of (uc1_row t) = uc1_text (uc1_columns r))
    (filter (λ t, uc1_selects t = true) ts) (filter (λ r, uc1_mask r = true) rows).
Proof.
  induction 1 as [|r t rows ts Hrt _ IH]; [constructor|]. destruct (same_row r t Hrt) as [H1 H2]. rewrite !filter_cons, H2.
  destruct (decide (uc1_mask r = true)); [by constructor|done].
Qed.

(** What the join streams to the client. *)
Lemma answer_streams c n batches ts ops :
  1 ≤ n → List.concat batches ≡ₚ ts → (∀ t, t ∈ ts → chr 13 ∉ chars_of (uc1_row t)) →
  Forall joinable ops → omap (row_mail c) ops ≡ₚ uc1_messages c batches →
  ∃ s s' rs, rows_run "uc1_join" uc1_row "--- UC1 ---" n (spill_init []) ops = Ok s ∧
    get_responses (@RowsJoin PersistentSpill (PersistentSpill_store "uc1_join") uc1_row "--- UC1 ---" n) s c = Ok (s', rs) ∧
    ∃ txs, txs ≡ₚ filter (λ t, uc1_selects t = true) ts ∧ streams c n (chars_of "--- UC1 ---" ++ rows_text uc1_row txs ++ [c_newline]) rs.
Proof.
  intros Hn Hb Hcr Hops Hm. assert (Hp : ops ≫= txs_for c ≡ₚ filter (λ t, uc1_selects t = true) ts)
    by (by rewrite (answer_transactions c batches ops Hops Hm), Hb).
  destruct (rows_streamed "uc1_join" uc1_row "--- UC1 ---" n ops c Hn eq_refl Hops) as (s & s' & rs & Er & Eg & Hs).
  - intros t. rewrite Hp, list_elem_of_filter. intros [_ Ht]. by apply Hcr.
  - exists s, s', rs. split; [exact Er|]. split; [exact Eg|]. by exists (ops ≫= txs_for c).
Qed.

Lemma uc1_answer_exists c n batches ts :
  1 ≤ n → List.concat batches ≡ₚ ts → (∀ t, t ∈ ts → chr 13 ∉ chars_of (uc1_row t)) → ∃ responses, uc1_answer c n batches responses.
Proof.
  intros Hn Hb Hcr. set (ops := OJoin <$> uc1_messages c batches).
  assert (Hops : Forall joinable ops) by (unfold ops, uc1_messages; rewrite !Forall_fmap; by apply Forall_true).
  assert (Hmail : omap (row_mail c) ops = uc1_messages c batches).
  { unfold ops, uc1_messages. clear. induction batches as [|l batches IH]; [done|]. rewrite !fmap_cons. cbn [omap list_omap row_mail body_client].
    rewrite decide_True by done. by rewrite IH. }
  destruct (answer_streams c n batches ts ops Hn Hb Hcr Hops) as (s & s' & rs & Er & Eg & _); [by rewrite Hmail|].
  exists rs. econstructor; [apply uc1_filtered|exact Hops|by rewrite Hmail|exact Er|exact Eg].
Qed.

Lemma texts_of_rows txs rows : Forall2 (λ t r, chars_of (uc1_row t) = uc1_text (uc1_columns r)) txs rows →
  rows_text uc1_row txs = List.concat (uc1_text <$> (uc1_columns <$> rows)).
Proof. unfold rows_text. induction 1 as [|t r l rows Htr _ IH]; [done|]. rewrite !fmap_cons. cbn [List.concat]. by rewrite Htr, IH. Qed.

(** C5: UC1 agrees with the script that computes the expected answers
    ([_uc1_streaming]). For a file whose lines the client parses into the transactions of
    its batches, in any order, and the script reads in chunks of any size: the script
    writes the rows that qualify, numbered from 0, whatever the file held before; there
    is an answer of the network; and every answer is a stream of responses of at most a
    batch of lines, the last one marked, whose text is the header, a line for each row
    of the script, in some order, and a newline. *)
Theorem uc1_matches_oracle (c : uuid) (n : Z) (file : list (Z * (Z * string * Z * string * float)))
    (lines : list chars) (chunks : list (list Row)) (ts : list Transaction) (batches : list (list Transaction)) :
  1 ≤ n → Forall2 line_row lines (List.concat chunks) → Forall2 (λ line t, parse_transaction line = Ok t) lines ts →
  List.concat batches ≡ₚ ts → (∀ t, t ∈ ts → chr 13 ∉ chars_of (uc1_row t)) →
  let expected := (uc1_streaming file chunks).2 in
  (uc1_streaming file chunks).1 = Z.of_nat (length expected) ∧
  expected.*1 = seqZ 0 (Z.of_nat (length expected)) ∧
  (∃ responses, uc1_answer c n batches responses) ∧
  ∀ responses, uc1_answer c n batches responses →
    ∃ rows, rows ≡ₚ expected.*2 ∧
      streams c n (chars_of "--- UC1 ---" ++ List.concat (uc1_text <$> rows) ++ [c_newline]) responses.
Proof.
  intros Hn Hrows Hts Hb Hcr. cbv zeta. rewrite uc1_streaming_spec. cbv zeta. cbn [fst snd].
  set (cols := uc1_columns <$> _). rewrite length_imap. split; [done|].
  destruct (numbered cols) as [-> ->]. split; [done|].
  split; [by apply (uc1_answer_exists c n batches ts)|]. intros responses [filtered ops s s' Hf Hops Hm Hrun Hget].
  rewrite uc1_filtered in Hf. injection Hf as <-.
  destruct (answer_streams c n batches ts ops Hn Hb Hcr Hops Hm) as (s1 & s1' & rs & Er & Eg & txs & Hp & Hs).
  rewrite Hrun in Er. injection Er as <-. rewrite Hget in Eg. injection Eg as <- <-.
  pose proof (same_rows _ _ (parsed_transfers lines _ ts Hrows Hts)) as Hsame.
  destruct (Permutation_Forall2 (symmetry Hp) Hsame) as (rows & Hrp & Hrf).
  exists (uc1_columns <$> rows). split; [unfold cols; by rewrite Hrp|]. by rewrite <- (texts_of_rows txs rows Hrf).
Qed.

(** ** A concrete file *)

Definition demo_uc1_line (paid : string) : chars :=
  chars_of ("2022/09/02 00:00,10,A,20,B," +:+ paid +:+ ",US Dollar," +:+ paid +:+ ",US Dollar,Wire,0" +:+ nl).
Definition demo_uc1_row (paid : Z) : Row := mkRow "2022/09/02 00:00" 10 "A" 20 "B" (f_of_Z paid) "US Dollar" "Wire".
Definition demo_uc1_tx (paid : Z) : Transaction :=
  mkTx (TsDate (mkDT 2022 9 2 0 0 0)) "10" "A" "20" "B" (f_of_Z paid) "US Dollar" (f_of_Z paid) "US Dollar" "Wire".

Lemma uc1_matches_oracle_witness :
  let chunks := [[demo_uc1_row 10]; [demo_uc1_row 50; demo_uc1_row 7]] in
  uc1_streaming [] chunks = (2, [(0, (10, "A", 20, "B", f_of_Z 10)); (1, (10, "A", 20, "B", f_of_Z 7))])%string ∧
  ∃ responses rows, uc1_answer (uuid_lit 4) 100 [[demo_uc1_tx 7; demo_uc1_tx 50]; [demo_uc1_tx 10]] responses ∧
    rows ≡ₚ [(10, "A", 20, "B", f_of_Z 10); (10, "A", 20, "B", f_of_Z 7)]%string ∧
    streams (uuid_lit 4) 100 (chars_of "--- UC1 ---" ++ List.concat (uc1_text <$> rows) ++ [c_newline]) responses.
Proof.
  cbv zeta. set (chunks := [_; _]). assert (E : uc1_streaming [] chunks =
    (2, [(0, (10, "A", 20, "B", f_of_Z 10)); (1, (10, "A", 20, "B", f_of_Z 7))])%string) by (vm_compute; reflexivity).
  split; [exact E|].
  destruct (uc1_matches_oracle (uuid_lit 4) 100 [] (demo_uc1_line <$> ["10"; "50"; "7"]%string) chunks (demo_uc1_tx <$> [10; 50; 7])
    [[demo_uc1_tx 7; demo_uc1_tx 50]; [demo_uc1_tx 10]]) as (_ & _ & [responses Hr] & Hall); [lia|..].
  - repeat constructor; [apply (line_read _ _ (mkDT 2022 9 2 0 0 0) "10" "20" "10" "US Dollar" "10" "0")
      |apply (line_read _ _ (mkDT 2022 9 2 0 0 0) "10" "20" "50" "US Dollar" "50" "0")
      |apply (line_read _ _ (mkDT 2022 9 2 0 0 0) "10" "20" "7" "US Dollar" "7" "0")]; by vm_compute.
  - repeat constructor; by vm_compute.
  - cbn [List.concat app fmap list_fmap]. by rewrite (Permutation_cons_append [_; _] (demo_uc1_tx 7)), (Permutation_swap _ (demo_uc1_tx 10)).
  - apply Forall_forall. apply (bool_decide_unpack _). vm_compute. exact I.
  - destruct (Hall responses Hr) as (rows & Hp & Hs). exists responses, rows. split; [exact Hr|]. split; [|exact Hs].
    rewrite E in Hp. exact Hp.
Defined.
