(* ===== verification/UC2Match.v ===== *)
(** * UC2 answers as the script does

    The network of UC2: a route of the default filters and the group-by of the largest
    payments, the aggregates of these and of the names of the banks, the merges that
    join the two, and the join. Whatever way the files are cut into batches and the
    messages are spread over the instances, the answer names the banks of the script,
    with the same names and largest amounts. *)

From S2P Require Import Prelude.
From S2P Require Import PyDict.
From S2P Require Import PyValues.
From S2P Require Import PyText.
From S2P Require Import PyTime.
From S2P Require Import PyFloat.
From S2P Require Import Wire.
From S2P Require Import Messages.
From S2P Require Import Filters.
From S2P Require Import GroupBy.
From S2P Require Import RingNode.
From S2P Require Import Aggregates.
From S2P Require Import UC4.
From S2P Require Import UC4Paths.
From S2P Require Import Fleet.
From S2P Require Import MergeFns.
From S2P Require Import MergeProps.
From S2P Require Import Joins.
From S2P Require Import JoinProps.
From S2P Require Import Client.
From S2P Require Import Oracle.
From S2P Require Import OracleTables.
From S2P Require Import OracleLines.

(** ** Summaries *)

(** [E] keeps some of the entries of [S]: for each entry one that [R] takes for it. *)
Section covers.
Context {A : Type} (R : A → A → Prop).

Definition covers (S E : list A) : Prop := (∀ e, e ∈ E → e ∈ S) ∧ ∀ e, e ∈ S → ∃ e', e' ∈ E ∧ R e' e.

Lemma covers_refl S : (∀ e, e ∈ S → R e e) → covers S S.
Proof. intros HR. split; [done|]. intros e He. exists e. split; [done|by apply HR]. Qed.

Lemma covers_trans S E F : (∀ x y z, y ∈ S → R x y → R y z → R x z) → covers S E → covers E F → covers S F.
Proof.
  intros HR [H1 H2] [H3 H4]. split; [auto|]. intros e (e' & He' & Hr)%H2. destruct (H4 e' He') as (e'' & He'' & Hr'').
  exists e''. split; [done|]. by apply (HR _ e'); [apply H1|..].
Qed.

Lemma covers_app S E S' E' : covers S E → covers S' E' → covers (S ++ S') (E ++ E').
Proof.
  intros [H1 H2] [H3 H4]. split; intros e; rewrite !elem_of_app; [naive_solver|].
  intros [(e' & He' & Hr)%H2|(e' & He' & Hr)%H4]; exists e'; rewrite elem_of_app; auto.
Qed.

Lemma covers_concat (Ss Es : list (list A)) : Forall2 covers Ss Es → covers (List.concat Ss) (List.concat Es).
Proof.
  induction 1 as [|S E Ss Es HSE _ IH]; [|by apply covers_app].
  split; [done|by intros e ?%not_elem_of_nil].
Qed.

Lemma covers_same S S' E E' : (∀ e, e ∈ S ↔ e ∈ S') → (∀ e, e ∈ E ↔ e ∈ E') → covers S E → covers S' E'.
Proof. intros HS HE [H1 H2]. split; [intros e He%HE; by apply HS, H1|]. intros e (e' & He' & Hr)%HS%H2. exists e'. by rewrite <- HE. Qed.
End covers.

(** The two entries are of one bank, and the second is not larger. *)
Definition not_below (x y : string * (string * float)) : Prop := x.1 = y.1 ∧ flt x.2.2 y.2.2 = false.
Definition same_bank (x y : string * string) : Prop := x.1 = y.1.

#[local] Instance no_nan_perm : Proper ((≡ₚ) ==> iff) no_nan.
Proof. intros l l' E. unfold no_nan. by rewrite E. Qed.

Lemma not_below_refl e : not_below e e.
Proof. split; [done|apply flt_irrefl]. Qed.

Lemma covers_maxima S E F : no_nan S → covers not_below S E → covers not_below E F → covers not_below S F.
Proof.
  intros Hn. apply covers_trans. intros x y z Hy [E1 H1] [E2 H2]. split; [congruence|].
  apply (nlt_trans _ y.2.2 _); [|done..]. unfold no_nan in Hn. rewrite Forall_forall in Hn. by apply Hn.
Qed.

Lemma covers_no_nan S E : no_nan S → covers not_below S E → no_nan E.
Proof. unfold no_nan. rewrite !Forall_forall. intros Hn [H1 _] e He. by apply Hn, H1. Qed.

Lemma max_merge_covers S : no_nan S → covers not_below S (max_merge [] S).
Proof.
  intros Hn. pose proof (max_merge_wf [] S nil_wf) as Hwf. split.
  - intros [b m] Hin. pose proof (max_merge_is_max S b Hn) as Hm. rewrite (elem_dget _ _ _ Hwf Hin) in Hm. apply Hm.
  - intros [b m] Hin. pose proof (max_merge_is_max S b Hn) as Hm. destruct (dget (max_merge [] S) b) as [m'|] eqn:E.
    + exists (b, m'). destruct Hm as [_ Hm]. split; [|split; [done|by apply (Hm (b, m))]].
      apply dget_Some_elem in E as (b' & Hb & Hin'). by assert (b' = b) as -> by exact Hb.
    + by destruct (Hm (b, m) Hin).
Qed.

Lemma dict_of_covers (S : list (string * string)) : covers same_bank S (dict_of S).
Proof.
  assert (Hwf : dict_wf (dict_of S)) by apply dict_of_wf. split.
  - intros [b n] Hin. apply (elem_dget _ _ _ Hwf) in Hin. apply dict_of_last in Hin as (N1 & N2 & -> & _). set_solver.
  - intros [b n] Hin. destruct (last_name_exists b n S Hin) as (name & Hl%dict_of_last). exists (b, name). split; [|done].
    apply dget_Some_elem in Hl as (b' & Hb & Hin'). by assert (b' = b) as -> by exact Hb.
Qed.

(** ** The network *)

(** What a message brings to a client. *)
Definition maxima_in (c : uuid) (b : Body) : list (string * (string * float)) :=
  match b with MaxByBank c' d => if decide (c' = c) then d else [] | _ => [] end.
Definition names_in (c : uuid) (b : Body) : list (string * string) :=
  match b with BankNames c' d => if decide (c' = c) then d else [] | _ => [] end.

Definition is_maxima (b : Body) : Prop := match b with MaxByBank _ _ => True | _ => False end.
Definition is_names (b : Body) : Prop := match b with BankNames _ _ => True | _ => False end.

Definition client_mail (c : uuid) (b : Body) : option Body := if decide (body_client b = Some c) then Some b else None.
Definition left_bank_mail (c : uuid) (e : bank_event) : option Body :=
  match e with BankLeft c' d => if decide (c' = c) then Some (MaxByBank c d) else None | _ => None end.
Definition right_bank_mail (c : uuid) (e : bank_event) : option Body :=
  match e with BankRight c' d => if decide (c' = c) then Some (BankNames c d) else None | _ => None end.

(** The sizes of the fleets. *)
Record BankFleets := mkBankFleets { n_maxima : Z; n_names : Z; n_bank_merges : Z }.
Definition fleets_ok (n : BankFleets) : Prop := 0 < n_maxima n ∧ 0 < n_names n ∧ 0 < n_bank_merges n.

Section network.
Context `{PyHash}.

Definition maxima_group (c : uuid) (l : list Transaction) : res (list (Body * Z)) :=
  b ← FilterFn_filter UC2Filter_keep (Transactions c l); UC2MaxAmount_group_by b.

(** An instance of each stage, from its start to the result of the client. *)
Definition maxima_node (c : uuid) (msgs : list Body) : res (list (Body * Z)) :=
  st ← aggregate_all UC2MaxAmountAggregateFn [] msgs; '(_, out) ← UC2MaxAmount_get_result st c; Ok out.
Definition names_node (c : uuid) (msgs : list Body) : res (list (Body * Z)) :=
  st ← aggregate_all UC2BankNamesAggregateFn [] msgs; '(_, out) ← UC2BankNames_get_result st c; Ok out.
Definition bank_node (c : uuid) (es : list bank_event) : res (list Body) :=
  st ← foldR bank_step (mkBM [] []) es; '(_, out) ← UC2Merge_get_result st c; Ok out.

(** The answer to a client who sent [batches] of transactions and [files] of accounts. *)
Inductive uc2_answer (n : BankFleets) (c : uuid) (batches : list (list Transaction)) (files : list (list Account))
    (responses : list Body) : Prop :=
  | uc2_answered grouped mevs maxima named nevs names bevs merged els st st' :
      mapR (maxima_group c) batches = Ok grouped →
      fed (client_mail c) (n_maxima n) (List.concat grouped) mevs → Forall (Forall is_maxima) mevs →
      mapR (maxima_node c) mevs = Ok maxima →
      mapR (λ l, UC2BankNames_group_by (Accounts c l)) files = Ok named →
      fed (client_mail c) (n_names n) (List.concat named) nevs → Forall (Forall is_names) nevs →
      mapR (names_node c) nevs = Ok names →
      (∀ es, es ∈ bevs → omap (left_bank_mail c) es ≡ₚ (List.concat maxima).*1) →
      fed (right_bank_mail c) (n_bank_merges n) (List.concat names) bevs →
      mapR (bank_node c) bevs = Ok merged →
      Forall is_merged els → filter (λ b, body_client b = Some c) els ≡ₚ List.concat merged →
      join_run UC2Join [] els = Ok st → get_responses UC2Join st c = Ok (st', responses) →
      uc2_answer n c batches files responses.

(** *** The group-bys *)

Definition uc2_selects (t : Transaction) : bool := bool_decide (payment_currency t = TARGET_CURRENCY).

(** What the messages routed by a stage bring. *)
Definition maxima_of (c : uuid) (out : list (Body * Z)) : list (string * (string * float)) := out.*1 ≫= maxima_in c.
Definition names_of (c : uuid) (out : list (Body * Z)) : list (string * string) := out.*1 ≫= names_in c.

Lemma maxima_of_concat c outs : maxima_of c (List.concat outs) = List.concat (maxima_of c <$> outs).
Proof. unfold maxima_of. induction outs as [|o outs IH]; [done|]. cbn [List.concat fmap list_fmap]. by rewrite fmap_app, bind_app, <- IH. Qed.
Lemma names_of_concat c outs : names_of c (List.concat outs) = List.concat (names_of c <$> outs).
Proof. unfold names_of. induction outs as [|o outs IH]; [done|]. cbn [List.concat fmap list_fmap]. by rewrite fmap_app, bind_app, <- IH. Qed.

(** The groups of a dict hold its entries. *)
Lemma grouped_entries {V} (d : pydict string V) (mk : pydict string V → Body) (inside : Body → list (string * V)) e :
  dict_wf d → (∀ l, inside (mk l) = l) → e ∈ ((yield_groups mk (by_affinity bank_affinity dset d)).*1 ≫= inside) ↔ e ∈ d.
Proof.
  intros Hd Hin. rewrite list_elem_of_bind. split.
  - intros (b & He & ([b' a] & -> & Hb)%list_elem_of_fmap). apply elem_yield_groups in Hb as [-> _]; [|apply dset_append|done].
    cbn [fst] in He. rewrite Hin in He. by apply list_elem_of_filter in He as [_ He].
  - intros He. set (a := bank_affinity e.1). assert (He' : e ∈ of_affinity bank_affinity a d) by (by apply list_elem_of_filter).
    exists (mk (of_affinity bank_affinity a d)). rewrite Hin. split; [done|]. apply list_elem_of_fmap. exists (mk (of_affinity bank_affinity a d), a).
    split; [done|]. apply elem_yield_groups; [apply dset_append|done|]. split; [done|]. intros E. rewrite E in He'. by apply not_elem_of_nil in He'.
Qed.

Lemma maxima_grouped c (batches : list (list Transaction)) : no_nan (tx_entries (filter (λ t, uc2_selects t = true) (List.concat batches))) →
  ∃ grouped, mapR (maxima_group c) batches = Ok grouped ∧ Forall (λ m, is_maxima m.1 ∧ body_client m.1 = Some c) (List.concat grouped) ∧
    covers not_below (tx_entries (filter (λ t, uc2_selects t = true) (List.concat batches))) (maxima_of c (List.concat grouped)).
Proof.
  induction batches as [|l batches IH]; intros Hn.
  { exists []. split; [done|]. split; [constructor|]. split; [done|by intros e ?%not_elem_of_nil]. }
  cbn [List.concat] in *. unfold tx_entries in *. rewrite filter_app, fmap_app in *. apply Forall_app in Hn as [Hn Hn'].
  destruct (IH Hn') as (grouped & E & Hm & Hc).
  set (sel := filter (λ t, uc2_selects t = true) l) in *.
  pose proof (filter_batch UC2Filter_keep uc2_selects c l ltac:(done)) as Ef. fold sel in Ef.
  eexists (_ :: grouped). split; [|split].
  - assert (Eg : maxima_group c l = UC2MaxAmount_group_by (Transactions c sel))
      by exact (f_equal (λ r, r ≫= UC2MaxAmount_group_by) Ef).
    cbn [mapR]. rewrite Eg. unfold UC2MaxAmount_group_by. cbn [transactions_of client_of body_client of_opt mbind res_bind]. rewrite E. reflexivity.
  - cbn [List.concat]. apply Forall_app. split; [|done]. apply Forall_forall. intros [b a] Hb. apply max_group_elem in Hb as [-> _]. done.
  - cbn [List.concat]. unfold maxima_of. rewrite fmap_app, bind_app. apply covers_app; [|done].
    eapply (covers_same _ _ _ (max_of_batch sel)); [done| |rewrite max_of_batch_entries; by apply max_merge_covers].
    intros e. symmetry. apply grouped_entries; [apply max_of_batch_wf|]. intros d. cbn [maxima_in]. by rewrite decide_True.
Qed.

Lemma names_grouped c (files : list (list Account)) :
  ∃ named, mapR (λ l, UC2BankNames_group_by (Accounts c l)) files = Ok named ∧ Forall (λ m, is_names m.1 ∧ body_client m.1 = Some c) (List.concat named) ∧
    covers same_bank ((λ a, (bank_id a, bank_name a)) <$> List.concat files) (names_of c (List.concat named)).
Proof.
  induction files as [|l files IH].
  { exists []. split; [done|]. split; [constructor|]. split; [done|by intros e ?%not_elem_of_nil]. }
  destruct IH as (named & E & Hm & Hc). cbn [List.concat]. rewrite fmap_app.
  eexists (_ :: named). split; [|split].
  - cbn [mapR]. rewrite E. reflexivity.
  - cbn [List.concat]. apply Forall_app. split; [|done]. apply Forall_forall. intros [b a] Hb.
    apply elem_yield_groups in Hb as [-> _]; [done|apply dset_append|apply dict_of_wf].
  - cbn [List.concat]. unfold names_of. rewrite fmap_app, bind_app. apply covers_app; [|done].
    eapply (covers_same _ _ _ (dict_of ((λ a, (bank_id a, bank_name a)) <$> l))); [done| |apply dict_of_covers].
    intros e. symmetry. apply grouped_entries; [apply dict_of_wf|]. intros d. cbn [names_in]. by rewrite decide_True.
Qed.

(** *** The aggregates *)

Lemma dget_or_client {V} (d : pydict uuid (list V)) c v c' :
  dget_or [] (dset (dsetdefault d c []) c v) c' = if decide (c = c') then v else dget_or [] d c'.
Proof. rewrite dget_or_dset_client. destruct (decide (c = c')); [done|]. apply dget_or_dsetdefault_client. Qed.

Lemma maxima_run c msgs : Forall is_maxima msgs → ∀ st, ∃ st', aggregate_all UC2MaxAmountAggregateFn st msgs = Ok st' ∧
  dget_or [] st' c = max_merge (dget_or [] st c) (msgs ≫= maxima_in c).
Proof.
  induction 1 as [|b msgs Hb _ IH]; intros st; [by exists st|]. destruct b; try done. rename client_id into c', data into d.
  cbn [aggregate_all aggregate UC2MaxAmountAggregateFn UC2MaxAmount_aggregate mbind res_bind].
  destruct (IH (dset (dsetdefault st c' []) c' (max_merge (dget_or [] (dsetdefault st c' []) c') d))) as (st' & E & Hst').
  exists st'. split; [exact E|]. rewrite Hst', dget_or_client. cbn [list_bind maxima_in].
  rewrite dget_or_dsetdefault_client. destruct (decide (c' = c)) as [->|]; [by rewrite max_merge_app|done].
Qed.

Lemma names_run c msgs : Forall is_names msgs → ∀ st, ∃ st', aggregate_all UC2BankNamesAggregateFn st msgs = Ok st' ∧
  dget_or [] st' c = dupdate (dget_or [] st c) (msgs ≫= names_in c).
Proof.
  induction 1 as [|b msgs Hb _ IH]; intros st; [by exists st|]. destruct b; try done. rename client_id into c', data into d.
  cbn [aggregate_all aggregate UC2BankNamesAggregateFn UC2BankNames_aggregate mbind res_bind].
  destruct (IH (dset (dsetdefault st c' []) c' (dupdate (dget_or [] (dsetdefault st c' []) c') d))) as (st' & E & Hst').
  exists st'. split; [exact E|]. rewrite Hst', dget_or_client. cbn [list_bind names_in].
  rewrite dget_or_dsetdefault_client. destruct (decide (c' = c)) as [->|]; [by rewrite dupdate_app|done].
Qed.

(** Results: one message for each entry, with the hash of its bank. *)
Definition routed_by_bank {V} (mk : string → V → Body) (out : list (Body * Z)) : Prop :=
  ∀ m, m ∈ out → ∃ bank v, m = (mk bank v, hash_str bank).

Lemma maxima_node_ok c msgs : Forall is_maxima msgs → ∃ out, maxima_node c msgs = Ok out ∧
  maxima_of c out = max_merge [] (msgs ≫= maxima_in c) ∧ routed_by_bank (λ bank m, MaxByBank c [(bank, m)]) out.
Proof.
  intros Hm. destruct (maxima_run c msgs Hm []) as (st & E & Hst). destruct (max_result st c) as (st' & Er).
  exists (max_results c (dget_or [] st c)). unfold maxima_node. rewrite E. cbn [mbind res_bind]. rewrite Er. split; [done|]. rewrite Hst.
  change (dget_or [] [] c) with (@nil (string * (string * float))). generalize (max_merge [] (msgs ≫= maxima_in c)) as d. intros d. unfold max_results. split.
  - unfold maxima_of. induction d as [|[b [a p]] d IH]; [done|]. rewrite !fmap_cons. cbn [mbind list_bind maxima_in fst]. rewrite decide_True by done.
    cbn [app]. f_equal. exact IH.
  - intros m ([b [a p]] & -> & _)%list_elem_of_fmap. by exists b, (a, p).
Qed.

Lemma names_node_ok c msgs : Forall is_names msgs → ∃ out, names_node c msgs = Ok out ∧
  names_of c out = dict_of (msgs ≫= names_in c) ∧ routed_by_bank (λ bank n, BankNames c [(bank, n)]) out.
Proof.
  intros Hm. destruct (names_run c msgs Hm []) as (st & E & Hst). unfold names_node. rewrite E. cbn [mbind res_bind].
  exists ((λ e, (BankNames c [(e.1, e.2)], hash_str e.1)) <$> dget_or [] st c). split.
  { unfold UC2BankNames_get_result, dget_or. by destruct (dget st c). }
  rewrite Hst. change (dupdate (dget_or [] [] c) (msgs ≫= names_in c)) with (dict_of (msgs ≫= names_in c)).
  generalize (dict_of (msgs ≫= names_in c)) as d. intros d. split.
  - unfold names_of. induction d as [|[b n] d IH]; [done|]. rewrite !fmap_cons. cbn [mbind list_bind names_in fst snd]. rewrite decide_True by done.
    cbn [app]. f_equal. exact IH.
  - intros m ([b n] & -> & _)%list_elem_of_fmap. by exists b, n.
Qed.

(** The messages of a client are its mail. *)
Lemma mail_bind {E B} (mail : E → option Body) (inside : E → list B) (inside' : Body → list B) (es : list E) :
  (∀ e, inside e = match mail e with Some b => inside' b | None => [] end) → es ≫= inside = omap mail es ≫= inside'.
Proof.
  intros He. induction es as [|e es IH]; [done|]. cbn [mbind list_bind omap list_omap]. rewrite He, IH. by destruct (mail e).
Qed.

Lemma client_mail_in {B} c (inside : Body → list B) : (∀ b, body_client b ≠ Some c → inside b = []) →
  ∀ b, inside b = match client_mail c b with Some b => inside b | None => [] end.
Proof. intros Hi b. unfold client_mail. destruct (decide (body_client b = Some c)) as [|Hn]; [done|by apply Hi]. Qed.

Lemma maxima_in_other c b : body_client b ≠ Some c → maxima_in c b = [].
Proof. destruct b; try done. intros Hn. cbn [maxima_in body_client] in *. by rewrite decide_False by congruence. Qed.
Lemma names_in_other c b : body_client b ≠ Some c → names_in c b = [].
Proof. destruct b; try done. intros Hn. cbn [names_in body_client] in *. by rewrite decide_False by congruence. Qed.

(** What a fleet takes of a client, all together. *)
Lemma fleet_entries {E B} (mail : E → option Body) (inside : E → list B) (inside' : Body → list B) k out (evs : list (list E)) :
  0 < k → fed mail k out evs → (∀ e, inside e = match mail e with Some b => inside' b | None => [] end) →
  List.concat ((λ es, es ≫= inside) <$> evs) ≡ₚ out.*1 ≫= inside'.
Proof.
  intros Hk Hfed He. rewrite <- (fed_all mail k out evs Hk Hfed). apply reflexive_eq. clear Hfed.
  induction evs as [|es evs IH]; [done|]. rewrite !fmap_cons. cbn [List.concat]. rewrite bind_app, <- IH. f_equal. by apply mail_bind.
Qed.

Lemma maxima_stage n c out mevs : fleets_ok n → fed (client_mail c) (n_maxima n) out mevs → Forall (Forall is_maxima) mevs → no_nan (maxima_of c out) →
  ∃ maxima, mapR (maxima_node c) mevs = Ok maxima ∧ covers not_below (maxima_of c out) (maxima_of c (List.concat maxima)) ∧
    routed_by_bank (λ bank m, MaxByBank c [(bank, m)]) (List.concat maxima).
Proof.
  intros (Hk & _) Hfed Hm Hn. pose proof (fleet_entries _ _ _ _ _ _ Hk Hfed (client_mail_in c _ (maxima_in_other c))) as Hp. unfold maxima_of at 1 in Hn.
  rewrite <- Hp in Hn. destruct (mapR_total (maxima_node c) (λ msgs o, maxima_of c o = max_merge [] (msgs ≫= maxima_in c) ∧
    routed_by_bank (λ bank m, MaxByBank c [(bank, m)]) o) mevs) as (maxima & E & HF).
  { intros msgs Hin. rewrite Forall_forall in Hm. destruct (maxima_node_ok c msgs (Hm _ Hin)) as (o & ? & ? & ?). by exists o. }
  exists maxima. split; [done|]. split.
  - unfold maxima_of at 1. apply (covers_same _ (List.concat ((λ msgs, msgs ≫= maxima_in c) <$> mevs)) _ (maxima_of c (List.concat maxima)));
      [by intros e; rewrite Hp|done|]. rewrite maxima_of_concat. apply covers_concat. clear -HF Hn.
    induction HF as [|msgs o mevs maxima [Ho _] _ IH]; [constructor|]. rewrite !fmap_cons in *. cbn [List.concat] in Hn. apply Forall_app in Hn as [Hn1 Hn2].
    constructor; [rewrite Ho; by apply max_merge_covers|by apply IH].
  - intros m (o & Ho & Hmo)%elem_concat. destruct (Forall2_elem_r _ _ _ _ HF Ho) as (msgs & _ & _ & Hr). by apply Hr.
Qed.

Lemma names_stage n c out nevs : fleets_ok n → fed (client_mail c) (n_names n) out nevs → Forall (Forall is_names) nevs →
  ∃ names, mapR (names_node c) nevs = Ok names ∧ covers same_bank (names_of c out) (names_of c (List.concat names)) ∧
    routed_by_bank (λ bank m, BankNames c [(bank, m)]) (List.concat names).
Proof.
  intros (_ & Hk & _) Hfed Hm. pose proof (fleet_entries _ _ _ _ _ _ Hk Hfed (client_mail_in c _ (names_in_other c))) as Hp.
  destruct (mapR_total (names_node c) (λ msgs o, names_of c o = dict_of (msgs ≫= names_in c) ∧
    routed_by_bank (λ bank m, BankNames c [(bank, m)]) o) nevs) as (names & E & HF).
  { intros msgs Hin. rewrite Forall_forall in Hm. destruct (names_node_ok c msgs (Hm _ Hin)) as (o & ? & ? & ?). by exists o. }
  exists names. split; [done|]. split.
  - unfold names_of at 1. apply (covers_same _ (List.concat ((λ msgs, msgs ≫= names_in c) <$> nevs)) _ (names_of c (List.concat names)));
      [by intros e; rewrite Hp|done|]. rewrite names_of_concat. apply covers_concat. clear -HF.
    induction HF as [|msgs o nevs names [Ho _] _ IH]; [constructor|]. rewrite !fmap_cons in *.
    constructor; [rewrite Ho; apply dict_of_covers|by apply IH].
  - intros m (o & Ho & Hmo)%elem_concat. destruct (Forall2_elem_r _ _ _ _ HF Ho) as (msgs & _ & _ & Hr). by apply Hr.
Qed.

(** *** The merges *)

Lemma client_maxima_mail c es : client_maxima c es = omap (left_bank_mail c) es ≫= maxima_in c.
Proof.
  unfold client_maxima. induction es as [|[c' d|c' d] es IH]; [done|..]; cbn [fmap list_fmap List.concat omap list_omap left_bank_mail]; rewrite IH; [|done].
  destruct (decide (c' = c)); [|done]. cbn [mbind list_bind maxima_in]. by rewrite decide_True.
Qed.

Lemma client_names_mail c es : client_names c es = omap (right_bank_mail c) es ≫= names_in c.
Proof.
  unfold client_names. induction es as [|[c' d|c' d] es IH]; [done|..]; cbn [fmap list_fmap List.concat omap list_omap right_bank_mail]; rewrite IH; [done|].
  destruct (decide (c' = c)); [|done]. cbn [mbind list_bind names_in]. by rewrite decide_True.
Qed.

(** An instance gets the entries of its banks. *)
Lemma routed_elem {V} (mk : string → V → Body) (inside : Body → list (string * V)) k i (out : list (Body * Z)) e :
  routed_by_bank mk out → (∀ bank v, inside (mk bank v) = [(bank, v)]) →
  e ∈ shard_mail k i out ≫= inside ↔ e ∈ out.*1 ≫= inside ∧ hash_str e.1 mod k = i.
Proof.
  intros Hr Hin. rewrite !list_elem_of_bind. split.
  - intros (b & He & (a & Hb & Ha)%shard_mail_elem). destruct (Hr _ Hb) as (bank & v & [= -> ->]). rewrite Hin in He.
    apply list_elem_of_singleton in He as ->. split; [|done]. exists (mk bank v). rewrite Hin. split; [left|]. apply list_elem_of_fmap. by eexists (_, _).
  - intros ((b & He & ([b' a] & -> & Hb)%list_elem_of_fmap) & Ha). destruct (Hr _ Hb) as (bank & v & [= -> ->]). cbn [fst] in He.
    exists (mk bank v). rewrite Hin in He |- *. apply list_elem_of_singleton in He as ->. split; [left|]. apply shard_mail_elem. by exists (hash_str bank).
Qed.

(** What is left of the entries of both sides when they are joined. *)
Record joined (M : list (string * (string * float))) (N : list (string * string)) (rows : list merged_row) : Prop := {
  j_once : NoDup ((λ e, e.1.1.1) <$> rows);
  j_row : ∀ bank acc amt name, (bank, acc, amt, name) ∈ rows →
    (bank, (acc, amt)) ∈ M ∧ (∀ e, e ∈ M → e.1 = bank → flt amt e.2.2 = false) ∧ (bank, name) ∈ N;
  j_all : ∀ bank, bank ∈ M.*1 → bank ∈ N.*1 → ∃ acc amt name, (bank, acc, amt, name) ∈ rows
}.

Lemma bank_node_ok c es : no_nan (client_maxima c es) → ∃ rows, bank_node c es = Ok [MergedBankData c rows] ∧
  joined (client_maxima c es) (client_names c es) rows.
Proof.
  intros Hn. destruct (bank_run es) as (st & E & Hst). destruct (Hst c) as [H1 H2]. unfold bank_node. rewrite E. cbn [mbind res_bind].
  unfold UC2Merge_get_result. cbn [mbind res_bind]. rewrite H1, H2. eexists. split; [reflexivity|].
  pose proof (max_merge_wf [] (client_maxima c es) nil_wf) as Hwf. split.
  - by apply merged_entries_banks.
  - intros bank acc amt name [Hg Hl]%elem_merged_entries; [|done]. pose proof (max_merge_is_max (client_maxima c es) bank Hn) as Hm.
    rewrite Hg in Hm. destruct Hm as [Hin Hmax]. split; [done|]. split; [exact Hmax|]. apply dict_of_last in Hl as (N1 & N2 & -> & _). set_solver.
  - intros bank ((b & m) & -> & Hmax)%list_elem_of_fmap ((b' & nm) & Hb & Hname)%list_elem_of_fmap. cbn [fst] in *. subst b'.
    pose proof (max_merge_is_max (client_maxima c es) b Hn) as Hi. unfold is_max in Hi.
    destruct (dget (max_merge [] (client_maxima c es)) b) as [[acc amt]|] eqn:Eg; [|by destruct (Hi _ Hmax)].
    destruct (last_name_exists b nm _ Hname) as (name & Hl). exists acc, amt, name. apply elem_merged_entries; [done|]. split; [done|]. by apply dict_of_last.
Qed.

Lemma joined_same M M' N N' rows : (∀ e, e ∈ M ↔ e ∈ M') → (∀ e, e ∈ N ↔ e ∈ N') → joined M N rows → joined M' N' rows.
Proof.
  intros HM HN [H1 H2 H3]. split; [done|..].
  - intros bank acc amt name Hin. destruct (H2 _ _ _ _ Hin) as (Ha & Hb & Hc). split_and!; [by apply HM| |by apply HN].
    intros e He. by apply Hb, HM.
  - intros bank (e & -> & He)%list_elem_of_fmap (e' & E & He')%list_elem_of_fmap.
    apply H3; [apply list_elem_of_fmap; exists e|rewrite E; apply list_elem_of_fmap; exists e']; (split; [done|]); [by apply HM|by apply HN].
Qed.

(** The entries of the banks of an instance. *)
Definition of_shard {V} (k i : Z) (l : list (string * V)) : list (string * V) := filter (λ e, hash_str e.1 mod k = i) l.

Lemma elem_of_shard {V} k i (l : list (string * V)) e : e ∈ of_shard k i l ↔ e ∈ l ∧ hash_str e.1 mod k = i.
Proof. unfold of_shard. rewrite list_elem_of_filter. naive_solver. Qed.

(** Every instance joins its names with all the maxima. *)
Lemma joined_shards k M N (shards : list (list merged_row)) : 0 < k → length shards = Z.to_nat k →
  (∀ i rows, shards !! i = Some rows → joined M (of_shard k (Z.of_nat i) N) rows) → joined M N (List.concat shards).
Proof.
  intros Hk Hlen Hs. split.
  - rewrite fmap_concat. apply (NoDup_concat_at (λ bank, hash_str bank mod k) _ 0). intros i l Hl.
    apply list_lookup_fmap_Some in Hl as (rows & -> & Hi). destruct (Hs i rows Hi) as [Hnd Hrow _]. split; [done|].
    intros bank ([[[b acc] amt] name] & -> & Hin)%list_elem_of_fmap. apply Hrow in Hin as (_ & _ & [_ Hin]%elem_of_shard). exact Hin.
  - intros bank acc amt name (rows & (i & Hi)%list_elem_of_lookup & Hin)%elem_concat. destruct (Hs i rows Hi) as [_ Hrow _].
    by destruct (Hrow _ _ _ _ Hin) as (H1 & H2 & [H3 _]%elem_of_shard).
  - intros bank Hm ([b nm] & -> & Hnm)%list_elem_of_fmap. cbn [fst] in Hm |- *.
    pose proof (Z.mod_pos_bound (hash_str b) _ Hk) as Hb. set (i := Z.to_nat (hash_str b mod k)).
    destruct (lookup_lt_is_Some_2 shards i) as [rows Hi]; [unfold i; lia|]. destruct (Hs i rows Hi) as [_ _ Hall].
    destruct (Hall b Hm) as (acc & amt & name & Hin).
    + apply list_elem_of_fmap. exists (b, nm). rewrite elem_of_shard. cbn [fst]. unfold i. split; [done|]. split; [done|lia].
    + exists acc, amt, name. apply elem_concat. exists rows. split; [by eapply list_elem_of_lookup_2|done].
Qed.

Lemma merge_stage n c mout nout bevs : fleets_ok n → no_nan (maxima_of c mout) → routed_by_bank (λ bank m, BankNames c [(bank, m)]) nout →
  (∀ es, es ∈ bevs → omap (left_bank_mail c) es ≡ₚ mout.*1) → fed (right_bank_mail c) (n_bank_merges n) nout bevs →
  ∃ shards, mapR (bank_node c) bevs = Ok ((λ rows, [MergedBankData c rows]) <$> shards) ∧
    joined (maxima_of c mout) (names_of c nout) (List.concat shards).
Proof.
  intros (_ & _ & Hk) Hn Hr Hl Hf. set (k := n_bank_merges n) in *.
  assert (HM : ∀ es, es ∈ bevs → ∀ e, e ∈ client_maxima c es ↔ e ∈ maxima_of c mout).
  { intros es Hes e. by rewrite client_maxima_mail, (Hl es Hes). }
  assert (HN : ∀ i es, bevs !! i = Some es → ∀ e, e ∈ client_names c es ↔ e ∈ of_shard k (Z.of_nat i) (names_of c nout)).
  { intros i es Hi e. rewrite client_names_mail, (proj2 Hf i es Hi), elem_of_shard. apply (routed_elem _ _ _ _ _ _ Hr). intros. cbn [names_in]. by rewrite decide_True. }
  destruct (mapR_lookup (bank_node c) (λ rows, [MergedBankData c rows])
    (λ i rows, joined (maxima_of c mout) (of_shard k (Z.of_nat i) (names_of c nout)) rows) bevs) as (shards & E & Hlen & Hj).
  { intros i es Hi. pose proof (list_elem_of_lookup_2 _ _ _ Hi) as Hes. destruct (bank_node_ok c es) as (rows & Er & J).
    - unfold no_nan in *. rewrite Forall_forall in Hn |- *. intros e He%(HM es Hes). by apply Hn.
    - exists rows. split; [done|]. exact (joined_same _ _ _ _ _ (HM es Hes) (HN i es Hi) J). }
  exists shards. split; [done|]. apply (joined_shards k); [done|exact (eq_trans Hlen (proj1 Hf))|exact Hj].
Qed.

(** *** The answer *)

Lemma joined_perm M N rows rows' : rows ≡ₚ rows' → joined M N rows → joined M N rows'.
Proof.
  intros Hp [H1 H2 H3]. split; [by rewrite <- Hp|..].
  - intros bank acc amt name. rewrite <- Hp. apply H2.
  - intros bank Hm Hn. destruct (H3 bank Hm Hn) as (acc & amt & name & Hin). exists acc, amt, name. by rewrite <- Hp.
Qed.

(** Joining summaries is joining what they summarise. *)
Lemma joined_covers S M A N rows : no_nan S → covers not_below S M → covers same_bank A N → joined M N rows → joined S A rows.
Proof.
  intros Hn [HM1 HM2] [HN1 HN2] [H1 H2 H3]. split; [done|..].
  - intros bank acc amt name Hin. destruct (H2 _ _ _ _ Hin) as (Ha & Hb & Hc). split_and!; [by apply HM1| |by apply HN1].
    intros e He Eb. destruct (HM2 e He) as (e' & He' & Eb' & Hlt). apply (nlt_trans _ e'.2.2); [|done|by apply Hb; [|congruence]].
    unfold no_nan in Hn. rewrite Forall_forall in Hn. by apply Hn, HM1.
  - intros bank (e & -> & He)%list_elem_of_fmap (a & Ea & Ha)%list_elem_of_fmap.
    destruct (HM2 e He) as (e' & He' & E & _). destruct (HN2 a Ha) as (a' & Ha' & E'). unfold same_bank in E'.
    apply H3; apply list_elem_of_fmap; [exists e'|exists a']; split; congruence.
Qed.

(** Two joins of the same entries differ by the order and by ties. Of two payments that
    tie the accounts differ, so [tied] leaves them out: that the account of a row made
    the payment is [j_row] of each join. *)
Definition tied (x y : merged_row) : Prop :=
  let '(bank, _, paid, name) := x in let '(bank', _, paid', name') := y in
  bank = bank' ∧ name = name' ∧ flt paid paid' = false ∧ flt paid' paid = false.

Lemma joined_match S A rows rows' : (∀ a a', a ∈ A → a' ∈ A → a.1 = a'.1 → a = a') →
  joined S A rows → joined S A rows' → ∃ sorted, rows ≡ₚ sorted ∧ Forall2 tied sorted rows'.
Proof.
  intros HA J J'. assert (Hkeys : ∀ r r', joined S A r → joined S A r' → ∀ bank, bank ∈ (λ e, e.1.1.1) <$> r → bank ∈ (λ e, e.1.1.1) <$> r').
  { intros r r' [_ Hr _] [_ _ Hall] bank ([[[b acc] amt] name] & -> & Hin)%list_elem_of_fmap. destruct (Hr _ _ _ _ Hin) as (H1 & _ & H3).
    cbn [fst]. destruct (Hall b) as (acc' & amt' & name' & Hin').
    - apply list_elem_of_fmap. by exists (b, (acc, amt)).
    - apply list_elem_of_fmap. by exists (b, name).
    - apply list_elem_of_fmap. by exists (b, acc', amt', name'). }
  assert (Hp : (λ e : merged_row, e.1.1.1) <$> rows' ≡ₚ (λ e : merged_row, e.1.1.1) <$> rows).
  { apply NoDup_Permutation; [apply J'|apply J|]. intros bank. split; by apply Hkeys. }
  apply Permutation_map_inv in Hp as (sorted & E & Hp).
  assert (E' : (λ e : merged_row, e.1.1.1) <$> rows' = (λ e : merged_row, e.1.1.1) <$> sorted) by exact E. exists sorted. split; [done|]. pose proof (joined_perm _ _ _ _ Hp J) as Js.
  apply Forall2_same_length_lookup_2.
  { pose proof (f_equal length E') as El. by rewrite !length_fmap in El. }
  intros i x y Hx Hy. assert (Ek : x.1.1.1 = y.1.1.1).
  { pose proof (f_equal (λ l, l !! i) E') as Ei. cbn beta in Ei. rewrite !list_lookup_fmap, Hx, Hy in Ei. by injection Ei. }
  destruct x as [[[b acc] amt] name], y as [[[b' acc'] amt'] name']. cbn [fst] in Ek. subst b'.
  apply list_elem_of_lookup_2 in Hx, Hy. destruct (j_row _ _ _ Js _ _ _ _ Hx) as (H1 & H2 & H3), (j_row _ _ _ J' _ _ _ _ Hy) as (H1' & H2' & H3').
  split; [done|]. split; [|split; [by apply (H2 (b, (acc', amt')))|by apply (H2' (b, (acc, amt)))]].
  by injection (HA (b, name) (b, name') H3 H3' eq_refl).
Qed.

Lemma merged_rows c (shards : list (list merged_row)) els : filter (λ b, body_client b = Some c) els ≡ₚ List.concat ((λ rows, [MergedBankData c rows]) <$> shards) →
  els ≫= entries_for c ≡ₚ List.concat shards.
Proof.
  intros Hp. assert (E : els ≫= entries_for c = filter (λ b, body_client b = Some c) els ≫= entries_for c).
  { clear. induction els as [|b els IH]; [done|]. rewrite filter_cons. cbn [mbind list_bind]. rewrite IH.
    destruct (decide (body_client b = Some c)) as [|Hn]; [done|]. destruct b; try done. cbn [entries_for body_client] in *. by rewrite decide_False by congruence. }
  rewrite E, Hp. apply reflexive_eq. clear. induction shards as [|rows shards IH]; [done|]. rewrite fmap_cons. cbn [List.concat app mbind list_bind entries_for].
  rewrite decide_True by done. by f_equal.
Qed.

Definition uc2_text (c : uuid) (rows : list merged_row) : list Body := [response c (text_body "--- UC2 ---" uc2_row rows +:+ nl) true].

Lemma joined_answer c els shards st : Forall is_merged els →
  filter (λ b, body_client b = Some c) els ≡ₚ List.concat ((λ rows, [MergedBankData c rows]) <$> shards) → join_run UC2Join [] els = Ok st →
  ∃ rows, rows ≡ₚ List.concat shards ∧ get_responses UC2Join st c = Ok (ddel st c, uc2_text c rows).
Proof.
  intros Hels Hp Hst. destruct (uc2_run els [] c Hels) as (st' & E & Hd). rewrite Hst in E. injection E as <-.
  exists (els ≫= entries_for c). split; [by apply merged_rows|]. unfold get_responses, UC2Join, one_response, uc2_get_response, uc2_text.
  by rewrite Hd.
Qed.

Definition account_entries (files : list (list Account)) : list (string * string) := (λ a, (bank_id a, bank_name a)) <$> List.concat files.
Definition usd_entries (batches : list (list Transaction)) : list (string * (string * float)) :=
  tx_entries (filter (λ t, uc2_selects t = true) (List.concat batches)).

Lemma uc2_answer_joined n c batches files responses : fleets_ok n → no_nan (usd_entries batches) → uc2_answer n c batches files responses →
  ∃ rows, responses = uc2_text c rows ∧ joined (usd_entries batches) (account_entries files) rows.
Proof.
  intros Hok Hn [grouped mevs maxima named nevs names bevs merged els st st' Eg Fm Hm Em Ed Fn Hnm En F1 F2 Eb Hels Hp Est Er].
  destruct (maxima_grouped c batches Hn) as (grouped' & Eg' & _ & Cg). rewrite Eg in Eg'. injection Eg' as <-.
  destruct (names_grouped c files) as (named' & Ed' & _ & Cn). rewrite Ed in Ed'. injection Ed' as <-.
  pose proof (covers_no_nan _ _ Hn Cg) as Hn1.
  destruct (maxima_stage n c _ _ Hok Fm Hm Hn1) as (maxima' & Em' & Cm & Rm). rewrite Em in Em'. injection Em' as <-.
  destruct (names_stage n c _ _ Hok Fn Hnm) as (names' & En' & Cnm & Rn). rewrite En in En'. injection En' as <-.
  destruct (merge_stage n c _ _ _ Hok (covers_no_nan _ _ Hn1 Cm) Rn F1 F2) as (shards & Eb' & J). rewrite Eb in Eb'. injection Eb' as ->.
  destruct (joined_answer c els shards st Hels Hp Est) as (rows & Hrows & Er'). rewrite Er in Er'. injection Er' as _ ->.
  exists rows. split; [done|]. apply (joined_perm _ _ (List.concat shards)); [done|].
  eapply (joined_covers _ _ _ _ _ Hn); [by apply (covers_maxima _ _ _ Hn Cg)| |exact J].
  eapply covers_trans; [|exact Cn|exact Cnm]. unfold same_bank. intros x y z _. apply eq_trans.
Qed.

(** An answer: the messages alone, in the order they were sent. *)
Definition to_left (b : Body) : bank_event := match b with MaxByBank c d => BankLeft c d | _ => BankLeft (uuid_lit 0) [] end.
Definition to_right (b : Body) : bank_event := match b with BankNames c d => BankRight c d | _ => BankRight (uuid_lit 0) [] end.

Lemma omap_sides {E} (mail : E → option Body) (f g : Body → E) (l l' : list Body) :
  (∀ b, b ∈ l → mail (f b) = Some b) → (∀ b, b ∈ l' → mail (g b) = None) → omap mail ((f <$> l) ++ (g <$> l')) = l.
Proof.
  intros Hf Hg. rewrite omap_app. assert (omap mail (g <$> l') = []) as ->.
  { induction l' as [|b l' IH]; [done|]. cbn [fmap list_fmap omap list_omap]. rewrite Hg by left. apply IH. intros b' Hb'. apply Hg. by right. }
  rewrite app_nil_r. induction l as [|b l IH]; [done|]. cbn [fmap list_fmap omap list_omap]. rewrite Hf by left. f_equal. apply IH.
  intros b' Hb'. apply Hf. by right.
Qed.

Lemma both_sides n c mout nout : routed_by_bank (λ bank m, MaxByBank c [(bank, m)]) mout → routed_by_bank (λ bank m, BankNames c [(bank, m)]) nout →
  ∃ bevs, (∀ es, es ∈ bevs → omap (left_bank_mail c) es ≡ₚ mout.*1) ∧ fed (right_bank_mail c) (n_bank_merges n) nout bevs.
Proof.
  intros Hr1 Hr2. set (k := n_bank_merges n).
  exists ((λ i, (to_left <$> mout.*1) ++ (to_right <$> shard_mail k (Z.of_nat i) nout)) <$> List.seq 0 (Z.to_nat k)).
  assert (H1 : ∀ b, b ∈ mout.*1 → left_bank_mail c (to_left b) = Some b ∧ right_bank_mail c (to_left b) = None).
  { intros b ([b' a] & -> & Hb)%list_elem_of_fmap. destruct (Hr1 _ Hb) as (bank & v & [= -> ->]). cbn. by rewrite decide_True. }
  assert (H2 : ∀ i b, b ∈ shard_mail k i nout → right_bank_mail c (to_right b) = Some b ∧ left_bank_mail c (to_right b) = None).
  { intros i b (a & Hb & _)%shard_mail_elem. destruct (Hr2 _ Hb) as (bank & v & [= -> ->]). cbn. by rewrite decide_True. }
  split; [|split; [by rewrite length_fmap, length_seq|]].
  - intros es (i & -> & _)%list_elem_of_fmap.
    by rewrite (omap_sides (left_bank_mail c)) by (intros b Hb; first [by apply (H1 b Hb)|by apply (H2 _ b Hb)]).
  - intros i es (j & -> & [-> Hj]%lookup_seq)%list_lookup_fmap_Some. rewrite omap_app, Permutation_app_comm, <- omap_app.
    by rewrite (omap_sides (right_bank_mail c)) by (intros b Hb; first [by apply (H1 b Hb)|by apply (H2 _ b Hb)]).
Qed.

Lemma plain_fed c k (out : list (Body * Z)) (good : Body → Prop) : Forall (λ m, good m.1 ∧ body_client m.1 = Some c) out →
  ∃ evs, fed (client_mail c) k out evs ∧ Forall (Forall good) evs.
Proof.
  intros Ho. rewrite Forall_forall in Ho. exists ((λ i, id <$> shard_mail k (Z.of_nat i) out) <$> List.seq 0 (Z.to_nat k)). split.
  - apply feed_exists. intros b ([b' a] & -> & Hb)%list_elem_of_fmap. unfold client_mail, id. by rewrite decide_True by apply (Ho _ Hb).
  - apply Forall_forall. intros es Hes. apply Forall_forall. intros b Hb.
    destruct (feed_events k out id es b Hes Hb) as (b' & ([b'' a] & -> & Hb'')%list_elem_of_fmap & ->). by apply (Ho _ Hb'').
Qed.

Lemma uc2_answer_exists n c batches files : fleets_ok n → no_nan (usd_entries batches) → ∃ responses, uc2_answer n c batches files responses.
Proof.
  intros Hok Hn. destruct (maxima_grouped c batches Hn) as (grouped & Eg & Fg & Cg). destruct (names_grouped c files) as (named & Ed & Fd & Cn).
  pose proof (covers_no_nan _ _ Hn Cg) as Hn1. destruct (plain_fed c (n_maxima n) _ _ Fg) as (mevs & Fm & Hm).
  destruct (plain_fed c (n_names n) _ _ Fd) as (nevs & Fn & Hnm). destruct (maxima_stage n c _ _ Hok Fm Hm Hn1) as (maxima & Em & Cm & Rm).
  destruct (names_stage n c _ _ Hok Fn Hnm) as (names & En & Cnm & Rn). destruct (both_sides n c _ _ Rm Rn) as (bevs & F1 & F2).
  destruct (merge_stage n c _ _ _ Hok (covers_no_nan _ _ Hn1 Cm) Rn F1 F2) as (shards & Eb & J).
  set (els := List.concat ((λ rows, [MergedBankData c rows]) <$> shards)).
  assert (Hels : Forall (λ b, is_merged b ∧ body_client b = Some c) els).
  { unfold els. apply Forall_forall. intros b (l & (rows & -> & _)%list_elem_of_fmap & Hb)%elem_concat. by apply list_elem_of_singleton in Hb as ->. }
  assert (Hmine : filter (λ b, body_client b = Some c) els ≡ₚ els).
  { rewrite filter_Forall_all; [done|]. eapply Forall_impl; [exact Hels|]. by intros b [_ Hb]. }
  assert (Hmg : Forall is_merged els) by (eapply Forall_impl; [exact Hels|]; by intros b [Hb _]).
  destruct (uc2_run els [] c Hmg) as (st & Est & _). destruct (joined_answer c els shards st Hmg Hmine Est) as (rows & _ & Er).
  eexists. econstructor; [exact Eg|exact Fm|exact Hm|exact Em|exact Ed|exact Fn|exact Hnm|exact En|exact F1|exact F2|exact Eb|exact Hmg|exact Hmine|exact Est|exact Er].
Qed.
End network.

(** ** The script *)

(** The accounts of a file, as the client parses them and as [read_csv] reads them. *)
Inductive account_row (line : chars) (a : AccountRow) : Prop :=
  | account_read bank account entity entity_name :
      str_split c_comma (str_of (rstrip_nl line)) = [a_bank_name a; bank; account; entity; entity_name] →
      int_str bank = Ok (a_bank_id a) → account_row line a.

Definition bank_entry (a : AccountRow) : string * string := (str_int (a_bank_id a), a_bank_name a).

Lemma parsed_account line r a : account_row line r → parse_account line = Ok a → (bank_id a, bank_name a) = bank_entry r.
Proof. intros [bank account entity entity_name Hs Hb]. unfold parse_account. rewrite Hs, Hb. cbn [mbind res_bind]. by intros [= <-]. Qed.

Definition row_entry (r : Row) : string * (string * float) := (str_int (r_from_bank r), (r_account r, r_amount_paid r)).

(** The table of the script, with the banks as text. *)
Definition text_keys (d : pydict Z (string * float)) : pydict string (string * float) := (λ e, (str_int e.1, e.2)) <$> d.

Lemma text_keys_dget d k : dget (text_keys d) (str_int k) = dget d k.
Proof.
  induction d as [|[k' v] d IH]; [done|]. unfold text_keys in *. rewrite fmap_cons. cbn [dget fst snd]. rewrite IH.
  destruct (decide (pyeq k' k)) as [E|E], (decide (pyeq (str_int k') (str_int k))) as [E'|E']; try done.
  - exfalso. apply E'. assert (k' = k) as -> by exact E. done.
  - exfalso. apply E. exact (str_int_inj _ _ E').
Qed.

Lemma text_keys_dset d k v : text_keys (dset d k v) = dset (text_keys d) (str_int k) v.
Proof.
  induction d as [|[k' v'] d IH]; [done|]. unfold text_keys in *. rewrite fmap_cons. cbn [dset fst snd].
  destruct (decide (pyeq k' k)) as [E|E], (decide (pyeq (str_int k') (str_int k))) as [E'|E']; rewrite ?fmap_cons; cbn [fst snd]; try done.
  - exfalso. apply E'. assert (k' = k) as -> by exact E. done.
  - exfalso. apply E. exact (str_int_inj _ _ E').
  - by rewrite IH.
Qed.

Lemma best_rows_text rows : ∀ best, text_keys (foldl best_row best rows) = max_merge (text_keys best) (row_entry <$> rows).
Proof.
  induction rows as [|r rows IH]; intros best; [done|]. rewrite fmap_cons. cbn [foldl]. rewrite IH.
  change (max_merge ?d (?e :: ?l)) with (max_merge (max_update d e.1 e.2.1 e.2.2) l). f_equal. unfold best_row, max_update. cbn [row_entry fst snd].
  rewrite text_keys_dget. destruct (dget best (r_from_bank r)) as [m|]; [destruct (flt m.2 _)|]; by rewrite ?text_keys_dset.
Qed.

(** The inner join of a table of banks, row by row. *)
Definition inner_rows (best : pydict Z (string * float)) (names : list AccountRow) : list merged_row :=
  best ≫= λ e, (λ a, (str_int e.1, e.2.1, e.2.2, a_bank_name a)) <$> (filter (λ a, a_bank_id a = e.1) names).

Lemma elem_inner_rows best names row : row ∈ inner_rows best names ↔
  ∃ k acc amt a, (k, (acc, amt)) ∈ best ∧ a ∈ names ∧ a_bank_id a = k ∧ row = (str_int k, acc, amt, a_bank_name a).
Proof.
  unfold inner_rows. rewrite list_elem_of_bind. split.
  - intros ([k [acc amt]] & (a & -> & [Ha Hin]%list_elem_of_filter)%list_elem_of_fmap & He). by exists k, acc, amt, a.
  - intros (k & acc & amt & a & He & Ha & Hk & ->). exists (k, (acc, amt)). split; [|done]. apply list_elem_of_fmap. exists a.
    split; [done|]. by apply list_elem_of_filter.
Qed.

Lemma inner_rows_once best names : NoDup best.*1 → NoDup (a_bank_id <$> names) → NoDup ((λ e : merged_row, e.1.1.1) <$> inner_rows best names).
Proof.
  intros Hb Hn. induction best as [|[k [acc amt]] best IH]; [apply NoDup_nil_2|]. apply NoDup_cons in Hb as [Hk Hb].
  unfold inner_rows. cbn [mbind list_bind]. rewrite fmap_app. fold (inner_rows best names). apply NoDup_app. split; [|split; [|by apply IH]].
  - rewrite <- list_fmap_compose. clear -Hn. induction names as [|a names IH]; [apply NoDup_nil_2|]. apply NoDup_cons in Hn as [Ha Hn].
    rewrite filter_cons. cbn [fst]. destruct (decide (a_bank_id a = k)) as [E|]; [|by apply IH]. rewrite filter_Forall_none; [apply NoDup_singleton|].
    apply Forall_forall. intros a' Ha' E'. apply Ha. apply list_elem_of_fmap. exists a'. split; [congruence|done].
  - intros bank (row & -> & (a & -> & _)%list_elem_of_fmap)%list_elem_of_fmap (row' & E & (k' & acc' & amt' & a' & He & _ & _ & ->)%elem_inner_rows)%list_elem_of_fmap.
    cbn [fst] in E. assert (k = k') as <- by exact (str_int_inj _ _ E). apply Hk. apply list_elem_of_fmap. by exists (k, (acc', amt')).
Qed.

Lemma inner_joined best names : NoDup best.*1 → NoDup (a_bank_id <$> names) → joined (text_keys best) (bank_entry <$> names) (inner_rows best names).
Proof.
  intros Hb Hn. split; [by apply inner_rows_once|..].
  - intros bank acc amt name (k & acc' & amt' & a & He & Ha & Hk & [= -> -> -> ->])%elem_inner_rows. split_and!.
    + apply list_elem_of_fmap. by exists (k, (acc', amt')).
    + intros e ([k' m] & -> & He')%list_elem_of_fmap Ek. cbn [fst snd] in *. assert (k' = k) as -> by exact (str_int_inj _ _ Ek).
      rewrite (NoDup_fst_inj best k m (acc', amt') Hb He' He). apply flt_irrefl.
    + apply list_elem_of_fmap. exists a. split; [|done]. unfold bank_entry. by rewrite Hk.
  - intros bank (e & -> & ([k [acc amt]] & -> & He)%list_elem_of_fmap)%list_elem_of_fmap (e' & E & (a & -> & Ha)%list_elem_of_fmap)%list_elem_of_fmap.
    cbn [fst bank_entry] in E |- *. assert (k = a_bank_id a) as -> by exact (str_int_inj _ _ E). exists acc, amt, (a_bank_name a). apply elem_inner_rows. by exists (a_bank_id a), acc, amt, a.
Qed.

Section script.
Context (rows_of_maxima : list Row → list Row) (drop_duplicate_banks : list AccountRow → list AccountRow).
Context (merge_on_bank : list (Z * string * float) → list AccountRow → list ((Z * string * float) * AccountRow)).

(** What the script asks of pandas: [idxmax] selects rows of its table, for each bank
    one that no row of the bank exceeds (there are numbers only in it);
    [drop_duplicates] keeps a row of each bank; [merge] is an inner join. *)
Record pandas : Prop := {
  pd_idxmax : ∀ l, Forall (λ r, is_nan (r_amount_paid r) = false) l →
    (∀ r, r ∈ rows_of_maxima l → r ∈ l) ∧
    ∀ r, r ∈ l → ∃ m, m ∈ rows_of_maxima l ∧ r_from_bank m = r_from_bank r ∧ flt (r_amount_paid m) (r_amount_paid r) = false;
  pd_drop_duplicates : ∀ l, NoDup (a_bank_id <$> drop_duplicate_banks l) ∧ (∀ a, a ∈ drop_duplicate_banks l → a ∈ l) ∧
    ∀ a, a ∈ l → a_bank_id a ∈ a_bank_id <$> drop_duplicate_banks l;
  pd_merge : ∀ l r, merge_on_bank l r ≡ₚ l ≫= λ x, (λ a, (x, a)) <$> (filter (λ a, a_bank_id a = x.1.1) r)
}.
Context (pd : pandas).

Definition usd_rows (chunks : list (list Row)) : list Row := filter (λ r, usd_row r = true) (List.concat chunks).

Lemma candidates chunks : no_nan (row_entry <$> usd_rows chunks) → ∃ cands,
  (∀ best, foldl (uc2_chunk rows_of_maxima) best chunks = foldl best_row best cands) ∧ covers not_below (row_entry <$> usd_rows chunks) (row_entry <$> cands).
Proof.
  unfold usd_rows. induction chunks as [|chunk chunks IH]; intros Hn.
  { exists []. split; [done|]. split; [done|by intros e ?%not_elem_of_nil]. }
  cbn [List.concat] in *. rewrite filter_app, fmap_app in *. apply Forall_app in Hn as [Hn Hn']. destruct (IH Hn') as (cands & E & Hc).
  set (usd := filter (λ r, usd_row r = true) chunk) in *.
  assert (∃ mine, (∀ best, uc2_chunk rows_of_maxima best chunk = foldl best_row best mine) ∧ covers not_below (row_entry <$> usd) (row_entry <$> mine)) as (mine & E1 & H1).
  { unfold uc2_chunk. fold usd. destruct usd as [|r0 usd'] eqn:Eu.
    - exists []. split; [done|]. split; [done|by intros e ?%not_elem_of_nil].
    - rewrite <- Eu in *. exists (rows_of_maxima usd). split; [by rewrite Eu|]. destruct (pd_idxmax pd usd) as [Hin Hmax].
      { unfold no_nan in Hn. by rewrite Forall_fmap in Hn. }
      split; [intros e (r & -> & Hr)%list_elem_of_fmap; apply list_elem_of_fmap; exists r; auto|].
      intros e (r & -> & Hr)%list_elem_of_fmap. destruct (Hmax r Hr) as (m & Hm & Hb & Hlt). exists (row_entry m).
      split; [apply list_elem_of_fmap; by exists m|]. split; [cbn [row_entry fst]; by rewrite Hb|done]. }
  exists (mine ++ cands). split; [|rewrite fmap_app; by apply covers_app].
  intros best. cbn [foldl]. by rewrite E, E1, foldl_app.
Qed.

(** A row of the script, as the network sends one. *)
Definition as_sent (e : Z * string * string * float) : merged_row :=
  let '(bank, account, name, paid) := e in (str_int bank, account, paid, name).

Lemma table_joined accounts chunks : no_nan (row_entry <$> usd_rows chunks) →
  joined (row_entry <$> usd_rows chunks) (bank_entry <$> accounts)
    (as_sent <$> uc2_streaming rows_of_maxima drop_duplicate_banks merge_on_bank accounts chunks).
Proof.
  intros Hn. destruct (candidates chunks Hn) as (cands & E & Hc). unfold uc2_streaming. rewrite E.
  set (best := foldl best_row [] cands). assert (Eb : text_keys best = max_merge [] (row_entry <$> cands)) by apply (best_rows_text cands []).
  pose proof (max_merge_covers _ (covers_no_nan _ _ Hn Hc)) as Hb. rewrite <- Eb in Hb. pose proof (covers_maxima _ _ _ Hn Hc Hb) as HS.
  assert (Hwf : NoDup best.*1).
  { apply (NoDup_fmap_1 str_int). assert (str_int <$> best.*1 = (text_keys best).*1) as -> by (unfold text_keys; by rewrite <- !list_fmap_compose).
    rewrite Eb. exact (NoDup_fmap_1 _ _ (max_merge_wf [] _ nil_wf)). }
  destruct (pd_drop_duplicates pd accounts) as (Hnd & Hin & Hall). set (names := drop_duplicate_banks accounts) in *.
  apply (joined_perm _ _ (inner_rows best names)).
  { set (rows := (λ e : Z * (string * float), (e.1, e.2.1, e.2.2)) <$> best).
    assert (Er : as_sent <$> ((λ m : (Z * string * float) * AccountRow, let '((from_bank, account, paid), a) := m in (from_bank, account, a_bank_name a, paid)) <$>
      merge_on_bank rows names) ≡ₚ inner_rows best names).
    { rewrite (pd_merge pd). apply reflexive_eq. unfold rows, inner_rows. clear. induction best as [|[k [acc amt]] best IH]; [done|].
      rewrite fmap_cons. cbn [mbind list_bind]. rewrite !fmap_app, IH. f_equal. by rewrite <- !list_fmap_compose. }
    rewrite <- Er. destruct best; [|done]. rewrite (pd_merge pd). done. }
  apply (joined_covers _ _ _ (bank_entry <$> names) _ Hn HS); [|by apply inner_joined]. split.
  - intros e (a & -> & Ha)%list_elem_of_fmap. apply list_elem_of_fmap. eauto.
  - intros e (a & -> & Ha)%list_elem_of_fmap. apply Hall in Ha as (a' & Ea & Ha')%list_elem_of_fmap. exists (bank_entry a').
    split; [apply list_elem_of_fmap; eauto|]. unfold same_bank, bank_entry. cbn [fst]. by rewrite Ea.
Qed.

(** ** The same banks *)

Lemma same_usd rows ts : Forall2 same_transfer rows ts →
  tx_entries (filter (λ t, uc2_selects t = true) ts) = row_entry <$> (filter (λ r, usd_row r = true) rows).
Proof.
  induction 1 as [|r t rows ts [_ _ [Hf Hfa] _ Ha Hc _] _ IH]; [done|]. rewrite !filter_cons.
  assert (E : uc2_selects t = usd_row r) by (unfold uc2_selects, usd_row; by rewrite Hc). rewrite E.
  destruct (decide (usd_row r = true)); [|done]. unfold tx_entries in *. rewrite !fmap_cons, IH. unfold row_entry. by rewrite Hf, Hfa, Ha.
Qed.

Lemma same_accounts lines rows accounts : Forall2 account_row lines rows → Forall2 (λ line a, parse_account line = Ok a) lines accounts →
  (λ a, (bank_id a, bank_name a)) <$> accounts = bank_entry <$> rows.
Proof.
  intros H. revert accounts. induction H as [|line r lines rows Hr _ IH]; intros accounts Ha; inversion_clear Ha as [|? a ? ? Ha1 Ha2]; [done|].
  rewrite !fmap_cons, (IH _ Ha2). f_equal. by apply (parsed_account line).
Qed.

(** No two payments of a bank compare as equal, except of one account and one amount. *)
Definition no_ties (ts : list Transaction) : Prop := ∀ t u, t ∈ ts → u ∈ ts → uc2_selects t = true → uc2_selects u = true →
  from_bank t = from_bank u → flt (amount_paid t) (amount_paid u) = false → flt (amount_paid u) (amount_paid t) = false →
  from_account t = from_account u ∧ amount_paid t = amount_paid u.

Lemma tied_rows ts A rows rows' : no_ties ts → let S := tx_entries (filter (λ t, uc2_selects t = true) ts) in
  joined S A rows → joined S A rows' → Forall2 tied rows rows' → rows = rows'.
Proof.
  intros Hnt S J J' Ht. apply list_eq_Forall2, Forall2_same_length_lookup_2; [by eapply Forall2_length|].
  intros i [[[b acc] amt] name] y Hx Hy. destruct (Forall2_lookup_l _ _ _ _ _ Ht Hx) as (y' & Hy' & Hxy). rewrite Hy in Hy'. injection Hy' as <-.
  destruct y as [[[b' acc'] amt'] name']. destruct Hxy as (<- & <- & H1 & H2).
  destruct (j_row _ _ _ J _ _ _ _ (list_elem_of_lookup_2 _ _ _ Hx)) as (Hin & _), (j_row _ _ _ J' _ _ _ _ (list_elem_of_lookup_2 _ _ _ Hy)) as (Hin' & _).
  apply elem_tx_entries in Hin as (t & [Hs Ht1]%list_elem_of_filter & [= -> -> ->]), Hin' as (u & [Hs' Ht2]%list_elem_of_filter & [= Eb -> ->]).
  by destruct (Hnt t u Ht1 Ht2 Hs Hs' Eb H1 H2) as [-> ->].
Qed.

(** C6: UC2 agrees with the script that computes the expected answers
    ([_uc2_streaming]), for any pandas that does what it documents. For files whose
    lines the client parses into the transactions and accounts of its batches, in any
    order, which hold numbers only and give each bank one name, and the script reads in
    chunks of any size: there is an answer of the network, and whatever way the messages
    are spread over the instances and interleaved with other clients', every answer is
    one response, marked last, that lists the banks of the script, each once, with the
    name, the amount of a largest payment, which compares equal to the script's, and the
    account that made it. The account may be another one when two payments tie: without
    ties the rows are those of the script, in some order. *)
Theorem uc2_matches_oracle `{PyHash} (n : BankFleets) (c : uuid) (lines account_lines : list chars) (chunks : list (list Row))
    (account_rows : list AccountRow) (ts : list Transaction) (accounts : list Account)
    (batches : list (list Transaction)) (files : list (list Account)) :
  fleets_ok n → Forall2 line_row lines (List.concat chunks) → Forall2 (λ line t, parse_transaction line = Ok t) lines ts →
  Forall2 account_row account_lines account_rows → Forall2 (λ line a, parse_account line = Ok a) account_lines accounts →
  List.concat batches ≡ₚ ts → List.concat files ≡ₚ accounts →
  Forall (λ r, is_nan (r_amount_paid r) = false) (List.concat chunks) →
  (∀ a a', a ∈ account_rows → a' ∈ account_rows → a_bank_id a = a_bank_id a' → a_bank_name a = a_bank_name a') →
  let expected := as_sent <$> uc2_streaming rows_of_maxima drop_duplicate_banks merge_on_bank account_rows chunks in
  (∃ responses, uc2_answer n c batches files responses) ∧
  ∀ responses, uc2_answer n c batches files responses → ∃ rows sorted, responses = uc2_text c rows ∧ rows ≡ₚ sorted ∧
    (∀ bank account paid name, (bank, account, paid, name) ∈ rows → is_max bank (tx_entries (filter (λ t, uc2_selects t = true) ts)) (Some (account, paid))) ∧
    Forall2 tied sorted expected ∧ (no_ties ts → sorted = expected).
Proof.
  intros Hok Hlines Hts Hal Hac Hb Hf Hnan Hnames expected. pose proof (same_usd _ _ (parsed_transfers lines _ ts Hlines Hts)) as ES.
  pose proof (same_accounts _ _ _ Hal Hac) as EA. set (S := row_entry <$> usd_rows chunks). set (A := bank_entry <$> account_rows).
  assert (HS : ∀ e, e ∈ usd_entries batches ↔ e ∈ S).
  { intros e. unfold S, usd_rows. rewrite <- ES. unfold usd_entries, tx_entries. by rewrite Hb. }
  assert (HA : ∀ e, e ∈ account_entries files ↔ e ∈ A) by (intros e; unfold A, account_entries; rewrite <- EA; by rewrite Hf).
  assert (Hn : no_nan S).
  { unfold no_nan, S, usd_rows. rewrite Forall_fmap, Forall_forall. rewrite Forall_forall in Hnan. intros r [_ Hr]%list_elem_of_filter. by apply Hnan. }
  assert (Hn' : no_nan (usd_entries batches)) by (unfold no_nan in *; rewrite Forall_forall in Hn |- *; intros e He%HS; by apply Hn).
  split; [by apply uc2_answer_exists|]. intros responses Hr.
  destruct (uc2_answer_joined n c batches files responses Hok Hn' Hr) as (rows & -> & J). apply (joined_same _ S _ A) in J; [|done..].
  pose proof (table_joined account_rows chunks Hn) as J'. fold S A expected in J'.
  destruct (joined_match S A rows expected) as (sorted & Hp & Ht); [|done..|].
  { intros a a' (r & -> & Hra)%list_elem_of_fmap (r' & -> & Hra')%list_elem_of_fmap E. unfold bank_entry in *. cbn [fst] in E.
    assert (a_bank_id r = a_bank_id r') as Ei by exact (str_int_inj _ _ E). by rewrite (Hnames r r' Hra Hra' Ei), Ei. }
  exists rows, sorted. split_and!; try done.
  { intros bank account paid name Hin. destruct (j_row _ _ _ J _ _ _ _ Hin) as (H1 & H2 & _). unfold S, usd_rows in H1, H2. rewrite <- ES in H1, H2. done. }
  intros Hnt. pose proof (joined_perm _ _ _ _ Hp J) as Js. unfold S, usd_rows in Js, J'. rewrite <- ES in Js, J'.
  by apply (tied_rows ts A).
Qed.
End script.

(** ** A concrete file *)

(** A value for each key: the first one that none after it is better than. *)
Section first_by.
Context {V : Type} (key : V → Z) (better : V → V → bool).
Hypothesis better_irrefl : ∀ v, better v v = false.
Hypothesis better_trans : ∀ w v e, better w v = true → better w e = false → better v e = false.

Definition first_by (l : list V) : pydict Z V :=
  foldl (λ d v, match dget d (key v) with
                | Some w => if better w v then dset d (key v) v else d
                | None => dset d (key v) v end) [] l.

Lemma first_by_spec l : dict_wf (first_by l) ∧ (∀ k v, dget (first_by l) k = Some v → v ∈ l ∧ key v = k) ∧
  ∀ v, v ∈ l → ∃ w, dget (first_by l) (key v) = Some w ∧ better w v = false.
Proof.
  unfold first_by. induction l as [|v l (Hwf & Hin & Hall)] using rev_ind; [split; [apply nil_wf|by split; [|intros v ?%not_elem_of_nil]]|].
  rewrite foldl_app. cbn [foldl]. set (d := foldl _ _ _) in *.
  assert (Hset : (∀ w, dget d (key v) = Some w → better w v = true) → dict_wf (dset d (key v) v) ∧
    (∀ k u, dget (dset d (key v) v) k = Some u → u ∈ l ++ [v] ∧ key u = k) ∧
    ∀ u, u ∈ l ++ [v] → ∃ w, dget (dset d (key v) v) (key u) = Some w ∧ better w u = false).
  { intros Hold. split; [by apply dset_wf|]. split.
    - intros k u. rewrite dget_dset. destruct (decide (pyeq (key v) k)) as [E|_].
      + intros [= <-]. assert (key v = k) as <- by exact E. split; [apply elem_of_app; right; left|done].
      + intros [H1 H2]%Hin. split; [apply elem_of_app; by left|done].
    - intros u [Hu| ->%list_elem_of_singleton]%elem_of_app.
      + destruct (Hall u Hu) as (w & Hw & Hb). rewrite dget_dset. destruct (decide (pyeq (key v) (key u))) as [E|_]; [|by exists w].
        exists v. split; [done|]. assert (key v = key u) as E' by exact E. rewrite <- E' in Hw. by apply (better_trans w); [apply Hold|].
      + exists v. rewrite dget_dset_eq. split; [done|apply better_irrefl]. }
  destruct (dget d (key v)) as [w|] eqn:Ew; [|by apply Hset]. destruct (better w v) eqn:Eb; [apply Hset; by intros ? [= <-]|].
  split; [done|]. split.
  - intros k u [H1 H2]%Hin. split; [apply elem_of_app; by left|done].
  - intros u [Hu| ->%list_elem_of_singleton]%elem_of_app; [by apply Hall|by exists w].
Qed.

Lemma first_by_values l : NoDup (key <$> (first_by l).*2) ∧ (∀ v, v ∈ (first_by l).*2 → v ∈ l) ∧
  ∀ v, v ∈ l → ∃ w, w ∈ (first_by l).*2 ∧ key w = key v ∧ better w v = false.
Proof.
  destruct (first_by_spec l) as (Hwf & Hin & Hall). assert (E : key <$> (first_by l).*2 = (first_by l).*1).
  { rewrite <- list_fmap_compose. apply list_fmap_ext. intros i [k v] Hi. cbn [compose snd fst].
    by apply (Hin k v), (elem_dget _ _ _ Hwf), list_elem_of_lookup_2 with i. }
  split; [rewrite E; by apply (NoDup_fmap_1 key_of)|]. split.
  - intros v ([k w] & -> & Hw)%list_elem_of_fmap. by apply (Hin k w), (elem_dget _ _ _ Hwf).
  - intros v Hv. destruct (Hall v Hv) as (w & Hw & Hb). exists w. split; [|by split; [apply (Hin _ _ Hw)|]].
    apply dget_Some_elem in Hw as (k & _ & Hk). apply list_elem_of_fmap. by exists (k, w).
Qed.
End first_by.

Definition demo_idxmax (l : list Row) : list Row := (first_by r_from_bank (λ r s, flt (r_amount_paid r) (r_amount_paid s)) l).*2.
Definition demo_drop_duplicates (l : list AccountRow) : list AccountRow := (first_by a_bank_id (λ _ _, false) l).*2.
Definition demo_merge (l : list (Z * string * float)) (r : list AccountRow) : list ((Z * string * float) * AccountRow) :=
  l ≫= λ x, (λ a, (x, a)) <$> (filter (λ a, a_bank_id a = x.1.1) r).

Lemma demo_pandas : pandas demo_idxmax demo_drop_duplicates demo_merge.
Proof.
  split.
  - intros l _. destruct (first_by_values r_from_bank (λ r s, flt (r_amount_paid r) (r_amount_paid s))) with (l := l) as (_ & H1 & H2); [|..].
    + intros v. apply flt_irrefl.
    + intros w v e H1 H2. destruct (flt (r_amount_paid v) (r_amount_paid e)) eqn:E; [|done]. by rewrite (flt_trans _ _ _ H1 E) in H2.
    + by split.
  - intros l. destruct (first_by_values a_bank_id (λ _ _, false)) with (l := l) as (H1 & H2 & H3); [done..|]. split; [done|]. split; [done|].
    intros a Ha. destruct (H3 a Ha) as (w & Hw & E & _). apply list_elem_of_fmap. by exists w.
  - done.
Qed.

#[local] Instance uc2_demo_hash : PyHash := {| hash_str s := Z.of_nat (String.length s); hash_uuid _ := 0; hash_identity _ _ := 0 |}.

Definition demo_uc2_line (bank paid : string) : chars :=
  chars_of ("2022/09/02 00:00," +:+ bank +:+ ",A" +:+ paid +:+ ",20,B," +:+ paid +:+ ",US Dollar," +:+ paid +:+ ",US Dollar,Wire,0" +:+ nl).
Definition demo_uc2_row (bank : Z) (account : string) (paid : Z) : Row := mkRow "2022/09/02 00:00" bank account 20 "B" (f_of_Z paid) "US Dollar" "Wire".
Definition demo_uc2_tx (bank account : string) (paid : Z) : Transaction :=
  mkTx (TsDate (mkDT 2022 9 2 0 0 0)) bank account "20" "B" (f_of_Z paid) "US Dollar" (f_of_Z paid) "US Dollar" "Wire".
Definition demo_account_line (name bank : string) : chars := chars_of (name +:+ "," +:+ bank +:+ ",N,E,O" +:+ nl).
Definition demo_account (name bank : string) : Account := mkAccount name bank "N" "E" "O".

(** Bank 10 paid 5 and 9, bank 30 has no name, bank 40 paid nothing. *)
Lemma uc2_matches_oracle_witness :
  let chunks := [[demo_uc2_row 10 "A5" 5]; [demo_uc2_row 30 "A1" 1; demo_uc2_row 10 "A9" 9]] in
  let account_rows := [mkARow 10 "First"; mkARow 40 "Other"; mkARow 10 "First"] in
  uc2_streaming demo_idxmax demo_drop_duplicates demo_merge account_rows chunks = [(10, "A9", "First", f_of_Z 9)]%string ∧
  uc2_answer (mkBankFleets 2 2 2) (uuid_lit 4) [[demo_uc2_tx "10" "A9" 9; demo_uc2_tx "30" "A1" 1]; [demo_uc2_tx "10" "A5" 5]]%string
    [[demo_account "First" "10"; demo_account "Other" "40"]; [demo_account "First" "10"]]%string
    (uc2_text (uuid_lit 4) [("10", "A9", f_of_Z 9, "First")])%string.
Proof.
  intros chunks account_rows.
  assert (E : uc2_streaming demo_idxmax demo_drop_duplicates demo_merge account_rows chunks = [(10, "A9", "First", f_of_Z 9)]%string) by (vm_compute; reflexivity).
  split; [exact E|].
  destruct (uc2_matches_oracle demo_idxmax demo_drop_duplicates demo_merge demo_pandas (mkBankFleets 2 2 2) (uuid_lit 4)
    [demo_uc2_line "10" "5"; demo_uc2_line "30" "1"; demo_uc2_line "10" "9"]%string
    [demo_account_line "First" "10"; demo_account_line "Other" "040"; demo_account_line "First" "10"]%string chunks account_rows
    [demo_uc2_tx "10" "A5" 5; demo_uc2_tx "30" "A1" 1; demo_uc2_tx "10" "A9" 9]%string
    [demo_account "First" "10"; demo_account "Other" "40"; demo_account "First" "10"]%string
    [[demo_uc2_tx "10" "A9" 9; demo_uc2_tx "30" "A1" 1]; [demo_uc2_tx "10" "A5" 5]]%string
    [[demo_account "First" "10"; demo_account "Other" "40"]; [demo_account "First" "10"]]%string) as ([responses Hr] & Hall).
  - done.
  - repeat constructor; [apply (line_read _ _ (mkDT 2022 9 2 0 0 0) "10" "20" "5" "US Dollar" "5" "0")
      |apply (line_read _ _ (mkDT 2022 9 2 0 0 0) "30" "20" "1" "US Dollar" "1" "0")
      |apply (line_read _ _ (mkDT 2022 9 2 0 0 0) "10" "20" "9" "US Dollar" "9" "0")]; by vm_compute.
  - repeat constructor; by vm_compute.
  - repeat constructor; [apply (account_read _ _ "10" "N" "E" "O")|apply (account_read _ _ "040" "N" "E" "O")|apply (account_read _ _ "10" "N" "E" "O")]; by vm_compute.
  - repeat constructor; by vm_compute.
  - cbn [List.concat app]. rewrite (Permutation_swap (demo_uc2_tx "10" "A5" 5)%string), (Permutation_cons_append [_; _]). cbn [app].
    by rewrite (Permutation_swap (demo_uc2_tx "10" "A9" 9)%string).
  - done.
  - repeat constructor; by vm_compute.
  - intros a a' Ha Ha'. unfold account_rows in Ha, Ha'. set_solver.
  - destruct (Hall responses Hr) as (rows & sorted & -> & Hp & _ & _ & Heq). rewrite E in Heq. rewrite Heq in Hp.
    + apply Permutation_singleton_r in Hp as ->. exact Hr.
    + intros t u Ht Hu. apply list_elem_of_In in Ht, Hu. cbn in Ht, Hu. naive_solver.
Defined.
