(* ===== verification/UC3Sums.v ===== *)
(** * Sums and averages of a column

    A float sum depends on the order and the grouping of the additions. What UC3's two
    programs share is stated for any way of adding: the totals of each format, kept
    batch by batch, and the averages made of them. *)

From Stdlib Require Import Floats.SpecFloat.
From S2P Require Import Prelude.
From S2P Require Import PyDict.
From S2P Require Import PyValues.
From S2P Require Import PyText.
From S2P Require Import PyFloat.
From S2P Require Import Wire.
From S2P Require Import Messages.
From S2P Require Import Filters.
From S2P Require Import GroupBy.
From S2P Require Import Aggregates.
From S2P Require Import FloatBounds.

(** ** Ways of adding *)

(** [adds l s]: adding the numbers of [l] in some order and grouping gives [s]. *)
Inductive adds : list float → float → Prop :=
  | adds_none : adds [] (f_of_Z 0)
  | adds_one x : adds [x] x
  | adds_both l l1 l2 s1 s2 : l ≡ₚ l1 ++ l2 → adds l1 s1 → adds l2 s2 → adds l (fadd s1 s2).

Lemma adds_perm l l' s : l ≡ₚ l' → adds l s → adds l' s.
Proof.
  intros Hp H. destruct H as [|x|l l1 l2 s1 s2 H1 H2 H3].
  - apply Permutation_nil_l in Hp as <-. constructor.
  - apply Permutation_singleton_l in Hp as <-. constructor.
  - apply (adds_both _ l1 l2); [by rewrite <- Hp|done..].
Qed.

#[export] Instance adds_proper : Proper ((≡ₚ) ==> (=) ==> iff) adds.
Proof. intros l l' Hp s _ <-. split; by apply adds_perm. Qed.

Lemma adds_loop l : ∀ done s, adds done s → adds (done ++ l) (foldl fadd s l).
Proof.
  induction l as [|x l IH]; intros done s Hs; [by rewrite app_nil_r|]. cbn [foldl]. rewrite cons_middle, app_assoc.
  apply IH. apply (adds_both _ done [x]); [done..|constructor].
Qed.

(** ** The totals of each format *)

(** A payment: its format and its amount. *)
Abbreviation payment := (string * float)%type.

Definition of_format (fmt : string) (P : list payment) : list payment := filter (λ p, p.1 = fmt) P.
Definition amounts (fmt : string) (P : list payment) : list float := (of_format fmt P).*2.

Lemma of_format_app fmt P Q : of_format fmt (P ++ Q) = of_format fmt P ++ of_format fmt Q.
Proof. apply filter_app. Qed.

Lemma of_format_all fmt P : Forall (λ p, p.1 = fmt) P → of_format fmt P = P.
Proof. apply filter_Forall_all. Qed.

Lemma of_format_none fmt k P : Forall (λ p, p.1 = k) P → k ≠ fmt → of_format fmt P = [].
Proof. intros HP Hne. apply filter_Forall_none. eapply Forall_impl; [exact HP|]. intros p ->. done. Qed.

(** The entry of a format, if there is a payment of it. *)
Definition total_ok (P : list payment) (fmt : string) (v : option (float * Z)) : Prop :=
  match v with
  | Some (s, n) => of_format fmt P ≠ [] ∧ adds (amounts fmt P) s ∧ n = Z.of_nat (length (of_format fmt P))
  | None => of_format fmt P = []
  end.

Definition totals_ok (P : list payment) (d : pydict string (float * Z)) : Prop := dict_wf d ∧ ∀ fmt, total_ok P fmt (dget d fmt).

Lemma total_ok_perm P Q fmt v : P ≡ₚ Q → total_ok P fmt v → total_ok Q fmt v.
Proof.
  intros Hp. assert (Hf : of_format fmt P ≡ₚ of_format fmt Q) by (unfold of_format; by rewrite Hp). destruct v as [[s n]|]; unfold total_ok, amounts.
  - intros (H1 & H2 & ->). split_and!.
    + intros E. rewrite E in Hf. by apply Permutation_nil_r in Hf.
    + by rewrite <- Hf.
    + by rewrite Hf.
  - intros E. rewrite E in Hf. by apply Permutation_nil_l in Hf.
Qed.

Lemma totals_ok_perm P Q d : P ≡ₚ Q → totals_ok P d → totals_ok Q d.
Proof. intros Hp [Hwf Ht]. split; [done|]. intros fmt. by apply (total_ok_perm P). Qed.

Lemma totals_ok_nil : totals_ok [] [].
Proof. split; [apply nil_wf|done]. Qed.

(** A group of payments of one format is added to its total. *)
Definition add_block (d : pydict string (float * Z)) (fmt : string) (s : float) (n : Z) : pydict string (float * Z) :=
  let curr := dget_or (f_of_Z 0, 0) d fmt in dset d fmt (fadd curr.1 s, curr.2 + n).

Lemma add_block_ok P d fmt block s : totals_ok P d → Forall (λ p, p.1 = fmt) block → block ≠ [] → adds block.*2 s →
  totals_ok (P ++ block) (add_block d fmt s (Z.of_nat (length block))).
Proof.
  intros [Hwf Ht] Hb Hne Hs. split; [by apply dset_wf|]. intros k. unfold add_block. rewrite dget_dset.
  destruct (decide (pyeq fmt k)) as [E|E].
  - assert (fmt = k) as <- by exact E. specialize (Ht fmt). unfold total_ok, amounts in *. rewrite of_format_app, (of_format_all fmt block) by done.
    unfold dget_or. destruct (dget d fmt) as [[s0 n0]|]; cbn [default from_option id fst snd].
    + destruct Ht as (_ & Ha & ->). split_and!.
      * by destruct (of_format fmt P).
      * apply (adds_both _ (of_format fmt P).*2 block.*2); [by rewrite fmap_app|done..].
      * rewrite length_app. lia.
    + rewrite Ht. split_and!; [done| |done]. apply (adds_both _ [] block.*2); [done|constructor|done].
  - specialize (Ht k). unfold total_ok, amounts in *. rewrite of_format_app, (of_format_none k fmt block), app_nil_r; [done..|].
    intros ->. by apply E.
Qed.

(** Groups one after the other: each an entry and the payments it stands for. *)
Record group_ok (g : (string * (float * Z)) * list payment) : Prop := {
  g_format : Forall (λ p, p.1 = g.1.1) g.2;
  g_some : g.2 ≠ [];
  g_sum : adds g.2.*2 g.1.2.1;
  g_count : g.1.2.2 = Z.of_nat (length g.2)
}.

Definition add_entry (d : pydict string (float * Z)) (e : string * (float * Z)) := add_block d e.1 e.2.1 e.2.2.

Lemma add_groups_ok gs : Forall group_ok gs → ∀ P d, totals_ok P d → totals_ok (P ++ List.concat gs.*2) (foldl add_entry d gs.*1).
Proof.
  induction 1 as [|g gs [Hf Hne Hs Hn] _ IH]; intros P d Hd; [by rewrite app_nil_r|]. rewrite !fmap_cons. cbn [foldl List.concat]. rewrite app_assoc.
  apply IH. unfold add_entry. rewrite Hn. by apply add_block_ok.
Qed.

Lemma sum_merge_entries d l : sum_merge d l = foldl add_entry d l.
Proof. done. Qed.

(** The groups of a batch: one for each format. *)
Lemma formats_perm (P : list payment) (ks : list string) : NoDup ks → (∀ p, p ∈ P → p.1 ∈ ks) → List.concat ((λ k, of_format k P) <$> ks) ≡ₚ P.
Proof.
  revert P. induction ks as [|k ks IH]; intros P Hnd Hin.
  { destruct P as [|p P]; [done|]. by destruct (not_elem_of_nil p.1 (Hin p ltac:(left))). }
  apply NoDup_cons in Hnd as [Hk Hnd]. rewrite fmap_cons. cbn [List.concat]. set (Q := filter (λ p, p.1 ≠ k) P).
  assert (E : (λ k', of_format k' P) <$> ks = (λ k', of_format k' Q) <$> ks).
  { apply list_fmap_ext. intros i k' Hk'. unfold Q, of_format. rewrite list_filter_filter. apply list_filter_iff. intros p. split; [|naive_solver].
    intros ->. split; [done|]. intros ->. apply Hk. by eapply list_elem_of_lookup_2. }
  rewrite E, IH; [|done|].
  - unfold Q, of_format. clear. induction P as [|p P IH]; [done|]. rewrite !filter_cons. destruct (decide (p.1 = k)) as [H|H].
    + rewrite decide_False by naive_solver. cbn [app]. by rewrite IH.
    + rewrite decide_True by done. by rewrite <- Permutation_middle, IH.
  - intros p [Hne Hp]%list_elem_of_filter. apply Hin, elem_of_cons in Hp as [Hp|Hp]; [by destruct Hne|exact Hp].
Qed.

Lemma totals_groups P d : totals_ok P d → ∃ gs, gs.*1 = d ∧ Forall group_ok gs ∧ List.concat gs.*2 ≡ₚ P.
Proof.
  intros [Hwf Ht]. exists ((λ e, (e, of_format e.1 P)) <$> d). rewrite <- !list_fmap_compose. split; [apply list_fmap_id|]. split.
  - apply Forall_fmap, Forall_forall. intros [fmt [s n]] He. specialize (Ht fmt). rewrite (elem_dget _ _ _ Hwf He) in Ht. destruct Ht as (H1 & H2 & ->).
    split; cbn [fst snd]; try done. apply Forall_forall. by intros p [Hp _]%list_elem_of_filter.
  - assert (E : snd ∘ (λ e : string * (float * Z), (e, of_format e.1 P)) <$> d = (λ k, of_format k P) <$> d.*1) by by rewrite <- list_fmap_compose.
    rewrite E. apply formats_perm; [by apply (NoDup_fmap_1 key_of)|]. intros p Hp. specialize (Ht p.1).
    destruct (dget d p.1) as [v|] eqn:Ev.
    + apply dget_Some_elem in Ev as (k & Hk & Hin). assert (k = p.1) as -> by exact Hk. apply list_elem_of_fmap. by exists (p.1, v).
    + unfold total_ok in Ht. assert (p ∈ of_format p.1 P) as Hin by (by apply list_elem_of_filter). rewrite Ht in Hin. by apply not_elem_of_nil in Hin.
Qed.

(** ** Averages *)

Definition average (P : list payment) (fmt : string) (s : float) : float := fdiv s (f_of_Z (Z.of_nat (length (of_format fmt P)))).

(** An average for each format, of some sum of its amounts. *)
Record averages_of (P : list payment) (AV : list (string * float)) : Prop := {
  av_once : NoDup AV.*1;
  av_sum : ∀ fmt avg, (fmt, avg) ∈ AV → of_format fmt P ≠ [] ∧ ∃ s, adds (amounts fmt P) s ∧ avg = average P fmt s;
  av_all : ∀ p, p ∈ P → p.1 ∈ AV.*1
}.

Lemma averages_perm P Q AV AV' : P ≡ₚ Q → AV ≡ₚ AV' → averages_of P AV → averages_of Q AV'.
Proof.
  intros Hp Ha [H1 H2 H3]. assert (Hf : ∀ fmt, of_format fmt P ≡ₚ of_format fmt Q) by (intros; unfold of_format; by rewrite Hp). split.
  - by rewrite <- Ha.
  - intros fmt avg. rewrite <- Ha. intros Hin. destruct (H2 _ _ Hin) as (Hne & s & Hs & ->). split.
    + intros E. specialize (Hf fmt). rewrite E in Hf. by apply Permutation_nil_r in Hf.
    + exists s. unfold amounts, average in *. by rewrite <- (Hf fmt).
  - intros p. rewrite <- Ha, <- Hp. apply H3.
Qed.

Lemma fdiv_total s n : 0 < n < 2 ^ 53 → py_fdiv s (f_of_Z n) = Ok (fdiv s (f_of_Z n)).
Proof. intros Hn. unfold py_fdiv. destruct (f_of_Z n) eqn:E; [by destruct (f_of_Z_nonzero n Hn s0)|done..]. Qed.

Lemma format_length fmt P : (length (of_format fmt P) ≤ length P)%nat.
Proof. apply length_filter. Qed.

Lemma averages_made P d : totals_ok P d → Z.of_nat (length P) < 2 ^ 53 →
  ∃ AV, mapR (λ e : string * (float * Z), avg ← py_fdiv e.2.1 (f_of_Z e.2.2); Ok (e.1, avg)) d = Ok AV ∧ averages_of P AV.
Proof.
  intros [Hwf Ht] Hlen. exists ((λ e, (e.1, fdiv e.2.1 (f_of_Z e.2.2))) <$> d). split.
  - rewrite <- (list_fmap_id d) at 1. apply mapR_map. intros [fmt [s n]] He. specialize (Ht fmt). rewrite (elem_dget _ _ _ Hwf He) in Ht.
    destruct Ht as (Hne & _ & ->). cbn [id fst snd]. rewrite fdiv_total; [done|]. pose proof (format_length fmt P). destruct (of_format fmt P); [done|]. cbn [length] in *. lia.
  - split.
    + rewrite <- list_fmap_compose. by apply (NoDup_fmap_1 key_of).
    + intros fmt avg ([k [s n]] & [= -> ->] & He)%list_elem_of_fmap. specialize (Ht k). rewrite (elem_dget _ _ _ Hwf He) in Ht.
      destruct Ht as (Hne & Hs & ->). split; [done|]. by exists s.
    + intros p Hp. specialize (Ht p.1). assert (Hin : p ∈ of_format p.1 P) by (by apply list_elem_of_filter).
      destruct (dget d p.1) as [v|] eqn:Ev; [|unfold total_ok in Ht; rewrite Ht in Hin; by apply not_elem_of_nil in Hin].
      apply dget_Some_elem in Ev as (k & Hk & Hd). assert (k = p.1) as -> by exact Hk. rewrite <- list_fmap_compose. apply list_elem_of_fmap. by exists (p.1, v).
Qed.

(** ** Below a hundredth of the average *)

Definition below (avg : float) (q : payment) : bool := flt q.2 (fmul PERCENTAGE avg).
Definition below_average (AV : list (string * float)) (q : payment) : bool :=
  match dget AV q.1 with Some avg => below avg q | None => false end.

(** The rounding of the sums does not matter to the payment. *)
Definition clear_cut (P : list payment) (q : payment) : Prop :=
  ∀ s s', adds (amounts q.1 P) s → adds (amounts q.1 P) s' → below (average P q.1 s) q = below (average P q.1 s') q.

Lemma dget_average P AV fmt : averages_of P AV →
  match dget AV fmt with Some avg => ∃ s, adds (amounts fmt P) s ∧ avg = average P fmt s | None => of_format fmt P = [] end.
Proof.
  intros [H1 H2 H3]. destruct (dget AV fmt) as [avg|] eqn:E.
  - apply dget_Some_elem in E as (k & Hk & Hin). assert (k = fmt) as -> by exact Hk. by apply H2.
  - destruct (of_format fmt P) as [|p Q] eqn:Ef; [done|]. assert (Hp : p ∈ of_format fmt P) by (rewrite Ef; left).
    apply list_elem_of_filter in Hp as [<- Hp]. apply H3 in Hp as ([k avg] & Ek & Hin)%list_elem_of_fmap. cbn [fst] in Ek. subst k.
    rewrite (elem_dget AV p.1 avg) in E; [done| |done]. apply NoDup_fmap_2; [intros x y Exy; exact Exy|done].
Qed.

Lemma same_below P AV AV' q : averages_of P AV → averages_of P AV' → clear_cut P q → below_average AV q = below_average AV' q.
Proof.
  intros H1 H2 Hc. pose proof (dget_average P AV q.1 H1) as D1. pose proof (dget_average P AV' q.1 H2) as D2. unfold below_average.
  assert (Hnone : ∀ A avg, averages_of P A → dget A q.1 = Some avg → of_format q.1 P ≠ []).
  { intros A avg HA E. apply dget_Some_elem in E as (k & Hk & Hin). assert (k = q.1) as -> by exact Hk. by apply (av_sum _ _ HA) in Hin as [? _]. }
  destruct (dget AV q.1) as [a|] eqn:E1, (dget AV' q.1) as [a'|] eqn:E2; [|exfalso; by apply (Hnone AV a)|exfalso; by apply (Hnone AV' a')|done].
  destruct D1 as (s & Hs & ->), D2 as (s' & Hs' & ->). by apply Hc.
Qed.

Lemma fmul_comm x y : fmul x y = fmul y x.
Proof.
  destruct x as [s|s| |s m e], y as [t|t| |t k f]; cbn; rewrite ?(xorb_comm t s); try done. by rewrite (Pos.mul_comm k m), (Z.add_comm f e).
Qed.

(** ** The totals of the network *)

Definition payment_of (t : Transaction) : payment := (payment_format t, amount_paid t).

Lemma dset_dsetdefault {V} (d : pydict string V) k v v' : dset (dsetdefault d k v) k v' = dset d k v'.
Proof.
  unfold dsetdefault. destruct (dmem d k); [done|]. induction d as [|[k0 v0] d IH]; cbn.
  - by rewrite decide_True.
  - destruct (decide (pyeq k0 k)) as [Hk|Hk]; cbn; destruct (decide (pyeq k0 k)); congruence.
Qed.

Lemma sum_step_block d t : sum_step d t = add_block d (payment_format t) (amount_paid t) 1.
Proof.
  unfold sum_step, add_block. rewrite dset_dsetdefault. unfold dget_or. rewrite dget_dsetdefault, decide_True by done. reflexivity.
Qed.

Lemma batch_totals l : totals_ok (payment_of <$> l) (sums_of_batch l).
Proof.
  assert (H : ∀ P d, totals_ok P d → totals_ok (P ++ (payment_of <$> l)) (foldl sum_step d l)); [|by apply (H [] []), totals_ok_nil].
  induction l as [|t l IH]; intros P d Hd; [by rewrite app_nil_r|]. rewrite fmap_cons, cons_middle, app_assoc. cbn [foldl]. apply IH.
  rewrite sum_step_block. apply (add_block_ok P d (payment_format t) [payment_of t]); [done|by repeat constructor|done|constructor].
Qed.

(** ** Whole amounts are added exactly *)

Definition exact_up_to (top : Z) : bool :=
  forallb (λ a, forallb (λ b, (top <? a + b) || bool_decide (fadd (f_of_Z a) (f_of_Z b) = f_of_Z (a + b))) (seqZ 0 (top + 1))) (seqZ 0 (top + 1)).

Lemma whole_sum top zs s : exact_up_to top = true → adds (f_of_Z <$> zs) s → Forall (λ z, 0 ≤ z) zs → zsum zs ≤ top → s = f_of_Z (zsum zs).
Proof.
  intros Htop. remember (f_of_Z <$> zs) as l eqn:El. intros H. revert zs El. induction H as [|x|l l1 l2 s1 s2 Hp H1 IH1 H2 IH2]; intros zs El Hz Hs.
  - by destruct zs.
  - destruct zs as [|z [|]]; try done. injection El as ->. unfold zsum. cbn [foldr]. by rewrite Z.add_0_r.
  - rewrite El in Hp. symmetry in Hp. apply Permutation_map_inv in Hp as (zs' & E & Hp). symmetry in E.
    change (map f_of_Z zs') with (f_of_Z <$> zs') in E. apply fmap_app_inv in E as (z1 & z2 & -> & -> & ->).
    rewrite Hp in Hz. apply Forall_app in Hz as [Hz1 Hz2]. pose proof (zsum_perm _ _ Hp) as Es. rewrite zsum_app in Es.
    assert (Hpos : ∀ l, Forall (λ z, 0 ≤ z) l → 0 ≤ zsum l) by (intros l0; unfold zsum; induction 1; cbn [foldr]; lia).
    pose proof (Hpos z1 Hz1). pose proof (Hpos z2 Hz2). rewrite (IH1 z1), (IH2 z2), Es by (done || lia).
    unfold exact_up_to in Htop. rewrite forallb_forall in Htop. specialize (Htop (zsum z1)). rewrite <- list_elem_of_In, elem_of_seqZ in Htop.
    specialize (Htop ltac:(lia)). rewrite forallb_forall in Htop. specialize (Htop (zsum z2)). rewrite <- list_elem_of_In, elem_of_seqZ in Htop.
    specialize (Htop ltac:(lia)). apply orb_prop in Htop as [Ht|Ht]; [apply Z.ltb_lt in Ht; lia|by apply bool_decide_eq_true in Ht].
Qed.

(** The rounding decides nothing when there is none. *)
Lemma whole_clear_cut top P q zs : exact_up_to top = true → amounts q.1 P = f_of_Z <$> zs → Forall (λ z, 0 ≤ z) zs → zsum zs ≤ top → clear_cut P q.
Proof. intros Ht E Hz Hs s s' H1 H2. rewrite E in H1, H2. by rewrite (whole_sum top zs s), (whole_sum top zs s'). Qed.
