(* ===== verification/UC3Match.v ===== *)
(** * UC3 answers as the script does

    The network of UC3: two routes of the default filters, the group-by and the
    aggregates that average the payments of the first period, the merges that pair the
    payments of the second with the averages, the filter of the payments below a
    hundredth of the average, and the join. Whatever way a file is cut into batches and
    the messages are spread over the instances, the rows are the script's, as far as the
    rounding of the sums does not decide. *)

From S2P Require Import Prelude.
From S2P Require Import PyDict.
From S2P Require Import PyValues.
From S2P Require Import PyText.
From S2P Require Import PyTime.
From S2P Require Import PyFloat.
From S2P Require Import PyRepr.
From S2P Require Import Wire.
From S2P Require Import Messages.
From S2P Require Import RingNode.
From S2P Require Import Filters.
From S2P Require Import GroupBy.
From S2P Require Import Checkpoint.
From S2P Require Import Spill.
From S2P Require Import SpillLog.
From S2P Require Import Aggregates.
From S2P Require Import UC4.
From S2P Require Import UC4Paths.
From S2P Require Import UC4Prune.
From S2P Require Import Fleet.
From S2P Require Import MergeFns.
From S2P Require Import MergeProps.
From S2P Require Import Joins.
From S2P Require Import JoinProps.
From S2P Require Import Client.
From S2P Require Import Oracle.
From S2P Require Import OracleTables.
From S2P Require Import OracleLines.
From S2P Require Import UC1Match.
From S2P Require Import UC2Match.
From S2P Require Import UC3Sums.

(** ** The network *)

Definition is_sums (b : Body) : Prop := match b with SumByPaymentFormat _ _ => True | _ => False end.
Definition sums_in (c : uuid) (b : Body) : list (string * (float * Z)) :=
  match b with SumByPaymentFormat c' d => if decide (c' = c) then d else [] | _ => [] end.

Definition left_avg_mail (c : uuid) (e : avg_event) : option Body :=
  match e with AvgLeft c' d => if decide (c' = c) then Some (AvgByFormat c d) else None | _ => None end.
Definition right_avg_mail (c : uuid) (e : avg_event) : option Body :=
  match e with AvgRight c' l => if decide (c' = c) then Some (Transactions c l) else None | _ => None end.

Definition txs_in (b : Body) : list Transaction := match b with Transactions _ l => l | _ => [] end.

(** The members of lists, in another order. *)
Lemma concat_members {A} (ls1 ls2 : list (list A)) : ls1 ≡ₚ ls2 → List.concat ls1 ≡ₚ List.concat ls2.
Proof.
  induction 1 as [|l ls1 ls2 _ IH|l1 l2 ls|ls1 ls2 ls3 _ IH1 _ IH2]; cbn [List.concat]; [done|by rewrite IH| |by rewrite IH1].
  by rewrite !app_assoc, (Permutation_app_comm l1 l2).
Qed.

Section network.
Context `{PyHash} (n_averages : Z) (chunk_size : Z) (n : Z) (c : uuid).

Definition sums_group (l : list Transaction) : res (list (Body * Z)) :=
  b ← FilterFn_filter UC3FilterPeriodA_keep (Transactions c l); UC3Sum_group_by b.

Definition averages_node (msgs : list Body) : res (list (Body * Z)) :=
  st ← aggregate_all UC3AvgAggregateFn [] msgs; '(_, out) ← UC3Avg_get_result st c; Ok out.
Definition average_merge_node (es : list avg_event) : res (list Body) :=
  st ← foldR (avg_step "uc3_merge") avg_init es; '(_, out) ← UC3Merge_get_result "uc3_merge" chunk_size st c; Ok out.

(** The answer to the client who sent [batches]. The averages are broadcast to every
    merge; a batch of the second period goes to one of them. *)
Inductive uc3_answer (batches : list (list Transaction)) (responses : list Body) : Prop :=
  | uc3_answered grouped aevs averages rights (mevs : list (list avg_event)) merged kept ops s s' :
      mapR sums_group batches = Ok grouped →
      fed (client_mail c) n_averages (List.concat grouped) aevs → Forall (Forall is_sums) aevs →
      mapR averages_node aevs = Ok averages →
      mapR (λ l, FilterFn_filter UC3FilterPeriodB_keep (Transactions c l)) batches = Ok rights →
      (∀ es, es ∈ mevs → omap (left_avg_mail c) es ≡ₚ (List.concat averages).*1) →
      List.concat ((λ es : list avg_event, omap (right_avg_mail c) es) <$> mevs) ≡ₚ rights → Forall all_lines_ok mevs →
      mapR average_merge_node mevs = Ok merged →
      mapR UC3AvgFilter_filter (List.concat merged) = Ok kept →
      Forall joinable ops → omap (row_mail c) ops ≡ₚ kept →
      rows_run "uc3_join" uc3_row "--- UC3 ---" n (spill_init []) ops = Ok s →
      get_responses (@RowsJoin PersistentSpill (PersistentSpill_store "uc3_join") uc3_row "--- UC3 ---" n) s c = Ok (s', responses) →
      uc3_answer batches responses.

(** *** The two periods *)

Definition in_days (period : date * date) (t : Transaction) : bool :=
  bool_decide (payment_currency t = TARGET_CURRENCY) &&
  match timestamp t with TsDate d => date_le period.1 (date_of d) && date_le (date_of d) period.2 | TsText _ => false end.

Lemma period_keep_ok period t : tx_wf t → UC3FilterPeriodBase_keep period t = Ok (in_days period t).
Proof.
  unfold tx_wf, UC3FilterPeriodBase_keep, in_days. destruct (timestamp t) as [d|]; [|done]. intros _. cbn [ts_date mbind res_bind]. by destruct (bool_decide _).
Qed.

Definition period_a (batches : list (list Transaction)) : list Transaction := filter (λ t, in_days PERIOD_A t = true) (List.concat batches).
Definition period_b (batches : list (list Transaction)) : list Transaction := filter (λ t, in_days PERIOD_B t = true) (List.concat batches).

Definition all_dated (batches : list (list Transaction)) : Prop := ∀ l t, l ∈ batches → t ∈ l → tx_wf t.

(** *** The sums of the first period *)

Definition sum_message (e : string * (float * Z)) : Body * Z := (SumByPaymentFormat c [(e.1, e.2)], hash_str e.1).

Lemma sums_grouped batches : all_dated batches → ∃ grouped gs, mapR sums_group batches = Ok grouped ∧
  List.concat grouped = sum_message <$> gs.*1 ∧ Forall group_ok gs ∧ List.concat gs.*2 ≡ₚ payment_of <$> period_a batches.
Proof.
  induction batches as [|l batches IH]; intros Hd; [by exists [], []|].
  destruct IH as (grouped & gs & E & Eg & Hgs & Hp); [intros l' t Hl'; apply Hd; by right|].
  set (sel := filter (λ t, in_days PERIOD_A t = true) l).
  assert (Ef : FilterFn_filter UC3FilterPeriodA_keep (Transactions c l) = Ok (Transactions c sel))
    by (apply filter_batch; intros t Ht; apply period_keep_ok, (Hd l); [left|done]).
  destruct (totals_groups _ _ (batch_totals sel)) as (gs1 & E1 & Hgs1 & Hp1).
  exists ((sum_message <$> sums_of_batch sel) :: grouped), (gs1 ++ gs). split; [|split; [|split]].
  - assert (Es : sums_group l = UC3Sum_group_by (Transactions c sel)) by exact (f_equal (λ r, r ≫= UC3Sum_group_by) Ef).
    cbn [mapR]. rewrite Es, E. reflexivity.
  - cbn [List.concat]. by rewrite Eg, !fmap_app, E1.
  - by apply Forall_app.
  - unfold period_a in *. cbn [List.concat]. by rewrite filter_app, !fmap_app, List.concat_app, Hp1, Hp.
Qed.

(** *** The averages *)

Lemma sums_run msgs : Forall is_sums msgs → ∀ st, ∃ st', aggregate_all UC3AvgAggregateFn st msgs = Ok st' ∧
  dget_or [] st' c = sum_merge (dget_or [] st c) (msgs ≫= sums_in c).
Proof.
  induction 1 as [|b msgs Hb _ IH]; intros st; [by exists st|]. destruct b; try done. rename client_id into c', sum_counts into d.
  cbn [aggregate_all aggregate UC3AvgAggregateFn UC3Avg_aggregate mbind res_bind].
  destruct (IH (dset (dsetdefault st c' []) c' (sum_merge (dget_or [] (dsetdefault st c' []) c') d))) as (st' & E & Hst').
  exists st'. split; [exact E|]. rewrite Hst', dget_or_client. cbn [list_bind sums_in].
  rewrite dget_or_dsetdefault_client. destruct (decide (c' = c)) as [->|]; [|done]. unfold sum_merge. by rewrite foldl_app.
Qed.

Definition average_message (e : string * float) : Body * Z := (AvgByFormat c [(e.1, e.2)], hash_str e.1).

Lemma averages_node_ok msgs gs : Forall is_sums msgs → msgs ≫= sums_in c = gs.*1 → Forall group_ok gs → Z.of_nat (length (List.concat gs.*2)) < 2 ^ 53 →
  ∃ AV, averages_node msgs = Ok (average_message <$> AV) ∧ averages_of (List.concat gs.*2) AV.
Proof.
  intros Hm Egs Hgs Hlen. destruct (sums_run msgs Hm []) as (st & E & Hst). rewrite Egs in Hst.
  assert (Ht : totals_ok (List.concat gs.*2) (dget_or [] st c)) by (rewrite Hst, sum_merge_entries; by apply (add_groups_ok gs Hgs [] []), totals_ok_nil).
  destruct (averages_made _ _ Ht Hlen) as (AV & Eav & Hav). exists AV. split; [|done]. unfold averages_node. rewrite E. cbn [mbind res_bind].
  unfold UC3Avg_get_result. unfold dget_or in Eav. destruct (dget st c) as [d|]; cbn [default from_option id] in Eav.
  - rewrite Eav. cbn [mbind res_bind]. rewrite dict_of_items; [done|]. apply NoDup_fmap_2; [intros x y Exy; exact Exy|apply Hav].
  - injection Eav as <-. done.
Qed.

(** The groups of the formats of an instance. *)
Definition of_instance (i : Z) (P : list payment) : list payment := filter (λ p, hash_str p.1 mod n_averages = i) P.

Lemma instance_payments i gs : Forall group_ok gs →
  List.concat (filter (λ g : (string * (float * Z)) * list payment, hash_str g.1.1 mod n_averages = i) gs).*2 = of_instance i (List.concat gs.*2).
Proof.
  unfold of_instance. induction 1 as [|g gs [Hf _ _ _] _ IH]; [done|]. rewrite fmap_cons, filter_cons. cbn [List.concat]. rewrite filter_app, <- IH.
  destruct (decide (hash_str g.1.1 mod n_averages = i)) as [Hi|Hi]; [rewrite fmap_cons; cbn [List.concat]; rewrite (filter_Forall_all _ g.2)|rewrite (filter_Forall_none _ g.2)]; try done;
    (eapply Forall_impl; [exact Hf|]); intros p Hp; by rewrite Hp.
Qed.

Lemma sums_in_other b : body_client b ≠ Some c → sums_in c b = [].
Proof. destruct b; try done. intros Hn. cbn [sums_in body_client] in *. by rewrite decide_False by congruence. Qed.

Lemma instance_groups gs aevs i es : fed (client_mail c) n_averages (sum_message <$> gs.*1) aevs → aevs !! i = Some es →
  ∃ mine, es ≫= sums_in c = mine.*1 ∧ mine ≡ₚ filter (λ g : (string * (float * Z)) * list payment, hash_str g.1.1 mod n_averages = Z.of_nat i) gs.
Proof.
  intros [_ Hfed] Hi. assert (Hp : es ≫= sums_in c ≡ₚ (filter (λ g : (string * (float * Z)) * list payment, hash_str g.1.1 mod n_averages = Z.of_nat i) gs).*1).
  { rewrite (mail_bind (client_mail c) (sums_in c) (sums_in c)) by (apply client_mail_in, sums_in_other). rewrite (Hfed i es Hi). apply reflexive_eq.
    unfold shard_mail. clear. induction gs as [|[[fmt [s k]] block] gs IH]; [done|]. rewrite !fmap_cons, !filter_cons. cbn [fst snd sum_message].
    destruct (decide (hash_str fmt mod n_averages = Z.of_nat i)); [|exact IH]. rewrite !fmap_cons. cbn [fst mbind list_bind].
    assert (sums_in c (sum_message (fmt, (s, k))).1 = [(fmt, (s, k))]) as -> by (cbn; by rewrite decide_True). cbn [app]. f_equal. exact IH. }
  destruct (Permutation_map_inv _ _ Hp) as (mine & E & Hm). exists mine. split; [exact E|by symmetry].
Qed.

(** Averages instance by instance. *)
Lemma instance_format i P fmt : of_format fmt (of_instance i P) ≠ [] → hash_str fmt mod n_averages = i ∧ of_format fmt (of_instance i P) = of_format fmt P.
Proof.
  intros Hne. assert (Hi : hash_str fmt mod n_averages = i).
  { destruct (of_format fmt (of_instance i P)) as [|p R] eqn:E; [done|]. assert (Hp : p ∈ of_format fmt (of_instance i P)) by (rewrite E; left).
    by apply list_elem_of_filter in Hp as [<- [Hi _]%list_elem_of_filter]. }
  split; [done|]. unfold of_format, of_instance. rewrite list_filter_filter. apply list_filter_iff. intros q. split; [naive_solver|].
  intros Eq. split; [done|]. by rewrite Eq.
Qed.

Lemma averages_shards P AVs : 0 < n_averages → length AVs = Z.to_nat n_averages →
  (∀ i AV, AVs !! i = Some AV → averages_of (of_instance (Z.of_nat i) P) AV) → averages_of P (List.concat AVs).
Proof.
  intros Hk Hlen HA. split.
  - rewrite fmap_concat. apply (NoDup_concat_at (λ fmt, hash_str fmt mod n_averages) _ 0). intros i l (AV & -> & HAV)%list_lookup_fmap_Some.
    destruct (HA i AV HAV) as [H1 H2 _]. split; [done|]. intros fmt ([k avg] & -> & Hin)%list_elem_of_fmap.
    apply H2 in Hin as [Hne _]. by apply (instance_format (Z.of_nat i) P k).
  - intros fmt avg (AV & (i & HAV)%list_elem_of_lookup & Hin)%elem_concat. destruct (HA i AV HAV) as [_ H2 _].
    destruct (H2 _ _ Hin) as (Hne & s & Hs & ->). destruct (instance_format _ P fmt Hne) as [_ E]. rewrite E in Hne. split; [done|].
    exists s. unfold amounts, average in *. by rewrite E in *.
  - intros p Hp. pose proof (Z.mod_pos_bound (hash_str p.1) _ Hk) as Hb. set (i := Z.to_nat (hash_str p.1 mod n_averages)).
    destruct (lookup_lt_is_Some_2 AVs i) as [AV HAV]; [unfold i; lia|]. destruct (HA i AV HAV) as [_ _ H3].
    assert (HpQ : p ∈ of_instance (Z.of_nat i) P) by (apply list_elem_of_filter; split; [unfold i; lia|done]).
    apply H3 in HpQ as ([k avg] & Ek & Hin)%list_elem_of_fmap. apply list_elem_of_fmap. exists (k, avg). split; [done|].
    apply elem_concat. exists AV. split; [by eapply list_elem_of_lookup_2|done].
Qed.

Lemma averages_stage P gs aevs : 0 < n_averages → Forall group_ok gs → List.concat gs.*2 ≡ₚ P → Z.of_nat (length P) < 2 ^ 53 →
  fed (client_mail c) n_averages (sum_message <$> gs.*1) aevs → Forall (Forall is_sums) aevs →
  ∃ AV averages, mapR averages_node aevs = Ok averages ∧ List.concat averages = average_message <$> AV ∧ averages_of P AV.
Proof.
  intros Hk Hgs HP Hlen Hfed Hm. rewrite Forall_forall in Hm.
  destruct (mapR_lookup averages_node (λ AV, average_message <$> AV) (λ i AV, averages_of (of_instance (Z.of_nat i) P) AV) aevs) as (AVs & E & El & HA).
  { intros i es Hi. destruct (instance_groups gs aevs i es Hfed Hi) as (mine & Emine & Hp).
    assert (Hmine : Forall group_ok mine).
    { rewrite Forall_forall in Hgs |- *. intros g. rewrite Hp. intros [_ Hg]%list_elem_of_filter. by apply Hgs. }
    assert (HQ : List.concat mine.*2 ≡ₚ of_instance (Z.of_nat i) P).
    { rewrite (concat_members _ _ (fmap_Permutation snd _ _ Hp)), instance_payments by done. unfold of_instance. by rewrite HP. }
    destruct (averages_node_ok es mine) as (AV & En & Hav); [by apply Hm, (list_elem_of_lookup_2 _ i)|done|done|..].
    - rewrite HQ. pose proof (length_filter (λ p : payment, hash_str p.1 mod n_averages = Z.of_nat i) P). unfold of_instance. lia.
    - exists AV. split; [exact En|]. by apply (averages_perm _ _ AV AV HQ). }
  eexists (List.concat AVs), _. split; [exact E|]. split; [by rewrite fmap_concat|].
  apply averages_shards; [done|exact (eq_trans El (proj1 Hfed))|done].
Qed.

(** *** The merges and the filter *)

Definition averages_in (b : Body) : list (string * float) := match b with AvgByFormat c' d => if decide (c' = c) then d else [] | _ => [] end.

Lemma client_averages_mail es : client_averages c es = omap (left_avg_mail c) es ≫= averages_in.
Proof.
  unfold client_averages. induction es as [|[c' d|c' l|] es IH]; [done|..]; cbn [fmap list_fmap List.concat omap list_omap left_avg_mail]; rewrite IH; [|done..].
  destruct (decide (c' = c)); [|done]. cbn [mbind list_bind averages_in]. by rewrite decide_True.
Qed.

Lemma client_txs_mail es : client_txs c es = omap (right_avg_mail c) es ≫= txs_in.
Proof.
  unfold client_txs. induction es as [|[c' d|c' l|] es IH]; [done|..]; cbn [fmap list_fmap List.concat omap list_omap right_avg_mail]; rewrite IH; [done| |done].
  by destruct (decide (c' = c)).
Qed.

(** Each merge has all the averages. *)
Lemma merge_averages P AV es : averages_of P AV → omap (left_avg_mail c) es ≡ₚ (average_message <$> AV).*1 → averages_of P (client_averages c es).
Proof.
  intros HA Hp. apply (averages_perm P P AV); [done| |done]. rewrite client_averages_mail, Hp. apply reflexive_eq. clear.
  induction AV as [|[fmt avg] AV IH]; [done|]. rewrite !fmap_cons. cbn [fst snd average_message mbind list_bind averages_in]. rewrite decide_True by done.
  cbn [app]. f_equal. exact IH.
Qed.

Definition kept_by (AV : list (string * float)) (l : list Transaction) : list Transaction := filter (λ t, below_average AV (payment_of t) = true) l.

Lemma below_has_average AV l : kept_by AV (filter (λ t, has_average AV t = true) l) = kept_by AV l.
Proof.
  unfold kept_by. rewrite list_filter_filter. apply list_filter_iff. intros t. split; [by intros [? _]|]. intros Hb. split; [done|].
  unfold below_average, has_average, dmem in *. cbn [payment_of fst] in Hb. by destruct (dget AV (payment_format t)).
Qed.

Lemma merge_node_ok P es : 0 < chunk_size → all_lines_ok es → averages_of P (client_averages c es) →
  ∃ out kept, average_merge_node es = Ok out ∧ mapR UC3AvgFilter_filter out = Ok kept ∧ (∀ b, b ∈ kept → ∃ l, b = Transactions c l) ∧
    kept ≫= txs_in = kept_by (client_averages c es) (client_txs c es).
Proof.
  intros Hcs Hok HA. destruct (uc3_merge_streams "uc3_merge" chunk_size c es Hcs Hok) as (st & st' & out & E & Er & _ & Hm & Hcat).
  assert (Eav : dict_of (client_averages c es) = client_averages c es) by (apply dict_of_items, NoDup_fmap_2; [intros x y Exy; exact Exy|apply HA]).
  rewrite Eav in Hm, Hcat. exists out, ((λ m, Transactions c (kept_by (client_averages c es) (batch_of m))) <$> out). split; [|split; [|split]].
  - unfold average_merge_node. rewrite E. cbn [mbind res_bind]. by rewrite Er.
  - rewrite <- (list_fmap_id out) at 1. apply mapR_map. intros m Hin. by destruct (Hm m Hin) as (l & -> & _).
  - intros b (m & -> & _)%list_elem_of_fmap. by eexists.
  - rewrite <- below_has_average, <- Hcat. clear. induction out as [|m out IH]; [done|]. rewrite !fmap_cons. cbn [mbind list_bind List.concat txs_in].
    unfold kept_by in *. rewrite filter_app. f_equal. exact IH.
Qed.

Lemma merges_stage P (mevs : list (list avg_event)) : 0 < chunk_size → Forall all_lines_ok mevs → (∀ es, es ∈ mevs → averages_of P (client_averages c es)) →
  ∃ merged kept, mapR average_merge_node mevs = Ok merged ∧ mapR UC3AvgFilter_filter (List.concat merged) = Ok kept ∧
    (∀ b, b ∈ kept → ∃ l, b = Transactions c l) ∧
    kept ≫= txs_in = List.concat ((λ es, kept_by (client_averages c es) (client_txs c es)) <$> mevs).
Proof.
  intros Hcs. induction 1 as [|es mevs Hes _ IH]; intros HA; [exists [], []; split_and!; try done; by intros b ?%not_elem_of_nil|].
  destruct (merge_node_ok P es Hcs Hes) as (out & kept & E & Ek & Hk & Ht); [apply HA; left|].
  destruct IH as (merged & kept' & E' & Ek' & Hk' & Ht'); [intros; apply HA; by right|]. exists (out :: merged), (kept ++ kept'). split_and!.
  - cbn [mapR]. rewrite E. cbn [mbind res_bind]. by rewrite E'.
  - cbn [List.concat]. by rewrite (mapR_app _ _ _ _ _ Ek Ek').
  - intros b [Hb|Hb]%elem_of_app; [by apply Hk|by apply Hk'].
  - rewrite bind_app, Ht, Ht'. done.
Qed.

(** *** The answer *)

Definition settled (P : list payment) (l : list Transaction) : Prop := ∀ t, t ∈ l → clear_cut P (payment_of t).

Lemma kept_all P AV (mevs : list (list avg_event)) B : averages_of P AV → (∀ es, es ∈ mevs → averages_of P (client_averages c es)) →
  List.concat ((λ es, client_txs c es) <$> mevs) ≡ₚ B → settled P B →
  List.concat ((λ es, kept_by (client_averages c es) (client_txs c es)) <$> mevs) ≡ₚ kept_by AV B.
Proof.
  intros HA Hm HB Hs. unfold kept_by at 2. rewrite <- HB. assert (Hs' : ∀ es t, es ∈ mevs → t ∈ client_txs c es → clear_cut P (payment_of t)).
  { intros es t Hes Ht. apply Hs. rewrite <- HB. apply elem_concat. exists (client_txs c es). split; [|done]. apply list_elem_of_fmap. by exists es. }
  clear HB Hs. apply reflexive_eq. induction mevs as [|es mevs IH]; [done|]. rewrite !fmap_cons. cbn [List.concat]. rewrite filter_app, IH;
    [|intros; apply Hm; by right|intros es' t ?; apply Hs'; by right].
  f_equal. unfold kept_by. apply filter_ext_elem. intros t Ht. rewrite (same_below P (client_averages c es) AV); [done|apply Hm; left|done|by apply (Hs' es); [left|]].
Qed.

Lemma period_b_filtered batches : all_dated batches → mapR (λ l, FilterFn_filter UC3FilterPeriodB_keep (Transactions c l)) batches =
  Ok ((λ l, Transactions c (filter (λ t, in_days PERIOD_B t = true) l)) <$> batches).
Proof. intros Hd. apply filter_batches. intros l t Hl Ht. by apply period_keep_ok, (Hd l). Qed.

(** The transactions that reach the merges are those of the second period. *)
Lemma merged_txs (mevs : list (list avg_event)) batches :
  List.concat ((λ es : list avg_event, omap (right_avg_mail c) es) <$> mevs) ≡ₚ (λ l, Transactions c (filter (λ t, in_days PERIOD_B t = true) l)) <$> batches →
  List.concat ((λ es, client_txs c es) <$> mevs) ≡ₚ period_b batches.
Proof.
  intros Hp. assert (E : List.concat ((λ es, client_txs c es) <$> mevs) = List.concat ((λ es : list avg_event, omap (right_avg_mail c) es) <$> mevs) ≫= txs_in).
  { clear. induction mevs as [|es mevs IH]; [done|]. rewrite !fmap_cons. cbn [List.concat]. by rewrite IH, bind_app, client_txs_mail. }
  rewrite E, Hp. apply reflexive_eq. unfold period_b. clear. induction batches as [|l batches IH]; [done|]. rewrite fmap_cons. cbn [mbind list_bind List.concat txs_in].
  rewrite filter_app. f_equal. exact IH.
Qed.

(** What the join streams of the messages kept. *)
Lemma kept_streams kept ops txs : 1 ≤ n → (∀ b, b ∈ kept → ∃ l, b = Transactions c l) → kept ≫= txs_in ≡ₚ txs →
  (∀ t, t ∈ txs → chr 13 ∉ chars_of (uc3_row t)) → Forall joinable ops → omap (row_mail c) ops ≡ₚ kept →
  ∃ s s' rs, rows_run "uc3_join" uc3_row "--- UC3 ---" n (spill_init []) ops = Ok s ∧
    get_responses (@RowsJoin PersistentSpill (PersistentSpill_store "uc3_join") uc3_row "--- UC3 ---" n) s c = Ok (s', rs) ∧
    ∃ sent, sent ≡ₚ txs ∧ streams c n (chars_of "--- UC3 ---" ++ rows_text uc3_row sent ++ [c_newline]) rs.
Proof.
  intros Hn Hk Htxs Hcr Hops Hm. assert (Hp : ops ≫= txs_for c ≡ₚ txs).
  { rewrite mail_transactions, Hm, <- Htxs by done. apply reflexive_eq. clear -Hk. induction kept as [|b kept IH]; [done|].
    destruct (Hk b) as [l ->]; [left|]. cbn [mbind list_bind txs_for txs_in]. rewrite decide_True by done. f_equal. apply IH. intros; apply Hk; by right. }
  destruct (rows_streamed "uc3_join" uc3_row "--- UC3 ---" n ops c Hn eq_refl Hops) as (s & s' & rs & Er & Eg & Hs).
  { intros t. rewrite Hp. apply Hcr. }
  exists s, s', rs. split; [exact Er|]. split; [exact Eg|]. by exists (ops ≫= txs_for c).
Qed.

Context (batches : list (list Transaction)) (AV : list (string * float)).
Hypothesis fleet_ok : 0 < n_averages ∧ 0 < chunk_size ∧ 1 ≤ n.
Hypothesis dated : all_dated batches.
Hypothesis countable : Z.of_nat (length (period_a batches)) < 2 ^ 53.
Hypothesis AV_ok : averages_of (payment_of <$> period_a batches) AV.
Hypothesis rounding : settled (payment_of <$> period_a batches) (period_b batches).
Hypothesis clean_rows : ∀ t, t ∈ period_b batches → chr 13 ∉ chars_of (uc3_row t).

Lemma counted_payments : Z.of_nat (length (payment_of <$> period_a batches)) < 2 ^ 53.
Proof. rewrite length_fmap. exact countable. Qed.

Lemma kept_clean t : t ∈ kept_by AV (period_b batches) → chr 13 ∉ chars_of (uc3_row t).
Proof. intros [_ Ht]%list_elem_of_filter. by apply clean_rows. Qed.

(** From the averages to the rows, in any answer. *)
Lemma merged_rows_exact averages (mevs : list (list avg_event)) AV' :
  List.concat averages = average_message <$> AV' → averages_of (payment_of <$> period_a batches) AV' →
  (∀ es, es ∈ mevs → omap (left_avg_mail c) es ≡ₚ (List.concat averages).*1) →
  List.concat ((λ es : list avg_event, omap (right_avg_mail c) es) <$> mevs) ≡ₚ
    (λ l, Transactions c (filter (λ t, in_days PERIOD_B t = true) l)) <$> batches →
  Forall all_lines_ok mevs →
  ∃ merged kept, mapR average_merge_node mevs = Ok merged ∧ mapR UC3AvgFilter_filter (List.concat merged) = Ok kept ∧
    (∀ b, b ∈ kept → ∃ l, b = Transactions c l) ∧ kept ≫= txs_in ≡ₚ kept_by AV (period_b batches).
Proof.
  intros Eav HA' Hl Hr Hok. set (P := payment_of <$> period_a batches) in *.
  assert (HA : ∀ es, es ∈ mevs → averages_of P (client_averages c es)) by (intros es Hes; apply (merge_averages P AV'); [done|]; rewrite (Hl es Hes), Eav; done).
  destruct fleet_ok as (_ & Hcs & _). destruct (merges_stage P mevs Hcs Hok HA) as (merged & kept & E & Ek & Hk & Ht). exists merged, kept.
  split; [done|]. split; [done|]. split; [done|]. rewrite Ht. apply (kept_all P AV); [done|done|by apply merged_txs|done].
Qed.

Lemma uc3_answer_rows responses : uc3_answer batches responses → ∃ sent, sent ≡ₚ kept_by AV (period_b batches) ∧
  streams c n (chars_of "--- UC3 ---" ++ rows_text uc3_row sent ++ [c_newline]) responses.
Proof.
  intros [grouped aevs averages rights mevs merged kept ops s s' Eg Fa Ha Ea Er Hl Hr Hok Em Ek Hops Hmail Es Ers].
  destruct (sums_grouped batches dated) as (grouped' & gs & Eg' & Egs & Hgs & HP). rewrite Eg in Eg'. injection Eg' as <-. rewrite Egs in Fa.
  destruct fleet_ok as (Hk & _ & Hn). destruct (averages_stage _ gs aevs Hk Hgs HP counted_payments Fa Ha) as (AV' & averages' & Ea' & Eav & HA').
  rewrite Ea in Ea'. injection Ea' as <-. rewrite (period_b_filtered batches dated) in Er. injection Er as <-.
  destruct (merged_rows_exact averages mevs AV' Eav HA' Hl Hr Hok) as (merged' & kept' & Em' & Ek' & Hkept & Htxs).
  rewrite Em in Em'. injection Em' as <-. rewrite Ek in Ek'. injection Ek' as <-.
  destruct (kept_streams kept ops _ Hn Hkept Htxs kept_clean Hops Hmail) as (s1 & s1' & rs & Es1 & Ers1 & sent & Hs & Hst).
  rewrite Es in Es1. injection Es1 as <-. rewrite Ers in Ers1. injection Ers1 as _ <-. by exists sent.
Qed.

Definition to_left_avg (b : Body) : avg_event := match b with AvgByFormat c d => AvgLeft c d | _ => AvgCheckpoint end.
Definition to_right_avg (b : Body) : avg_event := match b with Transactions c l => AvgRight c l | _ => AvgCheckpoint end.

Lemma uc3_answer_exists : (∀ t, t ∈ period_b batches → tx_line_ok t = true) → ∃ responses, uc3_answer batches responses.
Proof.
  intros Hlines. destruct (sums_grouped batches dated) as (grouped & gs & Eg & Egs & Hgs & HP). destruct fleet_ok as (Hk & _ & Hn).
  destruct (plain_fed c n_averages (List.concat grouped) is_sums) as (aevs & Fa & Ha).
  { rewrite Egs. apply Forall_forall. by intros m (e & -> & _)%list_elem_of_fmap. }
  pose proof Fa as Fa'. rewrite Egs in Fa'. destruct (averages_stage _ gs aevs Hk Hgs HP counted_payments Fa' Ha) as (AV' & averages & Ea & Eav & HA').
  set (rights := (λ l, Transactions c (filter (λ t, in_days PERIOD_B t = true) l)) <$> batches).
  set (es := (to_left_avg <$> (List.concat averages).*1) ++ (to_right_avg <$> rights)).
  assert (Hleft : ∀ b, b ∈ (List.concat averages).*1 → left_avg_mail c (to_left_avg b) = Some b ∧ right_avg_mail c (to_left_avg b) = None).
  { rewrite Eav. intros b (m & -> & (e & -> & _)%list_elem_of_fmap)%list_elem_of_fmap. cbn. by rewrite decide_True. }
  assert (Hright : ∀ b, b ∈ rights → right_avg_mail c (to_right_avg b) = Some b ∧ left_avg_mail c (to_right_avg b) = None).
  { intros b (l & -> & _)%list_elem_of_fmap. cbn. by rewrite decide_True. }
  assert (Hl : ∀ es', es' ∈ [es] → omap (left_avg_mail c) es' ≡ₚ (List.concat averages).*1).
  { intros es' ->%list_elem_of_singleton. unfold es. by rewrite (omap_sides (left_avg_mail c)) by (intros b Hb; first [by apply (Hleft b Hb)|by apply (Hright b Hb)]). }
  assert (Hr : List.concat ((λ es : list avg_event, omap (right_avg_mail c) es) <$> [es]) ≡ₚ rights).
  { cbn [fmap list_fmap List.concat]. unfold es. rewrite app_nil_r, omap_app, Permutation_app_comm, <- omap_app.
    by rewrite (omap_sides (right_avg_mail c)) by (intros b Hb; first [by apply (Hleft b Hb)|by apply (Hright b Hb)]). }
  assert (Hok : Forall all_lines_ok [es]).
  { constructor; [|done]. intros e [(b & -> & Hb)%list_elem_of_fmap|(b & -> & Hb)%list_elem_of_fmap]%elem_of_app.
    - rewrite Eav in Hb. by apply list_elem_of_fmap in Hb as (m & -> & (x & -> & _)%list_elem_of_fmap).
    - apply list_elem_of_fmap in Hb as (l & -> & Hl'). cbn [to_right_avg]. apply Forall_forall. intros t Ht. apply Hlines. unfold period_b.
      apply list_elem_of_filter in Ht as [Hd Ht]. apply list_elem_of_filter. split; [done|]. apply elem_concat. by exists l. }
  destruct (merged_rows_exact averages [es] AV' Eav HA' Hl Hr Hok) as (merged & kept & Em & Ek & Hkept & Htxs).
  assert (Hjoin : Forall joinable (OJoin <$> kept)) by (apply Forall_fmap, Forall_forall; by intros b (l & ->)%Hkept).
  assert (Hmail : omap (row_mail c) (OJoin <$> kept) = kept).
  { clear -Hkept. induction kept as [|b kept IH]; [done|]. rewrite fmap_cons. destruct (Hkept b) as [l ->]; [left|]. cbn [omap list_omap row_mail body_client].
    rewrite decide_True by done. f_equal. apply IH. intros; apply Hkept; by right. }
  destruct (kept_streams kept (OJoin <$> kept) _ Hn Hkept Htxs kept_clean Hjoin) as (s & s' & rs & Es & Ers & _); [by rewrite Hmail|].
  exists rs. econstructor; [exact Eg|exact Fa|exact Ha|exact Ea|by apply period_b_filtered|exact Hl|exact Hr|exact Hok|exact Em|exact Ek|exact Hjoin|by rewrite Hmail|exact Es|exact Ers].
Qed.
End network.

(** ** The script *)

Definition row_payment (r : Row) : payment := (r_payment_format r, r_amount_paid r).

(** A dict of pairs, kept as two dicts with the same keys. *)
Definition firsts (d : pydict string (float * Z)) : pydict string float := (λ e, (e.1, e.2.1)) <$> d.
Definition seconds (d : pydict string (float * Z)) : pydict string Z := (λ e, (e.1, e.2.2)) <$> d.

Lemma values_dget {V W} (f : V → W) (d : pydict string V) k : dget ((λ e, (e.1, f e.2)) <$> d) k = f <$> dget d k.
Proof. induction d as [|[k' v] d IH]; [done|]. rewrite fmap_cons. cbn [dget fst snd]. by destruct (decide (pyeq k' k)). Qed.

Lemma values_dset {V W} (f : V → W) (d : pydict string V) k v : (λ e, (e.1, f e.2)) <$> dset d k v = dset ((λ e, (e.1, f e.2)) <$> d) k (f v).
Proof.
  induction d as [|[k' v'] d IH]; [done|]. rewrite fmap_cons. cbn [dset fst snd]. destruct (decide (pyeq k' k)); rewrite fmap_cons; [done|]. by rewrite IH.
Qed.

Lemma firsts_dset d k v : firsts (dset d k v) = dset (firsts d) k v.1.
Proof. apply (values_dset fst). Qed.
Lemma seconds_dset d k v : seconds (dset d k v) = dset (seconds d) k v.2.
Proof. apply (values_dset snd). Qed.

Lemma pair_add d fmt s k : add_block d fmt s k = dset d fmt (fadd (dget_or (f_of_Z 0) (firsts d) fmt) s, dget_or 0 (seconds d) fmt + k).
Proof.
  unfold add_block, dget_or, firsts, seconds. rewrite (values_dget fst d), (values_dget snd d). by destruct (dget d fmt).
Qed.

Section script.
Context (groupby_format : list Row → list (string * list Row)) (column_sum : list float → float).

(** What the script asks of pandas: [groupby] gives the rows of each format that
    occurs, [sum] adds the numbers of a column in some way; what is not a number it
    leaves out. *)
Record pandas_sums : Prop := {
  ps_once : ∀ l, NoDup (groupby_format l).*1;
  ps_group : ∀ l fmt grp, (fmt, grp) ∈ groupby_format l → grp = filter (λ r, r_payment_format r = fmt) l ∧ grp ≠ [];
  ps_all : ∀ l r, r ∈ l → r_payment_format r ∈ (groupby_format l).*1;
  ps_sum : ∀ l, l ≠ [] → Forall (λ x, is_nan x = false) l → adds l (column_sum l)
}.
Context (ps : pandas_sums).

Definition script_group (g : string * list Row) : (string * (float * Z)) * list payment :=
  ((g.1, (column_sum (r_amount_paid <$> g.2), Z.of_nat (length g.2))), row_payment <$> g.2).

Definition numbers (l : list Row) : Prop := Forall (λ r, is_nan (r_amount_paid r) = false) l.

Lemma numbers_filter (P : Row → bool) l : numbers l → numbers (filter (λ r, P r = true) l).
Proof. unfold numbers. rewrite !Forall_forall. intros Hl r [_ Hr]%list_elem_of_filter. by apply Hl. Qed.

Lemma script_groups l : numbers l → Forall group_ok (script_group <$> groupby_format l) ∧ List.concat (script_group <$> groupby_format l).*2 ≡ₚ row_payment <$> l.
Proof.
  intros Hnum. assert (Hrow : ∀ fmt, row_payment <$> filter (λ r, r_payment_format r = fmt) l = of_format fmt (row_payment <$> l)).
  { intros fmt. unfold of_format. clear. induction l as [|r l IH]; [done|]. rewrite fmap_cons, !filter_cons. cbn [row_payment fst].
    destruct (decide (r_payment_format r = fmt)); [rewrite fmap_cons|]; by rewrite IH. }
  split.
  - apply Forall_fmap, Forall_forall. intros [fmt grp] Hg. destruct (ps_group ps _ _ _ Hg) as [Egrp Hne]. split; cbn [script_group fst snd].
    + rewrite Egrp, Hrow. apply Forall_forall. by intros p [Hp _]%list_elem_of_filter.
    + by destruct grp.
    + rewrite <- list_fmap_compose. apply (ps_sum ps); [by destruct grp|]. rewrite Egrp. apply Forall_fmap, Forall_forall. intros r [_ Hr]%list_elem_of_filter.
      cbn. revert r Hr. by apply Forall_forall.
    + by rewrite length_fmap.
  - assert (E : (script_group <$> groupby_format l).*2 = (λ k, of_format k (row_payment <$> l)) <$> (groupby_format l).*1).
    { rewrite <- !list_fmap_compose. apply list_fmap_ext. intros i [fmt grp] Hi. destruct (ps_group ps l fmt grp (list_elem_of_lookup_2 _ _ _ Hi)) as [-> _]. apply Hrow. }
    rewrite E. apply formats_perm; [apply (ps_once ps)|]. intros p (r & -> & Hr)%list_elem_of_fmap. by apply (ps_all ps).
Qed.

Lemma add_group_pairs gs : ∀ d, foldl (add_group column_sum) (firsts d, seconds d) gs =
  let d' := foldl add_entry d (script_group <$> gs).*1 in (firsts d', seconds d').
Proof.
  induction gs as [|[fmt grp] gs IH]; intros d; [done|]. rewrite !fmap_cons. cbn [foldl]. rewrite <- IH. f_equal.
  unfold add_entry. cbn [script_group fst snd add_group]. by rewrite pair_add, firsts_dset, seconds_dset.
Qed.

Definition rows_a (chunks : list (list Row)) : list Row := filter (λ r, in_period r = true) (filter (λ r, usd_row r = true) (List.concat chunks)).
Definition rows_b (chunks : list (list Row)) : list Row := filter (λ r, uc3_period_b r = true) (filter (λ r, usd_row r = true) (List.concat chunks)).

Lemma chunk_totals P d chunk : numbers chunk → totals_ok P d → let rows := filter (λ r, in_period r = true) (filter (λ r, usd_row r = true) chunk) in
  ∃ d', uc3_chunk_a groupby_format column_sum (firsts d, seconds d) chunk = (firsts d', seconds d') ∧ totals_ok (P ++ (row_payment <$> rows)) d'.
Proof.
  intros Hnum Hd rows. unfold uc3_chunk_a. fold rows. destruct rows as [|r rows'] eqn:E; [exists d; by rewrite app_nil_r|]. rewrite <- E.
  eexists. split; [apply add_group_pairs|]. destruct (script_groups rows) as [Hg Hp]; [by apply numbers_filter, numbers_filter|].
  apply (totals_ok_perm (P ++ List.concat (script_group <$> groupby_format rows).*2)); [by rewrite Hp|by apply add_groups_ok].
Qed.

Lemma script_totals chunks : numbers (List.concat chunks) → ∀ P d, totals_ok P d → ∃ d',
  foldl (uc3_chunk_a groupby_format column_sum) (firsts d, seconds d) chunks = (firsts d', seconds d') ∧ totals_ok (P ++ (row_payment <$> rows_a chunks)) d'.
Proof.
  unfold rows_a. induction chunks as [|chunk chunks IH]; intros Hnum P d Hd; [exists d; by rewrite app_nil_r|]. cbn [foldl List.concat] in *.
  apply Forall_app in Hnum as [Hnum Hnum'].
  rewrite !filter_app, fmap_app, app_assoc. destruct (chunk_totals P d chunk Hnum Hd) as (d1 & -> & H1). by apply IH.
Qed.

Lemma uc3_pass1_ok chunks : numbers (List.concat chunks) → Z.of_nat (length (rows_a chunks)) < 2 ^ 53 → ∃ AV, uc3_pass1 groupby_format column_sum chunks = Ok AV ∧
  averages_of (row_payment <$> rows_a chunks) AV.
Proof.
  intros Hnum Hlen. destruct (script_totals chunks Hnum [] [] totals_ok_nil) as (d & E & Hd). change (firsts [], seconds []) with (@nil (string * float), @nil (string * Z)) in E.
  cbn [app] in Hd. destruct (averages_made _ d Hd) as (AV & Eav & HA); [by rewrite length_fmap|]. exists AV. split; [|done]. unfold uc3_pass1. rewrite E.
  assert (Em : mapR (λ e : string * float, n ← of_opt KeyError (dget (seconds d) e.1); avg ← py_fdiv e.2 (f_of_Z n); Ok (e.1, avg)) (firsts d) =
    mapR (λ e : string * (float * Z), avg ← py_fdiv e.2.1 (f_of_Z e.2.2); Ok (e.1, avg)) d).
  { destruct Hd as [Hwf _]. assert (Hin : ∀ e, e ∈ d → dget (seconds d) e.1 = Some e.2.2).
    { intros [k v] He. unfold seconds. rewrite (values_dget snd d). cbn [fst snd]. by rewrite (elem_dget _ _ _ Hwf He). }
    unfold firsts. generalize (seconds d), Hin. clear. intros cnt. induction d as [|e d IH]; intros Hin; [done|]. rewrite fmap_cons. cbn [mapR fst snd].
    rewrite (Hin e) by left. cbn [of_opt mbind res_bind]. rewrite IH; [done|]. intros; apply Hin; by right. }
  rewrite Em, Eav. cbn [mbind res_bind]. f_equal. apply dict_of_items, NoDup_fmap_2; [intros x y Exy; exact Exy|apply HA].
Qed.

Lemma matches_below AV r : uc3_matches AV r = below_average AV (row_payment r).
Proof.
  unfold uc3_matches, below_average, below. cbn [row_payment fst snd]. destruct (dget AV (r_payment_format r)) as [avg|]; [|done]. rewrite fmul_comm.
  change (f_of_dec 1 (-2)) with PERCENTAGE. destruct avg as [s|s| |s m e]; [done..| |done]. cbn [is_nan negb andb].
  assert (fmul PERCENTAGE Floats.SpecFloat.S754_nan = Floats.SpecFloat.S754_nan) as -> by (by destruct PERCENTAGE). by destruct (r_amount_paid r).
Qed.

Lemma uc3_pass2_spec AV file chunks : uc3_pass2 AV file chunks =
  let rows := uc3_columns <$> filter (λ r, below_average AV (row_payment r) = true) (rows_b chunks) in
  (Z.of_nat (length rows), imap (λ i r, (Z.of_nat i, r)) rows).
Proof.
  cbv zeta. unfold uc3_pass2.
  set (cols := λ chunk : list Row, uc3_columns <$> (filter (λ r, uc3_matches AV r = true) (filter (λ r, uc3_period_b r = true) (filter (λ r, usd_row r = true) chunk)))).
  assert (E : ∀ s, foldl (uc3_chunk_b AV) s chunks = foldl sink_write s (cols <$> chunks)).
  { induction chunks as [|chunk chunks' IH]; intros s; [done|]. rewrite fmap_cons. cbn [foldl]. rewrite IH. f_equal. unfold uc3_chunk_b, cols.
    by destruct (filter (λ r, uc3_period_b r = true) _). }
  rewrite E, sink_spec. clear E.
  assert (List.concat (cols <$> chunks) = uc3_columns <$> filter (λ r, below_average AV (row_payment r) = true) (rows_b chunks)) as ->; [|done].
  unfold rows_b. induction chunks as [|chunk chunks' IH]; [done|]. rewrite fmap_cons. cbn [List.concat]. rewrite IH, !filter_app, fmap_app. f_equal.
  unfold cols. f_equal. apply filter_ext_elem. intros r _. by rewrite matches_below.
Qed.
End script.

(** ** The same rows *)

Lemma same_days r t : same_transfer r t → in_days PERIOD_A t = usd_row r && in_period r ∧ in_days PERIOD_B t = usd_row r && uc3_period_b r.
Proof.
  intros Hs. destruct (same_period r t Hs) as [Ha _]. destruct Hs as [_ (d & Ed & Hv & Er) _ _ _ Hc _]. unfold in_days, usd_row, dated in *. rewrite Ed, Hc in *.
  pose proof (period_b_exact r d Er Hv) as Hb. split; f_equal; apply eq_true_iff_eq; [rewrite Ha|rewrite Hb]; rewrite <- date_window; unfold PERIOD_A, PERIOD_B; cbn [fst snd];
    by rewrite andb_true_iff.
Qed.

(** A row of the script, as the response shows it. *)
Definition uc3_text (k : Z * string * string * float) : chars :=
  let '(from_bank, account, format, paid) := k in
  chars_of (nl +:+ "bank_id: " +:+ pad_right 20 (str_int from_bank) +:+ " account: " +:+ pad_right 20 account +:+
    " payment_format: " +:+ pad_right 20 format +:+ " amount: " +:+ float_repr paid).

Definition shown (t : Transaction) (r : Row) : Prop := chars_of (uc3_row t) = uc3_text (uc3_columns r) ∧ payment_of t = row_payment r.

Lemma same_shown r t : same_transfer r t → shown t r.
Proof. intros [_ _ [Hf Hfa] _ Ha _ Hm]. unfold shown, uc3_row, uc3_text, uc3_columns, payment_of, row_payment. by rewrite Hf, Hfa, Ha, Hm. Qed.

(** Equal tests select the same lines. *)
Lemma same_selected {P : Transaction → bool} {Q Q' : Row → bool} rows ts : (∀ r t, same_transfer r t → P t = Q' r && Q r) → Forall2 same_transfer rows ts →
  Forall2 shown (filter (λ t, P t = true) ts) (filter (λ r, Q r = true) (filter (λ r, Q' r = true) rows)).
Proof.
  intros HP. induction 1 as [|r t rows ts Hrt _ IH]; [constructor|]. specialize (HP r t Hrt). rewrite (filter_cons _ t), (filter_cons _ r).
  destruct (decide (P t = true)) as [Ht|Ht], (decide (Q' r = true)) as [Hr|Hr]; rewrite ?(filter_cons _ r);
    [destruct (decide (Q r = true)) as [Hq|Hq]; [constructor; [by apply same_shown|done]|]| |destruct (decide (Q r = true)) as [Hq|Hq]|done];
    try done; exfalso; destruct (P t), (Q r), (Q' r); done.
Qed.

Lemma shown_payments ts rows : Forall2 shown ts rows → payment_of <$> ts = row_payment <$> rows.
Proof. induction 1 as [|t r ts rows [_ E] _ IH]; [done|]. by rewrite !fmap_cons, E, IH. Qed.

Lemma shown_kept AV ts rows : Forall2 shown ts rows → Forall2 shown (kept_by AV ts) (filter (λ r, below_average AV (row_payment r) = true) rows).
Proof.
  unfold kept_by. induction 1 as [|t r ts rows Htr _ IH]; [constructor|]. rewrite !filter_cons. destruct Htr as [H1 H2]. rewrite H2.
  destruct (decide (below_average AV (row_payment r) = true)); [by constructor|done].
Qed.

Lemma shown_text ts rows : Forall2 shown ts rows → rows_text uc3_row ts = List.concat (uc3_text <$> (uc3_columns <$> rows)).
Proof. unfold rows_text. induction 1 as [|t r l rows [Htr _] _ IH]; [done|]. rewrite !fmap_cons. cbn [List.concat]. by rewrite Htr, IH. Qed.

Lemma settled_perm P P' l l' : P ≡ₚ P' → l ≡ₚ l' → settled P l → settled P' l'.
Proof.
  intros HP Hl Hs t. rewrite <- Hl. intros Ht s s'. assert (Hf : of_format (payment_of t).1 P ≡ₚ of_format (payment_of t).1 P') by (unfold of_format; by rewrite HP).
  specialize (Hs t Ht s s'). unfold amounts, average in *. rewrite <- Hf. exact Hs.
Qed.

Definition of_period (period : date * date) (ts : list Transaction) : list Transaction := filter (λ t, in_days period t = true) ts.

(** C7: UC3 agrees with the script that computes the expected answers ([_uc3_pass1],
    [_uc3_pass2]), for any pandas that groups and adds as it documents. For a file whose
    lines the client parses into the transactions of its batches, in any order, and the
    script reads in chunks of any size, of numbers only, such that the rounding of the sums decides no
    payment (whatever way the amounts of its format are added up, a payment of the second
    period is on the same side of a hundredth of the average): the script finds the
    averages without an error and writes the rows that qualify, numbered from 0, whatever
    the file held before; there is an answer of the network; and whatever way the
    messages are spread over the instances and interleaved with other clients' and with
    checkpoints, every answer is a stream of responses of at most a batch of lines, the
    last one marked, whose text is the header, a line for each row of the script, in some
    order, and a newline. *)
Theorem uc3_matches_oracle `{PyHash} (groupby_format : list Row → list (string * list Row)) (column_sum : list float → float)
    (n_averages chunk_size n : Z) (c : uuid) (file : list (Z * (Z * string * string * float)))
    (lines : list chars) (chunks : list (list Row)) (ts : list Transaction) (batches : list (list Transaction)) :
  pandas_sums groupby_format column_sum → 0 < n_averages → 0 < chunk_size → 1 ≤ n →
  Forall2 line_row lines (List.concat chunks) → Forall2 (λ line t, parse_transaction line = Ok t) lines ts → List.concat batches ≡ₚ ts →
  numbers (List.concat chunks) → Z.of_nat (length ts) < 2 ^ 53 → (∀ t, t ∈ ts → tx_line_ok t = true ∧ chr 13 ∉ chars_of (uc3_row t)) →
  settled (payment_of <$> of_period PERIOD_A ts) (of_period PERIOD_B ts) →
  ∃ count written, uc3_streaming groupby_format column_sum file chunks = Ok (count, written) ∧
    count = Z.of_nat (length written) ∧ written.*1 = seqZ 0 count ∧
    (∃ responses, uc3_answer n_averages chunk_size n c batches responses) ∧
    ∀ responses, uc3_answer n_averages chunk_size n c batches responses →
      ∃ rows, rows ≡ₚ written.*2 ∧ streams c n (chars_of "--- UC3 ---" ++ List.concat (uc3_text <$> rows) ++ [c_newline]) responses.
Proof.
  intros Hps Hk Hcs Hn Hlines Hts Hb Hnum Hlen Hclean Hset. pose proof (parsed_transfers lines _ ts Hlines Hts) as Hrt.
  assert (SA : Forall2 shown (of_period PERIOD_A ts) (rows_a chunks)) by (apply (same_selected _ _ (λ r t Hs, proj1 (same_days r t Hs)) Hrt)).
  assert (SB : Forall2 shown (of_period PERIOD_B ts) (rows_b chunks)) by (apply (same_selected _ _ (λ r t Hs, proj2 (same_days r t Hs)) Hrt)).
  assert (HA : of_period PERIOD_A ts ≡ₚ period_a batches) by (unfold of_period, period_a; by rewrite Hb).
  assert (HB : of_period PERIOD_B ts ≡ₚ period_b batches) by (unfold of_period, period_b; by rewrite Hb).
  assert (HlenA : (length (of_period PERIOD_A ts) ≤ length ts)%nat) by apply length_filter.
  assert (HinB : ∀ t, t ∈ period_b batches → t ∈ ts) by (intros t; rewrite <- HB; by intros [_ Ht]%list_elem_of_filter).
  destruct (uc3_pass1_ok groupby_format column_sum Hps chunks Hnum) as (AV & E1 & HAV); [rewrite <- (Forall2_length _ _ _ SA); lia|].
  unfold uc3_streaming. rewrite E1. cbn [mbind res_bind]. rewrite uc3_pass2_spec. cbv zeta. set (rows := filter (λ r, below_average AV (row_payment r) = true) (rows_b chunks)).
  eexists _, _. split; [reflexivity|]. rewrite length_imap. split; [done|]. destruct (numbered (uc3_columns <$> rows)) as [-> ->]. split; [done|].
  assert (Hdated : all_dated batches).
  { intros l t Hl Ht. assert (Hin : t ∈ ts) by (rewrite <- Hb; apply elem_concat; by exists l). apply list_elem_of_lookup in Hin as [i Hi].
    destruct (Forall2_lookup_r _ _ _ _ _ Hrt Hi) as (r & _ & Hr). by apply (st_wf r t). }
  pose proof (fmap_Permutation payment_of _ _ HA) as HP.
  rewrite <- (shown_payments _ _ SA) in HAV. pose proof (averages_perm _ _ AV AV HP (reflexivity _) HAV) as HAV'.
  assert (Hset' : settled (payment_of <$> period_a batches) (period_b batches)) by (apply (settled_perm _ _ _ _ HP HB Hset)).
  assert (Hcnt : Z.of_nat (length (period_a batches)) < 2 ^ 53) by (rewrite <- HA; lia).
  assert (Hcr : ∀ t, t ∈ period_b batches → chr 13 ∉ chars_of (uc3_row t)) by (intros t Ht; by apply Hclean, HinB).
  split.
  - apply (uc3_answer_exists n_averages chunk_size n c batches AV (conj Hk (conj Hcs Hn)) Hdated Hcnt HAV' Hset' Hcr). intros t Ht. by apply Hclean, HinB.
  - intros responses Hr. destruct (uc3_answer_rows n_averages chunk_size n c batches AV (conj Hk (conj Hcs Hn)) Hdated Hcnt HAV' Hset' Hcr responses Hr) as (sent & Hp & Hs).
    assert (Hp' : kept_by AV (of_period PERIOD_B ts) ≡ₚ sent) by (rewrite Hp; unfold kept_by; by rewrite HB).
    destruct (Permutation_Forall2 Hp' (shown_kept AV _ _ SB)) as (rows' & Hrp & Hrf). exists (uc3_columns <$> rows').
    split; [by rewrite <- Hrp|]. by rewrite <- (shown_text sent rows').
Qed.

(** ** A concrete file *)

Definition demo_groupby (l : list Row) : list (string * list Row) :=
  (λ f, (f, filter (λ r, r_payment_format r = f) l)) <$> remove_dups (r_payment_format <$> l).
Definition demo_sum (l : list float) : float := foldl fadd (f_of_Z 0) l.

Lemma demo_pandas_sums : pandas_sums demo_groupby demo_sum.
Proof.
  assert (E : ∀ l, (demo_groupby l).*1 = remove_dups (r_payment_format <$> l)) by (intros l; unfold demo_groupby; rewrite <- list_fmap_compose; apply list_fmap_id).
  split.
  - intros l. rewrite E. apply NoDup_remove_dups.
  - intros l fmt grp (f & [= -> ->] & Hf)%list_elem_of_fmap. split; [done|]. apply elem_of_remove_dups, list_elem_of_fmap in Hf as (r & -> & Hr). intros E0.
    assert (Hin : r ∈ filter (λ r', r_payment_format r' = r_payment_format r) l) by (by apply list_elem_of_filter). rewrite E0 in Hin. by apply not_elem_of_nil in Hin.
  - intros l r Hr. rewrite E. apply elem_of_remove_dups, list_elem_of_fmap. by exists r.
  - intros l _ _. apply (adds_loop l [] (f_of_Z 0)). constructor.
Qed.

#[local] Instance uc3_demo_hash : PyHash := {| hash_str s := Z.of_nat (String.length s); hash_uuid _ := 0; hash_identity _ _ := 0 |}.

Definition demo_uc3_line (day paid : string) : chars :=
  chars_of ("2022/09/" +:+ day +:+ " 00:00,10,A,20,B," +:+ paid +:+ ",US Dollar," +:+ paid +:+ ",US Dollar,Wire,0" +:+ nl).
Definition demo_uc3_row (day : string) (paid : Z) : Row := mkRow ("2022/09/" +:+ day +:+ " 00:00") 10 "A" 20 "B" (f_of_Z paid) "US Dollar" "Wire".
Definition demo_uc3_tx (day paid : Z) : Transaction :=
  mkTx (TsDate (mkDT 2022 9 day 0 0 0)) "10" "A" "20" "B" (f_of_Z paid) "US Dollar" (f_of_Z paid) "US Dollar" "Wire".

(** The average of 3 and 5 is 4: of the payments of the second period, nothing is below
    a hundredth of it and 1 is not. *)
Lemma uc3_matches_oracle_witness :
  let chunks := [[demo_uc3_row "02" 3; demo_uc3_row "07" 0]; [demo_uc3_row "04" 5; demo_uc3_row "07" 1]]%string in
  uc3_streaming demo_groupby demo_sum [] chunks = Ok (1, [(0, (10, "A", "Wire", f_of_Z 0))])%string ∧
  ∃ responses rows, uc3_answer 2 1 100 (uuid_lit 4) [[demo_uc3_tx 7 0; demo_uc3_tx 2 3]; [demo_uc3_tx 4 5; demo_uc3_tx 7 1]] responses ∧
    rows ≡ₚ [(10, "A", "Wire", f_of_Z 0)]%string ∧
    streams (uuid_lit 4) 100 (chars_of "--- UC3 ---" ++ List.concat (uc3_text <$> rows) ++ [c_newline]) responses.
Proof.
  intros chunks. assert (E : uc3_streaming demo_groupby demo_sum [] chunks = Ok (1, [(0, (10, "A", "Wire", f_of_Z 0))])%string) by (vm_compute; reflexivity).
  split; [exact E|].
  destruct (uc3_matches_oracle demo_groupby demo_sum 2 1 100 (uuid_lit 4) []
    [demo_uc3_line "02" "3"; demo_uc3_line "07" "0"; demo_uc3_line "04" "5"; demo_uc3_line "07" "1"]%string chunks
    [demo_uc3_tx 2 3; demo_uc3_tx 7 0; demo_uc3_tx 4 5; demo_uc3_tx 7 1]
    [[demo_uc3_tx 7 0; demo_uc3_tx 2 3]; [demo_uc3_tx 4 5; demo_uc3_tx 7 1]] demo_pandas_sums) as (count & written & Ew & _ & _ & [responses Hr] & Hall); [lia..| | | | | | | |].
  - repeat constructor; [apply (line_read _ _ (mkDT 2022 9 2 0 0 0) "10" "20" "3" "US Dollar" "3" "0")
      |apply (line_read _ _ (mkDT 2022 9 7 0 0 0) "10" "20" "0" "US Dollar" "0" "0")
      |apply (line_read _ _ (mkDT 2022 9 4 0 0 0) "10" "20" "5" "US Dollar" "5" "0")
      |apply (line_read _ _ (mkDT 2022 9 7 0 0 0) "10" "20" "1" "US Dollar" "1" "0")]; by vm_compute.
  - repeat constructor; by vm_compute.
  - cbn [List.concat app]. apply perm_swap.
  - repeat (apply Forall_cons; split; [vm_compute; reflexivity|]). apply Forall_nil. exact I.
  - done.
  - apply Forall_forall. apply (bool_decide_unpack _). vm_compute. exact I.
  - intros t [_ Ht]%list_elem_of_filter. assert (Hw : (payment_of t).1 = "Wire"%string).
    { unfold payment_of. cbn [fst]. revert t Ht. apply Forall_forall. repeat (apply Forall_cons; split; [reflexivity|]). apply Forall_nil. exact I. }
    apply (whole_clear_cut 8 _ _ [3; 5]); [vm_compute; reflexivity|rewrite Hw; vm_compute; reflexivity|apply Forall_cons; split; [lia|apply Forall_cons; split; [lia|apply Forall_nil; exact I]]|discriminate].
  - rewrite E in Ew. injection Ew as <- <-. destruct (Hall responses Hr) as (rows & Hp & Hs). exists responses, rows. split; [exact Hr|]. split; [exact Hp|exact Hs].
Defined.
