(* ===== verification/SampledMatch.v ===== *)
(** * The modes agree

    A client's file is a sample of the rows of the data set, in their order, and the
    answers [gen_results] computes from the table in memory are those that
    [gen_results_streaming] computes from any chunks of it. *)

From S2P Require Import Prelude.
From S2P Require Import PyDict.
From S2P Require Import PyValues.
From S2P Require Import PyText.
From S2P Require Import PyTime.
From S2P Require Import PyFloat.
From S2P Require Import Wire.
From S2P Require Import GroupBy.
From S2P Require Import Aggregates.
From S2P Require Import MergeFns.
From S2P Require Import Oracle.
From S2P Require Import OracleProps.
From S2P Require Import OracleTables.
From S2P Require Import Sampled.
From S2P Require Import UC1Match.
From S2P Require Import UC2Match.
From S2P Require Import UC3Sums.
From S2P Require Import UC3Match.

(** ** UC1, UC4 and UC5 *)

Lemma filter_twice {A} (P Q : A → bool) (l : list A) : filter (λ x, P x = true) (filter (λ x, Q x = true) l) = filter (λ x, Q x && P x = true) l.
Proof.
  induction l as [|x l IH]; [done|]. rewrite (filter_cons _ x), (filter_cons (λ y, Q y && P y = true) x).
  destruct (Q x) eqn:Eq; cbn [andb]; [|done]. rewrite decide_True by done. rewrite filter_cons. destruct (decide (P x = true)); by rewrite IH.
Qed.

Lemma uc1_modes chunks : (uc1_streaming [] chunks).2.*2 = gen_uc1_results (List.concat chunks).
Proof. rewrite uc1_streaming_spec. cbn [snd]. rewrite (proj2 (numbered _)). unfold gen_uc1_results. by rewrite filter_twice. Qed.

Lemma uc4_modes PAIR_BATCH drop_duplicates chunks : drop_duplicates [] = [] →
  uc4_streaming PAIR_BATCH drop_duplicates chunks = gen_uc4_results PAIR_BATCH drop_duplicates (List.concat chunks).
Proof.
  intros Hd. unfold uc4_streaming, gen_uc4_results. rewrite <- edge_chunks_concat. destruct (edge_chunks chunks); [|done].
  cbn [List.concat]. by rewrite Hd.
Qed.

Section rates.
Context (api_get_rates : date → res (pydict string float)).
Abbreviation rate_cache := (pydict date (pydict string float)).

Lemma usd_amounts_app (l1 l2 : list Row) : ∀ cache, usd_amounts api_get_rates cache (l1 ++ l2) =
  ('(cache, a1) ← usd_amounts api_get_rates cache l1; '(cache, a2) ← usd_amounts api_get_rates cache l2; Ok (cache, a1 ++ a2)).
Proof.
  induction l1 as [|r l1 IH]; intros cache; cbn [app usd_amounts mbind res_bind].
  - by destruct (usd_amounts api_get_rates cache l2) as [[]|].
  - destruct (get_rates api_get_rates cache _) as [[cache1 rates]|]; [|done]. cbn [mbind res_bind]. rewrite IH.
    destruct (usd_amounts api_get_rates cache1 l1) as [[cache2 a1]|]; [|done]. cbn [mbind res_bind].
    by destruct (usd_amounts api_get_rates cache2 l2) as [[cache3 a2]|].
Qed.

Definition uc5_rows (l : list Row) : list Row := filter (λ r, wire_ach r = true) (filter (λ r, uc5_period r = true) l).
Definition cents (l : list float) : Z := Z.of_nat (length (filter (λ x, flt x (f_of_Z 1) = true) l)).

Lemma uc5_chunk_spec (st : rate_cache * Z) chunk :
  uc5_chunk api_get_rates st chunk = ('(cache, l) ← usd_amounts api_get_rates st.1 (uc5_rows chunk); Ok (cache, st.2 + cents l)).
Proof.
  unfold uc5_chunk. fold (uc5_rows chunk). destruct st as [cache n]. destruct (uc5_rows chunk); [|done].
  cbn [usd_amounts mbind res_bind fst snd]. unfold cents. cbn. by rewrite Z.add_0_r.
Qed.

Lemma uc5_chunks chunks : ∀ (st : rate_cache * Z), foldR (uc5_chunk api_get_rates) st chunks =
  ('(cache, l) ← usd_amounts api_get_rates st.1 (uc5_rows (List.concat chunks)); Ok (cache, st.2 + cents l)).
Proof.
  induction chunks as [|chunk chunks IH]; intros [cache n]; cbn [foldR List.concat].
  - unfold cents. cbn. by rewrite Z.add_0_r.
  - rewrite uc5_chunk_spec. unfold uc5_rows at 2. rewrite !filter_app. fold (uc5_rows chunk) (uc5_rows (List.concat chunks)). rewrite usd_amounts_app. cbn [fst snd].
    destruct (usd_amounts api_get_rates cache (uc5_rows chunk)) as [[cache1 a1]|]; [|done]. cbn [mbind res_bind]. rewrite IH. cbn [fst snd].
    destruct (usd_amounts api_get_rates cache1 _) as [[cache2 a2]|]; [|done]. cbn [mbind res_bind]. unfold cents. rewrite filter_app, length_app. do 2 f_equal. lia.
Qed.

Lemma uc5_modes cache chunks : uc5_streaming api_get_rates cache chunks = gen_uc5_results api_get_rates cache (List.concat chunks).
Proof.
  unfold uc5_streaming, gen_uc5_results. rewrite uc5_chunks. cbn [fst snd]. fold (uc5_rows (List.concat chunks)).
  by destruct (usd_amounts api_get_rates cache _) as [[cache' l]|].
Qed.
End rates.

(** ** UC2 and UC3 *)

Section pandas.
Context (rows_of_maxima : list Row → list Row) (drop_duplicate_banks : list AccountRow → list AccountRow).
Context (merge_on_bank : list (Z * string * float) → list AccountRow → list ((Z * string * float) * AccountRow)).
Context (merge_names : list Row → list AccountRow → list (Row * AccountRow)).
Context (groupby_format : list Row → list (string * list Row)) (column_sum : list float → float).
Context (mean_by_format : list Row → list (string * float)).
Context (merge_means : list Row → list (string * float) → list (Row * (string * float))).

(** What the script asks of pandas for a table in memory, besides what it asks for the
    chunks: [idxmax] selects one row of each bank, [merge] is an inner join, and [mean]
    is, for each format that occurs, the quotient of some sum of its numbers and their
    count. *)
Record pandas_table : Prop := {
  pt_idxmax_once : ∀ l, NoDup (r_from_bank <$> rows_of_maxima l);
  pt_merge_names : ∀ l r, merge_names l r ≡ₚ l ≫= λ x, (λ a, (x, a)) <$> (filter (λ a, a_bank_id a = r_from_bank x) r);
  pt_mean : ∀ l, numbers l → averages_of (row_payment <$> l) (mean_by_format l);
  pt_merge_means : ∀ l r, merge_means l r ≡ₚ l ≫= λ x, (λ a, (x, a)) <$> (filter (λ a, a.1 = r_payment_format x) r)
}.
Context (pd : pandas rows_of_maxima drop_duplicate_banks merge_on_bank) (ps : pandas_sums groupby_format column_sum) (pt : pandas_table).

Definition row_best (r : Row) : Z * (string * float) := (r_from_bank r, (r_account r, r_amount_paid r)).

Lemma table_rows maxima names :
  as_sent <$> ((λ m : Row * AccountRow, (r_from_bank m.1, r_account m.1, a_bank_name m.2, r_amount_paid m.1)) <$> merge_names maxima names) ≡ₚ
  inner_rows (row_best <$> maxima) names.
Proof.
  rewrite (pt_merge_names pt). apply reflexive_eq. unfold inner_rows. induction maxima as [|r maxima IH]; [done|].
  rewrite fmap_cons. cbn [mbind list_bind]. rewrite !fmap_app, IH. f_equal. by rewrite <- !list_fmap_compose.
Qed.

Lemma uc2_table_joined df accounts : numbers df →
  joined (row_entry <$> filter (λ r, usd_row r = true) df) (bank_entry <$> accounts)
    (as_sent <$> gen_uc2_results rows_of_maxima drop_duplicate_banks merge_names df accounts).
Proof.
  intros Hnum. unfold gen_uc2_results. set (usd := filter (λ r, usd_row r = true) df).
  assert (Hn : numbers usd) by (by apply numbers_filter). destruct (pd_idxmax _ _ _ pd usd Hn) as [Hin Hmax].
  destruct (pd_drop_duplicates _ _ _ pd accounts) as (Hnd & Hsub & Hall).
  apply (joined_perm _ _ (inner_rows (row_best <$> rows_of_maxima usd) (drop_duplicate_banks accounts))); [by rewrite table_rows|].
  apply (joined_covers _ (text_keys (row_best <$> rows_of_maxima usd)) _ (bank_entry <$> drop_duplicate_banks accounts)).
  - unfold no_nan. by rewrite Forall_fmap.
  - assert (E : text_keys (row_best <$> rows_of_maxima usd) = row_entry <$> rows_of_maxima usd) by (unfold text_keys; by rewrite <- list_fmap_compose).
    rewrite E. split; [intros e (r & -> & Hr)%list_elem_of_fmap; apply list_elem_of_fmap; exists r; auto|].
    intros e (r & -> & Hr)%list_elem_of_fmap. destruct (Hmax r Hr) as (m & Hm & Hb & Hlt). exists (row_entry m).
    split; [apply list_elem_of_fmap; by exists m|]. split; [cbn [row_entry fst]; by rewrite Hb|done].
  - split; [intros e (a & -> & Ha)%list_elem_of_fmap; apply list_elem_of_fmap; eauto|].
    intros e (a & -> & Ha)%list_elem_of_fmap. apply Hall in Ha as (a' & Ea & Ha')%list_elem_of_fmap. exists (bank_entry a').
    split; [apply list_elem_of_fmap; eauto|]. unfold same_bank, bank_entry. cbn [fst]. by rewrite Ea.
  - apply inner_joined; [|done]. rewrite <- list_fmap_compose. apply (pt_idxmax_once pt).
Qed.

Lemma only_entry (d : list (string * float)) k : NoDup d.*1 → filter (λ a, a.1 = k) d = match dget d k with Some v => [(k, v)] | None => [] end.
Proof.
  induction d as [|[k' v] d IH]; intros Hnd; [done|]. apply NoDup_cons in Hnd as [Hk Hnd]. rewrite filter_cons. cbn [dget fst snd].
  destruct (decide (pyeq k' k)) as [E|E].
  - assert (k' = k) as -> by exact E. rewrite decide_True by done. rewrite filter_Forall_none; [done|]. apply Forall_forall.
    intros e He E'. apply Hk. apply list_elem_of_fmap. exists e. split; [by symmetry|done].
  - rewrite decide_False; [by apply IH|]. intros ->. by apply E.
Qed.

Lemma uc3_table AV l : NoDup AV.*1 →
  (λ m : Row * (string * float), uc3_columns m.1) <$> (filter (λ m : Row * (string * float), flt (r_amount_paid m.1) (fmul m.2.2 (f_of_dec 1 (-2))) = true) (merge_means l AV)) ≡ₚ
  uc3_columns <$> filter (λ r, below_average AV (row_payment r) = true) l.
Proof.
  intros Hnd. rewrite (pt_merge_means pt). apply reflexive_eq. induction l as [|r l IH]; [done|].
  cbn [mbind list_bind]. rewrite filter_app, fmap_app, IH, (filter_cons _ r), only_entry by done.
  assert (E : below_average AV (row_payment r) = match dget AV (r_payment_format r) with
    Some avg => flt (r_amount_paid r) (fmul avg (f_of_dec 1 (-2))) | None => false end).
  { unfold below_average, below. cbn [row_payment fst snd]. destruct (dget AV _); [|done]. by rewrite fmul_comm. }
  rewrite E. destruct (dget AV (r_payment_format r)) as [avg|]; [|by rewrite decide_False].
  cbn [fmap list_fmap]. rewrite filter_cons. cbn [fst snd]. by destruct (decide (flt _ _ = true)).
Qed.

(** The rounding of the sums decides no row. *)
Definition clear_table (df : list Row) : Prop :=
  let usd := filter (λ r, usd_row r = true) df in
  ∀ r, r ∈ usd → uc3_period_b r = true → clear_cut (row_payment <$> filter (λ r, in_period r = true) usd) (row_payment r).

Lemma uc3_modes chunks : numbers (List.concat chunks) → Z.of_nat (length (List.concat chunks)) < 2 ^ 53 → clear_table (List.concat chunks) →
  ∃ count written, uc3_streaming groupby_format column_sum [] chunks = Ok (count, written) ∧ written.*2 ≡ₚ gen_uc3_results mean_by_format merge_means (List.concat chunks).
Proof.
  intros Hnum Hlen Hc. destruct (uc3_pass1_ok _ _ ps chunks Hnum) as (AV & E & HAV).
  { eapply Z.le_lt_trans; [apply inj_le|exact Hlen]. unfold rows_a. etrans; apply length_filter. }
  unfold uc3_streaming. rewrite E. cbn [mbind res_bind]. rewrite uc3_pass2_spec. cbv zeta. eexists _, _. split; [reflexivity|].
  rewrite (proj2 (numbered _)). unfold gen_uc3_results. fold (rows_a chunks) (rows_b chunks).
  assert (HAV' : averages_of (row_payment <$> rows_a chunks) (mean_by_format (rows_a chunks))) by (by apply (pt_mean pt), numbers_filter, numbers_filter).
  rewrite uc3_table by apply HAV'. apply reflexive_eq. f_equal. apply filter_ext_elem. intros r [Hb Hr]%list_elem_of_filter.
  by rewrite (same_below _ AV (mean_by_format (rows_a chunks)) (row_payment r) HAV HAV' (Hc r Hr Hb)).
Qed.

(** ** A client of the sampled mode *)

(** The payments in dollars of a table, by bank: [bank, (account, amount)]. *)
Definition dollar_payments (df : list Row) : list (string * (string * float)) := row_entry <$> filter (λ r, usd_row r = true) df.

(** No two of them, of one bank, compare as equal, except of one account and one amount. *)
Definition one_best (df : list Row) : Prop := ∀ e e', e ∈ dollar_payments df → e' ∈ dollar_payments df → e.1 = e'.1 →
  flt e.2.2 e'.2.2 = false → flt e'.2.2 e.2.2 = false → e = e'.

(** A row of UC2 whose account made the payment, which is a largest one of the bank. *)
Definition row_is_best (df : list Row) (row : string * string * float * string) : Prop :=
  let '(bank, account, paid, _) := row in is_max bank (dollar_payments df) (Some (account, paid)).

Record same_answers (df : list Row) (e e' : Expected) : Prop := {
  sa_uc1 : ex_uc1 e = ex_uc1 e';
  sa_best : Forall (row_is_best df) (as_sent <$> ex_uc2 e) ∧ Forall (row_is_best df) (as_sent <$> ex_uc2 e');
  sa_uc2 : ∃ sorted, (as_sent <$> ex_uc2 e) ≡ₚ sorted ∧ Forall2 tied sorted (as_sent <$> ex_uc2 e') ∧
    (one_best df → sorted = as_sent <$> ex_uc2 e');
  sa_uc3 : ex_uc3 e ≡ₚ ex_uc3 e';
  sa_uc4 : ex_uc4 e = ex_uc4 e';
  sa_uc5 : ex_uc5 e = ex_uc5 e'
}.

Definition agree (df : list Row) (r r' : res Expected) : Prop :=
  match r, r' with Ok e, Ok e' => same_answers df e e' | Exc x, Exc y => x = y | _, _ => False end.

Context (PAIR_BATCH : Z) (drop_duplicates : list (bank_account * bank_account) → list (bank_account * bank_account)).
Context (api_get_rates : date → res (pydict string float)).

Definition in_memory := gen_results rows_of_maxima drop_duplicate_banks merge_names mean_by_format merge_means PAIR_BATCH drop_duplicates api_get_rates.
Definition by_chunks := gen_results_streaming rows_of_maxima drop_duplicate_banks PAIR_BATCH drop_duplicates api_get_rates merge_on_bank groupby_format column_sum.

Definition one_name (accounts : list AccountRow) : Prop :=
  ∀ a a', a ∈ accounts → a' ∈ accounts → a_bank_id a = a_bank_id a' → a_bank_name a = a_bank_name a'.

Lemma one_name_entries accounts : one_name accounts →
  ∀ a a', a ∈ bank_entry <$> accounts → a' ∈ bank_entry <$> accounts → a.1 = a'.1 → a = a'.
Proof.
  intros Hnames a a' (r & -> & Hra)%list_elem_of_fmap (r' & -> & Hra')%list_elem_of_fmap E. unfold bank_entry in *. cbn [fst] in E.
  assert (a_bank_id r = a_bank_id r') as Ei by exact (str_int_inj _ _ E). by rewrite (Hnames r r' Hra Hra' Ei), Ei.
Qed.

Lemma dollars_no_nan df : numbers df → no_nan (dollar_payments df).
Proof. intros Hn. unfold no_nan, dollar_payments. rewrite Forall_fmap. by apply numbers_filter. Qed.

Lemma joined_best df A rows : joined (dollar_payments df) A rows → Forall (row_is_best df) rows.
Proof. intros J. apply Forall_forall. intros [[[bank account] paid] name] Hin. destruct (j_row _ _ _ J _ _ _ _ Hin) as (H1 & H2 & _). by split. Qed.

Lemma best_rows_equal df A rows rows' : one_best df → joined (dollar_payments df) A rows → joined (dollar_payments df) A rows' →
  Forall2 tied rows rows' → rows = rows'.
Proof.
  intros Hone J J' Ht. apply list_eq_Forall2, Forall2_same_length_lookup_2; [by eapply Forall2_length|].
  intros i [[[b acc] amt] name] y Hx Hy. destruct (Forall2_lookup_l _ _ _ _ _ Ht Hx) as (y' & Hy' & Hxy). rewrite Hy in Hy'. injection Hy' as <-.
  destruct y as [[[b' acc'] amt'] name']. destruct Hxy as (<- & <- & H1 & H2).
  destruct (j_row _ _ _ J _ _ _ _ (list_elem_of_lookup_2 _ _ _ Hx)) as (Hin & _), (j_row _ _ _ J' _ _ _ _ (list_elem_of_lookup_2 _ _ _ Hy)) as (Hin' & _).
  pose proof (Hone _ _ Hin Hin' eq_refl H1 H2) as E. congruence.
Qed.

Lemma modes_agree cache accounts df chunks : drop_duplicates [] = [] → List.concat chunks = df → numbers df →
  Z.of_nat (length df) < 2 ^ 53 → one_name accounts → clear_table df → agree df (in_memory cache (Some df) accounts) (by_chunks cache chunks accounts).
Proof.
  intros Hdrop <- Hnum Hlen Hnames Hc. unfold in_memory, by_chunks, gen_results, gen_results_streaming.
  destruct (uc3_modes chunks Hnum Hlen Hc) as (count & written & -> & Hp). cbn [of_opt mbind res_bind].
  rewrite uc4_modes, uc5_modes by done. destruct (gen_uc4_results _ _ _) as [uc4|]; [|done]. cbn [mbind res_bind].
  destruct (gen_uc5_results _ _ _) as [uc5|]; [|done]. cbn [mbind res_bind agree]. split; cbn [ex_uc1 ex_uc2 ex_uc3 ex_uc4 ex_uc5 fst snd]; try done.
  - by rewrite uc1_modes.
  - split; eapply joined_best; [by apply uc2_table_joined|]. apply (table_joined _ _ _ pd). by apply dollars_no_nan.
  - pose proof (uc2_table_joined _ accounts Hnum) as J. pose proof (table_joined _ _ _ pd accounts chunks (dollars_no_nan _ Hnum)) as J'.
    destruct (joined_match _ _ _ _ (one_name_entries _ Hnames) J J') as (sorted & Hp' & Ht). exists sorted. split_and!; [done..|].
    intros Hone. eapply best_rows_equal; [done| |exact J'|done]. by eapply joined_perm.
Qed.

(** C36: A client of the sampled mode ([gen_sampled_dataframe], [gen_results]): of a data
    set read in chunks of any size, whose lines were counted, the client's file is made
    of as many rows as its share, or of all of them if there are not so many, in their
    order, each taken once; and the answers computed from that table are the answers
    that the streaming mode computes from the client's file read in chunks of any size:
    the same rows of UC1, in the same order, the same accounts of UC4, the same count of
    UC5, the same rows of UC3 in some order when the rounding of the sums decides none,
    and the same banks of UC2, in some order, with the same names and amounts that
    compare equal: in both answers every row's account made a payment in dollars of the
    row's amount, which no other of its bank exceeds, and when no two payments of a bank
    tie the rows of UC2 are equal, accounts included; or the same error of the
    conversion service. *)
Theorem sampled_mode_exact (choice : Z → Z → list Z) lines (chunks : list (list Row)) (frac : float) n cache accounts :
  draws choice → drop_duplicates [] = [] → lines = Z.of_nat (length (List.concat chunks)) + 1 → 1 < lines →
  per_client_size (lines - 1) frac = Ok n → numbers (List.concat chunks) → lines < 2 ^ 53 → one_name accounts →
  ∃ df, gen_sampled_dataframe choice lines chunks (Some n) (Some (lines - 1)) = Ok (Some df) ∧
    length df = Z.to_nat (Z.min n (lines - 1)) ∧ df `sublist_of` List.concat chunks ∧
    (clear_table df → ∀ chunks', List.concat chunks' = df → agree df (in_memory cache (Some df) accounts) (by_chunks cache chunks' accounts)).
Proof.
  intros Hd Hdrop El Hl Hn Hnum Hlen Hnames. set (rows := List.concat chunks) in *.
  assert (Hpos : 1 ≤ n) by (unfold per_client_size in Hn; destruct (f_trunc _); [injection Hn as <-; lia|done]).
  assert (H : ∃ df, gen_sampled_dataframe choice lines chunks (Some n) (Some (lines - 1)) = Ok (Some df) ∧ length df = Z.to_nat (Z.min n (lines - 1)) ∧ df `sublist_of` rows).
  { unfold gen_sampled_dataframe. destruct (decide (lines - 1 ≤ n)) as [Hall|Hsome].
    - exists rows. unfold chunked_sample. cbn [default]. rewrite (proj2 (Z.leb_le _ _)) by done. split_and!; [|lia|done].
      unfold concat_frames. destruct chunks; [|done]. cbn in El. lia.
    - destruct (chunked_sample_spec choice lines chunks n (Some (lines - 1)) Hd) as [-> Hlen']; [change (lines - 1 = Z.of_nat (length rows)); lia|fold rows; lia|].
      eexists. split; [reflexivity|]. split; [rewrite Hlen'; lia|apply picked_sublist]. }
  destruct H as (df & E & Hdf & Hsub). exists df. split_and!; try done. intros Hc chunks' Hchunks.
  apply modes_agree; try done.
  - unfold numbers in *. rewrite Forall_forall in Hnum |- *. intros r Hr. apply Hnum. by apply (elem_of_sublist df).
  - apply sublist_length in Hsub. lia.
Qed.
End pandas.

(** ** A concrete sample *)

Definition demo_merge_names (l : list Row) (r : list AccountRow) : list (Row * AccountRow) :=
  l ≫= λ x, (λ a, (x, a)) <$> (filter (λ a, a_bank_id a = r_from_bank x) r).
Definition demo_merge_means (l : list Row) (r : list (string * float)) : list (Row * (string * float)) :=
  l ≫= λ x, (λ a, (x, a)) <$> (filter (λ a, a.1 = r_payment_format x) r).
Definition demo_mean (l : list Row) : list (string * float) :=
  let P := row_payment <$> l in (λ f, (f, average P f (demo_sum (amounts f P)))) <$> remove_dups P.*1.

Lemma demo_pandas_table : pandas_table demo_idxmax demo_merge_names demo_mean demo_merge_means.
Proof.
  split; [|done| |done].
  - intros l. destruct (first_by_values r_from_bank (λ r s, flt (r_amount_paid r) (r_amount_paid s))) with (l := l) as (H & _); [|..|exact H].
    + intros v. apply flt_irrefl.
    + intros w v e H1 H2. destruct (flt (r_amount_paid v) (r_amount_paid e)) eqn:E; [|done]. by rewrite (flt_trans _ _ _ H1 E) in H2.
  - intros l _. unfold demo_mean. cbv zeta. set (P := row_payment <$> l). set (fmts := remove_dups P.*1).
    assert (E : ((λ f, (f, average P f (demo_sum (amounts f P)))) <$> fmts).*1 = fmts) by (rewrite <- list_fmap_compose; apply list_fmap_id).
    split.
    + rewrite E. apply NoDup_remove_dups.
    + intros fmt avg (f & [= -> ->] & Hf)%list_elem_of_fmap. apply elem_of_remove_dups, list_elem_of_fmap in Hf as (p & -> & Hp). split.
      * intros E0. assert (Hin : p ∈ of_format p.1 P) by (by apply list_elem_of_filter). rewrite E0 in Hin. by apply not_elem_of_nil in Hin.
      * eexists. split; [|reflexivity]. apply (adds_loop _ [] (f_of_Z 0)). constructor.
    + intros p Hp. rewrite E. apply elem_of_remove_dups, list_elem_of_fmap. by exists p.
Qed.

Definition demo_choice (total n : Z) : list Z := seqZ 0 n.

Lemma demo_draws : draws demo_choice.
Proof.
  intros total n Hn. unfold demo_choice. split; [apply NoDup_seqZ|]. split; [by rewrite length_seqZ|]. intros i. rewrite elem_of_seqZ. lia.
Qed.

(** A half of four rows. *)
Lemma sampled_mode_exact_witness :
  let chunks := [[demo_uc3_row "02" 3; demo_uc3_row "07" 0]; [demo_uc3_row "04" 5; demo_uc3_row "07" 1]]%string in
  let df := [demo_uc3_row "02" 3; demo_uc3_row "07" 0]%string in
  let rates := λ _ : date, Ok ([] : pydict string float) in
  gen_sampled_dataframe demo_choice 5 chunks (Some 2) (Some 4) = Ok (Some df) ∧
  agree df (in_memory demo_idxmax demo_drop_duplicates demo_merge_names demo_mean demo_merge_means 100 remove_dups rates [] (Some df) [mkARow 10 "Ten"])
    (by_chunks demo_idxmax demo_drop_duplicates demo_merge demo_groupby demo_sum 100 remove_dups rates [] [[demo_uc3_row "02" 3]; [demo_uc3_row "07" 0]] [mkARow 10 "Ten"]).
Proof.
  intros chunks df rates. assert (E : gen_sampled_dataframe demo_choice 5 chunks (Some 2) (Some 4) = Ok (Some df)) by (vm_compute; reflexivity). split; [exact E|].
  destruct (sampled_mode_exact demo_idxmax demo_drop_duplicates demo_merge demo_merge_names demo_groupby demo_sum demo_mean demo_merge_means
    demo_pandas demo_pandas_sums demo_pandas_table 100 remove_dups rates demo_choice 5 chunks (f_of_dec 5 (-1)) 2 [] [mkARow 10 "Ten"] demo_draws) as (df' & E' & _ & _ & H).
  - reflexivity.
  - reflexivity.
  - lia.
  - vm_compute. reflexivity.
  - repeat (apply Forall_cons; split; [vm_compute; reflexivity|]). apply Forall_nil. exact I.
  - lia.
  - intros a a' ->%list_elem_of_singleton ->%list_elem_of_singleton _. reflexivity.
  - change (gen_sampled_dataframe demo_choice 5 chunks (Some 2) (Some 4) = Ok (Some df')) in E'. rewrite E in E'. injection E' as <-. apply H; [|reflexivity].
    intros r Hr _. apply (whole_clear_cut 8 _ _ [3]); [vm_compute; reflexivity| |apply Forall_cons; split; [lia|apply Forall_nil; exact I]|discriminate].
    assert (Hw : (row_payment r).1 = "Wire"%string).
    { revert r Hr. apply Forall_forall. apply Forall_cons; split; [reflexivity|]. apply Forall_cons; split; [reflexivity|]. apply Forall_nil. exact I. }
    rewrite Hw. vm_compute. reflexivity.
Defined.
