(* ===== verification/UC5Match.v ===== *)
(** * UC5 answers as the script does

    The network of UC5: a route of the default filters, the converters with their cache
    of rates, the filter of small amounts, the count of a batch, and the join that adds
    the counts up. Whatever way a file is cut into batches, however they are spread over
    the converters and however often the service is unavailable, its count is the
    script's. *)

From S2P Require Import Prelude.
From S2P Require Import PyDict.
From S2P Require Import PyValues.
From S2P Require Import PyText.
From S2P Require Import PyTime.
From S2P Require Import PyFloat.
From S2P Require Import Wire.
From S2P Require Import Messages.
From S2P Require Import Filters.
From S2P Require Import GroupBy.
From S2P Require Import Fleet.
From S2P Require Import MergeFns.
From S2P Require Import Joins.
From S2P Require Import JoinProps.
From S2P Require Import Client.
From S2P Require Import Oracle.
From S2P Require Import OracleLines.

Section uc5.
(** The rates of a day: those of a day past do not change. *)
Context (rates : date → pydict string float).

Definition day_rates (day : date) : pydict string float :=
  match dget BITCOIN_RATES_USD day with Some b => dset (rates day) "Bitcoin"%string b | None => rates day end.

(** What a cache of either program holds. *)
Definition cache_ok (cache : pydict date (pydict string float)) : Prop :=
  ∀ day r, dget cache day = Some r → r = day_rates day.

Lemma cache_ok_nil : cache_ok [].
Proof. done. Qed.

Lemma cache_ok_set cache day : cache_ok cache → cache_ok (dset cache day (day_rates day)).
Proof.
  intros H d r. rewrite dget_dset. destruct (decide (pyeq day d)) as [E|E]; [|apply H]. intros [= <-]. by assert (day = d) as -> by exact E.
Qed.

(** The amount of a transaction in dollars. *)
Definition usd_of (day : date) (paid : float) (currency : string) : float := fmul paid (dget_or (f_of_Z 1) (day_rates day) currency).

(** ** The script *)

Lemma pad_digits : forallb (λ z, forallb is_digit (pad0 4 z)) (seqZ 0 10000) = true ∧ forallb (λ z, forallb is_digit (pad0 2 z)) (seqZ 0 100) = true.
Proof. by vm_compute. Qed.

Lemma digits_of n lim z : forallb (λ z, forallb is_digit (pad0 n z)) (seqZ 0 lim) = true → 0 ≤ z < lim → forallb is_digit (pad0 n z) = true.
Proof. intros H Hz. rewrite forallb_forall in H. apply H. rewrite <- list_elem_of_In, elem_of_seqZ. lia. Qed.

Lemma dash_digits l : forallb is_digit l = true → (λ c, if bool_decide (c = chr 47) then chr 45 else c) <$> l = l.
Proof.
  induction l as [|c l IH]; [done|]. cbn [forallb]. intros [Hc Hl]%andb_prop. rewrite fmap_cons, IH by done.
  rewrite bool_decide_eq_false_2; [done|]. intros ->. by vm_compute in Hc.
Qed.

#[local] Opaque pad0 int_str.

Lemma slash_day d : valid_datetime d = true → date_fromisoformat (dashed (str_slice 0 10 (slash_date d))) = Ok (date_of d).
Proof.
  intros Hv. pose proof (valid_datetime_bounds d Hv) as (Hy & Hm & Hd & _). destruct pad_digits as [P4 P2].
  pose proof (digits_of 4 10000 (year d) P4 ltac:(lia)) as D1. pose proof (digits_of 2 100 (month d) P2 ltac:(lia)) as D2.
  pose proof (digits_of 2 100 (day d) P2 ltac:(lia)) as D3. clear P4 P2.
  destruct (pad4_spec (year d)) as (y1 & y2 & y3 & y4 & E1 & Ey); [lia|].
  destruct (pad2_spec (month d)) as (m1 & m2 & E2 & Em); [lia|].
  destruct (pad2_spec (day d)) as (d1 & d2 & E3 & Ed); [lia|].
  assert (E : dashed (str_slice 0 10 (slash_date d)) = str_of ([y1; y2; y3; y4] ++ chr 45 :: [m1; m2] ++ chr 45 :: [d1; d2])).
  { unfold dashed, str_slice, slash_date. rewrite !chars_of_str, E1, E2, E3. cbn [app slice drop take Nat.sub].
    change (str_of ((λ c, if bool_decide (c = chr 47) then chr 45 else c) <$> ([y1; y2; y3; y4] ++ [chr 47] ++ [m1; m2] ++ [chr 47] ++ [d1; d2])) =
      str_of ([y1; y2; y3; y4] ++ [chr 45] ++ [m1; m2] ++ [chr 45] ++ [d1; d2])).
    rewrite !fmap_app, <- E1, <- E2, <- E3, (dash_digits _ D1), (dash_digits _ D2), (dash_digits _ D3). done. }
  rewrite E. unfold date_fromisoformat. rewrite chars_of_str. cbv zeta. rewrite E1 in D1. rewrite E2 in D2. rewrite E3 in D3.
  cbn [app slice drop take Nat.sub length]. rewrite D1, D2, D3, !bool_decide_true by done. cbn [andb]. rewrite Ey, Em, Ed. cbn [mbind res_bind].
  unfold datetime_new. assert (valid_datetime (mkDT (year d) (month d) (day d) 0 0 0) = true) as ->; [|done].
  clear -Hv. unfold valid_datetime in *. cbn [year month day hour minute second]. rewrite !andb_true_iff in *. naive_solver.
Qed.

Lemma get_rates_ok cache d : cache_ok cache → valid_datetime d = true → ∃ cache',
  get_rates (λ day, Ok (rates day)) cache (str_slice 0 10 (slash_date d)) = Ok (cache', day_rates (date_of d)) ∧ cache_ok cache'.
Proof.
  intros Hc Hv. unfold get_rates. rewrite slash_day by done. cbn [mbind res_bind].
  destruct (dget cache (date_of d)) as [r|] eqn:E; [rewrite (Hc _ _ E); by exists cache|].
  change SCRIPT_BITCOIN_RATES_USD with BITCOIN_RATES_USD. fold (day_rates (date_of d)). eexists. split; [reflexivity|]. by apply cache_ok_set.
Qed.

(** What UC5 counts: a wire or ACH payment of the period, worth less than a dollar. *)
Definition uc5_selects (t : Transaction) : bool :=
  smem (payment_format t) FORMATS && match timestamp t with TsDate d => dt_le PERIOD_START d && dt_lt d PERIOD_END | _ => false end.
Definition dollars (t : Transaction) : float :=
  match timestamp t with TsDate d => usd_of (date_of d) (amount_paid t) (payment_currency t) | _ => amount_paid t end.
Definition small (t : Transaction) : bool := uc5_selects t && flt (dollars t) (f_of_Z 1).

Lemma same_selection r t : same_transfer r t → wire_ach r && uc5_period r = uc5_selects t.
Proof.
  intros Hs. destruct (same_period r t Hs) as [Hp ->]. destruct Hs as [_ (d & Ed & Hv & _) _ _ _ _ Hf]. unfold uc5_selects, wire_ach, dated in *.
  rewrite Ed in *. rewrite window_dates by done. apply eq_true_iff_eq.
  rewrite !andb_true_iff, bool_decide_eq_true, formats_exact, Hf, Hp, <- date_window. unfold PERIOD_A. cbn [fst snd]. by rewrite andb_true_iff.
Qed.

Lemma amounts_ok rows ts : Forall2 same_transfer rows ts → ∀ cache, cache_ok cache → ∃ cache',
  usd_amounts (λ day, Ok (rates day)) cache rows = Ok (cache', dollars <$> ts) ∧ cache_ok cache'.
Proof.
  induction 1 as [|r t rows ts Hrt _ IH]; intros cache Hc; [by exists cache|]. destruct Hrt as [_ (d & Ed & Hv & Er) _ _ Ha Hcur _].
  destruct (get_rates_ok cache d Hc Hv) as (cache1 & E1 & Hc1). destruct (IH cache1 Hc1) as (cache2 & E2 & Hc2). exists cache2. split; [|done].
  cbn [usd_amounts]. rewrite Er, E1. cbn [mbind res_bind]. rewrite E2. cbn [mbind res_bind]. rewrite fmap_cons. unfold dollars at 2. rewrite Ed, Ha, Hcur. done.
Qed.

Lemma selected_rows rows ts : Forall2 same_transfer rows ts →
  Forall2 same_transfer (filter (λ r, wire_ach r = true) (filter (λ r, uc5_period r = true) rows)) (filter (λ t, uc5_selects t = true) ts).
Proof.
  induction 1 as [|r t rows ts Hrt _ IH]; [constructor|]. pose proof (same_selection r t Hrt) as E. rewrite (filter_cons _ r), (filter_cons _ t), <- E.
  destruct (decide (uc5_period r = true)) as [Hp|Hp]; [rewrite filter_cons|]; destruct (wire_ach r) eqn:Ew, (uc5_period r) eqn:Eu; try done; by constructor.
Qed.

Lemma count_small ts : length (filter (λ x, flt x (f_of_Z 1) = true) (dollars <$> filter (λ t, uc5_selects t = true) ts)) = length (filter (λ t, small t = true) ts).
Proof.
  induction ts as [|t ts IH]; [done|]. rewrite !filter_cons. assert (E : small t = uc5_selects t && flt (dollars t) (f_of_Z 1)) by done.
  destruct (decide (uc5_selects t = true)) as [Hs|Hs], (decide (small t = true)) as [Hm|Hm]; rewrite ?fmap_cons, ?filter_cons;
    [destruct (decide (flt (dollars t) (f_of_Z 1) = true)) as [Hf|Hf]..|exfalso|]; cbn [length]; try (by rewrite IH);
    exfalso; rewrite E in Hm; destruct (uc5_selects t), (flt _ _); done.
Qed.

Lemma chunk_ok rows ts cache n : Forall2 same_transfer rows ts → cache_ok cache → ∃ cache',
  uc5_chunk (λ day, Ok (rates day)) (cache, n) rows = Ok (cache', n + Z.of_nat (length (filter (λ t, small t = true) ts))) ∧ cache_ok cache'.
Proof.
  intros Hrt Hc. pose proof (selected_rows rows ts Hrt) as Hsel. unfold uc5_chunk. rewrite <- count_small.
  destruct Hsel as [|r t rows' ts' Hrt' Hsel]; [exists cache; by rewrite Z.add_0_r|].
  destruct (amounts_ok (r :: rows') (t :: ts') ltac:(by constructor) cache Hc) as (cache' & E & Hc'). exists cache'. cbn [fst snd]. rewrite E. done.
Qed.

Lemma uc5_streaming_spec chunks : ∀ ts, Forall2 same_transfer (List.concat chunks) ts → ∀ cache, cache_ok cache →
  uc5_streaming (λ day, Ok (rates day)) cache chunks = Ok (Z.of_nat (length (filter (λ t, small t = true) ts))).
Proof.
  assert (H : ∀ ts, Forall2 same_transfer (List.concat chunks) ts → ∀ cache n, cache_ok cache → ∃ cache',
    foldR (uc5_chunk (λ day, Ok (rates day))) (cache, n) chunks = Ok (cache', n + Z.of_nat (length (filter (λ t, small t = true) ts)))).
  { induction chunks as [|chunk chunks' IH]; intros ts Hts cache n Hc; cbn [List.concat foldR] in *.
    - inversion Hts. exists cache. by rewrite Z.add_0_r.
    - apply Forall2_app_inv_l in Hts as (ts1 & ts2 & H1 & H2 & ->). destruct (chunk_ok chunk ts1 cache n H1 Hc) as (cache1 & -> & Hc1).
      cbn [mbind res_bind]. destruct (IH ts2 H2 cache1 (n + Z.of_nat (length (filter (λ t, small t = true) ts1))) Hc1) as (cache2 & ->).
      exists cache2. rewrite filter_app, length_app. do 2 f_equal. lia. }
  intros ts Hts cache Hc. unfold uc5_streaming. destruct (H ts Hts cache 0 Hc) as (cache' & ->). done.
Qed.

(** ** The network *)

(** The requests of a converter are answered with the rates of their day, after any
    number of failures: [cache] is what it holds, [l] what it converts. *)
Fixpoint honest (cache : pydict date (pydict string float)) (l : list Transaction) (answers : api_answers) : Prop :=
  match l with
  | [] => True
  | t :: l =>
      match timestamp t with
      | TsDate d =>
          match dget cache (date_of d) with
          | Some _ => honest cache l answers
          | None => ∃ failures rest, answers = replicate failures (Exc ConversionAPIError) ++ Ok (rates (date_of d)) :: rest ∧
              honest (dset cache (date_of d) (day_rates (date_of d))) l rest
          end
      | TsText _ => False
      end
  end.

(** A transaction in dollars. *)
Definition converted (t : Transaction) : Transaction :=
  mkTx (timestamp t) (from_bank t) (from_account t) (to_bank t) (to_account t) (amount_received t) (receiving_currency t)
    (dollars t) TARGET_CURRENCY (payment_format t).

Lemma retried cap failures r rest : ∀ delay, ∃ slept,
  get_rates_with_retry cap delay (replicate failures (Exc ConversionAPIError) ++ Ok r :: rest) = Some (Ok r, rest, slept).
Proof.
  induction failures as [|failures IH]; intros delay; cbn [replicate app get_rates_with_retry]; [by eexists|].
  match goal with |- context [get_rates_with_retry cap ?d _] => destruct (IH d) as [slept ->] end. by eexists.
Qed.

Lemma convert_all_ok l l' : ∀ cv answers, cache_ok (cache_ cv) → honest (cache_ cv) (l ++ l') answers → ∃ cv' answers',
  convert_all cv l answers = Some (Ok (cv', converted <$> l), answers') ∧ cache_ok (cache_ cv') ∧ honest (cache_ cv') l' answers'.
Proof.
  induction l as [|t l IH]; intros cv answers Hc Hh; [by exists cv, answers|]. cbn [app honest] in Hh. cbn [convert_all].
  destruct (timestamp t) as [d|] eqn:Et; [|done]. cbn [ts_date]. unfold rates_for.
  assert (Econv : ∀ r, r = day_rates (date_of d) → convert_with r t = converted t).
  { intros r ->. unfold convert_with, converted, dollars. by rewrite Et. }
  destruct (dget (cache_ cv) (date_of d)) as [r|] eqn:Er.
  - destruct (IH cv answers Hc Hh) as (cv' & answers' & E & Hc' & Hh'). exists cv', answers'. split; [|done].
    cbn [mbind option_bind]. rewrite E. cbn [mbind option_bind res_bind]. by rewrite (Econv r (Hc _ _ Er)).
  - destruct Hh as (failures & rest & -> & Hh). destruct (retried (max_delay cv) failures (rates (date_of d)) rest (base_delay cv)) as [slept ->].
    cbn [mbind option_bind res_bind]. fold (day_rates (date_of d)).
    set (cv1 := mkConverter (base_delay cv) (max_delay cv) (dset (cache_ cv) (date_of d) (day_rates (date_of d)))).
    destruct (IH cv1 rest (cache_ok_set _ _ Hc) Hh) as (cv' & answers' & E & Hc' & Hh'). exists cv', answers'. split; [|done].
    rewrite E. cbn [mbind option_bind res_bind]. by rewrite (Econv _ eq_refl).
Qed.

(** What a converter takes and what it sends. *)
Definition payments (b : Body) : list Transaction := match b with Transactions _ l => l | _ => [] end.
Definition is_payments (b : Body) : Prop := match b with Transactions _ _ => True | _ => False end.
Definition convert_body (b : Body) : Body := match b with Transactions c l => Transactions c (converted <$> l) | b => b end.

Context `{PyHash}.

(** A converter from its start, message after message. *)
Fixpoint convert_run (cv : Converter) (msgs : list Message) (answers : api_answers) : option (res (list Body)) :=
  match msgs with
  | [] => Some (Ok [])
  | m :: msgs =>
      '(r, answers) ← UC5Converter_group_by cv m answers;
      match r with
      | Exc e => Some (Exc e)
      | Ok (cv, out) => r ← convert_run cv msgs answers; Some (outs ← r; Ok (out.*1 ++ outs))
      end
  end.

Lemma convert_run_ok msgs : ∀ cv answers, Forall (λ m, is_payments (body_ m)) msgs → cache_ok (cache_ cv) →
  honest (cache_ cv) (msgs ≫= λ m, payments (body_ m)) answers →
  convert_run cv msgs answers = Some (Ok ((λ m, convert_body (body_ m)) <$> msgs)).
Proof.
  induction msgs as [|m msgs IH]; intros cv answers Hm Hc Hh; [done|]. inversion_clear Hm as [|? ? Hm1 Hm2]. cbn [mbind list_bind] in Hh.
  destruct (convert_all_ok _ _ cv answers Hc Hh) as (cv' & answers' & E & Hc' & Hh'). cbn [convert_run]. unfold UC5Converter_group_by.
  destruct (body_ m) as [] eqn:Eb; try done. cbn [payments] in E. cbn [transactions_of]. rewrite E. cbn [mbind option_bind res_bind client_of body_client of_opt].
  rewrite (IH cv' answers' Hm2 Hc' Hh'). cbn [mbind option_bind res_bind fmap list_fmap app fst]. by rewrite Eb.
Qed.

(** The messages of a client among others. *)
Definition own (c : uuid) (l : list Body) : list Body := filter (λ b, body_client b = Some c) l.

(** A converter: the messages it takes and what the service answers it. *)
Abbreviation instance := (list Message * api_answers)%type.

(** The answer to a client who sent [batches]. *)
Inductive uc5_answer (c : uuid) (batches : list (list Transaction)) (responses : list Body) : Prop :=
  | uc5_answered filtered (base cap : float) (instances : list instance) outs kept counts els st st' :
      mapR (λ l, FilterFn_filter UC5Filter_keep (Transactions c l)) batches = Ok filtered →
      Forall (λ i : instance, Forall (λ m, is_payments (body_ m)) i.1 ∧ honest [] (i.1 ≫= λ m, payments (body_ m)) i.2) instances →
      List.concat ((λ i : instance, own c (body_ <$> i.1)) <$> instances) ≡ₚ filtered →
      Forall2 (λ (i : instance) out, convert_run (mkConverter base cap []) i.1 i.2 = Some (Ok out)) instances outs →
      mapR (FilterFn_filter UC5AmountFilter_keep) (own c (List.concat outs)) = Ok kept →
      mapR UC5Count_group_by kept = Ok counts →
      Forall is_count els → own c els ≡ₚ (List.concat counts).*1 →
      join_run UC5Join [] els = Ok st → get_responses UC5Join st c = Ok (st', responses) →
      uc5_answer c batches responses.

(** ** What the join adds up *)

Lemma UC5Filter_keep_ok t : tx_wf t → UC5Filter_keep t = Ok (uc5_selects t).
Proof.
  unfold tx_wf, UC5Filter_keep, uc5_selects, in_window, ts_compared. destruct (timestamp t) as [d|]; [|done]. intros _. cbn [mbind res_bind].
  by destruct (smem _ _).
Qed.

Lemma own_concat c ls : own c (List.concat ls) = List.concat (own c <$> ls).
Proof. unfold own. induction ls as [|l ls IH]; [done|]. rewrite fmap_cons. cbn [List.concat]. by rewrite filter_app, IH. Qed.

Lemma own_converted c (bs : list Body) : own c (convert_body <$> bs) = convert_body <$> own c bs.
Proof.
  unfold own. induction bs as [|b bs IH]; [done|]. rewrite fmap_cons, !filter_cons, IH.
  assert (body_client (convert_body b) = body_client b) as -> by by destruct b. by destruct (decide _).
Qed.

Lemma count_own c els : Forall is_count els → zsum (count_for c <$> els) = zsum (count_for c <$> own c els).
Proof.
  induction 1 as [|el els Hel _ IH]; [done|]. unfold own. rewrite filter_cons, fmap_cons. cbn [zsum foldr]. fold (zsum (count_for c <$> els)). rewrite IH.
  destruct (decide (body_client el = Some c)) as [|Hn]; [done|]. destruct el as []; try done. cbn [count_for body_client] in *.
  rewrite decide_False by congruence. unfold own. lia.
Qed.

Lemma zsum_lengths {A} (P : A → bool) (ls : list (list A)) :
  zsum ((λ l, Z.of_nat (length (filter (λ x, P x = true) l))) <$> ls) = Z.of_nat (length (filter (λ x, P x = true) (List.concat ls))).
Proof.
  induction ls as [|l ls IH]; [done|]. rewrite fmap_cons. cbn [zsum foldr List.concat]. fold (zsum ((λ l, Z.of_nat (length (filter (λ x, P x = true) l))) <$> ls)).
  rewrite IH, filter_app, length_app. lia.
Qed.

Definition below_a_dollar (t : Transaction) : bool := flt (amount_paid t) USD_THRESHOLD.

Lemma small_converted ts : length (filter (λ t, below_a_dollar t = true) (converted <$> (filter (λ t, uc5_selects t = true) ts))) =
  length (filter (λ t, small t = true) ts).
Proof.
  rewrite <- count_small. generalize (filter (λ t, uc5_selects t = true) ts) as l. intros l. induction l as [|t l IH]; [done|].
  rewrite !fmap_cons, !filter_cons. change (below_a_dollar (converted t)) with (flt (dollars t) (f_of_Z 1)).
  destruct (decide _); cbn [length]; by rewrite IH.
Qed.

(** The messages the converters send of a client. *)
Definition uc5_sent (c : uuid) (batches : list (list Transaction)) : list (list Transaction) :=
  (λ l : list Transaction, converted <$> (filter (λ t, uc5_selects t = true) l)) <$> batches.

Lemma sent_count batches ts (ls : list (list Transaction)) c : List.concat batches ≡ₚ ts → uc5_sent c batches ≡ₚ ls →
  length (filter (λ t, below_a_dollar t = true) (List.concat ls)) = length (filter (λ t, small t = true) ts).
Proof.
  intros Hb Hl. rewrite <- small_converted. apply Permutation_length, filter_Permutation. rewrite <- Hb.
  assert (E : List.concat (uc5_sent c batches) = converted <$> (filter (λ t, uc5_selects t = true) (List.concat batches))).
  { unfold uc5_sent. clear. induction batches as [|l batches IH]; [done|]. rewrite fmap_cons. cbn [List.concat]. by rewrite IH, filter_app, fmap_app. }
  rewrite <- E. clear -Hl. induction Hl as [|l ls ls' _ IH|l l' ls|ls1 ls2 ls3 _ IH1 _ IH2]; cbn [List.concat];
    [done|by rewrite IH|by rewrite !app_assoc, (Permutation_app_comm l')|by rewrite IH2].
Qed.

(** From the messages of the converters to the responses. *)
Lemma counted c (ls : list (list Transaction)) : ∃ kept counts,
  mapR (FilterFn_filter UC5AmountFilter_keep) (Transactions c <$> ls) = Ok kept ∧ mapR UC5Count_group_by kept = Ok counts ∧
  Forall is_count (List.concat counts).*1 ∧ own c (List.concat counts).*1 = (List.concat counts).*1 ∧
  ∀ els, Forall is_count els → own c els ≡ₚ (List.concat counts).*1 → ∃ st, join_run UC5Join [] els = Ok st ∧
    get_responses UC5Join st c = Ok (ddel st c,
      [response c ("--- UC5 ---" +:+ nl +:+ "count: " +:+ str_int (Z.of_nat (length (filter (λ t, below_a_dollar t = true) (List.concat ls)))) +:+ nl) true]).
Proof.
  set (keep := λ l : list Transaction, filter (λ t, below_a_dollar t = true) l).
  exists ((λ l, Transactions c (keep l)) <$> ls), ((λ l, [(TransactionCount c (Z.of_nat (length (keep l))), hash_uuid c)]) <$> ls).
  split; [|split; [|split; [|split]]].
  - assert (E := filter_batches UC5AmountFilter_keep below_a_dollar c ls ltac:(done)). etrans; [|exact E]. clear.
    induction ls as [|l ls IH]; [done|]. rewrite fmap_cons. cbn [mapR]. by rewrite IH.
  - by apply (mapR_map UC5Count_group_by (λ l, Transactions c (keep l))).
  - clear. induction ls as [|l ls IH]; [constructor|]. rewrite fmap_cons. cbn [List.concat app]. rewrite fmap_cons. by constructor.
  - unfold own. clear. induction ls as [|l ls IH]; [done|]. rewrite fmap_cons. cbn [List.concat app]. rewrite fmap_cons, filter_cons, IH.
    by rewrite decide_True.
  - intros els Hels Hown. destruct (uc5_run els [] c Hels) as (st & E & Hst). exists st. split; [done|].
    cbn [get_responses UC5Join]. unfold one_response, uc5_get_response. do 6 f_equal. rewrite Hst, (count_own c els Hels).
    rewrite (zsum_perm _ _ (fmap_Permutation (count_for c) _ _ Hown)). unfold dget_or. cbn [dget default from_option]. rewrite Z.add_0_l, <- zsum_lengths. f_equal.
    do 3 f_equal. clear. induction ls as [|l ls IH]; [done|]. rewrite !fmap_cons. cbn [List.concat app].
    rewrite !fmap_cons. cbn [fst count_for]. by rewrite IH, decide_True.
Qed.

(** What the converters send of the client are its messages, converted. *)
Lemma converters_sent c batches base cap (instances : list instance) outs :
  Forall (λ i : instance, Forall (λ m, is_payments (body_ m)) i.1 ∧ honest [] (i.1 ≫= λ m, payments (body_ m)) i.2) instances →
  List.concat ((λ i : instance, own c (body_ <$> i.1)) <$> instances) ≡ₚ
    (λ l, Transactions c (filter (λ t, uc5_selects t = true) l)) <$> batches →
  Forall2 (λ (i : instance) out, convert_run (mkConverter base cap []) i.1 i.2 = Some (Ok out)) instances outs →
  ∃ ls, own c (List.concat outs) = Transactions c <$> ls ∧ uc5_sent c batches ≡ₚ ls.
Proof.
  intros Hi Hp Ho. assert (E : own c (List.concat outs) = convert_body <$> List.concat ((λ i : instance, own c (body_ <$> i.1)) <$> instances)).
  { rewrite own_concat. clear Hp. induction Ho as [|i out instances outs Hrun _ IH]; [done|]. inversion_clear Hi as [|? ? [Hm Hh] Hi'].
    rewrite (convert_run_ok _ (mkConverter base cap []) _ Hm cache_ok_nil Hh) in Hrun. injection Hrun as <-. rewrite !fmap_cons. cbn [List.concat].
    rewrite fmap_app, <- IH by done. f_equal. rewrite <- own_converted. f_equal. apply (list_fmap_compose body_ convert_body). }
  assert (P : own c (List.concat outs) ≡ₚ Transactions c <$> uc5_sent c batches).
  { rewrite E, Hp. unfold uc5_sent. by rewrite <- !list_fmap_compose. }
  destruct (Permutation_map_inv _ _ P) as (ls & -> & Hl). by exists ls.
Qed.

(** There are answers of the service for any transactions with dates. *)
Lemma honest_exists l : ∀ cache, Forall (λ t, ∃ d, timestamp t = TsDate d) l → ∃ answers, honest cache l answers.
Proof.
  induction l as [|t l IH]; intros cache Hl; [by exists []|]. inversion_clear Hl as [|? ? [d Ht] Hl']. cbn [honest]. rewrite Ht.
  destruct (dget cache (date_of d)); [by apply IH|].
  destruct (IH (dset cache (date_of d) (day_rates (date_of d))) Hl') as [answers Ha]. by exists (Ok (rates (date_of d)) :: answers), 0%nat, answers.
Qed.

(** The messages the filters let through. *)
Lemma uc5_filtered c batches ts rows : Forall2 same_transfer rows ts → List.concat batches ≡ₚ ts →
  mapR (λ l, FilterFn_filter UC5Filter_keep (Transactions c l)) batches =
    Ok ((λ l, Transactions c (filter (λ t, uc5_selects t = true) l)) <$> batches).
Proof.
  intros Hrt Hb. apply filter_batches. intros l t Hl Ht. apply UC5Filter_keep_ok.
  assert (Hts : t ∈ ts) by (rewrite <- Hb; apply list_elem_of_In, in_concat; exists l; by rewrite <- !list_elem_of_In).
  apply list_elem_of_lookup in Hts as [i Hi]. destruct (Forall2_lookup_r _ _ _ _ _ Hrt Hi) as (r & _ & Hr). by apply (st_wf r t).
Qed.

(** An answer: one converter, one count at a time. *)
Lemma uc5_answer_exists c batches ts rows : Forall2 same_transfer rows ts → List.concat batches ≡ₚ ts → ∃ responses, uc5_answer c batches responses.
Proof.
  intros Hrt Hb. set (filtered := (λ l, Transactions c (filter (λ t, uc5_selects t = true) l)) <$> batches).
  assert (Hown : own c filtered = filtered).
  { unfold filtered, own. clear. induction batches as [|l batches IH]; [done|]. rewrite fmap_cons, filter_cons, IH. by rewrite decide_True. }
  set (msgs := new_msg <$> filtered). assert (Hbodies : body_ <$> msgs = filtered) by (unfold msgs; rewrite <- list_fmap_compose; apply list_fmap_id).
  assert (Hm : Forall (λ m, is_payments (body_ m)) msgs) by (unfold msgs, filtered; rewrite !Forall_fmap; by apply Forall_true).
  destruct (honest_exists (msgs ≫= λ m, payments (body_ m)) []) as [answers Ha].
  { assert (Hd : Forall (λ t, ∃ d, timestamp t = TsDate d) (List.concat batches)).
    { rewrite Hb. clear -Hrt. induction Hrt as [|r t rows ts [_ (d & Hd & _)] _ IH]; constructor; [by exists d|done]. }
    clear -Hd. unfold msgs, filtered. induction batches as [|l batches IH]; [constructor|]. rewrite !fmap_cons. cbn [mbind list_bind new_msg body_ payments].
    cbn [List.concat] in Hd. apply Forall_app in Hd as [Hd1 Hd2]. apply Forall_app. split; [clear IH|by apply IH]. rewrite Forall_forall in Hd1 |- *.
    intros t [_ Ht]%list_elem_of_filter. by apply Hd1. }
  assert (Hi : Forall (λ i : instance, Forall (λ m, is_payments (body_ m)) i.1 ∧ honest [] (i.1 ≫= λ m, payments (body_ m)) i.2) [(msgs, answers)])
    by by repeat constructor.
  pose proof (convert_run_ok msgs (mkConverter (f_of_Z 1) (f_of_Z 1) []) answers Hm cache_ok_nil Ha) as Hrun.
  assert (Hp : List.concat ((λ i : instance, own c (body_ <$> i.1)) <$> [(msgs, answers)]) ≡ₚ filtered)
    by (cbn [fmap list_fmap List.concat fst]; by rewrite app_nil_r, Hbodies, Hown).
  assert (Ho : Forall2 (λ (i : instance) out, convert_run (mkConverter (f_of_Z 1) (f_of_Z 1) []) i.1 i.2 = Some (Ok out)) [(msgs, answers)]
    [(λ m, convert_body (body_ m)) <$> msgs]) by by repeat constructor.
  destruct (converters_sent c batches _ _ _ _ Hi Hp Ho) as (ls & Els & _).
  destruct (counted c ls) as (kept & counts & Ek & Ec & Hc & Hcown & Hrs).
  destruct (Hrs _ Hc) as (st & Est & Eg); [by rewrite Hcown|].
  eexists. econstructor; [by eapply uc5_filtered|exact Hi|exact Hp|exact Ho|by rewrite Els|exact Ec|exact Hc|by rewrite Hcown|exact Est|exact Eg].
Qed.

(** C4: UC5 agrees with the script that computes the expected answers
    ([_uc5_streaming]), when the conversion service gives the same rates for a day
    whenever it is asked. For a file whose lines the client parses into the transactions
    of its batches, in any order, and the script reads in chunks of any size: the script
    reaches a count; there is an answer of the network; and whatever way the filtered
    batches are spread over the converters and interleaved with other clients', however
    often the service fails before it answers, and in whatever order the counts reach
    the join, the client gets one response, marked last, with the count of the script. *)
Theorem uc5_matches_oracle (c : uuid) (lines : list chars) (chunks : list (list Row)) (ts : list Transaction) (batches : list (list Transaction)) :
  Forall2 line_row lines (List.concat chunks) → Forall2 (λ line t, parse_transaction line = Ok t) lines ts →
  List.concat batches ≡ₚ ts →
  ∃ k, uc5_streaming (λ day, Ok (rates day)) [] chunks = Ok k ∧
    (∃ responses, uc5_answer c batches responses) ∧
    ∀ responses, uc5_answer c batches responses →
      responses = [response c ("--- UC5 ---" +:+ nl +:+ "count: " +:+ str_int k +:+ nl) true].
Proof.
  intros Hrows Hts Hb. pose proof (parsed_transfers lines _ ts Hrows Hts) as Hrt.
  eexists. split; [by apply (uc5_streaming_spec chunks ts Hrt), cache_ok_nil|]. split; [by eapply uc5_answer_exists|].
  intros responses [filtered base cap instances outs kept counts els st st' Ef Hi Hp Ho Ek Ec Hels Hown Est Eg].
  rewrite (uc5_filtered c batches ts _ Hrt Hb) in Ef. injection Ef as <-.
  destruct (converters_sent c batches base cap instances outs Hi Hp Ho) as (ls & Els & Hls).
  destruct (counted c ls) as (kept' & counts' & Ek' & Ec' & _ & _ & Hrs). rewrite Els, Ek' in Ek. injection Ek as <-.
  rewrite Ec' in Ec. injection Ec as <-. destruct (Hrs els Hels Hown) as (st1 & Est1 & Eg1). rewrite Est in Est1. injection Est1 as <-.
  rewrite Eg in Eg1. injection Eg1 as _ ->. by rewrite (sent_count batches ts ls c Hb Hls).
Qed.
End uc5.

(** ** A concrete file *)

#[local] Instance uc5_demo_hash : PyHash := {| hash_str _ := 0; hash_uuid _ := 0; hash_identity _ _ := 0 |}.

Definition demo_uc5_rates (day : date) : pydict string float := [("Yen", f_of_Z 2)]%string.
Definition demo_uc5_line (day paid currency format : string) : chars :=
  chars_of ("2022/09/" +:+ day +:+ " 00:00,10,A,20,B," +:+ paid +:+ "," +:+ currency +:+ "," +:+ paid +:+ "," +:+ currency +:+ "," +:+ format +:+ ",0" +:+ nl).
Definition demo_uc5_row (day : string) (paid : Z) (currency format : string) : Row :=
  mkRow ("2022/09/" +:+ day +:+ " 00:00") 10 "A" 20 "B" (f_of_Z paid) currency format.
Definition demo_uc5_tx (day paid : Z) (currency format : string) : Transaction :=
  mkTx (TsDate (mkDT 2022 9 day 0 0 0)) "10" "A" "20" "B" (f_of_Z paid) currency (f_of_Z paid) currency format.

(** Of four payments, one is of a format not counted, one of a day not counted, one is
    of two dollars, and one of nothing. *)
Lemma uc5_matches_oracle_witness :
  let chunks := [[demo_uc5_row "02" 0 "Yen" "Wire"]; [demo_uc5_row "03" 0 "Yen" "Cash"; demo_uc5_row "03" 1 "Yen" "ACH"; demo_uc5_row "07" 0 "Yen" "ACH"]]%string in
  let batches := [[demo_uc5_tx 3 0 "Yen" "Cash"]; [demo_uc5_tx 2 0 "Yen" "Wire"; demo_uc5_tx 3 1 "Yen" "ACH"]; [demo_uc5_tx 7 0 "Yen" "ACH"]]%string in
  uc5_streaming (λ day, Ok (demo_uc5_rates day)) [] chunks = Ok 1 ∧
  uc5_answer demo_uc5_rates (uuid_lit 4) batches [response (uuid_lit 4) ("--- UC5 ---" +:+ nl +:+ "count: 1" +:+ nl) true].
Proof.
  cbv zeta. set (chunks := [_; _]). assert (E : uc5_streaming (λ day, Ok (demo_uc5_rates day)) [] chunks = Ok 1) by (vm_compute; reflexivity).
  split; [exact E|].
  destruct (uc5_matches_oracle demo_uc5_rates (uuid_lit 4)
    [demo_uc5_line "02" "0" "Yen" "Wire"; demo_uc5_line "03" "0" "Yen" "Cash"; demo_uc5_line "03" "1" "Yen" "ACH"; demo_uc5_line "07" "0" "Yen" "ACH"]%string chunks
    [demo_uc5_tx 2 0 "Yen" "Wire"; demo_uc5_tx 3 0 "Yen" "Cash"; demo_uc5_tx 3 1 "Yen" "ACH"; demo_uc5_tx 7 0 "Yen" "ACH"]%string
    [[demo_uc5_tx 3 0 "Yen" "Cash"]; [demo_uc5_tx 2 0 "Yen" "Wire"; demo_uc5_tx 3 1 "Yen" "ACH"]; [demo_uc5_tx 7 0 "Yen" "ACH"]]%string)
    as (k & Hk & [responses Hr] & Hall).
  - repeat constructor; [apply (line_read _ _ (mkDT 2022 9 2 0 0 0) "10" "20" "0" "Yen" "0" "0")
      |apply (line_read _ _ (mkDT 2022 9 3 0 0 0) "10" "20" "0" "Yen" "0" "0")
      |apply (line_read _ _ (mkDT 2022 9 3 0 0 0) "10" "20" "1" "Yen" "1" "0")
      |apply (line_read _ _ (mkDT 2022 9 7 0 0 0) "10" "20" "0" "Yen" "0" "0")]; by vm_compute.
  - repeat constructor; by vm_compute.
  - cbn [List.concat app]. apply perm_swap.
  - rewrite E in Hk. injection Hk as <-. pose proof (Hall responses Hr) as ->. exact Hr.
Defined.
