(* ===== verification/Amqp.v ===== *)
(** * The broker clients: [common/comms/middleware/*_rabbitmq.py], [multi_consumer.py], [_ack.py]

    What the wrappers around the client library of the broker do: the calls they make
    on their connections, in order, and what becomes of an exception. The library and
    the broker are an argument: a function from the calls so far to the exception the
    last one raised, if any. *)

From S2P Require Import Prelude.
From S2P Require Import PyDict.
From S2P Require Import PyValues.
From S2P Require Import PyText.
From S2P Require Import Wire.
From S2P Require Import Ring.

(** ** The calls *)

(** What is scheduled on the thread of a connection. *)
Inductive settlement :=
  | BasicAck (delivery_tag : Z)
  | BasicNack (delivery_tag : Z) (requeue : bool).

Inductive amqp_call :=
  | Connect (host : string)
  | ExchangeDeclare (exchange : string)
  | ConfirmDelivery
  | QueueDeclare (queue : string) (exclusive durable : bool)
  | QueueBind (exchange queue routing_key : string)
  | BasicQos (prefetch_count : Z)
  | BasicConsume (queue : string)
  | StartConsuming
  | StopConsuming
  | BasicPublish (exchange routing_key : string) (body : bytes)
  | AddCallbackThreadsafe (s : settlement)
  | CloseConnection.

(** The calls, each with the number of its connection. *)
Abbreviation trace := (list (nat * amqp_call)).

(** A computation that makes calls and may raise. *)
Definition io (A : Type) : Type := trace → trace * res A.
#[export] Instance io_ret : MRet io := λ A a tr, (tr, Ok a).
#[export] Instance io_bind : MBind io := λ A B f m tr,
  match m tr with
  | (tr, Ok a) => f a tr
  | (tr, Exc e) => (tr, Exc e)
  end.
Definition io_raise {A} (e : pyexc) : io A := λ tr, (tr, Exc e).
(** [try: ... except ...] *)
Definition io_catch {A} (m : io A) (handler : pyexc → io A) : io A := λ tr,
  match m tr with
  | (tr, Ok a) => (tr, Ok a)
  | (tr, Exc e) => handler e tr
  end.

(** The exceptions of the library below [AMQPConnectionError]. *)
Definition connection_error (e : pyexc) : bool := bool_decide (e ∈ [AMQPConnectionError; ConnectionWrongStateError]).

Section broker.
Context (broker : trace → option pyexc).

Definition perform (conn : nat) (call : amqp_call) : io unit := λ tr,
  let tr := tr ++ [(conn, call)] in
  match broker tr with None => (tr, Ok tt) | Some e => (tr, Exc e) end.

(** [BlockingConnection(ConnectionParameters(host, heartbeat=0)).channel()] *)
Definition connect (host : string) : io nat := λ tr,
  let conn := length tr in (perform conn (Connect host);; mret conn) tr.

(** ** [_ack.py] *)

Definition ack_threadsafe (conn : nat) (delivery_tag : Z) : io unit :=
  perform conn (AddCallbackThreadsafe (BasicAck delivery_tag)).
Definition nack_threadsafe (conn : nat) (delivery_tag : Z) (requeue : bool) : io unit :=
  perform conn (AddCallbackThreadsafe (BasicNack delivery_tag requeue)).

(** A message handler: the body, and how to acknowledge and refuse it. *)
Abbreviation message_handler := (bytes → io unit → io unit → io unit).

(** What the three wrappers pass to [basic_consume]. *)
Definition delivery_callback (conn : nat) (on_message_callback : message_handler) (delivery_tag : Z) (body : bytes) : io unit :=
  on_message_callback body (ack_threadsafe conn delivery_tag) (nack_threadsafe conn delivery_tag true).

(** [try: start_consuming()]: a lost connection is reported, anything else is only logged. *)
Definition consume_loop (conn : nat) : io unit :=
  io_catch (perform conn StartConsuming) (λ e, if connection_error e then io_raise MOMDisconnectedError else mret tt).
Definition stop_loop (conn : nat) : io unit :=
  io_catch (perform conn StopConsuming) (λ e, if connection_error e then io_raise MOMDisconnectedError else mret tt).
Definition publish_one (conn : nat) (exchange routing_key : string) (body : bytes) : io unit :=
  io_catch (perform conn (BasicPublish exchange routing_key body))
    (λ e, if connection_error e then io_raise MOMDisconnectedError else io_raise MOMMessageError).
Definition close_connection (conn : nat) : io unit :=
  io_catch (perform conn CloseConnection)
    (λ e, if bool_decide (e = ConnectionWrongStateError) then mret tt else io_raise MOMMessageError).

(** ** [ExchangeRabbitMQ] *)

Record ExchangeRabbitMQ := mkExchange {
  ex_host : string;
  exchange_name : string;
  routing_keys : list string;
  ex_queue : string;
  ex_exclusive : bool;
  ex_prefetch : Z;
  ex_conn : nat
}.

Definition PREFETCH_COUNT : Z := 10.

Definition exchange_init (host exchange : string) (keys : list string) (queue : string) (exclusive : bool) (prefetch_count : Z)
    : io ExchangeRabbitMQ :=
  conn ← connect host;
  perform conn (ExchangeDeclare exchange);;
  perform conn ConfirmDelivery;;
  mret (mkExchange host exchange keys queue exclusive (Z.max prefetch_count PREFETCH_COUNT) conn).

Fixpoint each {A} (f : A → io unit) (l : list A) : io unit :=
  match l with [] => mret tt | x :: l => f x;; each f l end.

Definition exchange_start_consuming (e : ExchangeRabbitMQ) : io unit :=
  perform (ex_conn e) (QueueDeclare (ex_queue e) (ex_exclusive e) (negb (ex_exclusive e)));;
  each (λ k, perform (ex_conn e) (QueueBind (exchange_name e) (ex_queue e) k)) (routing_keys e);;
  perform (ex_conn e) (BasicQos (ex_prefetch e));;
  perform (ex_conn e) (BasicConsume (ex_queue e));;
  consume_loop (ex_conn e).

Definition exchange_stop_consuming (e : ExchangeRabbitMQ) : io unit := stop_loop (ex_conn e).

Definition exchange_send (e : ExchangeRabbitMQ) (message : bytes) (routing_key : option string) : io unit :=
  let keys := match routing_key with Some k => [k] | None => routing_keys e end in
  each (λ k, publish_one (ex_conn e) (exchange_name e) k message) keys.

Definition exchange_close (e : ExchangeRabbitMQ) : io unit := close_connection (ex_conn e).

Definition exchange_clone (e : ExchangeRabbitMQ) : io ExchangeRabbitMQ :=
  exchange_init (ex_host e) (exchange_name e) (routing_keys e) (ex_queue e) (ex_exclusive e) (ex_prefetch e).

(** ** [QueueRabbitMQ] *)

Record QueueRabbitMQ := mkQueue { q_host : string; q_name : string; q_prefetch : Z; q_conn : nat }.

Definition queue_init (host queue : string) (prefetch_count : Z) : io QueueRabbitMQ :=
  conn ← connect host;
  perform conn (QueueDeclare queue false false);;
  perform conn (BasicQos prefetch_count);;
  perform conn ConfirmDelivery;;
  mret (mkQueue host queue prefetch_count conn).

Definition queue_start_consuming (q : QueueRabbitMQ) : io unit :=
  perform (q_conn q) (BasicConsume (q_name q));; consume_loop (q_conn q).
Definition queue_stop_consuming (q : QueueRabbitMQ) : io unit := stop_loop (q_conn q).
Definition queue_send (q : QueueRabbitMQ) (message : bytes) : io unit := publish_one (q_conn q) "" (q_name q) message.
Definition queue_close (q : QueueRabbitMQ) : io unit := close_connection (q_conn q).
Definition queue_clone (q : QueueRabbitMQ) : io QueueRabbitMQ := queue_init (q_host q) (q_name q) (q_prefetch q).

(** ** [RingRabbitMQ] *)

(** The ring, and its two exchanges; only the back one outlives its node. *)
Record RingRabbitMQ := mkRingMQ { rq_ring : RingMOM; exchange_front : ExchangeRabbitMQ; exchange_back : ExchangeRabbitMQ }.

Definition lift {A} (r : res A) : io A := λ tr, (tr, r).

Definition ring_mq_init (host ring_name : string) (self_id : Z) (peer_ids : list Z) : io RingRabbitMQ :=
  r ← lift (ring_mom_init ring_name self_id peer_ids);
  front ← exchange_init host ring_name [str_int (rm_front r)] (front_queue_name r) true PREFETCH_COUNT;
  back ← exchange_init host ring_name [str_int self_id] (self_queue_name r) false PREFETCH_COUNT;
  mret (mkRingMQ r front back).

Definition ring_start_consuming (r : RingRabbitMQ) : io unit := exchange_start_consuming (exchange_back r).
Definition ring_stop_consuming (r : RingRabbitMQ) : io unit := exchange_stop_consuming (exchange_back r).
Definition ring_send (r : RingRabbitMQ) (message : bytes) : io unit := exchange_send (exchange_front r) message None.

(** [MOMCloseError] is raised again; the exchanges raise [MOMMessageError], which passes. *)
Definition ring_close (r : RingRabbitMQ) : io unit :=
  io_catch (exchange_close (exchange_front r)) io_raise;;
  io_catch (exchange_close (exchange_back r)) io_raise.

Definition ring_clone (r : RingRabbitMQ) : io RingRabbitMQ :=
  ring_mq_init (ex_host (exchange_front r)) (rm_name (rq_ring r)) (rm_id (rq_ring r)) (rm_peers (rq_ring r)).

(** ** [MultiQueueConsumer] *)

(** A source: its queue, the number of its handler, its window. *)
Record Source := mkSource { src_queue : string; src_handler : nat; src_prefetch : Z }.
Record MultiQueueConsumer := mkMulti { mq_conn : nat; mq_sources : list Source }.

Definition multi_init (host : string) : io MultiQueueConsumer := conn ← connect host; mret (mkMulti conn []).

Definition add_queue (m : MultiQueueConsumer) (queue : string) (handler : nat) (prefetch : Z) (durable : bool)
    (exchange routing_key : option string) : io MultiQueueConsumer :=
  perform (mq_conn m) (QueueDeclare queue false durable);;
  match exchange with
  | Some x => perform (mq_conn m) (ExchangeDeclare x);; perform (mq_conn m) (QueueBind x queue (default "" routing_key))
  | None => mret tt
  end;;
  mret (mkMulti (mq_conn m) (mq_sources m ++ [mkSource queue handler prefetch])).

Definition multi_start (m : MultiQueueConsumer) : io unit :=
  each (λ src, perform (mq_conn m) (BasicQos (src_prefetch src));; perform (mq_conn m) (BasicConsume (src_queue src))) (mq_sources m);;
  consume_loop (mq_conn m).

(** Anything raised while stopping or closing is only logged. *)
Definition multi_stop (m : MultiQueueConsumer) : io unit := io_catch (perform (mq_conn m) StopConsuming) (λ _, mret tt).
Definition multi_close (m : MultiQueueConsumer) : io unit := io_catch (perform (mq_conn m) CloseConnection) (λ _, mret tt).
Definition multi_send (m : MultiQueueConsumer) (queue : string) (message : bytes) : io unit :=
  perform (mq_conn m) (BasicPublish "" queue message).
End broker.
