(* ===== verification/Nodes.v ===== *)
(** * The entry points: the [main.py] of every kind of node, [make_checkpointer],
      [make_heartbeat_client]

    A process reads its environment and builds its node: which queues it consumes,
    where it sends, its place in the ring and its checkpoint. Python's [uuid5] is an
    argument; connecting to the broker is left to the broker clients. *)

From S2P Require Import Prelude.
From S2P Require Import PyDict.
From S2P Require Import PyValues.
From S2P Require Import PyText.
From S2P Require Import PyTime.
From S2P Require Import PyFloat.
From S2P Require Import Wire.
From S2P Require Import Messages.
From S2P Require Import Stamping.
From S2P Require Import RingCompletion.
From S2P Require Import Filters.
From S2P Require Import GroupBy.
From S2P Require Import Ring.
From S2P Require Import Amqp.

(** ** The environment *)

Abbreviation env := (pydict string string).

(** [os.environ[k]], [os.getenv(k)], [os.getenv(k, default)] *)
Definition environ (e : env) (k : string) : res string := dindex e k.
Definition getenv (e : env) (k : string) : option string := dget e k.
Definition getenv_or (e : env) (k d : string) : string := dget_or d e k.

(** [os.path.join(a, b)] *)
Definition path_join (a b : string) : string :=
  match chars_of b, last (chars_of a) with
  | c :: _, l =>
      if bool_decide (c = chr 47) then b
      else match l with
           | None => b
           | Some x => if bool_decide (x = chr 47) then a +:+ b else a +:+ "/" +:+ b
           end
  | [], None => ""
  | [], Some x => if bool_decide (x = chr 47) then a else a +:+ "/"
  end.

(** [CHECKPOINT_EVERY = int(os.getenv("CHECKPOINT_EVERY", 5))] *)
Definition checkpoint_every (e : env) : res Z := int_str (getenv_or e "CHECKPOINT_EVERY" "5").

(** [make_checkpointer]: the file of the store, and how often it is written. *)
Definition checkpoint_setup (state_dir : option string) (node_id : string) (every : Z) : option (string * Z) :=
  match state_dir with
  | None | Some EmptyString => None
  | Some dir => Some (path_join dir (node_id +:+ ".ckpt"), every)
  end.

(** [os.path.join(STATE_DIR or "/tmp", "spill")] *)
Definition spill_dir (state_dir : option string) : string :=
  path_join (match state_dir with None | Some EmptyString => "/tmp" | Some dir => dir end) "spill".

(** [[i for i in range(npeers) if i != idx]] *)
Definition peer_ids (idx npeers : Z) : list Z := filter (λ i, i ≠ idx) (seqZ 0 npeers).

(** What a node of a ring is built with: its inputs, each a queue and its exchange; the
    ring; the routes of every downstream fleet; the counters the checkpoint keeps. *)
Record NodeSetup := mkSetup {
  su_idx : Z;
  su_rc : RingCompletion;
  su_ring : RingMOM;
  su_inputs : list (string * string);
  su_ring_input : string * string;
  su_prefetch : Z;
  su_fleets : list (list Route);
  su_stamps : list StampingMOM;
  su_checkpoint : option (string * Z)
}.

(** ** The queues of a ring node: [RingNode.start], [_add_ring_queue], [RingMerge.start] *)

(** The queues registered before consuming: the inputs, handled by the handlers of
    their number, then the ring, handled by the one after them. *)
Definition add_inputs (broker : trace → option pyexc) (m : MultiQueueConsumer) (n : NodeSetup) : io MultiQueueConsumer :=
  foldl (λ acc input, m ← acc;
      add_queue broker m input.2.1 input.1 (su_prefetch n) true (Some input.2.2) (Some (str_int (su_idx n))))
    (mret m) (imap pair (su_inputs n)).

Definition add_ring_queue (broker : trace → option pyexc) (m : MultiQueueConsumer) (n : NodeSetup) : io MultiQueueConsumer :=
  add_queue broker m (su_ring_input n).1 (length (su_inputs n)) 1 true (Some (su_ring_input n).2) (Some (str_int (su_idx n))).

Definition ring_node_serve (broker : trace → option pyexc) (m : MultiQueueConsumer) (n : NodeSetup) : io MultiQueueConsumer :=
  m ← add_inputs broker m n;
  m ← add_ring_queue broker m n;
  multi_start broker m;;
  mret m.

(** [RingNode.stop] *)
Definition ring_node_stop (broker : trace → option pyexc) (m : MultiQueueConsumer) (ring : RingRabbitMQ) (close_txs : list (io unit)) : io unit :=
  multi_stop broker m;; multi_close broker m;; ring_close broker ring;; each (λ close, close) close_txs.

Section nodes.
Context (uuid5 : uuid → string → uuid).

(** The tail shared by the constructors: ring, completion, checkpointer, queue names. *)
Definition ring_node_setup (e : env) (strategy : string) (idx npeers every : Z) (inputs : list string)
    (fleets : list (list (Route * StampingMOM))) : res NodeSetup :=
  ring_name ← environ e "RING_NAME";
  let peers := peer_ids idx npeers in
  ring ← ring_mom_init ring_name idx peers;
  Ok (mkSetup idx (rc_init idx peers) ring
        ((λ rx, (rx +:+ str_int idx, rx)) <$> inputs)
        (ring_name +:+ "_queue" +:+ str_int idx, ring_name)
        (Z.max every 10)
        ((λ fleet, fleet.*1) <$> fleets)
        (List.concat ((λ fleet : list (Route * StampingMOM), fleet.*2) <$> fleets))
        (checkpoint_setup (getenv e "STATE_DIR") (strategy +:+ "_" +:+ str_int idx) every)).

(** ** [filter/main.py] *)

Inductive FilterNode :=
  | DefaultFilter (routes : list (Body → res Body)) (sharded_routes : list (Body → res Body)) (n : NodeSetup)
  | PlainFilter (fn : Body → res Body) (n : NodeSetup).

Abbreviation filter_route := (list (Route * StampingMOM) * (Body → res Body))%type.

(** One turn of the loop over [route_table]. *)
Definition add_route (e : env) (idx : Z) (acc : list filter_route * list filter_route) (r : string * (Body → res Body) * string)
    : res (list filter_route * list filter_route) :=
  let '(tx, filter_fn, shards_env) := r in
  naffinity ← int_str (getenv_or e shards_env "1");
  txs ← make_txs uuid5 idx tx naffinity;
  if naffinity =? 0 then Ok (acc.1 ++ [(take 1 txs, filter_fn)], acc.2)
  else Ok (acc.1, acc.2 ++ [(txs, filter_fn)]).

Definition make_default_filter (e : env) (rx strategy : string) (every : Z) : res FilterNode :=
  idx ← int_str (getenv_or e "IDX" "0");
  npeers ← int_str (getenv_or e "NPEERS" "1");
  table ← mapR (λ r : string * (Body → res Body) * string, tx ← environ e r.1.1; Ok (tx, r.1.2, r.2)) route_table;
  '(routes, sharded_routes) ← foldR (add_route e idx) ([], []) table;
  n ← ring_node_setup e strategy idx npeers every [rx] (routes.*1 ++ sharded_routes.*1);
  Ok (DefaultFilter routes.*2 sharded_routes.*2 n).

Definition make_filter (e : env) (fn : Body → res Body) (idx naffinities_downstream : Z) (rx_name tx_name strategy : string) (every : Z)
    : res FilterNode :=
  npeers ← int_str (getenv_or e "NPEERS" "1");
  external_txs ← make_txs uuid5 idx tx_name naffinities_downstream;
  n ← ring_node_setup e strategy idx npeers every [rx_name] [external_txs];
  Ok (PlainFilter fn n).

Definition filter_main (e : env) : res FilterNode :=
  _ ← environ e "MOM_HOST";
  rx ← environ e "RX";
  strategy ← environ e "STRATEGY";
  every ← checkpoint_every e;
  s ← filter_strategy_of strategy;
  match filter_of_strategy s with
  | None => make_default_filter e rx strategy every
  | Some fn =>
      idx ← int_str (getenv_or e "IDX" "0");
      downstream ← environ e "NAFFINITY_DOWNSTREAM";
      naffinity_downstream ← int_str downstream;
      tx ← environ e "TX";
      make_filter e fn idx naffinity_downstream rx tx strategy every
  end.

(** ** [group_by/main.py] *)

Definition make_groupby (e : env) (idx : Z) (routes : list (string * Z)) (rx_name strategy : string) (every : Z) : res NodeSetup :=
  npeers ← int_str (getenv_or e "NPEERS" "1");
  fleets ← mapR (λ r : string * Z, make_txs uuid5 idx r.1 r.2) routes;
  ring_node_setup e strategy idx npeers every [rx_name] fleets.

Definition group_by_main (e : env) : res (GroupByStrategy * NodeSetup) :=
  _ ← environ e "MOM_HOST";
  rx ← environ e "RX";
  tx ← environ e "TX";
  strategy ← environ e "STRATEGY";
  idx ← int_str (getenv_or e "IDX" "0");
  downstream ← environ e "NAFFINITY_DOWNSTREAM";
  naffinity_downstream ← int_str downstream;
  every ← checkpoint_every e;
  s ← group_by_strategy_of strategy;
  routes ←
    match s with
    | GS_UC4_COMPUTE_GRAPH =>
        tx_degree ← environ e "TX_DEGREE";
        naffinity_degree ← environ e "NAFFINITY_DEGREE";
        n ← int_str naffinity_degree;
        Ok [(tx, naffinity_downstream); (tx_degree, n)]
    | _ => Ok [(tx, naffinity_downstream)]
    end;
  n ← make_groupby e idx routes rx strategy every;
  Ok (s, n).

(** ** [aggregate/main.py] *)

Inductive AggregateStrategy :=
  AS_UC2_MAX_AMOUNT | AS_UC2_BANK_NAMES | AS_UC3_AVERAGE | AS_UC4_COUNT_PATHS | AS_UC4_AGGREGATE_GRAPHS | AS_UC4_PATHS | AS_UC4_DEGREE.

Definition aggregate_strategy_of (s : string) : res AggregateStrategy :=
  if String.eqb s "uc2_max_amount_aggregate" then Ok AS_UC2_MAX_AMOUNT
  else if String.eqb s "uc2_bank_names_aggregate" then Ok AS_UC2_BANK_NAMES
  else if String.eqb s "uc3_average_aggregate" then Ok AS_UC3_AVERAGE
  else if String.eqb s "uc4_count_paths" then Ok AS_UC4_COUNT_PATHS
  else if String.eqb s "uc4_aggregate_graphs" then Ok AS_UC4_AGGREGATE_GRAPHS
  else if String.eqb s "uc4_paths_aggregate" then Ok AS_UC4_PATHS
  else if String.eqb s "uc4_degree_aggregate" then Ok AS_UC4_DEGREE
  else Exc ValueError.

(** The tag of the files a strategy spills to. *)
Definition aggregate_tag (s : AggregateStrategy) : option string :=
  match s with
  | AS_UC4_COUNT_PATHS => Some "uc4_count_paths"
  | AS_UC4_AGGREGATE_GRAPHS => Some "uc4_aggregate_graphs"
  | AS_UC4_PATHS => Some "uc4_aggregate_paths"
  | AS_UC4_DEGREE => Some "uc4_degree"
  | _ => None
  end%string.

Record AggregateNode := mkAggregateNode {
  an_strategy : AggregateStrategy;
  an_spill : option (string * string);
  an_broadcast : bool;
  an_node : NodeSetup
}.

Definition make_aggregate (e : env) (idx naffinities_downstream : Z) (rx_name tx_name strategy : string) (every : Z) : res NodeSetup :=
  npeers ← int_str (getenv_or e "NPEERS" "1");
  external_txs ← make_txs uuid5 idx tx_name naffinities_downstream;
  ring_node_setup e strategy idx npeers every [rx_name] [external_txs].

Definition aggregate_main (e : env) : res AggregateNode :=
  _ ← environ e "MOM_HOST";
  rx ← environ e "RX";
  tx ← environ e "TX";
  strategy ← environ e "STRATEGY";
  idx ← int_str (getenv_or e "IDX" "0");
  naffinity_downstream ← int_str (getenv_or e "NAFFINITY_DOWNSTREAM" "0");
  let broadcast_downstream := String.eqb (getenv_or e "BROADCAST_DOWNSTREAM" "0") "1" in
  every ← checkpoint_every e;
  s ← aggregate_strategy_of strategy;
  n ← make_aggregate e idx naffinity_downstream rx tx strategy every;
  Ok (mkAggregateNode s ((λ tag, (spill_dir (getenv e "STATE_DIR"), tag)) <$> aggregate_tag s) broadcast_downstream n).

(** ** [merge/main.py] *)

Inductive MergeStrategy := MS_UC2_MERGE | MS_UC3_MERGE | MS_UC4_PRUNE.

Definition merge_strategy_of (s : string) : res MergeStrategy :=
  if String.eqb s "uc2_merge" then Ok MS_UC2_MERGE
  else if String.eqb s "uc3_merge" then Ok MS_UC3_MERGE
  else if String.eqb s "uc4_prune" then Ok MS_UC4_PRUNE
  else Exc ValueError.

Definition merge_tag (s : MergeStrategy) : option string :=
  match s with MS_UC2_MERGE => None | MS_UC3_MERGE => Some "uc3_merge" | MS_UC4_PRUNE => Some "uc4_prune" end%string.

(** [make_txs] of the merge: every route stamps from one counter. *)
Definition merge_routes (tx : string) (naffinity_downstream : Z) : list Route :=
  if naffinity_downstream =? 0 then [QueueRoute tx]
  else (λ i, ExchangeRoute tx [str_int i] (tx +:+ str_int i)) <$> seqZ 0 naffinity_downstream.

Definition start_ring_merge (e : env) (strategy : string) (idx npeers every : Z) (left_rx right_rx : string)
    (external_txs : list Route) (stamp : StampingMOM) : res NodeSetup :=
  n ← ring_node_setup e strategy idx npeers every [left_rx; right_rx] [];
  Ok (mkSetup (su_idx n) (su_rc n) (su_ring n) (su_inputs n) (su_ring_input n) (su_prefetch n)
        [external_txs] [stamp] (su_checkpoint n)).

Record MergeNode := mkMergeNode { mn_strategy : MergeStrategy; mn_spill : option (string * string); mn_node : NodeSetup }.

Definition merge_main (e : env) : res MergeNode :=
  _ ← environ e "MOM_HOST";
  left_rx ← environ e "LEFT_RX";
  right_rx ← environ e "RIGHT_RX";
  tx ← environ e "TX";
  strategy ← environ e "STRATEGY";
  idx ← int_str (getenv_or e "IDX" "0");
  npeers ← int_str (getenv_or e "NPEERS" "1");
  naffinity_downstream ← int_str (getenv_or e "NAFFINITY_DOWNSTREAM" "0");
  every ← checkpoint_every e;
  s ← merge_strategy_of strategy;
  stamp ← sm_new (derive_producer_id uuid5 tx idx 0) (Some seq_init);
  n ← start_ring_merge e strategy idx npeers every left_rx right_rx (merge_routes tx naffinity_downstream) stamp;
  Ok (mkMergeNode s ((λ tag, (spill_dir (getenv e "STATE_DIR"), tag)) <$> merge_tag s) n).
End nodes.

(** ** [join/main.py] *)

(** A route handler: its queue, the use case it answers, the tag of its spill. *)
Record JoinInput := mkJoinInput { ji_queue : string; ji_uc : Z; ji_tag : option string }.
Record JoinNode := mkJoinNode {
  jn_handlers : list JoinInput;
  jn_prefetch : Z;
  jn_responses : string;
  jn_checkpoint : JoinInput → option (string * Z)
}.

(** [{int(x) for x in os.getenv("JOIN_UCS", "1,2,3,4,5").split(",") if x}] *)
Definition join_ucs (e : env) : res (list Z) :=
  mapR int_str (filter (λ x, x ≠ ""%string) (str_split (chr 44) (getenv_or e "JOIN_UCS" "1,2,3,4,5"))).

Definition join_main (e : env) : res JoinNode :=
  _ ← environ e "MOM_HOST";
  uc1_rx ← environ e "UC1_RX";
  uc2_rx ← environ e "UC2_RX";
  uc3_rx ← environ e "UC3_RX";
  uc4_rx ← environ e "UC4_RX";
  uc5_rx ← environ e "UC5_RX";
  responses_tx ← environ e "RESPONSES_TX";
  every ← checkpoint_every e;
  ucs ← join_ucs e;
  let state_dir := getenv e "STATE_DIR" in
  let prefetch := match state_dir with None | Some EmptyString => 1 | Some _ => every end in
  let all_handlers := [mkJoinInput uc1_rx 1 (Some "uc1_join"); mkJoinInput uc2_rx 2 None; mkJoinInput uc3_rx 3 (Some "uc3_join");
                       mkJoinInput uc4_rx 4 None; mkJoinInput uc5_rx 5 None]%string in
  let partial_res_handlers := filter (λ h, ji_uc h ∈ ucs) all_handlers in
  Ok (mkJoinNode partial_res_handlers prefetch responses_tx
        (λ h, checkpoint_setup state_dir ("join_uc" +:+ str_int (ji_uc h)) every)).

(** ** [gateway/main.py] *)

Record GatewayNode := mkGatewayNode {
  gn_addr : string * Z;
  gn_transactions : list Route;
  gn_accounts : list Route;
  gn_responses : uuid → string * string * string   (* exchange, routing key, queue *)
}.

(** [_declare_shards] *)
Definition declare_shards (broker : trace → option pyexc) (host exchange : string) (n : Z) : io unit :=
  conn ← connect broker host;
  perform broker conn (ExchangeDeclare exchange);;
  each (λ i, perform broker conn (QueueDeclare (exchange +:+ str_int i) false true);;
             perform broker conn (QueueBind exchange (exchange +:+ str_int i) (str_int i))) (seqZ 0 n);;
  perform broker conn CloseConnection.

(** The publishers a factory of [_make_factory] builds. *)
Definition shard_publishers (exchange : string) (n : Z) : list Route :=
  (λ i, ExchangeRoute exchange [str_int i] (exchange +:+ str_int i)) <$> seqZ 0 n.

Definition gateway_main (e : env) : res GatewayNode :=
  host ← environ e "GATEWAY_HOST";
  port ← environ e "GATEWAY_PORT";
  _ ← environ e "MOM_HOST";
  responses ← environ e "SERVER_QUEUE_RX";
  transactions_tx ← environ e "TRANSACTIONS_TX";
  accounts_tx ← environ e "ACCOUNTS_TX";
  ndefault_filters ← int_str (getenv_or e "NDEFAULT_FILTERS" "1");
  nbank_names ← int_str (getenv_or e "NBANK_NAMES" "1");
  port ← int_str port;
  Ok (mkGatewayNode (host, port) (shard_publishers transactions_tx ndefault_filters) (shard_publishers accounts_tx nbank_names)
        (λ c, (responses, uuid_str c, responses +:+ "." +:+ uuid_str c))).

(** ** [make_heartbeat_client] *)

Record HeartbeatSetup := mkHeartbeat { hs_node : string; hs_kind : string; hs_host : string; hs_port : Z; hs_interval : float }.

Definition make_heartbeat_client (e : env) : res (option HeartbeatSetup) :=
  match getenv e "SUPERVISOR_HOST" with
  | None | Some EmptyString => Ok None
  | Some host =>
      port ← int_str (getenv_or e "SUPERVISOR_PORT" "9100");
      let node_id := match getenv e "NODE_NAME" with
                     | None | Some EmptyString => getenv_or e "HOSTNAME" "unknown"
                     | Some name => name
                     end in
      interval ← float_str (getenv_or e "HEARTBEAT_INTERVAL" "2");
      Ok (Some (mkHeartbeat node_id (getenv_or e "NODE_KIND" "node") host port interval))
  end.

(** ** [supervisor/main.py] *)

Record SupervisorSetup := mkSupervisorSetup {
  ss_idx : Z;
  ss_bind : string;
  ss_ports : Z * Z * Z;
  ss_peers : list (Z * string);
  ss_expected : list string;
  ss_timeout : float;
  ss_sweep : float;
  ss_ping : float;
  ss_revive : option float
}.

Definition supervisor_main (e : env) : res SupervisorSetup :=
  server_port ← int_str (getenv_or e "SUPERVISOR_PORT" "9100");
  internal_port ← int_str (getenv_or e "INTERNAL_PORT" "9101");
  leader_port ← int_str (getenv_or e "LEADER_PORT" "9102");
  idx ← int_str (getenv_or e "IDX" "0");
  nnodes ← int_str (getenv_or e "NNODES" "1");
  let node_prefix := getenv_or e "NODE_PREFIX" "supervisor_" in
  timeout ← float_str (getenv_or e "HEARTBEAT_TIMEOUT" "6");
  let expected := filter (λ n, n ≠ ""%string) (str_split (chr 44) (getenv_or e "EXPECTED_NODES" "")) in
  sweep_interval ← float_str (getenv_or e "SWEEP_INTERVAL" "0.5");
  ping_delay ← float_str (getenv_or e "PING_DELAY" "0.5");
  revive_interval ← float_str (getenv_or e "REVIVE_INTERVAL" "5");
  Ok (mkSupervisorSetup idx (getenv_or e "SUPERVISOR_BIND" "0.0.0.0") (server_port, internal_port, leader_port)
        ((λ i, (i, node_prefix +:+ str_int i)) <$> peer_ids idx nnodes) expected timeout sweep_interval ping_delay
        (if flt (f_of_Z 0) revive_interval then Some revive_interval else None)).
