(* ===== verification/AmqpProps.v ===== *)
(** * What the broker clients guarantee

    Whatever the broker answers: which messages a send has published when it returns
    or raises, and what a node of a ring has declared, bound and asked for when it
    starts to consume. *)

From S2P Require Import Prelude.
From S2P Require Import PyDict.
From S2P Require Import PyValues.
From S2P Require Import PyText.
From S2P Require Import Wire.
From S2P Require Import Ring.
From S2P Require Import Amqp.
From S2P Require Import Nodes.

Section calls.
Context (broker : trace → option pyexc).

(** ** Sending *)

Definition publication (e : ExchangeRabbitMQ) (message : bytes) (k : string) : nat * amqp_call :=
  (ex_conn e, BasicPublish (exchange_name e) k message).

(** The broker takes the calls one by one after [tr]. *)
Fixpoint accepts (tr calls : trace) : Prop :=
  match calls with
  | [] => True
  | c :: calls => broker (tr ++ [c]) = None ∧ accepts (tr ++ [c]) calls
  end.

Definition mom_error (e : pyexc) : pyexc := if connection_error e then MOMDisconnectedError else MOMMessageError.

Lemma publish_run conn x k m tr : publish_one broker conn x k m tr =
  (tr ++ [(conn, BasicPublish x k m)], match broker (tr ++ [(conn, BasicPublish x k m)]) with None => Ok tt | Some e => Exc (mom_error e) end).
Proof.
  unfold publish_one, io_catch, perform. destruct (broker _) as [e|]; [|done]. unfold mom_error. by destruct (connection_error e).
Qed.

Lemma publish_each e m (keys : list string) : ∀ tr, ∃ done rest r,
  keys = done ++ rest ∧ accepts tr (publication e m <$> done) ∧
  each (λ k, publish_one broker (ex_conn e) (exchange_name e) k m) keys tr = r ∧
  ((rest = [] ∧ r = (tr ++ (publication e m <$> done), Ok tt)) ∨
   ∃ k rest' err, rest = k :: rest' ∧ broker ((tr ++ (publication e m <$> done)) ++ [publication e m k]) = Some err ∧
     r = ((tr ++ (publication e m <$> done)) ++ [publication e m k], Exc (mom_error err))).
Proof.
  induction keys as [|k keys IH]; intros tr.
  - exists [], [], (tr, Ok tt). split; [done|]. split; [done|]. split; [done|]. left. by rewrite app_nil_r.
  - cbn [each]. unfold mbind, io_bind. rewrite publish_run. fold (publication e m k).
    destruct (broker (tr ++ [publication e m k])) as [err|] eqn:Eb.
    + exists [], (k :: keys), (tr ++ [publication e m k], Exc (mom_error err)). split; [done|]. split; [done|]. split; [done|].
      right. exists k, keys, err. rewrite app_nil_r. done.
    + destruct (IH (tr ++ [publication e m k])) as (done & rest & r & -> & Hacc & Hr & Hcase).
      exists (k :: done), rest, r. split; [done|]. split; [done|]. split; [exact Hr|]. rewrite fmap_cons.
      rewrite (cons_middle (publication e m k)), app_assoc. exact Hcase.
Qed.

(** ** Starting to consume *)

(** The broker takes everything but, perhaps, the request to consume. *)
Hypothesis takes : ∀ tr conn c, c ≠ StartConsuming → broker (tr ++ [(conn, c)]) = None.

Lemma perform_taken conn c tr : c ≠ StartConsuming → perform broker conn c tr = (tr ++ [(conn, c)], Ok tt).
Proof. intros Hc. unfold perform. by rewrite takes. Qed.

(** The calls of one [add_queue], and of one source when consumption starts. *)
Definition declaration (conn : nat) (idx : Z) (input : string * string) : trace :=
  [(conn, QueueDeclare input.1 false true); (conn, ExchangeDeclare input.2); (conn, QueueBind input.2 input.1 (str_int idx))].
Definition subscription (conn : nat) (src : Source) : trace :=
  [(conn, BasicQos (src_prefetch src)); (conn, BasicConsume (src_queue src))].

Lemma add_queue_taken conn srcs q h prefetch x idx tr :
  add_queue broker (mkMulti conn srcs) q h prefetch true (Some x) (Some (str_int idx)) tr =
    (tr ++ declaration conn idx (q, x), Ok (mkMulti conn (srcs ++ [mkSource q h prefetch]))).
Proof.
  unfold add_queue, mbind, io_bind. cbn [mq_conn mq_sources]. rewrite !perform_taken by done. unfold mret, io_ret, declaration. cbn [fst snd default from_option].
  by rewrite <- !app_assoc.
Qed.

Definition node_sources (n : NodeSetup) : list Source :=
  imap (λ i input, mkSource input.1 i (su_prefetch n)) (su_inputs n) ++ [mkSource (su_ring_input n).1 (length (su_inputs n)) 1].
Definition node_declarations (conn : nat) (n : NodeSetup) : trace :=
  List.concat (declaration conn (su_idx n) <$> (su_inputs n ++ [su_ring_input n])).

Lemma add_inputs_taken conn n tr :
  add_inputs broker (mkMulti conn []) n tr =
    (tr ++ List.concat (declaration conn (su_idx n) <$> su_inputs n), Ok (mkMulti conn (imap (λ i input, mkSource input.1 i (su_prefetch n)) (su_inputs n)))).
Proof.
  unfold add_inputs. induction (su_inputs n) as [|input l IH] using rev_ind; [by rewrite app_nil_r|].
  rewrite !imap_app, foldl_app, fmap_app, List.concat_app. cbn [imap foldl]. unfold mbind at 1, io_bind at 1. rewrite IH.
  cbn [fst snd]. rewrite add_queue_taken. cbn [fmap list_fmap List.concat]. rewrite app_nil_r, <- app_assoc. rewrite <- surjective_pairing. by rewrite Nat.add_0_r.
Qed.

Lemma multi_start_taken conn srcs tr :
  each (λ src, perform broker conn (BasicQos (src_prefetch src));; perform broker conn (BasicConsume (src_queue src))) srcs tr =
    (tr ++ List.concat (subscription conn <$> srcs), Ok tt).
Proof.
  revert tr. induction srcs as [|src srcs IH]; intros tr; [by rewrite app_nil_r|]. cbn [each]. unfold mbind, io_bind.
  rewrite !perform_taken by done. rewrite IH. cbn [fmap list_fmap List.concat]. by rewrite <- !app_assoc.
Qed.

Lemma multi_start_run conn srcs tr :
  multi_start broker (mkMulti conn srcs) tr = consume_loop broker conn (tr ++ List.concat (subscription conn <$> srcs)).
Proof. unfold multi_start. cbn [mq_conn mq_sources]. unfold mbind at 1, io_bind at 1. by rewrite multi_start_taken. Qed.
End calls.

(** C38: a send publishes the message under each routing key, in order, as long as the
    broker takes it: the keys it published under before it returned or raised are those
    taken, it returns only when that is all of them, and otherwise it raises
    [MOMDisconnectedError] when the connection is lost and [MOMMessageError] for any
    other exception. A key given with the message replaces those of the exchange. *)
Theorem exchange_send_exact (broker : trace → option pyexc) (e : ExchangeRabbitMQ) (message : bytes) (routing_key : option string) (tr : trace) :
  let keys := match routing_key with Some k => [k] | None => routing_keys e end in
  ∃ done rest, keys = done ++ rest ∧ accepts broker tr (publication e message <$> done) ∧
    let published := tr ++ (publication e message <$> done) in
    match rest with
    | [] => exchange_send broker e message routing_key tr = (published, Ok tt)
    | k :: _ => ∃ err, broker (published ++ [publication e message k]) = Some err ∧
        exchange_send broker e message routing_key tr =
          (published ++ [publication e message k], Exc (if connection_error err then MOMDisconnectedError else MOMMessageError))
    end.
Proof.
  cbv zeta. unfold exchange_send. set (keys := match routing_key with Some k => [k] | None => routing_keys e end).
  destruct (publish_each broker e message keys tr) as (done & rest & r & Ek & Hacc & Hr & Hcase).
  exists done, rest. split; [exact Ek|]. split; [exact Hacc|]. rewrite Hr. destruct Hcase as [[-> ->]|(k & rest' & err & -> & Hb & ->)]; [done|].
  by exists err.
Qed.

(** C39: a node of a ring listens to exactly its inputs and its ring. Against a broker
    that takes its declarations, it declares every input queue durable and not
    exclusive, declares the exchange and binds the queue to it under its own index,
    the same for its queue in the ring; then asks for each queue, with the window of
    the checkpoint for the inputs and one message at a time for the ring; and only
    then consumes. When consuming ends because the connection was lost the node fails
    with [MOMDisconnectedError]; when it ends in any other way it goes on to stop. *)
Theorem ring_node_listens (broker : trace → option pyexc) (conn : nat) (n : NodeSetup) (tr : trace) :
  (∀ tr conn c, c ≠ StartConsuming → broker (tr ++ [(conn, c)]) = None) →
  let listening := tr ++ node_declarations conn n ++ List.concat (subscription conn <$> node_sources n) in
  ring_node_serve broker (mkMulti conn []) n tr =
    (listening ++ [(conn, StartConsuming)],
     match broker (listening ++ [(conn, StartConsuming)]) with
     | Some err => if connection_error err then Exc MOMDisconnectedError else Ok (mkMulti conn (node_sources n))
     | None => Ok (mkMulti conn (node_sources n))
     end).
Proof.
  intros takes. cbv zeta. unfold ring_node_serve, mbind, io_bind. rewrite (add_inputs_taken broker takes). unfold add_ring_queue.
  rewrite (add_queue_taken broker takes), <- surjective_pairing. fold (node_sources n).
  rewrite (multi_start_run broker takes).
  assert (E : ((tr ++ List.concat (declaration conn (su_idx n) <$> su_inputs n)) ++ declaration conn (su_idx n) (su_ring_input n)) ++
    List.concat (subscription conn <$> node_sources n) = tr ++ node_declarations conn n ++ List.concat (subscription conn <$> node_sources n)).
  { unfold node_declarations. rewrite fmap_app, List.concat_app. cbn [fmap list_fmap List.concat]. by rewrite app_nil_r, <- !app_assoc. }
  rewrite E. unfold consume_loop, io_catch, perform. destruct (broker _) as [err|]; [|done]. by destruct (connection_error err).
Qed.

Lemma ring_node_listens_witness :
  let n := mkSetup 1 (RingCompletion.rc_init 1 [0]) (mkRingMOM "r" 1 [0] 0 0) [("in1", "in")]%string ("r_queue1", "r")%string 1000 [] [] None in
  ring_node_serve (λ _, None) (mkMulti 0 []) n [] =
    ([(0%nat, QueueDeclare "in1" false true); (0%nat, ExchangeDeclare "in"); (0%nat, QueueBind "in" "in1" "1");
      (0%nat, QueueDeclare "r_queue1" false true); (0%nat, ExchangeDeclare "r"); (0%nat, QueueBind "r" "r_queue1" "1");
      (0%nat, BasicQos 1000); (0%nat, BasicConsume "in1"); (0%nat, BasicQos 1); (0%nat, BasicConsume "r_queue1"); (0%nat, StartConsuming)],
     Ok (mkMulti 0 [mkSource "in1" 0 1000; mkSource "r_queue1" 1 1])).
Proof.
  cbv zeta. by rewrite (ring_node_listens (λ _, None) 0 _ [] (λ _ _ _ _, eq_refl)).
Defined.
