(* ===== verification/Compose.v ===== *)
(** * The deployment: [scripts/gen_compose]

    The generator of the file Docker Compose starts the system from. Every function
    returns the text it appends, and the services the text declares: their name, the
    directory of their image and the variables of their environment. The list of
    supervised nodes, a global of [supervisor_env.py], is passed along. *)

From S2P Require Import Prelude.
From S2P Require Import PyDict.
From S2P Require Import PyValues.
From S2P Require Import PyText.
From S2P Require Import Wire.
From S2P Require Import Joins.
From S2P Require Import Nodes.

#[local] Open Scope string_scope.
#[local] Open Scope list_scope.

(** ** [topology.py] *)

Record Topology := mkTopology {
  DEFAULT_FILTERS : Z;
  UC2_MAX_AMOUNT_GROUP_BYS : Z;
  UC2_MAX_AMOUNT_AGGREGATES : Z;
  UC2_BANK_NAMES_GROUP_BYS : Z;
  UC2_BANK_NAMES_AGGREGATES : Z;
  UC2_MERGES : Z;
  UC3_GROUP_BYS : Z;
  UC3_AGGREGATES : Z;
  UC3_MERGES : Z;
  UC3_FILTERS : Z;
  UC4_COMPUTE_GRAPHS : Z;
  UC4_AGGREGATE_GRAPHS : Z;
  UC4_DEGREE_AGGREGATES : Z;
  UC4_PRUNES : Z;
  UC4_COUNT_PATHS : Z;
  UC4_PATHS_AGGREGATES : Z;
  UC5_CONVERTERS : Z;
  UC5_AMOUNT_FILTERS : Z;
  UC5_COUNT_GROUP_BYS : Z;
  JOIN_PARTITION : list (list Z)
}.

Definition topology : Topology :=
  mkTopology 2 2 2 2 2 2 2 2 2 2 2 2 2 2 2 2 2 2 2 [[1]; [3]; [2; 4; 5]].

(** ** [common_queues.py] *)

Definition CLIENT_TRANSACTIONS := "client_transactions".
Definition CLIENT_ACCOUNTS := "client_accounts".
Definition UC2_FILTERED_TRANSACTIONS := "uc2_filtered_transactions".
Definition UC3_PERIOD_A_TRANSACTIONS := "uc3_transactions_period_a".
Definition UC3_PERIOD_B_TRANSACTIONS := "uc3_transactions_period_b".
Definition UC4_TRANSACTIONS := "uc4_filtered_transactions".
Definition UC5_TRANSACTIONS := "uc5_filtered_transactions".
Definition UC1_JOIN := "uc1_join".
Definition UC2_JOIN := "uc2_join".
Definition UC3_JOIN := "uc3_join".
Definition UC4_JOIN := "uc4_join".
Definition UC5_JOIN := "uc5_join".
Definition RESPONSES := "responses".

(** ** [fault_tolerance.py] *)

Definition HEARTBEAT_INTERVAL := "1".
Definition HEARTBEAT_TIMEOUT := "3".
Definition REVIVE_INTERVAL := "0.5".
Definition CHAOS_INTERVAL := "10".
Definition CHAOS_KILLS_MIN := "1".
Definition CHAOS_KILLS_MAX := "5".
Definition CHAOS_START_DELAY := "5".
Definition CHAOS_EXCLUDE := "rabbitmq,supervisor,gateway,chaos".

(** ** Services *)

(** Lines, each on a new line. *)
Definition block (lines : list string) : string := String.concat "" ((λ l, nl +:+ l) <$> lines).

Record Service := mkService {
  sv_name : string;
  sv_image : string;                   (* the directory of the Dockerfile *)
  sv_env : list (string * string);
  sv_volume : bool
}.

Definition env_line (kv : string * string) : string := "      - " +:+ kv.1 +:+ "=" +:+ kv.2.

(** [restart_line] *)
Definition restart_line (g : env) : string :=
  if bool_decide (getenv g "GEN_RESTART_ON_FAILURE" = Some "1") then nl +:+ "    restart: on-failure" else "".

(** The text of a node's service. *)
Definition service_text (restart : string) (sv : Service) : string :=
  nl +:+ block ["  " +:+ sv_name sv +:+ ":";
                "    build:";
                "      context: ./src/";
                "      dockerfile: " +:+ sv_image sv +:+ "/Dockerfile";
                "    container_name: " +:+ sv_name sv +:+ restart;
                "    depends_on:";
                "      rabbitmq:";
                "        condition: service_healthy";
                "    environment:"]
  +:+ block (env_line <$> sv_env sv)
  +:+ (if sv_volume sv then block ["    volumes:"; "      - " +:+ sv_name sv +:+ "_state:/state"] else "").

(** What a generator appends: text and services; the nodes registered so far go along. *)
Definition generated : Type := list string * (string * list Service).
Definition gen : Type := list string → generated.
Definition gen_text (s : string) : gen := λ nodes, (nodes, (s, [])).
Definition gen_app (a b : gen) : gen := λ nodes,
  let '(nodes, (ta, sa)) := a nodes in
  let '(nodes, (tb, sb)) := b nodes in (nodes, (ta +:+ tb, sa ++ sb)).
Definition gen_all (l : list gen) : gen := foldr gen_app (gen_text "") l.

(** ** [supervisor_env.py] *)

Definition SUPERVISOR_HOST := "supervisor".
Definition SUPERVISOR_PORT : Z := 9100.

Definition register_node (node_name : string) (nodes : list string) : list string :=
  if bool_decide (node_name ∈ nodes) then nodes else (nodes ++ [node_name])%list.

Definition supervisor_env (node_name kind : string) : list (string * string) :=
  [("SUPERVISOR_HOST", SUPERVISOR_HOST);
   ("SUPERVISOR_PORT", str_int SUPERVISOR_PORT);
   ("NODE_NAME", node_name);
   ("NODE_KIND", kind);
   ("HEARTBEAT_INTERVAL", "${HEARTBEAT_INTERVAL:-" +:+ HEARTBEAT_INTERVAL +:+ "}")].

(** A service whose environment holds the block of [supervisor_env]. *)
Definition gen_service (restart : string) (sv : Service) : gen := λ nodes,
  (register_node (sv_name sv) nodes, (service_text restart sv, [sv])).

Definition expected_nodes_csv (nodes : list string) : string := String.concat "," nodes.

Definition state_volumes_block (nodes : list string) : string :=
  match nodes with
  | [] => ""
  | _ => nl +:+ nl +:+ "volumes:" +:+ block ((λ name, "  " +:+ name +:+ "_state:") <$> nodes) +:+ nl
  end.

Section compose.
(** The environment of the generator, and [CHECKPOINT_EVERY] of [gen_nodes.py]. *)
Context (g : env) (every : Z).

(** ** [gen_nodes.py] *)

Definition node_env (type2 strategy : string) (npeers naffinity_downstream : Z) (rx_name tx_name : string)
    (checkpoint : bool) (broadcast_downstream : bool) (extra_env : list (string * string)) (idx : Z) : list (string * string) :=
  [("MOM_HOST", "rabbitmq"); ("MOM_PORT", "5672"); ("STRATEGY", strategy); ("RX", rx_name); ("TX", tx_name);
   ("IDX", str_int idx); ("NPEERS", str_int npeers); ("RING_NAME", strategy +:+ "_ring");
   ("NAFFINITY_DOWNSTREAM", str_int naffinity_downstream);
   ("BROADCAST_DOWNSTREAM", if broadcast_downstream then "1" else "0");
   ("PYTHONHASHSEED", "2026"); ("PYTHONUNBUFFERED", "1"); ("LOGGING_LEVEL", getenv_or g "LOGGING_LEVEL" "WARNING")]
  ++ extra_env ++ supervisor_env (strategy +:+ "_" +:+ str_int idx) type2
  ++ (if checkpoint then [("STATE_DIR", "/state"); ("CHECKPOINT_EVERY", str_int every)] else []).

Definition gen_nodes (type2 strategy : string) (npeers naffinity_downstream : Z) (rx_name tx_name : string)
    (checkpoint : bool) (broadcast_downstream : bool) (extra_env : list (string * string)) : gen :=
  gen_all ((λ idx, gen_service (restart_line g)
    (mkService (strategy +:+ "_" +:+ str_int idx) type2
       (node_env type2 strategy npeers naffinity_downstream rx_name tx_name checkpoint broadcast_downstream extra_env idx)
       checkpoint)) <$> seqZ 0 npeers).

(** ** [gen_merge.py] *)

Definition merge_env (container strategy left_rx_name right_rx_name tx_name : string) (naffinity_downstream : Z)
    (checkpoint : bool) (idx npeers : Z) (ring_name : string) : list (string * string) :=
  [("MOM_HOST", "rabbitmq"); ("MOM_PORT", "5672"); ("LEFT_RX", left_rx_name); ("RIGHT_RX", right_rx_name); ("TX", tx_name);
   ("STRATEGY", strategy); ("NAFFINITY_DOWNSTREAM", str_int naffinity_downstream)]
  ++ supervisor_env container "merge"
  ++ [("IDX", str_int idx); ("NPEERS", str_int npeers); ("RING_NAME", ring_name)]
  ++ (if checkpoint then [("STATE_DIR", "/state"); ("CHECKPOINT_EVERY", str_int every)] else []).

Definition gen_merge (strategy left_rx_name right_rx_name tx_name : string) (checkpoint : bool)
    (naffinity_downstream npeers : Z) : gen :=
  let ring_name := strategy +:+ "_ring" in
  gen_all ((λ idx,
    let container := strategy +:+ "_" +:+ str_int idx in
    gen_service (restart_line g)
      (mkService container "merge"
         (merge_env container strategy left_rx_name right_rx_name tx_name naffinity_downstream checkpoint idx npeers ring_name)
         checkpoint)) <$> seqZ 0 npeers).

Context (topo : Topology).

(** ** [gen_default_filters.py] *)

Definition ROUTE_SHARDS : list (string * Z) :=
  [("UC1_TRANSACTIONS_SHARDS", 0);
   ("UC2_TRANSACTIONS_SHARDS", UC2_MAX_AMOUNT_GROUP_BYS topo);
   ("UC3_PERIOD_A_SHARDS", UC3_GROUP_BYS topo);
   ("UC3_PERIOD_B_SHARDS", UC3_MERGES topo);
   ("UC4_TRANSACTIONS_SHARDS", UC4_COMPUTE_GRAPHS topo);
   ("UC5_TRANSACTIONS_SHARDS", UC5_CONVERTERS topo)].

Definition default_filter_env (idx : Z) : list (string * string) :=
  [("MOM_HOST", "rabbitmq"); ("MOM_PORT", "5672"); ("RX", CLIENT_TRANSACTIONS);
   ("UC1_TRANSACTIONS_TX", UC1_JOIN); ("UC2_TRANSACTIONS_TX", UC2_FILTERED_TRANSACTIONS);
   ("UC3_PERIOD_A_TRANSACTIONS_TX", UC3_PERIOD_A_TRANSACTIONS); ("UC3_PERIOD_B_TRANSACTIONS_TX", UC3_PERIOD_B_TRANSACTIONS);
   ("UC4_TRANSACTIONS_TX", UC4_TRANSACTIONS); ("UC5_TRANSACTIONS_TX", UC5_TRANSACTIONS)]
  ++ ((λ r, (r.1, str_int r.2)) <$> ROUTE_SHARDS)
  ++ [("IDX", str_int idx); ("NPEERS", str_int (DEFAULT_FILTERS topo)); ("RING_NAME", "default_filter_ring");
      ("STRATEGY", "default"); ("STATE_DIR", "/state"); ("CHECKPOINT_EVERY", str_int every)]
  ++ supervisor_env ("default_filter_" +:+ str_int idx) "filter".

Definition gen_default_filters : gen :=
  gen_app (gen_text (nl +:+ "# === default filters ==="))
    (gen_all ((λ idx, gen_service (restart_line g)
       (mkService ("default_filter_" +:+ str_int idx) "filter" (default_filter_env idx) true)) <$> seqZ 0 (DEFAULT_FILTERS topo))).

(** ** [gen_join.py] *)

Definition join_env (idx : Z) (uc_ids : list Z) : list (string * string) :=
  [("MOM_HOST", "rabbitmq"); ("MOM_PORT", "5672"); ("UC1_RX", UC1_JOIN); ("UC2_RX", UC2_JOIN); ("UC3_RX", UC3_JOIN);
   ("UC4_RX", UC4_JOIN); ("UC5_RX", UC5_JOIN); ("JOIN_UCS", String.concat "," (str_int <$> uc_ids)); ("RESPONSES_TX", RESPONSES);
   ("STATE_DIR", "/state"); ("CHECKPOINT_EVERY", str_int every)]
  ++ supervisor_env ("join_" +:+ str_int idx) "join".

Definition join_service (idx : Z) (uc_ids : list Z) : gen :=
  gen_service (restart_line g) (mkService ("join_" +:+ str_int idx) "join" (join_env idx uc_ids) true).

Definition gen_join : gen :=
  gen_app (gen_text (nl +:+ "# === join ==="))
    (gen_all (imap (λ idx uc_ids, join_service (Z.of_nat idx) uc_ids) (JOIN_PARTITION topo))).

(** ** [gen_gateway.py]: never restarted by Docker *)

Definition gateway_env : list (string * string) :=
  [("GATEWAY_HOST", "gateway"); ("GATEWAY_PORT", "12345"); ("MOM_HOST", "rabbitmq"); ("MOM_PORT", "5672");
   ("SERVER_QUEUE_RX", RESPONSES); ("TRANSACTIONS_TX", CLIENT_TRANSACTIONS); ("ACCOUNTS_TX", CLIENT_ACCOUNTS);
   ("NDEFAULT_FILTERS", str_int (DEFAULT_FILTERS topo)); ("NBANK_NAMES", str_int (UC2_BANK_NAMES_GROUP_BYS topo))]
  ++ supervisor_env "gateway" "gateway".

Definition gen_gateway : gen :=
  gen_app (gen_text (nl +:+ block ["# === gateway ==="]))
    (gen_service "" (mkService "gateway" "gateway" gateway_env false)).

(** ** [gen_uc1.py] to [gen_uc5.py] *)

Definition gen_uc1 : gen := gen_text (nl +:+ "# === uc1 ===").

Definition gen_uc2 : gen := gen_all [
  gen_text (nl +:+ "# === uc2 ===");
  gen_nodes "group_by" "uc2_max_amount_group_by" (UC2_MAX_AMOUNT_GROUP_BYS topo) (UC2_MAX_AMOUNT_AGGREGATES topo)
    UC2_FILTERED_TRANSACTIONS "uc2_partial_max_amount" true false [];
  gen_nodes "aggregate" "uc2_max_amount_aggregate" (UC2_MAX_AMOUNT_AGGREGATES topo) (UC2_MERGES topo)
    "uc2_partial_max_amount" "uc2_max_amounts_by_bank" true true [];
  gen_nodes "group_by" "uc2_bank_names_group_by" (UC2_BANK_NAMES_GROUP_BYS topo) (UC2_BANK_NAMES_AGGREGATES topo)
    CLIENT_ACCOUNTS "uc2_partial_bank_names" true false [];
  gen_nodes "aggregate" "uc2_bank_names_aggregate" (UC2_BANK_NAMES_AGGREGATES topo) (UC2_MERGES topo)
    "uc2_partial_bank_names" "uc2_bank_id_name_mappings" true false [];
  gen_merge "uc2_merge" "uc2_max_amounts_by_bank" "uc2_bank_id_name_mappings" UC2_JOIN true 0 (UC2_MERGES topo)].

Definition gen_uc3 : gen := gen_all [
  gen_text (nl +:+ "# === uc3 ===");
  gen_nodes "group_by" "uc3_group_by_format" (UC3_GROUP_BYS topo) (UC3_AGGREGATES topo)
    UC3_PERIOD_A_TRANSACTIONS "uc3_sum_by_format" true false [];
  gen_nodes "aggregate" "uc3_average_aggregate" (UC3_AGGREGATES topo) (UC3_MERGES topo)
    "uc3_sum_by_format" "uc3_avg" true true [];
  gen_merge "uc3_merge" "uc3_avg" UC3_PERIOD_B_TRANSACTIONS "uc3_average_merged" true (UC3_FILTERS topo) (UC3_MERGES topo);
  gen_nodes "filter" "uc3_average_filter" (UC3_FILTERS topo) 0 "uc3_average_merged" UC3_JOIN true false []].

Definition gen_uc4 : gen := gen_all [
  gen_text (nl +:+ "# === uc4 ===");
  gen_nodes "group_by" "uc4_compute_graph_group_by" (UC4_COMPUTE_GRAPHS topo) (UC4_AGGREGATE_GRAPHS topo)
    UC4_TRANSACTIONS "uc4_graphs" true false
    [("TX_DEGREE", "uc4_degree_graphs"); ("NAFFINITY_DEGREE", str_int (UC4_DEGREE_AGGREGATES topo))];
  gen_nodes "aggregate" "uc4_aggregate_graphs" (UC4_AGGREGATE_GRAPHS topo) (UC4_PRUNES topo)
    "uc4_graphs" "uc4_graphs_to_prune" true false [];
  gen_nodes "aggregate" "uc4_degree_aggregate" (UC4_DEGREE_AGGREGATES topo) (UC4_PRUNES topo)
    "uc4_degree_graphs" "uc4_high_degree" true true [];
  gen_merge "uc4_prune" "uc4_high_degree" "uc4_graphs_to_prune" "uc4_pruned" true (UC4_COUNT_PATHS topo) (UC4_PRUNES topo);
  gen_nodes "aggregate" "uc4_count_paths" (UC4_COUNT_PATHS topo) (UC4_PATHS_AGGREGATES topo)
    "uc4_pruned" "uc4_paths" true false [];
  gen_nodes "aggregate" "uc4_paths_aggregate" (UC4_PATHS_AGGREGATES topo) 0 "uc4_paths" UC4_JOIN true false []].

Definition gen_uc5 : gen := gen_all [
  gen_text (nl +:+ "# === uc5 ===");
  gen_nodes "group_by" "uc5_converter" (UC5_CONVERTERS topo) (UC5_AMOUNT_FILTERS topo)
    UC5_TRANSACTIONS "uc5_converted_transactions" true false [];
  gen_nodes "filter" "uc5_amount_filter" (UC5_AMOUNT_FILTERS topo) (UC5_COUNT_GROUP_BYS topo)
    "uc5_converted_transactions" "uc5_filtered_converted_transactions" true false [];
  gen_nodes "group_by" "uc5_count_group_by" (UC5_COUNT_GROUP_BYS topo) 0
    "uc5_filtered_converted_transactions" UC5_JOIN true false []].
End compose.

(** ** [gen_rabbitmq.py], [gen_chaos.py], [gen_clients.py], [gen_supervisor.py] *)

Definition gen_rabbitmq : string := nl +:+ block
  ["# === rabbitmq ==="; ""; "  rabbitmq:"; "    build:"; "      context: ./src/rabbitmq"; "      dockerfile: Dockerfile";
   "    container_name: rabbitmq"; "    environment:"; "      - RABBITMQ_LOG_LEVELS=error"; "      - RABBITMQ_CONFIG_FILE=rabbitmq.conf";
   "    healthcheck:"; "      interval: 5s"; "      retries: 10"; "      start_period: 50s";
   "      test: rabbitmq-diagnostics check_port_connectivity"; "      timeout: 3s"; "    ports:"; "      - 5672:5672"; "      - 15672:15672"].

(** [${K:-v}] *)
Definition defaulted (k v : string) : string := "${" +:+ k +:+ ":-" +:+ v +:+ "}".

Definition gen_chaos : string := nl +:+ block (
  ["# === chaos monkey (disabled by default; set CHAOS_ENABLED=1 to arm) ==="; ""; "  chaos:"; "    build:"; "      context: ./src/";
   "      dockerfile: chaos/Dockerfile"; "    container_name: chaos"; "    environment:"]
  ++ (env_line <$>
      ((λ kv : string * string, (kv.1, defaulted kv.1 kv.2)) <$>
        [("CHAOS_ENABLED", "0"); ("CHAOS_INTERVAL", CHAOS_INTERVAL); ("CHAOS_KILLS_MIN", CHAOS_KILLS_MIN); ("CHAOS_KILLS_MAX", CHAOS_KILLS_MAX);
         ("CHAOS_START_DELAY", CHAOS_START_DELAY); ("CHAOS_TARGETS", ""); ("CHAOS_EXCLUDE", CHAOS_EXCLUDE); ("CHAOS_SEED", "")]))
  ++ ["      - LOGGING_LEVEL=INFO"; "    volumes:"; "      - /var/run/docker.sock:/var/run/docker.sock"])%list.

(** [_CLIENT_TEMPLATE.format(n=n, accounts=accounts)] *)
Definition client_service (n : Z) (accounts : string) : string := nl +:+ block
  ["  client_" +:+ str_int n +:+ ":"; "    build:"; "      context: ./src/"; "      dockerfile: client/Dockerfile";
   "    container_name: client_" +:+ str_int n; "    depends_on:"; "      - gateway"; "    environment:";
   "      - TRANSACTIONS_PATH=/datasets/transactions_" +:+ str_int n +:+ ".csv";
   "      - ACCOUNTS_PATH=/datasets/" +:+ accounts;
   "      - RESPONSES_PATH=/responses/responses_" +:+ str_int n +:+ ".csv";
   "      - GATEWAY_HOST=gateway"; "      - GATEWAY_PORT=12345"; "      - NRESPONSES=5"; "      - BATCH_SIZE=500";
   "    volumes:"; "      - ./datasets:/datasets"; "      - ./responses:/responses"].

Definition gen_clients (nclients : Z) (accounts : string) : string :=
  nl +:+ "# === clients ===" +:+ String.concat "" ((λ n, client_service n accounts) <$> seqZ 0 nclients).

Definition SUPERVISOR_BIND := "0.0.0.0".
Definition SUPERVISOR_INTERNAL_PORT : Z := 9101.
Definition SUPERVISOR_LEADER_PORT : Z := 9102.
Definition NSUPERVISORS : Z := 5.
Definition SUPERVISOR_PREFIX := "supervisor_".
Definition SUPERVISOR_LOGGING_LEVEL := "WARNING".

Definition supervisor_vars (nodes : list string) (idx nnodes : Z) : list (string * string) :=
  [("SUPERVISOR_BIND", SUPERVISOR_BIND); ("SUPERVISOR_PORT", str_int SUPERVISOR_PORT); ("INTERNAL_PORT", str_int SUPERVISOR_INTERNAL_PORT);
   ("LEADER_PORT", str_int SUPERVISOR_LEADER_PORT); ("IDX", str_int idx); ("NNODES", str_int nnodes); ("NODE_PREFIX", SUPERVISOR_PREFIX);
   ("EXPECTED_NODES", expected_nodes_csv nodes); ("HEARTBEAT_TIMEOUT", defaulted "HEARTBEAT_TIMEOUT" HEARTBEAT_TIMEOUT);
   ("REVIVE_INTERVAL", defaulted "REVIVE_INTERVAL" REVIVE_INTERVAL); ("LOGGING_LEVEL", SUPERVISOR_LOGGING_LEVEL)].

Definition gen_supervisor (nodes : list string) (idx nnodes : Z) : string :=
  let container_name := SUPERVISOR_PREFIX +:+ str_int idx in
  "  " +:+ container_name +:+ ":" +:+ block (
    ["    build:"; "      context: ./src/"; "      dockerfile: supervisor/Dockerfile"; "    container_name: " +:+ container_name;
     "    restart: on-failure"; "    tty: true"; "    stdin_open: true"; "    environment:"]
    ++ (env_line <$> supervisor_vars nodes idx nnodes)
    ++ ["    volumes:"; "      - /var/run/docker.sock:/var/run/docker.sock"; "    networks:"; "      default:"; "        aliases:";
        "          - " +:+ SUPERVISOR_HOST])%list.

Definition gen_supervisors (nodes : list string) : string :=
  nl +:+ block ["# === supervisor ==="; ""] +:+
  String.concat (nl +:+ nl) ((λ i, gen_supervisor nodes i NSUPERVISORS) <$> seqZ 0 NSUPERVISORS).

(** ** [gen_compose.py] *)

(** The nodes, in the order they are generated; what [main] writes, and the services. *)
Definition gen_network (g : env) (every : Z) (topo : Topology) : gen := gen_all [
  gen_gateway topo; gen_default_filters g every topo;
  gen_uc1; gen_uc2 g every topo; gen_uc3 g every topo; gen_uc4 g every topo; gen_uc5 g every topo; gen_join g every topo].

Definition gen_compose (g : env) (every nclients : Z) (accounts : string) (topo : Topology) : generated :=
  let '(nodes, (network, services)) := gen_network g every topo [] in
  (nodes, ("services:" +:+ gen_rabbitmq +:+ gen_supervisors nodes +:+ network +:+ gen_chaos +:+ gen_clients nclients accounts
           +:+ state_volumes_block nodes, services)).
