(* ===== verification/Deployment.v ===== *)
(** * The deployed network is wired

    The nodes the entry points build from the environments of the deployment: what
    each consumes and publishes, and that the queues of the network fit together. *)

From Stdlib Require Import Numbers.DecimalString.
From S2P Require Import Prelude.
From S2P Require Import PyDict.
From S2P Require Import PyValues.
From S2P Require Import PyText.
From S2P Require Import Wire.
From S2P Require Import Messages.
From S2P Require Import Stamping.
From S2P Require Import RingCompletion.
From S2P Require Import PyRepr.
From S2P Require Import Filters.
From S2P Require Import GroupBy.
From S2P Require Import Joins.
From S2P Require Import Ring.
From S2P Require Import Amqp.
From S2P Require Import Nodes.
From S2P Require Import Compose.

(** ** Names *)

(** A name of an exchange: it does not end in a digit, and has no colon, comma or dollar. *)
Definition plain_name (s : string) : bool :=
  match last (chars_of s) with None => false | Some c => negb (is_digit c) end
  && forallb (λ c, negb (bool_decide (c ∈ [chr 58; chr 44; chr 36]))) (chars_of s).

Lemma str_int_digits i : 0 ≤ i → ∃ c l, chars_of (str_int i) = c :: l ∧ Forall (λ c, is_digit c = true) (c :: l).
Proof.
  unfold str_int, NilZero.string_of_int. destruct i as [|p|p]; cbn [Z.to_int]; intros Hi; [|..|lia].
  - exists (chr 48), []. split; [done|by repeat constructor].
  - destruct (pos_digits p) as (c & l & E & _ & Hd). by exists c, l.
Qed.

(** What precedes the number at the end of a name. *)
Fixpoint strip_digits (l : chars) : chars :=
  match l with [] => [] | c :: l => if is_digit c then strip_digits l else c :: l end.

Lemma strip_digits_app l l' : Forall (λ c, is_digit c = true) l → strip_digits (l ++ l') = strip_digits l'.
Proof. induction 1 as [|c l Hc _ IH]; [done|]. cbn [app strip_digits]. by rewrite Hc. Qed.

Lemma strip_shard s i : plain_name s = true → 0 ≤ i → reverse (strip_digits (reverse (chars_of (s +:+ str_int i)))) = chars_of s.
Proof.
  intros [Hs _]%andb_prop Hi. destruct (str_int_digits i Hi) as (c & l & E & Hd). rewrite chars_of_app, reverse_app, E.
  rewrite strip_digits_app by by apply Forall_reverse. destruct (chars_of s) as [|x cs _] using rev_ind; [done|].
  rewrite last_snoc in Hs. rewrite reverse_snoc. cbn [strip_digits]. apply negb_true_iff in Hs. rewrite Hs.
  by rewrite <- reverse_snoc, reverse_involutive.
Qed.

Lemma shard_name_inj s i s' i' : plain_name s = true → plain_name s' = true → 0 ≤ i → 0 ≤ i' →
  s +:+ str_int i = s' +:+ str_int i' → s = s' ∧ i = i'.
Proof.
  intros Hs Hs' Hi Hi' E. assert (chars_of s = chars_of s') as Ec by (by rewrite <- (strip_shard s i), <- (strip_shard s' i'), E).
  assert (s = s') as -> by (by rewrite <- (str_of_chars s), <- (str_of_chars s'), Ec). split; [done|].
  assert (chars_of (s' +:+ str_int i) = chars_of (s' +:+ str_int i')) as E' by (by rewrite E).
  rewrite !chars_of_app in E'. apply app_inv_head in E'.
  apply str_int_inj. by rewrite <- (str_of_chars (str_int i)), E', str_of_chars.
Qed.

Lemma plain_not_shard s s' i : plain_name s = true → plain_name s' = true → 0 ≤ i → s ≠ s' +:+ str_int i.
Proof.
  intros Hs Hs' Hi ->. apply andb_prop in Hs as [Hs _]. destruct (str_int_digits i Hi) as (c & l & E & Hd).
  rewrite chars_of_app, E in Hs. remember (c :: l) as L eqn:EL. destruct L as [|x cs _] using rev_ind; [done|].
  rewrite app_assoc, last_snoc in Hs. apply Forall_app in Hd as [_ Hx]. inversion Hx as [|? ? Hx1]. by rewrite Hx1 in Hs.
Qed.

(** A value Docker Compose passes on as it is. *)
Definition literal (v : string) : bool := bool_decide (chr 36 ∉ chars_of v).

Lemma plain_literal v : plain_name v = true → literal v = true.
Proof.
  intros [_ H]%andb_prop. apply bool_decide_eq_true. intros Hin. rewrite forallb_forall in H.
  specialize (H _ (proj1 (list_elem_of_In _ _) Hin)). by vm_compute in H.
Qed.

Lemma literal_app s t : literal s = true → literal t = true → literal (s +:+ t) = true.
Proof.
  unfold literal. rewrite !bool_decide_eq_true, chars_of_app. intros Hs Ht [H|H]%elem_of_app; tauto.
Qed.

(** No other character than digits and a sign in a number. *)
Lemma int_free c i : is_digit c = false → c ≠ c_minus → c ∉ chars_of (str_int i).
Proof.
  intros Hc Hm. destruct (str_int_shape i) as (sg & x & l & -> & Hsg & Hd & _). rewrite elem_of_app. intros [Hin|Hin].
  - destruct Hsg as [-> | ->]; [by apply not_elem_of_nil in Hin|by apply list_elem_of_singleton in Hin].
  - rewrite Forall_forall in Hd. apply Hd in Hin. congruence.
Qed.

(** What is joined with commas is split at them. *)
Lemma split_concat l : Forall (λ s, chr 44 ∉ chars_of s) l → l ≠ [] → str_split (chr 44) (String.concat "," l) = l.
Proof.
  intros Hl Hne. unfold str_split. induction Hl as [|s l Hs Hl IH]; [done|]. destruct l as [|t l].
  - cbn [String.concat]. rewrite split_on_free by done. cbn. by rewrite str_of_chars.
  - change (String.concat "," (s :: t :: l)) with (s +:+ ("," +:+ String.concat "," (t :: l))). rewrite !chars_of_app.
    change (chars_of ",") with [chr 44]. cbn [app]. rewrite split_on_app by done. rewrite fmap_cons, str_of_chars, IH; done.
Qed.

Lemma literal_int i : literal (str_int i) = true.
Proof. apply bool_decide_eq_true. by apply int_free. Qed.

(** ** The environment of a container *)

(** Every variable of the list is set, to its value when that holds no dollar sign. *)
Definition vars (l : list (string * string)) (e : env) : Prop := ∀ k v, (k, v) ∈ l → literal v = true → dget e k = Some v.

Lemma var_environ l e k v : vars l e → (k, v) ∈ l → literal v = true → environ e k = Ok v.
Proof. intros He Hin Hv. unfold environ, dindex. by rewrite (He k v Hin Hv). Qed.
Lemma var_getenv l e k v : vars l e → (k, v) ∈ l → literal v = true → getenv e k = Some v.
Proof. intros He Hin Hv. exact (He k v Hin Hv). Qed.
Lemma var_getenv_or l e k v d : vars l e → (k, v) ∈ l → literal v = true → getenv_or e k d = v.
Proof. intros He Hin Hv. unfold getenv_or, dget_or. by rewrite (He k v Hin Hv). Qed.

(** A variable is in a list of literal entries and appended lists. *)
Ltac listed_var :=
  first [apply list_elem_of_here
        |apply list_elem_of_further; listed_var
        |apply elem_of_app; right; listed_var
        |apply elem_of_app; left; listed_var].
Ltac literal_value := first [done | by apply literal_int | by apply plain_literal | by repeat apply literal_app; first [done|apply literal_int|apply plain_literal]].
Ltac var H := match goal with
  | |- context [environ _ ?k] => erewrite (var_environ _ _ k _ H); [|listed_var|literal_value]
  | |- context [getenv _ ?k] => erewrite (var_getenv _ _ k _ H); [|listed_var|literal_value]
  | |- context [getenv_or _ ?k _] => erewrite (var_getenv_or _ _ k _ _ H); [|listed_var|literal_value]
  end.

(** ** The parts of a node *)

Section parts.
Context (uuid5 : uuid → string → uuid).

Lemma get_front_back_total i peers : i ∉ peers → ∃ fb, get_front_back_ids i peers = Ok fb.
Proof.
  intros Hi. unfold get_front_back_ids. rewrite bool_decide_eq_false_2 by done. cbn zeta.
  destruct (sorted_ids peers) as [|p [|q l]] eqn:E; [by eexists..|]. set (L := p :: q :: l).
  assert (Hf : (front_idx i L < length L)%nat).
  { unfold front_idx. destruct (list_find _ L) as [[k x]|] eqn:F; [|cbn; lia].
    apply list_find_Some in F as (F & _). by eapply lookup_lt_Some. }
  destruct (lookup_lt_is_Some_2 L (front_idx i L) Hf) as [f ->].
  destruct (lookup_lt_is_Some_2 L ((length L + front_idx i L - 1) mod length L)) as [b ->]; [apply Nat.mod_upper_bound; done|].
  by eexists.
Qed.

Lemma peer_ids_other idx n : idx ∉ peer_ids idx n.
Proof. unfold peer_ids. rewrite list_elem_of_filter. by intros [H _]. Qed.

(** The name an output is stamped under. *)
Definition producer_name (tx : string) (idx route : Z) : string := tx +:+ ":" +:+ str_int idx +:+ ":" +:+ str_int route.
Definition stamp_of (p : string * Z * Z) : StampingMOM :=
  mkSM (derive_producer_id uuid5 p.1.1 p.1.2 p.2) seq_init.

Lemma sm_new_derived tx idx n c : sm_new (derive_producer_id uuid5 tx idx n) c = Ok (mkSM (derive_producer_id uuid5 tx idx n) (default seq_init c)).
Proof.
  unfold sm_new. assert (length (derive_producer_id uuid5 tx idx n) = 16%nat) as -> by apply length_uuid_bytes. done.
Qed.

Definition route_producers (tx : string) (idx n : Z) : list (string * Z * Z) :=
  if n =? 0 then [(tx, idx, 0)] else (λ i, (tx, idx, i)) <$> seqZ 0 n.

Lemma make_txs_spec idx tx n : 0 ≤ n →
  ∃ txs, make_txs uuid5 idx tx n = Ok txs ∧ txs.*1 = merge_routes tx n ∧ txs.*2 = stamp_of <$> route_producers tx idx n.
Proof.
  intros Hn. unfold make_txs, merge_routes, route_producers. destruct (n <? 0) eqn:E; [lia|]. destruct (n =? 0) eqn:E0.
  - rewrite sm_new_derived. by eexists.
  - exists ((λ i, (ExchangeRoute tx [str_int i] (tx +:+ str_int i), stamp_of (tx, idx, i))) <$> seqZ 0 n).
    split; [|by rewrite <- !list_fmap_compose]. clear. induction (seqZ 0 n) as [|i l IH]; [done|].
    cbn [mapR]. rewrite sm_new_derived. cbn [mbind res_bind]. by rewrite IH.
Qed.

(** A fleet: the exchanges it consumes, its size, the exchanges it publishes to with the
    number of shards of each, and whether its routes share one counter. *)
Record Fleet := mkFleet {
  fl_inputs : list string;
  fl_size : Z;
  fl_outputs : list (string * Z);
  fl_shared : bool
}.

Definition fleet_producers (f : Fleet) (idx : Z) : list (string * Z * Z) :=
  fl_outputs f ≫= λ o, if fl_shared f then [(o.1, idx, 0)] else route_producers o.1 idx o.2.

(** A node that is the one of index [idx] of a fleet. *)
Record member (every : Z) (f : Fleet) (idx : Z) (n : NodeSetup) : Prop := {
  m_idx : su_idx n = idx;
  m_inputs : su_inputs n = (λ rx, (rx +:+ str_int idx, rx)) <$> fl_inputs f;
  m_routes : List.concat (su_fleets n) ≡ₚ fl_outputs f ≫= λ o, merge_routes o.1 o.2;
  m_stamps : su_stamps n ≡ₚ stamp_of <$> fleet_producers f idx;
  m_prefetch : every ≤ su_prefetch n;
  m_checkpoint : ∃ path, su_checkpoint n = Some (path, every)
}.

Lemma ring_node_setup_spec e l strategy name idx npeers every inputs (outputs : list (string * Z)) (txs : list (list (Route * StampingMOM))) :
  vars l e → ("RING_NAME", name) ∈ l → literal name = true → ("STATE_DIR", "/state") ∈ l →
  Forall2 (λ tx (o : string * Z), tx.*1 = merge_routes o.1 o.2 ∧ tx.*2 = stamp_of <$> route_producers o.1 idx o.2) txs outputs →
  ∃ n, ring_node_setup e strategy idx npeers every inputs txs = Ok n ∧ member every (mkFleet inputs npeers outputs false) idx n.
Proof.
  intros He Hring Hname Hdir Htxs. unfold ring_node_setup.
  rewrite (var_environ l e _ _ He Hring Hname), (var_getenv l e _ _ He Hdir eq_refl). cbn [mbind res_bind].
  destruct (get_front_back_total idx (peer_ids idx npeers) (peer_ids_other idx npeers)) as [[f b] E].
  unfold ring_mom_init. rewrite E. cbn [mbind res_bind]. eexists. split; [reflexivity|].
  split; cbn [su_idx su_inputs su_fleets su_stamps su_prefetch su_checkpoint fl_inputs fl_outputs fl_shared]; try done.
  - induction Htxs as [|tx o txs outputs [H1 H2] _ IH]; [done|]. rewrite fmap_cons. cbn [List.concat mbind list_bind]. by rewrite H1, IH.
  - unfold fleet_producers. cbn [fl_outputs fl_shared].
    induction Htxs as [|tx o txs outputs [H1 H2] _ IH]; [done|]. rewrite fmap_cons. cbn [List.concat mbind list_bind].
    by rewrite H2, IH, fmap_app.
  - lia.
  - by eexists.
Qed.

(** ** The programs *)

(** What the [main.py] of an image builds. *)
Inductive Program :=
  | PFilter (n : FilterNode)
  | PGroupBy (s : GroupByStrategy) (n : NodeSetup)
  | PAggregate (n : AggregateNode)
  | PMerge (n : MergeNode)
  | PJoin (n : JoinNode)
  | PGateway (n : GatewayNode).

Definition run_main (image : string) (e : env) : res Program :=
  if String.eqb image "filter" then n ← filter_main uuid5 e; Ok (PFilter n)
  else if String.eqb image "group_by" then '(s, n) ← group_by_main uuid5 e; Ok (PGroupBy s n)
  else if String.eqb image "aggregate" then n ← aggregate_main uuid5 e; Ok (PAggregate n)
  else if String.eqb image "merge" then n ← merge_main uuid5 e; Ok (PMerge n)
  else if String.eqb image "join" then n ← join_main e; Ok (PJoin n)
  else if String.eqb image "gateway" then n ← gateway_main e; Ok (PGateway n)
  else Exc ValueError.

Definition ring_part (p : Program) : option NodeSetup :=
  match p with
  | PFilter (DefaultFilter _ _ n) | PFilter (PlainFilter _ n) => Some n
  | PGroupBy _ n => Some n
  | PAggregate n => Some (an_node n)
  | PMerge n => Some (mn_node n)
  | PJoin _ | PGateway _ => None
  end.

Context (g : env) (every : Z).

Lemma int_var l e k z : vars l e → (k, str_int z) ∈ l → ∀ d, int_str (getenv_or e k d) = Ok z.
Proof. intros He Hin d. rewrite (var_getenv_or l e k _ d He Hin) by apply literal_int. apply int_str_str_int. Qed.

(** [gen_nodes] and the program of its image. *)
Ltac node_vars He := repeat (first [var He|rewrite (int_var _ _ _ _ He) by listed_var|rewrite int_str_str_int]; cbn [mbind res_bind]).
Ltac node_ring He outputs :=
  match goal with |- context [ring_node_setup ?e ?s ?i ?np ?ev ?ins ?txs] =>
    destruct (ring_node_setup_spec e _ s (s +:+ "_ring") i np ev ins outputs txs He) as (nd & -> & Hm);
    [listed_var|literal_value|listed_var|repeat (apply Forall2_cons; split; [by split|]); apply Forall2_nil_2|];
    cbn [mbind res_bind]; exists nd
  end.

Lemma filter_built e strategy s fn npeers n rx tx bc idx :
  vars (node_env g every "filter" strategy npeers n rx tx true bc [] idx) e →
  filter_strategy_of strategy = Ok s → filter_of_strategy s = Some fn →
  literal strategy = true → literal rx = true → literal tx = true → 0 ≤ n →
  ∃ nd, run_main "filter" e = Ok (PFilter (PlainFilter fn nd)) ∧ member every (mkFleet [rx] npeers [(tx, n)] false) idx nd.
Proof.
  intros He Hs Hfn Hls Hlrx Hltx Hn. unfold run_main, filter_main. cbn [String.eqb Ascii.eqb Bool.eqb].
  unfold node_env in He. cbn [app] in He. unfold checkpoint_every.
  node_vars He. rewrite Hs. cbn [mbind res_bind]. rewrite Hfn. node_vars He. unfold make_filter. node_vars He.
  destruct (make_txs_spec idx tx n Hn) as (txs & -> & H1 & H2). cbn [mbind res_bind]. by node_ring He [(tx, n)].
Qed.

Lemma aggregate_built e strategy s npeers n rx tx bc idx :
  vars (node_env g every "aggregate" strategy npeers n rx tx true bc [] idx) e →
  aggregate_strategy_of strategy = Ok s →
  literal strategy = true → literal rx = true → literal tx = true → 0 ≤ n →
  ∃ nd, (∃ spill, run_main "aggregate" e = Ok (PAggregate (mkAggregateNode s spill bc nd))) ∧ member every (mkFleet [rx] npeers [(tx, n)] false) idx nd.
Proof.
  intros He Hs Hls Hlrx Hltx Hn. unfold run_main, aggregate_main. cbn [String.eqb Ascii.eqb Bool.eqb].
  unfold node_env in He. cbn [app] in He. unfold checkpoint_every.
  node_vars He. rewrite Hs. cbn [mbind res_bind]. unfold make_aggregate. node_vars He.
  destruct (make_txs_spec idx tx n Hn) as (txs & -> & H1 & H2). cbn [mbind res_bind]. node_ring He [(tx, n)].
  split; [|done]. rewrite (var_getenv_or _ _ "BROADCAST_DOWNSTREAM" (if bc then "1" else "0") "0" He); [|listed_var|by destruct bc].
  eexists. by destruct bc.
Qed.

Lemma group_by_built e strategy s npeers n rx tx bc idx :
  vars (node_env g every "group_by" strategy npeers n rx tx true bc [] idx) e →
  group_by_strategy_of strategy = Ok s → s ≠ GS_UC4_COMPUTE_GRAPH →
  literal strategy = true → literal rx = true → literal tx = true → 0 ≤ n →
  ∃ nd, run_main "group_by" e = Ok (PGroupBy s nd) ∧ member every (mkFleet [rx] npeers [(tx, n)] false) idx nd.
Proof.
  intros He Hs Hne Hls Hlrx Hltx Hn. unfold run_main, group_by_main. cbn [String.eqb Ascii.eqb Bool.eqb].
  unfold node_env in He. cbn [app] in He. unfold checkpoint_every.
  node_vars He. rewrite Hs. cbn [mbind res_bind].
  assert (E : ∀ A (a b : A), match s with GS_UC4_COMPUTE_GRAPH => a | _ => b end = b) by (by intros A a b; destruct s).
  rewrite E. cbn [mbind res_bind]. unfold make_groupby. node_vars He.
  destruct (make_txs_spec idx tx n Hn) as (txs & Et & H1 & H2). cbn [mapR fst snd]. rewrite Et. cbn [mbind res_bind]. by node_ring He [(tx, n)].
Qed.

(** The builder of the graph, which feeds two fleets. *)
Lemma graph_built e npeers n n' rx tx tx' bc idx :
  vars (node_env g every "group_by" "uc4_compute_graph_group_by" npeers n rx tx true bc
    [("TX_DEGREE"%string, tx'); ("NAFFINITY_DEGREE"%string, str_int n')] idx) e →
  literal rx = true → literal tx = true → literal tx' = true → 0 ≤ n → 0 ≤ n' →
  ∃ nd, run_main "group_by" e = Ok (PGroupBy GS_UC4_COMPUTE_GRAPH nd) ∧ member every (mkFleet [rx] npeers [(tx, n); (tx', n')] false) idx nd.
Proof.
  intros He Hlrx Hltx Hltx' Hn Hn'. unfold run_main, group_by_main. cbn [String.eqb Ascii.eqb Bool.eqb].
  unfold node_env in He. cbn [app] in He. unfold checkpoint_every.
  node_vars He. change (group_by_strategy_of "uc4_compute_graph_group_by") with (Ok GS_UC4_COMPUTE_GRAPH). cbn [mbind res_bind].
  node_vars He. unfold make_groupby. node_vars He. cbn [mapR fst snd].
  destruct (make_txs_spec idx tx n Hn) as (txs & -> & H1 & H2), (make_txs_spec idx tx' n' Hn') as (txs' & -> & H3 & H4).
  cbn [mbind res_bind]. by node_ring He [(tx, n); (tx', n')].
Qed.

Lemma merge_built e strategy s npeers n left_rx right_rx tx idx :
  vars (merge_env every (strategy +:+ "_" +:+ str_int idx) strategy left_rx right_rx tx n true idx npeers (strategy +:+ "_ring")) e →
  merge_strategy_of strategy = Ok s →
  literal strategy = true → literal left_rx = true → literal right_rx = true → literal tx = true →
  ∃ nd, (∃ spill, run_main "merge" e = Ok (PMerge (mkMergeNode s spill nd))) ∧
    member every (mkFleet [left_rx; right_rx] npeers [(tx, n)] true) idx nd.
Proof.
  intros He Hs Hls Hll Hlr Hltx. unfold run_main, merge_main. cbn [String.eqb Ascii.eqb Bool.eqb].
  unfold merge_env in He. cbn [app] in He. unfold checkpoint_every.
  node_vars He. rewrite Hs. cbn [mbind res_bind]. rewrite sm_new_derived. cbn [mbind res_bind]. unfold start_ring_merge.
  destruct (ring_node_setup_spec e _ strategy (strategy +:+ "_ring") idx npeers every [left_rx; right_rx] [] [] He)
    as (nd & -> & [M1 M2 M3 M4 M5 M6]); [listed_var|literal_value|listed_var|constructor|].
  cbn [mbind res_bind]. eexists. split; [by eexists|]. split; cbn [su_idx su_inputs su_fleets su_stamps su_prefetch su_checkpoint]; done.
Qed.

(** The default filter: a work queue for UC1, shards for the others. *)
Lemma add_route_sharded l e idx acc tx fn shards n : vars l e → (shards, str_int n) ∈ l → 0 < n →
  ∃ txs, add_route uuid5 e idx acc (tx, fn, shards) = Ok (acc.1, acc.2 ++ [(txs, fn)]) ∧
    txs.*1 = merge_routes tx n ∧ txs.*2 = stamp_of <$> route_producers tx idx n.
Proof.
  intros He Hin Hn. unfold add_route. rewrite (int_var l e _ n He Hin). cbn [mbind res_bind].
  destruct (make_txs_spec idx tx n) as (txs & -> & H); [lia|]. cbn [mbind res_bind].
  destruct (n =? 0) eqn:E; [lia|]. by exists txs.
Qed.

Lemma add_route_plain l e idx acc tx fn shards : vars l e → (shards, str_int 0) ∈ l →
  ∃ txs, add_route uuid5 e idx acc (tx, fn, shards) = Ok (acc.1 ++ [(txs, fn)], acc.2) ∧
    txs.*1 = merge_routes tx 0 ∧ txs.*2 = stamp_of <$> route_producers tx idx 0.
Proof.
  intros He Hin. unfold add_route. rewrite (int_var l e _ 0 He Hin). cbn [mbind res_bind].
  destruct (make_txs_spec idx tx 0) as (txs & -> & H1 & H2); [done|]. cbn [mbind res_bind].
  assert (take 1 txs = txs) as ->; [|by exists txs].
  apply (f_equal length) in H1. rewrite length_fmap in H1. apply take_ge. rewrite H1. done.
Qed.

Ltac shard_route He n := match goal with |- context [add_route _ ?e ?i ?acc (?tx, ?fn, ?sh)] =>
  let txs := fresh "txs" in let Htxs := fresh "Htxs" in
  destruct (add_route_sharded _ e i acc tx fn sh n He) as (txs & -> & Htxs); [listed_var|done|]; cbn [mbind res_bind fst snd]
end.

Context (topo : Topology).

Definition default_outputs : list (string * Z) :=
  [(UC1_JOIN, 0); (UC2_FILTERED_TRANSACTIONS, UC2_MAX_AMOUNT_GROUP_BYS topo); (UC3_PERIOD_A_TRANSACTIONS, UC3_GROUP_BYS topo);
   (UC4_TRANSACTIONS, UC4_COMPUTE_GRAPHS topo); (UC5_TRANSACTIONS, UC5_CONVERTERS topo); (UC3_PERIOD_B_TRANSACTIONS, UC3_MERGES topo)].

Lemma default_built e idx :
  vars (default_filter_env every topo idx) e →
  0 < UC2_MAX_AMOUNT_GROUP_BYS topo → 0 < UC3_GROUP_BYS topo → 0 < UC3_MERGES topo → 0 < UC4_COMPUTE_GRAPHS topo → 0 < UC5_CONVERTERS topo →
  ∃ nd, run_main "filter" e = Ok (PFilter (DefaultFilter [FilterFn_filter UC1Filter_keep]
      [FilterFn_filter UC2Filter_keep; FilterFn_filter UC3FilterPeriodA_keep; FilterFn_filter UC4Filter_keep;
       FilterFn_filter UC5Filter_keep; FilterFn_filter UC3FilterPeriodB_keep] nd)) ∧
    member every (mkFleet [CLIENT_TRANSACTIONS] (DEFAULT_FILTERS topo) default_outputs false) idx nd.
Proof.
  intros He H1 H2 H3 H4 H5. unfold run_main, filter_main. cbn [String.eqb Ascii.eqb Bool.eqb].
  unfold default_filter_env, ROUTE_SHARDS in He. cbn [app fmap list_fmap fst snd] in He. unfold checkpoint_every.
  node_vars He. change (filter_strategy_of "default") with (Ok FS_DEFAULT). cbn [mbind res_bind filter_of_strategy].
  unfold make_default_filter. node_vars He. unfold route_table. cbn [mapR fst snd]. node_vars He. cbn [foldR].
  destruct (add_route_plain _ e idx ([], []) UC1_JOIN (FilterFn_filter UC1Filter_keep) "UC1_TRANSACTIONS_SHARDS" He) as (t1 & -> & R1); [listed_var|].
  cbn [mbind res_bind fst snd].
  shard_route He (UC2_MAX_AMOUNT_GROUP_BYS topo). shard_route He (UC3_GROUP_BYS topo). shard_route He (UC4_COMPUTE_GRAPHS topo).
  shard_route He (UC5_CONVERTERS topo). shard_route He (UC3_MERGES topo). cbn [app fmap list_fmap].
  match goal with |- context [ring_node_setup _ _ _ _ _ _ ?txs] =>
    destruct (ring_node_setup_spec e _ "default" "default_filter_ring" idx (DEFAULT_FILTERS topo) every [CLIENT_TRANSACTIONS] default_outputs
      txs He) as (nd & -> & Hm)
  end; [listed_var|done|listed_var|by repeat (apply Forall2_cons; split; [done|])|].
  cbn [mbind res_bind]. by exists nd.
Qed.

(** The gateway publishes to the shards of the first stages. *)
Lemma gateway_built e : vars (gateway_env topo) e →
  ∃ n, run_main "gateway" e = Ok (PGateway n) ∧
    gn_transactions n = shard_publishers CLIENT_TRANSACTIONS (DEFAULT_FILTERS topo) ∧
    gn_accounts n = shard_publishers CLIENT_ACCOUNTS (UC2_BANK_NAMES_GROUP_BYS topo).
Proof.
  intros He. unfold run_main, gateway_main. cbn [String.eqb Ascii.eqb Bool.eqb]. unfold gateway_env in He. cbn [app] in He.
  node_vars He. change (int_str "12345") with (Ok 12345). cbn [mbind res_bind]. by eexists.
Qed.

(** The queues of the use cases a join answers. *)
Definition join_queue (uc : Z) : string := ("uc" +:+ str_int uc +:+ "_join")%string.

Lemma join_ucs_list ucs : ucs ≠ [] →
  mapR int_str (filter (λ x, x ≠ ""%string) (str_split (chr 44) (String.concat "," (str_int <$> ucs)))) = Ok ucs.
Proof.
  intros Hne. rewrite split_concat.
  - rewrite filter_Forall_all; [by rewrite (mapR_map _ _ id), list_fmap_id by (intros; apply int_str_str_int)|].
    apply Forall_fmap, Forall_true. intros z E. cbn in E. destruct (str_int_chars z) as [_ H]. by rewrite E in H.
  - apply Forall_fmap, Forall_true. intros z. apply (int_free (chr 44)); [by vm_compute|done].
  - by destruct ucs.
Qed.

Lemma join_built e idx ucs : vars (join_env every idx ucs) e → ucs ≠ [] →
  ∃ n, run_main "join" e = Ok (PJoin n) ∧ jn_responses n = RESPONSES ∧ jn_prefetch n = every ∧
    ji_queue <$> jn_handlers n = join_queue <$> filter (λ u, u ∈ ucs) [1; 2; 3; 4; 5].
Proof.
  intros He Hne. unfold run_main, join_main. cbn [String.eqb Ascii.eqb Bool.eqb]. unfold join_env in He. cbn [app] in He.
  unfold checkpoint_every. node_vars He. unfold join_ucs.
  assert (Hucs : literal (String.concat "," (str_int <$> ucs)) = true).
  { clear. induction ucs as [|u [|v ucs] IH]; [done|apply literal_int|].
    change (literal (str_int u +:+ "," +:+ String.concat "," (str_int <$> v :: ucs)) = true). repeat apply literal_app; [apply literal_int|done|done]. }
  erewrite (var_getenv_or _ _ "JOIN_UCS" _ _ He); [|listed_var|exact Hucs]. rewrite join_ucs_list by done. cbn [mbind res_bind].
  eexists. split; [reflexivity|]. cbn [jn_responses jn_prefetch jn_handlers]. split; [done|]. split; [done|].
  rewrite !filter_cons. cbn [ji_uc].
  repeat match goal with |- context [decide ?P] => destruct (decide P) end; reflexivity.
Qed.
End parts.
