(* ===== verification/Network.v ===== *)
(** * The whole network

    The services of the deployment as fleets, what all their nodes consume and
    publish, and that every queue published to is consumed by one node. *)

From S2P Require Import Prelude.
From S2P Require Import PyDict.
From S2P Require Import PyValues.
From S2P Require Import PyText.
From S2P Require Import Wire.
From S2P Require Import Messages.
From S2P Require Import Stamping.
From S2P Require Import RingCompletion.
From S2P Require Import Filters.
From S2P Require Import GroupBy.
From S2P Require Import Joins.
From S2P Require Import Ring.
From S2P Require Import Amqp.
From S2P Require Import Nodes.
From S2P Require Import Compose.
From S2P Require Import Deployment.

(** ** Ends *)

(** One end of a queue: its name and, for a shard, its exchange and routing key. *)
Abbreviation end_point := (string * option (string * string))%type.

Definition shard_end (x : string) (i : Z) : end_point := (x +:+ str_int i, Some (x, str_int i)).
Definition queue_end (q : string) : end_point := (q, None).

(** Where a route leads. *)
Definition target (r : Route) : end_point :=
  match r with
  | QueueRoute q => (q, None)
  | ExchangeRoute x keys q => (q, Some (x, default "" (head keys)))
  end.

(** The queues a program consumes, with the binding it declares; a ring node binds its
    queues with its own index. *)
Definition consumes (p : Program) : list end_point :=
  match ring_part p, p with
  | Some n, _ => (λ qx, (qx.1, Some (qx.2, str_int (su_idx n)))) <$> su_inputs n
  | None, PJoin n => (λ h, queue_end (ji_queue h)) <$> jn_handlers n
  | None, _ => []
  end.

Definition publishes (p : Program) : list end_point :=
  match ring_part p, p with
  | Some n, _ => target <$> List.concat (su_fleets n)
  | None, PGateway n => target <$> (gn_transactions n ++ gn_accounts n)
  | None, _ => []
  end.

Definition stamps (p : Program) : list StampingMOM := match ring_part p with Some n => su_stamps n | None => [] end.

(** A ring node takes as many messages as it holds unacknowledged for a checkpoint,
    and has one; a join takes exactly as many. *)
Definition window_ok (every : Z) (p : Program) : Prop :=
  match ring_part p, p with
  | Some n, _ => every ≤ su_prefetch n ∧ ∃ path, su_checkpoint n = Some (path, every)
  | None, PJoin n => jn_prefetch n = every
  | None, _ => True
  end.

(** Two ends meet: every queue is consumed by one node, under one name, and what is
    published to is what is consumed. *)
Record wired (every : Z) (ps : list Program) : Prop := {
  wired_once : NoDup (ps ≫= consumes).*1;
  wired_ends : ∀ t, t ∈ ps ≫= publishes ↔ t ∈ ps ≫= consumes;
  wired_producers : NoDup (sm_producer <$> (ps ≫= stamps));
  wired_windows : Forall (window_ok every) ps
}.

(** ** Fleets *)

Definition ports_in (fs : list Fleet) : list (string * Z) := fs ≫= λ f, (λ rx, (rx, fl_size f)) <$> fl_inputs f.
Definition ports_out (fs : list Fleet) : list (string * Z) := fs ≫= fl_outputs.

Lemma target_routes tx n t : t ∈ target <$> merge_routes tx n ↔ (n = 0 ∧ t = queue_end tx) ∨ ∃ i, 0 ≤ i < n ∧ t = shard_end tx i.
Proof.
  unfold merge_routes. destruct (n =? 0) eqn:E; [apply Z.eqb_eq in E as ->|apply Z.eqb_neq in E].
  - cbn. rewrite list_elem_of_singleton. split; [by left|]. intros [[_ ->]|(i & Hi & _)]; [done|lia].
  - rewrite <- list_fmap_compose, list_elem_of_fmap. setoid_rewrite elem_of_seqZ. split.
    + intros (i & -> & Hi). right. exists i. split; [lia|done].
    + intros [[-> _]|(i & Hi & ->)]; [done|]. exists i. split; [done|lia].
Qed.

(** What the members of fleets consume and publish. *)
Definition members (uuid5 : uuid → string → uuid) (every : Z) (f : Fleet) (ps : list Program) : Prop :=
  Forall2 (λ idx p, ∃ nd, ring_part p = Some nd ∧ member uuid5 every f idx nd) (seqZ 0 (fl_size f)) ps.

Section fleets.
Context (uuid5 : uuid → string → uuid) (every : Z).

Lemma members_consume f ps : members uuid5 every f ps →
  ps ≫= consumes = seqZ 0 (fl_size f) ≫= λ idx, (λ rx, shard_end rx idx) <$> fl_inputs f.
Proof.
  unfold members. generalize (seqZ 0 (fl_size f)) as l. intros l H. induction H as [|idx p l ps (nd & E & Hm) _ IH]; [done|].
  cbn [mbind list_bind]. f_equal; [|exact IH]. unfold consumes. rewrite E, (m_inputs _ _ _ _ _ Hm), (m_idx _ _ _ _ _ Hm).
  by rewrite <- list_fmap_compose.
Qed.

Lemma members_publish f ps t : members uuid5 every f ps →
  t ∈ ps ≫= publishes ↔ 0 < fl_size f ∧ ∃ o, o ∈ fl_outputs f ∧ t ∈ target <$> merge_routes o.1 o.2.
Proof.
  intros H. assert (Hp : ∀ idx p, (∃ nd, ring_part p = Some nd ∧ member uuid5 every f idx nd) →
    t ∈ publishes p ↔ ∃ o, o ∈ fl_outputs f ∧ t ∈ target <$> merge_routes o.1 o.2).
  { intros idx p (nd & E & Hm). unfold publishes. rewrite E, (m_routes _ _ _ _ _ Hm), list_elem_of_fmap. setoid_rewrite list_elem_of_bind.
    setoid_rewrite list_elem_of_fmap. naive_solver. }
  rewrite list_elem_of_bind. split.
  - intros (p & Ht & [i Hi]%list_elem_of_lookup). destruct (Forall2_lookup_r _ _ _ _ _ H Hi) as (idx & Hidx & Hm).
    apply (Hp _ _ Hm) in Ht. split; [|done]. apply lookup_lt_Some in Hidx. rewrite length_seqZ in Hidx. lia.
  - intros [Hs Ho]. destruct (lookup_lt_is_Some_2 (seqZ 0 (fl_size f)) 0) as [idx Hidx]; [rewrite length_seqZ; lia|].
    destruct (Forall2_lookup_l _ _ _ _ _ H Hidx) as (p & Hin & Hm). exists p. split; [by apply (Hp _ _ Hm)|by eapply list_elem_of_lookup_2].
Qed.

Lemma members_stamps f ps : members uuid5 every f ps →
  ps ≫= stamps ≡ₚ stamp_of uuid5 <$> (seqZ 0 (fl_size f) ≫= fleet_producers f).
Proof.
  unfold members. generalize (seqZ 0 (fl_size f)) as l. intros l H. induction H as [|idx p l ps (nd & E & Hm) _ IH]; [done|].
  cbn [mbind list_bind]. rewrite fmap_app. apply Permutation_app; [|exact IH]. unfold stamps. by rewrite E, (m_stamps _ _ _ _ _ Hm).
Qed.

Lemma members_windows f ps : members uuid5 every f ps → Forall (window_ok every) ps.
Proof.
  unfold members. generalize (seqZ 0 (fl_size f)) as l. intros l H. induction H as [|idx p l ps (nd & E & Hm) _ IH]; constructor; [|done].
  unfold window_ok. rewrite E. by destruct Hm.
Qed.

(** Several fleets. *)
Implicit Types (fs : list Fleet) (pss : list (list Program)).

Lemma fleets_consume fs pss : Forall2 (members uuid5 every) fs pss →
  List.concat pss ≫= consumes = fs ≫= λ f, seqZ 0 (fl_size f) ≫= λ idx, (λ rx, shard_end rx idx) <$> fl_inputs f.
Proof.
  induction 1 as [|f ps fs pss Hf _ IH]; [done|]. cbn [List.concat]. rewrite bind_app, IH. cbn [mbind list_bind]. by rewrite (members_consume f ps Hf).
Qed.

Lemma fleets_consume_elem fs t : t ∈ (fs ≫= λ f, seqZ 0 (fl_size f) ≫= λ idx, (λ rx, shard_end rx idx) <$> fl_inputs f) ↔
  ∃ x n i, (x, n) ∈ ports_in fs ∧ 0 ≤ i < n ∧ t = shard_end x i.
Proof.
  unfold ports_in. split.
  - intros (f & (idx & (rx & -> & Hrx)%list_elem_of_fmap & Hidx%elem_of_seqZ)%list_elem_of_bind & Hf)%list_elem_of_bind.
    exists rx, (fl_size f), idx. split; [|split; [lia|done]]. apply list_elem_of_bind. exists f. split; [|done]. apply list_elem_of_fmap. by exists rx.
  - intros (x & n & i & (f & (rx & [= -> ->] & Hrx)%list_elem_of_fmap & Hf)%list_elem_of_bind & Hi & ->).
    apply list_elem_of_bind. exists f. split; [|done]. apply list_elem_of_bind. exists i. split; [|apply elem_of_seqZ; lia].
    apply list_elem_of_fmap. by exists rx.
Qed.

Lemma fleets_publish fs pss t : Forall2 (members uuid5 every) fs pss → Forall (λ f, 0 < fl_size f) fs →
  t ∈ List.concat pss ≫= publishes ↔ ∃ x n, (x, n) ∈ ports_out fs ∧ t ∈ target <$> merge_routes x n.
Proof.
  unfold ports_out. intros H. induction H as [|f ps fs pss Hf _ IH]; intros Hs.
  - split; [by intros ?%not_elem_of_nil|by intros (x & n & ?%not_elem_of_nil & _)].
  - apply Forall_cons in Hs as [Hs1 Hs2]. cbn [List.concat mbind list_bind]. rewrite bind_app, elem_of_app, (IH Hs2), (members_publish f ps t Hf).
    setoid_rewrite elem_of_app. split.
    + intros [(_ & [x n] & Ho & Ht)|(x & n & Ho & Ht)]; exists x, n; by auto.
    + intros (x & n & [Ho|Ho] & Ht); [left; split; [done|]; by exists (x, n)|right; by exists x, n].
Qed.

Lemma fleets_stamps fs pss : Forall2 (members uuid5 every) fs pss →
  List.concat pss ≫= stamps ≡ₚ stamp_of uuid5 <$> (fs ≫= λ f, seqZ 0 (fl_size f) ≫= fleet_producers f).
Proof.
  induction 1 as [|f ps fs pss Hf _ IH]; [done|]. cbn [List.concat]. rewrite bind_app, IH. cbn [mbind list_bind]. by rewrite fmap_app, (members_stamps f ps Hf).
Qed.
End fleets.

(** ** Names that do not repeat *)

Lemma bind_shared {A B} (f : A → list B) l x1 x2 y : NoDup (l ≫= f) → x1 ∈ l → x2 ∈ l → y ∈ f x1 → y ∈ f x2 → x1 = x2.
Proof.
  induction l as [|x l IH]; intros Hnd H1 H2 Hy1 Hy2; [by apply not_elem_of_nil in H1|].
  cbn [mbind list_bind] in Hnd. apply NoDup_app in Hnd as (_ & Hx & Hl).
  apply elem_of_cons in H1 as [->|H1], H2 as [->|H2]; try done.
  - destruct (Hx y Hy1). apply list_elem_of_bind. by exists x2.
  - destruct (Hx y Hy2). apply list_elem_of_bind. by exists x1.
  - by apply IH.
Qed.

Lemma bind_part {A B} (f : A → list B) l x : NoDup (l ≫= f) → x ∈ l → NoDup (f x).
Proof.
  induction l as [|y l IH]; intros Hnd Hx; [by apply not_elem_of_nil in Hx|].
  cbn [mbind list_bind] in Hnd. apply NoDup_app in Hnd as (Hy & _ & Hl). by apply elem_of_cons in Hx as [->|Hx]; auto.
Qed.

Lemma bind_base {A B} (f : A → list B) l : NoDup (l ≫= f) → (∀ x, x ∈ l → f x ≠ []) → NoDup l.
Proof.
  induction l as [|x l IH]; intros Hnd Hne; [constructor|]. cbn [mbind list_bind] in Hnd. apply NoDup_app in Hnd as (_ & Hx & Hl).
  constructor; [|apply IH; [done|]; intros y Hy; apply Hne; by right].
  intros Hin. destruct (f x) as [|b bs] eqn:E; [by destruct (Hne x (list_elem_of_here _ _))|].
  apply (Hx b); [left|]. apply list_elem_of_bind. exists x. rewrite E. split; [left|done].
Qed.

Lemma fmap_bind_list {A B C} (f : A → list B) (h : B → C) l : h <$> (l ≫= f) = l ≫= λ x, h <$> f x.
Proof. induction l as [|x l IH]; [done|]. cbn [mbind list_bind]. by rewrite fmap_app, IH. Qed.
Lemma bind_ext_list {A B} (f h : A → list B) l : (∀ x, f x = h x) → l ≫= f = l ≫= h.
Proof. intros Hfh. induction l as [|x l IH]; [done|]. cbn [mbind list_bind]. by rewrite Hfh, IH. Qed.

(** The queues of the shards of all the inputs. *)
Lemma shard_queues_NoDup (fs : list Fleet) : NoDup (fs ≫= fl_inputs) → (∀ f x, f ∈ fs → x ∈ fl_inputs f → plain_name x = true) →
  Forall (λ f, fl_inputs f ≠ []) fs →
  NoDup (fs ≫= λ f, seqZ 0 (fl_size f) ≫= λ idx, (λ rx, rx +:+ str_int idx) <$> fl_inputs f).
Proof.
  intros Hnd Hplain Hne. rewrite Forall_forall in Hne. apply NoDup_bind; [| |by eapply bind_base].
  - intros f1 f2 y H1 H2 (i & (x & -> & Hx)%list_elem_of_fmap & Hi%elem_of_seqZ)%list_elem_of_bind
      (j & (x' & E & Hx')%list_elem_of_fmap & Hj%elem_of_seqZ)%list_elem_of_bind.
    apply shard_name_inj in E as [-> _]; [|by apply (Hplain f1)|by apply (Hplain f2)|lia..].
    by apply (bind_shared fl_inputs fs f1 f2 x').
  - intros f Hf. apply NoDup_bind; [| |apply NoDup_seqZ].
    + intros i j y Hi%elem_of_seqZ Hj%elem_of_seqZ (x & -> & Hx)%list_elem_of_fmap (x' & E & Hx')%list_elem_of_fmap.
      by apply shard_name_inj in E as [_ ->]; [|by apply (Hplain f)|by apply (Hplain f)|lia..].
    + intros i Hi%elem_of_seqZ. apply NoDup_fmap_2_strong; [|by apply (bind_part fl_inputs fs)].
      intros x x' Hx Hx' E. by apply shard_name_inj in E as [-> _]; [|by apply (Hplain f)|by apply (Hplain f)|lia..].
Qed.

(** The names the producers of all the routes are derived from. *)
Lemma fleet_producers_elem f idx p : p ∈ fleet_producers f idx → p.1.2 = idx ∧ ∃ n, (p.1.1, n) ∈ fl_outputs f.
Proof.
  unfold fleet_producers, route_producers. rewrite list_elem_of_bind. intros ([tx n] & Hp & Ho). cbn [fst snd] in Hp.
  assert (H : p.1.2 = idx ∧ p.1.1 = tx); [|destruct H as [H ->]; split; [done|by exists n]].
  destruct (fl_shared f); [by apply list_elem_of_singleton in Hp as ->|]. destruct (n =? 0); [by apply list_elem_of_singleton in Hp as ->|].
  by apply list_elem_of_fmap in Hp as (i & -> & _).
Qed.

Lemma producers_NoDup (fs : list Fleet) : NoDup (fs ≫= λ f, (fl_outputs f).*1) → Forall (λ f, fl_outputs f ≠ []) fs →
  NoDup (fs ≫= λ f, seqZ 0 (fl_size f) ≫= fleet_producers f).
Proof.
  intros Hnd Hne. rewrite Forall_forall in Hne. apply NoDup_bind.
  - intros f1 f2 p H1 H2 (i & (_ & n & Hn)%fleet_producers_elem & _)%list_elem_of_bind (j & (_ & m & Hm)%fleet_producers_elem & _)%list_elem_of_bind.
    eapply (bind_shared (λ f, (fl_outputs f).*1) fs f1 f2 p.1.1 Hnd H1 H2); apply list_elem_of_fmap; [by exists (p.1.1, n)|by exists (p.1.1, m)].
  - intros f Hf. apply NoDup_bind; [| |apply NoDup_seqZ].
    + intros i j p _ _ (<- & _)%fleet_producers_elem (<- & _)%fleet_producers_elem. done.
    + intros i _. pose proof (bind_part (λ f, (fl_outputs f).*1) fs f Hnd Hf) as Ho. unfold fleet_producers. apply NoDup_bind.
      * intros [x n] [y m] p Hx Hy Hp Hq. cbn [fst snd] in *.
        assert (Hfst : ∀ z k, p ∈ (if fl_shared f then [(z, i, 0)] else route_producers z i k) → p.1.1 = z).
        { intros z k. unfold route_producers. destruct (fl_shared f); [by intros ->%list_elem_of_singleton|].
          destruct (k =? 0); [by intros ->%list_elem_of_singleton|]. by intros (? & -> & _)%list_elem_of_fmap. }
        apply Hfst in Hp, Hq. subst x y. f_equal. by eapply NoDup_fst_inj.
      * intros [x n] _. unfold route_producers. cbn [fst snd]. destruct (fl_shared f); [apply NoDup_singleton|].
        destruct (n =? 0); [apply NoDup_singleton|]. apply NoDup_fmap_2; [by intros a b [= ->]|apply NoDup_seqZ].
      * exact (NoDup_fmap_1 fst _ Ho).
  - apply (bind_base (λ f, (fl_outputs f).*1)); [done|]. intros f Hf E. apply (Hne f Hf). by destruct (fl_outputs f).
Qed.

(** ** The services *)

(** A generator that appends the given services, each registered as a node. *)
Definition generates (m : gen) (svs : list Service) : Prop :=
  ∀ nodes, (m nodes).2.2 = svs ∧ (m nodes).1 = foldl (λ ns sv, register_node (sv_name sv) ns) nodes svs.

Lemma generates_text s : generates (gen_text s) [].
Proof. by intros nodes. Qed.

Lemma generates_service r sv : generates (gen_service r sv) [sv].
Proof. by intros nodes. Qed.

Lemma generates_app m1 m2 l1 l2 : generates m1 l1 → generates m2 l2 → generates (gen_app m1 m2) (l1 ++ l2).
Proof.
  intros H1 H2 nodes. unfold gen_app. destruct (H1 nodes) as [E1 E2]. destruct (m1 nodes) as [ns [t1 s1]]. cbn [fst snd] in *.
  destruct (H2 ns) as [E3 E4]. destruct (m2 ns) as [ns' [t2 s2]]. cbn [fst snd] in *. subst. by rewrite foldl_app.
Qed.

Lemma generates_all ms ls : Forall2 generates ms ls → generates (gen_all ms) (List.concat ls).
Proof. induction 1 as [|m l ms ls Hm _ IH]; [apply generates_text|]. by apply generates_app. Qed.

Lemma generates_services {A} r (sv : A → Service) l : generates (gen_all ((λ x, gen_service r (sv x)) <$> l)) (sv <$> l).
Proof.
  induction l as [|x l IH]; [apply generates_text|]. rewrite fmap_cons. apply (generates_app _ _ [sv x]); [apply generates_service|exact IH].
Qed.

(** A fleet and its services. *)
Record Segment := mkSegment { sg_fleet : Fleet; sg_service : Z → Service }.
Definition segment_services (s : Segment) : list Service := sg_service s <$> seqZ 0 (fl_size (sg_fleet s)).

(** The sizes of the fleets, as they are generated. *)
Definition topology_sizes (topo : Topology) : list Z :=
  [DEFAULT_FILTERS topo; UC2_MAX_AMOUNT_GROUP_BYS topo; UC2_MAX_AMOUNT_AGGREGATES topo; UC2_BANK_NAMES_GROUP_BYS topo; UC2_BANK_NAMES_AGGREGATES topo;
   UC2_MERGES topo; UC3_GROUP_BYS topo; UC3_AGGREGATES topo; UC3_MERGES topo; UC3_FILTERS topo; UC4_COMPUTE_GRAPHS topo; UC4_AGGREGATE_GRAPHS topo;
   UC4_DEGREE_AGGREGATES topo; UC4_PRUNES topo; UC4_COUNT_PATHS topo; UC4_PATHS_AGGREGATES topo; UC5_CONVERTERS topo; UC5_AMOUNT_FILTERS topo;
   UC5_COUNT_GROUP_BYS topo].

(** The sizes are positive, and the joins share out the use cases. *)
Record topology_ok (topo : Topology) : Prop := {
  sizes_ok : Forall (λ n, 0 < n) (topology_sizes topo);
  joins_ok : List.concat (JOIN_PARTITION topo) ≡ₚ [1; 2; 3; 4; 5];
  joins_busy : Forall (λ ucs, ucs ≠ []) (JOIN_PARTITION topo)
}.

Section network.
Context (uuid5 : uuid → string → uuid) (g : env) (every : Z) (topo : Topology).

Definition node_segment (type2 strategy : string) (npeers n : Z) (rx tx : string) (bc : bool) : Segment :=
  mkSegment (mkFleet [rx] npeers [(tx, n)] false)
    (λ idx, mkService (strategy +:+ "_" +:+ str_int idx) type2 (node_env g every type2 strategy npeers n rx tx true bc [] idx) true).

Definition graph_segment : Segment :=
  mkSegment (mkFleet [UC4_TRANSACTIONS] (UC4_COMPUTE_GRAPHS topo)
      [("uc4_graphs"%string, UC4_AGGREGATE_GRAPHS topo); ("uc4_degree_graphs"%string, UC4_DEGREE_AGGREGATES topo)] false)
    (λ idx, mkService ("uc4_compute_graph_group_by_" +:+ str_int idx) "group_by"
      (node_env g every "group_by" "uc4_compute_graph_group_by" (UC4_COMPUTE_GRAPHS topo) (UC4_AGGREGATE_GRAPHS topo) UC4_TRANSACTIONS
        "uc4_graphs" true false [("TX_DEGREE"%string, "uc4_degree_graphs"%string); ("NAFFINITY_DEGREE"%string, str_int (UC4_DEGREE_AGGREGATES topo))] idx) true).

Definition merge_segment (strategy left_rx right_rx tx : string) (n npeers : Z) : Segment :=
  mkSegment (mkFleet [left_rx; right_rx] npeers [(tx, n)] true)
    (λ idx, mkService (strategy +:+ "_" +:+ str_int idx) "merge"
      (merge_env every (strategy +:+ "_" +:+ str_int idx) strategy left_rx right_rx tx n true idx npeers (strategy +:+ "_ring")) true).

Definition default_segment : Segment :=
  mkSegment (mkFleet [CLIENT_TRANSACTIONS] (DEFAULT_FILTERS topo) (default_outputs topo) false)
    (λ idx, mkService ("default_filter_" +:+ str_int idx) "filter" (default_filter_env every topo idx) true).

(** The fleets of the deployment, as they are generated. *)
Definition segments : list Segment := [
  default_segment;
  node_segment "group_by" "uc2_max_amount_group_by" (UC2_MAX_AMOUNT_GROUP_BYS topo) (UC2_MAX_AMOUNT_AGGREGATES topo)
    UC2_FILTERED_TRANSACTIONS "uc2_partial_max_amount" false;
  node_segment "aggregate" "uc2_max_amount_aggregate" (UC2_MAX_AMOUNT_AGGREGATES topo) (UC2_MERGES topo)
    "uc2_partial_max_amount" "uc2_max_amounts_by_bank" true;
  node_segment "group_by" "uc2_bank_names_group_by" (UC2_BANK_NAMES_GROUP_BYS topo) (UC2_BANK_NAMES_AGGREGATES topo)
    CLIENT_ACCOUNTS "uc2_partial_bank_names" false;
  node_segment "aggregate" "uc2_bank_names_aggregate" (UC2_BANK_NAMES_AGGREGATES topo) (UC2_MERGES topo)
    "uc2_partial_bank_names" "uc2_bank_id_name_mappings" false;
  merge_segment "uc2_merge" "uc2_max_amounts_by_bank" "uc2_bank_id_name_mappings" UC2_JOIN 0 (UC2_MERGES topo);
  node_segment "group_by" "uc3_group_by_format" (UC3_GROUP_BYS topo) (UC3_AGGREGATES topo) UC3_PERIOD_A_TRANSACTIONS "uc3_sum_by_format" false;
  node_segment "aggregate" "uc3_average_aggregate" (UC3_AGGREGATES topo) (UC3_MERGES topo) "uc3_sum_by_format" "uc3_avg" true;
  merge_segment "uc3_merge" "uc3_avg" UC3_PERIOD_B_TRANSACTIONS "uc3_average_merged" (UC3_FILTERS topo) (UC3_MERGES topo);
  node_segment "filter" "uc3_average_filter" (UC3_FILTERS topo) 0 "uc3_average_merged" UC3_JOIN false;
  graph_segment;
  node_segment "aggregate" "uc4_aggregate_graphs" (UC4_AGGREGATE_GRAPHS topo) (UC4_PRUNES topo) "uc4_graphs" "uc4_graphs_to_prune" false;
  node_segment "aggregate" "uc4_degree_aggregate" (UC4_DEGREE_AGGREGATES topo) (UC4_PRUNES topo) "uc4_degree_graphs" "uc4_high_degree" true;
  merge_segment "uc4_prune" "uc4_high_degree" "uc4_graphs_to_prune" "uc4_pruned" (UC4_COUNT_PATHS topo) (UC4_PRUNES topo);
  node_segment "aggregate" "uc4_count_paths" (UC4_COUNT_PATHS topo) (UC4_PATHS_AGGREGATES topo) "uc4_pruned" "uc4_paths" false;
  node_segment "aggregate" "uc4_paths_aggregate" (UC4_PATHS_AGGREGATES topo) 0 "uc4_paths" UC4_JOIN false;
  node_segment "group_by" "uc5_converter" (UC5_CONVERTERS topo) (UC5_AMOUNT_FILTERS topo) UC5_TRANSACTIONS "uc5_converted_transactions" false;
  node_segment "filter" "uc5_amount_filter" (UC5_AMOUNT_FILTERS topo) (UC5_COUNT_GROUP_BYS topo)
    "uc5_converted_transactions" "uc5_filtered_converted_transactions" false;
  node_segment "group_by" "uc5_count_group_by" (UC5_COUNT_GROUP_BYS topo) 0 "uc5_filtered_converted_transactions" UC5_JOIN false].

Definition gateway_service : Service := mkService "gateway" "gateway" (gateway_env topo) false.
Definition join_service_of (idx : Z) (ucs : list Z) : Service := mkService ("join_" +:+ str_int idx) "join" (join_env every idx ucs) true.
Definition join_services : list Service := imap (λ idx ucs, join_service_of (Z.of_nat idx) ucs) (JOIN_PARTITION topo).

Definition network_services : list Service :=
  gateway_service :: (segments ≫= segment_services) ++ join_services.

Lemma generates_fleet (s : Segment) r :
  generates (gen_all ((λ idx, gen_service r (sg_service s idx)) <$> seqZ 0 (fl_size (sg_fleet s)))) (segment_services s).
Proof. apply generates_services. Qed.

Lemma generates_imap {A} r (l : list A) : ∀ (sv : nat → A → Service),
  generates (gen_all (imap (λ i x, gen_service r (sv i x)) l)) (imap sv l).
Proof.
  induction l as [|x l IH]; intros sv; [apply generates_text|]. rewrite !imap_cons.
  apply (generates_app _ _ [sv 0%nat x]); [apply generates_service|]. exact (IH (λ i, sv (S i))).
Qed.

Lemma network_generated : generates (gen_network g every topo) network_services.
Proof.
  assert (E : network_services = List.concat [[gateway_service]; segment_services default_segment; [];
    List.concat ([] :: (segment_services <$> take 5 (drop 1 segments))); List.concat ([] :: (segment_services <$> take 4 (drop 6 segments)));
    List.concat ([] :: (segment_services <$> take 6 (drop 10 segments))); List.concat ([] :: (segment_services <$> drop 16 segments)); join_services]).
  { unfold network_services, segments. cbn [take drop fmap list_fmap List.concat mbind list_bind]. by rewrite !app_nil_r, <- !app_assoc. }
  rewrite E. apply generates_all. unfold segments. cbn [take drop fmap list_fmap].
  repeat (apply Forall2_cons; split); [..|by apply Forall2_nil].
  - apply (generates_app _ _ []); [apply generates_text|apply generates_service].
  - apply (generates_app _ _ []); [apply generates_text|apply (generates_fleet default_segment)].
  - apply generates_text.
  - apply generates_all. repeat (apply Forall2_cons; split); [apply generates_text|apply generates_services..|by apply Forall2_nil].
  - apply generates_all. repeat (apply Forall2_cons; split); [apply generates_text|apply generates_services..|by apply Forall2_nil].
  - apply generates_all. repeat (apply Forall2_cons; split); [apply generates_text|apply generates_services..|by apply Forall2_nil].
  - apply generates_all. repeat (apply Forall2_cons; split); [apply generates_text|apply generates_services..|by apply Forall2_nil].
  - apply (generates_app _ _ []); [apply generates_text|]. apply (generates_imap _ (JOIN_PARTITION topo)).
Qed.

(** ** Every node of the network *)

Context (E : Service → env).

(** Whatever the environment, a service of the segment builds a member of its fleet. *)
Definition builds (s : Segment) : Prop := ∀ idx e, vars (sv_env (sg_service s idx)) e →
  ∃ p nd, run_main uuid5 (sv_image (sg_service s idx)) e = Ok p ∧ ring_part p = Some nd ∧ member uuid5 every (sg_fleet s) idx nd.

Lemma builds_filter strategy fs fn npeers n rx tx bc : filter_strategy_of strategy = Ok fs → filter_of_strategy fs = Some fn →
  literal strategy && literal rx && literal tx = true → 0 ≤ n → builds (node_segment "filter" strategy npeers n rx tx bc).
Proof.
  intros Hs Hfn [[H1 H2]%andb_prop H3]%andb_prop Hn idx e He.
  destruct (filter_built uuid5 g every e strategy fs fn npeers n rx tx bc idx) as (nd & Er & Hm); try done. by exists (PFilter (PlainFilter fn nd)), nd.
Qed.

Lemma builds_aggregate strategy s npeers n rx tx bc : aggregate_strategy_of strategy = Ok s →
  literal strategy && literal rx && literal tx = true → 0 ≤ n → builds (node_segment "aggregate" strategy npeers n rx tx bc).
Proof.
  intros Hs [[H1 H2]%andb_prop H3]%andb_prop Hn idx e He.
  destruct (aggregate_built uuid5 g every e strategy s npeers n rx tx bc idx) as (nd & (spill & Er) & Hm); try done.
  by exists (PAggregate (mkAggregateNode s spill bc nd)), nd.
Qed.

Lemma builds_group_by strategy s npeers n rx tx bc : group_by_strategy_of strategy = Ok s → s ≠ GS_UC4_COMPUTE_GRAPH →
  literal strategy && literal rx && literal tx = true → 0 ≤ n → builds (node_segment "group_by" strategy npeers n rx tx bc).
Proof.
  intros Hs Hne [[H1 H2]%andb_prop H3]%andb_prop Hn idx e He.
  destruct (group_by_built uuid5 g every e strategy s npeers n rx tx bc idx) as (nd & Er & Hm); try done. by exists (PGroupBy s nd), nd.
Qed.

Lemma builds_merge strategy s left_rx right_rx tx n npeers : merge_strategy_of strategy = Ok s →
  literal strategy && literal left_rx && literal right_rx && literal tx = true →
  builds (merge_segment strategy left_rx right_rx tx n npeers).
Proof.
  intros Hs [[[H1 H2]%andb_prop H3]%andb_prop H4]%andb_prop idx e He.
  destruct (merge_built uuid5 every e strategy s npeers n left_rx right_rx tx idx) as (nd & (spill & Er) & Hm); try done.
  by exists (PMerge (mkMergeNode s spill nd)), nd.
Qed.

Lemma segment_sizes : topology_ok topo → Forall (λ s, 0 < fl_size (sg_fleet s)) segments.
Proof. intros [Hs _ _]. apply (Forall_fmap (λ s, fl_size (sg_fleet s)) (λ n, 0 < n) segments). exact Hs. Qed.

Lemma all_build : topology_ok topo → Forall builds segments.
Proof.
  intros Hsizes%segment_sizes. unfold segments in *.
  repeat match type of Hsizes with Forall _ (_ :: _) => let H := fresh "Hsz" in apply Forall_cons in Hsizes as [H Hsizes]; cbn [sg_fleet fl_size node_segment merge_segment default_segment graph_segment] in H end.
  repeat (apply Forall_cons; split); [..|apply Forall_nil_2].
  all: first
    [by eapply builds_filter; [reflexivity|reflexivity|reflexivity|lia]
    |by eapply builds_aggregate; [reflexivity|reflexivity|lia]
    |by eapply builds_group_by; [reflexivity|done|reflexivity|lia]
    |by eapply builds_merge; [reflexivity|reflexivity]
    |idtac].
  - intros idx e He. destruct (default_built uuid5 every topo e idx He) as (nd & Er & Hm); [done..|]. by eexists _, nd.
  - intros idx e He. edestruct (graph_built uuid5 g every e) as (nd & Er & Hm); [exact He|done|done|done|lia|lia|]. by eexists _, nd.
Qed.

Lemma segment_members s : builds s →
  (∀ sv, sv ∈ segment_services s → vars (sv_env sv) (E sv)) →
  ∃ ps, mapR (λ sv, run_main uuid5 (sv_image sv) (E sv)) (segment_services s) = Ok ps ∧ members uuid5 every (sg_fleet s) ps.
Proof.
  unfold segment_services, members. intros Hb. induction (seqZ 0 (fl_size (sg_fleet s))) as [|idx l IH]; intros He; [by exists []|].
  destruct IH as (ps & E1 & Hps); [intros sv Hsv; apply He; by right|].
  destruct (Hb idx (E (sg_service s idx))) as (p & nd & Ep & Hp); [apply He; by left|].
  exists (p :: ps). rewrite fmap_cons. cbn [mapR]. rewrite Ep. cbn [mbind res_bind]. rewrite E1. split; [done|]. constructor; [by exists nd|done].
Qed.

Lemma segments_members ss : Forall builds ss →
  (∀ sv, sv ∈ ss ≫= segment_services → vars (sv_env sv) (E sv)) →
  ∃ pss, mapR (λ sv, run_main uuid5 (sv_image sv) (E sv)) (ss ≫= segment_services) = Ok (List.concat pss) ∧
    Forall2 (members uuid5 every) (sg_fleet <$> ss) pss.
Proof.
  induction 1 as [|s ss Hs _ IH]; intros He; [by exists []|]. cbn [mbind list_bind] in *.
  destruct IH as (pss & E2 & Hpss); [intros sv Hsv; apply He, elem_of_app; by right|].
  destruct (segment_members s Hs) as (ps & E1 & Hps); [intros sv Hsv; apply He, elem_of_app; by left|].
  exists (ps :: pss). split; [|by constructor]. by apply mapR_app.
Qed.

(** The joins, which share out the queues of the use cases. *)
Lemma joins_members (parts : list (list Z)) : ∀ sv : nat → list Z → Service, (∀ i ucs, ∃ idx, sv i ucs = join_service_of idx ucs) →
  Forall (λ ucs, ucs ≠ []) parts → (∀ s, s ∈ imap sv parts → vars (sv_env s) (E s)) →
  ∃ ps, mapR (λ s, run_main uuid5 (sv_image s) (E s)) (imap sv parts) = Ok ps ∧
    ps ≫= consumes = parts ≫= (λ ucs, (λ u, queue_end (join_queue u)) <$> filter (λ u, u ∈ ucs) [1; 2; 3; 4; 5]) ∧
    ps ≫= publishes = [] ∧ ps ≫= stamps = [] ∧ Forall (window_ok every) ps.
Proof.
  induction parts as [|ucs parts IH]; intros sv Hsv Hne He; [by exists []|]. apply Forall_cons in Hne as [Hu Hne]. rewrite imap_cons in *.
  destruct (IH (λ i, sv (S i))) as (ps & E1 & Hc & Hp & Hst & Hw); [by intros; apply Hsv|done|intros s Hs; apply He; by right|].
  destruct (Hsv 0%nat ucs) as [idx Es]. assert (Hv : vars (sv_env (sv 0%nat ucs)) (E (sv 0%nat ucs))) by (apply He; by left).
  rewrite Es in Hv. destruct (join_built uuid5 every _ idx ucs Hv Hu) as (n & Er & _ & Hpre & Hq).
  exists (PJoin n :: ps). cbn [mapR]. rewrite Es. change (sv_image (join_service_of idx ucs)) with "join"%string. rewrite Er. cbn [mbind res_bind].
  change (imap (sv ∘ S) parts) with (imap (λ i, sv (S i)) parts). rewrite E1. split; [done|]. cbn [mbind list_bind].
  split; [|by split_and!; [..|constructor]]. f_equal; [|exact Hc]. unfold consumes. cbn [ring_part].
  transitivity (queue_end <$> (ji_queue <$> jn_handlers n)); [by rewrite <- list_fmap_compose|]. by rewrite Hq, <- list_fmap_compose.
Qed.

Lemma joins_share (parts : list (list Z)) : List.concat parts ≡ₚ [1; 2; 3; 4; 5] →
  (parts ≫= λ ucs, (λ u, queue_end (join_queue u)) <$> filter (λ u, u ∈ ucs) [1; 2; 3; 4; 5]) ≡ₚ (λ u, queue_end (join_queue u)) <$> [1; 2; 3; 4; 5].
Proof.
  intros Hp. transitivity ((λ u, queue_end (join_queue u)) <$> (parts ≫= λ ucs, filter (λ u, u ∈ ucs) [1; 2; 3; 4; 5])).
  { clear Hp. induction parts as [|ucs parts IH]; [done|]. cbn [mbind list_bind]. by rewrite IH, fmap_app. }
  assert (Hshare : (parts ≫= λ ucs, filter (λ u, u ∈ ucs) [1; 2; 3; 4; 5]) ≡ₚ List.concat parts); [|by rewrite Hshare, Hp].
  assert (Hin : ∀ ucs u, ucs ∈ parts → u ∈ ucs → u ∈ [1; 2; 3; 4; 5]) by (intros ucs u Hu Hx; rewrite <- Hp; apply elem_concat; by exists ucs).
  assert (Hnd : NoDup (List.concat parts)) by (rewrite Hp; apply (bool_decide_unpack _); vm_compute; exact I).
  clear Hp. induction parts as [|ucs parts IH]; [done|]. cbn [mbind list_bind List.concat] in *. apply NoDup_app in Hnd as (H1 & _ & H2).
  apply Permutation_app; [|apply IH; [|done]; intros ucs' u Hu; apply Hin; by right].
  apply NoDup_Permutation; [apply NoDup_filter; apply (bool_decide_unpack _); vm_compute; exact I|done|].
  intros u. rewrite list_elem_of_filter. split; [by intros [? _]|]. intros Hu. split; [done|]. apply (Hin ucs); [by left|done].
Qed.

(** *** The ends meet *)

Definition fleets : list Fleet := sg_fleet <$> segments.
Definition join_ends : list end_point := (λ u, queue_end (join_queue u)) <$> [1; 2; 3; 4; 5].
Definition gateway_ports : list (string * Z) :=
  [(CLIENT_TRANSACTIONS, DEFAULT_FILTERS topo); (CLIENT_ACCOUNTS, UC2_BANK_NAMES_GROUP_BYS topo)].

Ltac find_port := first [reflexivity|left; reflexivity|right; find_port].

(** What is published to is an input of the same size, or the queue of a join. *)
Lemma ports_meet x n :
  (x, n) ∈ gateway_ports ++ ports_out fleets ↔ (x, n) ∈ ports_in fleets ∨ n = 0 ∧ x ∈ join_queue <$> [1; 2; 3; 4; 5].
Proof.
  change (join_queue <$> [1; 2; 3; 4; 5]) with [UC1_JOIN; UC2_JOIN; UC3_JOIN; UC4_JOIN; UC5_JOIN].
  unfold gateway_ports, ports_out, ports_in, fleets, segments.
  cbn [fmap list_fmap mbind list_bind app sg_fleet fl_inputs fl_outputs fl_size node_segment merge_segment default_segment graph_segment default_outputs].
  rewrite !elem_of_cons, !elem_of_nil. split.
  - intros H. repeat (destruct H as [H|H]; [injection H as -> ->; first [left; find_port|right; split; [reflexivity|find_port]]|]). done.
  - intros [H|[-> H]].
    + repeat (destruct H as [H|H]; [injection H as -> ->; find_port|]). done.
    + repeat (destruct H as [->|H]; [find_port|]). done.
Qed.

(** All the names of exchanges, and all those published to. *)
Lemma names_ok : NoDup (fleets ≫= fl_inputs) ∧ NoDup (fleets ≫= λ f, (fl_outputs f).*1) ∧
  (∀ x, x ∈ (fleets ≫= fl_inputs) ++ (fleets ≫= λ f, (fl_outputs f).*1) ++ (join_queue <$> [1; 2; 3; 4; 5]) → plain_name x = true).
Proof.
  assert (E1 : fleets ≫= fl_inputs = [CLIENT_TRANSACTIONS; UC2_FILTERED_TRANSACTIONS; "uc2_partial_max_amount"; CLIENT_ACCOUNTS;
    "uc2_partial_bank_names"; "uc2_max_amounts_by_bank"; "uc2_bank_id_name_mappings"; UC3_PERIOD_A_TRANSACTIONS; "uc3_sum_by_format"; "uc3_avg";
    UC3_PERIOD_B_TRANSACTIONS; "uc3_average_merged"; UC4_TRANSACTIONS; "uc4_graphs"; "uc4_degree_graphs"; "uc4_high_degree"; "uc4_graphs_to_prune";
    "uc4_pruned"; "uc4_paths"; UC5_TRANSACTIONS; "uc5_converted_transactions"; "uc5_filtered_converted_transactions"]%string) by reflexivity.
  assert (E2 : fleets ≫= (λ f, (fl_outputs f).*1) = [UC1_JOIN; UC2_FILTERED_TRANSACTIONS; UC3_PERIOD_A_TRANSACTIONS; UC4_TRANSACTIONS;
    UC5_TRANSACTIONS; UC3_PERIOD_B_TRANSACTIONS; "uc2_partial_max_amount"; "uc2_max_amounts_by_bank"; "uc2_partial_bank_names";
    "uc2_bank_id_name_mappings"; UC2_JOIN; "uc3_sum_by_format"; "uc3_avg"; "uc3_average_merged"; UC3_JOIN; "uc4_graphs"; "uc4_degree_graphs";
    "uc4_graphs_to_prune"; "uc4_high_degree"; "uc4_pruned"; "uc4_paths"; UC4_JOIN; "uc5_converted_transactions";
    "uc5_filtered_converted_transactions"; UC5_JOIN]%string) by reflexivity.
  rewrite E1, E2. split; [apply (bool_decide_unpack _); vm_compute; exact I|]. split; [apply (bool_decide_unpack _); vm_compute; exact I|].
  apply Forall_forall. apply (bool_decide_unpack _). vm_compute. exact I.
Qed.

(** The names two producers are derived from are the same for no two of them. *)
Lemma producer_name_inj p q : plain_name p.1.1 = true → plain_name q.1.1 = true →
  producer_name p.1.1 p.1.2 p.2 = producer_name q.1.1 q.1.2 q.2 → p = q.
Proof.
  destruct p as [[x i] r], q as [[y j] t]. cbn [fst snd]. unfold producer_name. intros Hx Hy H.
  assert (Hfree : ∀ s, plain_name s = true → chr 58 ∉ chars_of s).
  { intros s [_ Hs]%andb_prop Hin. rewrite forallb_forall in Hs. specialize (Hs _ (proj1 (list_elem_of_In _ _) Hin)). by vm_compute in Hs. }
  assert (Hint : ∀ z, chr 58 ∉ chars_of (str_int z)) by (intros z; apply int_free; [by vm_compute|done]).
  assert (Hs : ∀ s a b, plain_name s = true → split_on (chr 58) (chars_of (s +:+ ":" +:+ str_int a +:+ ":" +:+ str_int b))
    = [chars_of s; chars_of (str_int a); chars_of (str_int b)]).
  { intros s a b Hp. rewrite !chars_of_app. change (chars_of ":") with [chr 58]. cbn [app].
    rewrite split_on_app by by apply Hfree. rewrite split_on_app by apply Hint. by rewrite split_on_free by apply Hint. }
  pose proof (Hs x i r Hx) as H1. rewrite H, (Hs y j t Hy) in H1. injection H1 as E1 E2 E3.
  assert (Hstr : ∀ s s', chars_of s = chars_of s' → s = s') by (intros s s' Es; by rewrite <- (str_of_chars s), Es, str_of_chars).
  apply Hstr in E1, E2, E3. by rewrite E1, (str_int_inj j i E2), (str_int_inj t r E3).
Qed.

Definition producers : list (string * Z * Z) := fleets ≫= λ f, seqZ 0 (fl_size f) ≫= fleet_producers f.

Lemma producer_plain p : p ∈ producers → plain_name p.1.1 = true.
Proof.
  intros (f & (i & (_ & n & Hn)%fleet_producers_elem & _)%list_elem_of_bind & Hf)%list_elem_of_bind.
  apply (proj2 (proj2 names_ok)). rewrite !elem_of_app. right. left. apply list_elem_of_bind. exists f. split; [|done].
  apply list_elem_of_fmap. by exists (p.1.1, n).
Qed.

(** Python's hash does not confuse the names the network uses. *)
Definition names_told_apart : Prop := ∀ p q, p ∈ producers → q ∈ producers →
  uuid5 PRODUCER_NAMESPACE (producer_name p.1.1 p.1.2 p.2) = uuid5 PRODUCER_NAMESPACE (producer_name q.1.1 q.1.2 q.2) →
  producer_name p.1.1 p.1.2 p.2 = producer_name q.1.1 q.1.2 q.2.

Lemma stamps_NoDup : names_told_apart → NoDup (sm_producer <$> (stamp_of uuid5 <$> producers)).
Proof.
  intros Hapart. rewrite <- list_fmap_compose. apply NoDup_fmap_2_strong.
  - intros p q Hp Hq E'. apply producer_name_inj; [by apply producer_plain..|]. apply Hapart; [done..|].
    cbn in E'. apply (f_equal uuid_of_bytes) in E'. unfold derive_producer_id in E'. rewrite !uuid_of_bytes_bytes in E'. by injection E'.
  - destruct names_ok as (_ & Hnd & _). apply producers_NoDup; [exact Hnd|]. unfold fleets, segments. by repeat constructor.
Qed.

(** The ends of the whole network. *)
Lemma network_ends t : topology_ok topo →
  t ∈ (target <$> (shard_publishers CLIENT_TRANSACTIONS (DEFAULT_FILTERS topo) ++ shard_publishers CLIENT_ACCOUNTS (UC2_BANK_NAMES_GROUP_BYS topo)))
    ∨ (∃ x n, (x, n) ∈ ports_out fleets ∧ t ∈ target <$> merge_routes x n) ↔
  (∃ x n i, (x, n) ∈ ports_in fleets ∧ 0 ≤ i < n ∧ t = shard_end x i) ∨ t ∈ join_ends.
Proof.
  intros Hsizes%segment_sizes.
  assert (Hpos : ∀ x n, (x, n) ∈ ports_in fleets → 0 < n).
  { intros x n (f & (rx & [= _ ->] & _)%list_elem_of_fmap & (s & -> & Hs)%list_elem_of_fmap)%list_elem_of_bind. rewrite Forall_forall in Hsizes. by apply Hsizes. }
  assert (Hg : ∀ x n, 0 < n → shard_publishers x n = merge_routes x n).
  { intros x n Hn. unfold shard_publishers, merge_routes. destruct (n =? 0) eqn:E'; [lia|done]. }
  rewrite !Hg by first [exact (Forall_lookup_1 _ _ 0 _ Hsizes eq_refl)|exact (Forall_lookup_1 _ _ 3 _ Hsizes eq_refl)].
  transitivity (∃ x n, (x, n) ∈ gateway_ports ++ ports_out fleets ∧ t ∈ target <$> merge_routes x n).
  { rewrite fmap_app, elem_of_app. split.
    - intros [[Ht|Ht]|(x & n & Hin & Ht)]; [eexists _, _; split; [|exact Ht]; by left|eexists _, _; split; [|exact Ht]; right; by left|].
      exists x, n. split; [|done]. apply elem_of_app. by right.
    - intros (x & n & [[E'|[E'|?%not_elem_of_nil]%elem_of_cons]%elem_of_cons|Hin]%elem_of_app & Ht); [..|done|by right; exists x, n];
        injection E' as -> ->; left; [by left|by right]. }
  split.
  - intros (x & n & [Hin|[-> Hj]]%ports_meet & Ht%target_routes).
    + left. destruct Ht as [[-> _]|(i & Hi & ->)]; [apply Hpos in Hin; lia|]. by exists x, n, i.
    + right. destruct Ht as [[_ ->]|(i & Hi & _)]; [|lia]. unfold join_ends.
      apply list_elem_of_fmap in Hj as (u & -> & Hu). apply list_elem_of_fmap. by exists u.
  - intros [(x & n & i & Hin & Hi & ->)|(u & -> & Hu)%list_elem_of_fmap].
    + exists x, n. split; [apply ports_meet; by left|]. apply target_routes. right. by exists i.
    + exists (join_queue u), 0. split; [apply ports_meet; right; split; [done|by apply list_elem_of_fmap_2]|]. apply target_routes. by left.
Qed.

(** No queue is consumed twice. *)
Lemma ends_NoDup : NoDup ((fleets ≫= λ f, seqZ 0 (fl_size f) ≫= λ idx, (λ rx, shard_end rx idx) <$> fl_inputs f).*1 ++ join_ends.*1).
Proof.
  destruct names_ok as (Hn & _ & Hplain).
  assert (Hf : ∀ f x, f ∈ fleets → x ∈ fl_inputs f → plain_name x = true).
  { intros f x Hf Hx. apply Hplain, elem_of_app. left. apply list_elem_of_bind. by exists f. }
  rewrite fmap_bind_list. erewrite (bind_ext_list _ (λ f, seqZ 0 (fl_size f) ≫= λ idx, (λ rx, rx +:+ str_int idx) <$> fl_inputs f)).
  2: { intros f. rewrite fmap_bind_list. apply bind_ext_list. intros i. by rewrite <- list_fmap_compose. }
  change (join_ends.*1) with (join_queue <$> [1; 2; 3; 4; 5]). apply NoDup_app. split; [|split].
  - apply shard_queues_NoDup; [done|exact Hf|]. unfold fleets, segments. by repeat constructor.
  - intros q (f & (i & (x & -> & Hx)%list_elem_of_fmap & Hi%elem_of_seqZ)%list_elem_of_bind & Hf')%list_elem_of_bind Hj.
    eapply (plain_not_shard _ x i); [| |lia|reflexivity].
    + apply Hplain. rewrite !elem_of_app. by right; right.
    + by apply (Hf f).
  - apply (bool_decide_unpack _). vm_compute. exact I.
Qed.

Lemma network_wired_all : topology_ok topo → names_told_apart →
  (∀ sv, sv ∈ network_services → vars (sv_env sv) (E sv)) →
  ∃ ps, mapR (λ sv, run_main uuid5 (sv_image sv) (E sv)) network_services = Ok ps ∧ wired every ps.
Proof.
  intros Hok Hapart He. pose proof (segment_sizes Hok) as Hsizes. pose proof Hok as [_ Hparts Hbusy]. unfold network_services in *.
  destruct (gateway_built uuid5 topo (E gateway_service)) as (gw & Eg & Htr & Hac); [apply (He gateway_service); by left|].
  destruct (segments_members segments (all_build Hok)) as (pss & Es & Hm); [intros sv Hsv; apply He; right; apply elem_of_app; by left|].
  destruct (joins_members (JOIN_PARTITION topo) (λ idx ucs, join_service_of (Z.of_nat idx) ucs)) as (js & Ej & Hjc & Hjp & Hjs & Hjw);
    [by eexists|done|intros sv Hsv; apply He; right; apply elem_of_app; by right|].
  exists (PGateway gw :: List.concat pss ++ js). split.
  { cbn [mapR]. change (run_main uuid5 (sv_image gateway_service) (E gateway_service)) with (run_main uuid5 "gateway" (E gateway_service)).
    rewrite Eg. cbn [mbind res_bind]. unfold join_services. by rewrite (mapR_app _ _ _ _ _ Es Ej). }
  destruct names_ok as (Hn1 & Hn2 & Hplain). fold fleets in Hm.
  assert (Hcons : (PGateway gw :: List.concat pss ++ js) ≫= consumes ≡ₚ
    (fleets ≫= λ f, seqZ 0 (fl_size f) ≫= λ idx, (λ rx, shard_end rx idx) <$> fl_inputs f) ++ join_ends).
  { cbn [mbind list_bind]. change (consumes (PGateway gw)) with ([] : list end_point). cbn [app]. rewrite bind_app.
    change (js ≫= consumes) with (js ≫= consumes). rewrite Hjc, (fleets_consume uuid5 every fleets pss Hm). by rewrite (joins_share _ Hparts). }
  assert (Hst : (PGateway gw :: List.concat pss ++ js) ≫= stamps ≡ₚ stamp_of uuid5 <$> producers).
  { cbn [mbind list_bind]. change (stamps (PGateway gw)) with ([] : list StampingMOM). cbn [app]. rewrite bind_app.
    rewrite Hjs, app_nil_r. apply (fleets_stamps uuid5 every fleets pss Hm). }
  split.
  - rewrite Hcons, fmap_app. by apply ends_NoDup.
  - intros t. rewrite Hcons, elem_of_app, fleets_consume_elem, <- (network_ends t Hok).
    cbn [mbind list_bind]. rewrite elem_of_app, bind_app, elem_of_app, (fleets_publish uuid5 every fleets pss t Hm), Hjp by by apply Forall_fmap.
    change (publishes (PGateway gw)) with (target <$> (gn_transactions gw ++ gn_accounts gw)). rewrite Htr, Hac, elem_of_nil. tauto.
  - rewrite Hst. by apply stamps_NoDup.
  - constructor; [done|]. apply Forall_app. split; [|done]. clear -Hm. induction Hm as [|f ps fs pss Hf _ IH]; [constructor|].
    cbn [List.concat]. apply Forall_app. split; [by eapply members_windows|done].
Qed.
End network.

(** C9: the deployed network is wired. Let the generator of the deployment produce its
    services for any topology of fleets of at least one node, whose joins share out
    the five use cases, and let every container run with an environment in which the
    variables of its service are set (those whose value Docker Compose does not
    interpolate). Then every [main.py] builds its node, and in the network they form
    every data queue is consumed by exactly one node; a queue is published to (on its
    exchange, with its routing key) if and only if it is consumed (bound to that
    exchange under that key), so nothing is sent where nobody listens and nobody
    waits for what is never sent; no two outputs stamp under one producer id, as long
    as the hash keeps their names apart; and every node of a ring takes at least as
    many messages at once as it holds unacknowledged until a checkpoint, and keeps
    one, so that it cannot block on its own window. *)
Theorem network_is_wired (uuid5 : uuid → string → uuid) (g : env) (every : Z) (topo : Topology) (E : Service → env) :
  topology_ok topo → names_told_apart uuid5 g every topo →
  (∀ sv, sv ∈ (gen_network g every topo []).2.2 → vars (sv_env sv) (E sv)) →
  ∃ ps, mapR (λ sv, run_main uuid5 (sv_image sv) (E sv)) (gen_network g every topo []).2.2 = Ok ps ∧ wired every ps.
Proof.
  destruct (network_generated g every topo []) as [-> _]. apply network_wired_all.
Qed.

(** ** Every node is watched *)

(** Neither a comma nor a dollar in a name, and not empty. *)
Definition clean_name (s : string) : Prop := (chr 44 ∉ chars_of s) ∧ chr 36 ∉ chars_of s.

Lemma clean_app s t : clean_name s → clean_name t → clean_name (s +:+ t).
Proof. unfold clean_name. rewrite chars_of_app, !elem_of_app. tauto. Qed.
Lemma clean_int i : clean_name (str_int i).
Proof. split; apply int_free; by vm_compute. Qed.
Lemma clean_lit s : bool_decide ((chr 44 ∉ chars_of s) ∧ chr 36 ∉ chars_of s) = true → clean_name s.
Proof. by intros H%bool_decide_eq_true. Qed.

Lemma literal_concat l : Forall clean_name l → literal (String.concat "," l) = true.
Proof.
  induction 1 as [|s l [_ Hs] Hl IH]; [done|]. destruct l as [|t l]; [by apply bool_decide_eq_true|].
  change (literal (s +:+ "," +:+ String.concat "," (t :: l)) = true). repeat apply literal_app; [by apply bool_decide_eq_true|done|done].
Qed.

Section watched.
Context (g : env) (every : Z) (topo : Topology).

Lemma clean_numbered s i : clean_name s → s ≠ ""%string → clean_name (s +:+ str_int i) ∧ s +:+ str_int i ≠ ""%string.
Proof. intros Hs Hne. split; [by apply clean_app, clean_int|]. by destruct s. Qed.

Lemma clean_member s i : bool_decide (s ≠ ""%string ∧ (chr 44 ∉ chars_of s) ∧ chr 36 ∉ chars_of s) = true →
  clean_name (s +:+ "_" +:+ str_int i) ∧ s +:+ "_" +:+ str_int i ≠ ""%string.
Proof.
  intros (Hne & H)%bool_decide_eq_true. split; [|by destruct s]. apply clean_app; [done|]. apply (clean_numbered "_"); [by apply clean_lit|done].
Qed.

(** What the supervisors need of a service: a clean name, and that its node reports under it. *)
Definition watched (sv : Service) : Prop := (clean_name (sv_name sv) ∧ sv_name sv ≠ ""%string) ∧
  ("SUPERVISOR_HOST"%string, SUPERVISOR_HOST) ∈ sv_env sv ∧ ("SUPERVISOR_PORT"%string, str_int SUPERVISOR_PORT) ∈ sv_env sv ∧
  ("NODE_NAME"%string, sv_name sv) ∈ sv_env sv.

(** What the supervisors are told by a node of this name. *)
Definition reports_as (name : string) (h : HeartbeatSetup) : Prop :=
  hs_node h = name ∧ hs_host h = SUPERVISOR_HOST ∧ hs_port h = SUPERVISOR_PORT.

Lemma segments_watched : Forall (λ s, ∀ idx, watched (sg_service s idx)) (segments g every topo).
Proof.
  unfold segments. repeat (apply Forall_cons; split); [..|apply Forall_nil_2].
  all: intros idx; unfold watched; cbn [sg_service node_segment merge_segment default_segment graph_segment sv_name sv_env].
  all: (split; [|unfold node_env, merge_env, default_filter_env; cbn [app]; split; [|split]; listed_var]).
  all: first [by apply clean_member|by apply (clean_member "default_filter")|by apply (clean_member "uc4_compute_graph_group_by")].
Qed.

Lemma services_watched : Forall watched (network_services g every topo).
Proof.
  unfold network_services. apply Forall_cons. split; [|apply Forall_app; split].
  - split; [split; [by apply clean_lit|done]|]. split; [|split]; cbn [gateway_service sv_env sv_name gateway_env app]; listed_var.
  - apply Forall_forall. intros sv (s & (idx & -> & _)%list_elem_of_fmap & Hs)%list_elem_of_bind.
    pose proof segments_watched as H. rewrite Forall_forall in H. by apply H.
  - apply Forall_forall. intros sv (i & ucs & -> & _)%elem_of_lookup_imap. unfold watched, join_service_of. cbn [sv_name sv_env].
    split; [by apply (clean_member "join")|]. unfold join_env. cbn [app]. split; [|split]; listed_var.
Qed.

(** The nodes registered are the names of the services, each once. *)
Lemma registered_nodes (svs : list Service) : ∀ nodes, NoDup nodes →
  NoDup (foldl (λ ns sv, register_node (sv_name sv) ns) nodes svs) ∧
  ∀ x, x ∈ foldl (λ ns sv, register_node (sv_name sv) ns) nodes svs ↔ x ∈ nodes ∨ x ∈ sv_name <$> svs.
Proof.
  induction svs as [|sv svs IH]; intros nodes Hnd; cbn [foldl]; [split; [done|]; intros x; split; [by left|by intros [?|?%not_elem_of_nil]]|].
  assert (Hreg : NoDup (register_node (sv_name sv) nodes) ∧ ∀ x, x ∈ register_node (sv_name sv) nodes ↔ x ∈ nodes ∨ x = sv_name sv).
  { unfold register_node. case_bool_decide as Hin; [split; [done|]; intros x; split; [by left|by intros [?| ->]]|]. split.
    - apply NoDup_app. split; [done|]. split; [|apply NoDup_singleton]. by intros x Hx ->%list_elem_of_singleton.
    - intros x. by rewrite elem_of_app, list_elem_of_singleton. }
  destruct Hreg as [H1 H2], (IH _ H1) as [H3 H4]. split; [done|]. intros x. rewrite H4, H2, fmap_cons, elem_of_cons. tauto.
Qed.

(** A supervisor expects the services of the network, each once. *)
Lemma expected_services nclients accounts idx nnodes e s :
  vars (supervisor_vars (gen_compose g every nclients accounts topo).1 idx nnodes) e → supervisor_main e = Ok s →
  (gen_compose g every nclients accounts topo).2.2 = network_services g every topo ∧
  NoDup (ss_expected s) ∧ ∀ x, x ∈ ss_expected s ↔ x ∈ sv_name <$> network_services g every topo.
Proof.
  unfold gen_compose. destruct (network_generated g every topo []) as [E1 E2].
  destruct (gen_network g every topo []) as [nodes [text services]]. cbn [fst snd] in *. subst services. intros Hv Hs. split; [done|].
  destruct (registered_nodes (network_services g every topo) [] NoDup_nil_2) as [Hnd Hin]. rewrite <- E2 in Hnd, Hin. clear E2.
  pose proof services_watched as Hw. rewrite Forall_forall in Hw.
  assert (Hclean : Forall (λ x, clean_name x ∧ x ≠ ""%string) nodes).
  { apply Forall_forall. intros x [?%not_elem_of_nil|(sv & -> & Hsv)%list_elem_of_fmap]%Hin; [done|]. by apply Hw. }
  assert (Hexp : ss_expected s = nodes); [|rewrite Hexp; split; [done|]].
  - unfold supervisor_main in Hs. res_inv. cbn [ss_expected].
    erewrite (var_getenv_or _ _ "EXPECTED_NODES" _ _ Hv); [|unfold supervisor_vars; listed_var|].
    2: { apply literal_concat. eapply Forall_impl; [exact Hclean|]. by intros y [? _]. }
    unfold expected_nodes_csv. rewrite split_concat.
    + apply filter_Forall_all. eapply Forall_impl; [exact Hclean|]. by intros y [_ ?].
    + eapply Forall_impl; [exact Hclean|]. by intros y [[? _] _].
    + assert ("gateway"%string ∈ nodes) as Hg; [|intros ->; by apply not_elem_of_nil in Hg].
      apply Hin. right. apply list_elem_of_fmap. exists (gateway_service topo). split; [done|left].
  - intros x. rewrite Hin. split; [by intros [?%not_elem_of_nil|?]|by right].
Qed.

(** C37: every node of the deployment is watched, and can be started again. A supervisor
    that runs with the environment the generator gives it expects exactly the services
    of the network, each once, by the names of their containers (the names it hands to
    [docker start]); and every node of the network that runs with the environment of
    its service reports to the supervisors, on their port, under the name of its
    container. *)
Theorem network_is_watched (nclients : Z) (accounts : string) (idx nnodes : Z) (e : env) (s : SupervisorSetup) (E : Service → env) :
  let nodes := (gen_compose g every nclients accounts topo).1 in
  let services := (gen_compose g every nclients accounts topo).2.2 in
  vars (supervisor_vars nodes idx nnodes) e → supervisor_main e = Ok s →
  (∀ sv, sv ∈ services → vars (sv_env sv) (E sv)) →
  NoDup (ss_expected s) ∧ (∀ x, x ∈ ss_expected s ↔ x ∈ sv_name <$> services) ∧
  ∀ sv hb, sv ∈ services → make_heartbeat_client (E sv) = Ok hb →
    ∃ h, hb = Some h ∧ reports_as (sv_name sv) h.
Proof.
  cbv zeta. intros Hv Hs HE. destruct (expected_services _ _ _ _ _ _ Hv Hs) as (Esv & Hnd & Hin). rewrite Esv in *.
  split; [done|]. split; [done|]. pose proof services_watched as Hw. rewrite Forall_forall in Hw.
  intros sv hb Hsv Hhb. destruct (Hw sv Hsv) as ([[Hc1 Hc2] Hne] & H1 & H2 & H3). specialize (HE sv Hsv). unfold make_heartbeat_client in Hhb.
  rewrite (var_getenv _ _ _ _ HE H1 eq_refl), (var_getenv_or _ _ _ _ _ HE H2 (literal_int _)), int_str_str_int,
    (var_getenv _ _ _ _ HE H3) in Hhb by by apply bool_decide_eq_true.
  unfold SUPERVISOR_HOST in Hhb at 1. cbn [mbind res_bind] in Hhb. res_inv. eexists. split; [reflexivity|]. unfold reports_as. cbn [hs_node hs_host hs_port].
  by destruct (sv_name sv).
Qed.
End watched.

(** ** The deployment as it is configured *)

(** A polynomial hash, in place of [uuid5]. *)
#[local] Definition demo_uuid5 (namespace : uuid) (name : string) : uuid :=
  uuid_lit (foldl (λ h c, (h * 257 + Z.of_nat (Ascii.nat_of_ascii c)) mod 2 ^ 127) 0 (chars_of name)).

Lemma network_is_wired_witness : let E := λ sv, dict_of (sv_env sv) in
  ∃ ps, mapR (λ sv, run_main demo_uuid5 (sv_image sv) (E sv)) (gen_network [] 1000 topology []).2.2 = Ok ps ∧ wired 1000 ps ∧ length ps = 42%nat.
Proof.
  cbv zeta. destruct (network_is_wired demo_uuid5 [] 1000 topology (λ sv, dict_of (sv_env sv))) as (ps & Er & Hw).
  - split; apply (bool_decide_unpack _); vm_compute; exact I.
  - assert (Hall : NoDup ((λ p, uuid_int (demo_uuid5 PRODUCER_NAMESPACE (producer_name p.1.1 p.1.2 p.2))) <$> producers [] 1000 topology)).
    { apply (bool_decide_unpack _). vm_compute. exact I. }
    intros p q [a Ha]%list_elem_of_lookup [b Hb]%list_elem_of_lookup E'. apply (f_equal uuid_int) in E'.
    assert (a = b) as ->; [|by rewrite Ha in Hb; injection Hb as ->].
    eapply (NoDup_lookup _ a b _ Hall); rewrite list_lookup_fmap; [by rewrite Ha|]. rewrite Hb. exact (f_equal Some (eq_sym E')).
  - assert (Hall : Forall (λ sv, Forall (λ kv : string * string, literal kv.2 = true → dget (dict_of (sv_env sv)) kv.1 = Some kv.2) (sv_env sv))
      (gen_network [] 1000 topology []).2.2).
    { apply (bool_decide_unpack _). vm_compute. exact I. }
    intros sv Hsv k v Hkv. rewrite Forall_forall in Hall. specialize (Hall sv Hsv). cbn beta in Hall. rewrite Forall_forall in Hall.
    exact (Hall (k, v) Hkv).
  - exists ps. split; [exact Er|]. split; [exact Hw|]. rewrite (mapR_length _ _ _ Er). vm_compute. reflexivity.
Defined.

Lemma network_is_watched_witness :
  let c := gen_compose [] 1000 2 "accounts.csv" topology in
  let e := dset (dset (dict_of (supervisor_vars c.1 0 5)) "HEARTBEAT_TIMEOUT" "3") "REVIVE_INTERVAL" "0.5" in
  ∃ s, supervisor_main e = Ok s ∧ "uc4_prune_1"%string ∈ ss_expected s ∧
    make_heartbeat_client (dset (dict_of (node_env [] 1000 "filter" "uc3_average_filter" 2 0 "uc3_average_merged" UC3_JOIN true false [] 1)) "HEARTBEAT_INTERVAL" "1")
      = Ok (Some (mkHeartbeat "uc3_average_filter_1" "filter" "supervisor" 9100 (PyFloat.f_of_dec 1 0))).
Proof.
  cbv zeta. set (e := dset (dset _ _ _) _ _). assert (∃ s, supervisor_main e = Ok s) as [s Es] by (eexists; vm_compute; reflexivity).
  exists s. split; [exact Es|]. split; [|vm_compute; reflexivity].
  destruct (network_is_watched [] 1000 topology 2 "accounts.csv" 0 5 e s (λ sv, dict_of (sv_env sv))) as (_ & Hexp & _).
  - assert (Hall : Forall (λ kv : string * string, literal kv.2 = true → dget e kv.1 = Some kv.2)
      (supervisor_vars (gen_compose [] 1000 2 "accounts.csv" topology).1 0 5)) by (apply (bool_decide_unpack _); vm_compute; exact I).
    intros k v Hkv. rewrite Forall_forall in Hall. exact (Hall (k, v) Hkv).
  - exact Es.
  - assert (Hall : Forall (λ sv, Forall (λ kv : string * string, literal kv.2 = true → dget (dict_of (sv_env sv)) kv.1 = Some kv.2) (sv_env sv))
      (gen_compose [] 1000 2 "accounts.csv" topology).2.2) by (apply (bool_decide_unpack _); vm_compute; exact I).
    intros sv Hsv k v Hkv. rewrite Forall_forall in Hall. specialize (Hall sv Hsv). cbn beta in Hall. rewrite Forall_forall in Hall. exact (Hall (k, v) Hkv).
  - apply Hexp. apply (bool_decide_unpack _). vm_compute. exact I.
Defined.
