(* ===== verification/Chaos.v ===== *)
(** * Failures on purpose: [chaos/main.py], [common/fault_injection.py]

    Which containers the chaos service kills, and when a node with an injected fault
    crashes. Python's random generator is an argument: the number of kills of a wave
    and the sample of the pool; Docker appears as the names of the running
    containers. *)

From S2P Require Import Prelude.
From S2P Require Import PyDict.
From S2P Require Import PyValues.
From S2P Require Import PyText.
From S2P Require Import PyFloat.
From S2P Require Import Wire.
From S2P Require Import Amqp.
From S2P Require Import Nodes.

#[local] Open Scope string_scope.
#[local] Open Scope list_scope.

(** ** [chaos/main.py] *)

(** [s.startswith(prefix)] *)
Definition starts_with (s prefix : string) : bool :=
  bool_decide (take (length (chars_of prefix)) (chars_of s) = chars_of prefix).

Definition INFRA_PREFIXES : list string := ["client"].

(** [_excluded] *)
Definition excluded (name : string) (exclude : pyset string) : bool :=
  existsb (λ e, String.eqb name e || starts_with name (e +:+ "_")) exclude.

(** May be killed. *)
Definition killable (exclude : pyset string) (c : string) : bool :=
  negb (excluded c exclude) && negb (existsb (starts_with c) INFRA_PREFIXES).

(** The sorted pool [select_victims] samples. *)
Definition victim_pool (candidates : list string) (exclude : pyset string) : list string :=
  merge_sort (λ a b, Is_true (str_leb a b)) (filter (λ c, killable exclude c = true) candidates).

(** [rng.sample(pool, k)] raises for a negative [k]. *)
Definition select_victims (sample : list string → nat → list string) (candidates : list string) (exclude : pyset string) (kills : Z)
    : res (list string) :=
  match victim_pool candidates exclude with
  | [] => Ok []
  | pool =>
      let k := Z.min kills (Z.of_nat (length pool)) in
      if (k <? 0)%Z then Exc ValueError else Ok (sample pool (Z.to_nat k))
  end.

Record ChaosSetup := mkChaos {
  ch_interval : float;
  ch_kmin : Z;
  ch_kmax : Z;
  ch_start_delay : float;
  ch_seed : option Z;
  ch_explicit : list string;
  ch_exclude : pyset string
}.

Definition CHAOS_EXCLUDE_DEFAULT := "rabbitmq,supervisor,gateway,chaos".

(** What [main] reads; [None] when the service is not armed. *)
Definition chaos_main (e : env) : res (option ChaosSetup) :=
  if negb (String.eqb (getenv_or e "CHAOS_ENABLED" "0") "1") then Ok None
  else
    interval ← float_str (getenv_or e "CHAOS_INTERVAL" "30");
    kmin ← int_str (getenv_or e "CHAOS_KILLS_MIN" (getenv_or e "CHAOS_KILLS" "1"));
    kmax ← int_str (getenv_or e "CHAOS_KILLS_MAX" (getenv_or e "CHAOS_KILLS" (str_int kmin)));
    start_delay ← float_str (getenv_or e "CHAOS_START_DELAY" "5");
    seed ← match getenv e "CHAOS_SEED" with
           | None | Some EmptyString => Ok None
           | Some s => n ← int_str s; Ok (Some n)
           end;
    let explicit := filter (λ t, t ≠ "") (str_split (chr 44) (getenv_or e "CHAOS_TARGETS" "")) in
    let exclude := set_of (filter (λ t, t ≠ "") (str_split (chr 44) (getenv_or e "CHAOS_EXCLUDE" CHAOS_EXCLUDE_DEFAULT))) in
    Ok (Some (mkChaos interval kmin kmax start_delay seed explicit exclude)).

(** One turn of the loop: the containers killed. *)
Definition chaos_wave (sample : list string → nat → list string) (s : ChaosSetup) (running_containers : list string) (kills : Z)
    : res (list string) :=
  let candidates := match ch_explicit s with [] => running_containers | l => l end in
  select_victims sample candidates (ch_exclude s) kills.

(** [rng.sample]: so many elements of the population, no position twice. *)
Definition samples (sample : list string → nat → list string) : Prop :=
  ∀ pool k, (k ≤ length pool)%nat → length (sample pool k) = k ∧ ∃ rest, sample pool k ++ rest ≡ₚ pool.

Lemma victim_pool_elem c candidates exclude :
  c ∈ victim_pool candidates exclude ↔ c ∈ candidates ∧ killable exclude c = true.
Proof. unfold victim_pool. rewrite merge_sort_Permutation, list_elem_of_filter. tauto. Qed.

(** The victims of a wave are killable candidates, as many as asked for as long as
    there are so many, and none is killed twice. *)
Lemma victims_spec sample candidates exclude kills : samples sample → (0 ≤ kills)%Z → ∃ victims,
  select_victims sample candidates exclude kills = Ok victims ∧
  length victims = (Z.to_nat kills `min` length (victim_pool candidates exclude))%nat ∧
  (∀ v, v ∈ victims → v ∈ candidates ∧ killable exclude v = true) ∧
  (NoDup candidates → NoDup victims).
Proof.
  intros Hs Hk. unfold select_victims. assert (Hel := λ v, victim_pool_elem v candidates exclude).
  assert (Hnd : NoDup candidates → NoDup (victim_pool candidates exclude)).
  { intros H. unfold victim_pool. rewrite merge_sort_Permutation. by apply NoDup_filter. }
  destruct (victim_pool candidates exclude) as [|p pool] eqn:E.
  - exists []. split; [done|]. split; [cbn; lia|]. split; [by intros v ?%not_elem_of_nil|]. intros _. apply NoDup_nil_2.
  - set (P := p :: pool) in *. cbv zeta. rewrite (proj2 (Z.ltb_ge _ _)) by lia.
    destruct (Hs P (Z.to_nat (Z.min kills (Z.of_nat (length P))))) as [Hl [rest Hp]]; [lia|]. eexists. split; [reflexivity|].
    split; [rewrite Hl; lia|]. split.
    + intros v Hv. apply Hel. rewrite <- Hp, elem_of_app. by left.
    + intros Hc. apply Hnd in Hc. rewrite <- Hp in Hc. by apply NoDup_app in Hc as [? _].
Qed.

(** ** [fault_injection.py] *)

Record FaultSetup := mkFault {
  ft_enabled : bool;
  ft_crash_point : string;
  ft_crash_node : string;
  ft_node_id : string;
  ft_sentinel : string
}.

(** [os.getenv(a) or b] *)
Definition getenv_else (e : env) (k other : string) : string :=
  match getenv e k with None | Some EmptyString => other | Some v => v end.

Definition fault_setup (e : env) : FaultSetup :=
  mkFault (String.eqb (getenv_or e "FAULT_INJECTION" "0") "1") (getenv_or e "FAULT_CRASH_POINT" "") (getenv_or e "FAULT_CRASH_NODE" "")
    (getenv_else e "NODE_ID" (getenv_else e "STRATEGY" (getenv_or e "HOSTNAME" "")))
    (path_join (getenv_or e "STATE_DIR" "/tmp") ".fault_fired").

(** Whether the process ends there, and whether the sentinel exists afterwards;
    [writable] tells whether the sentinel can be created. *)
Definition maybe_crash (f : FaultSetup) (writable sentinel : bool) (point : string) : bool * bool :=
  if negb (ft_enabled f) || negb (String.eqb point (ft_crash_point f)) then (false, sentinel)
  else if negb (String.eqb (ft_crash_node f) "") && negb (String.eqb (ft_crash_node f) (ft_node_id f)) then (false, sentinel)
  else if sentinel then (false, sentinel)
  else (true, writable || sentinel).

(** The points the process passes, over its restarts: those at which it crashed. *)
Fixpoint crashes (f : FaultSetup) (writable sentinel : bool) (points : list string) : list string :=
  match points with
  | [] => []
  | p :: points =>
      let '(crash, sentinel) := maybe_crash f writable sentinel p in
      (if crash then [p] else []) ++ crashes f writable sentinel points
  end.

Lemma fired_once f points : crashes f true true points = [].
Proof.
  induction points as [|p points IH]; [done|]. cbn [crashes]. unfold maybe_crash.
  repeat case_match; simplify_eq; by cbn [app].
Qed.

(** A fault that can record itself fires once, at the first pass of its point on its
    node, and never again. *)
Theorem fault_fires_once (f : FaultSetup) (points : list string) :
  crashes f true false points =
    if ft_enabled f && (String.eqb (ft_crash_node f) "" || String.eqb (ft_crash_node f) (ft_node_id f))
       && bool_decide (ft_crash_point f ∈ points)
    then [ft_crash_point f] else [].
Proof.
  induction points as [|p points IH]; [by rewrite !andb_false_r|]. cbn [crashes]. unfold maybe_crash.
  destruct (ft_enabled f) eqn:He; [|cbn [negb orb app]; by rewrite IH].
  cbn [negb orb andb] in *. destruct (String.eqb_spec p (ft_crash_point f)) as [->|Hp]; cbn [negb].
  - destruct (String.eqb_spec (ft_crash_node f) "") as [Hn|Hn], (String.eqb_spec (ft_crash_node f) (ft_node_id f)) as [Hm|Hm];
      cbn [negb orb andb app] in *.
    all: first [by rewrite IH|rewrite bool_decide_true by left; by rewrite fired_once].
  - rewrite IH. cbn [app]. assert (bool_decide (ft_crash_point f ∈ p :: points) = bool_decide (ft_crash_point f ∈ points)) as ->; [|done].
    apply bool_decide_ext. rewrite elem_of_cons. split; [by intros [<-|]|by right].
Qed.
