(* ===== verification/Revival.v ===== *)
(** * What is killed is started again

    The chaos service, the supervisors and the deployment together: a wave kills
    only nodes the supervisors watch, and a leader whose revival is not disabled asks
    docker to start each of them again. *)

From S2P Require Import Prelude.
From S2P Require Import PyDict.
From S2P Require Import PyValues.
From S2P Require Import PyText.
From S2P Require Import PyFloat.
From S2P Require Import Wire.
From S2P Require Import Amqp.
From S2P Require Import Nodes.
From S2P Require Import Compose.
From S2P Require Import Deployment.
From S2P Require Import Network.
From S2P Require Import Registry.
From S2P Require Import Chaos.

#[local] Open Scope string_scope.
#[local] Open Scope list_scope.






(** ** The leader's side *)













(** ** The process of a leader ([supervisor/main.py], [runtime/leader_runtime.py])

    A registry, and a reviver unless the interval disables it. Its threads interleave:
    the clients' (registrations and heartbeats), the sweeper's, the reviver's. *)


















(** ** A concrete wave *)


