(* ===== verification/Processes.v ===== *)
(** * Processes: [common/heartbeat/run.py], [client/main.py], [gateway/gateway.py], [join/join.py]

    How the programs start and stop. A thread appears as the phase it has reached,
    the network as what it answers, and the signals as events among the others. *)

From S2P Require Import Prelude.
From S2P Require Import PyDict.
From S2P Require Import PyValues.
From S2P Require Import PyText.
From S2P Require Import Wire.
From S2P Require Import Connection.
From S2P Require Import Amqp.
From S2P Require Import Nodes.
From S2P Require Import Gateway.

(** ** [run_with_heartbeat] *)

Inductive run_event := HeartbeatStarted | NodeRan | HeartbeatStopped.

(** [node] is how the blocking start of the node ends. *)
Definition run_with_heartbeat (e : env) (node : res unit) : list run_event * res unit :=
  match make_heartbeat_client e with
  | Exc err => ([], Exc err)
  | Ok None => ([NodeRan], node)
  | Ok (Some _) => ([HeartbeatStarted; NodeRan; HeartbeatStopped], node)
  end.

(** The heartbeats stop with the node, however it ends. *)
Lemma heartbeat_stops e node : HeartbeatStarted ∈ (run_with_heartbeat e node).1 → last (run_with_heartbeat e node).1 = Some HeartbeatStopped.
Proof.
  unfold run_with_heartbeat. destruct (make_heartbeat_client e) as [[h|]|err]; [done|..]; intros H; exfalso.
  - by apply list_elem_of_singleton in H.
  - by apply not_elem_of_nil in H.
Qed.

(** ** [client/main.py] *)

Definition GATEWAY_CONNECT_RETRIES : nat := 30.

(** The attempts left, the answer of each being [connects]; the number of the one that
    connects. Only an [OSError] is waited out. *)
Fixpoint connect_attempts (port : res Z) (connects : nat → bool) (n : nat) (i : nat) : res nat :=
  match n with
  | O => Exc ConnectionError
  | S n => _ ← port; if connects i then Ok i else connect_attempts port connects n (S i)
  end.

Definition client_connect (gateway_port : string) (connects : nat → bool) : res nat :=
  connect_attempts (int_str gateway_port) connects GATEWAY_CONNECT_RETRIES 0.

Lemma connect_attempts_spec port p connects n : port = Ok p → ∀ i,
  match connect_attempts port connects n i with
  | Ok j => (i ≤ j < i + n)%nat ∧ connects j = true ∧ ∀ k, (i ≤ k < j)%nat → connects k = false
  | Exc e => e = ConnectionError ∧ ∀ k, (i ≤ k < i + n)%nat → connects k = false
  end.
Proof.
  intros ->. induction n as [|n IH]; intros i; cbn [connect_attempts mbind res_bind]; [split; [done|lia]|].
  destruct (connects i) eqn:E; [split; [lia|]; split; [done|lia]|]. specialize (IH (S i)).
  destruct (connect_attempts (Ok p) connects n (S i)) as [j|e].
  - destruct IH as (H1 & H2 & H3). split; [lia|]. split; [done|]. intros k Hk. destruct (decide (k = i)) as [->|]; [done|]. apply H3. lia.
  - destruct IH as (H1 & H2). split; [done|]. intros k Hk. destruct (decide (k = i)) as [->|]; [done|]. apply H2. lia.
Qed.

(** The client uses the first connection the gateway accepts, and gives up after
    thirty refusals. *)
Theorem client_connects (gateway_port : string) (p : Z) (connects : nat → bool) : int_str gateway_port = Ok p →
  match client_connect gateway_port connects with
  | Ok j => (j < 30)%nat ∧ connects j = true ∧ ∀ k, (k < j)%nat → connects k = false
  | Exc e => e = ConnectionError ∧ ∀ k, (k < 30)%nat → connects k = false
  end.
Proof.
  intros Hp. unfold client_connect. pose proof (connect_attempts_spec _ p connects GATEWAY_CONNECT_RETRIES Hp 0) as H.
  destruct (connect_attempts _ _ _ _) as [j|e]; unfold GATEWAY_CONNECT_RETRIES in H.
  - destruct H as (H1 & H2 & H3). split; [lia|]. split; [done|]. intros k Hk. apply H3. lia.
  - destruct H as (H1 & H2). split; [done|]. intros k Hk. apply H2. lia.
Qed.

(** ** [gateway/gateway.py] *)

(** The accept loop: whether it goes on, the handlers started, the clients registered
    and, once it has ended, the clients it stopped. *)
Record Listener := mkListener {
  ln_keep_running : bool;
  ln_started : list uuid;
  ln_clients : ClientStreamMonitor;
  ln_stopped : option (list uuid)
}.

(** A connection is accepted, or [accept] fails; a handler registers its client or
    unregisters it; a signal asks to stop, and the socket is closed or its shutdown
    raises, which leaves it open. *)
Inductive listener_event :=
  | ConnAccepted (id : uuid)
  | AcceptFails
  | ClientRegisters (id : uuid)
  | ClientLeaves (id : uuid)
  | StopSignal (shutdown_ok : bool).

Definition listener_init : Listener := mkListener true [] [] None.

(** The end of the loop: [stop_all]. *)
Definition listener_end (l : Listener) : Listener :=
  let '(clients, stopped) := monitor_stop_all (ln_clients l) in
  mkListener (ln_keep_running l) (ln_started l) clients (Some stopped).

Definition listener_step (l : Listener) (ev : listener_event) : Listener :=
  match ev with
  | ClientRegisters id => mkListener (ln_keep_running l) (ln_started l) (monitor_add (ln_clients l) id) (ln_stopped l)
  | ClientLeaves id => mkListener (ln_keep_running l) (ln_started l) (monitor_remove (ln_clients l) id) (ln_stopped l)
  | _ =>
      match ln_stopped l, ev with
      | Some _, _ => l
      | None, ConnAccepted id =>
          let l' := mkListener (ln_keep_running l) (ln_started l ++ [id]) (ln_clients l) None in
          if ln_keep_running l then l' else listener_end l'
      | None, AcceptFails => listener_end l
      | None, StopSignal ok =>
          let l' := mkListener false (ln_started l) (ln_clients l) None in
          if ok then listener_end l' else l'
      | None, _ => l
      end
  end.

(** The loop after the events so far. *)
Definition listener_run (evs : list listener_event) : Listener := foldl listener_step listener_init evs.

(** The clients that have registered and not left. *)
Definition registered (evs : list listener_event) : ClientStreamMonitor :=
  foldl (λ m ev, match ev with ClientRegisters id => monitor_add m id | ClientLeaves id => monitor_remove m id | _ => m end) [] evs.

Lemma listener_registered evs : ln_stopped (listener_run evs) = None → ln_clients (listener_run evs) = registered evs.
Proof.
  unfold listener_run, registered. induction evs as [|ev evs IH] using rev_ind; [done|]. rewrite !foldl_app. cbn [foldl].
  set (l := foldl listener_step listener_init evs) in *. intros H.
  assert (Hn : ln_stopped l = None).
  { destruct (ln_stopped l) eqn:E; [|done]. exfalso. destruct ev; cbn in H; rewrite ?E in H; by cbn in H. }
  rewrite <- (IH Hn). destruct ev as [id| |id|id|ok]; cbn in H |- *; rewrite ?Hn in H |- *; try done.
  - by destruct (ln_keep_running l).
  - by destruct ok.
Qed.

(** When the loop ends it stops exactly the clients that had registered and not left:
    a client that is accepted but has not been registered yet is not stopped. *)
Theorem listener_stops_registered (evs : list listener_event) (ev : listener_event) :
  ln_stopped (listener_run evs) = None → ln_stopped (listener_run (evs ++ [ev])) ≠ None →
  ln_stopped (listener_run (evs ++ [ev])) = Some (registered evs) ∧ ln_clients (listener_run (evs ++ [ev])) = [].
Proof.
  intros Hn Hs. rewrite <- (listener_registered evs Hn). unfold listener_run in *. rewrite foldl_app in Hs |- *. cbn [foldl] in Hs |- *.
  set (l := foldl listener_step listener_init evs) in *. destruct ev as [id| |id|id|ok]; cbn in Hs |- *; rewrite ?Hn in Hs |- *; try done.
  - by destruct (ln_keep_running l).
  - by destruct ok.
Qed.

(** The gateway stops while a client is at its handshake. *)
Example handshake_left_running : ∀ id, let l := listener_run [ConnAccepted id; StopSignal true; ClientRegisters id] in
  ln_started l = [id] ∧ ln_stopped l = Some [] ∧ ln_clients l = [id].
Proof. done. Qed.

(** ** [join/join.py] *)

(** A route handler: what its thread has built so far. *)
Inductive route_phase := RouteCreated | RoutePublisher | RouteConsuming.
Record RouteThread := mkRoute { rt_uc : Z; rt_phase : route_phase }.

Inductive join_effect := StopsConsuming (uc : Z) | ClosesQueue (uc : Z) | ClosesPublisher (uc : Z).

(** [Join.start]: the use cases, in the order of their handlers; the first one gets the
    main thread. *)
Definition join_threads (handlers : list JoinInput) : res (list Z) :=
  match handlers with [] => Exc IndexError | h :: rest => Ok ((ji_uc <$> rest) ++ [ji_uc h]) end.

(** [JoinRouteHandler.stop], then [close] *)
Definition route_stop (r : RouteThread) : list join_effect * res unit :=
  match rt_phase r with
  | RouteCreated => ([], Exc AttributeError)
  | RoutePublisher => ([ClosesPublisher (rt_uc r)], Ok tt)
  | RouteConsuming => ([StopsConsuming (rt_uc r); ClosesQueue (rt_uc r); ClosesPublisher (rt_uc r)], Ok tt)
  end.

(** [Join.stop] *)
Fixpoint join_stop (routes : list RouteThread) : list join_effect * res unit :=
  match routes with
  | [] => ([], Ok tt)
  | r :: routes =>
      match route_stop r with
      | (effs, Exc e) => (effs, Exc e)
      | (effs, Ok _) => let '(effs', res) := join_stop routes in (effs ++ effs', res)
      end
  end.

(** Stopping closes what every handler has opened, up to the first one whose thread has
    not built its publisher yet; that one raises, and those after it are left open. *)
Theorem join_stop_exact (before : list RouteThread) :
  Forall (λ r, rt_phase r ≠ RouteCreated) before →
  join_stop before = (List.concat ((λ r, (route_stop r).1) <$> before), Ok tt) ∧
  ∀ r after, rt_phase r = RouteCreated → join_stop (before ++ r :: after) = (List.concat ((λ r, (route_stop r).1) <$> before), Exc AttributeError).
Proof.
  induction 1 as [|r before Hr _ [IH1 IH2]]; cbn [join_stop app fmap list_fmap List.concat].
  - split; [done|]. intros r after Hr. cbn [join_stop]. unfold route_stop. by rewrite Hr.
  - assert (∃ effs, route_stop r = (effs, Ok tt)) as [effs E] by (unfold route_stop; destruct (rt_phase r); [done|by eexists..]).
    rewrite E, IH1. split; [done|]. intros r' after Hr'. by rewrite (IH2 r' after Hr').
Qed.
